(* ===== verification/_CoqProject ===== *)
-Q . S2P
Prelude.v
Outcome.v
ByteBuffer.v
Types.v
Flow.v
Frame.v
FrameFacts.v
FrameCodec.v
Huffman.v
HuffmanFacts.v
HpackTable.v
HpackTableFacts.v
Hpack.v
HpackFacts.v
HeaderRules.v
HeaderFacts.v
HpackSize.v
FrameParse.v
Stream.v
ProtocolEvent.v
ProtocolState.v
Protocol.v
ProtocolHandlers.v
ProtocolInv.v
ProtocolFrame.v
ProtocolFacts.v
ProtocolSafety.v
ProtocolOps.v
ProtocolBlind.v
ProtocolLedger.v
ProtocolRuns.v
Wire.v
ProtocolSends.v
SendRuns.v
ProtocolReceives.v
SendProgress.v
Deviations.v
Std.v
RequestContext.v
Transport.v
Session.v
SessionFacts.v
SessionProps.v
Reactor.v
ReactorFacts.v
Pollers.v
CallbackDispatcher.v
Endpoint.v
IHttpSession.v
SessionLaws.v
ManagerState.v
Connection.v
ConnectionManager.v
ManagerSteps.v
ManagerInv.v
ManagerTimers.v
ManagerRequests.v
ManagerQueues.v
ManagerLinks.v
ManagerConnections.v
ManagerSubmit.v
ManagerEvents.v
ManagerPools.v
ManagerTasks.v
ManagerClosing.v
ManagerSends.v
ManagerRuns.v
ManagerThreads.v
ManagerProps.v
Client.v
ClientProps.v
GetTool.v
Posix.v
PosixLaws.v
PosixSim.v
Connector.v
ConnectorProps.v
StreamTransport.v
TlsLaws.v
TransportProps.v
