(* ===== verification/Prelude.v ===== *)
(** * chttp2: a verification of the HTTP/2 client library

    chttp2 is a client: an application sends requests through [Client]; a
    [ConnectionManager] finds or opens a [Connection] to the endpoint, on a
    [Reactor] that runs on one thread; a connection drives an
    [Http2Session], which moves bytes between a stream transport (a socket,
    or TLS over one) and the state machine [Http2Protocol]; the protocol uses
    the frame codec, HPACK with its Huffman code, streams and flow-control
    windows.  All of these are modelled, from the source and one definition
    per function, and what each promises to the next is proved.  File names
    below are relative to [src/src] and [src/include/chttp2].

    ** How the code is modelled

    - [Outcome.v]: a C++ call returns, throws, reaches undefined behaviour or
      runs for ever ([Ok], [Fault]).  A member function is a computation of
      the state monad [st] on the record of its class; [wp] is the logic of
      total correctness over it: [wp E m Q s] says that [m] returns with [Q],
      or stops with one of the faults [E].
    - Integers are [Z] with the wrap-around of their type written out ([u8],
      [u16], [u32], [i32], ... of this file); signed overflow is a fault.
      Bytes are [Byte.byte]; buffers and strings are lists of them.
      [std::map] is a sorted association list, a hash table is a [gmap], and
      the order in which a hash table is visited - which the code cannot rely
      on - is a parameter ([IterOrder], [HashOrder]), so what is proved holds
      for every order.
    - A pointer into a table is the key it was found under; using it after
      the element has been erased is a fault.  Shared objects (request
      contexts, connections) live in stores, and pointers to them are keys.
    - Loops that are not structural take fuel and fault when it ends
      ([Hangs]); the functions of the code are called with enough of it, as
      the safety theorems prove: the length of the body for [body_loop] (a
      turn sends at least a byte), the length of the block for
      [emit_continuations] and for the HPACK loops (a turn consumes at least
      a byte), the bytes received for [receive_loop] (a frame has nine), 33
      doublings for [ensureCapacity].  Connectors and the TLS handshake take
      the fuel as an argument, since it is the system that decides how often
      they are interrupted: [ConnectorProps.v] says when they can run out.

    ** The parts

    Bytes and data: [ByteBuffer.v] (byte_span.hpp, byte_buffer.hpp,
    byte_buffer.cpp), [Types.v] (http2_constants.hpp, header_field.hpp,
    request.hpp, response.hpp, client_config.hpp), [Flow.v] (flow.hpp,
    flow.cpp).

    Frames: [Frame.v] (frame.hpp, frame.cpp) and [FrameCodec.v]
    (frame_codec.hpp, frame_codec.cpp), with lemmas in [FrameFacts.v] and
    [FrameParse.v].

    HPACK: [Huffman.v] (hpack/huffman), [HpackTable.v] (hpack/table),
    [Hpack.v] (hpack/hpack), with [HuffmanFacts.v],
    [HpackTableFacts.v], [HpackFacts.v], [HpackSize.v].

    The protocol: [Stream.v] (stream), [ProtocolEvent.v]
    (protocol_event.hpp), [HeaderRules.v], [ProtocolState.v], [Protocol.v]
    and [ProtocolHandlers.v] (http2_protocol).  The proofs are layered:
    [ProtocolInv.v] the invariant [inv] and the rules for stream pointers,
    [ProtocolFrame.v] what handlers leave alone, [ProtocolFacts.v] and
    [ProtocolSafety.v] one specification per function, [ProtocolOps.v] runs
    of the public interface ([run_calls]), [ProtocolBlind.v] independence
    from the codec's buffer, [ProtocolLedger.v] relations between the state
    and what has been reported and sent, [ProtocolRuns.v] what they give for
    whole runs; for what is sent, [Wire.v] (reading buffers as a peer
    does), [ProtocolSends.v], [SendRuns.v] and [SendProgress.v]; for what is
    received, [ProtocolReceives.v].  [Deviations.v] has the runs in which the
    code leaves RFC 9113 or its own documents.

    Sessions: [RequestContext.v] (request_context), [Transport.v] (results
    of reads and writes), [Session.v] (http2_session), [SessionFacts.v],
    [SessionProps.v].  The connection layer is written against the class
    [IHttpSession] (ihttp_session.hpp, [IHttpSession.v]) and proved against
    its laws; [SessionLaws.v] shows that HTTP/2 sessions keep them.

    The reactor: [Reactor.v] (reactor.cpp, with the descriptors of Linux as
    flags), [ReactorFacts.v], and [Pollers.v], the platform sections of
    reactor.cpp over the calls of the three kernels; [CallbackDispatcher.v]
    (callback_dispatcher).

    Connections and their manager: [Endpoint.v] (endpoint.hpp),
    [ManagerState.v] (connection.hpp, connection_manager.hpp),
    [Connection.v] (connection.cpp), [ConnectionManager.v]
    (connection_manager.cpp) and [ManagerSteps.v], the interleaving of the
    threads: a label is a step of a user thread, of the connector, of the
    reactor's thread, of the dispatcher's or of [close], and a run is any
    list of enabled labels.  The thread a method runs on is a parameter
    ([RunsOn]) that the assertion of the reactor's thread looks at; whether
    assertions are compiled in and whether a data race stops the model are two
    more ([Checks]).  [ManagerInv.v] has the invariant; the files
    [ManagerTimers.v] to [ManagerClosing.v] show that each operation keeps it,
    [ManagerSends.v], [ManagerRuns.v] and [ManagerThreads.v] that each step
    does, and [ManagerProps.v] has the theorems.

    The client: [Client.v] (client.hpp, client.cpp) and [ClientProps.v]; and
    [GetTool.v], the command-line client (tools/chttp2_get.cpp), for which the
    blocking [client.Get] is an argument.

    Sockets: [Posix.v] (platform, socket_fd), [Connector.v] (connector),
    [StreamTransport.v] (stream_transport).  The operating system and the
    TLS library are classes; [PosixLaws.v] and [TlsLaws.v] state what their
    documentation promises, as laws on a view of the state of the process,
    and instances that keep them - [PosixSim.v] and the end of [TlsLaws.v] -
    are what the theorems are run on.

    ** What is proved

    - Nothing goes wrong.  Any run of the protocol, against any peer, returns
      without exception, overflow, dangling pointer or endless loop
      ([protocol_safe]), but for one loop over the streams during which one
      of them can be erased; without request bodies there is no exception
      ([protocol_safe_without_bodies]).  The same for sessions
      ([session_safe]), the HPACK decoder ([hpack_decode_safe]) and the
      interleavings of the steps of a connection manager's threads
      ([manager_safe]), but for a call of [cancel] that finds the reactor
      stopping and handles the request on its own thread: [ManagerProps.v] has
      such a run.
    - Requests are answered.  Streams and responses are accounted for over
      runs of the protocol ([streams_accounted], [requests_answered],
      [stream_ids_consecutive]) and of sessions
      ([session_requests_accounted]); the manager completes a request at most
      once, closing completes all of them, and timeouts fire
      ([completed_at_most_once], [close_completes_all], [timeouts_fire]).
    - What is sent is right.  DATA keeps to the windows the peer grants
      ([flow_control_respected]), bodies arrive in order and are ended once
      ([bodies_delivered]), a peer whose HPACK decoder is bounded by the table
      sizes it announced decodes the header blocks of a whole connection to
      the requests submitted ([header_blocks_decode]), what the windows allow
      is sent ([no_stall]), at most one GOAWAY frame is sent, the one that is
      reported ([goaway_at_most_once]), output is not reordered by partial writes
      ([onWritable_fifo]), and the wire request of the client is the one it
      was asked for ([wire_request_correct], [pseudo_headers_first_iff],
      [send_outcome]); the command-line client asks for what its URL says
      ([get_tool_correct]).
    - What is received is understood.  Reception does not depend on how the
      bytes are cut ([receiveBytes_segmentation]); frames, Huffman code,
      integers and HPACK blocks round trip ([frame_stream_roundtrip],
      [huffman_decode_iff_encode], [vint_roundtrip],
      [hpack_connection_roundtrip]); response headers are accepted exactly
      when they obey RFC 9113 ([validate_iff_rules]); numbers are parsed
      exactly ([number_parsers_exact]).  Over whole runs the body of every
      response handed over is the data the peer sent on its stream, which it
      has ended, and no stream hands over two ([responses_delivered]).
    - Data structures refine what they stand for: the header table a bounded
      queue ([table_refines_fifo]), the timer heap with lazy deletion a finite
      map ([timers_refine_map]), the equality and hash of endpoints a key
      ([endpoint_key_sound]).
    - On Linux, macOS and Windows the reactor keeps the same timers and waits
      for them alike ([platforms_agree]), and gives back its descriptors
      whatever fails ([reactor_descriptors]).
    - Sockets: connecting leaks nothing and keeps its timeout
      ([connect_keeps_descriptors], [connect_within_timeout]); a transport
      releases all it took ([transport_releases_all]), a ready TLS transport
      has authenticated its peer ([tls_ready_authenticated]), and reads and
      writes are what sessions expect ([transport_io_contract]).
    - Where the code falls short, as theorems: two places where a session
      drops a completion ([read_failure_drops_events],
      [refused_submit_dropped]), the runs of [Deviations.v], and the URLs at
      the end of [GetTool.v].

    ** Bounds

    A run of the protocol is a list of calls whose received bytes number at
    most 2^31 in all ([calls_bytes]): the buffers that accumulate them have
    32-bit sizes, and one that had to grow beyond would never stop growing
    ([grow_pow2_hangs]).  The header list of a request is
    below 2^31 bytes and its body below 2^63 ([request_fits]).
    [ClientConfig.wf] asks that the fields of the configuration fit their
    types and the window be below 2^31.  The
    64-bit counters of requests, timers and table entries are not wrapped:
    2^64 of them is out of reach.  The window of [flow_control_respected]
    starts from the value the client assumes, which before the peer's first
    SETTINGS is the client's own.

    ** Interleavings

    The steps of the manager's model are of two grains.  A call of [cancel] is
    cut at each access to what the threads share, an operation on an atomic or
    a critical section ([LCancelStep]), after the one step in which
    [RequestContext::cancel] marks the request and leads to it ([LCancel]); a
    call of [sendAsync] into four: up to the registration of the context, the
    timeout with [setTimerId], the queue of submissions, the post.  The other threads are coarser, and take several
    locks in a step: a posted task, a turn on timers, the events of one
    descriptor, a connection attempt, a callback and [completeRequest] are
    each one step, and [close] is cut where it waits.  What users do between
    two critical sections of one task of the reactor is thus not among the
    runs; nor are two calls of [close] at a time.  The one unlocked access
    that two threads can make at a time is made visible instead: a call of
    [cancel] on its own thread that comes to the tables of the reactor while
    the reactor's thread has not been joined is a fault of its own
    ([data_race]).  The blocking calls of [Client] are the asynchronous ones
    followed by waiting for the future they complete.

    ** Not modelled

    - Logging (log.hpp, the summaries of frames): output only.
    - [Http2Protocol::reset()] as a call of a run: the runs of the protocol go
      from the constructor to the first reset ([ProtocolOps.v], which states
      what a reset leaves).
    - The Windows and macOS branches of platform.cpp, socket_fd.cpp and
      connector.cpp: the model of sockets is the Linux build, and so is the
      model of the manager's threads.  The exit of the reactor's loop when the
      wait fails for another reason than a signal.
    - OpenSSL, the sockets API, threads and locks themselves: parameters, or
      the steps above.
    - What the command-line client prints of the library's log with -v.
    - Tests, examples and benchmarks: not part of the library. *)

From Stdlib Require Export ZArith Lia Strings.Byte.
From stdpp Require Export base tactics option list gmap strings countable sorting.

#[global] Set Default Goal Selector "!".

#[export] Hint Mode Countable ! - : typeclass_instances.

Open Scope Z_scope.

(** ** Automation shared by the development *)

(** The main hint database of the development. *)
Create HintDb h2 discriminated.

(** Rewriting rules for lengths. *)
Create Rewrite HintDb zlen.

(** [split_and_all] opens conjunctions and existentials of the context. *)
Ltac split_and_all :=
  repeat match goal with
  | H : _ /\ _ |- _ => destruct H
  | H : exists _, _ |- _ => destruct H
  end.

(** Turn boolean comparisons of the context into propositions. *)
Ltac bool_to_prop :=
  repeat match goal with
  | H : (_ =? _)%Z = true |- _ => apply Z.eqb_eq in H
  | H : (_ =? _)%Z = false |- _ => apply Z.eqb_neq in H
  | H : (_ <? _)%Z = true |- _ => apply Z.ltb_lt in H
  | H : (_ <? _)%Z = false |- _ => apply Z.ltb_ge in H
  | H : (_ <=? _)%Z = true |- _ => apply Z.leb_le in H
  | H : (_ <=? _)%Z = false |- _ => apply Z.leb_gt in H
  | H : (_ >? _)%Z = true |- _ => rewrite Z.gtb_ltb in H
  | H : (_ >? _)%Z = false |- _ => rewrite Z.gtb_ltb in H
  | H : (_ >=? _)%Z = true |- _ => rewrite Z.geb_leb in H
  | H : (_ >=? _)%Z = false |- _ => rewrite Z.geb_leb in H
  | H : (_ && _)%bool = true |- _ => apply andb_true_iff in H; destruct H
  | H : (_ || _)%bool = false |- _ => apply orb_false_iff in H; destruct H
  | H : negb _ = true |- _ => apply negb_true_iff in H
  | H : negb _ = false |- _ => apply negb_false_iff in H
  end.

(** Case analysis on the first conditional of the goal. *)
Ltac case_if :=
  match goal with
  | |- context [if ?b then _ else _] =>
      lazymatch type of b with bool => destruct b eqn:? | _ => destruct b end
  end.

(** ** Machine integers

    The C++ integers are modelled as [Z]; a conversion to a w-bit type is
    written out as one of the casts below. *)

Definition u8 (z : Z) : Z := z mod 2 ^ 8.
Definition u16 (z : Z) : Z := z mod 2 ^ 16.
Definition u32 (z : Z) : Z := z mod 2 ^ 32.
Definition u64 (z : Z) : Z := z mod 2 ^ 64.
Definition i32 (z : Z) : Z := (z + 2 ^ 31) mod 2 ^ 32 - 2 ^ 31.

Definition INT32_MAX : Z := 2 ^ 31 - 1.
Definition INT32_MIN : Z := - 2 ^ 31.
Definition UINT32_MAX : Z := 2 ^ 32 - 1.
Definition SIZE_MAX : Z := 2 ^ 64 - 1.

Lemma u32_small z : 0 <= z < 2 ^ 32 -> u32 z = z.
Proof. apply Z.mod_small. Qed.

Lemma u8_small z : 0 <= z < 2 ^ 8 -> u8 z = z.
Proof. apply Z.mod_small. Qed.

Lemma u64_small z : 0 <= z < 2 ^ 64 -> u64 z = z.
Proof. apply Z.mod_small. Qed.

Lemma u32_range z : 0 <= u32 z < 2 ^ 32.
Proof. apply Z.mod_pos_bound. lia. Qed.

Lemma u8_range z : 0 <= u8 z < 2 ^ 8.
Proof. apply Z.mod_pos_bound. lia. Qed.

Lemma i32_small z : - 2 ^ 31 <= z < 2 ^ 31 -> i32 z = z.
Proof. intros. unfold i32. rewrite Z.mod_small; lia. Qed.

(** ** Bytes *)

Abbreviation bytes := (list byte).

#[export] Instance byte_eq_dec : EqDecision byte := Byte.byte_eq_dec.

(** Value of a [uint8_t]. *)
Definition b2z (b : byte) : Z := Z.of_N (Byte.to_N b).

(** [static_cast<uint8_t>(z)]. *)
Definition z2b (z : Z) : byte :=
  default x00 (Byte.of_N (Z.to_N (z mod 256))).

Lemma b2z_range b : 0 <= b2z b < 256.
Proof.
  unfold b2z. pose proof (Byte.to_N_bounded b). lia.
Qed.

Lemma b2z_z2b z : b2z (z2b z) = z mod 256.
Proof.
  unfold b2z, z2b.
  assert (Hz : 0 <= z mod 256 < 256) by (apply Z.mod_pos_bound; lia).
  destruct (Byte.of_N (Z.to_N (z mod 256))) as [b|] eqn:E.
  - apply Byte.to_of_N in E. simpl. rewrite E. lia.
  - apply Byte.of_N_None_iff in E. lia.
Qed.

Lemma z2b_b2z b : z2b (b2z b) = b.
Proof.
  unfold z2b. rewrite Z.mod_small by apply b2z_range.
  unfold b2z. rewrite N2Z.id, Byte.of_to_N. done.
Qed.

Lemma b2z_inj b1 b2 : b2z b1 = b2z b2 -> b1 = b2.
Proof. intros H. rewrite <- (z2b_b2z b1), <- (z2b_b2z b2), H. done. Qed.

#[export] Instance byte_countable : Countable byte.
Proof.
  apply (inj_countable' b2z z2b). intros b. apply z2b_b2z.
Defined.

#[export] Hint Resolve b2z_range : h2.

(** A string literal as bytes. *)
Definition bs (s : String.string) : bytes := String.list_byte_of_string s.
Arguments bs s%_string.

(** ** Lists addressed by machine integers *)

Definition zlen {A} (l : list A) : Z := Z.of_nat (length l).
Definition ztake {A} (n : Z) (l : list A) : list A := take (Z.to_nat n) l.
Definition zdrop {A} (n : Z) (l : list A) : list A := drop (Z.to_nat n) l.
Definition znth {A} (l : list A) (n : Z) : option A :=
  if n <? 0 then None else l !! Z.to_nat n.

#[global] Arguments zlen : simpl never.
#[global] Arguments ztake : simpl never.
#[global] Arguments zdrop : simpl never.
#[global] Arguments znth : simpl never.

Section zlist.
Context {A : Type}.
Implicit Types l k : list A.

Lemma zlen_nonneg l : 0 <= zlen l.
Proof. unfold zlen. lia. Qed.

Lemma zlen_nil : zlen (@nil A) = 0.
Proof. done. Qed.

Lemma zlen_cons x l : zlen (x :: l) = 1 + zlen l.
Proof. unfold zlen. simpl. lia. Qed.

Lemma zlen_app l k : zlen (l ++ k) = zlen l + zlen k.
Proof. unfold zlen. rewrite length_app. lia. Qed.

Lemma zlen_0_nil l : zlen l = 0 -> l = [].
Proof. unfold zlen. destruct l; simpl; [done | lia]. Qed.

Lemma zlen_ztake n l : 0 <= n <= zlen l -> zlen (ztake n l) = n.
Proof. unfold zlen, ztake. rewrite length_take. lia. Qed.

Lemma zlen_zdrop n l : 0 <= n <= zlen l -> zlen (zdrop n l) = zlen l - n.
Proof. unfold zlen, zdrop. rewrite length_drop. lia. Qed.

Lemma ztake_zdrop n l : ztake n l ++ zdrop n l = l.
Proof. apply take_drop. Qed.

Lemma ztake_app_exact l k : ztake (zlen l) (l ++ k) = l.
Proof. unfold ztake, zlen. rewrite Nat2Z.id. apply take_app_length. Qed.

Lemma zdrop_app_exact l k : zdrop (zlen l) (l ++ k) = k.
Proof. unfold zdrop, zlen. rewrite Nat2Z.id. apply drop_app_length. Qed.

Lemma ztake_all l : ztake (zlen l) l = l.
Proof. unfold ztake, zlen. rewrite Nat2Z.id. apply firstn_all. Qed.

Lemma zdrop_all l : zdrop (zlen l) l = [].
Proof. unfold zdrop, zlen. rewrite Nat2Z.id. apply drop_all. Qed.

Lemma zdrop_0 l : zdrop 0 l = l.
Proof. done. Qed.

Lemma ztake_0 l : ztake 0 l = [].
Proof. done. Qed.

Lemma zdrop_zdrop m n l : 0 <= m -> 0 <= n -> zdrop m (zdrop n l) = zdrop (n + m) l.
Proof. intros. unfold zdrop. rewrite drop_drop. f_equal. lia. Qed.

Lemma ztake_add m n l : 0 <= m -> 0 <= n -> ztake (m + n) l = ztake m l ++ ztake n (zdrop m l).
Proof.
  intros. unfold ztake, zdrop. rewrite Z2Nat.inj_add by lia.
  rewrite <- (take_take_drop l). done.
Qed.

Lemma ztake_app_le n l k : n <= zlen l -> ztake n (l ++ k) = ztake n l.
Proof. unfold zlen, ztake. intros. apply take_app_le. lia. Qed.

Lemma zdrop_app_le n l k : n <= zlen l -> zdrop n (l ++ k) = zdrop n l ++ k.
Proof. unfold zlen, zdrop. intros. apply drop_app_le. lia. Qed.

Lemma znth_lookup l n x : znth l n = Some x -> 0 <= n < zlen l.
Proof.
  unfold znth, zlen. case_if; [done|]. bool_to_prop. intros H.
  apply lookup_lt_Some in H. lia.
Qed.

Lemma znth_is_Some l n : 0 <= n < zlen l -> exists x, znth l n = Some x.
Proof.
  unfold znth, zlen. intros H. case_if; bool_to_prop; [lia|].
  apply lookup_lt_is_Some. lia.
Qed.
End zlist.

#[export] Hint Rewrite @zlen_nil @zlen_cons @zlen_app : zlen.
#[export] Hint Resolve zlen_nonneg : h2.

(** Normalise lengths, then call [lia]. *)
Ltac zlen_lia :=
  repeat match goal with
  | l : list ?A |- _ =>
      lazymatch goal with
      | _ : 0 <= zlen l |- _ => fail
      | _ => pose proof (zlen_nonneg l)
      end
  end;
  autorewrite with zlen in *; lia.

(** ** Bit operations as arithmetic *)

(** Disjoint bits add up. *)
Lemma lor_shiftl_add a b k : 0 <= k -> 0 <= b < 2 ^ k -> Z.lor (Z.shiftl a k) b = a * 2 ^ k + b.
Proof.
  intros Hk Hb. rewrite <- Z.shiftl_mul_pow2 by lia.
  assert (Hl : Z.land (Z.shiftl a k) b = 0);
    [|pose proof (Z.add_lor_land (Z.shiftl a k) b); lia].
  apply Z.bits_inj'. intros i Hi. rewrite Z.land_spec, Z.bits_0.
  destruct (Z.ltb_spec i k).
  - rewrite Z.shiftl_spec_low by lia. done.
  - rewrite <- (Z.mod_small b (2 ^ k)), Z.mod_pow2_bits_high, andb_false_r by lia. done.
Qed.

(** The mask that clears the reserved bit. *)
Lemma land_31 z : Z.land z 0x7fffffff = z mod 2 ^ 31.
Proof. change 0x7fffffff with (Z.ones 31). apply Z.land_ones. lia. Qed.

Lemma mod_32_31 z : (z mod 2 ^ 32) mod 2 ^ 31 = z mod 2 ^ 31.
Proof.
  change (2 ^ 32) with (2 ^ 31 * 2). rewrite Z.rem_mul_r, Z.mul_comm, Z.mod_add by lia.
  apply Z.mod_mod. lia.
Qed.

(** ** Big-endian encodings *)

(** [n] bytes of [v], most significant first ([ByteBuffer::append<T>]). *)
Fixpoint be_write (n : nat) (v : Z) : bytes :=
  match n with
  | O => []
  | S n' => z2b (Z.shiftr v (8 * Z.of_nat n')) :: be_write n' v
  end.

(** Horner evaluation of a big-endian byte string. *)
Definition be_read (l : bytes) : Z :=
  fold_left (fun v b => v * 256 + b2z b) l 0.

Lemma length_be_write n v : length (be_write n v) = n.
Proof. induction n; simpl; congruence. Qed.

Lemma zlen_be_write n v : zlen (be_write n v) = Z.of_nat n.
Proof. unfold zlen. rewrite length_be_write. done. Qed.
#[export] Hint Rewrite zlen_be_write : zlen.

Lemma fold_be_acc l acc :
  fold_left (fun v b => v * 256 + b2z b) l acc = acc * 256 ^ zlen l + be_read l.
Proof.
  unfold be_read. revert acc. induction l as [|b l IH]; intros acc; cbn [fold_left].
  - rewrite zlen_nil. lia.
  - rewrite IH, (IH (0 * 256 + b2z b)), zlen_cons, Z.pow_add_r by zlen_lia. lia.
Qed.

Lemma be_read_cons b l : be_read (b :: l) = b2z b * 256 ^ zlen l + be_read l.
Proof. unfold be_read at 1. cbn [fold_left]. rewrite fold_be_acc. lia. Qed.

Lemma be_read_range l : 0 <= be_read l < 256 ^ zlen l.
Proof.
  induction l as [|b l IH]; [done|].
  rewrite be_read_cons, zlen_cons, Z.pow_add_r by zlen_lia.
  pose proof (b2z_range b). nia.
Qed.

Lemma be_read_write n v : be_read (be_write n v) = v mod 256 ^ Z.of_nat n.
Proof.
  induction n as [|n IH]; [by rewrite Z.mod_1_r|].
  cbn [be_write]. rewrite be_read_cons, b2z_z2b, IH, zlen_be_write.
  rewrite Z.shiftr_div_pow2 by lia.
  rewrite Z.pow_mul_r by lia. change (2 ^ 8) with 256.
  rewrite Nat2Z.inj_succ, Z.pow_succ_r by lia.
  assert (0 < 256 ^ Z.of_nat n) by (apply Z.pow_pos_nonneg; lia).
  rewrite (Z.mul_comm 256 (256 ^ _)), Z.rem_mul_r by lia. lia.
Qed.

Lemma be_write_mod n v w :
  v mod 256 ^ Z.of_nat n = w mod 256 ^ Z.of_nat n -> be_write n v = be_write n w.
Proof.
  revert v w. induction n as [|n IH]; intros v w H; [done|].
  rewrite Nat2Z.inj_succ, Z.pow_succ_r in H by lia.
  assert (Hp : 0 < 256 ^ Z.of_nat n) by (apply Z.pow_pos_nonneg; lia).
  rewrite (Z.mul_comm 256), !Z.rem_mul_r in H by lia.
  pose proof (Z.mod_pos_bound v _ Hp). pose proof (Z.mod_pos_bound w _ Hp).
  destruct (Z.div_mod_unique (256 ^ Z.of_nat n)
    ((v / 256 ^ Z.of_nat n) mod 256) ((w / 256 ^ Z.of_nat n) mod 256)
    (v mod 256 ^ Z.of_nat n) (w mod 256 ^ Z.of_nat n)) as [Hq Hr]; [lia..|].
  cbn [be_write]. f_equal; [|by apply IH].
  apply b2z_inj. rewrite !b2z_z2b, !Z.shiftr_div_pow2, Z.pow_mul_r by lia. done.
Qed.

Lemma be_write_read n l : length l = n -> be_write n (be_read l) = l.
Proof.
  intros <-. induction l as [|b l IH]; [done|].
  pose proof (be_read_range l) as Hr. pose proof (zlen_nonneg l) as Hl.
  pose proof (Z.pow_pos_nonneg 256 (zlen l) ltac:(lia) Hl) as Hp.
  cbn [be_write length]. f_equal.
  - rewrite be_read_cons, Z.shiftr_div_pow2, Z.pow_mul_r by lia.
    change (2 ^ 8) with 256. change (Z.of_nat (length l)) with (zlen l).
    rewrite Z.div_add_l, (Z.div_small (be_read l)), Z.add_0_r by lia. apply z2b_b2z.
  - transitivity (be_write (length l) (be_read l)); [apply be_write_mod | done].
    rewrite be_read_cons. change (Z.of_nat (length l)) with (zlen l).
    rewrite Z.add_comm, Z.mod_add by lia. done.
Qed.
