(* ===== verification/Outcome.v ===== *)
(** * Outcomes and stateful computations

    What a C++ call can do: return, throw, reach undefined behaviour or run
    for ever.  Member functions that mutate their object are computations of
    the state monad [st] over such outcomes; [wp] is their total-correctness
    logic, indexed by the set of faults that are tolerated. *)

From S2P Require Import Prelude.

(** ** Outcomes *)

Inductive fault : Type :=
| Throws (what : String.string)     (** a C++ exception leaves the call *)
| Undefined (why : String.string)   (** undefined behaviour is reached *)
| Hangs.                            (** a loop exceeds its fuel *)

Inductive outcome (A : Type) : Type :=
| Ok (a : A)
| Fault (f : fault).
Arguments Ok {A} a.
Arguments Fault {A} f.

Definition throw {A} (what : String.string) : outcome A := Fault (Throws what).
Definition undef {A} (why : String.string) : outcome A := Fault (Undefined why).
Arguments throw {A} what%_string.
Arguments undef {A} why%_string.

Definition obind {A B} (m : outcome A) (k : A -> outcome B) : outcome B :=
  match m with Ok a => k a | Fault f => Fault f end.

Definition of_option {A} (f : fault) (o : option A) : outcome A :=
  match o with Some a => Ok a | None => Fault f end.

Declare Scope outcome_scope.
Delimit Scope outcome_scope with outcome.
Notation "'let!' x := m 'in' k" := (obind m (fun x => k))
  (at level 10, x pattern, m at level 100, k at level 200)
  : outcome_scope.
Open Scope outcome_scope.

Definition is_ok {A} (m : outcome A) : bool :=
  match m with Ok _ => true | Fault _ => false end.

Lemma obind_assoc {A B C} (m : outcome A) (k : A -> outcome B) (h : B -> outcome C) :
  obind (obind m k) h = obind m (fun a => obind (k a) h).
Proof. destruct m; done. Qed.

Lemma obind_Ok_inv {A B} (m : outcome A) (k : A -> outcome B) b :
  obind m k = Ok b -> exists a, m = Ok a /\ k a = Ok b.
Proof. destruct m; simpl; [eauto | done]. Qed.

(** Destruct the bound computations of a hypothesis [obind m k = Ok b]. *)
Ltac inv_ok :=
  repeat match goal with
  | H : obind ?m _ = Ok _ |- _ =>
      let a := fresh "a" in let E := fresh "E" in
      apply obind_Ok_inv in H; destruct H as (a & E & H)
  | H : Ok _ = Ok _ |- _ => injection H as H; subst
  | H : Fault _ = Ok _ |- _ => discriminate H
  | H : throw _ = Ok _ |- _ => discriminate H
  | H : undef _ = Ok _ |- _ => discriminate H
  end.

(** ** Stateful computations *)

Definition st (S A : Type) : Type := S -> outcome (A * S).

Section state.
Context {S : Type}.

Definition ret {A} (a : A) : st S A := fun s => Ok (a, s).
Definition bind {A B} (m : st S A) (k : A -> st S B) : st S B :=
  fun s => match m s with Ok (a, s') => k a s' | Fault f => Fault f end.
Definition get : st S S := fun s => Ok (s, s).
Definition gets {A} (f : S -> A) : st S A := fun s => Ok (f s, s).
Definition modify (f : S -> S) : st S unit := fun s => Ok (tt, f s).
Definition lift {A} (m : outcome A) : st S A :=
  fun s => match m with Ok a => Ok (a, s) | Fault f => Fault f end.
Definition fail_with {A} (f : fault) : st S A := fun _ => Fault f.
End state.

Notation "x <- m ;; k" := (bind m (fun x => k))
  (at level 100, m at next level, right associativity) : outcome_scope.
Notation "m ;;; k" := (bind m (fun _ => k))
  (at level 100, right associativity) : outcome_scope.

(** ** A total-correctness logic

    [wp E m Q s]: run from [s], [m] returns a value and a state satisfying
    [Q], or ends with a fault allowed by [E].  With [E := no_fault] the
    computation returns. *)

Definition no_fault : fault -> Prop := fun _ => False.

Definition wp {S A} (E : fault -> Prop) (m : st S A) (Q : A -> S -> Prop) (s : S) : Prop :=
  match m s with Ok (a, s') => Q a s' | Fault f => E f end.

Section wp.
Context {S : Type} {E : fault -> Prop}.

Lemma wp_ret {A} (a : A) (Q : A -> S -> Prop) s : Q a s -> wp E (ret a) Q s.
Proof. done. Qed.

Lemma wp_bind {A B} (m : st S A) (k : A -> st S B) Q s :
  wp E m (fun a s' => wp E (k a) Q s') s -> wp E (bind m k) Q s.
Proof. unfold wp, bind. destruct (m s) as [[a s']|f]; done. Qed.

Lemma wp_bind_inv {A B} (m : st S A) (k : A -> st S B) Q s :
  wp E (bind m k) Q s -> wp E m (fun a s' => wp E (k a) Q s') s.
Proof. unfold wp, bind. destruct (m s) as [[a s']|f]; done. Qed.

Lemma wp_mono {A} (m : st S A) (Q Q' : A -> S -> Prop) s :
  wp E m Q s -> (forall a s', Q a s' -> Q' a s') -> wp E m Q' s.
Proof. unfold wp. destruct (m s) as [[a s']|f]; auto. Qed.

Lemma wp_conj {A} (m : st S A) (Q Q' : A -> S -> Prop) s :
  wp E m Q s -> wp E m Q' s -> wp E m (fun a s' => Q a s' /\ Q' a s') s.
Proof. unfold wp. destruct (m s) as [[a s']|f]; auto. Qed.

Lemma wp_get (Q : S -> S -> Prop) s : Q s s -> wp E get Q s.
Proof. done. Qed.

Lemma wp_gets {A} (f : S -> A) (Q : A -> S -> Prop) s : Q (f s) s -> wp E (gets f) Q s.
Proof. done. Qed.

Lemma wp_modify (f : S -> S) (Q : unit -> S -> Prop) s : Q tt (f s) -> wp E (modify f) Q s.
Proof. done. Qed.

Lemma wp_lift {A} (m : outcome A) (Q : A -> S -> Prop) s a :
  m = Ok a -> Q a s -> wp E (lift m) Q s.
Proof. intros -> ?. done. Qed.

Lemma wp_fail {A} f (Q : A -> S -> Prop) s : E f -> wp E (fail_with f) Q s.
Proof. done. Qed.

Lemma wp_if {A} (b : bool) (m1 m2 : st S A) (Q : A -> S -> Prop) s :
  (b = true -> wp E m1 Q s) -> (b = false -> wp E m2 Q s) ->
  wp E (if b then m1 else m2) Q s.
Proof. destruct b; auto. Qed.
End wp.

(** Regrouping a bind, to use the specification of its first two parts. *)
Lemma wp_bind_assoc {S A B C} {E : fault -> Prop} (m : st S A) (k : A -> st S B) (h : B -> st S C) Q s :
  wp E (bind (bind m k) h) Q s -> wp E (bind m (fun a => bind (k a) h)) Q s.
Proof. unfold wp, bind. by destruct (m s) as [[a s']|f]. Qed.

(** Tolerating more faults. *)
Lemma wp_weaken {S A} (E E' : fault -> Prop) (m : st S A) Q s :
  (forall f, E f -> E' f) -> wp E m Q s -> wp E' m Q s.
Proof. unfold wp. destruct (m s) as [[a s']|f]; auto. Qed.

(** From the logic to the semantics. *)
Lemma wp_run {S A} (m : st S A) (Q : A -> S -> Prop) s :
  wp no_fault m Q s -> exists a s', m s = Ok (a, s') /\ Q a s'.
Proof. unfold wp. destruct (m s) as [[a s']|f]; [eauto | done]. Qed.

Lemma wp_of_run {S A} E (m : st S A) (Q : A -> S -> Prop) s a s' :
  m s = Ok (a, s') -> Q a s' -> wp E m Q s.
Proof. unfold wp. intros ->. done. Qed.

Lemma wp_inv {S A} E (m : st S A) (Q : A -> S -> Prop) s a s' :
  wp E m Q s -> m s = Ok (a, s') -> Q a s'.
Proof. unfold wp. intros H Hm. rewrite Hm in H. done. Qed.

(** One symbolic step of a computation; conditionals are left to the user. *)
Ltac wp_step :=
  lazymatch goal with
  | |- wp _ (bind _ _) _ _ => apply wp_bind
  | |- wp _ (ret _) _ _ => apply wp_ret
  | |- wp _ get _ _ => apply wp_get
  | |- wp _ (gets _) _ _ => apply wp_gets
  | |- wp _ (modify _) _ _ => apply wp_modify
  end;
  cbv beta.
Ltac wp_steps := repeat wp_step.
