(* ===== verification/ByteBuffer.v ===== *)
(** * Byte spans and byte buffers

    [include/chttp2/byte_span.hpp], [include/chttp2/byte_buffer.hpp] and
    [src/byte_buffer.cpp].  A span is its pointed-to bytes and its cursor; a
    buffer is its contents and its capacity (the pointer is null exactly when
    the capacity is 0).  All sizes are [uint32_t] and wrap around. *)

From S2P Require Import Prelude Outcome.

(** ** ByteSpan *)

Module ByteSpan.
Record t := mk { data : bytes; cur : Z }.

(** [ByteSpan(data, size)]: the [size] bytes at [data]. *)
Definition make (d : bytes) : t := mk d 0.
Definition len (sp : t) : Z := zlen (data sp).

Definition size (sp : t) : Z := u32 (len sp - cur sp).
Definition empty (sp : t) : bool := cur sp >=? len sp.

(** [operator[]] indexes from the start of the span, not from the cursor. *)
Definition index (sp : t) (i : Z) : outcome byte :=
  if i >=? len sp then throw "ByteSpan::operator[]: out of range"
  else of_option (Undefined "negative index") (znth (data sp) i).

Definition advance (sp : t) (n : Z) : outcome t :=
  if u32 (cur sp + n) >? len sp then throw "ByteSpan::advance: out of range"
  else Ok (mk (data sp) (u32 (cur sp + n))).

(** [peek<T>()] for a [T] of [n] bytes. *)
Definition peek (n : nat) (sp : t) : outcome Z :=
  if cur sp + Z.of_nat n >? len sp then throw "ByteSpan::peek: out of range"
  else Ok (fold_left
             (fun v b => Z.lor (Z.shiftl v 8 mod 256 ^ Z.of_nat n) (b2z b))
             (ztake (Z.of_nat n) (zdrop (cur sp) (data sp))) 0).

Definition readAs (n : nat) (sp : t) : outcome (Z * t) :=
  let! v := peek n sp in
  let! sp' := advance sp (Z.of_nat n) in
  Ok (v, sp').

Definition subspan (sp : t) (off count : Z) : outcome t :=
  if u32 (u32 (cur sp + off) + count) >? len sp
  then throw "ByteSpan::subspan: out of range"
  else if cur sp + off + count >? len sp then undef "subspan past the end"
  else Ok (make (ztake count (zdrop (cur sp + off) (data sp)))).

(** The bytes of [begin() .. end()]. *)
Definition rest (sp : t) : bytes := zdrop (cur sp) (data sp).

(** The bytes of [begin() .. begin() + n]. *)
Definition first (sp : t) (n : Z) : outcome bytes :=
  if (n <? 0) || (n >? zlen (rest sp)) then undef "pointer past the end of a span"
  else Ok (ztake n (rest sp)).

(** A span whose cursor and length fit the 32-bit counters. *)
Definition wf (sp : t) : Prop := 0 <= cur sp <= len sp /\ len sp < 2 ^ 32.

Lemma wf_make d : zlen d < 2 ^ 32 -> wf (make d).
Proof. unfold wf, make, len; simpl. pose proof (zlen_nonneg d). lia. Qed.

Lemma size_rest sp : wf sp -> size sp = zlen (rest sp).
Proof.
  unfold wf, size, rest, len. intros [? ?].
  rewrite zlen_zdrop by lia. apply u32_small. lia.
Qed.

Lemma empty_rest sp : wf sp -> empty sp = true <-> rest sp = [].
Proof.
  intros Hwf. pose proof Hwf as [? ?]. unfold empty, rest, len in *.
  rewrite Z.geb_leb, Z.leb_le. split.
  - intros. apply zlen_0_nil. rewrite zlen_zdrop; lia.
  - intros H1. apply (f_equal zlen) in H1.
    rewrite zlen_zdrop in H1 by lia. rewrite zlen_nil in H1. lia.
Qed.

Lemma empty_false_rest sp : wf sp -> empty sp = false <-> rest sp <> [].
Proof.
  intros Hwf. pose proof (empty_rest sp Hwf) as H.
  destruct (empty sp); split; intros; try done; intuition congruence.
Qed.

Lemma advance_ok sp n :
  wf sp -> 0 <= n <= zlen (rest sp) ->
  exists sp', advance sp n = Ok sp' /\ wf sp' /\ rest sp' = zdrop n (rest sp)
              /\ data sp' = data sp /\ cur sp' = cur sp + n.
Proof.
  unfold wf, advance, rest, len. intros [? ?] Hn.
  rewrite zlen_zdrop in Hn by lia. rewrite u32_small by lia.
  rewrite Z.gtb_ltb. destruct (Z.ltb_spec (zlen (data sp)) (cur sp + n)); [lia|].
  eexists; split; [done|]. cbn. rewrite zdrop_zdrop by lia. split_and!; try done; lia.
Qed.

Lemma peek_fold n l acc :
  0 <= acc -> zlen l <= Z.of_nat n -> acc < 256 ^ (Z.of_nat n - zlen l) ->
  fold_left (fun v b => Z.lor (Z.shiftl v 8 mod 256 ^ Z.of_nat n) (b2z b)) l acc
  = acc * 256 ^ zlen l + be_read l.
Proof.
  revert acc. induction l as [|b l IH]; intros acc Ha Hl Hb; cbn [fold_left].
  - rewrite zlen_nil. cbn. lia.
  - rewrite zlen_cons in *. pose proof (zlen_nonneg l). pose proof (b2z_range b).
    assert (Hsh : Z.shiftl acc 8 mod 256 ^ Z.of_nat n = acc * 256).
    { rewrite Z.shiftl_mul_pow2 by lia. change (2 ^ 8) with 256.
      apply Z.mod_small. split; [lia|].
      apply Z.lt_le_trans with (256 ^ (Z.of_nat n - (1 + zlen l)) * 256 ^ 1); [lia|].
      rewrite <- Z.pow_add_r by lia. apply Z.pow_le_mono_r; lia. }
    rewrite Hsh.
    assert (Hlor : Z.lor (acc * 256) (b2z b) = acc * 256 + b2z b).
    { change 256 with (2 ^ 8). rewrite <- Z.shiftl_mul_pow2 at 1 by lia.
      apply lor_shiftl_add; lia. }
    rewrite Hlor, IH; [| lia | lia |].
    + rewrite be_read_cons, Z.pow_add_r by lia. lia.
    + replace (Z.of_nat n - zlen l) with (Z.of_nat n - (1 + zlen l) + 1) by lia.
      rewrite Z.pow_add_r by lia. nia.
Qed.

Lemma peek_ok n sp :
  wf sp -> Z.of_nat n <= zlen (rest sp) ->
  peek n sp = Ok (be_read (ztake (Z.of_nat n) (rest sp))).
Proof.
  intros Hwf Hn. pose proof Hwf as [? ?]. unfold peek, rest, len in *.
  rewrite zlen_zdrop in Hn by lia. rewrite Z.gtb_ltb.
  destruct (Z.ltb_spec (zlen (data sp)) (cur sp + Z.of_nat n)); [lia|].
  assert (zlen (ztake (Z.of_nat n) (zdrop (cur sp) (data sp))) = Z.of_nat n) as Hz.
  { apply zlen_ztake. rewrite zlen_zdrop; lia. }
  f_equal. rewrite peek_fold; [lia | lia | lia |].
  rewrite Hz, Z.sub_diag. lia.
Qed.

Lemma readAs_ok n sp :
  wf sp -> Z.of_nat n <= zlen (rest sp) ->
  exists sp', readAs n sp = Ok (be_read (ztake (Z.of_nat n) (rest sp)), sp')
    /\ wf sp' /\ rest sp' = zdrop (Z.of_nat n) (rest sp)
    /\ data sp' = data sp /\ cur sp' = cur sp + Z.of_nat n.
Proof.
  intros Hwf Hn. unfold readAs. rewrite peek_ok by done. cbn [obind].
  destruct (advance_ok sp (Z.of_nat n)) as (sp' & -> & ?); [done | lia |].
  cbn. eauto.
Qed.

Lemma first_ok sp n :
  0 <= n <= zlen (rest sp) -> first sp n = Ok (ztake n (rest sp)).
Proof.
  intros Hn. unfold first. rewrite Z.gtb_ltb.
  destruct (Z.ltb_spec n 0); [lia|]. destruct (Z.ltb_spec (zlen (rest sp)) n); [lia|done].
Qed.

Lemma subspan_ok sp count :
  wf sp -> 0 <= count <= zlen (rest sp) ->
  subspan sp 0 count = Ok (make (ztake count (rest sp))).
Proof.
  unfold wf, subspan, rest, len. intros [? ?] Hn. rewrite zlen_zdrop in Hn by lia.
  rewrite Z.add_0_r, (u32_small (cur sp)), u32_small by lia.
  rewrite Z.gtb_ltb. destruct (Z.ltb_spec (zlen (data sp)) (cur sp + count)); [lia|].
  done.
Qed.

(** Faults of the checked accessors are exceptions, never silent. *)
Lemma peek_short n sp :
  wf sp -> zlen (rest sp) < Z.of_nat n ->
  peek n sp = throw "ByteSpan::peek: out of range".
Proof.
  intros Hwf Hn. pose proof Hwf as [? ?]. unfold peek, rest, len in *.
  rewrite zlen_zdrop in Hn by lia. rewrite Z.gtb_ltb.
  destruct (Z.ltb_spec (zlen (data sp)) (cur sp + Z.of_nat n)); [done|lia].
Qed.
End ByteSpan.
#[export] Hint Resolve ByteSpan.wf_make : h2.
#[global] Arguments ByteSpan.rest : simpl never.

(** ** ByteBuffer *)

Module ByteBuffer.
Record t := mk { data : bytes; cap : Z }.

Definition empty_buffer : t := mk [] 0.
Definition make (capacity : Z) : t := mk [] capacity.
Definition size (b : t) : Z := zlen (data b).
Definition empty (b : t) : bool := size b =? 0.
Definition clear (b : t) : t := mk [] (cap b).

Definition index (b : t) (i : Z) : outcome byte :=
  if i >=? size b then throw "ByteBuffer::operator[]: out of range"
  else of_option (Undefined "negative index") (znth (data b) i).

(** The loop [while (newCap < needed) newCap *= 2]. *)
Fixpoint grow (fuel : nat) (newCap needed : Z) : outcome Z :=
  match fuel with
  | O => Fault Hangs
  | S fuel' =>
      if newCap <? needed then grow fuel' (u32 (newCap * 2)) needed else Ok newCap
  end.

(** Doublings after which a 32-bit capacity is at its maximum or 0. *)
Definition grow_fuel : nat := 33.

Definition ensureCapacity (needed : Z) (b : t) : outcome t :=
  if needed <=? cap b then Ok b
  else
    let! newCap := grow grow_fuel (Z.max 8 (u32 (cap b * 2))) needed in
    Ok (mk (data b) newCap).

(** Copying [l] to [ptr + len]: undefined past the allocation. *)
Definition store (l : bytes) (b : t) : outcome t :=
  if size b + zlen l <=? cap b then Ok (mk (data b ++ l) (cap b))
  else undef "heap buffer overflow".

(** [append<T>(value)] for a [T] of [n] bytes. *)
Definition append (n : nat) (value : Z) (b : t) : outcome t :=
  let! b' := ensureCapacity (u32 (size b + Z.of_nat n)) b in
  store (be_write n value) b'.

(** [append(begin, end)]. *)
Definition append_range (l : bytes) (b : t) : outcome t :=
  let count := u32 (zlen l) in
  if count =? 0 then Ok b
  else
    let! b' := ensureCapacity (u32 (size b + count)) b in
    store l b'.

(** [writeAt<T>(value, offset)]; the bound is computed in [size_t]. *)
Definition writeAt (n : nat) (value offset : Z) (b : t) : outcome t :=
  if offset + Z.of_nat n >? size b then throw "ByteBuffer::writeAt: out of range"
  else Ok (mk (ztake offset (data b) ++ be_write n value
               ++ zdrop (offset + Z.of_nat n) (data b)) (cap b)).

Definition from (l : bytes) : outcome t := append_range l empty_buffer.

Definition span (b : t) : ByteSpan.t := ByteSpan.make (data b).

Definition equal (x y : t) : bool :=
  if size x =? size y then bool_decide (data x = data y) else false.

Definition wf (b : t) : Prop := 0 <= size b <= cap b /\ cap b < 2 ^ 32.

(** *** The growth loop *)

(** Halving argument: [fuel] doublings reach any [needed <= 2^31]. *)
Lemma grow_ok fuel c needed :
  0 < c < 2 ^ 32 -> needed <= 2 ^ 31 -> 2 ^ 32 <= c * 2 ^ Z.of_nat fuel ->
  exists c', grow fuel c needed = Ok c' /\ needed <= c' /\ c <= c' < 2 ^ 32.
Proof.
  revert c. induction fuel as [|fuel IH]; intros c Hc Hn Hf; [change (2 ^ Z.of_nat 0) with 1 in Hf; lia|].
  cbn [grow]. destruct (Z.ltb_spec c needed).
  - rewrite u32_small by lia.
    destruct (IH (c * 2)) as (c' & -> & ? & ?); [lia | lia | |].
    + rewrite Nat2Z.inj_succ, Z.pow_succ_r in Hf by lia. lia.
    + exists c'. split_and!; try done; lia.
  - exists c. split_and!; try done; lia.
Qed.

Lemma ensureCapacity_ok needed b :
  wf b -> needed <= 2 ^ 31 ->
  exists b', ensureCapacity needed b = Ok b' /\ wf b' /\ data b' = data b
             /\ needed <= cap b' /\ cap b <= cap b'.
Proof.
  unfold wf, ensureCapacity. intros Hwf Hn.
  destruct (Z.leb_spec needed (cap b)); [exists b; split_and!; (done || lia)|].
  rewrite (u32_small (cap b * 2)) by lia.
  destruct (grow_ok grow_fuel (Z.max 8 (cap b * 2)) needed) as (c' & -> & ? & ?);
    [lia | lia | change (Z.of_nat grow_fuel) with 33; lia |].
  cbn. eexists. split_and!; try done; unfold size in *; cbn; lia.
Qed.

(** Doubling from 0 never ends. *)
Lemma grow_zero fuel needed : 0 < needed -> grow fuel 0 needed = Fault Hangs.
Proof.
  intros Hn. induction fuel as [|fuel IH]; [done|].
  cbn [grow]. destruct (Z.ltb_spec 0 needed); [|lia]. apply IH.
Qed.

Lemma grow_pow2_hangs fuel k needed :
  0 <= k <= 31 -> 2 ^ 31 < needed -> grow fuel (2 ^ k) needed = Fault Hangs.
Proof.
  intros Hk Hn. revert k Hk. induction fuel as [|fuel IH]; intros k Hk; [done|].
  cbn [grow]. assert (2 ^ k <= 2 ^ 31) by (apply Z.pow_le_mono_r; lia).
  destruct (Z.ltb_spec (2 ^ k) needed); [|lia].
  rewrite Z.mul_comm, <- Z.pow_succ_r by lia.
  destruct (Z.eq_dec k 31) as [->|].
  - change (u32 (2 ^ Z.succ 31)) with 0. apply grow_zero. lia.
  - rewrite u32_small.
    + apply IH. lia.
    + split; [apply Z.pow_nonneg; lia | apply Z.pow_lt_mono_r; lia].
Qed.

Lemma store_ok l b :
  size b + zlen l <= cap b -> store l b = Ok (mk (data b ++ l) (cap b)).
Proof. unfold store. intros. destruct (Z.leb_spec (size b + zlen l) (cap b)); [done|lia]. Qed.

Lemma append_range_ok l b :
  wf b -> size b + zlen l <= 2 ^ 31 ->
  exists b', append_range l b = Ok b' /\ wf b' /\ data b' = data b ++ l.
Proof.
  intros Hwf Hl. pose proof (zlen_nonneg l). unfold append_range.
  pose proof Hwf as [? ?]. rewrite (u32_small (zlen l)) by lia.
  destruct (Z.eqb_spec (zlen l) 0) as [->%zlen_0_nil|].
  - rewrite app_nil_r. eauto.
  - rewrite u32_small by lia.
    destruct (ensureCapacity_ok (size b + zlen l) b) as (b' & -> & Hwf' & Hd & ? & ?);
      [done | lia |].
    cbn [obind]. assert (size b' = size b) as Hs by (unfold size; by rewrite Hd).
    rewrite store_ok by lia. eexists. split_and!; [done | | by rewrite <- Hd].
    pose proof Hwf' as [? ?]. unfold wf, size in *. cbn. rewrite zlen_app. lia.
Qed.

Lemma append_ok n v b :
  wf b -> size b + Z.of_nat n <= 2 ^ 31 ->
  exists b', append n v b = Ok b' /\ wf b' /\ data b' = data b ++ be_write n v.
Proof.
  intros Hwf Hl. unfold append. pose proof Hwf as [? ?].
  rewrite u32_small by lia.
  destruct (ensureCapacity_ok (size b + Z.of_nat n) b) as (b' & -> & Hwf' & Hd & ? & ?);
    [done | lia |].
  cbn [obind]. assert (size b' = size b) as Hs by (unfold size; by rewrite Hd).
  rewrite store_ok by (rewrite zlen_be_write; lia).
  eexists. split_and!; [done | | by rewrite <- Hd].
  pose proof Hwf' as [? ?]. unfold wf, size in *. cbn. rewrite zlen_app, zlen_be_write. lia.
Qed.

Lemma wf_empty : wf empty_buffer.
Proof. unfold wf, size, zlen. simpl. lia. Qed.

Lemma make_wf c : 0 <= c < 2 ^ 32 -> wf (make c).
Proof. unfold wf, size, zlen. simpl. lia. Qed.
End ByteBuffer.
