(* ===== verification/Types.v ===== *)
(** * Protocol constants and plain data

    [include/chttp2/http2_constants.hpp], [header_field.hpp], [response.hpp],
    [request.hpp] and [client_config.hpp].  A C++ enumeration with a fixed
    underlying type can hold every value of that type (the code casts wire
    bytes to it), so such enumerations are integers with named constants. *)

From S2P Require Import Prelude Outcome.

(** ** Enumerations *)

Module FrameType.
Definition DATA := 0x0.
Definition HEADERS := 0x1.
Definition PRIORITY := 0x2.
Definition RST_STREAM := 0x3.
Definition SETTINGS := 0x4.
Definition PUSH_PROMISE := 0x5.
Definition PING := 0x6.
Definition GOAWAY := 0x7.
Definition WINDOW_UPDATE := 0x8.
Definition CONTINUATION := 0x9.
Definition INVALID := 0xff.
End FrameType.

Module FrameFlag.
Definition END_STREAM := 0x1.
Definition ACK := 0x1.
Definition END_HEADERS := 0x4.
Definition PADDED := 0x8.
Definition PRIORITY := 0x20.
End FrameFlag.

Module ErrorCode.
Definition NO_ERROR := 0x0.
Definition PROTOCOL_ERROR := 0x1.
Definition INTERNAL_ERROR := 0x2.
Definition FLOW_CONTROL_ERROR := 0x3.
Definition SETTINGS_TIMEOUT := 0x4.
Definition STREAM_CLOSED := 0x5.
Definition FRAME_SIZE_ERROR := 0x6.
Definition REFUSED_STREAM := 0x7.
Definition CANCEL := 0x8.
Definition COMPRESSION_ERROR := 0x9.
Definition CONNECT_ERROR := 0xa.
Definition ENHANCE_YOUR_CALM := 0xb.
Definition INADEQUATE_SECURITY := 0xc.
Definition HTTP_1_1_REQUIRED := 0xd.
End ErrorCode.

Module Http2SettingParameter.
Definition HEADER_TABLE_SIZE := 0x1.
Definition ENABLE_PUSH := 0x2.
Definition MAX_CONCURRENT_STREAMS := 0x3.
Definition INITIAL_WINDOW_SIZE := 0x4.
Definition MAX_FRAME_SIZE := 0x5.
Definition MAX_HEADER_LIST_SIZE := 0x6.
End Http2SettingParameter.

Inductive StreamState : Type :=
| IDLE
| RESERVED_LOCAL
| RESERVED_REMOTE
| OPEN
| HALF_CLOSED_LOCAL
| HALF_CLOSED_REMOTE
| CLOSED.

#[export] Instance StreamState_eq_dec : EqDecision StreamState.
Proof. solve_decision. Defined.

Definition isSupportedHttp2SettingParameter (param : Z) : bool :=
  (0 <? param) && (param <=? Http2SettingParameter.MAX_HEADER_LIST_SIZE).

Module Http2SettingInfo.
Definition defaultMaxConcurrentStreams := 250.
Definition defaultHeaderTableSize := 4096.
Definition defaultEnablePush := false.
Definition defaultInitialWindowSize := 65535.
Definition maximumWindowSize := 0x7fffffff.
Definition defaultMaxFrameSize := 16384.
Definition minimumMaxFrameSize := 16384.
Definition maximumMaxFrameSize := Z.shiftl 1 24 - 1.
Definition defaultMaxHeaderListSize := 10 * Z.shiftl 1 20.
Definition defaultUploadBufferSize := Z.shiftl 1 20.
End Http2SettingInfo.

(** [HTTP2_CONNECTION_PREFACE]: ["PRI * HTTP/2.0\r\n\r\nSM\r\n\r\n"]. *)
Definition HTTP2_CONNECTION_PREFACE : bytes :=
  bs "PRI * HTTP/2.0" ++ [x0d; x0a; x0d; x0a] ++ bs "SM" ++ [x0d; x0a; x0d; x0a].

Definition frameTypeString (type : Z) : bytes :=
  if type =? FrameType.DATA then bs "DATA"
  else if type =? FrameType.HEADERS then bs "HEADERS"
  else if type =? FrameType.PRIORITY then bs "PRIORITY"
  else if type =? FrameType.RST_STREAM then bs "RST_STREAM"
  else if type =? FrameType.SETTINGS then bs "SETTINGS"
  else if type =? FrameType.PUSH_PROMISE then bs "PUSH_PROMISE"
  else if type =? FrameType.PING then bs "PING"
  else if type =? FrameType.GOAWAY then bs "GOAWAY"
  else if type =? FrameType.WINDOW_UPDATE then bs "WINDOW_UPDATE"
  else if type =? FrameType.CONTINUATION then bs "CONTINUATION"
  else bs "INVALID".

Definition errorCodeString (code : Z) : bytes :=
  if code =? ErrorCode.NO_ERROR then bs "NO_ERROR"
  else if code =? ErrorCode.PROTOCOL_ERROR then bs "PROTOCOL_ERROR"
  else if code =? ErrorCode.INTERNAL_ERROR then bs "INTERNAL_ERROR"
  else if code =? ErrorCode.FLOW_CONTROL_ERROR then bs "FLOW_CONTROL_ERROR"
  else if code =? ErrorCode.SETTINGS_TIMEOUT then bs "SETTINGS_TIMEOUT"
  else if code =? ErrorCode.STREAM_CLOSED then bs "STREAM_CLOSED"
  else if code =? ErrorCode.FRAME_SIZE_ERROR then bs "FRAME_SIZE_ERROR"
  else if code =? ErrorCode.REFUSED_STREAM then bs "REFUSED_STREAM"
  else if code =? ErrorCode.CANCEL then bs "CANCEL"
  else if code =? ErrorCode.COMPRESSION_ERROR then bs "COMPRESSION_ERROR"
  else if code =? ErrorCode.CONNECT_ERROR then bs "CONNECT_ERROR"
  else if code =? ErrorCode.ENHANCE_YOUR_CALM then bs "ENHANCE_YOUR_CALM"
  else if code =? ErrorCode.INADEQUATE_SECURITY then bs "INADEQUATE_SECURITY"
  else if code =? ErrorCode.HTTP_1_1_REQUIRED then bs "HTTP_1_1_REQUIRED"
  else bs "UNKNOWN".

Definition streamStateString (state : StreamState) : bytes :=
  match state with
  | IDLE => bs "IDLE"
  | RESERVED_LOCAL => bs "RESERVED_LOCAL"
  | RESERVED_REMOTE => bs "RESERVED_REMOTE"
  | OPEN => bs "OPEN"
  | HALF_CLOSED_LOCAL => bs "HALF_CLOSED_LOCAL"
  | HALF_CLOSED_REMOTE => bs "HALF_CLOSED_REMOTE"
  | CLOSED => bs "CLOSED"
  end.

(** ** Header fields *)

Module HeaderField.
Record t := mk { name : bytes; value : bytes; sensitivity : bool }.

Definition size (h : t) : Z := zlen (name h) + zlen (value h) + 32.
Definition pseudo (h : t) : bool :=
  match name h with b :: _ => bool_decide (b = x3a) | [] => false end.

(** [operator==] ignores the sensitivity flag. *)
Definition equal (a b : t) : bool :=
  bool_decide (name a = name b) && bool_decide (value a = value b).

#[global] Instance eq_dec : EqDecision t.
Proof. solve_decision. Defined.

Lemma size_pos h : 32 <= size h.
Proof. unfold size. pose proof (zlen_nonneg (name h)). pose proof (zlen_nonneg (value h)). lia. Qed.
End HeaderField.

(** ** [std::stoi] (C++ standard library, base 10) *)

Definition is_space (b : byte) : bool :=
  (b2z b =? 0x20) || ((0x09 <=? b2z b) && (b2z b <=? 0x0d)).
Definition is_digit (b : byte) : bool := (0x30 <=? b2z b) && (b2z b <=? 0x39).

Fixpoint drop_while (p : byte -> bool) (l : bytes) : bytes :=
  match l with b :: l' => if p b then drop_while p l' else l | [] => [] end.
Fixpoint take_while (p : byte -> bool) (l : bytes) : bytes :=
  match l with b :: l' => if p b then b :: take_while p l' else [] | [] => [] end.

(** Value of a digit string, most significant first. *)
Definition dec_value (l : bytes) : Z :=
  fold_left (fun v b => v * 10 + (b2z b - 0x30)) l 0.

Definition stoi (s : bytes) : outcome Z :=
  let s := drop_while is_space s in
  let '(neg, s) :=
    match s with
    | x2d :: s' => (true, s')
    | x2b :: s' => (false, s')
    | _ => (false, s)
    end in
  match take_while is_digit s with
  | [] => throw "std::invalid_argument: stoi"
  | ds =>
      let v := if neg then - dec_value ds else dec_value ds in
      if (INT32_MIN <=? v) && (v <=? INT32_MAX) then Ok v
      else throw "std::out_of_range: stoi"
  end.

(** ** Responses *)

Module Response.
Record t := mk {
  headers : list HeaderField.t;
  trailers : list HeaderField.t;
  body : bytes;
  isError : bool;
  errorCode : Z;
  errorMsg : bytes;
  extraMsg : bytes;
}.

Definition init : t := mk [] [] [] false ErrorCode.NO_ERROR [] [].

Definition set_headers v r :=
  mk v (trailers r) (body r) (isError r) (errorCode r) (errorMsg r) (extraMsg r).
Definition set_trailers v r :=
  mk (headers r) v (body r) (isError r) (errorCode r) (errorMsg r) (extraMsg r).
Definition set_body v r :=
  mk (headers r) (trailers r) v (isError r) (errorCode r) (errorMsg r) (extraMsg r).

Fixpoint find_status (hs : list HeaderField.t) : outcome Z :=
  match hs with
  | h :: hs' =>
      if bool_decide (HeaderField.name h = bs ":status")
      then stoi (HeaderField.value h) else find_status hs'
  | [] => Ok (-1)
  end.
Definition getStatusCode (r : t) : outcome Z := find_status (headers r).

Fixpoint find_header (key : bytes) (hs : list HeaderField.t) : bytes :=
  match hs with
  | h :: hs' =>
      if bool_decide (HeaderField.name h = key)
      then HeaderField.value h else find_header key hs'
  | [] => []
  end.
Definition getHeader (key : bytes) (r : t) : bytes := find_header key (headers r).

Definition failConnectionError (msg : bytes) : t :=
  mk [] [] [] true ErrorCode.NO_ERROR (bs "Connection error") msg.
Definition customError (msg : bytes) : t :=
  mk [] [] [] true ErrorCode.NO_ERROR msg [].
Definition protocolError (code : Z) (msg : bytes) : t :=
  mk [] [] [] true code (bs "Protocol error") msg.
End Response.

(** ** [std::map<std::string, std::string>]

    A tree map is the list of its entries, sorted by key; strings are ordered
    by their bytes as unsigned characters. *)

Fixpoint bytes_ltb (a b : bytes) : bool :=
  match a, b with
  | _, [] => false
  | [], _ :: _ => true
  | x :: a', y :: b' =>
      if b2z x <? b2z y then true
      else if b2z y <? b2z x then false
      else bytes_ltb a' b'
  end.

Module StdMap.
Definition t := list (bytes * bytes).

Fixpoint find (key : bytes) (m : t) : option bytes :=
  match m with
  | (k, v) :: m' => if bool_decide (k = key) then Some v else find key m'
  | [] => None
  end.

(** [m[key] = value]. *)
Fixpoint assign (key value : bytes) (m : t) : t :=
  match m with
  | (k, v) :: m' =>
      if bool_decide (k = key) then (key, value) :: m'
      else if bytes_ltb key k then (key, value) :: m
      else (k, v) :: assign key value m'
  | [] => [(key, value)]
  end.

Definition contains (key : bytes) (m : t) : bool :=
  match find key m with Some _ => true | None => false end.
End StdMap.

(** ** Requests *)

Module Request.
Record t := mk { headers : StdMap.t; body : bytes }.

Definition init : t := mk [] [].

Definition setHeader (key value : bytes) (r : t) : t :=
  mk (StdMap.assign key value (headers r)) (body r).

Definition isValid (r : t) : bool :=
  match headers r with
  | [] => false
  | _ =>
      match StdMap.find (bs ":method") (headers r) with
      | None => false
      | Some method =>
          if bool_decide (method = bs "CONNECT") then
            if negb (StdMap.contains (bs ":authority") (headers r)) then false
            else if StdMap.contains (bs ":scheme") (headers r) then false
            else if StdMap.contains (bs ":path") (headers r) then false
            else true
          else
            if negb (StdMap.contains (bs ":scheme") (headers r)) then false
            else if negb (StdMap.contains (bs ":path") (headers r)) then false
            else true
      end
  end.
End Request.

(** ** Client configuration (the fields the protocol reads) *)

Module ClientConfig.
Record t := mk {
  keepAliveSec : Z;
  connectTimeoutMs : Z;
  pingIntervalSec : Z;
  pingTimeoutSec : Z;
  maxConcurrentStreams : Z;
  initialWindowSize : Z;
  maxFrameSize : Z;
  maxHeaderListSize : Z;
  headerTableSize : Z;
}.

Definition default : t := mk 60 5000 30 10 100 65535 16384 0 4096.

(** The HTTP/2 fields are [uint32_t]; a window above 2^31-1 is not a window. *)
Definition wf (c : t) : Prop :=
  0 <= maxConcurrentStreams c < 2 ^ 32 /\
  0 <= initialWindowSize c < 2 ^ 31 /\
  0 <= maxFrameSize c < 2 ^ 32 /\
  0 <= maxHeaderListSize c < 2 ^ 32 /\
  0 <= headerTableSize c < 2 ^ 32.

(** The keep-alive intervals in milliseconds are [int]s. *)
Definition pings_fit (c : t) : Prop := pingIntervalSec c * 1000 < 2 ^ 31 /\ pingTimeoutSec c * 1000 < 2 ^ 31.
End ClientConfig.
