(* ===== verification/Flow.v ===== *)
(** * Flow-control windows

    [include/chttp2/flow.hpp] and [src/flow.cpp]: the receive-side account
    [InFlow] and the send-side window [OutFlow] with its pointer to the
    connection's window.  Signed 32-bit arithmetic that overflows is
    undefined behaviour in C++ and is modelled as such. *)

From S2P Require Import Prelude Outcome.

Definition INFLOW_MIN_REFRESH : Z := Z.shiftl 4 10.

(** A signed 32-bit sum or difference. *)
Definition checked_i32 (z : Z) : outcome Z :=
  if (INT32_MIN <=? z) && (z <=? INT32_MAX) then Ok z
  else undef "signed 32-bit overflow".

Lemma checked_i32_ok z : INT32_MIN <= z <= INT32_MAX -> checked_i32 z = Ok z.
Proof.
  intros [? ?]. unfold checked_i32.
  destruct (Z.leb_spec INT32_MIN z); [|lia]. destruct (Z.leb_spec z INT32_MAX); [done|lia].
Qed.

(** ** InFlow *)

Module InFlow.
Record t := mk { avail : Z; unsnt : Z }.

Definition init_zero : t := mk 0 0.
Definition init (n : Z) (f : t) : t := mk n (unsnt f).

(** Returns the window update to send (0: none yet, -1: overflow). *)
Definition add (n : Z) (f : t) : outcome (Z * t) :=
  let sum := unsnt f + n in
  if sum >? INT32_MAX then Ok (-1, f)
  else
    let u := i32 sum in
    if (u <? INFLOW_MIN_REFRESH) && (u <? avail f) then Ok (0, mk (avail f) u)
    else
      let! a := checked_i32 (avail f + u) in
      Ok (u, mk a 0).

Definition take (n : Z) (f : t) : outcome (bool * t) :=
  if avail f <=? 0 then Ok (false, f)
  else if u32 (avail f) <? n then Ok (false, f)
  else
    let! a := checked_i32 (avail f - i32 n) in
    Ok (true, mk a (unsnt f)).

Definition takeInflows (f1 f2 : t) (n : Z) : outcome (bool * t * t) :=
  if n =? 0 then Ok (true, f1, f2)
  else if (avail f1 <=? 0) || (avail f2 <=? 0) then Ok (false, f1, f2)
  else if (u32 (avail f1) <? n) || (u32 (avail f2) <? n) then Ok (false, f1, f2)
  else
    let! a1 := checked_i32 (avail f1 - i32 n) in
    let! a2 := checked_i32 (avail f2 - i32 n) in
    Ok (true, mk a1 (unsnt f1), mk a2 (unsnt f2)).

(** Bytes the account stands for: window the peer sees plus bytes consumed
    but not yet returned to it. *)
Definition credit (f : t) : Z := avail f + unsnt f.

Definition wf (f : t) : Prop := 0 <= avail f /\ 0 <= unsnt f /\ credit f <= INT32_MAX.

Lemma wf_init n : 0 <= n <= INT32_MAX -> wf (init n init_zero).
Proof. unfold wf, credit, init. cbn. lia. Qed.

(** [add] returns [n] bytes of credit: no overflow, the refresh is exactly
    the growth of the window, and what is held back stays below the refresh
    threshold and below the open window. *)
Lemma add_ok n f :
  wf f -> 0 <= n -> credit f + n <= INT32_MAX ->
  exists r f', add n f = Ok (r, f') /\ wf f' /\ credit f' = credit f + n
    /\ 0 <= r /\ avail f' = avail f + r
    /\ (unsnt f' = 0 \/ unsnt f' < avail f' /\ unsnt f' < INFLOW_MIN_REFRESH).
Proof.
  unfold wf, credit, add, INT32_MAX. intros (? & ? & ?) Hn Hc.
  rewrite Z.gtb_ltb. destruct (Z.ltb_spec (2 ^ 31 - 1) (unsnt f + n)); [lia|].
  rewrite i32_small by lia.
  destruct (Z.ltb_spec (unsnt f + n) INFLOW_MIN_REFRESH);
  destruct (Z.ltb_spec (unsnt f + n) (avail f)); cbn [andb];
    [do 2 eexists; split; [done|]; cbn [avail unsnt]; lia|..];
    (rewrite checked_i32_ok by (unfold INT32_MIN, INT32_MAX; lia);
     do 2 eexists; split; [done|]; cbn [avail unsnt]; lia).
Qed.

Lemma take_ok n f :
  wf f -> 0 <= n < 2 ^ 32 ->
  take n f = Ok (if (0 <? avail f) && (n <=? avail f)
                 then (true, mk (avail f - n) (unsnt f)) else (false, f)).
Proof.
  unfold wf, credit, take, INT32_MAX. intros (? & ? & ?) Hn.
  destruct (Z.leb_spec (avail f) 0); destruct (Z.ltb_spec 0 (avail f)); try lia;
    cbn [andb]; [done|].
  rewrite u32_small by lia.
  destruct (Z.ltb_spec (avail f) n); destruct (Z.leb_spec n (avail f)); try lia; [done|].
  rewrite i32_small by lia.
  rewrite checked_i32_ok by (unfold INT32_MIN, INT32_MAX; lia). done.
Qed.

Lemma takeInflows_ok f1 f2 n :
  wf f1 -> wf f2 -> 0 <= n < 2 ^ 32 ->
  takeInflows f1 f2 n =
    Ok (if (n =? 0) || (n <=? avail f1) && (n <=? avail f2)
        then (true, mk (avail f1 - n) (unsnt f1), mk (avail f2 - n) (unsnt f2))
        else (false, f1, f2)).
Proof.
  unfold wf, credit, takeInflows, INT32_MAX. intros (? & ? & ?) (? & ? & ?) Hn.
  destruct (Z.eqb_spec n 0) as [->|]; cbn [orb].
  { rewrite !Z.sub_0_r. destruct f1, f2; done. }
  rewrite !u32_small by lia.
  destruct (Z.leb_spec (avail f1) 0); cbn [orb];
    [destruct (Z.leb_spec n (avail f1)); [lia|done]|].
  destruct (Z.leb_spec (avail f2) 0); cbn [orb];
    [destruct (Z.leb_spec n (avail f2)); [lia|by rewrite andb_false_r]|].
  destruct (Z.ltb_spec (avail f1) n); destruct (Z.leb_spec n (avail f1)); try lia;
    cbn [orb andb]; [done|].
  destruct (Z.ltb_spec (avail f2) n); destruct (Z.leb_spec n (avail f2)); try lia; [done|].
  rewrite i32_small by lia.
  rewrite !checked_i32_ok by (unfold INT32_MIN, INT32_MAX; lia). done.
Qed.
End InFlow.

(** ** OutFlow

    [conn] says whether the window points to the connection's window, which
    the operations receive as [cf]. *)

Module OutFlow.
Record t := mk { conn : bool; window : Z }.

Definition init_zero : t := mk false 0.
Definition setConnFlow (f : t) : t := mk true (window f).

Definition available (cf f : t) : Z :=
  let n := window f in
  if conn f && (window cf <? n) then window cf else n.

Definition take (n : Z) (cf f : t) : outcome (t * t) :=
  if n >? available cf f then throw "internal error: took too much"
  else
    let! w := checked_i32 (window f - n) in
    if conn f then
      let! cw := checked_i32 (window cf - n) in
      Ok (mk (conn cf) cw, mk (conn f) w)
    else Ok (cf, mk (conn f) w).

Definition add (n : Z) (f : t) : bool * t :=
  let sum := window f + n in
  if (sum >? INT32_MAX) || (sum <? INT32_MIN) then (false, f)
  else (true, mk (conn f) sum).

Definition wf (f : t) : Prop := INT32_MIN <= window f <= INT32_MAX.

Lemma available_min cf f :
  available cf f = if conn f then Z.min (window cf) (window f) else window f.
Proof.
  unfold available. destruct (conn f); [|done]. cbn [andb].
  destruct (Z.ltb_spec (window cf) (window f)); lia.
Qed.

Lemma add_wf n f : wf f -> wf (snd (add n f)).
Proof.
  unfold wf, add. intros Hf. rewrite Z.gtb_ltb.
  destruct (Z.ltb_spec INT32_MAX (window f + n));
  destruct (Z.ltb_spec (window f + n) INT32_MIN); cbn [orb snd window]; lia.
Qed.

Lemma add_conn n f : conn (snd (add n f)) = conn f.
Proof. unfold add. case_if; done. Qed.

Lemma take_charges n cf f :
  wf cf -> wf f -> conn f = true -> 0 <= n <= available cf f ->
  take n cf f = Ok (mk (conn cf) (window cf - n), mk true (window f - n)).
Proof.
  unfold wf, take, INT32_MIN, INT32_MAX. intros Hcf Hf Hc Hn.
  rewrite available_min, Hc in *. rewrite Z.gtb_ltb.
  destruct (Z.ltb_spec (Z.min (window cf) (window f)) n); [lia|].
  rewrite !checked_i32_ok by (unfold INT32_MIN, INT32_MAX; lia). done.
Qed.
End OutFlow.
