(* ===== verification/Frame.v ===== *)
(** * HTTP/2 frames

    [include/chttp2/frame.hpp] and [src/frame.cpp]: the frame header, the
    frame structures, their constructors from a raw frame ([parse]) and their
    serialisers ([toBytes]).  Buffers are their contents. *)

From S2P Require Import Prelude Outcome ByteBuffer Types.

(** ** FrameHeader *)

Module FrameHeader.
Record t := mk { payloadLength : Z; type : Z; flags : Z; streamId : Z }.

Definition init : t := mk 0 FrameType.INVALID 0 0.
Definition of_type (frameType : Z) : t := mk 0 frameType 0 0.
Definition of_stream (frameType id : Z) : t := mk 0 frameType 0 id.

Definition encodedSize : Z := 9.

Definition retainFlag (validFlag : Z) (h : t) : t :=
  mk (payloadLength h) (type h) (Z.land (flags h) validFlag) (streamId h).
Definition hasAnyFlag (validFlag : Z) (h : t) : bool :=
  negb (Z.land (flags h) validFlag =? 0).
Definition setFlag (flag : Z) (h : t) : t :=
  mk (payloadLength h) (type h) (Z.lor (flags h) flag) (streamId h).

Definition setEndStreamFlag := setFlag FrameFlag.END_STREAM.
Definition setAckFlag := setFlag FrameFlag.ACK.
Definition setEndHeadersFlag := setFlag FrameFlag.END_HEADERS.
Definition hasEndHeadersFlag := hasAnyFlag FrameFlag.END_HEADERS.
Definition hasEndStreamFlag := hasAnyFlag FrameFlag.END_STREAM.
Definition hasAckFlag := hasAnyFlag FrameFlag.ACK.
Definition setPaddedFlag := setFlag FrameFlag.PADDED.
Definition setPriorityFlag := setFlag FrameFlag.PRIORITY.

Definition set_payloadLength (n : Z) (h : t) : t :=
  mk n (type h) (flags h) (streamId h).

Definition decode (data : ByteSpan.t) : outcome t :=
  let! d0 := ByteSpan.index data 0 in
  let! d1 := ByteSpan.index data 1 in
  let! d2 := ByteSpan.index data 2 in
  let! d3 := ByteSpan.index data 3 in
  let! d4 := ByteSpan.index data 4 in
  let! d5 := ByteSpan.index data 5 in
  let! d6 := ByteSpan.index data 6 in
  let! d7 := ByteSpan.index data 7 in
  let! d8 := ByteSpan.index data 8 in
  let payloadLength :=
    Z.lor (Z.lor (Z.shiftl (b2z d0) 16) (Z.shiftl (b2z d1) 8)) (b2z d2) in
  let streamId :=
    Z.lor (Z.lor (Z.lor (Z.shiftl (b2z d5) 24) (Z.shiftl (b2z d6) 16))
                 (Z.shiftl (b2z d7) 8)) (b2z d8) in
  Ok (mk payloadLength (b2z d3) (b2z d4) (Z.land streamId 0x7FFFFFFF)).

Definition encode (h : t) : bytes :=
  [z2b (Z.shiftr (payloadLength h) 16); z2b (Z.shiftr (payloadLength h) 8);
   z2b (payloadLength h); z2b (type h); z2b (flags h);
   z2b (Z.shiftr (streamId h) 24); z2b (Z.shiftr (streamId h) 16);
   z2b (Z.shiftr (streamId h) 8); z2b (streamId h)].

(** The values a header can carry on the wire. *)
Definition wf (h : t) : Prop :=
  0 <= payloadLength h < 2 ^ 24 /\ 0 <= type h < 2 ^ 8 /\
  0 <= flags h < 2 ^ 8 /\ 0 <= streamId h < 2 ^ 31.
End FrameHeader.

(** ** RawFrame *)

Module RawFrame.
Record t := mk { header : FrameHeader.t; data : bytes }.

(** What [FrameCodec] guarantees of the frames it pops. *)
Definition wf (f : t) : Prop :=
  FrameHeader.wf (header f) /\ FrameHeader.payloadLength (header f) = zlen (data f).
End RawFrame.

(** ** Padding, shared by DATA, HEADERS and PUSH_PROMISE *)

(** [if PADDED { padLength = payload[0]; payload.advance(1); }] *)
Definition read_padLength (h : FrameHeader.t) (payload : ByteSpan.t)
  : outcome (Z * ByteSpan.t) :=
  if FrameHeader.hasAnyFlag FrameFlag.PADDED h then
    let! b := ByteSpan.index payload 0 in
    let! payload := ByteSpan.advance payload 1 in
    Ok (b2z b, payload)
  else Ok (0, payload).

(** Split what is left into data and padding. *)
Definition split_padding (padLength : Z) (payload : ByteSpan.t) : outcome (bytes * bytes) :=
  if padLength >? 0 then
    let dataSize := u32 (ByteSpan.size payload - padLength) in
    let! data := ByteSpan.first payload dataSize in
    let! payload := ByteSpan.advance payload dataSize in
    Ok (data, ByteSpan.rest payload)
  else Ok (ByteSpan.rest payload, []).

(** ** The frame structures *)

Module DataFrame.
Record t := mk { header : FrameHeader.t; padLength : Z; data : bytes; padding : bytes }.

Definition of_stream (streamId : Z) : t :=
  mk (FrameHeader.of_stream FrameType.DATA streamId) 0 [] [].

Definition parse (frame : RawFrame.t) : outcome t :=
  let header := RawFrame.header frame in
  let payload := ByteSpan.make (RawFrame.data frame) in
  let! (padLength, payload) := read_padLength header payload in
  let! (data, padding) := split_padding padLength payload in
  Ok (mk header padLength data padding).

Definition toBytes (f : t) : bytes :=
  let padded := FrameHeader.hasAnyFlag FrameFlag.PADDED (header f) in
  FrameHeader.encode (header f)
    ++ (if padded then be_write 1 (padLength f) else [])
    ++ data f
    ++ (if padded then padding f else []).
End DataFrame.

Module HeadersFrame.
Record t := mk {
  header : FrameHeader.t; padLength : Z; streamDependency : Z; weight : Z;
  data : bytes; padding : bytes
}.

Definition of_stream (streamId : Z) : t :=
  mk (FrameHeader.of_stream FrameType.HEADERS streamId) 0 0 0 [] [].

Definition parse (frame : RawFrame.t) : outcome t :=
  let header := RawFrame.header frame in
  let payload := ByteSpan.make (RawFrame.data frame) in
  let! (padLength, payload) := read_padLength header payload in
  let! (dep, weight, payload) :=
    if FrameHeader.hasAnyFlag FrameFlag.PRIORITY header then
      let! (dep, payload) := ByteSpan.readAs 4 payload in
      let! (weight, payload) := ByteSpan.readAs 1 payload in
      Ok (dep, weight, payload)
    else Ok (0, 0, payload) in
  let! (data, padding) := split_padding padLength payload in
  Ok (mk header padLength dep weight data padding).

Definition toBytes (f : t) : bytes :=
  let padded := FrameHeader.hasAnyFlag FrameFlag.PADDED (header f) in
  FrameHeader.encode (header f)
    ++ (if padded then be_write 1 (padLength f) else [])
    ++ (if FrameHeader.hasAnyFlag FrameFlag.PRIORITY (header f)
        then be_write 4 (streamDependency f) ++ be_write 1 (weight f) else [])
    ++ data f
    ++ (if padded then padding f else []).
End HeadersFrame.

Module RstStreamFrame.
Record t := mk { header : FrameHeader.t; errorCode : Z }.

Definition parse (frame : RawFrame.t) : outcome t :=
  let! (errorCode, _) := ByteSpan.readAs 4 (ByteSpan.make (RawFrame.data frame)) in
  Ok (mk (RawFrame.header frame) errorCode).

Definition toBytes (f : t) : bytes :=
  FrameHeader.encode (header f) ++ be_write 4 (errorCode f).
End RstStreamFrame.

Module SettingFrame.
Record t := mk { header : FrameHeader.t; settings : list (Z * Z) }.

(** [while (!payload.empty()) { readAs<uint16_t>; readAs<uint32_t>; }] *)
Fixpoint read_settings (fuel : nat) (payload : ByteSpan.t) : outcome (list (Z * Z)) :=
  match fuel with
  | O => Fault Hangs
  | S fuel' =>
      if ByteSpan.empty payload then Ok []
      else
        let! (id, payload) := ByteSpan.readAs 2 payload in
        let! (value, payload) := ByteSpan.readAs 4 payload in
        let! rest := read_settings fuel' payload in
        Ok ((id, value) :: rest)
  end.

Definition parse (frame : RawFrame.t) : outcome t :=
  let header := RawFrame.header frame in
  let payload := ByteSpan.make (RawFrame.data frame) in
  if negb (ByteSpan.size payload mod 6 =? 0) then Ok (mk header [])
  else
    let! settings := read_settings (S (length (RawFrame.data frame))) payload in
    Ok (mk header settings).

Definition encode_settings (l : list (Z * Z)) : bytes :=
  concat (map (fun s => be_write 2 (fst s) ++ be_write 4 (snd s)) l).

Definition toBytes (f : t) : bytes :=
  FrameHeader.encode (header f) ++ encode_settings (settings f).
End SettingFrame.

Module PushPromiseFrame.
Record t := mk {
  header : FrameHeader.t; padLength : Z; promisedStreamId : Z;
  data : bytes; padding : bytes
}.

Definition parse (frame : RawFrame.t) : outcome t :=
  let header := RawFrame.header frame in
  let payload := ByteSpan.make (RawFrame.data frame) in
  let! (padLength, payload) := read_padLength header payload in
  let! (id, payload) := ByteSpan.readAs 4 payload in
  let! (data, padding) := split_padding padLength payload in
  Ok (mk header padLength (Z.land id 0x7fffffff) data padding).

Definition toBytes (f : t) : bytes :=
  let padded := FrameHeader.hasAnyFlag FrameFlag.PADDED (header f) in
  FrameHeader.encode (header f)
    ++ (if padded then be_write 1 (padLength f) else [])
    ++ be_write 4 (promisedStreamId f)
    ++ data f
    ++ (if padded then padding f else []).
End PushPromiseFrame.

Module PingFrame.
Record t := mk { header : FrameHeader.t; data : bytes }.

Definition parse (frame : RawFrame.t) : outcome t :=
  Ok (mk (RawFrame.header frame) (RawFrame.data frame)).

Definition toBytes (f : t) : bytes := FrameHeader.encode (header f) ++ data f.
End PingFrame.

Module GoAwayFrame.
Record t := mk { header : FrameHeader.t; lastStreamId : Z; errorCode : Z; data : bytes }.

Definition parse (frame : RawFrame.t) : outcome t :=
  let payload := ByteSpan.make (RawFrame.data frame) in
  let! (id, payload) := ByteSpan.readAs 4 payload in
  let! (errorCode, payload) := ByteSpan.readAs 4 payload in
  Ok (mk (RawFrame.header frame) (Z.land id 0x7fffffff) errorCode (ByteSpan.rest payload)).

Definition toBytes (f : t) : bytes :=
  FrameHeader.encode (header f) ++ be_write 4 (lastStreamId f)
    ++ be_write 4 (errorCode f) ++ data f.
End GoAwayFrame.

Module WindowUpdateFrame.
Record t := mk { header : FrameHeader.t; windowSizeIncrement : Z }.

Definition parse (frame : RawFrame.t) : outcome t :=
  let! (inc, _) := ByteSpan.readAs 4 (ByteSpan.make (RawFrame.data frame)) in
  Ok (mk (RawFrame.header frame) inc).

Definition toBytes (f : t) : bytes :=
  FrameHeader.encode (header f) ++ be_write 4 (windowSizeIncrement f).
End WindowUpdateFrame.

Module ContinuationFrame.
Record t := mk { header : FrameHeader.t; data : bytes }.

Definition of_stream (streamId : Z) : t :=
  mk (FrameHeader.of_stream FrameType.CONTINUATION streamId) [].

Definition parse (frame : RawFrame.t) : outcome t :=
  Ok (mk (RawFrame.header frame) (RawFrame.data frame)).

Definition toBytes (f : t) : bytes := FrameHeader.encode (header f) ++ data f.
End ContinuationFrame.
