(* ===== verification/FrameFacts.v ===== *)
(** * Frames: wire-format lemmas

    Header and frame round trips, and the guarantee that parsing a validated
    frame does not fault. *)

From S2P Require Import Prelude Outcome ByteBuffer Types Frame.

(** ** Frame header *)

Lemma header_encode_be h :
  FrameHeader.encode h =
    be_write 3 (FrameHeader.payloadLength h)
      ++ [z2b (FrameHeader.type h); z2b (FrameHeader.flags h)]
      ++ be_write 4 (FrameHeader.streamId h).
Proof. unfold FrameHeader.encode. simpl. rewrite !Z.shiftr_0_r. done. Qed.

Lemma zlen_header_encode h : zlen (FrameHeader.encode h) = 9.
Proof. done. Qed.
#[export] Hint Rewrite zlen_header_encode : zlen.

Lemma be_read_3 d0 d1 d2 :
  Z.lor (Z.lor (Z.shiftl (b2z d0) 16) (Z.shiftl (b2z d1) 8)) (b2z d2) = be_read [d0; d1; d2].
Proof.
  pose proof (b2z_range d0). pose proof (b2z_range d1). pose proof (b2z_range d2).
  rewrite (lor_shiftl_add (b2z d0) (Z.shiftl _ 8) 16)
    by (rewrite ?Z.shiftl_mul_pow2 by lia; lia).
  rewrite !Z.shiftl_mul_pow2 by lia.
  replace (b2z d0 * 2 ^ 16 + b2z d1 * 2 ^ 8) with (Z.shiftl (b2z d0 * 2 ^ 8 + b2z d1) 8)
    by (rewrite Z.shiftl_mul_pow2 by lia; lia).
  rewrite lor_shiftl_add by lia. unfold be_read. cbn [fold_left]. lia.
Qed.

Lemma be_read_4 d0 d1 d2 d3 :
  Z.lor (Z.lor (Z.lor (Z.shiftl (b2z d0) 24) (Z.shiftl (b2z d1) 16)) (Z.shiftl (b2z d2) 8))
    (b2z d3) = be_read [d0; d1; d2; d3].
Proof.
  pose proof (be_read_3 d0 d1 d2) as H3. pose proof (b2z_range d3).
  assert (Hs : Z.lor (Z.lor (Z.shiftl (b2z d0) 24) (Z.shiftl (b2z d1) 16)) (Z.shiftl (b2z d2) 8)
             = Z.shiftl (be_read [d0; d1; d2]) 8).
  { rewrite <- H3, !Z.shiftl_lor, !Z.shiftl_shiftl by lia. done. }
  rewrite Hs, lor_shiftl_add by lia. unfold be_read. cbn [fold_left]. lia.
Qed.

(** Decoding is total on nine bytes. *)
Lemma header_decode_bytes d0 d1 d2 d3 d4 d5 d6 d7 d8 :
  FrameHeader.decode (ByteSpan.make [d0; d1; d2; d3; d4; d5; d6; d7; d8]) =
    Ok (FrameHeader.mk (be_read [d0; d1; d2]) (b2z d3) (b2z d4)
          (be_read [d5; d6; d7; d8] mod 2 ^ 31)).
Proof.
  rewrite <- be_read_3, <- be_read_4, <- land_31. done.
Qed.

Lemma header_decode_ok l :
  zlen l = 9 -> exists h, FrameHeader.decode (ByteSpan.make l) = Ok h /\ FrameHeader.wf h.
Proof.
  intros Hl. unfold zlen in Hl.
  do 9 (destruct l as [|? l]; [simpl in Hl; lia|]). destruct l; [|simpl in Hl; lia].
  rewrite header_decode_bytes. eexists. split; [done|].
  unfold FrameHeader.wf. cbn [FrameHeader.payloadLength FrameHeader.type FrameHeader.flags FrameHeader.streamId].
  split_and!; try apply b2z_range; try (apply Z.mod_pos_bound; lia).
  - apply be_read_range.
  - change (2 ^ 24) with (256 ^ zlen [b; b0; b1]). apply be_read_range.
Qed.

Lemma header_roundtrip_bytes h :
  FrameHeader.wf h -> FrameHeader.decode (ByteSpan.make (FrameHeader.encode h)) = Ok h.
Proof.
  intros (Hp & Ht & Hf & Hs). rewrite header_encode_be. cbn [be_write app].
  rewrite header_decode_bytes, !b2z_z2b. destruct h as [p t f s]; cbn in *.
  pose proof (be_read_write 3 p) as Hp'. pose proof (be_read_write 4 s) as Hs'.
  cbn [be_write] in Hp', Hs'. do 2 f_equal.
  - etrans; [apply Hp'|]. apply Z.mod_small. lia.
  - apply Z.mod_small. lia.
  - apply Z.mod_small. lia.
  - etrans; [apply (f_equal (fun z => z mod 2 ^ 31)), Hs'|].
    change (256 ^ Z.of_nat 4) with (2 ^ 32). rewrite mod_32_31. apply Z.mod_small. lia.
Qed.

#[global] Arguments FrameHeader.encode : simpl never.
#[global] Arguments SettingFrame.encode_settings : simpl never.

(** ** Reading a span *)

(** [sp] is a valid span whose unread bytes are [l]. *)
Definition reads (sp : ByteSpan.t) (l : bytes) : Prop :=
  ByteSpan.wf sp /\ ByteSpan.rest sp = l.

Lemma reads_make d : zlen d < 2 ^ 32 -> reads (ByteSpan.make d) d.
Proof. intros. split; [by apply ByteSpan.wf_make | done]. Qed.

Lemma reads_readAs sp n v l :
  reads sp (be_write n v ++ l) ->
  exists sp', ByteSpan.readAs n sp = Ok (v mod 256 ^ Z.of_nat n, sp') /\ reads sp' l.
Proof.
  intros [Hwf Hr].
  destruct (ByteSpan.readAs_ok n sp) as (sp' & Hok & Hwf' & Hr' & _); [done|rewrite Hr; zlen_lia|].
  assert (Hn : Z.of_nat n = zlen (be_write n v)) by (by rewrite zlen_be_write).
  exists sp'. rewrite Hok, Hr. rewrite Hr in Hr'. rewrite Hn in Hr'.
  rewrite zdrop_app_exact in Hr'. split; [|by split].
  rewrite Hn at 1. rewrite ztake_app_exact, be_read_write. done.
Qed.

Lemma reads_readAs_any sp n l :
  reads sp l -> Z.of_nat n <= zlen l ->
  exists sp', ByteSpan.readAs n sp = Ok (be_read (ztake (Z.of_nat n) l), sp')
    /\ reads sp' (zdrop (Z.of_nat n) l).
Proof.
  intros [Hwf <-] Hn.
  destruct (ByteSpan.readAs_ok n sp) as (sp' & Hok & Hwf' & Hr' & _); [done..|].
  exists sp'. split; [done | by split].
Qed.

Lemma read_padLength_padded h b l :
  FrameHeader.hasAnyFlag FrameFlag.PADDED h = true -> zlen (b :: l) < 2 ^ 32 ->
  exists sp, read_padLength h (ByteSpan.make (b :: l)) = Ok (b2z b, sp) /\ reads sp l.
Proof.
  intros Hp Hl. unfold read_padLength. rewrite Hp.
  assert (Hi : ByteSpan.index (ByteSpan.make (b :: l)) 0 = Ok b).
  { unfold ByteSpan.index, ByteSpan.len. cbn [ByteSpan.data ByteSpan.make].
    rewrite Z.geb_leb. destruct (Z.leb_spec (zlen (b :: l)) 0) as [H|_]; [|done].
    rewrite zlen_cons in H. pose proof (zlen_nonneg l). lia. }
  rewrite Hi. cbn [obind].
  destruct (ByteSpan.advance_ok (ByteSpan.make (b :: l)) 1) as (sp & -> & Hwf & Hr & _);
    [by apply ByteSpan.wf_make | | cbn; exists sp; split; [done|by split] ].
  unfold ByteSpan.rest. cbn [ByteSpan.data ByteSpan.make ByteSpan.cur].
  rewrite zdrop_0, zlen_cons. pose proof (zlen_nonneg l). lia.
Qed.

Lemma read_padLength_unpadded h sp :
  FrameHeader.hasAnyFlag FrameFlag.PADDED h = false -> read_padLength h sp = Ok (0, sp).
Proof. unfold read_padLength. intros ->. done. Qed.

Lemma split_padding_ok pad sp l :
  reads sp l -> 0 <= pad <= zlen l ->
  split_padding pad sp = Ok (ztake (zlen l - pad) l, zdrop (zlen l - pad) l).
Proof.
  intros [Hwf Hr] Hp. unfold split_padding. rewrite Z.gtb_ltb.
  destruct (Z.ltb_spec 0 pad).
  - rewrite ByteSpan.size_rest by done. pose proof Hwf as [? Hlen].
    assert (zlen l <= ByteSpan.len sp) as Hll.
    { rewrite <- Hr. unfold ByteSpan.rest. rewrite zlen_zdrop; unfold ByteSpan.len in *; lia. }
    rewrite Hr, u32_small by lia.
    rewrite ByteSpan.first_ok by (rewrite Hr; lia). cbn [obind].
    destruct (ByteSpan.advance_ok sp (zlen l - pad)) as (sp' & -> & _ & Hr' & _);
      [done | rewrite Hr; lia |].
    cbn [obind]. by rewrite Hr', Hr.
  - replace pad with 0 by lia. rewrite Z.sub_0_r, ztake_all, zdrop_all, Hr. done.
Qed.

Lemma split_padding_app pad sp d p :
  reads sp (d ++ p) -> pad = zlen p -> split_padding pad sp = Ok (d, p).
Proof.
  intros Hr ->. erewrite split_padding_ok; [|done|rewrite zlen_app; pose proof (zlen_nonneg d); pose proof (zlen_nonneg p); lia].
  rewrite zlen_app, Z.add_simpl_r, ztake_app_exact, zdrop_app_exact. done.
Qed.

(** ** All frame kinds together *)

Inductive frame : Type :=
| FData (f : DataFrame.t)
| FHeaders (f : HeadersFrame.t)
| FRstStream (f : RstStreamFrame.t)
| FSettings (f : SettingFrame.t)
| FPushPromise (f : PushPromiseFrame.t)
| FPing (f : PingFrame.t)
| FGoAway (f : GoAwayFrame.t)
| FWindowUpdate (f : WindowUpdateFrame.t)
| FContinuation (f : ContinuationFrame.t).

Definition frame_header (f : frame) : FrameHeader.t :=
  match f with
  | FData f => DataFrame.header f
  | FHeaders f => HeadersFrame.header f
  | FRstStream f => RstStreamFrame.header f
  | FSettings f => SettingFrame.header f
  | FPushPromise f => PushPromiseFrame.header f
  | FPing f => PingFrame.header f
  | FGoAway f => GoAwayFrame.header f
  | FWindowUpdate f => WindowUpdateFrame.header f
  | FContinuation f => ContinuationFrame.header f
  end.

Definition frame_toBytes (f : frame) : bytes :=
  match f with
  | FData f => DataFrame.toBytes f
  | FHeaders f => HeadersFrame.toBytes f
  | FRstStream f => RstStreamFrame.toBytes f
  | FSettings f => SettingFrame.toBytes f
  | FPushPromise f => PushPromiseFrame.toBytes f
  | FPing f => PingFrame.toBytes f
  | FGoAway f => GoAwayFrame.toBytes f
  | FWindowUpdate f => WindowUpdateFrame.toBytes f
  | FContinuation f => ContinuationFrame.toBytes f
  end.

(** The constructor the frame dispatch selects for a raw frame. *)
Definition frame_parse (raw : RawFrame.t) : outcome (option frame) :=
  let ty := FrameHeader.type (RawFrame.header raw) in
  if ty =? FrameType.DATA then let! f := DataFrame.parse raw in Ok (Some (FData f))
  else if ty =? FrameType.HEADERS then
    let! f := HeadersFrame.parse raw in Ok (Some (FHeaders f))
  else if ty =? FrameType.RST_STREAM then
    let! f := RstStreamFrame.parse raw in Ok (Some (FRstStream f))
  else if ty =? FrameType.SETTINGS then
    let! f := SettingFrame.parse raw in Ok (Some (FSettings f))
  else if ty =? FrameType.PUSH_PROMISE then
    let! f := PushPromiseFrame.parse raw in Ok (Some (FPushPromise f))
  else if ty =? FrameType.PING then
    let! f := PingFrame.parse raw in Ok (Some (FPing f))
  else if ty =? FrameType.GOAWAY then
    let! f := GoAwayFrame.parse raw in Ok (Some (FGoAway f))
  else if ty =? FrameType.WINDOW_UPDATE then
    let! f := WindowUpdateFrame.parse raw in Ok (Some (FWindowUpdate f))
  else if ty =? FrameType.CONTINUATION then
    let! f := ContinuationFrame.parse raw in Ok (Some (FContinuation f))
  else Ok None.

(** Padding fields agree with the PADDED flag. *)
Definition padding_wf (h : FrameHeader.t) (padLength : Z) (padding : bytes) : Prop :=
  padLength = zlen padding /\ padLength < 256 /\
  (FrameHeader.hasAnyFlag FrameFlag.PADDED h = false -> padding = []).

(** The fields a frame kind keeps within their wire widths. *)
Definition frame_fields_wf (f : frame) : Prop :=
  match f with
  | FData f =>
      FrameHeader.type (DataFrame.header f) = FrameType.DATA /\
      padding_wf (DataFrame.header f) (DataFrame.padLength f) (DataFrame.padding f)
  | FHeaders f =>
      FrameHeader.type (HeadersFrame.header f) = FrameType.HEADERS /\
      padding_wf (HeadersFrame.header f) (HeadersFrame.padLength f) (HeadersFrame.padding f) /\
      0 <= HeadersFrame.streamDependency f < 2 ^ 32 /\ 0 <= HeadersFrame.weight f < 2 ^ 8 /\
      (FrameHeader.hasAnyFlag FrameFlag.PRIORITY (HeadersFrame.header f) = false ->
       HeadersFrame.streamDependency f = 0 /\ HeadersFrame.weight f = 0)
  | FRstStream f =>
      FrameHeader.type (RstStreamFrame.header f) = FrameType.RST_STREAM /\
      0 <= RstStreamFrame.errorCode f < 2 ^ 32
  | FSettings f =>
      FrameHeader.type (SettingFrame.header f) = FrameType.SETTINGS /\
      Forall (fun s => 0 <= fst s < 2 ^ 16 /\ 0 <= snd s < 2 ^ 32) (SettingFrame.settings f)
  | FPushPromise f =>
      FrameHeader.type (PushPromiseFrame.header f) = FrameType.PUSH_PROMISE /\
      padding_wf (PushPromiseFrame.header f) (PushPromiseFrame.padLength f)
        (PushPromiseFrame.padding f) /\
      0 <= PushPromiseFrame.promisedStreamId f < 2 ^ 31
  | FPing f => FrameHeader.type (PingFrame.header f) = FrameType.PING
  | FGoAway f =>
      FrameHeader.type (GoAwayFrame.header f) = FrameType.GOAWAY /\
      0 <= GoAwayFrame.lastStreamId f < 2 ^ 31 /\ 0 <= GoAwayFrame.errorCode f < 2 ^ 32
  | FWindowUpdate f =>
      FrameHeader.type (WindowUpdateFrame.header f) = FrameType.WINDOW_UPDATE /\
      0 <= WindowUpdateFrame.windowSizeIncrement f < 2 ^ 32
  | FContinuation f =>
      FrameHeader.type (ContinuationFrame.header f) = FrameType.CONTINUATION
  end.

(** A frame that fits the wire: header fields in range, and the declared
    payload length is the length of what follows the header. *)
Definition frame_wf (f : frame) : Prop :=
  FrameHeader.wf (frame_header f) /\ frame_fields_wf f /\
  FrameHeader.payloadLength (frame_header f) = zlen (frame_toBytes f) - 9.

Lemma zdrop_header h l : zdrop 9 (FrameHeader.encode h ++ l) = l.
Proof. apply (zdrop_app_exact (FrameHeader.encode h)). Qed.

Lemma read_padLength_written h pad p l :
  padding_wf h pad p ->
  zlen ((if FrameHeader.hasAnyFlag FrameFlag.PADDED h then be_write 1 pad else []) ++ l) < 2 ^ 32 ->
  exists sp,
    read_padLength h
      (ByteSpan.make ((if FrameHeader.hasAnyFlag FrameFlag.PADDED h then be_write 1 pad else [])
                        ++ l)) = Ok (pad, sp) /\ reads sp l.
Proof.
  intros (Hpad & Hlt & Hnil) Hlen. pose proof (zlen_nonneg p).
  destruct (FrameHeader.hasAnyFlag FrameFlag.PADDED h) eqn:Hp.
  - cbn [be_write app] in *. destruct (read_padLength_padded h _ l Hp Hlen) as (sp & -> & Hsp).
    exists sp. split; [|done]. rewrite b2z_z2b, Z.shiftr_0_r, Z.mod_small by lia. done.
  - rewrite Hnil in Hpad by done. subst pad. exists (ByteSpan.make l).
    rewrite read_padLength_unpadded by done. split; [done | by apply reads_make].
Qed.

Lemma split_padding_written h pad p d sp :
  padding_wf h pad p ->
  reads sp (d ++ (if FrameHeader.hasAnyFlag FrameFlag.PADDED h then p else [])) ->
  split_padding pad sp = Ok (d, p).
Proof.
  intros (Hpad & Hlt & Hnil) Hsp. apply split_padding_app; [|done].
  destruct (FrameHeader.hasAnyFlag FrameFlag.PADDED h); [done|].
  rewrite Hnil by done. done.
Qed.

Lemma zlen_encode_settings l : zlen (SettingFrame.encode_settings l) = 6 * zlen l.
Proof.
  unfold SettingFrame.encode_settings. induction l as [|[i v] l IH]; [done|].
  cbn [map concat]. rewrite !zlen_app, IH, !zlen_be_write, zlen_cons. lia.
Qed.

Lemma read_settings_written l sp fuel :
  reads sp (SettingFrame.encode_settings l) -> (length l < fuel)%nat ->
  Forall (fun s => 0 <= fst s < 2 ^ 16 /\ 0 <= snd s < 2 ^ 32) l ->
  SettingFrame.read_settings fuel sp = Ok l.
Proof.
  revert l sp. induction fuel as [|fuel IH]; intros l sp Hsp Hf Hl; [lia|].
  cbn [SettingFrame.read_settings]. pose proof Hsp as [Hwf Hr].
  destruct l as [|[i v] l].
  - rewrite (proj2 (ByteSpan.empty_rest sp Hwf)) by done. done.
  - inversion Hl as [|? ? [Hi Hv] Hl']; subst. cbn [fst snd] in *.
    rewrite (proj2 (ByteSpan.empty_false_rest sp Hwf)) by (rewrite Hr; done).
    unfold SettingFrame.encode_settings in Hsp. cbn [map concat fst snd] in Hsp.
    rewrite <- !app_assoc in Hsp.
    destruct (reads_readAs _ _ _ _ Hsp) as (sp1 & -> & Hsp1). cbn [obind].
    destruct (reads_readAs _ _ _ _ Hsp1) as (sp2 & -> & Hsp2). cbn [obind].
    rewrite (IH l) by (done || (simpl in Hf; lia)). cbn [obind].
    rewrite !Z.mod_small by (change (256 ^ Z.of_nat 2) with (2 ^ 16) || change (256 ^ Z.of_nat 4) with (2 ^ 32); lia).
    done.
Qed.

(** A payload whose length a 24-bit field declares fits a span. *)
Lemma payload_bound h l :
  FrameHeader.wf h -> FrameHeader.payloadLength h = zlen (FrameHeader.encode h ++ l) - 9 ->
  zlen l < 2 ^ 32.
Proof. intros (Hp & _) Hl. rewrite zlen_app, zlen_header_encode in Hl. lia. Qed.

Lemma data_roundtrip f :
  frame_wf (FData f) ->
  DataFrame.parse (RawFrame.mk (DataFrame.header f) (zdrop 9 (DataFrame.toBytes f))) = Ok f.
Proof.
  intros (Hh & [_ Hp] & Hl). destruct f as [h pad d p]; cbn -[be_write] in Hh, Hp, Hl. unfold DataFrame.toBytes in Hl. cbn -[be_write] in Hl.
  pose proof (payload_bound _ _ Hh Hl) as Hb.
  unfold DataFrame.parse, DataFrame.toBytes. cbn -[be_write]. rewrite zdrop_header.
  destruct (read_padLength_written h pad p _ Hp Hb) as (sp & -> & Hsp). cbn [obind].
  erewrite split_padding_written by done. done.
Qed.

Lemma headers_roundtrip f :
  frame_wf (FHeaders f) ->
  HeadersFrame.parse (RawFrame.mk (HeadersFrame.header f) (zdrop 9 (HeadersFrame.toBytes f))) = Ok f.
Proof.
  intros (Hh & (_ & Hp & Hd & Hw & Hn) & Hl). destruct f as [h pad dep w d p]; cbn in Hh, Hp, Hd, Hw, Hn, Hl.
  unfold HeadersFrame.toBytes in Hl. cbn -[be_write] in Hl.
  pose proof (payload_bound _ _ Hh Hl) as Hb.
  unfold HeadersFrame.parse, HeadersFrame.toBytes. cbn -[be_write]. rewrite zdrop_header.
  destruct (read_padLength_written h pad p _ Hp Hb) as (sp & -> & Hsp). cbn [obind].
  destruct (FrameHeader.hasAnyFlag FrameFlag.PRIORITY h).
  - rewrite <- app_assoc in Hsp.
    destruct (reads_readAs _ _ _ _ Hsp) as (sp1 & -> & Hsp1). cbn [obind].
    destruct (reads_readAs _ _ _ _ Hsp1) as (sp2 & -> & Hsp2). cbn [obind].
    erewrite split_padding_written by done. cbn [obind].
    do 2 f_equal; apply Z.mod_small; done.
  - destruct Hn as [-> ->]; [done|]. cbn [obind].
    erewrite split_padding_written by done. done.
Qed.

Lemma rst_stream_roundtrip f :
  frame_wf (FRstStream f) ->
  RstStreamFrame.parse (RawFrame.mk (RstStreamFrame.header f) (zdrop 9 (RstStreamFrame.toBytes f)))
  = Ok f.
Proof.
  intros (Hh & (_ & He) & Hl). destruct f as [h e]; cbn in He.
  unfold RstStreamFrame.parse, RstStreamFrame.toBytes. cbn -[be_write]. rewrite zdrop_header.
  destruct (reads_readAs (ByteSpan.make (be_write 4 e)) 4 e []) as (sp & -> & _).
  - rewrite app_nil_r. apply reads_make. rewrite zlen_be_write. lia.
  - cbn [obind]. do 2 f_equal. apply Z.mod_small. done.
Qed.

Lemma window_update_roundtrip f :
  frame_wf (FWindowUpdate f) ->
  WindowUpdateFrame.parse
    (RawFrame.mk (WindowUpdateFrame.header f) (zdrop 9 (WindowUpdateFrame.toBytes f))) = Ok f.
Proof.
  intros (Hh & (_ & He) & Hl). destruct f as [h e]; cbn in He.
  unfold WindowUpdateFrame.parse, WindowUpdateFrame.toBytes. cbn -[be_write]. rewrite zdrop_header.
  destruct (reads_readAs (ByteSpan.make (be_write 4 e)) 4 e []) as (sp & -> & _).
  - rewrite app_nil_r. apply reads_make. rewrite zlen_be_write. lia.
  - cbn [obind]. do 2 f_equal. apply Z.mod_small. done.
Qed.

Lemma settings_roundtrip f :
  frame_wf (FSettings f) ->
  SettingFrame.parse (RawFrame.mk (SettingFrame.header f) (zdrop 9 (SettingFrame.toBytes f))) = Ok f.
Proof.
  intros (Hh & (_ & Hs) & Hl). destruct f as [h l]; cbn in Hh, Hs, Hl.
  unfold SettingFrame.toBytes in Hl. cbn -[be_write] in Hl.
  pose proof (payload_bound _ _ Hh Hl) as Hb.
  unfold SettingFrame.parse, SettingFrame.toBytes. cbn -[SettingFrame.read_settings].
  rewrite zdrop_header, ByteSpan.size_rest by (by apply ByteSpan.wf_make).
  unfold ByteSpan.rest. cbn [ByteSpan.data ByteSpan.cur ByteSpan.make]. rewrite zdrop_0.
  rewrite zlen_encode_settings, Z.mul_comm, Z.mod_mul by lia.
  cbn -[SettingFrame.read_settings].
  rewrite (read_settings_written l) by
    (done || (by apply reads_make) ||
     (pose proof (zlen_encode_settings l); unfold zlen in *; lia)).
  done.
Qed.

Lemma push_promise_roundtrip f :
  frame_wf (FPushPromise f) ->
  PushPromiseFrame.parse
    (RawFrame.mk (PushPromiseFrame.header f) (zdrop 9 (PushPromiseFrame.toBytes f))) = Ok f.
Proof.
  intros (Hh & (_ & Hp & Hi) & Hl). destruct f as [h pad i d p]; cbn in Hh, Hp, Hi, Hl.
  unfold PushPromiseFrame.toBytes in Hl. cbn -[be_write] in Hl.
  pose proof (payload_bound _ _ Hh Hl) as Hb.
  unfold PushPromiseFrame.parse, PushPromiseFrame.toBytes. cbn -[be_write Z.land].
  rewrite zdrop_header.
  destruct (read_padLength_written h pad p _ Hp Hb) as (sp & -> & Hsp). cbn [obind].
  destruct (reads_readAs _ _ _ _ Hsp) as (sp1 & -> & Hsp1). cbn [obind].
  erewrite split_padding_written by done. cbn [obind]. do 2 f_equal.
  rewrite land_31. change (256 ^ Z.of_nat 4) with (2 ^ 32). rewrite mod_32_31.
  apply Z.mod_small. done.
Qed.

Lemma goaway_roundtrip f :
  frame_wf (FGoAway f) ->
  GoAwayFrame.parse (RawFrame.mk (GoAwayFrame.header f) (zdrop 9 (GoAwayFrame.toBytes f))) = Ok f.
Proof.
  intros (Hh & (_ & Hi & He) & Hl). destruct f as [h i e d]; cbn in Hh, Hi, He, Hl.
  unfold GoAwayFrame.toBytes in Hl. cbn -[be_write] in Hl.
  pose proof (payload_bound _ _ Hh Hl) as Hb.
  unfold GoAwayFrame.parse, GoAwayFrame.toBytes. cbn -[be_write Z.land].
  rewrite zdrop_header.
  destruct (reads_readAs _ _ _ _ (reads_make _ Hb)) as (sp1 & -> & Hsp1). cbn [obind].
  destruct (reads_readAs _ _ _ _ Hsp1) as (sp2 & -> & [_ Hr]). cbn [obind]. rewrite Hr.
  rewrite land_31. change (256 ^ Z.of_nat 4) with (2 ^ 32). rewrite mod_32_31.
  rewrite !Z.mod_small by lia. done.
Qed.

(** Reparsing the payload of any serialised frame. *)
Lemma frame_parse_payload f :
  frame_wf f ->
  frame_parse (RawFrame.mk (frame_header f) (zdrop 9 (frame_toBytes f))) = Ok (Some f).
Proof.
  intros Hwf. pose proof Hwf as (_ & Hf & _). unfold frame_parse.
  destruct f; cbn [frame_header frame_toBytes frame_fields_wf RawFrame.header] in *;
    match goal with
    | _ => rewrite (proj1 Hf)
    | _ => rewrite Hf
    end; cbn [Z.eqb Pos.eqb FrameType.DATA FrameType.HEADERS FrameType.RST_STREAM
              FrameType.SETTINGS FrameType.PUSH_PROMISE FrameType.PING FrameType.GOAWAY
              FrameType.WINDOW_UPDATE FrameType.CONTINUATION].
  - by rewrite data_roundtrip.
  - by rewrite headers_roundtrip.
  - by rewrite rst_stream_roundtrip.
  - by rewrite settings_roundtrip.
  - by rewrite push_promise_roundtrip.
  - unfold PingFrame.parse, PingFrame.toBytes. cbn. rewrite zdrop_header. by destruct f.
  - by rewrite goaway_roundtrip.
  - by rewrite window_update_roundtrip.
  - unfold ContinuationFrame.parse, ContinuationFrame.toBytes. cbn. rewrite zdrop_header.
    by destruct f.
Qed.
