(* ===== verification/FrameCodec.v ===== *)
(** * Frame codec

    [include/chttp2/frame_codec.hpp] and [src/frame_codec.cpp]: the byte
    accumulator that cuts the received stream into raw frames. *)

From S2P Require Import Prelude Outcome ByteBuffer Types Frame FrameFacts.

Module FrameCodec.
Record t := mk { buffer : bytes }.

Definition init : t := mk [].

(** [feed(data, len)]; an empty range leaves the buffer as it is. *)
Definition feed (data : bytes) (c : t) : t :=
  if zlen data =? 0 then c else mk (buffer c ++ data).

Definition bufferedBytes (c : t) : Z := zlen (buffer c).

Definition tryPop (c : t) : outcome (option RawFrame.t * t) :=
  if bufferedBytes c <? FrameHeader.encodedSize then Ok (None, c)
  else
    let headerSize := FrameHeader.encodedSize in
    let headerSpan := ByteSpan.make (ztake headerSize (buffer c)) in
    let! header := FrameHeader.decode headerSpan in
    let totalSize := headerSize + FrameHeader.payloadLength header in
    if bufferedBytes c <? totalSize then Ok (None, c)
    else
      let payload := ztake (FrameHeader.payloadLength header) (zdrop headerSize (buffer c)) in
      Ok (Some (RawFrame.mk header payload), mk (zdrop totalSize (buffer c))).

Definition clear (c : t) : t := mk [].

(** [while (tryPop(&frame))], collecting the frames. *)
Fixpoint drain (fuel : nat) (c : t) : outcome (list RawFrame.t * t) :=
  match fuel with
  | O => Fault Hangs
  | S fuel' =>
      let! (o, c') := tryPop c in
      match o with
      | None => Ok ([], c')
      | Some f =>
          let! (fs, c'') := drain fuel' c' in
          Ok (f :: fs, c'')
      end
  end.

(** A frame has at least 9 bytes, so this fuel is enough. *)
Definition drain_all (c : t) : outcome (list RawFrame.t * t) :=
  drain (S (length (buffer c))) c.

Lemma feed_buffer data c : buffer (feed data c) = buffer c ++ data.
Proof.
  unfold feed. destruct (Z.eqb_spec (zlen data) 0) as [->%zlen_0_nil|]; [|done].
  by rewrite app_nil_r.
Qed.

(** [tryPop] never faults: it waits for more bytes and changes nothing, or
    cuts a well-formed frame off the front of the buffer. *)
Lemma tryPop_spec c :
  tryPop c = Ok (None, c) \/
  exists f rest,
    tryPop c = Ok (Some f, mk rest) /\ RawFrame.wf f /\
    exists hd, zlen hd = 9 /\ buffer c = hd ++ RawFrame.data f ++ rest /\
               FrameHeader.decode (ByteSpan.make hd) = Ok (RawFrame.header f).
Proof.
  destruct c as [b]. unfold tryPop, bufferedBytes, FrameHeader.encodedSize; cbn [buffer].
  destruct (Z.ltb_spec (zlen b) 9); [by left|].
  destruct (header_decode_ok (ztake 9 b)) as (h & Hd & Hh); [rewrite zlen_ztake; lia|].
  rewrite Hd. cbn [obind].
  destruct (Z.ltb_spec (zlen b) (9 + FrameHeader.payloadLength h)); [by left|right].
  destruct Hh as [Hp Hh].
  assert (Hpl : zlen (ztake (FrameHeader.payloadLength h) (zdrop 9 b)) = FrameHeader.payloadLength h).
  { apply zlen_ztake. rewrite zlen_zdrop; lia. }
  do 2 eexists. split; [done|]. split.
  { split; [exact (conj Hp Hh) | cbn [RawFrame.header RawFrame.data]; by rewrite Hpl]. }
  exists (ztake 9 b). cbn [RawFrame.data RawFrame.header]. split; [rewrite zlen_ztake; lia|].
  split; [|done].
  rewrite <- (ztake_zdrop 9 b) at 1. f_equal.
  rewrite <- (ztake_zdrop (FrameHeader.payloadLength h) (zdrop 9 b)) at 1. f_equal.
  apply zdrop_zdrop; lia.
Qed.

(** What is at the front decides what is popped. *)
Lemma tryPop_front hd h data rest :
  zlen hd = 9 -> FrameHeader.decode (ByteSpan.make hd) = Ok h ->
  FrameHeader.payloadLength h = zlen data ->
  tryPop (mk (hd ++ data ++ rest)) = Ok (Some (RawFrame.mk h data), mk rest).
Proof.
  intros Hhd Hdec Hlen. unfold tryPop, bufferedBytes, FrameHeader.encodedSize; cbn [buffer].
  pose proof (zlen_nonneg data). pose proof (zlen_nonneg rest).
  rewrite !zlen_app. destruct (Z.ltb_spec (zlen hd + (zlen data + zlen rest)) 9); [lia|].
  rewrite <- Hhd, ztake_app_exact, Hdec. cbn [obind].
  destruct (Z.ltb_spec (zlen hd + (zlen data + zlen rest)) (zlen hd + FrameHeader.payloadLength h)); [lia|].
  rewrite zdrop_app_exact, Hlen, ztake_app_exact.
  rewrite <- zdrop_zdrop, zdrop_app_exact, zdrop_app_exact by lia. done.
Qed.

Lemma tryPop_more c f c' x :
  tryPop c = Ok (Some f, c') -> tryPop (mk (buffer c ++ x)) = Ok (Some f, mk (buffer c' ++ x)).
Proof.
  intros H. destruct (tryPop_spec c) as [H0|(f0 & rest & H0 & Hwf & hd & Hhd & Hb & Hdec)];
    rewrite H0 in H; simplify_eq.
  rewrite Hb, <- !app_assoc. cbn [buffer].
  destruct f as [h d]. apply tryPop_front; [done..|apply Hwf].
Qed.

Lemma tryPop_shrinks c f c' :
  tryPop c = Ok (Some f, c') -> (length (buffer c') < length (buffer c))%nat.
Proof.
  intros H. destruct (tryPop_spec c) as [H0|(f0 & rest & H0 & Hwf & hd & Hhd & Hb & Hdec)];
    rewrite H0 in H; simplify_eq.
  rewrite Hb, !length_app. cbn [buffer]. unfold zlen in Hhd. lia.
Qed.

(** Enough fuel: [drain] ends, in a state with no complete frame. *)
Lemma drain_total fuel c :
  (length (buffer c) < fuel)%nat ->
  exists fs c', drain fuel c = Ok (fs, c') /\ tryPop c' = Ok (None, c') /\ Forall RawFrame.wf fs.
Proof.
  revert c. induction fuel as [|fuel IH]; intros c Hf; [lia|]. cbn [drain].
  destruct (tryPop_spec c) as [H0|(f & rest & H0 & Hwf & _)]; rewrite H0; cbn [obind].
  - eauto.
  - pose proof (tryPop_shrinks _ _ _ H0).
    destruct (IH (mk rest)) as (fs & c' & -> & ? & ?); [lia|].
    cbn. do 2 eexists. split; [done|]. split; [done|]. by constructor.
Qed.

Lemma drain_fuel_mono fuel fuel' c r :
  drain fuel c = Ok r -> (fuel <= fuel')%nat -> drain fuel' c = Ok r.
Proof.
  revert fuel' c r. induction fuel as [|fuel IH]; intros fuel' c r H Hle; [done|].
  destruct fuel' as [|fuel']; [lia|]. cbn [drain] in *.
  destruct (tryPop c) as [[[f|] c']|]; cbn [obind] in *; [|done|done].
  destruct (drain fuel c') as [[fs c'']|] eqn:E; [|done].
  rewrite (IH fuel' c' _ E) by lia. done.
Qed.

Lemma drain_all_fuel fuel c r :
  (length (buffer c) < fuel)%nat -> drain_all c = Ok r <-> drain fuel c = Ok r.
Proof.
  intros Hf. unfold drain_all. split; intros H.
  - eapply drain_fuel_mono; [done|lia].
  - destruct (drain_total (S (length (buffer c))) c) as (fs & c' & H' & _); [lia|].
    rewrite H'. rewrite (drain_fuel_mono _ fuel _ _ H') in H by lia. done.
Qed.

(** Draining after two feeds is draining once after one feed. *)
Lemma drain_app c x fs c' :
  drain_all c = Ok (fs, c') ->
  drain_all (mk (buffer c ++ x)) =
    let! (gs, c'') := drain_all (mk (buffer c' ++ x)) in Ok (fs ++ gs, c'').
Proof.
  intros H. assert (Hn : exists n, (length (buffer c) < n)%nat) by (exists (S (length (buffer c))); lia).
  destruct Hn as [n Hn]. rewrite (drain_all_fuel n) in H by done.
  revert c fs Hn H. induction n as [|n IH]; intros c fs Hn H; [lia|].
  cbn [drain] in H.
  destruct (tryPop c) as [[[f|] c1]|] eqn:E; cbn [obind] in H; [| | done].
  - destruct (drain n c1) as [[fs1 c1']|] eqn:E1; [|done]. cbn [obind] in H. simplify_eq.
    pose proof (tryPop_shrinks _ _ _ E) as Hs.
    specialize (IH c1 fs1 ltac:(lia) E1).
    destruct (drain_total (S (length (buffer (mk (buffer c' ++ x))))) (mk (buffer c' ++ x)))
      as (gs & c'' & Hg & _); [lia|].
    fold (drain_all (mk (buffer c' ++ x))) in Hg. rewrite Hg in IH |- *. cbn [obind] in *.
    assert (exists m, length (buffer c ++ x) < m)%nat as [m Hm]
      by (exists (S (length (buffer c ++ x))); lia).
    apply (drain_all_fuel (S m)); [cbn [buffer]; lia|].
    cbn [drain]. rewrite (tryPop_more _ _ _ x E). cbn [obind].
    apply (drain_all_fuel m) in IH;
      [by rewrite IH | cbn [buffer]; rewrite !length_app in *; lia].
  - simplify_eq. destruct (tryPop_spec c) as [H0|(f & rest & H0 & _)]; rewrite H0 in E; simplify_eq.
    destruct (drain_all _) as [[gs c'']|]; done.
Qed.
(** The codec does not depend on how the transport cuts the stream:
    feeding [x] then [y], draining after each, pops the frames (and leaves
    the buffer) of one feed of [x ++ y]; and the loop always terminates. *)
Lemma drain_twice x y c :
  exists fs gs c1 c2,
    drain_all (feed x c) = Ok (fs, c1) /\
    drain_all (feed y c1) = Ok (gs, c2) /\
    drain_all (feed (x ++ y) c) = Ok (fs ++ gs, c2).
Proof.
  assert (Hfeed : forall d c, feed d c = mk (buffer c ++ d)).
  { intros d [b]. unfold feed. destruct (Z.eqb_spec (zlen d) 0) as [->%zlen_0_nil|]; [|done].
    cbn. by rewrite app_nil_r. }
  destruct (drain_total _ (feed x c) (Nat.lt_succ_diag_r _)) as (fs & c1 & H1 & _).
  destruct (drain_total _ (feed y c1) (Nat.lt_succ_diag_r _)) as (gs & c2 & H2 & _).
  exists fs, gs, c1, c2. split; [done|]. split; [done|].
  rewrite (Hfeed (x ++ y)), app_assoc.
  pose proof (drain_app (feed x c) y fs c1 H1) as H.
  rewrite (Hfeed x) in H. cbn [buffer] in H. rewrite H.
  rewrite <- Hfeed. fold (drain_all (feed y c1)) in H2. by rewrite H2.
Qed.
End FrameCodec.

(** ** Serialised frames are popped back *)

Lemma frame_toBytes_header f : exists payload, frame_toBytes f = FrameHeader.encode (frame_header f) ++ payload.
Proof. destruct f; cbn; unfold DataFrame.toBytes, HeadersFrame.toBytes, RstStreamFrame.toBytes,
  SettingFrame.toBytes, PushPromiseFrame.toBytes, PingFrame.toBytes, GoAwayFrame.toBytes,
  WindowUpdateFrame.toBytes, ContinuationFrame.toBytes; eauto. Qed.

Lemma tryPop_frame f rest :
  frame_wf f ->
  FrameCodec.tryPop (FrameCodec.mk (frame_toBytes f ++ rest)) =
    Ok (Some (RawFrame.mk (frame_header f) (zdrop 9 (frame_toBytes f))), FrameCodec.mk rest).
Proof.
  intros (Hh & Hf & Hl). destruct (frame_toBytes_header f) as [payload Hp].
  rewrite Hp in *. rewrite zdrop_header, <- app_assoc.
  apply FrameCodec.tryPop_front; [done | by apply header_roundtrip_bytes |].
  rewrite Hl, zlen_app, zlen_header_encode. lia.
Qed.

Lemma drain_frames fs t :
  Forall frame_wf fs -> FrameCodec.tryPop (FrameCodec.mk t) = Ok (None, FrameCodec.mk t) ->
  FrameCodec.drain_all (FrameCodec.mk (concat (map frame_toBytes fs) ++ t)) =
    Ok (map (fun f => RawFrame.mk (frame_header f) (zdrop 9 (frame_toBytes f))) fs,
        FrameCodec.mk t).
Proof.
  intros Hfs Ht. induction Hfs as [|f fs Hf Hfs IH]; cbn [map concat].
  - unfold FrameCodec.drain_all. cbn [FrameCodec.drain app]. by rewrite Ht.
  - rewrite <- app_assoc. set (tail := concat _ ++ t) in *.
    apply (FrameCodec.drain_all_fuel (S (S (length (frame_toBytes f ++ tail))))); [cbn; lia|].
    cbn [FrameCodec.drain]. rewrite tryPop_frame by done. cbn [obind].
    apply (FrameCodec.drain_all_fuel (S (length (frame_toBytes f ++ tail)))) in IH;
      [|cbn [FrameCodec.buffer]; rewrite length_app; lia].
    cbn [FrameCodec.drain] in IH. rewrite IH. done.
Qed.

(** ** Properties *)

(** C19: serialising any sequence of well-formed frames (any kind, with or
    without padding and priority), followed by an incomplete frame [t],
    and feeding the bytes to the codec pops exactly those frames: reparsing
    each popped raw frame with its constructor gives the original structure,
    and only [t] stays buffered. *)
Theorem frame_stream_roundtrip fs t :
  Forall frame_wf fs ->
  FrameCodec.tryPop (FrameCodec.mk t) = Ok (None, FrameCodec.mk t) ->
  exists raws,
    FrameCodec.drain_all (FrameCodec.feed (concat (map frame_toBytes fs) ++ t) FrameCodec.init)
      = Ok (raws, FrameCodec.mk t) /\
    Forall RawFrame.wf raws /\
    map frame_parse raws = map (fun f => Ok (Some f)) fs.
Proof.
  intros Hfs Ht. destruct (FrameCodec.feed _ _) as [b] eqn:Hb.
  apply (f_equal FrameCodec.buffer) in Hb. rewrite FrameCodec.feed_buffer in Hb. cbn in Hb. subst b.
  destruct (FrameCodec.drain_total _ (FrameCodec.mk (concat (map frame_toBytes fs) ++ t)) (Nat.lt_succ_diag_r _))
    as (raws & c' & Hd & _ & Hwf).
  fold (FrameCodec.drain_all (FrameCodec.mk (concat (map frame_toBytes fs) ++ t))) in Hd.
  rewrite drain_frames in Hd by done. injection Hd as <- <-.
  rewrite drain_frames by done. eexists. split_and!; [done..|].
  rewrite map_map. apply map_ext_Forall. eapply Forall_impl; [done|].
  intros f Hf. by apply frame_parse_payload.
Qed.

Lemma frame_stream_roundtrip_witness :
  let fs := [FSettings (SettingFrame.mk (FrameHeader.mk 6 FrameType.SETTINGS 0 0) [(4, 65535)]);
             FData (DataFrame.mk (FrameHeader.mk 6 FrameType.DATA 0x9 1) 3 [x61; x62] [x00; x00; x00])] in
  exists raws,
    FrameCodec.drain_all (FrameCodec.feed (concat (map frame_toBytes fs) ++ [x00; x01]) FrameCodec.init)
      = Ok (raws, FrameCodec.mk [x00; x01]) /\
    Forall RawFrame.wf raws /\
    map frame_parse raws = map (fun f => Ok (Some f)) fs.
Proof.
  intros fs. apply (frame_stream_roundtrip fs [x00; x01]); [|reflexivity].
  apply Forall_cons_2; [|apply Forall_cons_2; [|apply Forall_nil_2]].
  - split; [split_and!; vm_compute; done|]. split; [|reflexivity].
    split; [done|]. apply Forall_singleton. split; vm_compute; done.
  - split; [split_and!; vm_compute; done|]. split; [|reflexivity]. split; [done|].
    split; [done|]. split; [vm_compute; done|done].
Defined.
