(* ===== verification/Huffman.v ===== *)
(** * Huffman coding of header strings

    [include/chttp2/hpack/huffman.hpp] and [src/hpack/huffman.cpp]: the code
    of RFC 7541 Appendix B, the 8-bits-at-a-time decoding tree, and the
    encoder and decoder with their fixed-width shift registers. *)

From S2P Require Import Prelude Outcome ByteBuffer.

(** ** Bit strings

    Most-significant-bit-first bit strings of integers and byte strings, the
    specification language of the code. *)

(** The [n] low bits of [v], most significant first. *)
Fixpoint to_bits (n : nat) (v : Z) : list bool :=
  match n with
  | O => []
  | S n' => Z.testbit v (Z.of_nat n') :: to_bits n' v
  end.

Definition byte_bits (b : byte) : list bool := to_bits 8 (b2z b).
Definition bytes_bits (l : bytes) : list bool := concat (map byte_bits l).

Lemma length_to_bits n v : length (to_bits n v) = n.
Proof. induction n; simpl; congruence. Qed.

Lemma length_bytes_bits l : length (bytes_bits l) = (8 * length l)%nat.
Proof.
  unfold bytes_bits. induction l as [|b l IH]; [done|].
  cbn [map concat]. rewrite length_app, IH. unfold byte_bits. rewrite length_to_bits. simpl. lia.
Qed.

Lemma bytes_bits_app l k : bytes_bits (l ++ k) = bytes_bits l ++ bytes_bits k.
Proof. unfold bytes_bits. rewrite map_app, concat_app. done. Qed.

Lemma bytes_bits_cons b l : bytes_bits (b :: l) = byte_bits b ++ bytes_bits l.
Proof. done. Qed.

(** Only the low [n] bits matter. *)
Lemma to_bits_ext n v w :
  (forall i, 0 <= i < Z.of_nat n -> Z.testbit v i = Z.testbit w i) -> to_bits n v = to_bits n w.
Proof.
  induction n as [|n IH]; intros H; [done|]. cbn [to_bits]. f_equal; [apply H; lia|].
  apply IH. intros i Hi. apply H. lia.
Qed.

Lemma to_bits_inj n v w :
  to_bits n v = to_bits n w -> forall i, 0 <= i < Z.of_nat n -> Z.testbit v i = Z.testbit w i.
Proof.
  induction n as [|n IH]; intros H i Hi; [lia|]. cbn [to_bits] in H. injection H as H1 H2.
  destruct (Z.eq_dec i (Z.of_nat n)) as [->|]; [done|]. apply IH; [done|lia].
Qed.

Lemma to_bits_mod n k v : Z.of_nat n <= k -> to_bits n (v mod 2 ^ k) = to_bits n v.
Proof. intros Hk. apply to_bits_ext. intros i Hi. apply Z.mod_pow2_bits_low. lia. Qed.

Lemma to_bits_small_inj n v w :
  0 <= v < 2 ^ Z.of_nat n -> 0 <= w < 2 ^ Z.of_nat n -> to_bits n v = to_bits n w -> v = w.
Proof.
  intros Hv Hw H. rewrite <- (Z.mod_small v (2 ^ Z.of_nat n)), <- (Z.mod_small w (2 ^ Z.of_nat n)) by lia.
  apply Z.bits_inj'. intros i Hi. destruct (Z.ltb_spec i (Z.of_nat n)).
  - rewrite !Z.mod_pow2_bits_low by lia. apply (to_bits_inj n); [done|lia].
  - rewrite !Z.mod_pow2_bits_high by lia. done.
Qed.

Lemma to_bits_split n m v : to_bits (n + m) v = to_bits n (Z.shiftr v (Z.of_nat m)) ++ to_bits m v.
Proof.
  induction n as [|n IH]; [done|]. cbn [to_bits Nat.add app]. f_equal; [|done].
  rewrite Z.shiftr_spec by lia. f_equal. lia.
Qed.

Lemma shiftr_lor_shiftl a c n : 0 <= n -> 0 <= c < 2 ^ n -> Z.shiftr (Z.lor (Z.shiftl a n) c) n = a.
Proof.
  intros Hn Hc. rewrite lor_shiftl_add, Z.shiftr_div_pow2, Z.div_add_l by lia.
  rewrite Z.div_small; lia.
Qed.

Lemma to_bits_lor_low n a c : 0 <= c -> to_bits n (Z.lor (Z.shiftl a (Z.of_nat n)) c) = to_bits n c.
Proof.
  intros Hc. apply to_bits_ext. intros i Hi. rewrite Z.lor_spec, Z.shiftl_spec_low by lia. done.
Qed.

(** Shifting in [n] new low bits. *)
Lemma to_bits_shift_in m n a c :
  0 <= c < 2 ^ Z.of_nat n ->
  to_bits (m + n) (Z.lor (Z.shiftl a (Z.of_nat n)) c) = to_bits m a ++ to_bits n c.
Proof.
  intros Hc. rewrite to_bits_split. f_equal; [|apply to_bits_lor_low; lia].
  rewrite shiftr_lor_shiftl by lia. done.
Qed.

Lemma byte_bits_inj b c : byte_bits b = byte_bits c -> b = c.
Proof.
  intros H. apply b2z_inj. apply (to_bits_small_inj 8); [apply b2z_range..|done].
Qed.

Lemma bytes_bits_inj l k : bytes_bits l = bytes_bits k -> l = k.
Proof.
  revert k. induction l as [|b l IH]; intros k H.
  - destruct k as [|c k]; [done|]. apply (f_equal length) in H.
    rewrite !length_bytes_bits in H. simpl in H. lia.
  - destruct k as [|c k].
    { apply (f_equal length) in H. rewrite !length_bytes_bits in H. simpl in H. lia. }
    rewrite !bytes_bits_cons in H. apply app_inj_1 in H as [Hb Hl].
    + f_equal; [by apply byte_bits_inj | by apply IH].
    + unfold byte_bits. by rewrite !length_to_bits.
Qed.

Lemma byte_bits_z2b v : byte_bits (z2b v) = to_bits 8 v.
Proof.
  unfold byte_bits. rewrite b2z_z2b. change 256 with (2 ^ 8). apply to_bits_mod. lia.
Qed.

Lemma bytes_bits_be_write n v : bytes_bits (be_write n v) = to_bits (8 * n) v.
Proof.
  induction n as [|n IH]; [done|]. cbn [be_write]. rewrite bytes_bits_cons, byte_bits_z2b, IH.
  replace (8 * S n)%nat with (8 + 8 * n)%nat by lia. rewrite to_bits_split. do 2 f_equal. f_equal. lia.
Qed.

Lemma to_bits_ones n : to_bits n (2 ^ Z.of_nat n - 1) = replicate n true.
Proof.
  assert (H : forall m, (m <= n)%nat -> to_bits m (2 ^ Z.of_nat n - 1) = replicate m true); [|by apply H].
  induction m as [|m IH]; intros Hm; [done|]. cbn [to_bits replicate]. f_equal; [|apply IH; lia].
  rewrite Z.sub_1_r, <- Z.ones_equiv, Z.ones_spec_low by lia. done.
Qed.

(** ** The code *)

Definition codes : list Z :=
  [
    0x1ff8; 0x7fffd8; 0xfffffe2; 0xfffffe3; 0xfffffe4; 0xfffffe5; 0xfffffe6; 0xfffffe7;
    0xfffffe8; 0xffffea; 0x3ffffffc; 0xfffffe9; 0xfffffea; 0x3ffffffd; 0xfffffeb; 0xfffffec;
    0xfffffed; 0xfffffee; 0xfffffef; 0xffffff0; 0xffffff1; 0xffffff2; 0x3ffffffe; 0xffffff3;
    0xffffff4; 0xffffff5; 0xffffff6; 0xffffff7; 0xffffff8; 0xffffff9; 0xffffffa; 0xffffffb;
    0x14; 0x3f8; 0x3f9; 0xffa; 0x1ff9; 0x15; 0xf8; 0x7fa; 0x3fa; 0x3fb; 0xf9; 0x7fb; 0xfa;
    0x16; 0x17; 0x18; 0x0; 0x1; 0x2; 0x19; 0x1a; 0x1b; 0x1c; 0x1d; 0x1e; 0x1f; 0x5c; 0xfb;
    0x7ffc; 0x20; 0xffb; 0x3fc; 0x1ffa; 0x21; 0x5d; 0x5e; 0x5f; 0x60; 0x61; 0x62; 0x63;
    0x64; 0x65; 0x66; 0x67; 0x68; 0x69; 0x6a; 0x6b; 0x6c; 0x6d; 0x6e; 0x6f; 0x70; 0x71;
    0x72; 0xfc; 0x73; 0xfd; 0x1ffb; 0x7fff0; 0x1ffc; 0x3ffc; 0x22; 0x7ffd; 0x3; 0x23; 0x4;
    0x24; 0x5; 0x25; 0x26; 0x27; 0x6; 0x74; 0x75; 0x28; 0x29; 0x2a; 0x7; 0x2b; 0x76; 0x2c;
    0x8; 0x9; 0x2d; 0x77; 0x78; 0x79; 0x7a; 0x7b; 0x7ffe; 0x7fc; 0x3ffd; 0x1ffd; 0xffffffc;
    0xfffe6; 0x3fffd2; 0xfffe7; 0xfffe8; 0x3fffd3; 0x3fffd4; 0x3fffd5; 0x7fffd9; 0x3fffd6;
    0x7fffda; 0x7fffdb; 0x7fffdc; 0x7fffdd; 0x7fffde; 0xffffeb; 0x7fffdf; 0xffffec;
    0xffffed; 0x3fffd7; 0x7fffe0; 0xffffee; 0x7fffe1; 0x7fffe2; 0x7fffe3; 0x7fffe4;
    0x1fffdc; 0x3fffd8; 0x7fffe5; 0x3fffd9; 0x7fffe6; 0x7fffe7; 0xffffef; 0x3fffda;
    0x1fffdd; 0xfffe9; 0x3fffdb; 0x3fffdc; 0x7fffe8; 0x7fffe9; 0x1fffde; 0x7fffea; 0x3fffdd;
    0x3fffde; 0xfffff0; 0x1fffdf; 0x3fffdf; 0x7fffeb; 0x7fffec; 0x1fffe0; 0x1fffe1;
    0x3fffe0; 0x1fffe2; 0x7fffed; 0x3fffe1; 0x7fffee; 0x7fffef; 0xfffea; 0x3fffe2; 0x3fffe3;
    0x3fffe4; 0x7ffff0; 0x3fffe5; 0x3fffe6; 0x7ffff1; 0x3ffffe0; 0x3ffffe1; 0xfffeb;
    0x7fff1; 0x3fffe7; 0x7ffff2; 0x3fffe8; 0x1ffffec; 0x3ffffe2; 0x3ffffe3; 0x3ffffe4;
    0x7ffffde; 0x7ffffdf; 0x3ffffe5; 0xfffff1; 0x1ffffed; 0x7fff2; 0x1fffe3; 0x3ffffe6;
    0x7ffffe0; 0x7ffffe1; 0x3ffffe7; 0x7ffffe2; 0xfffff2; 0x1fffe4; 0x1fffe5; 0x3ffffe8;
    0x3ffffe9; 0xffffffd; 0x7ffffe3; 0x7ffffe4; 0x7ffffe5; 0xfffec; 0xfffff3; 0xfffed;
    0x1fffe6; 0x3fffe9; 0x1fffe7; 0x1fffe8; 0x7ffff3; 0x3fffea; 0x3fffeb; 0x1ffffee;
    0x1ffffef; 0xfffff4; 0xfffff5; 0x3ffffea; 0x7ffff4; 0x3ffffeb; 0x7ffffe6; 0x3ffffec;
    0x3ffffed; 0x7ffffe7; 0x7ffffe8; 0x7ffffe9; 0x7ffffea; 0x7ffffeb; 0xffffffe; 0x7ffffec;
    0x7ffffed; 0x7ffffee; 0x7ffffef; 0x7fffff0; 0x3ffffee].

Definition lengths : list Z :=
  [
    13; 23; 28; 28; 28; 28; 28; 28; 28; 24; 30; 28; 28; 30; 28; 28; 28; 28; 28; 28; 28; 28;
    30; 28; 28; 28; 28; 28; 28; 28; 28; 28; 6; 10; 10; 12; 13; 6; 8; 11; 10; 10; 8; 11; 8;
    6; 6; 6; 5; 5; 5; 6; 6; 6; 6; 6; 6; 6; 7; 8; 15; 6; 12; 10; 13; 6; 7; 7; 7; 7; 7; 7; 7;
    7; 7; 7; 7; 7; 7; 7; 7; 7; 7; 7; 7; 7; 7; 7; 8; 7; 8; 13; 19; 13; 14; 6; 15; 5; 6; 5; 6;
    5; 6; 6; 6; 5; 7; 7; 6; 6; 6; 5; 6; 7; 6; 5; 5; 6; 7; 7; 7; 7; 7; 15; 11; 14; 13; 28;
    20; 22; 20; 20; 22; 22; 22; 23; 22; 23; 23; 23; 23; 23; 24; 23; 24; 24; 22; 23; 24; 23;
    23; 23; 23; 21; 22; 23; 22; 23; 23; 24; 22; 21; 20; 22; 22; 23; 23; 21; 23; 22; 22; 24;
    21; 22; 23; 23; 21; 21; 22; 21; 23; 22; 23; 23; 20; 22; 22; 22; 23; 22; 22; 23; 26; 26;
    20; 19; 22; 23; 22; 25; 26; 26; 26; 27; 27; 26; 24; 25; 19; 21; 26; 27; 27; 26; 27; 24;
    21; 21; 26; 26; 28; 27; 27; 27; 20; 24; 20; 21; 22; 21; 21; 23; 22; 22; 25; 25; 24; 24;
    26; 23; 26; 27; 26; 26; 27; 27; 27; 27; 27; 28; 27; 27; 27; 27; 27; 26].

(** [codes[static_cast<uint8_t>(c)]] and [lengths[static_cast<uint8_t>(c)]]. *)
Definition code_of (c : byte) : Z := default 0 (znth codes (b2z c)).
Definition length_of (c : byte) : Z := default 0 (znth lengths (b2z c)).

(** ** The decoding tree *)

Inductive Node : Type :=
| mkNode (children : list (option Node)) (leaf : bool) (bits symbol : Z).

Definition children (n : Node) : list (option Node) := let '(mkNode c _ _ _) := n in c.
Definition leaf (n : Node) : bool := let '(mkNode _ l _ _) := n in l.
Definition bits (n : Node) : Z := let '(mkNode _ _ b _) := n in b.
Definition symbol (n : Node) : Z := let '(mkNode _ _ _ s) := n in s.

(** [new Node()]: 256 null children. *)
Definition no_children : list (option Node) := replicate 256 None.
Definition new_node : Node := mkNode no_children false 0 0.
Definition new_leaf (sym len : Z) : Node := mkNode no_children true len sym.

(** [node->children[idx]]. *)
Definition child (n : Node) (idx : Z) : option Node :=
  match znth (children n) idx with Some o => o | None => None end.
Definition set_child (idx : Z) (c : Node) (n : Node) : Node :=
  mkNode (<[Z.to_nat idx := Some c]> (children n)) (leaf n) (bits n) (symbol n).

(** [for (j = start; j < start + count; ++j) if (!children[j]) ...]. *)
Fixpoint fill_leaves (count : nat) (j sym len : Z) (n : Node) : Node :=
  match count with
  | O => n
  | S count' =>
      let n := match child n j with
               | None => set_child j (new_leaf sym len) n
               | Some _ => n
               end in
      fill_leaves count' (j + 1) sym len n
  end.

(** One iteration of the loop over the symbols, from node [n]; the depth of
    the tree is at most 4. *)
Fixpoint insert_code (depth : nat) (code len sym : Z) (n : Node) : Node :=
  match depth with
  | O => n
  | S depth' =>
      if len >? 8 then
        let len := len - 8 in
        let idx := u8 (Z.shiftr code len) in
        let c := default new_node (child n idx) in
        set_child idx (insert_code depth' code len sym c) n
      else
        let shift := 8 - len in
        let start := u8 (Z.shiftl code shift) in
        let count := Z.shiftl 1 shift in
        fill_leaves (Z.to_nat count) start sym len n
  end.

Fixpoint insert_codes (sym : Z) (cs ls : list Z) (n : Node) : Node :=
  match cs, ls with
  | code :: cs', len :: ls' => insert_codes (sym + 1) cs' ls' (insert_code 4 code len sym n)
  | _, _ => n
  end.

Definition buildTree : Node := insert_codes 0 codes lengths new_node.
Definition getRoot : Node := buildTree.

(** ** Encoder *)

Definition encodedLength (str : bytes) : Z :=
  (fold_left (fun total c => total + length_of c) str 0 + 7) / 8.

(** The encoder's registers: [buf : uint64_t], [nbits : uint8_t]. *)
Record encoder := mk_encoder { out : bytes; ebuf : Z; nbits : Z }.

(** One symbol; four bytes are flushed when 32 bits are pending. *)
Definition encode_char (e : encoder) (c : byte) : encoder :=
  let buf := Z.lor (u64 (Z.shiftl (ebuf e) (length_of c))) (code_of c) in
  let nbits := u8 (nbits e + length_of c) in
  if nbits >=? 32 then
    let nbits := nbits - 32 in
    let word := u32 (Z.shiftr buf nbits) in
    mk_encoder (out e ++ be_write 4 word) buf nbits
  else mk_encoder (out e) buf nbits.

(** Pad with ones up to a byte boundary. *)
Definition pad_bits (e : encoder) : encoder :=
  let rem := nbits e mod 8 in
  if rem >? 0 then
    let pad := 8 - rem in
    mk_encoder (out e)
      (Z.lor (u64 (Z.shiftl (ebuf e) pad)) (Z.shiftl 1 pad - 1)) (nbits e + pad)
  else e.

(** [while (nbits >= 8)]: at most four bytes are pending. *)
Fixpoint flush_bytes (fuel : nat) (e : encoder) : outcome encoder :=
  match fuel with
  | O => Fault Hangs
  | S fuel' =>
      if nbits e >=? 8 then
        let nbits := nbits e - 8 in
        flush_bytes fuel' (mk_encoder (out e ++ [z2b (Z.shiftr (ebuf e) nbits)]) (ebuf e) nbits)
      else Ok e
  end.

Definition encode (str : bytes) : outcome bytes :=
  let e := fold_left encode_char str (mk_encoder [] 0 0) in
  let! e := flush_bytes 5 (pad_bits e) in
  Ok (out e).

(** ** Decoder *)

Inductive HuffmanResult : Type := HUFF_OK | INVALID_CODE.

(** The decoder's registers: [buf : uint32_t], [avail, pending : uint8_t]. *)
Record decoder := mk_decoder {
  node : Node; dbuf : Z; avail : Z; pending : Z; result : bytes
}.

(** [while (avail >= 8)]; [None] is the return of [INVALID_CODE]. *)
Fixpoint decode_bits (fuel : nat) (d : decoder) : outcome (option decoder) :=
  match fuel with
  | O => Fault Hangs
  | S fuel' =>
      if avail d >=? 8 then
        let idx := Z.land (Z.shiftr (dbuf d) (avail d - 8)) 0xff in
        match child (node d) idx with
        | None => Ok None
        | Some n =>
            if leaf n then
              let av := u8 (avail d - bits n) in
              decode_bits fuel'
                (mk_decoder getRoot (dbuf d) av av (result d ++ [z2b (symbol n)]))
            else
              decode_bits fuel' (mk_decoder n (dbuf d) (avail d - 8) (pending d) (result d))
        end
      else Ok (Some d)
  end.

(** [for (auto byte : data)]; fewer than 16 bits are ever pending. *)
Fixpoint decode_bytes (data : bytes) (d : decoder) : outcome (option decoder) :=
  match data with
  | [] => Ok (Some d)
  | b :: data' =>
      let d := mk_decoder (node d) (Z.lor (u32 (Z.shiftl (dbuf d) 8)) (b2z b))
                 (u8 (avail d + 8)) (u8 (pending d + 8)) (result d) in
      let! o := decode_bits 17 d in
      match o with None => Ok None | Some d => decode_bytes data' d end
  end.

(** [while (avail > 0)]: decode from the last (fewer than 8) bits. *)
Fixpoint decode_tail (fuel : nat) (d : decoder) : outcome decoder :=
  match fuel with
  | O => Fault Hangs
  | S fuel' =>
      if avail d >? 0 then
        let idx := Z.land (u32 (Z.shiftl (dbuf d) (8 - avail d))) 0xff in
        match child (node d) idx with
        | None => Ok d
        | Some n =>
            if negb (leaf n) || (bits n >? avail d) then Ok d
            else
              let av := u8 (avail d - bits n) in
              decode_tail fuel'
                (mk_decoder getRoot (dbuf d) av av (result d ++ [z2b (symbol n)]))
        end
      else Ok d
  end.

(** The padding test: at most 7 bits, all ones. *)
Definition check_padding (d : decoder) : HuffmanResult :=
  if pending d >? 7 then INVALID_CODE
  else
    let mask := Z.shiftl 1 (avail d) - 1 in
    if negb (Z.land (dbuf d) mask =? mask) then INVALID_CODE else HUFF_OK.

(** The result code and the decoded string (only meaningful on success). *)
Definition decode (data : bytes) : outcome (HuffmanResult * bytes) :=
  let! o := decode_bytes data (mk_decoder getRoot 0 0 0 []) in
  match o with
  | None => Ok (INVALID_CODE, [])
  | Some d =>
      let! d := decode_tail 17 d in
      Ok (check_padding d, result d)
  end.
