(* ===== verification/HuffmanFacts.v ===== *)
(** * Facts about the Huffman codec

    Bit-level reference: the encoding of a string is the concatenation of its
    code words, padded with ones.  The shift registers of the encoder and of
    the decoder implement it; the decoding tree is checked once, by
    computation, against the code table. *)

From S2P Require Import Prelude Outcome ByteBuffer Huffman.

#[global] Arguments getRoot : simpl never.
#[global] Opaque getRoot.

(** ** The reference: strings as bits *)

Definition code_bits (c : byte) : list bool := to_bits (Z.to_nat (length_of c)) (code_of c).
Definition string_bits (s : bytes) : list bool := concat (map code_bits s).

Lemma string_bits_snoc s c : string_bits (s ++ [c]) = string_bits s ++ code_bits c.
Proof. unfold string_bits. rewrite map_app, concat_app. cbn. by rewrite app_nil_r. Qed.

Definition all_bytes : bytes := map (fun n => z2b (Z.of_nat n)) (seq 0 256).
Definition all_idx : list Z := map Z.of_nat (seq 0 256).

Lemma all_bytes_in c : In c all_bytes.
Proof.
  pose proof (b2z_range c). rewrite <- (z2b_b2z c), <- (Z2Nat.id (b2z c)) by lia.
  apply (in_map (fun n => z2b (Z.of_nat n))), in_seq. lia.
Qed.

Lemma all_idx_in i : 0 <= i < 256 -> In i all_idx.
Proof. intros. rewrite <- (Z2Nat.id i) by lia. apply in_map, in_seq. lia. Qed.

(** ** Checks by computation *)

(** Every leaf below [n], reached by the [plen] bits of [pv], carries a symbol
    with the right code word. *)
Fixpoint check_node (depth : nat) (pv plen : Z) (n : Node) : bool :=
  match depth with
  | O => false
  | S depth' =>
      negb (leaf n) &&
      forallb (fun idx =>
        match child n idx with
        | None => true
        | Some c =>
            if leaf c then
              let top := Z.shiftr idx (8 - bits c) in
              (0 <? bits c) && (bits c <=? 8) && (0 <=? top) && (top <? 2 ^ bits c)
              && (length_of (z2b (symbol c)) =? plen + bits c)
              && (code_of (z2b (symbol c)) =? Z.lor (Z.shiftl pv (bits c)) top)
            else check_node depth' (Z.lor (Z.shiftl pv 8) idx) (plen + 8) c
        end) all_idx
  end.

(** The last [rem] bits of the code of [c] lead from [n] to its leaf. *)
Fixpoint path_ok (depth : nat) (n : Node) (c : byte) (rem : Z) : bool :=
  match depth with
  | O => false
  | S depth' =>
      if rem >? 8 then
        match child n (u8 (Z.shiftr (code_of c) (rem - 8))) with
        | Some n' => negb (leaf n') && path_ok depth' n' c (rem - 8)
        | None => false
        end
      else
        (0 <? rem) &&
        forallb (fun idx =>
          if Z.shiftr idx (8 - rem) =? code_of c mod 2 ^ rem then
            match child n idx with
            | Some n' =>
                leaf n' && (bits n' =? rem) && bool_decide (z2b (symbol n') = c)
            | None => false
            end
          else true) all_idx
  end.

(** Fewer than eight ones are no code word. *)
Definition pad_ok (k : Z) : bool :=
  match child getRoot (Z.land (u32 (Z.shiftl (2 ^ k - 1) (8 - k))) 0xff) with
  | Some n => negb (leaf n) || (bits n >? k)
  | None => true
  end.

Definition code_ok (c : byte) : bool :=
  (0 <? length_of c) && (length_of c <=? 30) && path_ok 4 getRoot c (length_of c)
  && (0 <=? code_of c) && (code_of c <? 2 ^ length_of c).

Lemma tree_checked :
  check_node 4 0 0 getRoot = true /\ forallb code_ok all_bytes = true
  /\ forallb pad_ok [1; 2; 3; 4; 5; 6; 7] = true.
Proof. vm_compute. done. Qed.

Lemma code_checked c : code_ok c = true.
Proof.
  destruct tree_checked as (_ & H & _). rewrite forallb_forall in H. apply H, all_bytes_in.
Qed.

Lemma code_range c : 0 < length_of c <= 30 /\ 0 <= code_of c < 2 ^ length_of c.
Proof. pose proof (code_checked c) as H. unfold code_ok in H. bool_to_prop. lia. Qed.

Lemma code_path c : path_ok 4 getRoot c (length_of c) = true.
Proof. pose proof (code_checked c) as H. unfold code_ok in H. by bool_to_prop. Qed.

(** ** Shift registers *)

(** Shifting [m] bits into a register of [w] bits. *)
Lemma to_bits_register n m w v c :
  0 <= c < 2 ^ Z.of_nat m -> Z.of_nat (n + m) <= w ->
  to_bits (n + m) (Z.lor (Z.shiftl v (Z.of_nat m) mod 2 ^ w) c) = to_bits n v ++ to_bits m c.
Proof.
  intros Hc Hw. rewrite <- to_bits_shift_in by done. apply to_bits_ext. intros i Hi.
  rewrite !Z.lor_spec, Z.mod_pow2_bits_low by lia. done.
Qed.

(** The window of eight bits the decoder looks at, in both of its loops. *)
Definition window (v n : Z) : Z :=
  if n >=? 8 then Z.land (Z.shiftr v (n - 8)) 0xff
  else Z.land (u32 (Z.shiftl v (8 - n))) 0xff.

Lemma window_range v n : 0 <= window v n < 256.
Proof.
  unfold window. change 0xff with (Z.ones 8).
  case_if; rewrite Z.land_ones by lia; apply Z.mod_pos_bound; lia.
Qed.

Lemma window_top v (n b : nat) :
  (b <= n)%nat -> (b <= 8)%nat ->
  to_bits b (Z.shiftr (window v (Z.of_nat n)) (8 - Z.of_nat b))
  = to_bits b (Z.shiftr v (Z.of_nat n - Z.of_nat b)).
Proof.
  intros Hn Hb. apply to_bits_ext. intros i Hi. rewrite !Z.shiftr_spec by lia.
  unfold window. change 0xff with (Z.ones 8). case_if; bool_to_prop.
  - rewrite Z.land_spec, Z.ones_spec_low, andb_true_r, Z.shiftr_spec by lia. f_equal. lia.
  - unfold u32. rewrite Z.land_spec, Z.ones_spec_low, andb_true_r by lia.
    rewrite Z.mod_pow2_bits_low, Z.shiftl_spec by lia. f_equal. lia.
Qed.

Lemma to_bits_top v (n b : nat) :
  (b <= n)%nat -> (b <= 8)%nat ->
  to_bits n v = to_bits b (Z.shiftr (window v (Z.of_nat n)) (8 - Z.of_nat b))
                ++ to_bits (n - b) v.
Proof.
  intros. rewrite window_top by done. replace n with (b + (n - b))%nat at 1 by lia.
  rewrite to_bits_split. do 3 f_equal. lia.
Qed.

(** ** Soundness of the decoder *)

(** The bits [B] shifted in so far are those of the symbols decoded, of the
    path from the root to the current node, and the pending ones. *)
Definition holds (B : list bool) (d : decoder) : Prop :=
  exists depth pv plen,
    check_node depth pv plen (node d) = true /\
    0 <= plen /\ plen + 8 * Z.of_nat depth = 32 /\
    0 <= avail d < 32 /\ pending d = plen + avail d /\
    B = string_bits (result d) ++ to_bits (Z.to_nat plen) pv
        ++ to_bits (Z.to_nat (avail d)) (dbuf d).

Lemma holds_avail B d : holds B d -> 0 <= avail d < 32.
Proof. intros (depth & pv & plen & Hn & Hp & Hd & Ha & _). exact Ha. Qed.

Lemma check_child depth pv plen n idx c :
  check_node depth pv plen n = true -> 0 <= idx < 256 -> child n idx = Some c ->
  exists depth', depth = S depth' /\
    if leaf c then
      let top := Z.shiftr idx (8 - bits c) in
      0 < bits c <= 8 /\ 0 <= top < 2 ^ bits c /\
      length_of (z2b (symbol c)) = plen + bits c /\
      code_of (z2b (symbol c)) = Z.lor (Z.shiftl pv (bits c)) top
    else check_node depth' (Z.lor (Z.shiftl pv 8) idx) (plen + 8) c = true.
Proof.
  destruct depth as [|depth]; [done|]. cbn [check_node]. intros H Hi Hc.
  exists depth. split; [done|]. apply andb_true_iff in H as [_ H].
  rewrite forallb_forall in H. specialize (H idx (all_idx_in idx Hi)). rewrite Hc in H.
  destruct (leaf c); [|done]. bool_to_prop. cbv zeta. repeat split; try lia; done.
Qed.

(** Both loops make the same move when they reach a leaf. *)
Lemma holds_leaf B d c :
  holds B d -> child (node d) (window (dbuf d) (avail d)) = Some c -> leaf c = true ->
  bits c <= avail d ->
  0 < bits c /\ u8 (avail d - bits c) = avail d - bits c /\
  holds B (mk_decoder getRoot (dbuf d) (avail d - bits c) (avail d - bits c)
             (result d ++ [z2b (symbol c)])).
Proof.
  intros (depth & pv & plen & Hn & Hp & Hd & Ha & Hpend & ->) Hc Hl Hb.
  destruct (check_child _ _ _ _ _ _ Hn (window_range _ _) Hc) as (depth' & -> & Hleaf).
  rewrite Hl in Hleaf. cbv zeta in Hleaf. destruct Hleaf as (Hbits & Htop & Hlen & Hcode).
  split_and!; [lia | apply u8_small; lia |].
  exists 4%nat, 0, 0. destruct tree_checked as (Hroot & _). cbn [node avail pending dbuf result].
  split_and!; [exact Hroot | lia.. | ].
  rewrite string_bits_snoc, <- app_assoc. f_equal.
  change (to_bits (Z.to_nat 0) 0) with (@nil bool). cbn [app]. unfold code_bits. rewrite Hcode, Hlen.
  replace (Z.to_nat (plen + bits c)) with (Z.to_nat plen + Z.to_nat (bits c))%nat by lia.
  replace (Z.shiftl pv (bits c)) with (Z.shiftl pv (Z.of_nat (Z.to_nat (bits c)))) by (f_equal; lia).
  rewrite to_bits_shift_in by (rewrite Z2Nat.id; lia). rewrite <- app_assoc. f_equal.
  rewrite (to_bits_top _ (Z.to_nat (avail d)) (Z.to_nat (bits c))) by lia.
  rewrite !Z2Nat.id by lia. do 2 f_equal. lia.
Qed.

Lemma decode_bits_sound fuel d B :
  holds B d -> avail d <= 15 -> avail d < Z.of_nat fuel ->
  exists o, decode_bits fuel d = Ok o /\
    forall d', o = Some d' -> holds B d' /\ avail d' < 8.
Proof.
  revert d. induction fuel as [|fuel IH]; intros d Hd Ha Hf; [apply holds_avail in Hd; lia|].
  cbn [decode_bits]. rewrite Z.geb_leb. destruct (Z.leb_spec 8 (avail d)) as [H8|H8].
  2:{ exists (Some d). split; [done|]. intros d' [= <-]. done. }
  assert (Hw : Z.land (Z.shiftr (dbuf d) (avail d - 8)) 0xff = window (dbuf d) (avail d)).
  { unfold window. rewrite Z.geb_leb. destruct (Z.leb_spec 8 (avail d)); [done|lia]. }
  rewrite Hw. destruct (child _ _) as [c|] eqn:Hc; [|by exists None].
  pose proof Hd as (depth & pv & plen & Hn & Hp & Hdep & Hav & Hpend & HB).
  destruct (check_child _ _ _ _ _ _ Hn (window_range _ _) Hc) as (depth' & -> & Hchild).
  destruct (leaf c) eqn:Hl.
  - destruct Hchild as (Hbits & _).
    destruct (holds_leaf B d c Hd Hc Hl) as (Hb0 & -> & Hd'); [lia|].
    apply IH; [done|cbn [avail]; lia..].
  - apply IH; cbn [avail]; [|lia..].
    exists depth', (Z.lor (Z.shiftl pv 8) (window (dbuf d) (avail d))), (plen + 8).
    cbn [node avail pending dbuf result]. split; [exact Hchild|]. split_and!; try lia.
    rewrite HB. f_equal.
    replace (Z.to_nat (plen + 8)) with (Z.to_nat plen + 8)%nat by lia.
    pose proof (window_range (dbuf d) (avail d)).
    pose proof (to_bits_shift_in (Z.to_nat plen) 8 pv (window (dbuf d) (avail d))) as Hs.
    change (Z.of_nat 8) with 8 in Hs. rewrite Hs by lia.
    rewrite <- app_assoc. f_equal.
    rewrite (to_bits_top _ (Z.to_nat (avail d)) 8) by lia.
    rewrite Z2Nat.id, Z.shiftr_0_r by lia. do 2 f_equal. lia.
Qed.

(** Shifting a byte in. *)
Definition shift_byte (b : byte) (d : decoder) : decoder :=
  mk_decoder (node d) (Z.lor (u32 (Z.shiftl (dbuf d) 8)) (b2z b))
    (u8 (avail d + 8)) (u8 (pending d + 8)) (result d).

Lemma shift_byte_bits b d :
  0 <= avail d <= 24 ->
  to_bits (Z.to_nat (avail d + 8)) (dbuf (shift_byte b d))
  = to_bits (Z.to_nat (avail d)) (dbuf d) ++ byte_bits b.
Proof.
  intros Ha. replace (Z.to_nat (avail d + 8)) with (Z.to_nat (avail d) + 8)%nat by lia.
  pose proof (b2z_range b).
  apply (to_bits_register (Z.to_nat (avail d)) 8 32); [done|lia].
Qed.

Lemma holds_depth B d : holds B d -> pending d <= 24 + avail d.
Proof. intros (depth & pv & plen & Hn & ?). destruct depth; [done|lia]. Qed.

Lemma holds_byte B b d :
  holds B d -> avail d < 8 -> holds (B ++ byte_bits b) (shift_byte b d) /\ avail (shift_byte b d) = avail d + 8.
Proof.
  intros Hd Ha. pose proof (holds_depth _ _ Hd).
  pose proof Hd as (depth & pv & plen & Hn & Hp & Hdep & Hav & Hpend & ->).
  assert (avail (shift_byte b d) = avail d + 8) as Hsa by (apply u8_small; lia).
  split; [|done]. exists depth, pv, plen. rewrite Hsa, shift_byte_bits by lia.
  cbn [node pending result shift_byte]. rewrite u8_small by lia.
  split; [exact Hn|]. split_and!; try lia. by rewrite <- !app_assoc.
Qed.

Lemma decode_bytes_sound data d B :
  holds B d -> avail d < 8 ->
  exists o, decode_bytes data d = Ok o /\
    forall d', o = Some d' -> holds (B ++ bytes_bits data) d' /\ avail d' < 8.
Proof.
  revert d B. induction data as [|b data IH]; intros d B Hd Ha; cbn [decode_bytes].
  - exists (Some d). split; [done|]. intros d' [= <-]. by rewrite app_nil_r.
  - fold (shift_byte b d). destruct (holds_byte B b d Hd Ha) as [Hb Hav].
    destruct (decode_bits_sound 17 (shift_byte b d) _ Hb) as (o & -> & Ho); [lia..|].
    cbn [obind]. destruct o as [d'|]; [|by exists None].
    destruct (Ho d' eq_refl) as [Hd' Ha'].
    destruct (IH d' _ Hd' Ha') as (o & -> & Ho'). exists o. split; [done|].
    rewrite bytes_bits_cons, app_assoc. done.
Qed.

Lemma decode_tail_sound fuel d B :
  holds B d -> avail d < 8 -> avail d < Z.of_nat fuel ->
  exists d', decode_tail fuel d = Ok d' /\ holds B d' /\ avail d' < 8.
Proof.
  revert d. induction fuel as [|fuel IH]; intros d Hd Ha Hf; [apply holds_avail in Hd; lia|].
  cbn [decode_tail]. rewrite !Z.gtb_ltb. destruct (Z.ltb_spec 0 (avail d)) as [H0|H0]; [|by exists d].
  assert (Hw : Z.land (u32 (Z.shiftl (dbuf d) (8 - avail d))) 0xff = window (dbuf d) (avail d)).
  { unfold window. rewrite Z.geb_leb. destruct (Z.leb_spec 8 (avail d)); [lia|done]. }
  rewrite Hw. destruct (child _ _) as [c|] eqn:Hc; [|by exists d].
  destruct (leaf c) eqn:Hl; cbn [negb orb]; [|by exists d].
  rewrite Z.gtb_ltb. destruct (Z.ltb_spec (avail d) (bits c)) as [|Hb]; [by exists d|].
  destruct (holds_leaf B d c Hd Hc Hl Hb) as (Hb0 & -> & Hd').
  apply IH; [done|cbn [avail]; lia..].
Qed.

(** The padding test. *)
Lemma check_padding_ones d :
  0 <= avail d < 8 -> Z.land (dbuf d) (Z.shiftl 1 (avail d) - 1) = Z.shiftl 1 (avail d) - 1 ->
  to_bits (Z.to_nat (avail d)) (dbuf d) = replicate (Z.to_nat (avail d)) true.
Proof.
  intros Ha Hm. rewrite <- to_bits_ones. rewrite Z2Nat.id by lia.
  rewrite Z.shiftl_mul_pow2, Z.mul_1_l in Hm by lia. apply to_bits_ext. intros i Hi.
  rewrite Z.sub_1_r, <- Z.ones_equiv in *. rewrite Z.land_ones in Hm by lia.
  rewrite <- Hm at 1. rewrite Z.mod_pow2_bits_low; [done|lia].
Qed.

Lemma holds_init : holds [] (mk_decoder getRoot 0 0 0 []).
Proof. exists 4%nat, 0, 0. destruct tree_checked as (H & _). split; [exact H|]. split_and!; done. Qed.

(** The decoder always returns; what it accepts is the encoding of its result. *)
Lemma decode_sound data :
  exists r s, decode data = Ok (r, s) /\
    (r = HUFF_OK -> exists k, (k < 8)%nat /\ bytes_bits data = string_bits s ++ replicate k true).
Proof.
  unfold decode.
  destruct (decode_bytes_sound data _ _ holds_init) as (o & -> & Ho); [done|].
  cbn [obind]. destruct o as [d|]; [|by exists INVALID_CODE, []].
  destruct (Ho d eq_refl) as [Hd Ha]. cbn [app] in Hd.
  destruct (decode_tail_sound 17 d _ Hd Ha) as (d' & -> & Hd' & Ha'); [lia|].
  cbn [obind]. exists (check_padding d'), (result d'). split; [done|]. unfold check_padding.
  destruct (pending d' >? 7) eqn:Hp; [done|]. rewrite Z.gtb_ltb, Z.ltb_ge in Hp.
  destruct Hd' as (depth & pv & plen & Hn & Hplen & Hdep & Hav & Hpend & ->).
  destruct (Z.eqb_spec (Z.land (dbuf d') (Z.shiftl 1 (avail d') - 1)) (Z.shiftl 1 (avail d') - 1))
    as [Hm|]; cbn [negb]; [|done]. intros _.
  assert (plen = 0) as -> by (destruct depth; [discriminate Hn|lia]).
  exists (Z.to_nat (avail d')). split; [lia|]. f_equal.
  apply check_padding_ones; [lia|done].
Qed.

(** ** The encoder *)

(** Flushed bytes and pending bits are the bits of the input so far. *)
Definition emits (B : list bool) (e : encoder) : Prop :=
  0 <= nbits e /\ B = bytes_bits (out e) ++ to_bits (Z.to_nat (nbits e)) (ebuf e).

Lemma encode_char_emits B e c :
  emits B e -> nbits e < 32 -> emits (B ++ code_bits c) (encode_char e c) /\ nbits (encode_char e c) < 32.
Proof.
  intros [Hn ->] Hlt. destruct (code_range c) as [Hl Hc]. unfold encode_char.
  set (n := Z.to_nat (nbits e)). set (m := Z.to_nat (length_of c)).
  set (buf := Z.lor (u64 (Z.shiftl (ebuf e) (length_of c))) (code_of c)).
  assert (Hbuf : to_bits (n + m) buf = to_bits n (ebuf e) ++ code_bits c).
  { unfold code_bits, buf, u64. fold m. replace (length_of c) with (Z.of_nat m) by lia.
    apply to_bits_register; [|lia]. replace (Z.of_nat m) with (length_of c) by lia. lia. }
  rewrite u8_small by lia. rewrite Z.geb_leb. rewrite <- app_assoc, <- Hbuf.
  destruct (Z.leb_spec 32 (nbits e + length_of c)).
  - split; [|cbn [nbits]; lia]. split; cbn [nbits out ebuf]; [lia|].
    rewrite bytes_bits_app, bytes_bits_be_write, <- app_assoc. f_equal.
    unfold u32. rewrite to_bits_mod by lia.
    replace (n + m)%nat with (8 * 4 + Z.to_nat (nbits e + length_of c - 32))%nat by lia.
    rewrite to_bits_split. do 2 f_equal. f_equal. lia.
  - split; [|cbn [nbits]; lia]. split; cbn [nbits out ebuf]; [lia|].
    do 2 f_equal. lia.
Qed.

Lemma encode_chars_emits s B e :
  emits B e -> nbits e < 32 ->
  let e' := fold_left encode_char s e in emits (B ++ string_bits s) e' /\ nbits e' < 32.
Proof.
  revert B e. induction s as [|c s IH]; intros B e He Hn; cbn [fold_left].
  - by rewrite app_nil_r.
  - destruct (encode_char_emits B e c He Hn) as [He' Hn'].
    destruct (IH _ _ He' Hn') as [He2 Hn2]. rewrite <- app_assoc in He2. done.
Qed.

Lemma pad_bits_emits B e :
  emits B e -> nbits e < 32 ->
  exists k, (k < 8)%nat /\ emits (B ++ replicate k true) (pad_bits e)
            /\ nbits (pad_bits e) <= 32 /\ nbits (pad_bits e) mod 8 = 0.
Proof.
  intros [Hn ->] Hlt. unfold pad_bits.
  pose proof (Z.mod_pos_bound (nbits e) 8 ltac:(lia)) as Hm.
  rewrite Z.gtb_ltb. destruct (Z.ltb_spec 0 (nbits e mod 8)).
  - set (pad := 8 - nbits e mod 8). exists (Z.to_nat pad). split_and!; [lia| |cbn [nbits]..].
    + split; cbn [nbits out ebuf]; [lia|]. rewrite <- app_assoc. f_equal.
      replace (Z.to_nat (nbits e + pad)) with (Z.to_nat (nbits e) + Z.to_nat pad)%nat by lia.
      assert (exists p, pad = Z.of_nat p) as [p Hp] by (exists (Z.to_nat pad); lia).
      rewrite Hp, Nat2Z.id, <- to_bits_ones, (Z.shiftl_mul_pow2 1), Z.mul_1_l by lia.
      symmetry. apply to_bits_register; [|lia].
      pose proof (Z.pow_pos_nonneg 2 (Z.of_nat p)). lia.
    + unfold pad. pose proof (Z.div_mod (nbits e) 8). lia.
    + unfold pad. pose proof (Z.div_mod (nbits e) 8).
      replace (nbits e + (8 - nbits e mod 8)) with ((nbits e / 8 + 1) * 8) by lia.
      apply Z.mod_mul. lia.
  - exists 0%nat. rewrite app_nil_r. split_and!; [lia|done|lia|lia].
Qed.

Lemma flush_bytes_emits fuel B e :
  emits B e -> nbits e mod 8 = 0 -> nbits e < 8 * Z.of_nat fuel ->
  exists e', flush_bytes fuel e = Ok e' /\ bytes_bits (out e') = B.
Proof.
  revert e. induction fuel as [|fuel IH]; intros e He Hm Hf; [destruct He; lia|].
  cbn [flush_bytes]. pose proof He as [Hn HB]. rewrite Z.geb_leb.
  destruct (Z.leb_spec 8 (nbits e)).
  - apply IH; cbn [nbits]; [|rewrite <- Hm, <- (Z.mod_add (nbits e - 8) 1 8) by lia; f_equal; lia|lia].
    split; cbn [nbits out ebuf]; [lia|]. rewrite HB, bytes_bits_app, <- app_assoc. f_equal.
    rewrite bytes_bits_cons, byte_bits_z2b. cbn [bytes_bits map concat]. rewrite app_nil_r.
    replace (Z.to_nat (nbits e)) with (8 + Z.to_nat (nbits e - 8))%nat by lia.
    rewrite to_bits_split. do 2 f_equal. f_equal. lia.
  - exists e. split; [done|]. rewrite Z.mod_small in Hm by lia. rewrite HB, Hm.
    by rewrite app_nil_r.
Qed.

Lemma encode_emits s :
  exists d k, encode s = Ok d /\ (k < 8)%nat /\ bytes_bits d = string_bits s ++ replicate k true.
Proof.
  unfold encode. set (e0 := mk_encoder [] 0 0).
  assert (He0 : emits [] e0) by (split; done).
  destruct (encode_chars_emits s [] e0 He0) as [He Hn]; [done|]. cbn [app] in He.
  destruct (pad_bits_emits _ _ He Hn) as (k & Hk & Hp & Hle & Hmod).
  destruct (flush_bytes_emits 5 _ _ Hp Hmod) as (e' & -> & Hout); [lia|].
  cbn [obind]. eauto 6.
Qed.

(** Padding makes the bit string determine the bytes. *)
Lemma padded_unique s d1 d2 k1 k2 :
  (k1 < 8)%nat -> (k2 < 8)%nat ->
  bytes_bits d1 = string_bits s ++ replicate k1 true ->
  bytes_bits d2 = string_bits s ++ replicate k2 true -> d1 = d2.
Proof.
  intros H1 H2 E1 E2. assert (k1 = k2) as ->.
  { apply (f_equal length) in E1, E2.
    rewrite length_bytes_bits, length_app, length_replicate in E1, E2. lia. }
  apply bytes_bits_inj. congruence.
Qed.

Lemma length_string_bits s :
  Z.of_nat (length (string_bits s)) = fold_left (fun total c => total + length_of c) s 0.
Proof.
  rewrite <- (Z.add_0_l (Z.of_nat _)). generalize 0 as acc.
  induction s as [|c s IH]; intros acc; cbn [fold_left]; [cbn; lia|].
  rewrite <- IH. unfold string_bits, code_bits. cbn [map concat].
  rewrite length_app, length_to_bits. destruct (code_range c). lia.
Qed.

Lemma encodedLength_encode s d : encode s = Ok d -> encodedLength s = zlen d.
Proof.
  intros Hd. destruct (encode_emits s) as (d' & k & Hd' & Hk & Hb).
  assert (d' = d) as -> by congruence. unfold encodedLength. rewrite <- length_string_bits.
  apply (f_equal length) in Hb. rewrite length_bytes_bits, length_app, length_replicate in Hb.
  unfold zlen. symmetry. apply (Z.div_unique_pos _ _ _ (7 - Z.of_nat k)); lia.
Qed.

(** ** Completeness of the decoder *)

(** What a node expects of the unread bits [u] when the symbols [s] and then
    [k] ones are still to come: the rest of the first code word, or only the
    padding. *)
Inductive expects (k : nat) : Node -> Z -> bytes -> list bool -> Prop :=
| expects_code depth n c rem s u :
    path_ok depth n c rem = true -> 0 < rem <= length_of c ->
    u = to_bits (Z.to_nat rem) (code_of c) ++ string_bits s ++ replicate k true ->
    expects k n (length_of c - rem) (c :: s) u
| expects_pad u : u = replicate k true -> expects k getRoot 0 [] u.

Lemma expects_root k s : expects k getRoot 0 s (string_bits s ++ replicate k true).
Proof.
  destruct s as [|c s]; [by constructor|]. destruct (code_range c).
  rewrite <- (Z.sub_diag (length_of c)). eapply expects_code; [apply code_path|lia|].
  unfold string_bits, code_bits. cbn [map concat]. by rewrite <- app_assoc.
Qed.

(** The decoder on its way to [total], with [rest] not yet shifted in. *)
Definition awaits (k : nat) (total : bytes) (rest : list bool) (d : decoder) : Prop :=
  0 <= avail d < 32 /\ 0 <= pending d - avail d <= 30 /\
  exists s, total = result d ++ s /\
    expects k (node d) (pending d - avail d) s (to_bits (Z.to_nat (avail d)) (dbuf d) ++ rest).

Lemma path_ok_leaf depth n c rem idx :
  path_ok depth n c rem = true -> rem <= 8 -> 0 <= idx < 256 ->
  to_bits (Z.to_nat rem) (Z.shiftr idx (8 - rem)) = to_bits (Z.to_nat rem) (code_of c) ->
  exists n', child n idx = Some n' /\ leaf n' = true /\ bits n' = rem /\ z2b (symbol n') = c.
Proof.
  destruct depth as [|depth]; [done|]. cbn [path_ok]. intros Hp Hr Hi Hb.
  rewrite Z.gtb_ltb in Hp. destruct (Z.ltb_spec 8 rem); [lia|].
  apply andb_true_iff in Hp as [Hr0 Hp]. apply Z.ltb_lt in Hr0.
  rewrite forallb_forall in Hp. specialize (Hp idx (all_idx_in idx Hi)).
  assert (Heq : Z.shiftr idx (8 - rem) = code_of c mod 2 ^ rem).
  { apply (to_bits_small_inj (Z.to_nat rem)); rewrite ?Z2Nat.id by lia.
    - rewrite Z.shiftr_div_pow2 by lia. split; [apply Z.div_pos; lia|].
      apply Z.div_lt_upper_bound; [lia|]. rewrite <- Z.pow_add_r by lia.
      replace (8 - rem + rem) with 8 by lia. lia.
    - apply Z.mod_pos_bound. lia.
    - rewrite Hb. symmetry. apply to_bits_mod. lia. }
  apply Z.eqb_eq in Heq. rewrite Heq in Hp. destruct (child n idx) as [n'|]; [|done].
  apply andb_true_iff in Hp as [Hp Hs]. apply bool_decide_eq_true in Hs. bool_to_prop. eauto.
Qed.

(** Reading a code word that ends in the window. *)
Lemma awaits_leaf k total rest d depth c rem s :
  0 <= avail d < 32 -> path_ok depth (node d) c rem = true -> 0 < rem <= 8 -> rem <= avail d ->
  total = result d ++ c :: s ->
  to_bits (Z.to_nat (avail d)) (dbuf d) ++ rest
    = to_bits (Z.to_nat rem) (code_of c) ++ string_bits s ++ replicate k true ->
  exists n', child (node d) (window (dbuf d) (avail d)) = Some n' /\ leaf n' = true
    /\ bits n' = rem /\ u8 (avail d - rem) = avail d - rem
    /\ awaits k total rest (mk_decoder getRoot (dbuf d) (avail d - rem) (avail d - rem)
                              (result d ++ [z2b (symbol n')])).
Proof.
  intros Ha Hp Hr Hra Ht Hu.
  rewrite (to_bits_top _ (Z.to_nat (avail d)) (Z.to_nat rem)), !Z2Nat.id, <- app_assoc in Hu by lia.
  apply app_inj_1 in Hu as [Hu1 Hu2]; [|by rewrite !length_to_bits].
  destruct (path_ok_leaf _ _ _ _ _ Hp ltac:(lia) (window_range _ _) Hu1) as (n' & Hc & Hl & Hb & Hs).
  exists n'. split_and!; [done..|apply u8_small; lia|].
  split_and!; cbn [avail pending]; [lia..|]. exists s. cbn [node result dbuf avail].
  split; [by rewrite Hs, <- app_assoc|]. rewrite Z.sub_diag.
  replace (Z.to_nat (avail d - rem)) with (Z.to_nat (avail d) - Z.to_nat rem)%nat by lia.
  rewrite Hu2. apply expects_root.
Qed.

Lemma decode_bits_complete k fuel total rest d :
  (k < 8)%nat -> awaits k total rest d -> avail d <= 15 -> avail d < Z.of_nat fuel ->
  exists d', decode_bits fuel d = Ok (Some d') /\ awaits k total rest d' /\ avail d' < 8.
Proof.
  intros Hk. revert d. induction fuel as [|fuel IH]; intros d Hd Ha Hf; [destruct Hd; lia|].
  cbn [decode_bits]. rewrite Z.geb_leb. destruct (Z.leb_spec 8 (avail d)) as [H8|H8]; [|by exists d].
  assert (Hw : Z.land (Z.shiftr (dbuf d) (avail d - 8)) 0xff = window (dbuf d) (avail d)).
  { unfold window. rewrite Z.geb_leb. destruct (Z.leb_spec 8 (avail d)); [done|lia]. }
  rewrite Hw. clear Hw. destruct Hd as (Hav & Hpl & s & Ht & He).
  inversion He as [depth n c rem s' u Hp Hr Hu Hn Hplen Hs Hu'|u Hu Hn Hplen Hs Hu']; subst s; clear He.
  2:{ apply (f_equal length) in Hu.
      rewrite length_app, length_to_bits, length_replicate in Hu. lia. }
  destruct (Z.leb_spec rem 8) as [Hle|Hgt].
  - destruct (awaits_leaf k total rest d depth c rem s') as (n' & -> & -> & -> & -> & Hd'); [done||lia..|].
    apply IH; [done|cbn [avail]; lia..].
  - destruct depth as [|depth]; [done|]. cbn [path_ok] in Hp. rewrite Z.gtb_ltb in Hp.
    destruct (Z.ltb_spec 8 rem); [|lia].
    rewrite (to_bits_top _ (Z.to_nat (avail d)) 8), !Z2Nat.id, Z.shiftr_0_r in Hu by lia.
    replace (Z.to_nat rem) with (8 + Z.to_nat (rem - 8))%nat in Hu by lia.
    rewrite to_bits_split, <- !app_assoc in Hu.
    apply app_inj_1 in Hu as [Hu1 Hu2]; [|by rewrite !length_to_bits].
    assert (Hwin : window (dbuf d) (avail d) = u8 (Z.shiftr (code_of c) (rem - 8))).
    { apply (to_bits_small_inj 8); [apply window_range | apply u8_range |].
      rewrite Hu1. unfold u8. rewrite to_bits_mod by lia. do 2 f_equal. lia. }
    rewrite Hwin. destruct (child _ _) as [n'|]; [|done].
    apply andb_true_iff in Hp as [Hl Hp]. apply negb_true_iff in Hl. rewrite Hl.
    destruct (code_range c).
    apply IH; cbn [avail]; [|lia..]. split_and!; cbn [avail pending]; [lia..|].
    exists (c :: s'). split; [done|]. cbn [node dbuf avail].
    replace (pending d - (avail d - 8)) with (length_of c - (rem - 8)) by lia.
    eapply expects_code; [exact Hp|lia|]. rewrite <- Hu2. f_equal. f_equal. lia.
Qed.

Lemma decode_bytes_complete k total data d :
  (k < 8)%nat -> awaits k total (bytes_bits data) d -> avail d < 8 ->
  exists d', decode_bytes data d = Ok (Some d') /\ awaits k total [] d' /\ avail d' < 8.
Proof.
  intros Hk. revert d. induction data as [|b data IH]; intros d Hd Ha; cbn [decode_bytes]; [by exists d|].
  fold (shift_byte b d). destruct Hd as (Hav & Hpl & s & Ht & He).
  assert (avail (shift_byte b d) = avail d + 8) as Hsa by (apply u8_small; lia).
  assert (pending (shift_byte b d) = pending d + 8) as Hsp by (apply u8_small; lia).
  destruct (decode_bits_complete k 17 total (bytes_bits data) (shift_byte b d)) as (d' & -> & Hd' & Ha');
    [done| |lia..|cbn [obind]; by apply IH].
  split_and!; [lia..|]. exists s. split; [done|].
  rewrite Hsa, Hsp, shift_byte_bits, <- app_assoc by lia. rewrite bytes_bits_cons in He.
  replace (pending d + 8 - (avail d + 8)) with (pending d - avail d) by lia. exact He.
Qed.

Lemma window_low v w n :
  0 < n < 8 -> to_bits (Z.to_nat n) v = to_bits (Z.to_nat n) w -> window v n = window w n.
Proof.
  intros Hn H. unfold window. rewrite Z.geb_leb. destruct (Z.leb_spec 8 n); [lia|].
  change 0xff with (Z.ones 8). apply Z.bits_inj'. intros i Hi.
  rewrite !Z.land_spec. destruct (Z.ltb_spec i 8).
  - rewrite !Z.ones_spec_low, !andb_true_r by lia. unfold u32.
    rewrite !Z.mod_pow2_bits_low by lia. destruct (Z.ltb_spec i (8 - n)).
    + by rewrite !Z.shiftl_spec_low by lia.
    + rewrite !Z.shiftl_spec by lia. apply (to_bits_inj (Z.to_nat n)); [done|lia].
  - by rewrite !Z.ones_spec_high, !andb_false_r by lia.
Qed.

Lemma pad_not_code n :
  0 < n < 8 ->
  match child getRoot (window (2 ^ n - 1) n) with
  | Some c => leaf c = false \/ bits c > n
  | None => True
  end.
Proof.
  intros Hn. destruct tree_checked as (_ & _ & H). rewrite forallb_forall in H.
  assert (Hin : In n [1; 2; 3; 4; 5; 6; 7]) by (cbn; lia).
  specialize (H n Hin). unfold pad_ok in H. unfold window.
  rewrite Z.geb_leb. destruct (Z.leb_spec 8 n); [lia|].
  destruct (child _ _) as [c|]; [|done]. apply orb_true_iff in H as [H|H].
  - left. by apply negb_true_iff.
  - right. rewrite Z.gtb_ltb, Z.ltb_lt in H. lia.
Qed.

Lemma decode_tail_complete k fuel total d :
  (k < 8)%nat -> awaits k total [] d -> avail d < 8 -> avail d < Z.of_nat fuel ->
  exists d', decode_tail fuel d = Ok d' /\ result d' = total /\ avail d' = Z.of_nat k
    /\ pending d' = Z.of_nat k /\ to_bits k (dbuf d') = replicate k true.
Proof.
  intros Hk. revert d. induction fuel as [|fuel IH]; intros d Hd Ha Hf; [destruct Hd; lia|].
  destruct Hd as (Hav & Hpl & s & Ht & He). rewrite app_nil_r in He. cbn [decode_tail].
  rewrite !Z.gtb_ltb.
  assert (Hw : Z.land (u32 (Z.shiftl (dbuf d) (8 - avail d))) 0xff = window (dbuf d) (avail d)).
  { unfold window. rewrite Z.geb_leb. destruct (Z.leb_spec 8 (avail d)); [lia|done]. }
  rewrite Hw. clear Hw.
  inversion He as [depth n c rem s' u Hp Hr Hu Hn Hplen Hs Hu'|u Hu Hn Hplen Hs Hu']; subst s; clear He.
  - pose proof (f_equal length Hu) as Hlen.
    rewrite !length_app, !length_to_bits in Hlen.
    destruct (Z.ltb_spec 0 (avail d)); [|lia].
    destruct (awaits_leaf k total [] d depth c rem s') as (n' & -> & -> & -> & -> & Hd');
      [done||lia..|by rewrite app_nil_r|].
    cbn [negb orb]. rewrite Z.gtb_ltb. destruct (Z.ltb_spec (avail d) rem); [lia|].
    apply IH; [done|cbn [avail]; lia..].
  - rewrite app_nil_r in Ht. pose proof (f_equal length Hu) as Hlen.
    rewrite length_to_bits, length_replicate in Hlen.
    assert (Hd : result d = total /\ avail d = Z.of_nat k /\ pending d = Z.of_nat k
                 /\ to_bits k (dbuf d) = replicate k true).
    { rewrite <- Hlen at 3. split_and!; [done|lia|lia|done]. }
    destruct (Z.ltb_spec 0 (avail d)); [|by exists d].
    rewrite (window_low _ (2 ^ avail d - 1)); [|lia|].
    2:{ rewrite Hu. replace (avail d) with (Z.of_nat k) by lia. rewrite Nat2Z.id.
        symmetry. apply to_bits_ones. }
    pose proof (pad_not_code (avail d) ltac:(lia)) as Hpad. destruct (child _ _) as [c|]; [|by exists d].
    destruct Hpad as [->|Hb]; [by exists d|]. rewrite Z.gtb_ltb.
    destruct (Z.ltb_spec (avail d) (bits c)); [|lia]. rewrite orb_true_r. by exists d.
Qed.

Lemma decode_complete data s k :
  (k < 8)%nat -> bytes_bits data = string_bits s ++ replicate k true ->
  decode data = Ok (HUFF_OK, s).
Proof.
  intros Hk Hb. unfold decode. set (d0 := mk_decoder getRoot 0 0 0 []).
  assert (H0 : awaits k s (bytes_bits data) d0).
  { split_and!; [done..|]. exists s. split; [done|]. rewrite Hb. apply expects_root. }
  destruct (decode_bytes_complete k s data d0 Hk H0) as (d & -> & Hd & Ha); [done|]. cbn [obind].
  destruct (decode_tail_complete k 17 s d Hk Hd Ha) as (d' & -> & <- & Hav & Hp & Hones); [lia|].
  cbn [obind]. do 2 f_equal. unfold check_padding. rewrite Hp, Hav, Z.gtb_ltb.
  destruct (Z.ltb_spec 7 (Z.of_nat k)); [lia|].
  assert (Hm : Z.land (dbuf d') (Z.shiftl 1 (Z.of_nat k) - 1) = Z.shiftl 1 (Z.of_nat k) - 1).
  { rewrite Z.shiftl_mul_pow2, Z.mul_1_l by lia.
    assert (Hr : 0 <= 2 ^ Z.of_nat k - 1 < 2 ^ Z.of_nat k).
    { pose proof (Z.pow_pos_nonneg 2 (Z.of_nat k)). lia. }
    rewrite Z.sub_1_r, <- Z.ones_equiv in *. rewrite Z.land_ones by lia.
    apply (to_bits_small_inj k); [apply Z.mod_pos_bound; lia|done|].
    rewrite to_bits_mod by lia. rewrite Hones, Z.ones_equiv, <- Z.sub_1_r. symmetry. apply to_bits_ones. }
  rewrite Hm, Z.eqb_refl. done.
Qed.

Lemma huffman_roundtrip s : exists d, encode s = Ok d /\ decode d = Ok (HUFF_OK, s).
Proof.
  destruct (encode_emits s) as (d & k & Hd & Hk & Hb). exists d. split; [done|].
  by eapply decode_complete.
Qed.

(** ** Properties *)

(** C20: the Huffman decoder is total and accepts exactly the canonical
    encodings: it never faults and never runs out of fuel, it accepts every
    output of the encoder with the original string, and whatever it accepts
    is, byte for byte (padding included), the encoder's output for the string
    it returns. *)
Theorem huffman_decode_iff_encode data :
  exists r s, decode data = Ok (r, s) /\
    (r = HUFF_OK <-> exists s', encode s' = Ok data) /\
    (r = HUFF_OK -> encode s = Ok data).
Proof.
  destruct (decode_sound data) as (r & s & Hd & Hs). exists r, s. split; [done|].
  assert (Henc : r = HUFF_OK -> encode s = Ok data).
  { intros ->. destruct (Hs eq_refl) as (k & Hk & Hb).
    destruct (encode_emits s) as (d & k' & -> & Hk' & Hb'). f_equal.
    by apply (padded_unique s d data k' k). }
  split; [|done]. split; [eauto|]. intros [s' He].
  destruct (huffman_roundtrip s') as (d & He' & Hd'). congruence.
Qed.

(** [encodedLength] predicts the size of the Huffman encoding, which
    [encodeString] writes before the string. *)
Theorem huffman_encodedLength s :
  exists d, encode s = Ok d /\ encodedLength s = zlen d.
Proof.
  destruct (encode_emits s) as (d & k & Hd & _). exists d. split; [done|].
  by apply encodedLength_encode.
Qed.
