(* ===== verification/HpackTable.v ===== *)
(** * The HPACK header tables

    [include/chttp2/hpack/table.hpp] and [src/hpack/table.cpp]: the static
    table in its three forms, and the dynamic table with the two hash tables
    that index it.  Hash tables are finite maps; the 64-bit counters (entry
    ids, table bytes) are integers that no run can overflow. *)

From S2P Require Import Prelude Outcome Types.

Module HpackTable.

(** ** The static table (RFC 7541 Appendix A) *)

Definition entry (n v : bytes) : HeaderField.t := HeaderField.mk n v false.

Definition STATIC_NAME_LIST : list (bytes * Z) := [
  (bs ":authority", 1); (bs ":method", 2); (bs ":path", 4); (bs ":scheme", 6);
  (bs ":status", 8); (bs "accept-charset", 15); (bs "accept-encoding", 16);
  (bs "accept-language", 17); (bs "accept-ranges", 18); (bs "accept", 19);
  (bs "access-control-allow-origin", 20); (bs "age", 21); (bs "allow", 22);
  (bs "authorization", 23); (bs "cache-control", 24); (bs "content-disposition", 25);
  (bs "content-encoding", 26); (bs "content-language", 27); (bs "content-length", 28);
  (bs "content-location", 29); (bs "content-range", 30); (bs "content-type", 31);
  (bs "cookie", 32); (bs "date", 33); (bs "etag", 34); (bs "expect", 35); (bs "expires", 36);
  (bs "from", 37); (bs "host", 38); (bs "if-match", 39); (bs "if-modified-since", 40);
  (bs "if-none-match", 41); (bs "if-range", 42); (bs "if-unmodified-since", 43);
  (bs "last-modified", 44); (bs "link", 45); (bs "location", 46); (bs "max-forwards", 47);
  (bs "proxy-authenticate", 48); (bs "proxy-authorization", 49); (bs "range", 50);
  (bs "referer", 51); (bs "refresh", 52); (bs "retry-after", 53); (bs "server", 54);
  (bs "set-cookie", 55); (bs "strict-transport-security", 56); (bs "transfer-encoding", 57);
  (bs "user-agent", 58); (bs "vary", 59); (bs "via", 60); (bs "www-authenticate", 61)
].
Definition STATIC_NAME_TABLE : gmap bytes Z := list_to_map STATIC_NAME_LIST.

Definition STATIC_NAME_VALUE_LIST : list (bytes * bytes * Z) := [
  ((bs ":authority", []), 1); ((bs ":method", bs "GET"), 2); ((bs ":method", bs "POST"), 3);
  ((bs ":path", bs "/"), 4); ((bs ":path", bs "/index.html"), 5);
  ((bs ":scheme", bs "http"), 6); ((bs ":scheme", bs "https"), 7);
  ((bs ":status", bs "200"), 8); ((bs ":status", bs "204"), 9);
  ((bs ":status", bs "206"), 10); ((bs ":status", bs "304"), 11);
  ((bs ":status", bs "400"), 12); ((bs ":status", bs "404"), 13);
  ((bs ":status", bs "500"), 14); ((bs "accept-charset", []), 15);
  ((bs "accept-encoding", bs "gzip, deflate"), 16); ((bs "accept-language", []), 17);
  ((bs "accept-ranges", []), 18); ((bs "accept", []), 19);
  ((bs "access-control-allow-origin", []), 20); ((bs "age", []), 21); ((bs "allow", []), 22);
  ((bs "authorization", []), 23); ((bs "cache-control", []), 24);
  ((bs "content-disposition", []), 25); ((bs "content-encoding", []), 26);
  ((bs "content-language", []), 27); ((bs "content-length", []), 28);
  ((bs "content-location", []), 29); ((bs "content-range", []), 30);
  ((bs "content-type", []), 31); ((bs "cookie", []), 32); ((bs "date", []), 33);
  ((bs "etag", []), 34); ((bs "expect", []), 35); ((bs "expires", []), 36);
  ((bs "from", []), 37); ((bs "host", []), 38); ((bs "if-match", []), 39);
  ((bs "if-modified-since", []), 40); ((bs "if-none-match", []), 41);
  ((bs "if-range", []), 42); ((bs "if-unmodified-since", []), 43);
  ((bs "last-modified", []), 44); ((bs "link", []), 45); ((bs "location", []), 46);
  ((bs "max-forwards", []), 47); ((bs "proxy-authenticate", []), 48);
  ((bs "proxy-authorization", []), 49); ((bs "range", []), 50); ((bs "referer", []), 51);
  ((bs "refresh", []), 52); ((bs "retry-after", []), 53); ((bs "server", []), 54);
  ((bs "set-cookie", []), 55); ((bs "strict-transport-security", []), 56);
  ((bs "transfer-encoding", []), 57); ((bs "user-agent", []), 58); ((bs "vary", []), 59);
  ((bs "via", []), 60); ((bs "www-authenticate", []), 61)
].
Definition STATIC_NAME_VALUE_TABLE : gmap (bytes * bytes) Z :=
  list_to_map STATIC_NAME_VALUE_LIST.

Definition STATIC_ENTRY_TABLE : list HeaderField.t := [
  entry (bs ":authority") []; entry (bs ":method") (bs "GET");
  entry (bs ":method") (bs "POST"); entry (bs ":path") (bs "/");
  entry (bs ":path") (bs "/index.html"); entry (bs ":scheme") (bs "http");
  entry (bs ":scheme") (bs "https"); entry (bs ":status") (bs "200");
  entry (bs ":status") (bs "204"); entry (bs ":status") (bs "206");
  entry (bs ":status") (bs "304"); entry (bs ":status") (bs "400");
  entry (bs ":status") (bs "404"); entry (bs ":status") (bs "500");
  entry (bs "accept-charset") []; entry (bs "accept-encoding") (bs "gzip, deflate");
  entry (bs "accept-language") []; entry (bs "accept-ranges") []; entry (bs "accept") [];
  entry (bs "access-control-allow-origin") []; entry (bs "age") []; entry (bs "allow") [];
  entry (bs "authorization") []; entry (bs "cache-control") [];
  entry (bs "content-disposition") []; entry (bs "content-encoding") [];
  entry (bs "content-language") []; entry (bs "content-length") [];
  entry (bs "content-location") []; entry (bs "content-range") [];
  entry (bs "content-type") []; entry (bs "cookie") []; entry (bs "date") [];
  entry (bs "etag") []; entry (bs "expect") []; entry (bs "expires") []; entry (bs "from") [];
  entry (bs "host") []; entry (bs "if-match") []; entry (bs "if-modified-since") [];
  entry (bs "if-none-match") []; entry (bs "if-range") [];
  entry (bs "if-unmodified-since") []; entry (bs "last-modified") []; entry (bs "link") [];
  entry (bs "location") []; entry (bs "max-forwards") []; entry (bs "proxy-authenticate") [];
  entry (bs "proxy-authorization") []; entry (bs "range") []; entry (bs "referer") [];
  entry (bs "refresh") []; entry (bs "retry-after") []; entry (bs "server") [];
  entry (bs "set-cookie") []; entry (bs "strict-transport-security") [];
  entry (bs "transfer-encoding") []; entry (bs "user-agent") []; entry (bs "vary") [];
  entry (bs "via") []; entry (bs "www-authenticate") []
].

(** ** The dynamic table *)

Definition INIT_MAX_TABLE_SIZE : Z := 4096.

Record t := mk {
  nameTable : gmap bytes Z;
  nameValueTable : gmap (bytes * bytes) Z;
  entryTable : list HeaderField.t;      (** oldest first *)
  maxSize : Z;
  nextId : Z;
  dynamicBytes : Z;
}.

Definition init : t := mk ∅ ∅ [] INIT_MAX_TABLE_SIZE 1 0.

Definition dynamicTableCnt (tb : t) : Z := zlen (entryTable tb).
Definition dynamicTableBytes (tb : t) : Z := dynamicBytes tb.
Definition getMaxSize (tb : t) : Z := maxSize tb.

Definition key (h : HeaderField.t) : bytes * bytes :=
  (HeaderField.name h, HeaderField.value h).

(** [None] is the result false (the entry has been evicted). *)
Definition id2Index (id : Z) (tb : t) : option Z :=
  let oldestId := nextId tb - zlen (entryTable tb) in
  if id <? oldestId then None
  else Some (zlen STATIC_ENTRY_TABLE + (nextId tb - id)).

(** A lookup in one of the dynamic hash tables, converted to an index. *)
Definition lookup_id (o : option Z) (tb : t) : option Z :=
  match o with Some id => id2Index id tb | None => None end.

(** Steps 3 and 4: the name alone; 0 when there is none. *)
Definition find_name (h : HeaderField.t) (tb : t) : bool * Z :=
  match STATIC_NAME_TABLE !! HeaderField.name h with
  | Some index => (false, index)
  | None =>
      match lookup_id (nameTable tb !! HeaderField.name h) tb with
      | Some index => (false, index)
      | None => (false, 0)
      end
  end.

(** Returns whether name and value match, and the index. *)
Definition find (h : HeaderField.t) (tb : t) : bool * Z :=
  if negb (HeaderField.sensitivity h) then
    match STATIC_NAME_VALUE_TABLE !! key h with
    | Some index => (true, index)
    | None =>
        match lookup_id (nameValueTable tb !! key h) tb with
        | Some index => (true, index)
        | None => find_name h tb
        end
    end
  else find_name h tb.

Definition addEntry (h : HeaderField.t) (tb : t) : t :=
  mk (<[HeaderField.name h := nextId tb]> (nameTable tb))
     (<[key h := nextId tb]> (nameValueTable tb))
     (entryTable tb ++ [h]) (maxSize tb) (nextId tb + 1) (dynamicBytes tb).

(** [it = m.find(k); if (it != end && it->second == id) m.erase(it)]. *)
Definition erase_if `{Countable K} (k : K) (id : Z) (m : gmap K Z) : gmap K Z :=
  match m !! k with
  | Some id' => if id' =? id then delete k m else m
  | None => m
  end.

(** The loop of [evict]: [id] is the id of the head of [entries], the
    entries not yet visited. *)
Fixpoint evict_loop (id : Z) (entries : list HeaderField.t) (tb : t) : t :=
  match entries with
  | [] => mk (nameTable tb) (nameValueTable tb) [] (maxSize tb) (nextId tb) (dynamicBytes tb)
  | h :: entries' =>
      if dynamicBytes tb >? maxSize tb then
        evict_loop (id + 1) entries'
          (mk (erase_if (HeaderField.name h) id (nameTable tb))
              (erase_if (key h) id (nameValueTable tb))
              entries' (maxSize tb) (nextId tb) (dynamicBytes tb - HeaderField.size h))
      else mk (nameTable tb) (nameValueTable tb) entries
              (maxSize tb) (nextId tb) (dynamicBytes tb)
  end.

Definition evict (tb : t) : t :=
  let oldestId := nextId tb - zlen (entryTable tb) in
  evict_loop oldestId (entryTable tb) tb.

Definition insert (h : HeaderField.t) (tb : t) : t :=
  let tb := addEntry h tb in
  evict (mk (nameTable tb) (nameValueTable tb) (entryTable tb) (maxSize tb) (nextId tb)
            (dynamicBytes tb + HeaderField.size h)).

Definition setMaxSize (size : Z) (tb : t) : t :=
  evict (mk (nameTable tb) (nameValueTable tb) (entryTable tb) size (nextId tb)
            (dynamicBytes tb)).

(** [None] is the result false. *)
Definition at_ (index : Z) (tb : t) : option HeaderField.t :=
  if index =? 0 then None
  else if index <=? zlen STATIC_ENTRY_TABLE then znth STATIC_ENTRY_TABLE (index - 1)
  else
    let dynamicIdx := index - zlen STATIC_ENTRY_TABLE in
    if (dynamicIdx =? 0) || (dynamicIdx >? zlen (entryTable tb)) then None
    else znth (entryTable tb) (zlen (entryTable tb) - dynamicIdx).
End HpackTable.
