(* ===== verification/HpackTableFacts.v ===== *)
(** * Facts about the HPACK tables

    The reference eviction policy [fit] (keep the newest entries that fit),
    the invariant [wf] of the dynamic table, and what [find], [at_], [insert]
    and [setMaxSize] promise to the encoder and the decoder. *)

From S2P Require Import Prelude Outcome Types HpackTable.
Import HpackTable.

Implicit Types (h : HeaderField.t) (l : list HeaderField.t) (tb : HpackTable.t).

(** ** The reference eviction policy *)

(** Size of a list of entries (RFC 7541 section 4.1). *)
Fixpoint bytes_of l : Z :=
  match l with [] => 0 | h :: l' => HeaderField.size h + bytes_of l' end.

(** The longest suffix of size at most [m]. *)
Fixpoint fit (m : Z) l : list HeaderField.t :=
  match l with
  | [] => []
  | _ :: l' => if bytes_of l >? m then fit m l' else l
  end.

Lemma bytes_of_nonneg l : 0 <= bytes_of l.
Proof. induction l as [|h l IH]; cbn; [done|]. pose proof (HeaderField.size_pos h). lia. Qed.

Lemma bytes_of_app l k : bytes_of (l ++ k) = bytes_of l + bytes_of k.
Proof. induction l as [|h l IH]; [done|]. cbn in *. lia. Qed.

Lemma fit_id m l : bytes_of l <= m -> fit m l = l.
Proof.
  destruct l as [|h l]; [done|]. intros. cbn [fit].
  rewrite Z.gtb_ltb. destruct (Z.ltb_spec m (bytes_of (h :: l))); [lia|done].
Qed.

Lemma fit_bytes m l : 0 <= m -> bytes_of (fit m l) <= m.
Proof.
  intros Hm. induction l as [|h l IH]; [done|]. cbn [fit].
  rewrite Z.gtb_ltb. destruct (Z.ltb_spec m (bytes_of (h :: l))); done.
Qed.

Lemma fit_suffix m l : fit m l `suffix_of` l.
Proof.
  induction l as [|h l IH]; [done|]. cbn [fit]. case_if; [|done]. by apply suffix_cons_r.
Qed.

Lemma fit_fit a b l : fit a (fit b l) = fit (Z.min a b) l.
Proof.
  induction l as [|h l IH]; [done|]. cbn [fit]. rewrite !Z.gtb_ltb.
  destruct (Z.ltb_spec b (bytes_of (h :: l))); destruct (Z.ltb_spec (Z.min a b) (bytes_of (h :: l)));
    try lia; [done| |].
  - cbn [fit]. rewrite Z.gtb_ltb. destruct (Z.ltb_spec a (bytes_of (h :: l))); [|lia].
    rewrite <- IH. f_equal. symmetry. apply fit_id. cbn [bytes_of foldr] in *.
    pose proof (HeaderField.size_pos h). fold (bytes_of l) in *. lia.
  - apply fit_id. lia.
Qed.

(** ** Lookup tables *)

(** [m] maps the key of every entry to the id of its newest occurrence; the
    ids of [l] start at [first]. *)
Definition indexed `{Countable K} (k : HeaderField.t -> K) (first : Z) l (m : gmap K Z) : Prop :=
  (forall x id, m !! x = Some id ->
     exists (i : nat) h, l !! i = Some h /\ id = first + Z.of_nat i /\ k h = x) /\
  (forall (i : nat) h, l !! i = Some h ->
     exists j : nat, m !! k h = Some (first + Z.of_nat j) /\ (i <= j)%nat).

Section indexed.
Context `{Countable K} (k : HeaderField.t -> K).
Implicit Types m : gmap K Z.

Lemma indexed_nil first : indexed k first [] (∅ : gmap K Z).
Proof. split; intros *; [rewrite lookup_empty|]; done. Qed.

Lemma indexed_snoc first l m h :
  indexed k first l m -> indexed k first (l ++ [h]) (<[k h := first + zlen l]> m).
Proof.
  intros [Hs Hc]. split.
  - intros x id. rewrite lookup_insert_Some. intros [[<- <-]|[Hne Hx]].
    + exists (length l), h. rewrite list_lookup_middle by done. done.
    + destruct (Hs x id Hx) as (i & h' & Hi & ? & ?).
      exists i, h'. rewrite lookup_app_l by (by eapply lookup_lt_Some). done.
  - intros i h' Hi. destruct (decide (k h' = k h)) as [->|Hne].
    + exists (length l). rewrite lookup_insert, decide_True by done. split; [done|].
      apply lookup_lt_Some in Hi. rewrite length_app in Hi. simpl in Hi. lia.
    + rewrite lookup_insert_ne by done. apply Hc.
      apply lookup_app_Some in Hi as [Hi|[Hi1 Hi2]]; [done|].
      apply list_lookup_singleton_Some in Hi2 as [_ <-]. done.
Qed.

Lemma indexed_erase first h l m :
  indexed k first (h :: l) m -> indexed k (first + 1) l (erase_if (k h) first m).
Proof.
  intros [Hs Hc]. unfold erase_if.
  destruct (Hc 0%nat h) as (j0 & Hj0 & _); [done|]. rewrite Hj0. split.
  - intros x id Hx. assert (m !! x = Some id /\ id <> first) as [Hm Hne].
    { destruct (Z.eqb_spec (first + Z.of_nat j0) first).
      - apply lookup_delete_Some in Hx as [Hne Hx]. split; [done|]. intros ->.
        destruct (Hs x first Hx) as (i & h' & Hi & ? & <-).
        destruct i; [|lia]. simpl in Hi. injection Hi as ->. done.
      - split; [done|]. intros ->. destruct (Hs x first Hx) as (i & h' & Hi & ? & <-).
        destruct i; [|lia]. simpl in Hi. injection Hi as ->.
        rewrite Hj0 in Hx. injection Hx as Hx. done. }
    destruct (Hs x id Hm) as (i & h' & Hi & ? & ?). destruct i as [|i]; [lia|].
    exists i, h'. simpl in Hi. split_and!; [done|lia|done].
  - intros i h' Hi. destruct (Hc (S i) h') as (j & Hj & ?); [done|].
    exists (pred j). split; [|lia].
    replace (first + 1 + Z.of_nat (pred j)) with (first + Z.of_nat j) by lia.
    destruct (Z.eqb_spec (first + Z.of_nat j0) first); [|done].
    rewrite lookup_delete_ne; [done|]. intros Heq. rewrite <- Heq, Hj0 in Hj.
    injection Hj as Hj. lia.
Qed.
End indexed.

(** ** The invariant of the dynamic table *)

Definition first_id tb : Z := nextId tb - zlen (entryTable tb).

(** Everything but the size bound, which [evict] restores. *)
Record wf_pre tb : Prop := {
  wf_bytes : dynamicBytes tb = bytes_of (entryTable tb);
  wf_names : indexed HeaderField.name (first_id tb) (entryTable tb) (nameTable tb);
  wf_pairs : indexed key (first_id tb) (entryTable tb) (nameValueTable tb);
  wf_plain : Forall (fun h => HeaderField.sensitivity h = false) (entryTable tb);
  wf_max : 0 <= maxSize tb;
}.

Definition wf tb : Prop := wf_pre tb /\ dynamicBytes tb <= maxSize tb.

Lemma init_wf : wf init.
Proof.
  split; [|done]. constructor; try done; apply indexed_nil.
Qed.

Lemma evict_loop_spec l tb :
  entryTable tb = l -> wf_pre tb ->
  let tb' := evict_loop (first_id tb) l tb in
  wf tb' /\ entryTable tb' = fit (maxSize tb) l /\ maxSize tb' = maxSize tb /\ nextId tb' = nextId tb.
Proof.
  revert tb. induction l as [|h l IH]; intros tb Hl Hwf.
  - destruct tb as [nt nvt et ms ni db]; cbn in *. subst. split_and!; try done.
    destruct Hwf. cbn in *. subst. done.
  - cbn [evict_loop fit]. pose proof Hwf as [Hb Hn Hp Hpl Hm]. rewrite Hl in *. rewrite Hb.
    destruct (bytes_of (h :: l) >? maxSize tb) eqn:Hgt.
    + set (tb1 := mk _ _ _ _ _ _).
      assert (Hf : first_id tb1 = first_id tb + 1).
      { unfold first_id. cbn [nextId entryTable tb1]. rewrite Hl, zlen_cons. lia. }
      rewrite <- Hf. destruct (IH tb1) as (? & ? & ? & ?); [done| |done].
      constructor; cbn [dynamicBytes entryTable nameTable nameValueTable maxSize tb1]; [| | | |done].
      * cbn [bytes_of]. lia.
      * rewrite Hf. apply indexed_erase. done.
      * rewrite Hf. apply indexed_erase. done.
      * by inversion Hpl.
    + rewrite Z.gtb_ltb, Z.ltb_ge in Hgt. split; [|done]. destruct tb; cbn in *; subst.
      split; [done|cbn; lia].
Qed.

Lemma evict_spec tb :
  wf_pre tb ->
  wf (evict tb) /\ entryTable (evict tb) = fit (maxSize tb) (entryTable tb)
  /\ maxSize (evict tb) = maxSize tb /\ nextId (evict tb) = nextId tb.
Proof. intros. apply evict_loop_spec; done. Qed.

Lemma setMaxSize_spec size tb :
  wf tb -> 0 <= size ->
  wf (setMaxSize size tb) /\ entryTable (setMaxSize size tb) = fit size (entryTable tb)
  /\ maxSize (setMaxSize size tb) = size.
Proof.
  intros [[] ?] Hs. unfold setMaxSize. set (tb1 := mk _ _ _ _ _ _).
  destruct (evict_spec tb1) as (? & ? & ? & ?); done.
Qed.

Lemma insert_spec h tb :
  wf tb -> HeaderField.sensitivity h = false ->
  wf (insert h tb) /\ entryTable (insert h tb) = fit (maxSize tb) (entryTable tb ++ [h])
  /\ maxSize (insert h tb) = maxSize tb /\ nextId (insert h tb) = nextId tb + 1.
Proof.
  intros [[Hb Hn Hp Hpl Hm] ?] Hh. unfold insert. set (tb1 := mk _ _ _ _ _ _).
  destruct (evict_spec tb1) as (? & ? & ? & ?); [|done].
  assert (Hf : first_id tb1 = first_id tb).
  { unfold first_id. cbn. autorewrite with zlen. lia. }
  assert (Hid : nextId tb = first_id tb + zlen (entryTable tb)) by (unfold first_id; lia).
  constructor; try rewrite Hf; cbn.
  - rewrite bytes_of_app, Hb. cbn. lia.
  - rewrite Hid. by apply indexed_snoc.
  - rewrite Hid. by apply (indexed_snoc key).
  - apply Forall_app_2; [done|]. by constructor.
  - done.
Qed.

(** ** The static table *)

Definition static_size : Z := 61.

Lemma static_length : zlen STATIC_ENTRY_TABLE = static_size.
Proof. done. Qed.

Definition static_name_ok (p : bytes * Z) : bool :=
  match at_ p.2 init with
  | Some h => (0 <? p.2) && bool_decide (HeaderField.name h = p.1)
  | None => false
  end.
Definition static_pair_ok (p : bytes * bytes * Z) : bool :=
  match at_ p.2 init with
  | Some h => (0 <? p.2) && bool_decide (key h = p.1)
  | None => false
  end.
Definition static_entry_ok h : bool :=
  negb (HeaderField.sensitivity h)
  && bool_decide (is_Some (STATIC_NAME_TABLE !! HeaderField.name h))
  && bool_decide (is_Some (STATIC_NAME_VALUE_TABLE !! key h)).

Lemma static_checked :
  forallb static_name_ok STATIC_NAME_LIST = true
  /\ forallb static_pair_ok STATIC_NAME_VALUE_LIST = true
  /\ forallb static_entry_ok STATIC_ENTRY_TABLE = true.
Proof. vm_compute. done. Qed.

(** Static indices mean the same in every table. *)
Lemma at_static index tb : index <= static_size -> at_ index tb = at_ index init.
Proof.
  intros Hi. unfold at_. rewrite static_length.
  destruct (Z.leb_spec index static_size); [done|lia].
Qed.

Lemma at_init_range index h : at_ index init = Some h -> 0 < index -> index <= static_size.
Proof.
  unfold at_. rewrite static_length. intros H Hi. revert H.
  destruct (Z.leb_spec index static_size); [lia|].
  destruct (Z.eqb_spec index 0); [lia|]. cbn [entryTable init].
  destruct (Z.eqb_spec (index - static_size) 0); [done|]. cbn [orb].
  rewrite Z.gtb_ltb. destruct (Z.ltb_spec (zlen (@nil HeaderField.t)) (index - static_size)); [done|].
  rewrite zlen_nil in *. lia.
Qed.

Lemma static_name_at n index tb :
  STATIC_NAME_TABLE !! n = Some index ->
  0 < index /\ exists h, at_ index tb = Some h /\ HeaderField.name h = n.
Proof.
  intros H%elem_of_list_to_map_2. destruct static_checked as (Hc & _ & _).
  rewrite forallb_forall in Hc. apply list_elem_of_In in H. specialize (Hc _ H).
  unfold static_name_ok in Hc. cbn [fst snd] in Hc. destruct (at_ index init) as [h|] eqn:E; [|done].
  bool_to_prop. split; [done|]. exists h. rewrite at_static by (by eapply at_init_range).
  split; [done|]. by eapply bool_decide_eq_true.
Qed.

Lemma static_pair_at k index tb :
  STATIC_NAME_VALUE_TABLE !! k = Some index ->
  0 < index /\ exists h, at_ index tb = Some h /\ key h = k.
Proof.
  intros H%elem_of_list_to_map_2. destruct static_checked as (_ & Hc & _).
  rewrite forallb_forall in Hc. apply list_elem_of_In in H. specialize (Hc _ H).
  unfold static_pair_ok in Hc. cbn [fst snd] in Hc. destruct (at_ index init) as [h|] eqn:E; [|done].
  bool_to_prop. split; [done|]. exists h. rewrite at_static by (by eapply at_init_range).
  split; [done|]. by eapply bool_decide_eq_true.
Qed.

Lemma static_entry i h :
  STATIC_ENTRY_TABLE !! i = Some h ->
  HeaderField.sensitivity h = false /\ is_Some (STATIC_NAME_TABLE !! HeaderField.name h)
  /\ is_Some (STATIC_NAME_VALUE_TABLE !! key h).
Proof.
  intros H%list_elem_of_lookup_2. destruct static_checked as (_ & _ & Hc).
  rewrite forallb_forall in Hc. apply list_elem_of_In in H. specialize (Hc _ H).
  unfold static_entry_ok in Hc. bool_to_prop.
  split_and!; [done | by eapply bool_decide_eq_true | by eapply bool_decide_eq_true].
Qed.

(** ** Indices *)

(** What an index in range denotes. *)
Lemma at_cases index tb h :
  at_ index tb = Some h ->
  (0 < index <= static_size /\ exists i, STATIC_ENTRY_TABLE !! i = Some h)
  \/ (static_size < index <= static_size + zlen (entryTable tb)
      /\ entryTable tb !! Z.to_nat (static_size + zlen (entryTable tb) - index) = Some h).
Proof.
  unfold at_. rewrite static_length. destruct (Z.eqb_spec index 0); [done|].
  destruct (Z.leb_spec index static_size) as [Hle|Hgt].
  - intros Hz. pose proof (znth_lookup _ _ _ Hz) as Hr. left. split; [lia|].
    unfold znth in Hz. case_match; [done|]. eauto.
  - destruct (Z.eqb_spec (index - static_size) 0); [done|]. cbn [orb]. rewrite Z.gtb_ltb.
    destruct (Z.ltb_spec (zlen (entryTable tb)) (index - static_size)); [done|].
    unfold znth. case_match; [done|]. intros Hz. right. split; [lia|]. rewrite <- Hz. f_equal. lia.
Qed.

Lemma at_dynamic (i : nat) h tb :
  entryTable tb !! i = Some h ->
  at_ (static_size + (zlen (entryTable tb) - Z.of_nat i)) tb = Some h.
Proof.
  intros H. pose proof (lookup_lt_Some _ _ _ H) as Hi.
  unfold at_. rewrite static_length.
  assert (0 < zlen (entryTable tb) - Z.of_nat i) by (unfold zlen; lia).
  destruct (Z.eqb_spec (static_size + (zlen (entryTable tb) - Z.of_nat i)) 0);
    [unfold static_size in *; lia|].
  destruct (Z.leb_spec (static_size + (zlen (entryTable tb) - Z.of_nat i)) static_size); [lia|].
  replace (static_size + (zlen (entryTable tb) - Z.of_nat i) - static_size)
    with (zlen (entryTable tb) - Z.of_nat i) by lia.
  destruct (Z.eqb_spec (zlen (entryTable tb) - Z.of_nat i) 0); [lia|]. cbn [orb].
  rewrite Z.gtb_ltb. destruct (Z.ltb_spec (zlen (entryTable tb)) (zlen (entryTable tb) - Z.of_nat i)); [lia|].
  unfold znth. destruct (Z.ltb_spec (zlen (entryTable tb) - (zlen (entryTable tb) - Z.of_nat i)) 0); [lia|].
  rewrite <- H. f_equal. lia.
Qed.

(** The entries are plain, whatever the table they come from. *)
Lemma at_plain index tb h : wf tb -> at_ index tb = Some h -> HeaderField.sensitivity h = false.
Proof.
  intros [[] _] [[_ [i Hi]]|[_ Hi]]%at_cases.
  - by apply static_entry in Hi as [? _].
  - by eapply Forall_lookup_1 in Hi; [|done].
Qed.

(** A hit in a dynamic lookup table is a live entry. *)
Lemma lookup_id_sound `{Countable K} (k : HeaderField.t -> K) m x tb index :
  indexed k (first_id tb) (entryTable tb) m ->
  lookup_id (m !! x) tb = Some index ->
  static_size < index /\ exists h, at_ index tb = Some h /\ k h = x.
Proof.
  intros [Hs _] Hl. unfold lookup_id in Hl. destruct (m !! x) as [id|] eqn:E; [|done].
  destruct (Hs x id E) as (i & h & Hi & -> & Hk). unfold id2Index in Hl.
  fold (first_id tb) in Hl. rewrite static_length in Hl.
  destruct (Z.ltb_spec (first_id tb + Z.of_nat i) (first_id tb)); [done|].
  injection Hl as <-. pose proof (lookup_lt_Some _ _ _ Hi).
  unfold first_id. replace (nextId tb - (nextId tb - zlen (entryTable tb) + Z.of_nat i))
    with (zlen (entryTable tb) - Z.of_nat i) by lia.
  split; [unfold zlen; lia|]. exists h. split; [by apply at_dynamic|done].
Qed.

Lemma lookup_id_complete `{Countable K} (k : HeaderField.t -> K) m tb (i : nat) h :
  indexed k (first_id tb) (entryTable tb) m ->
  entryTable tb !! i = Some h -> is_Some (lookup_id (m !! k h) tb).
Proof.
  intros [_ Hc] Hi. destruct (Hc i h Hi) as (j & -> & _). unfold lookup_id, id2Index.
  fold (first_id tb). destruct (Z.ltb_spec (first_id tb + Z.of_nat j) (first_id tb)); [lia|].
  eauto.
Qed.

(** ** [find] *)

Lemma find_name_sound h tb exact index :
  wf tb -> find_name h tb = (exact, index) ->
  exact = false /\ 0 <= index /\
  (index <> 0 -> exists h', at_ index tb = Some h' /\ HeaderField.name h' = HeaderField.name h).
Proof.
  intros [[] _]. unfold find_name.
  destruct (STATIC_NAME_TABLE !! HeaderField.name h) as [i|] eqn:E1.
  { intros [= <- <-]. destruct (static_name_at _ _ tb E1) as [? ?]. split_and!; [done|lia|done]. }
  destruct (lookup_id _ _) as [i|] eqn:E2.
  - intros [= <- <-]. destruct (lookup_id_sound _ _ _ _ _ wf_names0 E2) as [? ?].
    unfold static_size in *. split_and!; [done|lia|done].
  - intros [= <- <-]. done.
Qed.

Lemma find_name_complete h tb j h' :
  wf tb -> at_ j tb = Some h' -> HeaderField.name h' = HeaderField.name h -> (find_name h tb).2 <> 0.
Proof.
  intros Hwf Hj Hn. destruct (find_name h tb) as [e index] eqn:E. unfold find_name in E.
  destruct (STATIC_NAME_TABLE !! HeaderField.name h) as [i|] eqn:E1.
  { injection E as <- <-. destruct (static_name_at _ _ tb E1). simpl. lia. }
  pose proof Hwf as [[] _].
  destruct (at_cases _ _ _ Hj) as [[_ [i Hi]]|[_ Hi]].
  - apply static_entry in Hi as (_ & [x Hx] & _). rewrite Hn in Hx. congruence.
  - destruct (lookup_id_complete HeaderField.name _ _ _ _ wf_names0 Hi) as [x Hx].
    rewrite Hn in Hx. rewrite Hx in E. injection E as <- <-.
    destruct (lookup_id_sound _ _ _ _ _ wf_names0 Hx). unfold static_size in *. simpl. lia.
Qed.

Lemma find_sound h tb exact index :
  wf tb -> find h tb = (exact, index) ->
  0 <= index /\
  (exact = true -> HeaderField.sensitivity h = false /\
     exists h', at_ index tb = Some h' /\ key h' = key h) /\
  (exact = false -> index <> 0 ->
     exists h', at_ index tb = Some h' /\ HeaderField.name h' = HeaderField.name h).
Proof.
  intros Hwf. unfold find. pose proof Hwf as [[] _].
  assert (Hname : find_name h tb = (exact, index) -> 0 <= index /\
     (exact = true -> HeaderField.sensitivity h = false /\
       exists h', at_ index tb = Some h' /\ key h' = key h) /\
     (exact = false -> index <> 0 ->
       exists h', at_ index tb = Some h' /\ HeaderField.name h' = HeaderField.name h)).
  { intros E. destruct (find_name_sound _ _ _ _ Hwf E) as (-> & ? & ?). done. }
  destruct (HeaderField.sensitivity h) eqn:Es; cbn [negb]; [done|].
  destruct (STATIC_NAME_VALUE_TABLE !! key h) as [i|] eqn:E1.
  { intros [= <- <-]. destruct (static_pair_at _ _ tb E1). split_and!; [lia|done|done]. }
  destruct (lookup_id _ _) as [i|] eqn:E2; [|done].
  intros [= <- <-]. destruct (lookup_id_sound _ _ _ _ _ wf_pairs0 E2).
  unfold static_size in *. split_and!; [lia|done|done].
Qed.

Lemma find_complete h tb j h' :
  wf tb -> HeaderField.sensitivity h = false -> at_ j tb = Some h' -> key h' = key h ->
  (find h tb).1 = true.
Proof.
  intros Hwf Hs Hj Hk. unfold find. rewrite Hs. cbn [negb].
  destruct (STATIC_NAME_VALUE_TABLE !! key h) as [i|] eqn:E1; [done|].
  pose proof Hwf as [[] _].
  destruct (at_cases _ _ _ Hj) as [[_ [i Hi]]|[_ Hi]].
  - apply static_entry in Hi as (_ & _ & [x Hx]). rewrite Hk in Hx. congruence.
  - destruct (lookup_id_complete key _ _ _ _ wf_pairs0 Hi) as [x Hx].
    rewrite Hk in Hx. rewrite Hx. done.
Qed.

Lemma find_zero h tb j h' :
  wf tb -> (find h tb).2 = 0 -> at_ j tb = Some h' -> HeaderField.name h' <> HeaderField.name h.
Proof.
  intros Hwf Hz Hj Hn. destruct (find h tb) as [e index] eqn:E. simpl in Hz. subst.
  destruct (find_sound _ _ _ _ Hwf E) as (_ & He & _). destruct e.
  - destruct He as (_ & h2 & Hat & _); [done|]. done.
  - pose proof (find_name_complete h tb j h' Hwf Hj Hn) as Hc. unfold find in E.
    case_match; [|by rewrite E in Hc]. case_match; [done|]. case_match; [done|].
    by rewrite E in Hc.
Qed.

(** ** Properties *)

(** The encoder's lookup agrees with the decoder's: the index [find]
    returns denotes, through [at_], the field itself when it reports an exact
    match and a field of the same name otherwise; it misses no match, neither
    of the pair (for a field that may be indexed) nor of the name. *)
Theorem find_at_agree h tb exact index :
  wf tb -> find h tb = (exact, index) ->
  (exact = true -> at_ index tb = Some h) /\
  (exact = false -> index <> 0 ->
     exists h', at_ index tb = Some h' /\ HeaderField.name h' = HeaderField.name h) /\
  (exact = false -> HeaderField.sensitivity h = false -> forall j, at_ j tb <> Some h) /\
  (index = 0 -> forall j h', at_ j tb = Some h' -> HeaderField.name h' <> HeaderField.name h).
Proof.
  intros Hwf E. pose proof (find_sound _ _ _ _ Hwf E) as (_ & He & Hn). split_and!.
  - intros ->. destruct He as (Hs & h' & Hat & Hk); [done|].
    rewrite Hat. f_equal. pose proof (at_plain _ _ _ Hwf Hat).
    destruct h, h'. unfold key in Hk. cbn in *. congruence.
  - done.
  - intros -> Hs j Hj. pose proof (find_complete h tb j h Hwf Hs Hj eq_refl) as Hc.
    rewrite E in Hc. done.
  - intros -> j h' Hj. apply (find_zero h tb j h' Hwf); [|done]. by rewrite E.
Qed.

Lemma find_at_agree_witness :
  let h := entry (bs "x-a") (bs "1") in
  let tb := insert h init in
  wf tb /\ find h tb = (true, 62) /\ at_ 62 tb = Some h.
Proof.
  intros h tb. assert (Hwf : wf tb) by (apply insert_spec; [apply init_wf | done]).
  assert (E : find h tb = (true, 62)) by (vm_compute; done).
  split_and!; [done..|]. by apply (find_at_agree h tb true 62 Hwf E).
Defined.

(** A history of the dynamic table, and its reference model: a FIFO of the
    newest entries that fit. *)
Inductive table_op : Type :=
| Op_insert (h : HeaderField.t)
| Op_setMaxSize (size : Z).

Definition table_op_ok (op : table_op) : bool :=
  match op with
  | Op_insert h => negb (HeaderField.sensitivity h)
  | Op_setMaxSize size => 0 <=? size
  end.
Definition table_step tb (op : table_op) : HpackTable.t :=
  match op with Op_insert h => insert h tb | Op_setMaxSize size => setMaxSize size tb end.
Definition fifo_step (s : Z * list HeaderField.t) (op : table_op) : Z * list HeaderField.t :=
  match op with
  | Op_insert h => (s.1, fit s.1 (s.2 ++ [h]))
  | Op_setMaxSize size => (size, fit size s.2)
  end.

Lemma table_steps_spec ops tb :
  wf tb -> forallb table_op_ok ops = true ->
  let tb' := fold_left table_step ops tb in
  wf tb' /\ (maxSize tb', entryTable tb') = fold_left fifo_step ops (maxSize tb, entryTable tb).
Proof.
  revert tb. induction ops as [|op ops IH]; intros tb Hwf Hok; [done|].
  cbn [forallb fold_left] in *. bool_to_prop. destruct op as [h|size]; cbn [table_step table_op_ok fifo_step] in *.
  - bool_to_prop. destruct (insert_spec h tb) as (Hw & He & Hm & _); [done..|].
    destruct (IH (insert h tb)) as [? Heq]; [done..|]. rewrite Hm, He in Heq. done.
  - bool_to_prop. destruct (setMaxSize_spec size tb) as (Hw & He & Hm); [done..|].
    destruct (IH (setMaxSize size tb)) as [? Heq]; [done..|]. rewrite Hm, He in Heq. done.
Qed.

(** C21: after any history of insertions and resizes the dynamic table holds
    exactly what RFC 7541 section 4 prescribes (the newest entries that fit
    the maximum size), its byte count is their total size and within the
    maximum, and index [62 + n] denotes the [n]-th newest entry. *)
Theorem table_refines_fifo ops :
  forallb table_op_ok ops = true ->
  let tb := fold_left table_step ops init in
  let '(m, l) := fold_left fifo_step ops (INIT_MAX_TABLE_SIZE, []) in
  entryTable tb = l /\ maxSize tb = m /\ dynamicBytes tb = bytes_of l /\ bytes_of l <= m /\
  (forall n h, reverse l !! n = Some h -> at_ (62 + Z.of_nat n) tb = Some h).
Proof.
  intros Hok tb. destruct (table_steps_spec ops init init_wf Hok) as [[[Hb _ _ _ _] Hle] Heq].
  fold tb in Hb, Hle, Heq. cbn [maxSize entryTable init] in Heq.
  destruct (fold_left fifo_step ops _) as [m l]. injection Heq as <- <-.
  split_and!; [done..|lia|]. intros n h Hn.
  pose proof (lookup_lt_Some _ _ _ Hn) as Hlt. rewrite length_reverse in Hlt.
  rewrite reverse_lookup in Hn by done. apply at_dynamic in Hn. rewrite <- Hn. f_equal.
  unfold static_size, zlen. lia.
Qed.

Lemma table_refines_fifo_witness :
  let ops := [Op_insert (entry (bs "a") (bs "1")); Op_insert (entry (bs "b") (bs "2"));
              Op_setMaxSize 40; Op_insert (entry (bs "c") (bs "3"))] in
  forallb table_op_ok ops = true /\
  at_ 62 (fold_left table_step ops init) = Some (entry (bs "c") (bs "3")).
Proof.
  intros ops. split; [done|].
  pose proof (table_refines_fifo ops eq_refl) as H. vm_compute in H.
  destruct H as (_ & _ & _ & _ & H). apply (H 0%nat). done.
Defined.
