(* ===== verification/Hpack.v ===== *)
(** * HPACK

    [include/chttp2/hpack/hpack.hpp] and [src/hpack/hpack.cpp]: prefixed
    integers, strings, the header field representations, and the stateful
    encoder and decoder.  The output buffer of the encoder is its contents
    (see [ByteBuffer.append_ok]); a function returning [bool] with reference
    parameters returns them beside the boolean, or an option when the value
    is only meaningful on success. *)

From S2P Require Import Prelude Outcome ByteBuffer Types HpackTable.
From S2P Require Huffman.

Module Hpack.
Record t := mk {
  decodeBuffer : ByteSpan.t;
  firstField : bool;
  decodeTable : HpackTable.t;
  decodeTableLimit : Z;
  encodeTable : HpackTable.t;
  encodeTableDirty : bool;
  encodeMinSize : Z;
}.

Definition init : t :=
  mk (ByteSpan.make []) true HpackTable.init HpackTable.INIT_MAX_TABLE_SIZE
     HpackTable.init false SIZE_MAX.

Definition reset (hp : t) : t :=
  mk (ByteSpan.make []) true HpackTable.init HpackTable.INIT_MAX_TABLE_SIZE
     HpackTable.init false SIZE_MAX.

Definition set_decodeBuffer v hp :=
  mk v (firstField hp) (decodeTable hp) (decodeTableLimit hp) (encodeTable hp)
     (encodeTableDirty hp) (encodeMinSize hp).
Definition set_firstField v hp :=
  mk (decodeBuffer hp) v (decodeTable hp) (decodeTableLimit hp) (encodeTable hp)
     (encodeTableDirty hp) (encodeMinSize hp).
Definition set_decodeTable v hp :=
  mk (decodeBuffer hp) (firstField hp) v (decodeTableLimit hp) (encodeTable hp)
     (encodeTableDirty hp) (encodeMinSize hp).
Definition set_encodeTable v hp :=
  mk (decodeBuffer hp) (firstField hp) (decodeTable hp) (decodeTableLimit hp) v
     (encodeTableDirty hp) (encodeMinSize hp).

Definition setDecodeTableLimit (limit : Z) (hp : t) : t :=
  mk (decodeBuffer hp) (firstField hp) (HpackTable.setMaxSize limit (decodeTable hp)) limit
     (encodeTable hp) (encodeTableDirty hp) (encodeMinSize hp).

Definition setEncodeTableSize (size : Z) (hp : t) : t :=
  mk (decodeBuffer hp) (firstField hp) (decodeTable hp) (decodeTableLimit hp)
     (HpackTable.setMaxSize size (encodeTable hp)) true (Z.min size (encodeMinSize hp)).

(** ** Integers *)

(** [while (value >= 128)]: a 64-bit value has at most ten groups. *)
Fixpoint encodeVInt_loop (fuel : nat) (buffer : bytes) (value : Z) : outcome bytes :=
  match fuel with
  | O => Fault Hangs
  | S fuel' =>
      if value >=? 128 then
        encodeVInt_loop fuel' (buffer ++ [z2b (Z.lor 0x80 (Z.land value 0x7f))])
          (Z.shiftr value 7)
      else Ok (buffer ++ [z2b value])
  end.

Definition encodeVInt (buffer : bytes) (prefix value : Z) : outcome bytes :=
  let maxPrefix := u8 (Z.shiftl 1 prefix - 1) in
  if value <? maxPrefix then Ok (buffer ++ [z2b value])
  else encodeVInt_loop 10 (buffer ++ [z2b maxPrefix]) (value - maxPrefix).

(** The continuation bytes, read from the copy [view]; at most nine. *)
Fixpoint decodeVInt_loop (fuel : nat) (view : ByteSpan.t) (shift value : Z)
  : outcome (option (Z * ByteSpan.t)) :=
  match fuel with
  | O => Fault Hangs
  | S fuel' =>
      if negb (ByteSpan.empty view) then
        let! (byte, view) := ByteSpan.readAs 1 view in
        let value := u64 (value + u64 (Z.shiftl (Z.land byte 0x7f) shift)) in
        if Z.land byte 0x80 =? 0 then Ok (Some (value, view))
        else
          let shift := u8 (shift + 7) in
          if shift >=? 63 then Ok None else decodeVInt_loop fuel' view shift value
      else Ok None
  end.

(** Result and the caller's buffer. *)
Definition decodeVInt (buffer : ByteSpan.t) (prefix : Z)
  : outcome (option Z * ByteSpan.t) :=
  if (prefix <? 1) || (prefix >? 8) then Ok (None, buffer)
  else if ByteSpan.empty buffer then Ok (None, buffer)
  else
    let view := buffer in
    let bytesBefore := ByteSpan.size view in
    let maxPrefix := u8 (Z.shiftl 1 prefix - 1) in
    let! (b, view) := ByteSpan.readAs 1 view in
    let value := Z.land b maxPrefix in
    if value <? maxPrefix then
      let! buffer := ByteSpan.advance buffer (u32 (bytesBefore - ByteSpan.size view)) in
      Ok (Some value, buffer)
    else
      let! o := decodeVInt_loop 10 view 0 value in
      match o with
      | Some (value, view) =>
          let! buffer := ByteSpan.advance buffer (u32 (bytesBefore - ByteSpan.size view)) in
          Ok (Some value, buffer)
      | None => Ok (None, buffer)
      end.

(** ** Strings *)

(** [buffer[flagPos] |= flag]. *)
Definition or_at (flagPos flag : Z) (buffer : bytes) : outcome bytes :=
  match znth buffer flagPos with
  | Some b => Ok (<[Z.to_nat flagPos := z2b (Z.lor (b2z b) flag)]> buffer)
  | None => throw "ByteBuffer::operator[]: out of range"
  end.

Definition encodeString (buffer : bytes) (str : bytes) : outcome bytes :=
  let huffmanLength := Huffman.encodedLength str in
  if huffmanLength <? zlen str then
    let flagPos := zlen buffer in
    let! buffer := encodeVInt buffer 7 huffmanLength in
    let! huffmanStr := Huffman.encode str in
    or_at flagPos 0x80 (buffer ++ huffmanStr)
  else
    let! buffer := encodeVInt buffer 7 (zlen str) in
    Ok (buffer ++ str).

Definition decodeString (buffer : ByteSpan.t) : outcome (option bytes * ByteSpan.t) :=
  if ByteSpan.empty buffer then Ok (None, buffer)
  else
    let! b := ByteSpan.peek 1 buffer in
    let isHuffman := negb (Z.land b 0x80 =? 0) in
    let! (o, buffer) := decodeVInt buffer 7 in
    match o with
    | None => Ok (None, buffer)
    | Some length =>
        if ByteSpan.size buffer <? length then Ok (None, buffer)
        else if isHuffman then
          let! sub := ByteSpan.subspan buffer 0 (u32 length) in
          let! (code, huffmanStr) := Huffman.decode (ByteSpan.rest sub) in
          match code with
          | Huffman.INVALID_CODE => Ok (None, buffer)
          | Huffman.HUFF_OK =>
              let! buffer := ByteSpan.advance buffer (u32 length) in
              Ok (Some huffmanStr, buffer)
          end
        else
          let! str := ByteSpan.first buffer length in
          let! buffer := ByteSpan.advance buffer (u32 length) in
          Ok (Some str, buffer)
    end.

(** ** Header field representations *)

Definition assert_ (b : bool) : outcome unit :=
  if b then Ok tt else undef "assertion failure".

Definition encodeIndexedHeader (buffer : bytes) (index : Z) : outcome bytes :=
  let flagPos := zlen buffer in
  let! buffer := encodeVInt buffer 7 index in
  or_at flagPos 0x80 buffer.

Definition encodeIndexLiteralHeader (buffer : bytes) (index : Z) (header : HeaderField.t)
  : outcome bytes :=
  let! _ := assert_ (negb (HeaderField.sensitivity header)) in
  let flagPos := zlen buffer in
  let! buffer :=
    if index >? 0 then
      let! buffer := encodeVInt buffer 6 index in
      or_at flagPos 0x40 buffer
    else
      let! _ := assert_ (index =? 0) in
      encodeString (buffer ++ [x40]) (HeaderField.name header) in
  encodeString buffer (HeaderField.value header).

Definition encodeUnIndexLiteralHeader (buffer : bytes) (index : Z) (header : HeaderField.t)
  : outcome bytes :=
  let! _ := assert_ (negb (HeaderField.sensitivity header)) in
  let! buffer :=
    if index >? 0 then encodeVInt buffer 4 index
    else
      let! _ := assert_ (index =? 0) in
      encodeString (buffer ++ [x00]) (HeaderField.name header) in
  encodeString buffer (HeaderField.value header).

Definition encodeNeverIndexLiteralHeader (buffer : bytes) (index : Z) (header : HeaderField.t)
  : outcome bytes :=
  let! _ := assert_ (HeaderField.sensitivity header) in
  let flagPos := zlen buffer in
  let! buffer :=
    if index >? 0 then
      let! buffer := encodeVInt buffer 4 index in
      or_at flagPos 0x10 buffer
    else encodeString (buffer ++ [x10]) (HeaderField.name header) in
  encodeString buffer (HeaderField.value header).

Definition encodeTableSizeUpdate (buffer : bytes) (size : Z) : outcome bytes :=
  let flagPos := zlen buffer in
  let! buffer := encodeVInt buffer 5 size in
  or_at flagPos 0x20 buffer.

(** ** The encoder *)

Definition couldIndex (header : HeaderField.t) (tb : HpackTable.t) : bool :=
  if HeaderField.sensitivity header then false
  else HpackTable.dynamicTableBytes tb + HeaderField.size header <=? HpackTable.getMaxSize tb.

(** The body of the loop over the headers. *)
Definition encode_header (buffer : bytes) (tb : HpackTable.t) (header : HeaderField.t)
  : outcome (bytes * HpackTable.t) :=
  let '(exactMatch, idx) := HpackTable.find header tb in
  if HeaderField.sensitivity header then
    let! buffer := encodeNeverIndexLiteralHeader buffer idx header in
    Ok (buffer, tb)
  else if exactMatch then
    let! buffer := encodeIndexedHeader buffer idx in
    Ok (buffer, tb)
  else if couldIndex header tb then
    let! buffer := encodeIndexLiteralHeader buffer idx header in
    Ok (buffer, HpackTable.insert header tb)
  else
    let! buffer := encodeUnIndexLiteralHeader buffer idx header in
    Ok (buffer, tb).

Fixpoint encode_headers (buffer : bytes) (tb : HpackTable.t) (headers : list HeaderField.t)
  : outcome (bytes * HpackTable.t) :=
  match headers with
  | [] => Ok (buffer, tb)
  | header :: headers' =>
      let! (buffer, tb) := encode_header buffer tb header in
      encode_headers buffer tb headers'
  end.

(** [if (encodeTableDirty) ...]: announce the resizes since the last block,
    the smallest one first when it is below the last. *)
Definition encode_updates (hp : t) : outcome (bytes * t) :=
  if encodeTableDirty hp then
    let maxSize := HpackTable.getMaxSize (encodeTable hp) in
    let! buffer :=
      if encodeMinSize hp <? maxSize then encodeTableSizeUpdate [] (encodeMinSize hp)
      else Ok [] in
    let! buffer := encodeTableSizeUpdate buffer maxSize in
    Ok (buffer, mk (decodeBuffer hp) (firstField hp) (decodeTable hp) (decodeTableLimit hp)
                   (encodeTable hp) false SIZE_MAX)
  else Ok ([], hp).

Definition encode (headers : list HeaderField.t) (hp : t) : outcome (bytes * t) :=
  let! (buffer, hp) := encode_updates hp in
  let! (buffer, tb) := encode_headers buffer (encodeTable hp) headers in
  Ok (buffer, set_encodeTable tb hp).

(** ** The decoder *)

Definition decodeIndexedHeader (headers : list HeaderField.t) (hp : t)
  : outcome (bool * list HeaderField.t * t) :=
  let! (o, buffer) := decodeVInt (decodeBuffer hp) 7 in
  let hp := set_decodeBuffer buffer hp in
  match o with
  | None => Ok (false, headers, hp)
  | Some index =>
      match HpackTable.at_ index (decodeTable hp) with
      | None => Ok (false, headers, hp)
      | Some header => Ok (true, headers ++ [header], hp)
      end
  end.

Definition decodeTableSizeUpdate (hp : t) : outcome (bool * t) :=
  let! (o, buffer) := decodeVInt (decodeBuffer hp) 5 in
  let hp := set_decodeBuffer buffer hp in
  match o with
  | None => Ok (false, hp)
  | Some size =>
      if size >? decodeTableLimit hp then Ok (false, hp)
      else Ok (true, set_decodeTable (HpackTable.setMaxSize size (decodeTable hp)) hp)
  end.

(** The name of a literal field: a string, or the name of an indexed field. *)
Definition decode_name (index : Z) (hp : t) : outcome (option bytes * t) :=
  if index =? 0 then
    let! (o, buffer) := decodeString (decodeBuffer hp) in
    Ok (o, set_decodeBuffer buffer hp)
  else
    Ok (option_map HeaderField.name (HpackTable.at_ index (decodeTable hp)), hp).

Definition decodeHeaderField (headers : list HeaderField.t) (prefix : Z)
  (indexed sensitive : bool) (hp : t) : outcome (bool * list HeaderField.t * t) :=
  let! (o, buffer) := decodeVInt (decodeBuffer hp) prefix in
  let hp := set_decodeBuffer buffer hp in
  match o with
  | None => Ok (false, headers, hp)
  | Some index =>
      let! (name, hp) := decode_name index hp in
      match name with
      | None => Ok (false, headers, hp)
      | Some name =>
          let! (value, buffer) := decodeString (decodeBuffer hp) in
          let hp := set_decodeBuffer buffer hp in
          match value with
          | None => Ok (false, headers, hp)
          | Some value =>
              let header := HeaderField.mk name value sensitive in
              let hp := if indexed
                        then set_decodeTable (HpackTable.insert header (decodeTable hp)) hp
                        else hp in
              Ok (true, headers ++ [header], hp)
          end
      end
  end.

Definition decodeHeader (headers : list HeaderField.t) (hp : t)
  : outcome (bool * list HeaderField.t * t) :=
  let! flag := ByteSpan.peek 1 (decodeBuffer hp) in
  if Z.shiftr flag 7 =? 1 then decodeIndexedHeader headers hp
  else if Z.shiftr flag 6 =? 1 then decodeHeaderField headers 6 true false hp
  else if Z.shiftr flag 5 =? 1 then
    if negb (firstField hp) then Ok (false, headers, hp)
    else
      let! (b, hp) := decodeTableSizeUpdate hp in
      Ok (b, headers, hp)
  else if Z.shiftr flag 4 =? 1 then decodeHeaderField headers 4 false true hp
  else decodeHeaderField headers 4 false false hp.

(** [while (!decodeBuffer.empty())]: every field consumes a byte. *)
Fixpoint decode_loop (fuel : nat) (headers : list HeaderField.t) (hp : t)
  : outcome (bool * list HeaderField.t * t) :=
  match fuel with
  | O => Fault Hangs
  | S fuel' =>
      if negb (ByteSpan.empty (decodeBuffer hp)) then
        let before := zlen headers in
        let! (b, headers, hp) := decodeHeader headers hp in
        if negb b then Ok (false, headers, hp)
        else
          let hp := if zlen headers >? before then set_firstField false hp else hp in
          decode_loop fuel' headers hp
      else Ok (true, headers, hp)
  end.

Definition decode (data : ByteSpan.t) (headers : list HeaderField.t) (hp : t)
  : outcome (bool * list HeaderField.t * t) :=
  let hp := set_firstField true hp in
  if ByteSpan.empty data then Ok (true, headers, hp)
  else decode_loop (S (length (ByteSpan.data data))) headers (set_decodeBuffer data hp).
End Hpack.
