(* ===== verification/HpackFacts.v ===== *)
(** * Facts about HPACK

    Prefixed integers, strings and field representations are read back as
    they were written; the decoder returns on every input; and the encoder's
    and the decoder's tables stay synchronised across header blocks and table
    resizes. *)

From S2P Require Import Prelude Outcome ByteBuffer Types HpackTable HpackTableFacts FrameFacts.
From S2P Require Import Hpack.
From S2P Require Huffman HuffmanFacts.
Import Hpack.

(** ** Reading bytes *)

(** [sp'] is [sp] after some bytes have been read. *)
Definition follows (sp sp' : ByteSpan.t) : Prop :=
  ByteSpan.wf sp' /\ ByteSpan.data sp' = ByteSpan.data sp /\ ByteSpan.cur sp <= ByteSpan.cur sp'.

Lemma follows_refl sp : ByteSpan.wf sp -> follows sp sp.
Proof. intros. split; [done|split; [done|lia]]. Qed.

Lemma follows_trans sp1 sp2 sp3 : follows sp1 sp2 -> follows sp2 sp3 -> follows sp1 sp3.
Proof. intros (? & H1 & ?) (? & H2 & ?). split; [done|]. split; [congruence|lia]. Qed.

Lemma reads_byte sp b l :
  reads sp (b :: l) ->
  exists sp', ByteSpan.readAs 1 sp = Ok (b2z b, sp') /\ reads sp' l /\ follows sp sp'
              /\ ByteSpan.cur sp' = ByteSpan.cur sp + 1.
Proof.
  intros [Hwf Hr].
  destruct (ByteSpan.readAs_ok 1 sp Hwf) as (sp' & Hok & Hwf' & Hr' & Hd & Hc); [rewrite Hr; zlen_lia|].
  assert (Hb : be_read (ztake (Z.of_nat 1) (b :: l)) = b2z b).
  { change (be_read [b] = b2z b). done. }
  exists sp'. rewrite Hok, Hr, Hb. split; [done|]. split; [split; [done|by rewrite Hr', Hr]|].
  split; [|lia]. split; [done|]. split; [done|lia].
Qed.

Lemma reads_peek sp b l : reads sp (b :: l) -> ByteSpan.peek 1 sp = Ok (b2z b).
Proof.
  intros [Hwf Hr]. rewrite ByteSpan.peek_ok by (try rewrite Hr; done || zlen_lia). by rewrite Hr.
Qed.

(** [buffer.advance(bytesBefore - view.size())] moves the cursor to [view]'s. *)
Lemma advance_follows sp sp' :
  ByteSpan.wf sp -> follows sp sp' ->
  ByteSpan.advance sp (u32 (ByteSpan.size sp - ByteSpan.size sp')) = Ok sp'.
Proof.
  intros [Hw1 Hw2] ([Hw1' Hw2'] & Hd & Hc). unfold ByteSpan.advance, ByteSpan.size, ByteSpan.len in *.
  rewrite Hd in *. rewrite !(u32_small (zlen _ - _)) by lia.
  replace (zlen (ByteSpan.data sp) - ByteSpan.cur sp - (zlen (ByteSpan.data sp) - ByteSpan.cur sp'))
    with (ByteSpan.cur sp' - ByteSpan.cur sp) by lia.
  rewrite (u32_small (ByteSpan.cur sp' - ByteSpan.cur sp)) by lia.
  replace (ByteSpan.cur sp + (ByteSpan.cur sp' - ByteSpan.cur sp)) with (ByteSpan.cur sp') by lia.
  rewrite u32_small, Z.gtb_ltb by lia.
  destruct (Z.ltb_spec (zlen (ByteSpan.data sp)) (ByteSpan.cur sp')); [lia|].
  destruct sp'; cbn in *. by subst.
Qed.

(** ** Prefixed integers *)

(** The 7-bit groups of the part beyond the prefix. *)
Fixpoint groups (fuel : nat) (v : Z) : bytes :=
  match fuel with
  | O => []
  | S fuel' =>
      if v >=? 128 then z2b (Z.lor 0x80 (Z.land v 0x7f)) :: groups fuel' (Z.shiftr v 7)
      else [z2b v]
  end.

(** The encoding of [value]: first byte (flag bits clear) and the rest. *)
Definition vint_head (prefix value : Z) : Z := Z.min value (2 ^ prefix - 1).
Definition vint_tail (prefix value : Z) : bytes :=
  if value <? 2 ^ prefix - 1 then [] else groups 10 (value - (2 ^ prefix - 1)).

Lemma max_prefix prefix : 1 <= prefix <= 8 -> u8 (Z.shiftl 1 prefix - 1) = 2 ^ prefix - 1.
Proof.
  intros Hp. rewrite Z.shiftl_mul_pow2, Z.mul_1_l by lia.
  assert (2 ^ 1 <= 2 ^ prefix <= 2 ^ 8) by (split; apply Z.pow_le_mono_r; lia).
  apply u8_small. lia.
Qed.

Lemma encodeVInt_loop_ok fuel buffer v :
  0 <= v < 2 ^ (7 * Z.of_nat fuel) -> (0 < fuel)%nat ->
  encodeVInt_loop fuel buffer v = Ok (buffer ++ groups fuel v).
Proof.
  revert buffer v. induction fuel as [|fuel IH]; intros buffer v Hv Hf; [lia|].
  cbn [encodeVInt_loop groups]. rewrite Z.geb_leb. destruct (Z.leb_spec 128 v); [|done].
  rewrite IH; [by rewrite <- app_assoc| |].
  - rewrite Z.shiftr_div_pow2 by lia. split; [apply Z.div_pos; lia|].
    apply Z.div_lt_upper_bound; [lia|]. rewrite <- Z.pow_add_r by lia.
    replace (7 + 7 * Z.of_nat fuel) with (7 * Z.of_nat (S fuel)) by lia. lia.
  - destruct fuel; [|lia]. change (2 ^ (7 * Z.of_nat 1)) with 128 in Hv. lia.
Qed.

Lemma encodeVInt_ok buffer prefix value :
  1 <= prefix <= 8 -> 0 <= value < 2 ^ 64 ->
  encodeVInt buffer prefix value
  = Ok (buffer ++ z2b (vint_head prefix value) :: vint_tail prefix value).
Proof.
  intros Hp Hv. unfold encodeVInt, vint_head, vint_tail. rewrite max_prefix by done.
  assert (2 ^ 1 <= 2 ^ prefix) by (apply Z.pow_le_mono_r; lia).
  destruct (Z.ltb_spec value (2 ^ prefix - 1)).
  - rewrite Z.min_l by lia. done.
  - rewrite Z.min_r, encodeVInt_loop_ok by (cbn; lia). by rewrite <- app_assoc.
Qed.

(** The continuation loop reads the groups back. *)
Lemma group_byte v :
  b2z (z2b (Z.lor 0x80 (Z.land v 0x7f))) = 128 + v mod 128.
Proof.
  change 0x7f with (Z.ones 7). rewrite Z.land_ones by lia. change (2 ^ 7) with 128.
  pose proof (Z.mod_pos_bound v 128 ltac:(lia)).
  pose proof (lor_shiftl_add 1 (v mod 128) 7 ltac:(lia) ltac:(lia)) as Hl.
  change (Z.shiftl 1 7) with 0x80 in Hl. rewrite Hl, b2z_z2b. apply Z.mod_small. lia.
Qed.

Lemma land_low7 b : Z.land b 0x7f = b mod 128.
Proof. change 0x7f with (Z.ones 7). apply Z.land_ones. lia. Qed.

(** The continuation bit. *)
Lemma land_bit7 b : 0 <= b < 256 -> (Z.land b 0x80 =? 0) = (b <? 128).
Proof.
  intros Hb. assert (Hin : In b HuffmanFacts.all_idx) by by apply HuffmanFacts.all_idx_in.
  assert (H : forallb (fun b => Bool.eqb (Z.land b 0x80 =? 0) (b <? 128)) HuffmanFacts.all_idx = true)
    by (vm_compute; done).
  rewrite forallb_forall in H. apply Bool.eqb_prop, H, Hin.
Qed.

Lemma decodeVInt_loop_ok gfuel fuel view shift acc v l :
  reads view (groups gfuel v ++ l) -> 0 <= v < 2 ^ (7 * Z.of_nat gfuel) -> (0 < gfuel)%nat ->
  0 <= shift -> v * 2 ^ shift < 2 ^ 63 -> shift < 63 -> 63 <= shift + 7 * Z.of_nat fuel ->
  0 <= acc -> acc + v * 2 ^ shift < 2 ^ 64 ->
  exists view', decodeVInt_loop fuel view shift acc = Ok (Some (acc + v * 2 ^ shift, view'))
    /\ reads view' l /\ follows view view'.
Proof.
  revert fuel view shift acc v. induction gfuel as [|gfuel IH];
    intros fuel view shift acc v Hr Hv Hg Hs Hvs Hs63 Hf Ha Hav; [lia|].
  destruct fuel as [|fuel]; [lia|]. cbn [decodeVInt_loop groups] in *. rewrite Z.geb_leb in Hr.
  assert (Hp : 0 < 2 ^ shift) by (apply Z.pow_pos_nonneg; lia).
  assert (Hne : exists b k, (if 128 <=? v then z2b (Z.lor 0x80 (Z.land v 0x7f)) :: groups gfuel (Z.shiftr v 7)
    else [z2b v]) ++ l = b :: k) by (destruct (128 <=? v); cbn; eauto).
  assert (Hemp : ByteSpan.empty view = false).
  { apply ByteSpan.empty_false_rest; [apply Hr|]. destruct Hr as [_ ->]. by destruct Hne as (b & k & ->). }
  rewrite Hemp. cbn [negb]. clear Hne.
  destruct (Z.leb_spec 128 v) as [Hge|Hlt].
  - cbn [app] in Hr. destruct (reads_byte _ _ _ Hr) as (sp1 & -> & Hr1 & Hf1 & _). cbn [obind].
    rewrite group_byte, land_low7. pose proof (Z.mod_pos_bound v 128 ltac:(lia)) as Hm.
    replace ((128 + v mod 128) mod 128) with (v mod 128)
      by (rewrite <- Z.add_mod_idemp_l, Z.mod_same, Z.add_0_l, Z.mod_mod by lia; done).
    rewrite land_bit7 by lia. destruct (Z.ltb_spec (128 + v mod 128) 128); [lia|].
    rewrite Z.shiftl_mul_pow2 by lia.
    assert (Hdm : v = 128 * (v / 128) + v mod 128) by (apply Z.div_mod; lia).
    assert (v mod 128 * 2 ^ shift <= v * 2 ^ shift) by nia.
    rewrite (u64_small (v mod 128 * 2 ^ shift)), u64_small by lia.
    assert (Hs7 : shift + 7 < 63).
    { destruct (Z.lt_ge_cases (shift + 7) 63); [done|].
      assert (2 ^ 63 <= 2 ^ (shift + 7)) by (apply Z.pow_le_mono_r; lia).
      rewrite Z.pow_add_r in * by lia. change (2 ^ 7) with 128 in *. nia. }
    rewrite u8_small, Z.geb_leb by lia. destruct (Z.leb_spec 63 (shift + 7)); [lia|].
    rewrite Z.shiftr_div_pow2 in Hr1 by lia. change (2 ^ 7) with 128 in Hr1.
    assert (Hpow : 2 ^ (shift + 7) = 128 * 2 ^ shift) by (rewrite Z.pow_add_r by lia; change (2 ^ 7) with 128; lia).
    assert (Hv7 : v / 128 < 2 ^ (7 * Z.of_nat gfuel)).
    { apply Z.div_lt_upper_bound; [lia|]. change 128 with (2 ^ 7). rewrite <- Z.pow_add_r by lia.
      replace (7 + 7 * Z.of_nat gfuel) with (7 * Z.of_nat (S gfuel)) by lia. lia. }
    assert (0 <= v / 128) by (apply Z.div_pos; lia).
    destruct (IH fuel sp1 (shift + 7) (acc + v mod 128 * 2 ^ shift) (v / 128))
      as (sp2 & -> & Hr2 & Hf2); [done|lia| |lia|rewrite Hpow; nia|lia|lia|nia|rewrite Hpow; nia|].
    { destruct gfuel; [|lia]. change (2 ^ (7 * Z.of_nat 0)) with 1 in Hv7. change (2 ^ (7 * Z.of_nat 1)) with 128 in Hv. lia. }
    exists sp2. rewrite Hpow. split_and!; [do 3 f_equal; nia|done|]. by eapply follows_trans.
  - cbn [app] in Hr. destruct (reads_byte _ _ _ Hr) as (sp1 & -> & Hr1 & Hf1 & _). cbn [obind].
    rewrite b2z_z2b, Z.mod_small, land_low7, land_bit7, Z.mod_small by lia.
    destruct (Z.ltb_spec v 128); [|lia]. rewrite Z.shiftl_mul_pow2 by lia.
    rewrite (u64_small (v * 2 ^ shift)), u64_small by nia. eauto.
Qed.

Lemma land_prefix b prefix : 0 <= prefix -> Z.land b (2 ^ prefix - 1) = b mod 2 ^ prefix.
Proof. intros. rewrite Z.sub_1_r, <- Z.ones_equiv. by apply Z.land_ones. Qed.

(** A first byte [b] carrying [value]'s prefix below its flag bits. *)
Lemma decodeVInt_ok sp prefix value b l :
  1 <= prefix <= 8 -> 0 <= value < 2 ^ 63 + (2 ^ prefix - 1) ->
  b2z b mod 2 ^ prefix = vint_head prefix value ->
  reads sp (b :: vint_tail prefix value ++ l) ->
  exists sp', decodeVInt sp prefix = Ok (Some value, sp') /\ reads sp' l /\ follows sp sp'.
Proof.
  intros Hp Hv Hb Hr. unfold decodeVInt. pose proof Hr as [Hwf Hrest].
  rewrite Z.gtb_ltb. destruct (Z.ltb_spec prefix 1); [lia|]. destruct (Z.ltb_spec 8 prefix); [lia|].
  cbn [orb]. rewrite (proj2 (ByteSpan.empty_false_rest sp Hwf)) by (by rewrite Hrest).
  destruct (reads_byte _ _ _ Hr) as (sp1 & -> & Hr1 & Hf1 & _). cbn [obind].
  rewrite max_prefix, land_prefix, Hb by lia. unfold vint_head, vint_tail in *.
  assert (2 ^ 1 <= 2 ^ prefix <= 2 ^ 8) by (split; apply Z.pow_le_mono_r; lia).
  destruct (Z.ltb_spec value (2 ^ prefix - 1)).
  - rewrite Z.min_l by lia. destruct (Z.ltb_spec value (2 ^ prefix - 1)); [|lia].
    rewrite advance_follows by done. cbn. eauto.
  - rewrite Z.min_r by lia. destruct (Z.ltb_spec (2 ^ prefix - 1) (2 ^ prefix - 1)); [lia|].
    destruct (decodeVInt_loop_ok 10 10 sp1 0 (2 ^ prefix - 1) (value - (2 ^ prefix - 1)) l)
      as (sp2 & -> & Hr2 & Hf2); [done|change (2 ^ (7 * Z.of_nat 10)) with (2 ^ 70); lia|lia|lia
       |rewrite Z.pow_0_r; lia|lia|lia|lia|rewrite Z.pow_0_r; lia|].
    cbn [obind]. rewrite Z.pow_0_r. assert (follows sp sp2) by (by eapply follows_trans).
    rewrite advance_follows by done. exists sp2.
    replace (2 ^ prefix - 1 + (value - (2 ^ prefix - 1)) * 1) with value by lia. done.
Qed.

(** On any input the decoder of integers returns; on failure the caller's
    position is untouched. *)
Lemma decodeVInt_loop_total fuel view shift acc :
  ByteSpan.wf view -> 0 <= shift < 63 -> 63 <= shift + 7 * Z.of_nat fuel -> 0 <= acc < 2 ^ 64 ->
  exists o, decodeVInt_loop fuel view shift acc = Ok o /\
    forall v view', o = Some (v, view') -> follows view view' /\ 0 <= v < 2 ^ 64.
Proof.
  revert view shift acc. induction fuel as [|fuel IH]; intros view shift acc Hwf Hs Hf Ha; [lia|].
  cbn [decodeVInt_loop]. destruct (ByteSpan.empty view) eqn:He; cbn [negb]; [by exists None|].
  apply ByteSpan.empty_false_rest in He; [|done].
  destruct (ByteSpan.rest view) as [|b l] eqn:Hrest; [done|].
  destruct (reads_byte view b l) as (sp1 & -> & Hr1 & Hf1 & _); [by split|]. cbn [obind].
  set (acc' := u64 (acc + _)). assert (Ha' : 0 <= acc' < 2 ^ 64) by (apply Z.mod_pos_bound; lia).
  destruct (Z.land (b2z b) 128 =? 0).
  { eexists. split; [done|]. intros v view' [= <- <-]. done. }
  rewrite u8_small, Z.geb_leb by lia. destruct (Z.leb_spec 63 (shift + 7)); [by exists None|].
  destruct (IH sp1 (shift + 7) acc') as (o & -> & Ho); [apply Hr1|lia|lia|done|].
  exists o. split; [done|]. intros v view' Hv. destruct (Ho v view' Hv). split; [|done].
  by eapply follows_trans.
Qed.

Lemma decodeVInt_total sp prefix :
  ByteSpan.wf sp -> 1 <= prefix <= 8 ->
  exists o sp', decodeVInt sp prefix = Ok (o, sp') /\ follows sp sp' /\
    match o with
    | None => sp' = sp
    | Some v => 0 <= v < 2 ^ 64 /\ ByteSpan.cur sp < ByteSpan.cur sp'
    end.
Proof.
  intros Hwf Hp. unfold decodeVInt. rewrite Z.gtb_ltb.
  destruct (Z.ltb_spec prefix 1); [lia|]. destruct (Z.ltb_spec 8 prefix); [lia|]. cbn [orb].
  destruct (ByteSpan.empty sp) eqn:He; [exists None, sp; auto using follows_refl|].
  apply ByteSpan.empty_false_rest in He; [|done].
  destruct (ByteSpan.rest sp) as [|b l] eqn:Hrest; [done|].
  destruct (reads_byte sp b l) as (sp1 & -> & Hr1 & Hf1 & Hc1); [by split|]. cbn [obind].
  rewrite max_prefix, land_prefix by lia. set (v0 := b2z b mod 2 ^ prefix).
  assert (0 <= v0 < 2 ^ 8).
  { assert (0 < 2 ^ prefix <= 2 ^ 8) by (split; [apply Z.pow_pos_nonneg|apply Z.pow_le_mono_r]; lia).
    pose proof (Z.mod_pos_bound (b2z b) (2 ^ prefix)). unfold v0. lia. }
  destruct (v0 <? 2 ^ prefix - 1).
  { rewrite advance_follows by done. cbn [obind]. exists (Some v0), sp1. split_and!; try done; lia. }
  destruct (decodeVInt_loop_total 10 sp1 0 v0) as (o & -> & Ho); [apply Hr1|lia..|]. cbn [obind].
  destruct o as [[v sp2]|]; [|exists None, sp; auto using follows_refl].
  destruct (Ho v sp2 eq_refl) as [Hf2 Hv]. assert (follows sp sp2) by (by eapply follows_trans).
  rewrite advance_follows by done. cbn [obind]. exists (Some v), sp2.
  destruct Hf2 as (_ & _ & ?). split_and!; try done; lia.
Qed.

(** ** Strings *)

(** Setting flag bits above the prefix. *)
Lemma or_at_ok buffer b l prefix flag :
  1 <= prefix <= 7 -> 0 <= b2z b < 2 ^ prefix -> (exists a, flag = Z.shiftl a prefix) ->
  0 <= flag < 256 - b2z b ->
  exists b', or_at (zlen buffer) flag (buffer ++ b :: l) = Ok (buffer ++ b' :: l)
    /\ b2z b' = flag + b2z b.
Proof.
  intros Hp Hb [a Ha] Hf. exists (z2b (Z.lor (b2z b) flag)). unfold or_at, znth.
  destruct (Z.ltb_spec (zlen buffer) 0); [zlen_lia|].
  unfold zlen. rewrite Nat2Z.id, list_lookup_middle by done. split.
  - by rewrite insert_app_r_alt, Nat.sub_diag by lia.
  - rewrite b2z_z2b, Ha, Z.lor_comm, lor_shiftl_add by lia.
    rewrite Ha, Z.shiftl_mul_pow2 in Hf by lia. rewrite Z.shiftl_mul_pow2 by lia. apply Z.mod_small. lia.
Qed.

Lemma vint_head_range prefix value :
  1 <= prefix <= 8 -> 0 <= value ->
  0 <= vint_head prefix value <= 2 ^ prefix - 1 /\
  b2z (z2b (vint_head prefix value)) = vint_head prefix value.
Proof.
  intros Hp Hv. unfold vint_head.
  assert (2 ^ 1 <= 2 ^ prefix <= 2 ^ 8) by (split; apply Z.pow_le_mono_r; lia).
  split; [lia|]. rewrite b2z_z2b. apply Z.mod_small. lia.
Qed.

(** An integer written below flag bits, as every representation does. *)
Lemma flagged_vint_ok buffer prefix value flag :
  1 <= prefix <= 7 -> 0 <= value < 2 ^ 63 ->
  (exists a, flag = Z.shiftl a prefix) -> 0 <= flag <= 256 - 2 ^ prefix ->
  exists b, b2z b = flag + vint_head prefix value /\
    (forall l, or_at (zlen buffer) flag (buffer ++ (z2b (vint_head prefix value) :: vint_tail prefix value) ++ l)
     = Ok (buffer ++ (b :: vint_tail prefix value) ++ l)) /\
    forall sp l, reads sp ((b :: vint_tail prefix value) ++ l) ->
      exists sp', decodeVInt sp prefix = Ok (Some value, sp') /\ reads sp' l /\ follows sp sp'.
Proof.
  intros Hp Hv Hflag Hf. destruct (vint_head_range prefix value) as [Hh Hb]; [lia..|].
  destruct (or_at_ok buffer (z2b (vint_head prefix value)) [] prefix flag) as (b & _ & Hb');
    [lia|lia|done|lia|]. exists b. rewrite Hb in Hb'. split; [done|]. split.
  - intros l. destruct (or_at_ok buffer (z2b (vint_head prefix value)) (vint_tail prefix value ++ l) prefix flag)
      as (b2 & He & Hb2); [lia|lia|done|lia|]. cbn [app]. rewrite He.
    assert (b2 = b) as -> by (apply b2z_inj; lia). done.
  - intros sp l Hr. assert (2 ^ 1 <= 2 ^ prefix) by (apply Z.pow_le_mono_r; lia).
    apply (decodeVInt_ok sp prefix value b l); [lia|lia| |done].
    rewrite Hb'. destruct Hflag as [a ->]. rewrite Z.shiftl_mul_pow2, Z.add_comm, Z.mod_add by lia.
    apply Z.mod_small. lia.
Qed.

(** What a reader of an encoded string finds. *)
Definition string_code (s e : bytes) : Prop :=
  forall sp l, reads sp (e ++ l) ->
    exists sp', decodeString sp = Ok (Some s, sp') /\ reads sp' l /\ follows sp sp'.

Lemma reads_first sp x l :
  reads sp (x ++ l) -> ByteSpan.first sp (zlen x) = Ok x.
Proof.
  intros [Hwf Hr]. rewrite ByteSpan.first_ok; [|rewrite Hr; zlen_lia].
  rewrite Hr. by rewrite ztake_app_exact.
Qed.

Lemma reads_advance sp x l :
  reads sp (x ++ l) ->
  exists sp', ByteSpan.advance sp (u32 (zlen x)) = Ok sp' /\ reads sp' l /\ follows sp sp'.
Proof.
  intros [Hwf Hr]. destruct (ByteSpan.advance_ok sp (zlen x) Hwf) as (sp' & Ha & Hw' & Hr' & Hd & Hc);
    [rewrite Hr; zlen_lia|].
  assert (Hs : zlen x < 2 ^ 32).
  { pose proof Hwf as [? ?]. pose proof (ByteSpan.size_rest sp Hwf) as Hsz. rewrite Hr in Hsz.
    pose proof (u32_range (ByteSpan.len sp - ByteSpan.cur sp)). unfold ByteSpan.size in Hsz.
    zlen_lia. }
  pose proof (zlen_nonneg x). rewrite u32_small by lia. exists sp'. split; [done|].
  split; [split; [done|]; by rewrite Hr', Hr, zdrop_app_exact|]. split; [done|]. split; [done|lia].
Qed.

Lemma reads_size sp x l : reads sp (x ++ l) -> zlen x <= ByteSpan.size sp < 2 ^ 32.
Proof.
  intros [Hwf Hr]. pose proof (ByteSpan.size_rest sp Hwf) as Hsz. rewrite Hr in Hsz.
  pose proof (u32_range (ByteSpan.len sp - ByteSpan.cur sp)). unfold ByteSpan.size in *. zlen_lia.
Qed.

(** The body of [decodeString] after the length has been read. *)
Lemma encodeString_ok buffer s :
  zlen s < 2 ^ 32 ->
  exists e, encodeString buffer s = Ok (buffer ++ e) /\ string_code s e.
Proof.
  intros Hs. pose proof (zlen_nonneg s). unfold encodeString.
  destruct (HuffmanFacts.huffman_roundtrip s) as (d & Hd & Hdec).
  pose proof (HuffmanFacts.encodedLength_encode s d Hd) as Hlen. pose proof (zlen_nonneg d).
  destruct (Z.ltb_spec (Huffman.encodedLength s) (zlen s)).
  - rewrite encodeVInt_ok by lia. cbn [obind]. rewrite Hd. cbn [obind].
    destruct (flagged_vint_ok buffer 7 (Huffman.encodedLength s) 0x80) as (b & Hb & Hor & Hread);
      [lia|lia|by exists 1|lia|]. rewrite <- app_assoc, Hor.
    eexists. split; [done|]. intros sp l Hr. rewrite <- app_assoc in Hr. unfold decodeString.
    pose proof Hr as [Hwf Hrest].
    rewrite (proj2 (ByteSpan.empty_false_rest sp Hwf)) by (by rewrite Hrest).
    rewrite (reads_peek _ _ _ Hr). cbn [obind].
    destruct (vint_head_range 7 (Huffman.encodedLength s)) as [Hh _]; [lia..|].
    change (2 ^ 7 - 1) with 127 in Hh. pose proof (b2z_range b) as Hbr.
    rewrite land_bit7 by lia. destruct (Z.ltb_spec (b2z b) 128); [lia|]. cbn [negb].
    destruct (Hread sp _ Hr) as (sp1 & -> & Hr1 & Hf1). cbn [obind].
    rewrite Hlen in *. pose proof (reads_size _ _ _ Hr1).
    destruct (Z.ltb_spec (ByteSpan.size sp1) (zlen d)); [lia|].
    rewrite (u32_small (zlen d)) by lia. pose proof Hr1 as [Hwf1 Hrest1].
    rewrite ByteSpan.subspan_ok by (try rewrite Hrest1; done || zlen_lia). cbn [obind].
    rewrite Hrest1, ztake_app_exact. unfold ByteSpan.rest, ByteSpan.make. cbn [ByteSpan.cur ByteSpan.data].
    rewrite zdrop_0, Hdec. cbn [obind].
    destruct (reads_advance _ _ _ Hr1) as (sp2 & Ha & Hr2 & Hf2). rewrite u32_small in Ha by lia.
    rewrite Ha. cbn [obind]. exists sp2. split; [done|]. split; [done|]. by eapply follows_trans.
  - rewrite encodeVInt_ok by lia. cbn [obind]. rewrite <- app_assoc. eexists. split; [done|].
    intros sp l Hr. cbn [app] in Hr. rewrite <- app_assoc in Hr. unfold decodeString.
    destruct (vint_head_range 7 (zlen s)) as [Hh Hb]; [lia..|]. change (2 ^ 7 - 1) with 127 in Hh.
    pose proof Hr as [Hwf Hrest].
    rewrite (proj2 (ByteSpan.empty_false_rest sp Hwf)) by (by rewrite Hrest).
    rewrite (reads_peek _ _ _ Hr). cbn [obind].
    rewrite Hb, land_bit7 by lia. destruct (Z.ltb_spec (vint_head 7 (zlen s)) 128); [|lia]. cbn [negb].
    destruct (decodeVInt_ok sp 7 (zlen s) (z2b (vint_head 7 (zlen s))) (s ++ l)) as (sp1 & -> & Hr1 & Hf1);
      [lia|lia|rewrite Hb; apply Z.mod_small; lia|done|]. cbn [obind].
    pose proof (reads_size _ _ _ Hr1). destruct (Z.ltb_spec (ByteSpan.size sp1) (zlen s)); [lia|].
    rewrite (reads_first _ _ _ Hr1). cbn [obind].
    destruct (reads_advance _ _ _ Hr1) as (sp2 & -> & Hr2 & Hf2). cbn [obind].
    exists sp2. split; [done|]. split; [done|]. by eapply follows_trans.
Qed.

(** ** Header field representations *)

(** The two ends hold the same entries under the same maximum. *)
Definition in_sync (t1 t2 : HpackTable.t) : Prop :=
  wf t1 /\ wf t2 /\ HpackTable.entryTable t1 = HpackTable.entryTable t2
  /\ HpackTable.maxSize t1 = HpackTable.maxSize t2 /\ HpackTable.maxSize t1 < 2 ^ 32.

Lemma in_sync_at t1 t2 index :
  HpackTable.entryTable t1 = HpackTable.entryTable t2 ->
  HpackTable.at_ index t1 = HpackTable.at_ index t2.
Proof. unfold HpackTable.at_. by intros ->. Qed.

Lemma entries_bound l : 32 * zlen l <= bytes_of l.
Proof.
  induction l as [|h l IH]; [done|]. rewrite zlen_cons. cbn [bytes_of].
  pose proof (HeaderField.size_pos h). lia.
Qed.

Lemma at_bound tb index h :
  wf tb -> HpackTable.maxSize tb < 2 ^ 32 -> HpackTable.at_ index tb = Some h -> 0 < index < 2 ^ 63.
Proof.
  intros [[Hb _ _ _ _] Hle] Hm Hat. pose proof (entries_bound (HpackTable.entryTable tb)).
  apply at_cases in Hat. unfold static_size in Hat. lia.
Qed.

(** The index [find] gives the encoder is usable by the decoder. *)
Lemma find_index_bound h tb exact index :
  wf tb -> HpackTable.maxSize tb < 2 ^ 32 -> HpackTable.find h tb = (exact, index) ->
  0 <= index < 2 ^ 63 /\ (index <> 0 -> exists h', HpackTable.at_ index tb = Some h' /\
    HeaderField.name h' = HeaderField.name h).
Proof.
  intros Hwf Hm Hf. destruct (find_sound _ _ _ _ Hwf Hf) as (H0 & He & Hn).
  assert (Hat : index <> 0 -> exists h', HpackTable.at_ index tb = Some h' /\
    HeaderField.name h' = HeaderField.name h).
  { destruct exact; [|auto]. destruct He as (_ & h' & Hat & Hk); [done|]. intros _.
    exists h'. split; [done|]. unfold HpackTable.key in Hk. congruence. }
  split; [|done]. destruct (Z.eq_dec index 0); [lia|]. destruct Hat as (h' & Hat & _); [done|].
  pose proof (at_bound _ _ _ Hwf Hm Hat). lia.
Qed.

Definition field_ok (h : HeaderField.t) : Prop :=
  zlen (HeaderField.name h) < 2 ^ 32 /\ zlen (HeaderField.value h) < 2 ^ 32.

(** A decoder step leaves everything but cursor and table alone. *)
Definition same_limits (hp hp' : t) : Prop := decodeTableLimit hp' = decodeTableLimit hp.

(** [eh] starts a literal: a byte of [flag, flag + 2^prefix), then the index
    of the name or the name itself. *)
Definition head_code (tb : HpackTable.t) (prefix flag : Z) (name eh : bytes) : Prop :=
  exists b k, eh = b :: k /\ flag <= b2z b < flag + 2 ^ prefix /\
  forall hp l,
    HpackTable.entryTable (decodeTable hp) = HpackTable.entryTable tb ->
    reads (decodeBuffer hp) (eh ++ l) ->
    exists index sp1 sp2, decodeVInt (decodeBuffer hp) prefix = Ok (Some index, sp1) /\
      decode_name index (set_decodeBuffer sp1 hp) = Ok (Some name, set_decodeBuffer sp2 hp) /\
      reads sp2 l.

Lemma head_index tb prefix flag index name h b :
  1 <= prefix <= 7 -> HpackTable.at_ index tb = Some h -> HeaderField.name h = name -> 0 < index ->
  b2z b = flag + vint_head prefix index ->
  (forall sp l, reads sp ((b :: vint_tail prefix index) ++ l) ->
      exists sp', decodeVInt sp prefix = Ok (Some index, sp') /\ reads sp' l /\ follows sp sp') ->
  head_code tb prefix flag name (b :: vint_tail prefix index).
Proof.
  intros Hp Hat Hn Hi Hb Hread. destruct (vint_head_range prefix index) as [Hh _]; [lia..|].
  eexists _, _. split; [done|]. split; [lia|]. intros hp l Hsync Hr.
  destruct (Hread _ _ Hr) as (sp1 & Hd & Hr1 & _). exists index, sp1, sp1. split; [done|].
  split; [|done]. unfold decode_name. destruct (Z.eqb_spec index 0); [lia|].
  cbn [decodeTable set_decodeBuffer]. rewrite (in_sync_at _ tb) by done. rewrite Hat. cbn. by rewrite Hn.
Qed.

Lemma head_literal tb prefix flag name en :
  1 <= prefix <= 7 -> (exists a, flag = Z.shiftl a prefix) -> 0 <= flag <= 256 - 2 ^ prefix ->
  string_code name en ->
  head_code tb prefix flag name (z2b flag :: en).
Proof.
  intros Hp Hflag Hf Hn. assert (Hp2 : 2 ^ 1 <= 2 ^ prefix) by (apply Z.pow_le_mono_r; lia).
  assert (Hb : b2z (z2b flag) = flag) by (rewrite b2z_z2b; apply Z.mod_small; lia).
  eexists _, _. split; [done|]. split; [lia|]. intros hp l _ Hr.
  destruct (decodeVInt_ok (decodeBuffer hp) prefix 0 (z2b flag) (en ++ l)) as (sp1 & Hd & Hr1 & _);
    [lia|lia| | |].
  { rewrite Hb. destruct Hflag as [a ->]. rewrite Z.shiftl_mul_pow2, Z.mod_mul by lia.
    unfold vint_head. lia. }
  { unfold vint_tail. destruct (Z.ltb_spec 0 (2 ^ prefix - 1)); [done|lia]. }
  destruct (Hn _ _ Hr1) as (sp2 & Hs & Hr2 & _). exists 0, sp1, sp2. split; [done|].
  split; [|done]. unfold decode_name. cbn [Z.eqb decodeBuffer set_decodeBuffer]. rewrite Hs. done.
Qed.

(** A literal: head, then the value. *)
Lemma literal_ok tb prefix flag indexed sensitive name value eh ev hp acc l :
  head_code tb prefix flag name eh -> string_code value ev ->
  HpackTable.entryTable (decodeTable hp) = HpackTable.entryTable tb ->
  reads (decodeBuffer hp) ((eh ++ ev) ++ l) ->
  let h := HeaderField.mk name value sensitive in
  exists sp, decodeHeaderField acc prefix indexed sensitive hp
    = Ok (true, acc ++ [h],
          if indexed then set_decodeTable (HpackTable.insert h (decodeTable hp)) (set_decodeBuffer sp hp)
          else set_decodeBuffer sp hp) /\ reads sp l.
Proof.
  intros (b & k & -> & Hb & Hhead) Hv Hsync Hr. rewrite <- app_assoc in Hr.
  destruct (Hhead hp (ev ++ l) Hsync Hr) as (index & sp1 & sp2 & Hd & Hn & Hr2).
  destruct (Hv _ _ Hr2) as (sp3 & Hs & Hr3 & _). unfold decodeHeaderField.
  rewrite Hd. cbn [obind]. rewrite Hn. cbn [obind decodeBuffer set_decodeBuffer]. rewrite Hs.
  cbn [obind]. exists sp3. destruct indexed; done.
Qed.

(** Which representation a first byte selects. *)
Lemma shiftr_flag b prefix a :
  0 <= prefix -> 0 <= b - a * 2 ^ prefix < 2 ^ prefix -> Z.shiftr b prefix = a.
Proof.
  intros Hp Hb. rewrite Z.shiftr_div_pow2 by lia. symmetry.
  apply (Z.div_unique_pos _ _ _ (b - a * 2 ^ prefix)); lia.
Qed.

Lemma shiftr_range b prefix flag p :
  0 <= prefix <= p -> 0 <= flag <= b -> b < flag + 2 ^ prefix -> flag + 2 ^ prefix <= 2 ^ p ->
  Z.shiftr b p = 0.
Proof.
  intros. rewrite Z.shiftr_div_pow2 by lia. apply Z.div_small. lia.
Qed.

(** What a decoder finds when it reads the encoding [e] of [h]: the field,
    and the table the encoder moved to. *)
Definition field_code (tb tb' : HpackTable.t) (h : HeaderField.t) (e : bytes) : Prop :=
  e <> [] /\ forall hp acc l,
    in_sync tb (decodeTable hp) -> reads (decodeBuffer hp) (e ++ l) ->
    exists hp', decodeHeader acc hp = Ok (true, acc ++ [h], hp') /\
      reads (decodeBuffer hp') l /\ in_sync tb' (decodeTable hp') /\
      decodeTableLimit hp' = decodeTableLimit hp.

Lemma field_code_never tb h eh ev :
  HeaderField.sensitivity h = true ->
  head_code tb 4 0x10 (HeaderField.name h) eh -> string_code (HeaderField.value h) ev ->
  field_code tb tb h (eh ++ ev).
Proof.
  intros Hs Hh Hv. split; [by destruct Hh as (b & k & -> & _)|].
  intros hp acc l Hsync Hr. pose proof Hsync as (_ & _ & He & _).
  destruct (literal_ok tb 4 0x10 false true _ _ eh ev hp acc l Hh Hv) as (sp & Hd & Hr'); [done..|].
  destruct Hh as (b & k & -> & Hb & _). unfold decodeHeader.
  rewrite (reads_peek _ _ _ Hr). cbn [obind]. change (2 ^ 4) with 16 in Hb.
  rewrite (shiftr_range _ 4 0x10 7), (shiftr_range _ 4 0x10 6), (shiftr_range _ 4 0x10 5),
    (shiftr_flag _ 4 1) by lia. cbn [Z.eqb Pos.eqb]. rewrite Hd. destruct h as [n v s]. cbn in *. subst.
  eexists. split; [done|]. done.
Qed.

Lemma field_code_plain tb h eh ev :
  HeaderField.sensitivity h = false ->
  head_code tb 4 0 (HeaderField.name h) eh -> string_code (HeaderField.value h) ev ->
  field_code tb tb h (eh ++ ev).
Proof.
  intros Hs Hh Hv. split; [by destruct Hh as (b & k & -> & _)|].
  intros hp acc l Hsync Hr. pose proof Hsync as (_ & _ & He & _).
  destruct (literal_ok tb 4 0 false false _ _ eh ev hp acc l Hh Hv) as (sp & Hd & Hr'); [done..|].
  destruct Hh as (b & k & -> & Hb & _). unfold decodeHeader.
  rewrite (reads_peek _ _ _ Hr). cbn [obind]. change (2 ^ 4) with 16 in Hb.
  rewrite (shiftr_range _ 4 0 7), (shiftr_range _ 4 0 6), (shiftr_range _ 4 0 5),
    (shiftr_flag _ 4 0) by lia. cbn [Z.eqb Pos.eqb]. rewrite Hd. destruct h as [n v s]. cbn in *. subst.
  eexists. split; [done|]. done.
Qed.

Lemma in_sync_insert t1 t2 h :
  in_sync t1 t2 -> HeaderField.sensitivity h = false ->
  in_sync (HpackTable.insert h t1) (HpackTable.insert h t2).
Proof.
  intros (H1 & H2 & He & Hm & Hb) Hs.
  destruct (insert_spec h t1 H1 Hs) as (? & He1 & Hm1 & _).
  destruct (insert_spec h t2 H2 Hs) as (? & He2 & Hm2 & _).
  split; [done|]. split; [done|]. rewrite He1, He2, Hm1, Hm2, He, Hm. rewrite Hm in Hb. done.
Qed.

Lemma field_code_indexing tb h eh ev :
  HeaderField.sensitivity h = false ->
  head_code tb 6 0x40 (HeaderField.name h) eh -> string_code (HeaderField.value h) ev ->
  field_code tb (HpackTable.insert h tb) h (eh ++ ev).
Proof.
  intros Hs Hh Hv. split; [by destruct Hh as (b & k & -> & _)|].
  intros hp acc l Hsync Hr. pose proof Hsync as (_ & _ & He & _).
  destruct (literal_ok tb 6 0x40 true false _ _ eh ev hp acc l Hh Hv) as (sp & Hd & Hr'); [done..|].
  destruct Hh as (b & k & -> & Hb & _). unfold decodeHeader.
  rewrite (reads_peek _ _ _ Hr). cbn [obind]. change (2 ^ 6) with 64 in Hb.
  rewrite (shiftr_range _ 6 0x40 7), (shiftr_flag _ 6 1) by lia. cbn [Z.eqb Pos.eqb]. rewrite Hd.
  pose proof (in_sync_insert _ _ _ Hsync Hs) as Hi. destruct h as [n v s]. cbn in *. subst.
  eexists. split; [done|]. done.
Qed.

Lemma field_code_index tb h index b k :
  HpackTable.at_ index tb = Some h -> 128 <= b2z b ->
  (forall sp l, reads sp ((b :: k) ++ l) ->
      exists sp', decodeVInt sp 7 = Ok (Some index, sp') /\ reads sp' l /\ follows sp sp') ->
  field_code tb tb h (b :: k).
Proof.
  intros Hat Hb Hread. split; [done|]. intros hp acc l Hsync Hr. unfold decodeHeader.
  pose proof (b2z_range b). pose proof Hsync as (_ & _ & He & _).
  rewrite (reads_peek _ _ _ Hr). cbn [obind].
  rewrite (shiftr_flag _ 7 1) by lia. cbn [Z.eqb Pos.eqb]. unfold decodeIndexedHeader.
  destruct (Hread _ _ Hr) as (sp1 & -> & Hr1 & _). cbn [obind decodeTable set_decodeBuffer].
  rewrite <- (in_sync_at tb) by done. rewrite Hat. eexists. split; [done|]. done.
Qed.

(** ** The encoder's loop *)

(** The head of a literal, as each of the three representations writes it. *)
Lemma encode_head_ok buffer tb prefix flag index h :
  wf tb -> HpackTable.maxSize tb < 2 ^ 32 -> 1 <= prefix <= 7 ->
  (exists a, flag = Z.shiftl a prefix) -> 0 <= flag <= 256 - 2 ^ prefix ->
  (exists exact, HpackTable.find h tb = (exact, index)) -> zlen (HeaderField.name h) < 2 ^ 32 ->
  exists eh,
    (if index >? 0 then let! buffer' := encodeVInt buffer prefix index in or_at (zlen buffer) flag buffer'
     else encodeString (buffer ++ [z2b flag]) (HeaderField.name h)) = Ok (buffer ++ eh) /\
    (index > 0 -> flag = 0 -> encodeVInt buffer prefix index = Ok (buffer ++ eh)) /\
    head_code tb prefix flag (HeaderField.name h) eh.
Proof.
  intros Hwf Hm Hp Hflag Hf [exact Hfind] Hn.
  destruct (find_index_bound _ _ _ _ Hwf Hm Hfind) as [Hi Hat].
  rewrite Z.gtb_ltb. destruct (Z.ltb_spec 0 index).
  - destruct Hat as (h' & Hat & Hname); [lia|].
    destruct (flagged_vint_ok buffer prefix index flag) as (b & Hb & Hor & Hread); [lia|lia|done|lia|].
    rewrite encodeVInt_ok by lia. cbn [obind]. specialize (Hor []). rewrite !app_nil_r in Hor.
    rewrite Hor. exists (b :: vint_tail prefix index). split; [done|]. split.
    + intros _ ->. destruct (vint_head_range prefix index) as [_ Hh]; [lia..|].
      do 3 f_equal. apply b2z_inj. lia.
    + by eapply head_index.
  - destruct (encodeString_ok (buffer ++ [z2b flag]) _ Hn) as (en & -> & Hen).
    exists (z2b flag :: en). rewrite <- app_assoc. split; [done|]. split; [lia|].
    by apply head_literal.
Qed.

Lemma encode_header_ok buffer tb h :
  wf tb -> HpackTable.maxSize tb < 2 ^ 32 -> field_ok h ->
  exists e tb', encode_header buffer tb h = Ok (buffer ++ e, tb') /\ field_code tb tb' h e
    /\ wf tb' /\ HpackTable.maxSize tb' = HpackTable.maxSize tb.
Proof.
  intros Hwf Hm [Hn Hv]. unfold encode_header.
  destruct (HpackTable.find h tb) as [exact index] eqn:Hfind.
  assert (Hex : exists exact, HpackTable.find h tb = (exact, index)) by eauto.
  pose proof (find_index_bound _ _ _ _ Hwf Hm Hfind) as [Hi _].
  destruct (HeaderField.sensitivity h) eqn:Hs.
  - destruct (encode_head_ok buffer tb 4 0x10 index h) as (eh & He & _ & Hhead);
      [done|done|lia|by exists 1|lia|done|done|].
    unfold encodeNeverIndexLiteralHeader. rewrite Hs. cbn [assert_ obind].
    change [x10] with [z2b 0x10]. rewrite He. cbn [obind].
    destruct (encodeString_ok (buffer ++ eh) _ Hv) as (ev & -> & Hev). cbn [obind].
    exists (eh ++ ev), tb. rewrite <- app_assoc. auto using field_code_never.
  - destruct exact.
    { destruct (find_sound _ _ _ _ Hwf Hfind) as (_ & He & _).
      destruct He as (_ & h' & Hat & Hk); [done|].
      assert (h' = h) as -> by (pose proof (at_plain _ _ _ Hwf Hat); destruct h, h';
        unfold HpackTable.key in Hk; cbn in *; congruence).
      pose proof (at_bound _ _ _ Hwf Hm Hat). unfold encodeIndexedHeader.
      destruct (flagged_vint_ok buffer 7 index 0x80) as (b & Hb & Hor & Hread);
        [lia|lia|by exists 1|lia|].
      rewrite encodeVInt_ok by lia. cbn [obind]. specialize (Hor []). rewrite !app_nil_r in Hor.
      rewrite Hor. cbn [obind]. exists (b :: vint_tail 7 index), tb. split_and!; try done.
      destruct (vint_head_range 7 index) as [Hh _]; [lia..|].
      apply (field_code_index tb h index); [done|lia|done]. }
    destruct (couldIndex h tb).
    + destruct (encode_head_ok buffer tb 6 0x40 index h) as (eh & He & _ & Hhead);
        [done|done|lia|by exists 1|lia|done|done|].
      unfold encodeIndexLiteralHeader. rewrite Hs. cbn [assert_ negb obind].
      assert (He' : (if index >? 0 then let! buffer' := encodeVInt buffer 6 index in or_at (zlen buffer) 0x40 buffer'
         else let! _ := assert_ (index =? 0) in encodeString (buffer ++ [x40]) (HeaderField.name h))
         = Ok (buffer ++ eh)).
      { rewrite <- He. rewrite Z.gtb_ltb. destruct (Z.ltb_spec 0 index); [done|].
        assert (index = 0) as -> by lia. done. }
      rewrite He'. cbn [obind].
      destruct (encodeString_ok (buffer ++ eh) _ Hv) as (ev & -> & Hev). cbn [obind].
      destruct (insert_spec h tb Hwf Hs) as (? & _ & ? & _).
      exists (eh ++ ev), (HpackTable.insert h tb). rewrite <- app_assoc.
      auto using field_code_indexing.
    + destruct (encode_head_ok buffer tb 4 0 index h) as (eh & He & Hplain & Hhead);
        [done|done|lia|by exists 0|lia|done|done|].
      unfold encodeUnIndexLiteralHeader. rewrite Hs. cbn [assert_ negb obind].
      assert (He' : (if index >? 0 then encodeVInt buffer 4 index
         else let! _ := assert_ (index =? 0) in encodeString (buffer ++ [x00]) (HeaderField.name h))
         = Ok (buffer ++ eh)).
      { rewrite Z.gtb_ltb in *. destruct (Z.ltb_spec 0 index); [apply Hplain; lia|].
        assert (index = 0) as -> by lia. rewrite <- He. done. }
      rewrite He'. cbn [obind].
      destruct (encodeString_ok (buffer ++ eh) _ Hv) as (ev & -> & Hev). cbn [obind].
      exists (eh ++ ev), tb. rewrite <- app_assoc. auto using field_code_plain.
Qed.

(** A header list, as the decoder's loop finds it. *)
Definition block_code (tb tb' : HpackTable.t) (hs : list HeaderField.t) (e : bytes) : Prop :=
  forall fuel hp acc,
    in_sync tb (decodeTable hp) -> reads (decodeBuffer hp) e -> zlen e < Z.of_nat fuel ->
    exists hp', decode_loop fuel acc hp = Ok (true, acc ++ hs, hp') /\
      in_sync tb' (decodeTable hp') /\ decodeTableLimit hp' = decodeTableLimit hp.

Lemma block_code_nil tb : block_code tb tb [] [].
Proof.
  intros fuel hp acc Hsync [Hwf Hr] Hf. destruct fuel as [|fuel]; [zlen_lia|]. cbn [decode_loop].
  rewrite (proj2 (ByteSpan.empty_rest _ Hwf)) by done. cbn [negb]. rewrite app_nil_r. eauto.
Qed.

Lemma block_code_cons tb tb1 tb2 h hs e1 e2 :
  field_code tb tb1 h e1 -> block_code tb1 tb2 hs e2 -> block_code tb tb2 (h :: hs) (e1 ++ e2).
Proof.
  intros [Hne Hfield] Hblock fuel hp acc Hsync Hr Hf. pose proof Hr as [Hwf Hrest].
  destruct fuel as [|fuel]; [zlen_lia|]. cbn [decode_loop].
  rewrite (proj2 (ByteSpan.empty_false_rest _ Hwf)) by (rewrite Hrest; by destruct e1). cbn [negb].
  destruct (Hfield hp acc e2 Hsync Hr) as (hp1 & -> & Hr1 & Hsync1 & Hl1). cbn [obind negb].
  rewrite (Z.gtb_ltb (zlen _)). destruct (Z.ltb_spec (zlen acc) (zlen (acc ++ [h]))); [|zlen_lia].
  destruct (Hblock fuel (set_firstField false hp1) (acc ++ [h])) as (hp2 & -> & Hsync2 & Hl2); [done|done| |].
  { assert (0 < zlen e1) by (destruct e1; [done|zlen_lia]). zlen_lia. }
  exists hp2. rewrite <- app_assoc. split; [done|]. split; [done|]. cbn in Hl2. congruence.
Qed.

Lemma encode_headers_ok buffer tb hs :
  wf tb -> HpackTable.maxSize tb < 2 ^ 32 -> Forall field_ok hs ->
  exists e tb', encode_headers buffer tb hs = Ok (buffer ++ e, tb') /\ block_code tb tb' hs e
    /\ wf tb' /\ HpackTable.maxSize tb' = HpackTable.maxSize tb.
Proof.
  revert buffer tb. induction hs as [|h hs IH]; intros buffer tb Hwf Hm Hok; cbn [encode_headers].
  - exists [], tb. rewrite app_nil_r. auto using block_code_nil.
  - inversion Hok as [|? ? Hh Hhs]; subst.
    destruct (encode_header_ok buffer tb h Hwf Hm Hh) as (e1 & tb1 & -> & Hf1 & Hwf1 & Hm1).
    cbn [obind]. destruct (IH (buffer ++ e1) tb1) as (e2 & tb2 & -> & Hb2 & Hwf2 & Hm2); [done|lia|done|].
    exists (e1 ++ e2), tb2. rewrite <- app_assoc. split; [done|]. split; [by eapply block_code_cons|].
    split; [done|lia].
Qed.

(** ** Table size updates *)

(** A size update at the start of a block. *)
Lemma size_update_ok buffer size :
  0 <= size < 2 ^ 63 ->
  exists e, encodeTableSizeUpdate buffer size = Ok (buffer ++ e) /\ e <> [] /\
    forall hp acc l,
      firstField hp = true -> size <= decodeTableLimit hp -> reads (decodeBuffer hp) (e ++ l) ->
      exists sp, decodeHeader acc hp
        = Ok (true, acc, set_decodeTable (HpackTable.setMaxSize size (decodeTable hp)) (set_decodeBuffer sp hp))
        /\ reads sp l.
Proof.
  intros Hs. unfold encodeTableSizeUpdate.
  destruct (flagged_vint_ok buffer 5 size 0x20) as (b & Hb & Hor & Hread); [lia|lia|by exists 1|lia|].
  rewrite encodeVInt_ok by lia. cbn [obind]. specialize (Hor []). rewrite !app_nil_r in Hor. rewrite Hor.
  eexists. split; [done|]. split; [done|]. intros hp acc l Hfirst Hlim Hr.
  destruct (vint_head_range 5 size) as [Hh _]; [lia..|]. change (2 ^ 5) with 32 in Hh.
  destruct (Hread _ _ Hr) as (sp & Hd & Hr' & _). cbn [app] in Hr. unfold decodeHeader.
  rewrite (reads_peek _ _ _ Hr). cbn [obind].
  rewrite (shiftr_range _ 5 0x20 7), (shiftr_range _ 5 0x20 6), (shiftr_flag _ 5 1) by lia.
  cbn [Z.eqb Pos.eqb]. rewrite Hfirst. cbn [negb]. unfold decodeTableSizeUpdate. rewrite Hd.
  cbn [obind decodeTableLimit set_decodeBuffer]. rewrite Z.gtb_ltb.
  destruct (Z.ltb_spec (decodeTableLimit hp) size); [lia|]. cbn [obind]. eauto.
Qed.

(** One iteration of the decoder's loop for a size update. *)
Lemma decode_loop_update e size fuel hp acc l :
  (forall hp acc l,
      firstField hp = true -> size <= decodeTableLimit hp -> reads (decodeBuffer hp) (e ++ l) ->
      exists sp, decodeHeader acc hp
        = Ok (true, acc, set_decodeTable (HpackTable.setMaxSize size (decodeTable hp)) (set_decodeBuffer sp hp))
        /\ reads sp l) ->
  e <> [] -> firstField hp = true -> size <= decodeTableLimit hp -> reads (decodeBuffer hp) (e ++ l) ->
  exists sp, decode_loop (S fuel) acc hp
    = decode_loop fuel acc (set_decodeTable (HpackTable.setMaxSize size (decodeTable hp)) (set_decodeBuffer sp hp))
    /\ reads sp l.
Proof.
  intros Hstep Hne Hfirst Hlim Hr. pose proof Hr as [Hwf Hrest]. cbn [decode_loop].
  rewrite (proj2 (ByteSpan.empty_false_rest _ Hwf)) by (rewrite Hrest; by destruct e). cbn [negb].
  destruct (Hstep hp acc l Hfirst Hlim Hr) as (sp & -> & Hr'). cbn [obind negb].
  rewrite Z.gtb_ltb. destruct (Z.ltb_spec (zlen acc) (zlen acc)); [lia|]. eauto.
Qed.

(** ** Synchronised ends *)

(** [e] encodes for [d]: once the size updates [e] still owes are applied,
    the dynamic tables are the same. *)
Record synced (e d : t) : Prop := {
  sy_enc : wf (encodeTable e);
  sy_dec : wf (decodeTable d);
  sy_max : HpackTable.maxSize (encodeTable e) < 2 ^ 32;
  sy_limit : HpackTable.maxSize (encodeTable e) <= decodeTableLimit d;
  sy_tables :
    if encodeTableDirty e then
      0 <= encodeMinSize e <= HpackTable.maxSize (encodeTable e) /\
      HpackTable.entryTable (encodeTable e) = fit (encodeMinSize e) (HpackTable.entryTable (decodeTable d))
    else
      encodeMinSize e = SIZE_MAX /\
      HpackTable.entryTable (encodeTable e) = HpackTable.entryTable (decodeTable d) /\
      HpackTable.maxSize (encodeTable e) = HpackTable.maxSize (decodeTable d);
}.

Lemma synced_init : synced init init.
Proof. constructor; try done; apply init_wf. Qed.

Lemma synced_resize e d size :
  synced e d -> 0 <= size < 2 ^ 32 -> size <= decodeTableLimit d ->
  synced (setEncodeTableSize size e) d.
Proof.
  intros [He Hd Hm Hl Ht] Hs Hlim.
  destruct (setMaxSize_spec size (encodeTable e) He) as (Hwf & Het & Hms); [lia|].
  constructor; cbn [setEncodeTableSize encodeTable encodeTableDirty encodeMinSize]; try done; try lia.
  destruct (encodeTableDirty e).
  - destruct Ht as [Hmin Het2]. split; [lia|]. by rewrite Het, Het2, fit_fit.
  - destruct Ht as (Hmin & Het2 & Hmax). rewrite Hmin.
    replace (Z.min size SIZE_MAX) with size by (unfold SIZE_MAX; lia).
    split; [lia|]. by rewrite Het, Het2.
Qed.

(** The peer lowers or raises the limit of its decoder when the encoder takes
    the new size. *)
Lemma synced_limit e d size :
  synced e d -> 0 <= size < 2 ^ 32 -> synced (setEncodeTableSize size e) (setDecodeTableLimit size d).
Proof.
  intros [He Hd Hm Hl Ht] Hs.
  destruct (setMaxSize_spec size (encodeTable e) He) as (Hwf & Het & Hms); [lia|].
  destruct (setMaxSize_spec size (decodeTable d) Hd) as (Hwf' & Hdt & Hms'); [lia|].
  constructor; cbn [setEncodeTableSize setDecodeTableLimit encodeTable encodeTableDirty encodeMinSize decodeTable
    decodeTableLimit]; try done; try lia.
  destruct (encodeTableDirty e).
  - destruct Ht as [Hmin Het2]. split; [lia|]. rewrite Het, Het2, Hdt, !fit_fit. f_equal. lia.
  - destruct Ht as (Hmin & Het2 & Hmax). rewrite Hmin.
    replace (Z.min size SIZE_MAX) with size by (unfold SIZE_MAX; lia).
    split; [lia|]. rewrite Het, Het2, Hdt, fit_fit. f_equal. lia.
Qed.

Lemma synced_limits sizes e d :
  Forall (fun v => 0 <= v < 2 ^ 32) sizes -> synced e d ->
  synced (fold_left (fun h v => setEncodeTableSize v h) sizes e) (fold_left (fun h v => setDecodeTableLimit v h) sizes d).
Proof. intros Hs. revert e d. induction Hs; intros e d Hsync; cbn; [done|]. by apply IHHs, synced_limit. Qed.

Lemma setMaxSize_setMaxSize a b tb :
  wf tb -> 0 <= a -> 0 <= b ->
  HpackTable.entryTable (HpackTable.setMaxSize b (HpackTable.setMaxSize a tb))
  = fit (Z.min a b) (HpackTable.entryTable tb).
Proof.
  intros Hwf Ha Hb. destruct (setMaxSize_spec a tb Hwf Ha) as (Hwf1 & He1 & _).
  destruct (setMaxSize_spec b _ Hwf1 Hb) as (_ & He2 & _). rewrite He2, He1, fit_fit. f_equal. lia.
Qed.

(** The two forms of a pending update leave the decoder in sync. *)
Lemma updates_sync e d tb2 :
  synced e d -> encodeTableDirty e = true -> wf tb2 ->
  HpackTable.maxSize tb2 = HpackTable.maxSize (encodeTable e) ->
  HpackTable.entryTable tb2 = fit (encodeMinSize e) (HpackTable.entryTable (decodeTable d)) ->
  in_sync (encodeTable e) tb2.
Proof.
  intros [He Hd Hm Hl Ht] Hdirty Hwf Hmax Hent. rewrite Hdirty in Ht. destruct Ht as [_ Ht].
  split; [done|]. split; [done|]. rewrite Ht, Hent, Hmax. done.
Qed.

Lemma synced_after e d e' d' tb' :
  synced e d -> in_sync tb' (decodeTable d') -> decodeTableLimit d' = decodeTableLimit d ->
  encodeTable e' = tb' -> encodeTableDirty e' = false -> encodeMinSize e' = SIZE_MAX ->
  HpackTable.maxSize tb' = HpackTable.maxSize (encodeTable e) ->
  synced e' d'.
Proof.
  intros [_ _ Hm Hl _] (Hw1 & Hw2 & He & Hmx & Hb) Hlim <- Hd Hmin Hmax.
  constructor; rewrite ?Hd; try done. lia.
Qed.

(** What a decoder finds when it reads the pending updates [eu]: it is
    brought in sync with the encoder, at one byte per iteration at least. *)
Definition updates_code (e d : t) (eu : bytes) : Prop :=
  eu <> [] /\
  forall fuel hp acc l,
    firstField hp = true -> decodeTable hp = decodeTable d ->
    decodeTableLimit hp = decodeTableLimit d -> reads (decodeBuffer hp) (eu ++ l) ->
    (2 <= fuel)%nat ->
    exists hp' fuel', decode_loop fuel acc hp = decode_loop fuel' acc hp' /\
      (fuel <= fuel' + length eu)%nat /\ reads (decodeBuffer hp') l /\
      in_sync (encodeTable e) (decodeTable hp') /\ decodeTableLimit hp' = decodeTableLimit d.

Lemma two_updates_code e d e1 :
  synced e d -> encodeTableDirty e = true ->
  encodeTableSizeUpdate [] (encodeMinSize e) = Ok e1 ->
  exists eu, encodeTableSizeUpdate e1 (HpackTable.maxSize (encodeTable e)) = Ok eu /\
    updates_code e d eu.
Proof.
  intros Hsync Hdirty Hupd1. pose proof Hsync as [He Hd Hm Hl Ht]. rewrite Hdirty in Ht.
  destruct Ht as [Hmin Hent].
  destruct (size_update_ok [] (encodeMinSize e)) as (e1' & Heq & Hne1 & Hs1); [lia|].
  cbn [app] in Heq. assert (e1' = e1) as -> by congruence.
  destruct (size_update_ok e1 (HpackTable.maxSize (encodeTable e))) as (e2 & -> & Hne2 & Hs2); [lia|].
  exists (e1 ++ e2). split; [done|]. split; [by destruct e1|].
  intros fuel hp acc l Hfirst Htab Hlim Hr Hfuel. destruct fuel as [|[|fuel]]; [lia..|].
  rewrite <- app_assoc in Hr.
  destruct (decode_loop_update e1 _ (S fuel) hp acc (e2 ++ l) Hs1) as (sp1 & -> & Hr1);
    [done|done|lia|done|].
  destruct (decode_loop_update e2 _ fuel (set_decodeTable (HpackTable.setMaxSize (encodeMinSize e)
    (decodeTable hp)) (set_decodeBuffer sp1 hp)) acc l Hs2) as (sp2 & -> & Hr2);
    [done|done|cbn; lia|done|].
  eexists _, fuel. split; [done|].
  split; [rewrite length_app; destruct e1, e2; [done..|]; cbn; lia|]. split; [done|].
  split; [|done]. cbn [decodeTable set_decodeTable set_decodeBuffer]. rewrite Htab.
  destruct (setMaxSize_spec (encodeMinSize e) _ Hd) as (Hw1 & _ & _); [lia|].
  destruct (setMaxSize_spec (HpackTable.maxSize (encodeTable e)) _ Hw1) as (Hw2 & _ & Hm2); [lia|].
  apply (updates_sync e d); [done..|]. rewrite setMaxSize_setMaxSize by (done || lia). f_equal. lia.
Qed.

Lemma one_update_code e d :
  synced e d -> encodeTableDirty e = true ->
  HpackTable.maxSize (encodeTable e) <= encodeMinSize e ->
  exists eu, encodeTableSizeUpdate [] (HpackTable.maxSize (encodeTable e)) = Ok eu /\
    updates_code e d eu.
Proof.
  intros Hsync Hdirty Hge. pose proof Hsync as [He Hd Hm Hl Ht]. rewrite Hdirty in Ht.
  destruct Ht as [Hmin Hent].
  destruct (size_update_ok [] (HpackTable.maxSize (encodeTable e))) as (e2 & -> & Hne2 & Hs2); [lia|].
  exists e2. split; [done|]. split; [done|].
  intros fuel hp acc l Hfirst Htab Hlim Hr Hfuel. destruct fuel as [|fuel]; [lia|].
  destruct (decode_loop_update e2 _ fuel hp acc l Hs2) as (sp2 & -> & Hr2); [done|done|lia|done|].
  eexists _, fuel. split; [done|]. split; [destruct e2; [done|]; cbn; lia|]. split; [done|].
  split; [|done]. cbn [decodeTable set_decodeTable set_decodeBuffer]. rewrite Htab.
  destruct (setMaxSize_spec (HpackTable.maxSize (encodeTable e)) _ Hd) as (Hw2 & He2 & Hm2); [lia|].
  apply (updates_sync e d); [done..|]. rewrite He2. f_equal. lia.
Qed.

Lemma encode_updates_ok e d :
  synced e d -> encodeTableDirty e = true ->
  exists eu, encode_updates e
    = Ok (eu, mk (decodeBuffer e) (firstField e) (decodeTable e) (decodeTableLimit e)
                 (encodeTable e) false SIZE_MAX) /\ updates_code e d eu.
Proof.
  intros Hsync Hdirty. unfold encode_updates, HpackTable.getMaxSize. rewrite Hdirty.
  destruct (Z.ltb_spec (encodeMinSize e) (HpackTable.maxSize (encodeTable e))).
  - pose proof (sy_tables _ _ Hsync) as Ht. rewrite Hdirty in Ht. pose proof (sy_max _ _ Hsync).
    destruct (size_update_ok [] (encodeMinSize e)) as (e1 & Heq & _); [lia|]. cbn [app] in Heq.
    rewrite Heq. cbn [obind].
    destruct (two_updates_code e d e1 Hsync Hdirty Heq) as (eu & -> & Hc). cbn [obind]. eauto.
  - cbn [obind]. destruct (one_update_code e d Hsync Hdirty) as (eu & -> & Hc); [lia|].
    cbn [obind]. eauto.
Qed.

Lemma make_empty l : ByteSpan.empty (ByteSpan.make l) = bool_decide (l = []).
Proof.
  unfold ByteSpan.empty, ByteSpan.make, ByteSpan.len. cbn. rewrite Z.geb_leb.
  destruct l; [done|]. rewrite bool_decide_false by done. apply Z.leb_gt. zlen_lia.
Qed.

(** Decoding a block that starts with the pending updates. *)
Lemma decode_with_updates e d eu eb tb' hs acc :
  updates_code e d eu -> block_code (encodeTable e) tb' hs eb -> zlen (eu ++ eb) < 2 ^ 32 ->
  exists d', decode (ByteSpan.make (eu ++ eb)) acc d = Ok (true, acc ++ hs, d') /\
    in_sync tb' (decodeTable d') /\ decodeTableLimit d' = decodeTableLimit d.
Proof.
  intros [Hne Hread] Hblock Hlen. unfold decode.
  rewrite make_empty, bool_decide_false by (by destruct eu). cbn [ByteSpan.data ByteSpan.make].
  destruct (Hread (S (length (eu ++ eb)))
    (set_decodeBuffer (ByteSpan.make (eu ++ eb)) (set_firstField true d)) acc eb)
    as (hp' & fuel' & -> & Hf & Hr' & Hsy & Hlim'); [done..|by apply reads_make| |].
  { rewrite length_app. destruct eu; [done|]. cbn. lia. }
  rewrite length_app in Hf.
  destruct (Hblock fuel' hp' acc Hsy Hr') as (d' & -> & Hsy' & Hl'); [unfold zlen; lia|].
  exists d'. split; [done|]. split; [done|]. by rewrite Hl'.
Qed.

(** Decoding a block without updates. *)
Lemma decode_without_updates tb d eb tb' hs acc :
  in_sync tb (decodeTable d) -> block_code tb tb' hs eb -> zlen eb < 2 ^ 32 ->
  exists d', decode (ByteSpan.make eb) acc d = Ok (true, acc ++ hs, d') /\
    in_sync tb' (decodeTable d') /\ decodeTableLimit d' = decodeTableLimit d.
Proof.
  intros Hsy Hblock Hlen. unfold decode.
  set (hp := set_decodeBuffer (ByteSpan.make eb) (set_firstField true d)).
  destruct (Hblock (S (length eb)) hp acc Hsy) as (d' & Hd' & Hsy' & Hl');
    [by apply reads_make|unfold zlen; lia|].
  rewrite make_empty. cbn [ByteSpan.data ByteSpan.make]. destruct (decide (eb = [])) as [->|Hne].
  - rewrite bool_decide_true by done. cbn [decode_loop hp decodeBuffer set_decodeBuffer length] in Hd'.
    rewrite make_empty in Hd'. rewrite bool_decide_true in Hd' by done. cbn [negb] in Hd'.
    injection Hd' as Hacc Hd'. exists (set_firstField true d). rewrite <- Hacc, <- Hd' in *. done.
  - rewrite bool_decide_false by done. eauto.
Qed.

(** The block carries [hs] to any decoder synchronised with the encoder. *)
Lemma encode_decode_synced e d hs :
  synced e d -> Forall field_ok hs ->
  exists block e', encode hs e = Ok (block, e') /\
    (zlen block < 2 ^ 32 -> forall acc, exists d',
       decode (ByteSpan.make block) acc d = Ok (true, acc ++ hs, d') /\ synced e' d').
Proof.
  intros Hsync Hok. pose proof Hsync as [He Hd Hm Hl Ht]. unfold encode.
  destruct (encodeTableDirty e) eqn:Hdirty.
  - destruct (encode_updates_ok e d Hsync Hdirty) as (eu & -> & Hupd). cbn [obind encodeTable].
    destruct (encode_headers_ok eu (encodeTable e) hs He Hm Hok) as (eb & tb' & -> & Hblock & _ & Hmax').
    cbn [obind]. eexists _, _. split; [done|]. intros Hlen acc.
    destruct (decode_with_updates e d eu eb tb' hs acc Hupd Hblock Hlen) as (d' & -> & Hsy & Hlim).
    exists d'. split; [done|]. by eapply synced_after.
  - destruct Ht as (Hmin & Hent & Hmx). unfold encode_updates. rewrite Hdirty. cbn [obind].
    destruct (encode_headers_ok [] (encodeTable e) hs He Hm Hok) as (eb & tb' & -> & Hblock & _ & Hmax').
    cbn [obind app]. eexists _, _. split; [done|]. intros Hlen acc.
    destruct (decode_without_updates (encodeTable e) d eb tb' hs acc) as (d' & -> & Hsy & Hlim); [done..|].
    exists d'. split; [done|]. by eapply synced_after.
Qed.

(** ** The decoder is total *)

(** The decoder's part of the state, which [decode] keeps well formed... *)
Definition dec_wf (hp : t) : Prop :=
  wf (decodeTable hp) /\ HpackTable.maxSize (decodeTable hp) <= decodeTableLimit hp.

(** ... and the part it does not touch. *)
Definition enc_part (hp : t) : HpackTable.t * bool * Z * Z :=
  (encodeTable hp, encodeTableDirty hp, encodeMinSize hp, decodeTableLimit hp).

Lemma synced_encoder e e' d : enc_part e' = enc_part e -> synced e d -> synced e' d.
Proof. intros [= He Hd Hm _] []. constructor; rewrite ?He, ?Hd, ?Hm; done. Qed.

Lemma follows_rest sp sp' : ByteSpan.wf sp -> follows sp sp' -> zlen (ByteSpan.rest sp') <= zlen (ByteSpan.rest sp).
Proof.
  intros [? ?] ([? ?] & Hd & ?). unfold ByteSpan.rest, ByteSpan.len in *. rewrite Hd in *.
  rewrite !zlen_zdrop by lia. lia.
Qed.

Lemma advance_total sp n :
  ByteSpan.wf sp -> 0 <= n <= ByteSpan.size sp ->
  exists sp', ByteSpan.advance sp (u32 n) = Ok sp' /\ follows sp sp'.
Proof.
  intros Hwf Hn. rewrite ByteSpan.size_rest in Hn by done.
  destruct (ByteSpan.advance_ok sp n Hwf Hn) as (sp' & Ha & Hw & _ & Hd & Hc).
  pose proof Hwf as [? ?]. unfold ByteSpan.rest, ByteSpan.len in *. rewrite zlen_zdrop in Hn by lia.
  rewrite u32_small by lia. exists sp'. split; [done|]. split; [done|]. split; [done|lia].
Qed.

Lemma decodeString_total sp :
  ByteSpan.wf sp -> exists o sp', decodeString sp = Ok (o, sp') /\ follows sp sp'.
Proof.
  intros Hwf. unfold decodeString.
  destruct (ByteSpan.empty sp) eqn:He; [exists None, sp; auto using follows_refl|].
  apply ByteSpan.empty_false_rest in He; [|done].
  destruct (ByteSpan.rest sp) as [|b l] eqn:Hrest; [done|].
  rewrite (reads_peek sp b l) by by split. cbn [obind].
  destruct (decodeVInt_total sp 7 Hwf) as (o & sp1 & -> & Hf1 & Ho); [lia|]. cbn [obind].
  destruct o as [n|]; [|eauto]. destruct Ho as [Hn _].
  destruct (Z.ltb_spec (ByteSpan.size sp1) n); [eauto|].
  pose proof Hf1 as (Hwf1 & _). destruct (advance_total sp1 n Hwf1) as (sp2 & Ha & Hf2); [lia|].
  assert (Hf : follows sp sp2) by (by eapply follows_trans).
  rewrite ByteSpan.size_rest in * by done. destruct (negb _).
  - pose proof Hwf1 as [? ?]. unfold ByteSpan.len in *.
    assert (zlen (ByteSpan.rest sp1) < 2 ^ 32)
      by (unfold ByteSpan.rest; rewrite zlen_zdrop by lia; lia).
    rewrite (u32_small n) in * by lia.
    rewrite ByteSpan.subspan_ok by (done || lia). cbn [obind].
    destruct (HuffmanFacts.decode_sound (ByteSpan.rest (ByteSpan.make (ztake n (ByteSpan.rest sp1)))))
      as (r & s & -> & _). cbn [obind].
    destruct r; [rewrite Ha; cbn [obind]|]; eauto.
  - rewrite ByteSpan.first_ok by lia. cbn [obind]. rewrite Ha. cbn [obind]. eauto.
Qed.

(** What one field step keeps, and whether it consumed input. *)
Definition step_ok (hp hp' : t) : Prop :=
  follows (decodeBuffer hp) (decodeBuffer hp') /\ dec_wf hp' /\ enc_part hp' = enc_part hp.

Lemma decodeIndexedHeader_total acc hp :
  ByteSpan.wf (decodeBuffer hp) -> dec_wf hp ->
  exists b hs hp', decodeIndexedHeader acc hp = Ok (b, acc ++ hs, hp') /\ step_ok hp hp' /\
    (b = true -> ByteSpan.cur (decodeBuffer hp) < ByteSpan.cur (decodeBuffer hp')).
Proof.
  intros Hwf Hd. unfold decodeIndexedHeader.
  destruct (decodeVInt_total (decodeBuffer hp) 7 Hwf) as (o & sp & -> & Hf & Ho); [lia|]. cbn [obind].
  destruct o as [n|]; [|exists false, []; rewrite app_nil_r; by eexists].
  destruct Ho as [_ Hc]. destruct (HpackTable.at_ _ _) as [h|].
  - exists true, [h]. by eexists.
  - exists false, []. rewrite app_nil_r. by eexists.
Qed.

Lemma decodeTableSizeUpdate_total hp :
  ByteSpan.wf (decodeBuffer hp) -> dec_wf hp ->
  exists b hp', decodeTableSizeUpdate hp = Ok (b, hp') /\ step_ok hp hp' /\
    (b = true -> ByteSpan.cur (decodeBuffer hp) < ByteSpan.cur (decodeBuffer hp')).
Proof.
  intros Hwf Hd. unfold decodeTableSizeUpdate.
  destruct (decodeVInt_total (decodeBuffer hp) 5 Hwf) as (o & sp & -> & Hf & Ho); [lia|]. cbn [obind].
  destruct o as [n|]; [|exists false; by eexists]. destruct Ho as [Hn Hc].
  cbn [decodeTableLimit set_decodeBuffer]. rewrite Z.gtb_ltb.
  destruct (Z.ltb_spec (decodeTableLimit hp) n); [exists false; by eexists|].
  destruct Hd as [Hw Hl]. destruct (setMaxSize_spec n _ Hw) as (Hw' & _ & Hm); [lia|].
  exists true. eexists. split; [done|]. split; [|done]. split; [done|].
  split; [|done].
    split; cbn [decodeTable decodeTableLimit set_decodeTable set_decodeBuffer]; [done|lia].
Qed.

Lemma decode_name_total index hp :
  ByteSpan.wf (decodeBuffer hp) -> dec_wf hp ->
  exists o sp, decode_name index hp = Ok (o, set_decodeBuffer sp hp) /\ follows (decodeBuffer hp) sp.
Proof.
  intros Hwf Hd. unfold decode_name. destruct (index =? 0).
  - destruct (decodeString_total _ Hwf) as (o & sp & -> & Hf). cbn [obind]. eauto.
  - exists (option_map HeaderField.name (HpackTable.at_ index (decodeTable hp))), (decodeBuffer hp).
    split; [by destruct hp|]. by apply follows_refl.
Qed.

Lemma decodeHeaderField_total acc prefix indexed sensitive hp :
  ByteSpan.wf (decodeBuffer hp) -> dec_wf hp -> 1 <= prefix <= 8 ->
  (indexed = true -> sensitive = false) ->
  exists b hs hp', decodeHeaderField acc prefix indexed sensitive hp = Ok (b, acc ++ hs, hp') /\
    step_ok hp hp' /\
    (b = true -> ByteSpan.cur (decodeBuffer hp) < ByteSpan.cur (decodeBuffer hp')).
Proof.
  intros Hwf Hd Hp Hsens. unfold decodeHeaderField.
  assert (Hfail : forall sp, follows (decodeBuffer hp) sp ->
    exists b hs hp', Ok (false, acc, set_decodeBuffer sp hp) = Ok (b, acc ++ hs, hp') /\
      step_ok hp hp' /\ (b = true -> ByteSpan.cur (decodeBuffer hp) < ByteSpan.cur (decodeBuffer hp'))).
  { intros sp Hf. exists false, []. rewrite app_nil_r. by eexists. }
  destruct (decodeVInt_total (decodeBuffer hp) prefix Hwf Hp) as (o & sp1 & -> & Hf1 & Ho). cbn [obind].
  destruct o as [n|]; [|by apply Hfail]. destruct Ho as [_ Hc]. pose proof Hf1 as (Hwf1 & _).
  destruct (decode_name_total n (set_decodeBuffer sp1 hp)) as (o & sp2 & -> & Hf2); [done..|].
  cbn [obind decodeBuffer set_decodeBuffer] in *. pose proof Hf2 as (Hwf2 & _ & Hc2).
  assert (Hf12 : follows (decodeBuffer hp) sp2) by (by eapply follows_trans).
  destruct o as [name|]; [|by apply Hfail].
  destruct (decodeString_total sp2 Hwf2) as (o & sp3 & -> & Hf3). cbn [obind].
  assert (Hf13 : follows (decodeBuffer hp) sp3) by (by eapply follows_trans).
  destruct Hf3 as (_ & _ & Hc3). destruct o as [value|]; [|by apply Hfail].
  set (h := HeaderField.mk name value sensitive). exists true, [h]. eexists. split; [done|].
  destruct indexed; cbn [decodeTable set_decodeBuffer].
  - destruct Hd as [Hw Hl]. destruct (insert_spec h _ Hw) as (Hw' & _ & Hm & _); [by apply Hsens|].
    split; [|cbn; lia]. split; [done|]. split; [|done].
    split; cbn [decodeTable decodeTableLimit set_decodeTable set_decodeBuffer]; [done|lia].
  - split; [done|cbn; lia].
Qed.

Lemma decodeHeader_total acc hp :
  ByteSpan.wf (decodeBuffer hp) -> dec_wf hp -> ByteSpan.empty (decodeBuffer hp) = false ->
  exists b hs hp', decodeHeader acc hp = Ok (b, acc ++ hs, hp') /\ step_ok hp hp' /\
    (b = true -> ByteSpan.cur (decodeBuffer hp) < ByteSpan.cur (decodeBuffer hp')).
Proof.
  intros Hwf Hd He. unfold decodeHeader. apply ByteSpan.empty_false_rest in He; [|done].
  destruct (ByteSpan.rest _) as [|b l] eqn:Hrest; [done|].
  rewrite (reads_peek _ b l) by by split. cbn [obind].
  destruct (_ =? 1); [exact (decodeIndexedHeader_total acc hp Hwf Hd)|].
  assert (H6 : 1 <= 6 <= 8) by lia. assert (H4 : 1 <= 4 <= 8) by lia.
  destruct (_ =? 1); [exact (decodeHeaderField_total acc 6 true false hp Hwf Hd H6 (fun _ => eq_refl))|].
  destruct (_ =? 1).
  { destruct (firstField hp); cbn [negb].
    - destruct (decodeTableSizeUpdate_total hp Hwf Hd) as (r & hp' & -> & Hs & Hc). cbn [obind].
      exists r, [], hp'. by rewrite app_nil_r.
    - exists false, [], hp. rewrite app_nil_r. split; [done|]. split; [|discriminate].
      split; [by apply follows_refl|]. by split. }
  assert (Hn : forall b, false = true -> b = false) by discriminate.
  destruct (_ =? 1).
  - exact (decodeHeaderField_total acc 4 false true hp Hwf Hd H4 (Hn true)).
  - exact (decodeHeaderField_total acc 4 false false hp Hwf Hd H4 (Hn false)).
Qed.

Lemma decode_loop_total fuel acc hp :
  ByteSpan.wf (decodeBuffer hp) -> dec_wf hp -> zlen (ByteSpan.rest (decodeBuffer hp)) < Z.of_nat fuel ->
  exists b hs hp', decode_loop fuel acc hp = Ok (b, acc ++ hs, hp') /\ dec_wf hp' /\
    enc_part hp' = enc_part hp.
Proof.
  revert acc hp. induction fuel as [|fuel IH]; intros acc hp Hwf Hd Hf.
  { pose proof (zlen_nonneg (ByteSpan.rest (decodeBuffer hp))). lia. }
  cbn [decode_loop]. destruct (ByteSpan.empty (decodeBuffer hp)) eqn:He; cbn [negb].
  { exists true, [], hp. by rewrite app_nil_r. }
  destruct (decodeHeader_total acc hp Hwf Hd He) as (b & hs & hp1 & -> & (Hfol & Hd1 & Hp1) & Hc).
  cbn [obind]. destruct b; cbn [negb]; [|by exists false, hs, hp1].
  set (hp2 := if zlen (acc ++ hs) >? zlen acc then set_firstField false hp1 else hp1).
  assert (Hsame : decodeBuffer hp2 = decodeBuffer hp1 /\
    dec_wf hp2 /\ enc_part hp2 = enc_part hp1) by (unfold hp2; destruct (_ >? _); done).
  destruct Hsame as (Hb2 & Hd2 & Hp2). specialize (Hc eq_refl).
  destruct (IH (acc ++ hs) hp2) as (b & hs' & hp3 & -> & Hd3 & Hp3); [rewrite Hb2; apply Hfol|done| |].
  { rewrite Hb2. destruct Hfol as ([? ?] & Hdat & _). destruct Hwf as [? ?].
    unfold ByteSpan.rest, ByteSpan.len in *. rewrite Hdat in *. rewrite zlen_zdrop in * by lia. lia. }
  exists b, (hs ++ hs'), hp3. rewrite app_assoc. split; [done|]. split; [done|congruence].
Qed.

Lemma decode_total data acc hp :
  zlen data < 2 ^ 32 -> dec_wf hp ->
  exists b hs hp', decode (ByteSpan.make data) acc hp = Ok (b, acc ++ hs, hp') /\ dec_wf hp' /\
    enc_part hp' = enc_part hp.
Proof.
  intros Hl Hd. unfold decode. rewrite make_empty. case_if.
  - exists true, []. rewrite app_nil_r. by eexists.
  - assert (Hwf : ByteSpan.wf (ByteSpan.make data)) by by apply ByteSpan.wf_make.
    cbn [ByteSpan.data ByteSpan.make].
    destruct (decode_loop_total (S (length data)) acc
      (set_decodeBuffer (ByteSpan.make data) (set_firstField true hp))) as (b & hs & hp' & -> & ?);
      [done|done| |eauto].
    unfold ByteSpan.rest, zlen. cbn. rewrite zdrop_0. lia.
Qed.

(** ** The decoder leaves the encoder alone *)

(** Case analysis on a run of the decoder. *)
Ltac decoder_cases :=
  repeat match goal with
  | H : obind ?m _ = Ok _ |- _ =>
      let a := fresh "a" in let E := fresh "E" in apply obind_Ok_inv in H; destruct H as (a & E & H)
  | H : context [match ?x with _ => _ end] |- _ = _ => destruct x; cbn [negb] in H
  | H : Ok _ = Ok _ |- _ => progress simplify_eq
  | H : Fault _ = Ok _ |- _ => discriminate H
  end.

Lemma decodeHeaderField_enc_part acc prefix indexed sensitive hp b hs hp' :
  decodeHeaderField acc prefix indexed sensitive hp = Ok (b, hs, hp') -> enc_part hp' = enc_part hp.
Proof.
  unfold decodeHeaderField, decode_name. intros H. decoder_cases; try reflexivity.
Qed.

Lemma decodeHeader_enc_part acc hp b hs hp' :
  decodeHeader acc hp = Ok (b, hs, hp') -> enc_part hp' = enc_part hp.
Proof.
  unfold decodeHeader, decodeIndexedHeader, decodeTableSizeUpdate. intros H.
  decoder_cases; try reflexivity; by eapply decodeHeaderField_enc_part.
Qed.

Lemma decode_loop_enc_part fuel acc hp b hs hp' :
  decode_loop fuel acc hp = Ok (b, hs, hp') -> enc_part hp' = enc_part hp.
Proof.
  revert acc hp. induction fuel as [|fuel IH]; intros acc hp; [done|]. cbn [decode_loop].
  destruct (negb _); [|by intros [= _ _ <-]]. intros H. apply obind_Ok_inv in H as ([[b1 hs1] hp1] & E & H).
  apply decodeHeader_enc_part in E. destruct (negb b1); [by injection H as _ _ <-|].
  apply IH in H. rewrite H, <- E. by case_if.
Qed.

Lemma decode_enc_part data acc hp ok hs hp' :
  decode data acc hp = Ok (ok, hs, hp') -> enc_part hp' = enc_part hp.
Proof.
  unfold decode. destruct (ByteSpan.empty data); [by intros [= _ _ <-]|].
  intros H. by apply decode_loop_enc_part in H.
Qed.

(** ** The encoder is total *)

Definition enc_wf (hp : t) : Prop :=
  wf (encodeTable hp) /\ HpackTable.maxSize (encodeTable hp) < 2 ^ 32 /\
  (encodeTableDirty hp = true -> 0 <= encodeMinSize hp < 2 ^ 63) /\ 0 <= encodeMinSize hp <= SIZE_MAX.

Definition dec_part (hp : t) : HpackTable.t * Z * ByteSpan.t * bool :=
  (decodeTable hp, decodeTableLimit hp, decodeBuffer hp, firstField hp).

Lemma encode_total hs hp :
  enc_wf hp -> Forall field_ok hs ->
  exists block hp', encode hs hp = Ok (block, hp') /\ enc_wf hp' /\ dec_part hp' = dec_part hp.
Proof.
  intros (He & Hm & Hmin & Hrange) Hok. unfold encode.
  assert (Hupd : exists eu hp', encode_updates hp = Ok (eu, hp') /\ encodeTable hp' = encodeTable hp /\
    enc_wf hp' /\ dec_part hp' = dec_part hp).
  { unfold encode_updates, HpackTable.getMaxSize. destruct (encodeTableDirty hp) eqn:Hd.
    - specialize (Hmin eq_refl). pose proof (wf_max _ (proj1 He)).
      destruct (size_update_ok [] (encodeMinSize hp)) as (e1 & He1 & _); [lia|].
      destruct (_ <? _).
      + rewrite He1. cbn [obind].
        destruct (size_update_ok ([] ++ e1) (HpackTable.maxSize (encodeTable hp))) as (e2 & -> & _); [lia|].
        cbn [obind]. by do 2 eexists.
      + cbn [obind]. destruct (size_update_ok [] (HpackTable.maxSize (encodeTable hp))) as (e2 & -> & _); [lia|].
        cbn [obind]. by do 2 eexists.
    - exists [], hp. repeat (split; [done|]). split; [|done]. repeat (split; [done|]).
      rewrite Hd. done. }
  destruct Hupd as (eu & hp1 & -> & Het & (He1 & Hm1 & Hmin1 & Hr1) & Hdp). cbn [obind].
  destruct (encode_headers_ok eu (encodeTable hp1) hs) as (eb & tb' & -> & _ & Hwf' & Hmax'); [done..|].
  cbn [obind]. do 2 eexists. split; [done|]. split; [|done]. split; [done|]. split; [cbn; lia|done].
Qed.

(** ** Properties *)

(** The states of an encoder and of the peer's decoder after any exchange of
    header blocks and of [SETTINGS_HEADER_TABLE_SIZE] changes within the
    decoder's limit. *)
Inductive exchanged : t -> t -> Prop :=
| ex_init : exchanged init init
| ex_resize e d size :
    exchanged e d -> 0 <= size < 2 ^ 32 -> size <= decodeTableLimit d ->
    exchanged (setEncodeTableSize size e) d
| ex_block e d hs block e' hs' d' :
    exchanged e d -> Forall field_ok hs -> encode hs e = Ok (block, e') -> zlen block < 2 ^ 32 ->
    decode (ByteSpan.make block) [] d = Ok (true, hs', d') ->
    exchanged e' d'.

Lemma exchanged_synced e d : exchanged e d -> synced e d.
Proof.
  induction 1 as [|e d size _ IH|e d hs block e' hs' d' _ IH Hok He Hl Hd].
  - apply synced_init.
  - by apply synced_resize.
  - destruct (encode_decode_synced e d hs IH Hok) as (b & e2 & He' & Hdec).
    assert (b = block /\ e2 = e') as [-> ->] by (split; congruence).
    destruct (Hdec Hl []) as (d2 & Hd2 & Hs). congruence.
Qed.



(** C24: the decoder is safe on every input: for any bytes a peer sends as a
    header block it returns (no exception, no out-of-range access, no endless
    loop), only appends to the caller's list, keeps its table well formed and
    within the limit this end has set, and does not touch the encoder. *)
Theorem hpack_decode_safe data acc hp :
  zlen data < 2 ^ 32 -> dec_wf hp ->
  exists b hs hp', decode (ByteSpan.make data) acc hp = Ok (b, acc ++ hs, hp') /\
    dec_wf hp' /\ HpackTable.dynamicBytes (decodeTable hp') <= decodeTableLimit hp /\
    encodeTable hp' = encodeTable hp /\ decodeTableLimit hp' = decodeTableLimit hp.
Proof.
  intros Hl Hd. destruct (decode_total data acc hp Hl Hd) as (b & hs & hp' & He & Hd' & Hp).
  unfold enc_part in Hp. injection Hp as H1 _ _ H4. exists b, hs, hp'.
  split; [done|]. split; [done|]. destruct Hd' as [[_ Hb] Hm]. split; [lia|done].
Qed.

Lemma hpack_decode_safe_witness :
  exists b hs hp', decode (ByteSpan.make [x82; x3f; xe1; x1f; xbe]) [] init = Ok (b, [] ++ hs, hp') /\
    dec_wf hp' /\ HpackTable.dynamicBytes (decodeTable hp') <= decodeTableLimit init /\
    encodeTable hp' = encodeTable init /\ decodeTableLimit hp' = decodeTableLimit init.
Proof.
  apply (hpack_decode_safe [x82; x3f; xe1; x1f; xbe] [] init); [vm_compute; reflexivity|].
  split; [apply init_wf|vm_compute; discriminate].
Defined.

(** C25: prefixed integers round trip for every prefix width and every flag
    pattern above it, up to the largest value the decoder's nine continuation
    bytes can carry; the decoder consumes exactly the encoding. *)
Theorem vint_roundtrip buffer prefix value flag rest :
  1 <= prefix <= 8 -> 0 <= value < 2 ^ 63 + (2 ^ prefix - 1) ->
  (exists a, flag = Z.shiftl a prefix) -> 0 <= flag <= 256 - 2 ^ prefix ->
  zlen rest < 2 ^ 31 ->
  exists b k, encodeVInt buffer prefix value = Ok (buffer ++ z2b b :: k) /\ b < 2 ^ prefix /\
    exists sp', decodeVInt (ByteSpan.make (z2b (flag + b) :: k ++ rest)) prefix = Ok (Some value, sp') /\
      ByteSpan.rest sp' = rest.
Proof.
  intros Hp Hv [a Ha] Hf Hl. exists (vint_head prefix value), (vint_tail prefix value).
  assert (2 ^ 1 <= 2 ^ prefix <= 2 ^ 8) by (split; apply Z.pow_le_mono_r; lia).
  destruct (vint_head_range prefix value) as [Hh _]; [lia..|].
  split; [apply encodeVInt_ok; lia|]. split; [lia|].
  destruct (decodeVInt_ok (ByteSpan.make (z2b (flag + vint_head prefix value) :: vint_tail prefix value ++ rest))
    prefix value (z2b (flag + vint_head prefix value)) rest) as (sp' & Hd & [_ Hr] & _); [lia|lia| | |eauto].
  - rewrite b2z_z2b, (Z.mod_small (flag + _) 256) by lia. rewrite Ha, Z.shiftl_mul_pow2, Z.add_comm, Z.mod_add by lia.
    apply Z.mod_small. lia.
  - apply reads_make. rewrite zlen_cons, zlen_app.
    assert (zlen (vint_tail prefix value) <= 10); [|lia].
    assert (Hg : forall n v, zlen (groups n v) <= Z.of_nat n).
    { induction n as [|n IH]; intros v; cbn [groups]; [done|]. destruct (v >=? 128); rewrite zlen_cons.
      - specialize (IH (Z.shiftr v 7)). lia.
      - rewrite zlen_nil. lia. }
    unfold vint_tail. destruct (_ <? _); [rewrite zlen_nil; lia|apply (Hg 10%nat)].
Qed.

Lemma vint_roundtrip_witness :
  exists b k, encodeVInt [] 5 1337 = Ok ([] ++ z2b b :: k) /\ b < 2 ^ 5 /\
    exists sp', decodeVInt (ByteSpan.make (z2b (0x20 + b) :: k ++ [xff])) 5 = Ok (Some 1337, sp') /\
      ByteSpan.rest sp' = [xff].
Proof.
  apply (vint_roundtrip [] 5 1337 0x20 [xff]); [lia|lia|exists 1; reflexivity|lia|vm_compute; reflexivity].
Defined.
