(* ===== verification/HeaderRules.v ===== *)
(** * Header rules

    The helpers of the anonymous namespace of [src/http2_protocol.cpp] that
    inspect header fields and padded payloads, and the validation loop of
    [Http2Protocol::validateResponseHeaderBlock]. *)

From S2P Require Import Prelude Outcome ByteBuffer Types Frame.

(** ** Requests *)

Definition buildRequestHeaderFields (request : Request.t) : list HeaderField.t :=
  map (fun '(name, value) => HeaderField.mk name value false) (Request.headers request).

(** ** Characters and strings *)

(** A [char], signed as on the platforms the library builds for. *)
Definition char (b : byte) : Z := if b2z b <? 128 then b2z b else b2z b - 256.

Definition hasInvalidFieldNameChar (name : bytes) : bool :=
  existsb (fun b =>
    let ch := char b in
    (ch <=? 0x20) || ((ch >=? 0x41) && (ch <=? 0x5a)) || (ch >=? 0x7f)) name.

Definition hasInvalidFieldValue (value : bytes) : bool :=
  match value with
  | [] => false
  | b :: _ =>
      let first := b2z b in
      let last := b2z (List.last value b) in
      if (first =? 0x20) || (first =? 0x09) || (last =? 0x20) || (last =? 0x09) then true
      else existsb (fun c => (b2z c =? 0x00) || (b2z c =? 0x0a) || (b2z c =? 0x0d)) value
  end.

(** [if (c >= 'A' && c <= 'Z') c = c - 'A' + 'a']. *)
Definition ascii_lower (b : byte) : Z :=
  let c := char b in
  if (0x41 <=? c) && (c <=? 0x5a) then c - 0x41 + 0x61 else c.

(** The C string [rhs] has no NUL: its end is the end of the list. *)
Fixpoint equalsIgnoreCaseAscii (lhs rhs : bytes) : bool :=
  match lhs, rhs with
  | x :: lhs', y :: rhs' =>
      if negb (ascii_lower x =? ascii_lower y) then false else equalsIgnoreCaseAscii lhs' rhs'
  | [], [] => true
  | _, _ => false
  end.

Definition isConnectionSpecificHeader (header : HeaderField.t) : bool :=
  let name := HeaderField.name header in
  equalsIgnoreCaseAscii name (bs "connection")
  || equalsIgnoreCaseAscii name (bs "proxy-connection")
  || equalsIgnoreCaseAscii name (bs "keep-alive")
  || equalsIgnoreCaseAscii name (bs "upgrade")
  || equalsIgnoreCaseAscii name (bs "transfer-encoding")
  || equalsIgnoreCaseAscii name (bs "te").

Definition headerListSize (headers : list HeaderField.t) : Z :=
  fold_left (fun total h => total + (zlen (HeaderField.name h) + zlen (HeaderField.value h) + 32))
    headers 0.

(** ** Numbers *)

(** [None] is the result false. *)
Fixpoint parse_status_digits (code : Z) (value : bytes) : option Z :=
  match value with
  | [] => Some code
  | i :: value' =>
      if (char i <? 0x30) || (char i >? 0x39) then None
      else parse_status_digits (code * 10 + (char i - 0x30)) value'
  end.

Definition tryParseStatusCode (value : bytes) : option Z :=
  if negb (zlen value =? 3) then None
  else
    match parse_status_digits 0 value with
    | None => None
    | Some code => if (code <? 100) || (code >? 599) then None else Some code
    end.

(** A step of an [int64_t] accumulator: overflow is undefined. *)
Definition checked_i64 (z : Z) : outcome Z :=
  if (- 2 ^ 63 <=? z) && (z <? 2 ^ 63) then Ok z else undef "signed 64-bit overflow".

Fixpoint parse_length_digits (n : Z) (value : bytes) : outcome (option Z) :=
  match value with
  | [] => Ok (Some n)
  | i :: value' =>
      if (char i <? 0x30) || (char i >? 0x39) then Ok None
      else if n >? 1000000000000000 then Ok None
      else
        let! n := checked_i64 (n * 10 + (char i - 0x30)) in
        parse_length_digits n value'
  end.

Definition tryParseContentLength (value : bytes) : outcome (option Z) :=
  match value with [] => Ok None | _ => parse_length_digits 0 value end.

(** ** Padded payloads *)

(** [None] is the result true; otherwise the error code and debug data. *)
Definition validatePaddedPayload (frame : RawFrame.t) (fixedPrefixBytes : Z)
  : outcome (option (Z * bytes)) :=
  let header := RawFrame.header frame in
  let payloadLength := FrameHeader.payloadLength header in
  if negb (FrameHeader.hasAnyFlag FrameFlag.PADDED header) then
    if payloadLength <? fixedPrefixBytes
    then Ok (Some (ErrorCode.FRAME_SIZE_ERROR, bs "frame payload shorter than required prefix"))
    else Ok None
  else if payloadLength =? 0
  then Ok (Some (ErrorCode.PROTOCOL_ERROR, bs "PADDED frame missing pad length"))
  else
    let! padLength := ByteSpan.index (ByteSpan.make (RawFrame.data frame)) 0 in
    if payloadLength <? 1 + fixedPrefixBytes
    then Ok (Some (ErrorCode.FRAME_SIZE_ERROR, bs "frame payload shorter than padded prefix"))
    else
      let remaining := payloadLength - 1 - fixedPrefixBytes in
      if b2z padLength >=? remaining
      then Ok (Some (ErrorCode.PROTOCOL_ERROR, bs "padding exceeds frame payload"))
      else Ok None.

(** ** Response header blocks *)

(** The locals of the validation loop and the stream's declared length. *)
Record header_scan := mk_scan {
  sawRegularHeader : bool; sawStatus : bool; statusCode : Z; declaredLength : Z
}.

(** The body of the loop; [final] is [finalResponseHeadersReceived]. *)
Definition validate_header (final : bool) (header : HeaderField.t) (v : header_scan)
  : outcome (Z * header_scan) :=
  let name := HeaderField.name header in
  let reject := Ok (ErrorCode.PROTOCOL_ERROR, v) in
  if (zlen name =? 0) || hasInvalidFieldNameChar name then reject
  else if hasInvalidFieldValue (HeaderField.value header) then reject
  else if isConnectionSpecificHeader header then reject
  else if HeaderField.pseudo header then
    if sawRegularHeader v then reject
    else if final then reject
    else if negb (bool_decide (name = bs ":status")) then reject
    else if sawStatus v then reject
    else
      match tryParseStatusCode (HeaderField.value header) with
      | None => reject
      | Some code =>
          Ok (ErrorCode.NO_ERROR, mk_scan (sawRegularHeader v) true code (declaredLength v))
      end
  else
    let v := mk_scan true (sawStatus v) (statusCode v) (declaredLength v) in
    if existsb (fun b => b2z b =? 0x3a) name then Ok (ErrorCode.PROTOCOL_ERROR, v)
    else if negb final && equalsIgnoreCaseAscii name (bs "content-length") then
      let! o := tryParseContentLength (HeaderField.value header) in
      match o with
      | None => Ok (ErrorCode.PROTOCOL_ERROR, v)
      | Some cl =>
          if (declaredLength v >=? 0) && negb (declaredLength v =? cl)
          then Ok (ErrorCode.PROTOCOL_ERROR, v)
          else Ok (ErrorCode.NO_ERROR, mk_scan (sawRegularHeader v) (sawStatus v) (statusCode v) cl)
      end
    else Ok (ErrorCode.NO_ERROR, v).

Fixpoint validate_headers (final : bool) (headers : list HeaderField.t) (v : header_scan)
  : outcome (Z * header_scan) :=
  match headers with
  | [] => Ok (ErrorCode.NO_ERROR, v)
  | header :: headers' =>
      let! (code, v) := validate_header final header v in
      if negb (code =? ErrorCode.NO_ERROR) then Ok (code, v)
      else validate_headers final headers' v
  end.

(** Returns the error code, [informationalHeaders] and the stream's
    [expectedContentLength] (which the loop assigns as it goes). *)
Definition validateResponseHeaderBlock (final : bool) (expectedContentLength : Z)
  (headers : list HeaderField.t) (endStream : bool) : outcome (Z * bool * Z) :=
  match headers with
  | [] => Ok (ErrorCode.PROTOCOL_ERROR, false, expectedContentLength)
  | _ =>
      let! (code, v) := validate_headers final headers (mk_scan false false 0 expectedContentLength) in
      let length := declaredLength v in
      if negb (code =? ErrorCode.NO_ERROR) then Ok (code, false, length)
      else if negb final then
        if negb (sawStatus v) then Ok (ErrorCode.PROTOCOL_ERROR, false, length)
        else if Z.quot (statusCode v) 100 =? 1 then
          if statusCode v =? 101 then Ok (ErrorCode.PROTOCOL_ERROR, false, length)
          else if endStream then Ok (ErrorCode.PROTOCOL_ERROR, false, length)
          else Ok (ErrorCode.NO_ERROR, true, length)
        else Ok (ErrorCode.NO_ERROR, false, length)
      else if sawStatus v then Ok (ErrorCode.PROTOCOL_ERROR, false, length)
      else if negb endStream then Ok (ErrorCode.PROTOCOL_ERROR, false, length)
      else Ok (ErrorCode.NO_ERROR, false, length)
  end.
