(* ===== verification/HeaderFacts.v ===== *)
(** * Facts about the header rules

    The number parsers compute the decimal value without overflow, the
    validation of a response header block is equivalent to a declarative
    statement of the rules of RFC 9113 section 8, and a validated [:status]
    can be read back by [Response::getStatusCode] without an exception. *)

From S2P Require Import Prelude Outcome ByteBuffer Types Frame HeaderRules.

(** ** Digits *)

Definition all_digits (s : bytes) : bool := forallb is_digit s.

Lemma digit_char b :
  is_digit b = negb ((char b <? 0x30) || (char b >? 0x39)) /\
  (is_digit b = true -> char b - 0x30 = b2z b - 0x30 /\ 0 <= b2z b - 0x30 <= 9).
Proof.
  unfold is_digit, char. pose proof (b2z_range b). rewrite Z.gtb_ltb.
  destruct (Z.leb_spec 0x30 (b2z b)); destruct (Z.leb_spec (b2z b) 0x39);
    destruct (Z.ltb_spec (b2z b) 128); cbn [andb]; try lia;
    repeat match goal with |- context [?x <? ?y] => destruct (Z.ltb_spec x y) end;
    cbn; try lia; split; (done || lia).
Qed.

(** [dec_value] from an accumulator. *)
Definition dec_from (n : Z) (s : bytes) : Z := fold_left (fun v b => v * 10 + (b2z b - 0x30)) s n.

Lemma dec_from_cons n b s : dec_from n (b :: s) = dec_from (n * 10 + (b2z b - 0x30)) s.
Proof. done. Qed.

Lemma dec_from_mono n s : all_digits s = true -> 0 <= n -> n <= dec_from n s.
Proof.
  revert n. induction s as [|b s IH]; intros n Hd Hn; [unfold dec_from; cbn; lia|].
  cbn [all_digits forallb] in Hd. apply andb_true_iff in Hd as [Hb Hs].
  destruct (digit_char b) as [_ Hr]. destruct (Hr Hb). rewrite dec_from_cons.
  specialize (IH (n * 10 + (b2z b - 0x30)) Hs ltac:(lia)). lia.
Qed.

Lemma parse_status_digits_spec n s :
  parse_status_digits n s = if all_digits s then Some (dec_from n s) else None.
Proof.
  revert n. induction s as [|b s IH]; intros n; [done|]. cbn [parse_status_digits all_digits forallb].
  destruct (digit_char b) as [-> Hr]. destruct (_ || _) eqn:Hb; cbn [negb andb]; [done|].
  rewrite IH, dec_from_cons. destruct Hr as [-> _]; done.
Qed.

Lemma tryParseStatusCode_spec s c :
  tryParseStatusCode s = Some c <->
  zlen s = 3 /\ all_digits s = true /\ c = dec_value s /\ 100 <= c <= 599.
Proof.
  unfold tryParseStatusCode. rewrite parse_status_digits_spec. unfold dec_value. fold (dec_from 0 s).
  destruct (Z.eqb_spec (zlen s) 3); cbn [negb]; [|split; [done|lia]].
  destruct (all_digits s); [|split; [done|intros (_ & H & _); done]].
  rewrite Z.gtb_ltb. destruct (Z.ltb_spec (dec_from 0 s) 100); cbn [orb]; [split; [done|lia]|].
  destruct (Z.ltb_spec 599 (dec_from 0 s)); [split; [done|lia]|].
  split; [intros [= <-]; lia|]. intros (_ & _ & -> & _). done.
Qed.

(** ** [std::stoi] on a validated status *)

Lemma digits_no_space s : all_digits s = true -> drop_while is_space s = s.
Proof.
  destruct s as [|b s]; [done|]. cbn [all_digits forallb drop_while]. intros [Hb _]%andb_true_iff.
  unfold is_space, is_digit in *. pose proof (b2z_range b).
  destruct (Z.eqb_spec (b2z b) 0x20); [lia|]. cbn [orb].
  destruct (Z.leb_spec 0x30 (b2z b)); [|done].
  destruct (Z.leb_spec 0x09 (b2z b)); destruct (Z.leb_spec (b2z b) 0x0d); cbn [andb]; (done || lia).
Qed.

Lemma take_while_digits s : all_digits s = true -> take_while is_digit s = s.
Proof.
  induction s as [|b s IH]; [done|]. cbn [all_digits forallb take_while].
  intros [-> Hs]%andb_true_iff. f_equal. by apply IH.
Qed.

Lemma stoi_digits s :
  all_digits s = true -> s <> [] -> dec_value s <= INT32_MAX -> stoi s = Ok (dec_value s).
Proof.
  intros Hd Hne Hmax. unfold stoi. rewrite digits_no_space by done.
  assert (Hsign : (match s with x2d :: s' => (true, s') | x2b :: s' => (false, s') | _ => (false, s) end)
    = (false, s)).
  { destruct s as [|b s]; [done|]. cbn [all_digits forallb] in Hd. apply andb_true_iff in Hd as [Hb _].
    destruct b; try done; discriminate Hb. }
  rewrite Hsign, take_while_digits by done. destruct s as [|b s]; [done|].
  assert (0 <= dec_value (b :: s)).
  { unfold dec_value. fold (dec_from 0 (b :: s)). apply dec_from_mono; [done|lia]. }
  unfold INT32_MIN in *. destruct (Z.leb_spec (- 2 ^ 31) (dec_value (b :: s))); [|lia].
  destruct (Z.leb_spec (dec_value (b :: s)) INT32_MAX); [done|lia].
Qed.

Lemma stoi_status s c : tryParseStatusCode s = Some c -> stoi s = Ok c.
Proof.
  intros (Hl & Hd & -> & Hr)%tryParseStatusCode_spec. apply stoi_digits; [done| |unfold INT32_MAX; lia].
  intros ->. rewrite zlen_nil in Hl. lia.
Qed.

(** ** Content-Length *)

(** The parser never overflows: it stops once the prefix exceeds 10^15. *)
Lemma parse_length_total n s :
  0 <= n -> exists o, parse_length_digits n s = Ok o /\
    (forall m, o = Some m <-> all_digits s = true /\ m = dec_from n s /\ (s = [] \/ m < 10 ^ 16 + 10)).
Proof.
  revert n. induction s as [|b s IH]; intros n Hn; cbn [parse_length_digits].
  - eexists. split; [done|]. intros m. unfold dec_from. cbn. split; [intros [= <-]; split_and!; (done || by left)|by intros (_ & -> & _)].
  - destruct (digit_char b) as [Hd Hr]. destruct (_ || _) eqn:Hb.
    { exists None. split; [done|]. intros m. cbn [all_digits forallb]. rewrite Hd. split; [done|by intros [? _]]. }
    cbn [negb] in Hd. destruct (Hr Hd) as [Hc Hrange]. cbn [all_digits forallb]. rewrite Hd. cbn [andb].
    fold (all_digits s). rewrite dec_from_cons. rewrite Z.gtb_ltb.
    destruct (Z.ltb_spec 1000000000000000 n).
    { exists None. split; [done|]. intros m. split; [done|]. intros (Hs & -> & [?|Hlt]); [done|].
      pose proof (dec_from_mono (n * 10 + (b2z b - 0x30)) s Hs). lia. }
    unfold checked_i64.
    destruct (Z.leb_spec (- 2 ^ 63) (n * 10 + (char b - 0x30))); [|lia].
    destruct (Z.ltb_spec (n * 10 + (char b - 0x30)) (2 ^ 63)); [|lia]. cbn [andb obind].
    destruct (IH (n * 10 + (char b - 0x30))) as (o & -> & Ho); [lia|]. exists o. split; [done|].
    intros m. rewrite Ho, <- Hc. split; intros (? & -> & Hor); (split; [done|]; split; [done|]); right.
    + destruct Hor as [->|?]; [unfold dec_from; cbn; lia|done].
    + by destruct Hor as [?|?].
Qed.

Lemma tryParseContentLength_spec s :
  exists o, tryParseContentLength s = Ok o /\
    (forall m, o = Some m <-> s <> [] /\ all_digits s = true /\ m = dec_value s /\ m < 10 ^ 16 + 10).
Proof.
  unfold tryParseContentLength. destruct s as [|b s]; [exists None; split; [done|]; intros m; split; [done|by intros [? _]]|].
  destruct (parse_length_total 0 (b :: s)) as (o & -> & Ho); [lia|]. exists o. split; [done|].
  intros m. rewrite Ho. unfold dec_value. fold (dec_from 0 (b :: s)). split; [intros (? & ? & [?|?]); by split_and!|intros (_ & ? & ? & ?); by auto].
Qed.

Lemma tryParseContentLength_total s :
  exists o, tryParseContentLength s = Ok o /\
    (forall m, o = Some m -> 0 <= m /\ m = dec_value s /\ all_digits s = true /\ s <> []).
Proof.
  destruct (tryParseContentLength_spec s) as (o & -> & Ho). exists o. split; [done|].
  intros m (? & Hd & -> & _)%Ho. split_and!; [|done..]. unfold dec_value. fold (dec_from 0 s). apply dec_from_mono; [done|lia].
Qed.

(** ** The rules for one field *)

(** RFC 9113 section 8.2.1. *)
Definition valid_name (n : bytes) : Prop :=
  n <> [] /\ Forall (fun b => 0x21 <= b2z b <= 0x7e /\ ~ (0x41 <= b2z b <= 0x5a)) n.
Definition is_blank (b : byte) : Prop := b2z b = 0x20 \/ b2z b = 0x09.
Definition valid_value (v : bytes) : Prop :=
  Forall (fun b => b2z b <> 0x00 /\ b2z b <> 0x0a /\ b2z b <> 0x0d) v /\
  (forall b l, v = b :: l -> ~ is_blank b) /\ (forall b l, v = l ++ [b] -> ~ is_blank b).

Lemma invalid_name_char b :
  ((char b <=? 0x20) || ((char b >=? 0x41) && (char b <=? 0x5a)) || (char b >=? 0x7f)) = false <->
  0x21 <= b2z b <= 0x7e /\ ~ (0x41 <= b2z b <= 0x5a).
Proof.
  unfold char. pose proof (b2z_range b). rewrite !Z.geb_leb.
  destruct (Z.ltb_spec (b2z b) 128);
    repeat match goal with |- context [?x <=? ?y] => destruct (Z.leb_spec x y) end; cbn;
    split; intros; (done || lia).
Qed.

Lemma existsb_false_Forall {A} (f : A -> bool) (P : A -> Prop) l :
  (forall x, f x = false <-> P x) -> existsb f l = false <-> Forall P l.
Proof.
  intros Hf. induction l as [|x l IH]; cbn [existsb]; [by split; [constructor|]|].
  rewrite orb_false_iff, Forall_cons, Hf, IH. done.
Qed.

Lemma name_rule n : (zlen n =? 0) || hasInvalidFieldNameChar n = false <-> valid_name n.
Proof.
  unfold valid_name, hasInvalidFieldNameChar. rewrite orb_false_iff.
  rewrite (existsb_false_Forall _ _ _ invalid_name_char). apply and_iff_compat_r.
  rewrite Z.eqb_neq. split; [intros H ->; by apply H|]. intros H Hz. by apply zlen_0_nil in Hz.
Qed.

Lemma last_snoc_eq (l : bytes) b d : List.last (l ++ [b]) d = b.
Proof. apply List.last_last. Qed.

Lemma value_rule v : hasInvalidFieldValue v = false <-> valid_value v.
Proof.
  unfold valid_value. destruct v as [|b0 v].
  { split; [|done]. intros _. split; [done|]. split; [done|]. intros b l Hl.
    destruct l; discriminate Hl. }
  unfold hasInvalidFieldValue. set (w := b0 :: v). destruct (@exists_last _ w) as (l & b & Hw); [done|].
  rewrite Hw, last_snoc_eq, <- Hw.
  assert (Hbad : forall c, (b2z c =? 0x00) || (b2z c =? 0x0a) || (b2z c =? 0x0d) = false <->
    b2z c <> 0x00 /\ b2z c <> 0x0a /\ b2z c <> 0x0d).
  { intros c. rewrite !orb_false_iff, !Z.eqb_neq. tauto. }
  assert (Hends : ((forall c k, w = c :: k -> ~ is_blank c) /\ (forall c k, w = k ++ [c] -> ~ is_blank c))
    <-> ~ is_blank b0 /\ ~ is_blank b).
  { split.
    - intros [H1 H2]. split; [by eapply H1|by eapply H2].
    - intros [H1 H2]. split; intros c k Hk.
      + unfold w in Hk. injection Hk as <- _. done.
      + rewrite Hw in Hk. apply app_inj_tail in Hk as [_ <-]. done. }
  rewrite Hends. unfold is_blank.
  destruct (Z.eqb_spec (b2z b0) 0x20); destruct (Z.eqb_spec (b2z b0) 0x09);
    destruct (Z.eqb_spec (b2z b) 0x20); destruct (Z.eqb_spec (b2z b) 0x09); cbn [orb];
    try (split; [done|tauto]).
  rewrite (existsb_false_Forall _ _ _ Hbad). tauto.
Qed.

(** ** The rules for a block *)

Definition is_content_length (h : HeaderField.t) : bool :=
  equalsIgnoreCaseAscii (HeaderField.name h) (bs "content-length").

(** What every field must satisfy. *)
Definition field_valid (h : HeaderField.t) : Prop :=
  valid_name (HeaderField.name h) /\ valid_value (HeaderField.value h) /\
  isConnectionSpecificHeader h = false.

(** A field that is not a pseudo-header, and has no colon in its name. *)
Definition regular_valid (h : HeaderField.t) : Prop :=
  field_valid h /\ Forall (fun b => b2z b <> 0x3a) (HeaderField.name h).

(** All Content-Length fields agree, also with an earlier block's [e]. *)
Definition lengths_agree (e : Z) (hs : list HeaderField.t) : Prop :=
  exists n, (0 <= e -> n = e) /\
    Forall (fun h => is_content_length h = true ->
      tryParseContentLength (HeaderField.value h) = Ok (Some n)) hs.

(** A response header block: [:status] first, then regular fields; 101 is
    refused, and only a final response may end the stream. *)
Definition response_valid (e : Z) (hs : list HeaderField.t) (endStream : bool) (status : Z) : Prop :=
  exists h rest, hs = h :: rest /\ field_valid h /\ HeaderField.name h = bs ":status" /\
    tryParseStatusCode (HeaderField.value h) = Some status /\
    Forall regular_valid rest /\ lengths_agree e rest /\
    status <> 101 /\ (100 <= status < 200 -> endStream = false).

(** Trailers: regular fields only, ending the stream. *)
Definition trailers_valid (hs : list HeaderField.t) (endStream : bool) : Prop :=
  hs <> [] /\ Forall regular_valid hs /\ endStream = true.

(** ** The loop *)

Lemma pseudo_colon h :
  HeaderField.pseudo h = true -> ~ Forall (fun b => b2z b <> 0x3a) (HeaderField.name h).
Proof.
  unfold HeaderField.pseudo. destruct (HeaderField.name h) as [|b n]; [done|].
  intros ->%bool_decide_eq_true. inversion 1; subst. done.
Qed.

Lemma colon_rule n : existsb (fun b => b2z b =? 0x3a) n = false <-> Forall (fun b => b2z b <> 0x3a) n.
Proof. apply existsb_false_Forall. intros b. apply Z.eqb_neq. Qed.

Lemma lengths_agree_cons e h hs :
  lengths_agree e (h :: hs) <->
  if is_content_length h then
    exists n, 0 <= n /\ tryParseContentLength (HeaderField.value h) = Ok (Some n) /\
      (0 <= e -> n = e) /\ lengths_agree n hs
  else lengths_agree e hs.
Proof.
  unfold lengths_agree. destruct (is_content_length h) eqn:Hcl.
  - split.
    + intros (n & Hn & Hall). inversion Hall as [|? ? Hh Hhs]; subst. specialize (Hh Hcl).
      destruct (tryParseContentLength_total (HeaderField.value h)) as (o & Ho & Hpos).
      rewrite Hh in Ho. injection Ho as <-. destruct (Hpos n eq_refl) as [H0 _]. eauto 8.
    + intros (n & H0 & Hp & Hn & m & Hm & Hall). rewrite (Hm H0) in *. exists n.
      split; [done|]. by constructor.
  - split; intros (n & Hn & Hall); exists n; (split; [done|]).
    + by inversion Hall.
    + constructor; [congruence|done].
Qed.

(** Once a regular field, a status or the final headers have been seen, no
    pseudo-header is accepted any more. *)
Definition no_more_pseudo (final : bool) (v : header_scan) : Prop :=
  final = true \/ sawStatus v = true \/ sawRegularHeader v = true.

(** The common checks at the head of the loop. *)
Lemma validate_header_invalid final h v :
  ~ field_valid h -> validate_header final h v = Ok (ErrorCode.PROTOCOL_ERROR, v).
Proof.
  unfold field_valid, validate_header. rewrite <- name_rule, <- value_rule. intros Hn.
  destruct ((zlen (HeaderField.name h) =? 0) || hasInvalidFieldNameChar (HeaderField.name h)); [done|].
  destruct (hasInvalidFieldValue (HeaderField.value h)); [done|].
  destruct (isConnectionSpecificHeader h); [done|tauto].
Qed.

Lemma validate_header_valid final h v :
  field_valid h -> validate_header final h v =
    if HeaderField.pseudo h then
      if sawRegularHeader v then Ok (ErrorCode.PROTOCOL_ERROR, v)
      else if final then Ok (ErrorCode.PROTOCOL_ERROR, v)
      else if negb (bool_decide (HeaderField.name h = bs ":status")) then Ok (ErrorCode.PROTOCOL_ERROR, v)
      else if sawStatus v then Ok (ErrorCode.PROTOCOL_ERROR, v)
      else match tryParseStatusCode (HeaderField.value h) with
           | None => Ok (ErrorCode.PROTOCOL_ERROR, v)
           | Some code => Ok (ErrorCode.NO_ERROR, mk_scan (sawRegularHeader v) true code (declaredLength v))
           end
    else
      let v := mk_scan true (sawStatus v) (statusCode v) (declaredLength v) in
      if existsb (fun b => b2z b =? 0x3a) (HeaderField.name h) then Ok (ErrorCode.PROTOCOL_ERROR, v)
      else if negb final && is_content_length h then
        let! o := tryParseContentLength (HeaderField.value h) in
        match o with
        | None => Ok (ErrorCode.PROTOCOL_ERROR, v)
        | Some cl =>
            if (declaredLength v >=? 0) && negb (declaredLength v =? cl)
            then Ok (ErrorCode.PROTOCOL_ERROR, v)
            else Ok (ErrorCode.NO_ERROR, mk_scan (sawRegularHeader v) (sawStatus v) (statusCode v) cl)
        end
      else Ok (ErrorCode.NO_ERROR, v).
Proof.
  unfold field_valid, validate_header. rewrite <- name_rule, <- value_rule. intros (-> & -> & ->). done.
Qed.

Lemma field_valid_dec h : field_valid h \/ ~ field_valid h.
Proof.
  unfold field_valid. rewrite <- name_rule, <- value_rule.
  destruct (_ || hasInvalidFieldNameChar _); [right; intros (? & _); done|].
  destruct (hasInvalidFieldValue _); [right; intros (_ & ? & _); done|].
  destruct (isConnectionSpecificHeader h); [right; intros (_ & _ & ?); done|by left].
Qed.

(** One field after the point where pseudo-headers are over. *)
Lemma validate_header_regular final h v :
  no_more_pseudo final v ->
  exists code v', validate_header final h v = Ok (code, v') /\
    (code = ErrorCode.NO_ERROR \/ code = ErrorCode.PROTOCOL_ERROR) /\
    (code = ErrorCode.NO_ERROR <-> regular_valid h /\
       (final = false -> is_content_length h = true ->
        exists n, tryParseContentLength (HeaderField.value h) = Ok (Some n) /\
          (0 <= declaredLength v -> n = declaredLength v))) /\
    (code = ErrorCode.NO_ERROR -> sawStatus v' = sawStatus v /\ statusCode v' = statusCode v /\
       no_more_pseudo final v' /\
       declaredLength v' = if negb final && is_content_length h then
         match tryParseContentLength (HeaderField.value h) with Ok (Some n) => n | _ => 0 end
       else declaredLength v).
Proof.
  intros Hno. destruct (field_valid_dec h) as [Hv|Hv].
  2:{ rewrite validate_header_invalid by done. do 2 eexists. split; [done|]. split; [by right|].
      split; [|done]. split; [done|]. by intros [[? _] _]. }
  rewrite validate_header_valid by done. destruct (HeaderField.pseudo h) eqn:Hps.
  { exists ErrorCode.PROTOCOL_ERROR, v. split.
    - destruct (sawRegularHeader v) eqn:E1; [done|]. destruct final; [done|].
      case_if; [done|]. destruct (sawStatus v) eqn:E2; [done|].
      unfold no_more_pseudo in Hno. rewrite E1, E2 in Hno. destruct Hno as [?|[?|?]]; done.
    - split; [by right|]. split; [|done]. split; [done|].
      intros [[_ Hc] _]. by apply pseudo_colon in Hps. }
  cbv zeta. destruct (existsb _ _) eqn:Hcolon.
  { do 2 eexists. split; [done|]. split; [by right|]. split; [|done]. split; [done|].
    intros [[_ Hc] _]. apply colon_rule in Hc. congruence. }
  apply colon_rule in Hcolon. destruct (negb final && is_content_length h) eqn:Hcl.
  - apply andb_true_iff in Hcl as [Hf Hcl]. apply negb_true_iff in Hf.
    destruct (tryParseContentLength_total (HeaderField.value h)) as (o & Ho & Hpos). rewrite Ho. cbn [obind].
    destruct o as [n|].
    2:{ do 2 eexists. split; [done|]. split; [by right|]. split; [|done]. split; [done|].
        intros [_ Hx]. destruct (Hx Hf Hcl) as (n & Hn & _). congruence. }
    cbn [declaredLength]. rewrite Z.geb_leb.
    destruct (Z.leb_spec 0 (declaredLength v)); destruct (Z.eqb_spec (declaredLength v) n); cbn [andb negb].
    2:{ do 2 eexists. split; [done|]. split; [by right|]. split; [|done]. split; [done|].
        intros [_ Hx]. destruct (Hx Hf Hcl) as (m & Hm & Hmn). injection Hm as <-. by rewrite Hmn in *. }
    all: do 2 eexists; (split; [done|]); (split; [by left|]); split; [|intros _; cbn; unfold no_more_pseudo; cbn; split_and!; auto].
    all: split; [|done]; intros _; (split; [by split|]); intros _ _; exists n; (split; [done|]); lia.
  - do 2 eexists. split; [done|]. split; [by left|]. split; [|intros _; cbn; unfold no_more_pseudo; cbn; split_and!; auto].
    split; [|done]. intros _. split; [by split|]. intros -> Hx. by rewrite Hx in Hcl.
Qed.

Lemma validate_headers_regular final hs v :
  no_more_pseudo final v ->
  exists code v', validate_headers final hs v = Ok (code, v') /\
    (code = ErrorCode.NO_ERROR \/ code = ErrorCode.PROTOCOL_ERROR) /\
    (code = ErrorCode.NO_ERROR <-> Forall regular_valid hs /\
       (final = false -> lengths_agree (declaredLength v) hs)) /\
    (code = ErrorCode.NO_ERROR -> sawStatus v' = sawStatus v /\ statusCode v' = statusCode v).
Proof.
  revert v. induction hs as [|h hs IH]; intros v Hno; cbn [validate_headers].
  { do 2 eexists. split; [done|]. split; [by left|]. split; [|done]. split; [|done]. intros _.
    split; [done|]. intros _. destruct (Z.lt_ge_cases (declaredLength v) 0); [exists 0|exists (declaredLength v)];
      split; (done || lia). }
  destruct (validate_header_regular final h v Hno) as (c1 & v1 & -> & Hc1 & Hok1 & Hv1). cbn [obind].
  destruct Hc1 as [->| ->]; cbn [negb].
  2:{ change (negb (ErrorCode.PROTOCOL_ERROR =? ErrorCode.NO_ERROR)) with true. cbv iota.
      do 2 eexists. split; [done|]. split; [by right|]. split; [|done]. split; [done|].
      intros [Hall Hlen]. apply Hok1. inversion Hall; subst. split; [done|]. intros Hf Hcl.
      specialize (Hlen Hf). apply lengths_agree_cons in Hlen. rewrite Hcl in Hlen.
      destruct Hlen as (n & _ & Hp & Hn & _). eauto. }
  change (negb (ErrorCode.NO_ERROR =? ErrorCode.NO_ERROR)) with false. cbv iota.
  destruct (proj1 Hok1 eq_refl) as [Hreg Hcl]. destruct (Hv1 eq_refl) as (Hs1 & Hst1 & Hno1 & Hdl).
  destruct (IH v1 Hno1) as (c2 & v2 & -> & Hc2 & Hok2 & Hv2).
  do 2 eexists. split; [done|]. split; [done|]. split; [|intros Hc; destruct (Hv2 Hc); split; congruence].
  rewrite Hok2, Forall_cons.
  assert (Hlen : final = false -> lengths_agree (declaredLength v) (h :: hs) <-> lengths_agree (declaredLength v1) hs).
  { intros ->. rewrite lengths_agree_cons. cbn [negb andb] in Hdl. destruct (is_content_length h); [|by rewrite Hdl].
    destruct Hcl as (n & Hp & Hn); [done..|]. rewrite Hp in Hdl. rewrite Hdl. split.
    - intros (m & _ & Hm & _ & Ha). rewrite Hp in Hm. by injection Hm as <-.
    - intros Ha. destruct (tryParseContentLength_total (HeaderField.value h)) as (o & Ho & Hpos).
      rewrite Hp in Ho. injection Ho as <-. destruct (Hpos n eq_refl) as [H0 _]. eauto 8. }
  split; intros [Ha Hb].
  - split; [done|]. intros Hf. rewrite Hlen by done. auto.
  - split; [by destruct Ha|]. intros Hf. rewrite <- Hlen by done. auto.
Qed.

(** ** The whole block *)

Lemma status_hundreds c : 100 <= c <= 599 -> (Z.quot c 100 =? 1) = (c <? 200).
Proof.
  intros Hc. rewrite Z.quot_div_nonneg by lia.
  destruct (Z.ltb_spec c 200).
  - apply Z.eqb_eq. symmetry. apply (Z.div_unique_pos _ _ _ (c - 100)); lia.
  - apply Z.eqb_neq. intros Hq. pose proof (Z.div_le_lower_bound c 100 2). lia.
Qed.

(** Final headers have been received: trailers. *)
Lemma validate_trailers e hs endStream :
  exists code len, validateResponseHeaderBlock true e hs endStream = Ok (code, false, len) /\
    (code = ErrorCode.NO_ERROR \/ code = ErrorCode.PROTOCOL_ERROR) /\
    (code = ErrorCode.NO_ERROR <-> trailers_valid hs endStream).
Proof.
  unfold validateResponseHeaderBlock, trailers_valid. destruct hs as [|h hs].
  { do 2 eexists. split; [done|]. split; [by right|]. split; [done|]. by intros [? _]. }
  set (v0 := mk_scan false false 0 e).
  destruct (validate_headers_regular true (h :: hs) v0) as (code & v & -> & Hc & Hok & Hv); [by left|].
  cbn [obind negb]. destruct Hc as [->| ->].
  - change (negb (ErrorCode.NO_ERROR =? ErrorCode.NO_ERROR)) with false. cbv iota.
    destruct (Hv eq_refl) as [-> _]. destruct (proj1 Hok eq_refl) as [Hall _]. cbn [sawStatus v0].
    destruct endStream; cbn [negb]; do 2 eexists; (split; [done|]); split; auto.
    + split; [|done]. done.
    + split; [done|]. by intros (_ & _ & ?).
  - change (negb (ErrorCode.PROTOCOL_ERROR =? ErrorCode.NO_ERROR)) with true. cbv iota.
    do 2 eexists. split; [done|]. split; [by right|]. split; [done|].
    intros (_ & Hall & _). by apply Hok.
Qed.

(** A first field that is not a valid [:status] dooms the block. *)
Lemma validate_first_bad h v0 :
  sawStatus v0 = false -> sawRegularHeader v0 = false ->
  exists code v, validate_header false h v0 = Ok (code, v) /\
    (code = ErrorCode.PROTOCOL_ERROR /\
       ~ (field_valid h /\ HeaderField.name h = bs ":status" /\
          is_Some (tryParseStatusCode (HeaderField.value h)))
     \/ code = ErrorCode.NO_ERROR /\ sawStatus v = false /\ sawRegularHeader v = true /\
        HeaderField.name h <> bs ":status"
     \/ code = ErrorCode.NO_ERROR /\ field_valid h /\ HeaderField.name h = bs ":status" /\
        exists c, tryParseStatusCode (HeaderField.value h) = Some c /\
          v = mk_scan false true c (declaredLength v0)).
Proof.
  intros Hs Hr. destruct (field_valid_dec h) as [Hv|Hv].
  2:{ rewrite validate_header_invalid by done. do 2 eexists. split; [done|]. left. split; [done|]. tauto. }
  rewrite validate_header_valid by done. rewrite Hr, Hs.
  destruct (HeaderField.pseudo h) eqn:Hps.
  - destruct (decide (HeaderField.name h = bs ":status")) as [Hn|Hn].
    + rewrite bool_decide_true by done. cbn [negb].
      destruct (tryParseStatusCode (HeaderField.value h)) as [c|] eqn:Hc.
      * do 2 eexists. split; [done|]. right; right. split; [done|]. eauto.
      * do 2 eexists. split; [done|]. left. split; [done|]. by intros (_ & _ & [? ?]).
    + rewrite bool_decide_false by done. cbn [negb]. do 2 eexists. split; [done|]. left.
      split; [done|]. tauto.
  - assert (Hn : HeaderField.name h <> bs ":status").
    { unfold HeaderField.pseudo in Hps. intros Heq. rewrite Heq in Hps. done. }
    cbv zeta. destruct (existsb _ _).
    { do 2 eexists. split; [done|]. left. split; [done|]. tauto. }
    destruct (negb false && is_content_length h).
    + destruct (tryParseContentLength_total (HeaderField.value h)) as (o & -> & _). cbn [obind].
      destruct o; [|do 2 eexists; split; [done|]; left; split; [done|]; tauto].
      case_if; do 2 eexists; (split; [done|]); [left; split; [done|]; tauto|]. right; left. done.
    + do 2 eexists. split; [done|]. right; left. done.
Qed.

(** No final headers yet: a response. *)
Lemma validate_response e hs endStream :
  exists code info len, validateResponseHeaderBlock false e hs endStream = Ok (code, info, len) /\
    (code = ErrorCode.NO_ERROR \/ code = ErrorCode.PROTOCOL_ERROR) /\
    (code = ErrorCode.NO_ERROR <-> exists status, response_valid e hs endStream status) /\
    (forall status, response_valid e hs endStream status -> info = (status <? 200)).
Proof.
  unfold validateResponseHeaderBlock. destruct hs as [|h hs].
  { do 3 eexists. split; [done|]. split; [by right|].
    split; [split; [done|]|]; [intros (s & h & rest & Hh & _)|intros s (h & rest & Hh & _)]; done. }
  set (v0 := mk_scan false false 0 e). cbn [validate_headers].
  destruct (validate_first_bad h v0) as (c1 & v1 & -> & Hfirst); [done..|]. cbn [obind].
  assert (Hbad : forall code info (len : Z), code = ErrorCode.PROTOCOL_ERROR ->
    (forall s, ~ response_valid e (h :: hs) endStream s) ->
    exists code' info' len', Ok (code, info, len) = Ok (code', info', len') /\
    (code' = ErrorCode.NO_ERROR \/ code' = ErrorCode.PROTOCOL_ERROR) /\
    (code' = ErrorCode.NO_ERROR <-> exists status, response_valid e (h :: hs) endStream status) /\
    (forall status, response_valid e (h :: hs) endStream status -> info' = (status <? 200))).
  { intros code info len -> Hno. do 3 eexists. split; [done|]. split; [by right|]. split.
    - split; [done|]. intros [s Hs]. by apply Hno in Hs.
    - intros s Hs. by apply Hno in Hs. }
  destruct Hfirst as [[-> Hno]|[(-> & Hs1 & Hr1 & Hn)|(-> & Hv & Hn & c & Hc & ->)]].
  - apply Hbad; [done|]. intros s (h' & rest & [= <- <-] & Hf & Hn & Hst & _). apply Hno. eauto.
  - change (negb (ErrorCode.NO_ERROR =? ErrorCode.NO_ERROR)) with false. cbv iota.
    assert (Hno : forall s, ~ response_valid e (h :: hs) endStream s).
    { intros s (h' & rest & [= <- <-] & Hf & Hn' & _). done. }
    destruct (validate_headers_regular false hs v1) as (code & v & -> & Hcd & _ & Hv); [right; by right|].
    cbn [obind]. destruct Hcd as [->| ->]; [|by apply Hbad].
    change (negb (ErrorCode.NO_ERROR =? ErrorCode.NO_ERROR)) with false. cbv iota.
    destruct (Hv eq_refl) as [-> _]. rewrite Hs1. cbn [negb]. by apply Hbad.
  - change (negb (ErrorCode.NO_ERROR =? ErrorCode.NO_ERROR)) with false. cbv iota.
    pose proof (proj1 (tryParseStatusCode_spec _ _) Hc) as (_ & _ & _ & Hrange).
    cbn [declaredLength v0].
    destruct (validate_headers_regular false hs (mk_scan false true c e)) as (code & v & -> & Hcd & Hok & Hv2);
      [right; by left|]. cbn [declaredLength v0] in *. cbn [obind].
    destruct Hcd as [->| ->].
    2:{ apply Hbad; [done|]. intros s (h' & rest & [= <- <-] & _ & _ & _ & Hreg & Hlen & _).
        assert (ErrorCode.PROTOCOL_ERROR = ErrorCode.NO_ERROR) by (apply Hok; auto). done. }
    change (negb (ErrorCode.NO_ERROR =? ErrorCode.NO_ERROR)) with false. cbv iota.
    destruct (proj1 Hok eq_refl) as [Hreg Hlen]. specialize (Hlen eq_refl).
    destruct (Hv2 eq_refl) as [-> ->]. cbn [sawStatus statusCode negb].
    rewrite status_hundreds by done.
    assert (Huniq : forall s, response_valid e (h :: hs) endStream s -> s = c /\ s <> 101 /\ (100 <= s < 200 -> endStream = false)).
    { intros s (h' & rest & [= <- <-] & _ & _ & Hst & _ & _ & H101 & Hend). split; [congruence|done]. }
    destruct (Z.ltb_spec c 200).
    + destruct (Z.eqb_spec c 101).
      { apply Hbad; [done|]. intros s Hs. destruct (Huniq s Hs) as (-> & ? & _). done. }
      destruct endStream.
      { apply Hbad; [done|]. intros s Hs. destruct (Huniq s Hs) as (-> & _ & Hx). discriminate Hx. lia. }
      do 3 eexists. split; [done|]. split; [by left|]. split.
      * split; [intros _|done]. exists c, h, hs. split_and!; done.
      * intros s Hs. destruct (Huniq s Hs) as (-> & _). symmetry. by apply Z.ltb_lt.
    + do 3 eexists. split; [done|]. split; [by left|]. split.
      * split; [intros _|done]. exists c, h, hs. split_and!; (done || lia).
      * intros s Hs. destruct (Huniq s Hs) as (-> & _). symmetry. by apply Z.ltb_ge.
Qed.

(** [Response::getStatusCode] on stored headers. *)
Lemma find_status_app hs1 hs2 c1 c2 :
  Response.find_status hs1 = Ok c1 -> Response.find_status hs2 = Ok c2 ->
  exists c, Response.find_status (hs1 ++ hs2) = Ok c.
Proof.
  induction hs1 as [|h hs1 IH]; cbn [Response.find_status app]; [eauto|].
  case_if; [eauto|]. apply IH.
Qed.

Lemma response_valid_status e hs endStream s :
  response_valid e hs endStream s -> Response.find_status hs = Ok s.
Proof.
  intros (h & rest & -> & _ & Hn & Hs & _). cbn [Response.find_status]. rewrite Hn.
  rewrite bool_decide_true by done. by apply stoi_status.
Qed.

Lemma validate_total final e hs endStream :
  exists code info len, validateResponseHeaderBlock final e hs endStream = Ok (code, info, len) /\
    0 <= code < 2 ^ 32 /\
    (code = ErrorCode.NO_ERROR -> final = false -> exists c, Response.find_status hs = Ok c).
Proof.
  destruct final.
  - destruct (validate_trailers e hs endStream) as (code & len & -> & Hc & _).
    do 3 eexists. split; [done|]. split; [destruct Hc as [->| ->]; done|done].
  - destruct (validate_response e hs endStream) as (code & info & len & -> & Hc & Hok & _).
    do 3 eexists. split; [done|]. split; [destruct Hc as [->| ->]; done|].
    intros Hn _. apply Hok in Hn as [s Hs]. exists s. by eapply response_valid_status.
Qed.

(** ** Properties *)

(** C18: the loop of [validateResponseHeaderBlock] implements the rules of
    RFC 9113 section 8 as stated by [response_valid] (one valid [:status]
    first, then regular lower-case fields with clean values, no
    connection-specific field, agreeing Content-Lengths, no 101, no 1xx
    ending the stream) and [trailers_valid]: it accepts a block exactly when
    they hold, reports 1xx blocks as informational, and otherwise answers
    PROTOCOL_ERROR; it never throws or overflows. *)
Theorem validate_iff_rules final e hs endStream :
  exists code info len,
    validateResponseHeaderBlock final e hs endStream = Ok (code, info, len) /\
    (code = ErrorCode.NO_ERROR \/ code = ErrorCode.PROTOCOL_ERROR) /\
    (code = ErrorCode.NO_ERROR <->
       if final then trailers_valid hs endStream
       else exists status, response_valid e hs endStream status) /\
    (forall status, final = false -> response_valid e hs endStream status -> info = (status <? 200)).
Proof.
  destruct final.
  - destruct (validate_trailers e hs endStream) as (code & len & -> & Hc & Hok).
    do 3 eexists. split; [done|]. split; [done|]. split; done.
  - destruct (validate_response e hs endStream) as (code & info & len & -> & Hc & Hok & Hinfo).
    do 3 eexists. split; [done|]. split; [done|]. split; [done|]. intros s _. apply Hinfo.
Qed.

(** A decimal numeral: one or more of the bytes '0' to '9'. *)
Definition numeral (s : bytes) : Prop := s <> [] /\ Forall (fun b => 0x30 <= b2z b <= 0x39) s.

Lemma all_digits_forall s : all_digits s = true <-> Forall (fun b => 0x30 <= b2z b <= 0x39) s.
Proof.
  unfold all_digits. rewrite <- Is_true_true, forallb_True. apply Forall_iff. intros b. unfold is_digit.
  rewrite Is_true_true, andb_true_iff. lia.
Qed.

(** C26: the number parsers accept exactly what they should and return its
    decimal value.  [tryParseContentLength] returns [n] if and only if the
    value is a numeral, [n] is its decimal value and less than 10^16 + 10 (the
    parser gives up once more than 10^15 has been read and a digit follows);
    it never overflows its 64-bit accumulator, whatever the length of the
    input.  [tryParseStatusCode] returns [c] if and only if the value is a
    numeral of three digits, [c] is its decimal value and between 100 and 599;
    the standard library's [stoi] reads it back as the same number. *)
Theorem number_parsers_exact s :
  (exists o, tryParseContentLength s = Ok o /\
     forall n, o = Some n <-> numeral s /\ n = dec_value s /\ n < 10 ^ 16 + 10) /\
  (forall c, tryParseStatusCode s = Some c <-> numeral s /\ zlen s = 3 /\ c = dec_value s /\ 100 <= c <= 599) /\
  (forall c, tryParseStatusCode s = Some c -> stoi s = Ok c).
Proof.
  unfold numeral. pose proof (all_digits_forall s). split; [|split].
  - destruct (tryParseContentLength_spec s) as (o & Ho & Hp). exists o. split; [done|]. intros n. rewrite Hp. tauto.
  - intros c. rewrite tryParseStatusCode_spec. split; [|tauto]. intros (? & ? & ? & ?). split_and!; try tauto; try lia.
    intros ->. by rewrite zlen_nil in *.
  - intros c Hc. by apply stoi_status.
Qed.
