(* ===== verification/HpackSize.v ===== *)
(** * Size of HPACK blocks

    An encoded block is at most 22 bytes (two table-size updates) longer than
    the size of its header list as [http2_protocol.cpp] counts it. *)

From S2P Require Import Prelude Outcome Types Huffman HuffmanFacts HpackTable Hpack.
From S2P Require Import HeaderRules.
Import Hpack.

(** [m] appends at most [n] bytes to [buffer]. *)
Definition grows (n : Z) (buffer : bytes) (m : outcome bytes) : Prop :=
  forall b', m = Ok b' -> zlen b' <= zlen buffer + n.

Lemma grows_bind n1 n2 n buffer m k :
  grows n1 buffer m -> (forall b, grows n2 b (k b)) -> n1 + n2 <= n ->
  grows n buffer (obind m k).
Proof. intros Hm Hk Hn b' H. inv_ok. apply Hm in E. apply Hk in H. lia. Qed.

Lemma encodeVInt_loop_grows fuel buffer v :
  (0 < fuel)%nat -> grows (Z.of_nat fuel) buffer (encodeVInt_loop fuel buffer v).
Proof.
  intros _ b'. revert buffer v. induction fuel as [|fuel IH]; intros buffer v; [done|].
  cbn [encodeVInt_loop]. destruct (v >=? 128); intros H.
  - apply IH in H. zlen_lia.
  - injection H as <-. zlen_lia.
Qed.

Lemma encodeVInt_grows buffer prefix value : grows 11 buffer (encodeVInt buffer prefix value).
Proof.
  intros b'. unfold encodeVInt. case_if; intros H.
  - injection H as <-. zlen_lia.
  - apply encodeVInt_loop_grows in H; [zlen_lia|lia].
Qed.

Lemma or_at_grows pos flag buffer : grows 0 buffer (or_at pos flag buffer).
Proof.
  intros b'. unfold or_at. destruct (znth _ _); [|done]. intros [= <-].
  unfold zlen. rewrite length_insert. lia.
Qed.

Lemma encodeString_grows buffer s : grows (11 + zlen s) buffer (encodeString buffer s).
Proof.
  intros b'. unfold encodeString. destruct (Z.ltb_spec (Huffman.encodedLength s) (zlen s)); intros H1; inv_ok.
  - apply encodeVInt_grows in E. apply or_at_grows in H1.
    apply HuffmanFacts.encodedLength_encode in E0. zlen_lia.
  - apply encodeVInt_grows in E. zlen_lia.
Qed.

Lemma encode_flagged_grows buffer prefix value flag :
  grows 11 buffer (let! b := encodeVInt buffer prefix value in or_at (zlen buffer) flag b).
Proof.
  eapply (grows_bind 11 0); [apply encodeVInt_grows| |lia]. intros b. apply or_at_grows.
Qed.

Lemma encode_literal_name_grows buffer b s : grows (12 + zlen s) buffer (encodeString (buffer ++ [b]) s).
Proof. intros b' H. apply encodeString_grows in H. zlen_lia. Qed.

(** Each representation of a field: at most 23 bytes over its strings. *)
Lemma encode_header_grows buffer tb h b' tb' :
  encode_header buffer tb h = Ok (b', tb') -> zlen b' <= zlen buffer + HeaderField.size h.
Proof.
  unfold encode_header, HeaderField.size. destruct (HpackTable.find h tb) as [exact idx].
  pose proof (zlen_nonneg (HeaderField.name h)). pose proof (zlen_nonneg (HeaderField.value h)).
  assert (Hlit : forall m a b, grows (12 + zlen (HeaderField.name h)) buffer m ->
    encodeString a (HeaderField.value h) = Ok b -> m = Ok a ->
    zlen b <= zlen buffer + (zlen (HeaderField.name h) + zlen (HeaderField.value h) + 32)).
  { intros m a b Hm Hb Ha. apply Hm in Ha. apply encodeString_grows in Hb. lia. }
  assert (Hmono : forall n m, grows 11 buffer m -> 0 <= n -> grows (12 + n) buffer m).
  { intros n m Hm Hn b Hb. apply Hm in Hb. lia. }
  repeat case_if; intros Henc; inv_ok.
  - unfold encodeNeverIndexLiteralHeader in E. inv_ok. eapply Hlit; [|eassumption|eassumption].
    case_if; [apply Hmono; [apply encode_flagged_grows|lia]|apply encode_literal_name_grows].
  - unfold encodeIndexedHeader in E. apply encode_flagged_grows in E. lia.
  - unfold encodeIndexLiteralHeader in E. inv_ok. eapply Hlit; [|eassumption|eassumption].
    case_if; [apply Hmono; [apply encode_flagged_grows|lia]|].
    intros b Hb. inv_ok. by apply encode_literal_name_grows in Hb.
  - unfold encodeUnIndexLiteralHeader in E. inv_ok. eapply Hlit; [|eassumption|eassumption].
    case_if; [apply Hmono; [apply encodeVInt_grows|lia]|].
    intros b Hb. inv_ok. by apply encode_literal_name_grows in Hb.
Qed.

Lemma headerListSize_cons h hs : headerListSize (h :: hs) = HeaderField.size h + headerListSize hs.
Proof.
  unfold headerListSize. cbn [fold_left]. set (f := fun _ _ => _).
  assert (Hacc : forall l a, fold_left f l a = a + fold_left f l 0).
  { induction l as [|x l IH]; intros a; cbn [fold_left]; [lia|]. rewrite IH, (IH (f 0 x)). unfold f. lia. }
  rewrite Hacc. unfold HeaderField.size. lia.
Qed.

Lemma encode_headers_size buffer tb hs b' tb' :
  encode_headers buffer tb hs = Ok (b', tb') -> zlen b' <= zlen buffer + headerListSize hs.
Proof.
  revert buffer tb. induction hs as [|h hs IH]; intros buffer tb; cbn [encode_headers]; intros H.
  - injection H as <- <-. cbn. lia.
  - inv_ok. destruct a as [b1 tb1]. apply encode_header_grows in E. apply IH in H.
    rewrite headerListSize_cons. lia.
Qed.

Lemma encode_size hs hp block hp' :
  encode hs hp = Ok (block, hp') -> zlen block <= 22 + headerListSize hs.
Proof.
  unfold encode, encode_updates. intros H. inv_ok. destruct a as [b1 hp1]. inv_ok.
  destruct a as [b2 tb]. inv_ok. apply encode_headers_size in E0.
  assert (zlen b1 <= 22); [|lia].
  destruct (encodeTableDirty hp); inv_ok; [|done].
  match goal with H : encodeTableSizeUpdate _ _ = Ok _ |- _ => apply encode_flagged_grows in H end.
  destruct (_ <? _); inv_ok; change (zlen (@nil byte)) with 0 in *; [|lia].
  match goal with H : encodeTableSizeUpdate _ _ = Ok _ |- _ => apply encode_flagged_grows in H end.
  change (zlen (@nil byte)) with 0 in *. lia.
Qed.
