(* ===== verification/FrameParse.v ===== *)
(** * Parsing received frames is safe

    The frame handlers validate a payload ([validatePaddedPayload], or a check
    of its length) before they parse it; after that check no accessor of the
    parser can fail. *)

From S2P Require Import Prelude Outcome ByteBuffer Types Frame FrameFacts FrameCodec.
From S2P Require Import HeaderRules.

Lemma raw_len raw : RawFrame.wf raw -> 0 <= zlen (RawFrame.data raw) < 2 ^ 24.
Proof. intros [[[? ?] _] Hl]. lia. Qed.

Lemma raw_reads raw : RawFrame.wf raw -> reads (ByteSpan.make (RawFrame.data raw)) (RawFrame.data raw).
Proof. intros Hr. apply reads_make. pose proof (raw_len raw Hr). lia. Qed.

(** What a payload holds once it has been validated for a fixed prefix of [n]
    bytes: the padding and the prefix fit. *)
Definition payload_split (raw : RawFrame.t) (n pad : Z) (l : bytes) : Prop :=
  0 <= pad < 256 /\ n + pad <= zlen l /\
  if FrameHeader.hasAnyFlag FrameFlag.PADDED (RawFrame.header raw)
  then exists b, RawFrame.data raw = b :: l /\ pad = b2z b
  else RawFrame.data raw = l /\ pad = 0.

Lemma payload_split_read raw n pad l :
  RawFrame.wf raw -> payload_split raw n pad l ->
  exists sp, read_padLength (RawFrame.header raw) (ByteSpan.make (RawFrame.data raw)) = Ok (pad, sp)
    /\ reads sp l.
Proof.
  intros Hr (Hpad & Hn & H). pose proof (raw_len _ Hr).
  destruct (FrameHeader.hasAnyFlag FrameFlag.PADDED (RawFrame.header raw)) eqn:Hp.
  - destruct H as (b & Hd & ->). rewrite Hd in *. by apply read_padLength_padded; [|lia].
  - destruct H as [<- ->]. eexists. split; [by apply read_padLength_unpadded|]. by apply raw_reads.
Qed.

Lemma payload_validate_total raw n :
  RawFrame.wf raw -> 0 <= n ->
  exists o, validatePaddedPayload raw n = Ok o /\
    match o with
    | Some (code, debug) => 0 <= code < 2 ^ 32 /\ zlen debug < 2 ^ 16
    | None => exists pad l, payload_split raw n pad l
    end.
Proof.
  intros Hr Hn. unfold validatePaddedPayload. pose proof (raw_len _ Hr). destruct Hr as [_ Hl].
  rewrite Hl. unfold payload_split.
  destruct (FrameHeader.hasAnyFlag FrameFlag.PADDED (RawFrame.header raw)); cbn [negb].
  2:{ destruct (Z.ltb_spec (zlen (RawFrame.data raw)) n); eexists; (split; [done|]); [done|].
      exists 0, (RawFrame.data raw). split; [lia|]. split; [lia|done]. }
  destruct (RawFrame.data raw) as [|b l]; [eexists; split; [done|done]|].
  assert (Hi : ByteSpan.index (ByteSpan.make (b :: l)) 0 = Ok b).
  { unfold ByteSpan.index, ByteSpan.len. cbn [ByteSpan.data ByteSpan.make].
    rewrite Z.geb_leb. destruct (Z.leb_spec (zlen (b :: l)) 0); [zlen_lia|done]. }
  rewrite zlen_cons in *. destruct (Z.eqb_spec (1 + zlen l) 0); [zlen_lia|]. rewrite Hi. cbn [obind].
  destruct (Z.ltb_spec (1 + zlen l) (1 + n)); [eexists; split; done|]. rewrite Z.geb_leb.
  destruct (Z.leb_spec (1 + zlen l - 1 - n) (b2z b)); [eexists; split; done|].
  eexists. split; [done|]. exists (b2z b), l. pose proof (b2z_range b).
  split; [lia|]. split; [lia|eauto].
Qed.

Lemma data_parse raw pad l :
  RawFrame.wf raw -> payload_split raw 0 pad l ->
  DataFrame.parse raw
    = Ok (DataFrame.mk (RawFrame.header raw) pad (ztake (zlen l - pad) l) (zdrop (zlen l - pad) l)).
Proof.
  intros Hr Hs. destruct (payload_split_read _ _ _ _ Hr Hs) as (sp & Hp & Hl).
  destruct Hs as (? & ? & _). unfold DataFrame.parse. rewrite Hp. cbn [obind].
  by erewrite split_padding_ok by (done || lia).
Qed.

Lemma headers_parse raw n pad l :
  RawFrame.wf raw -> n = (if FrameHeader.hasAnyFlag FrameFlag.PRIORITY (RawFrame.header raw) then 5 else 0) ->
  payload_split raw n pad l ->
  exists dep w,
    HeadersFrame.parse raw
      = Ok (HeadersFrame.mk (RawFrame.header raw) pad dep w
              (ztake (zlen l - n - pad) (zdrop n l)) (zdrop (zlen l - n - pad) (zdrop n l))).
Proof.
  intros Hr -> Hs. destruct (payload_split_read _ _ _ _ Hr Hs) as (sp & Hp & Hl).
  destruct Hs as (? & ? & _). unfold HeadersFrame.parse. rewrite Hp. cbn [obind].
  destruct (FrameHeader.hasAnyFlag FrameFlag.PRIORITY (RawFrame.header raw)).
  - destruct (reads_readAs_any sp 4 l) as (sp1 & -> & Hl1); [done|lia|]. cbn [obind].
    destruct (reads_readAs_any sp1 1 (zdrop 4 l)) as (sp2 & -> & Hl2); [done|rewrite zlen_zdrop; lia|].
    cbn [obind]. change (Z.of_nat 4) with 4 in *. change (Z.of_nat 1) with 1 in *.
    rewrite zdrop_zdrop in Hl2 by lia. change (4 + 1) with 5 in Hl2.
    erewrite split_padding_ok by (done || rewrite zlen_zdrop; lia). cbn [obind].
    rewrite zlen_zdrop by lia. eauto.
  - cbn [obind]. erewrite split_padding_ok by (done || lia). cbn [obind]. rewrite zdrop_0, Z.sub_0_r. eauto.
Qed.

Lemma push_promise_parse raw pad l :
  RawFrame.wf raw -> payload_split raw 4 pad l ->
  exists f, PushPromiseFrame.parse raw = Ok f.
Proof.
  intros Hr Hs. destruct (payload_split_read _ _ _ _ Hr Hs) as (sp & Hp & Hl).
  destruct Hs as (? & ? & _). unfold PushPromiseFrame.parse. rewrite Hp. cbn [obind].
  destruct (reads_readAs_any sp 4 l) as (sp1 & -> & Hl1); [done|lia|]. cbn [obind].
  erewrite split_padding_ok by (done || rewrite zlen_zdrop; lia). cbn [obind]. eauto.
Qed.

Lemma read4_ok raw :
  RawFrame.wf raw -> 4 <= zlen (RawFrame.data raw) ->
  exists sp, ByteSpan.readAs 4 (ByteSpan.make (RawFrame.data raw))
    = Ok (be_read (ztake 4 (RawFrame.data raw)), sp) /\ reads sp (zdrop 4 (RawFrame.data raw)).
Proof.
  intros Hr Hl. by destruct (reads_readAs_any _ 4 _ (raw_reads raw Hr)) as (sp & ? & ?); [|exists sp].
Qed.

Lemma read_range n l : n <= zlen l -> 0 <= n -> 0 <= be_read (ztake n l) < 256 ^ n.
Proof. intros. pose proof (be_read_range (ztake n l)) as Hr. by rewrite zlen_ztake in Hr by lia. Qed.

Lemma rst_stream_parse raw :
  RawFrame.wf raw -> zlen (RawFrame.data raw) = 4 ->
  exists code, RstStreamFrame.parse raw = Ok (RstStreamFrame.mk (RawFrame.header raw) code) /\ 0 <= code < 2 ^ 32.
Proof.
  intros Hr Hl. destruct (read4_ok raw Hr) as (sp & Hp & _); [lia|].
  unfold RstStreamFrame.parse. rewrite Hp. eexists. split; [done|]. apply read_range; lia.
Qed.

Lemma window_update_parse raw :
  RawFrame.wf raw -> zlen (RawFrame.data raw) = 4 ->
  exists n, WindowUpdateFrame.parse raw = Ok (WindowUpdateFrame.mk (RawFrame.header raw) n) /\ 0 <= n < 2 ^ 32.
Proof.
  intros Hr Hl. destruct (read4_ok raw Hr) as (sp & Hp & _); [lia|].
  unfold WindowUpdateFrame.parse. rewrite Hp. eexists. split; [done|]. apply read_range; lia.
Qed.

Lemma land_31_range n : 0 <= Z.land n 0x7fffffff < 2 ^ 31.
Proof. change 0x7fffffff with (Z.ones 31). rewrite Z.land_ones by lia. apply Z.mod_pos_bound. lia. Qed.

Lemma goaway_parse raw :
  RawFrame.wf raw -> 8 <= zlen (RawFrame.data raw) ->
  exists f, GoAwayFrame.parse raw = Ok f /\ 0 <= GoAwayFrame.errorCode f < 2 ^ 32 /\
    0 <= GoAwayFrame.lastStreamId f < 2 ^ 31.
Proof.
  intros Hr Hl. destruct (read4_ok raw Hr) as (sp & Hp & Hsp); [lia|].
  unfold GoAwayFrame.parse. rewrite Hp. cbn [obind].
  destruct (reads_readAs_any sp 4 _ Hsp) as (sp1 & -> & _); [rewrite zlen_zdrop; lia|]. cbn [obind].
  eexists. split; [done|]. split; [|apply land_31_range]. apply read_range; [rewrite zlen_zdrop|]; lia.
Qed.

(** SETTINGS entries in wire range. *)
Definition settings_wf (l : list (Z * Z)) : Prop :=
  Forall (fun s => 0 <= fst s < 2 ^ 16 /\ 0 <= snd s < 2 ^ 32) l.

Lemma read_settings_total fuel sp l :
  reads sp l -> zlen l mod 6 = 0 -> zlen l < Z.of_nat fuel ->
  exists s, SettingFrame.read_settings fuel sp = Ok s /\ settings_wf s /\ 6 * zlen s = zlen l.
Proof.
  revert sp l. induction fuel as [|fuel IH]; intros sp l Hr Hm Hf; [pose proof (zlen_nonneg l); lia|].
  pose proof Hr as [Hwf Hrest]. cbn [SettingFrame.read_settings]. destruct (ByteSpan.empty sp) eqn:He.
  { apply ByteSpan.empty_rest in He; [|done]. rewrite Hrest in He. subst l. exists []. split; [done|].
    split; [apply Forall_nil_2|by rewrite He]. }
  apply ByteSpan.empty_false_rest in He; [|done]. rewrite Hrest in He.
  assert (Hl : 6 <= zlen l).
  { destruct l; [done|]. assert (0 < zlen (b :: l)) by zlen_lia. apply Z.mod_divide in Hm; [|lia].
    apply Z.divide_pos_le; [lia|done]. }
  destruct (reads_readAs_any sp 2 l Hr) as (sp1 & -> & Hr1); [lia|]. cbn [obind].
  change (Z.of_nat 2) with 2 in *.
  destruct (reads_readAs_any sp1 4 _ Hr1) as (sp2 & -> & Hr2); [rewrite zlen_zdrop; lia|]. cbn [obind].
  change (Z.of_nat 4) with 4 in *. rewrite zdrop_zdrop in Hr2 by lia.
  destruct (IH sp2 _ Hr2) as (s & -> & Hs & Hlen).
  - rewrite zlen_zdrop by lia. rewrite Zminus_mod, Hm. done.
  - rewrite zlen_zdrop by lia. lia.
  - cbn [obind]. eexists. split; [done|]. rewrite zlen_zdrop in Hlen by lia. split; [|zlen_lia].
    apply Forall_cons_2; [|done]. cbn [fst snd].
    split; [apply (read_range 2)|apply (read_range 4)]; rewrite ?zlen_zdrop; lia.
Qed.

Lemma settings_parse raw :
  RawFrame.wf raw -> zlen (RawFrame.data raw) mod 6 = 0 ->
  exists s, SettingFrame.parse raw = Ok (SettingFrame.mk (RawFrame.header raw) s) /\ settings_wf s.
Proof.
  intros Hr Hm. pose proof (raw_reads raw Hr) as [Hwf Hd]. unfold SettingFrame.parse.
  rewrite ByteSpan.size_rest, Hd, Hm by done. cbn [Z.eqb negb].
  destruct (read_settings_total (S (length (RawFrame.data raw))) _ _ (raw_reads raw Hr) Hm) as (s & -> & Hs & _);
    [unfold zlen; lia|]. cbn [obind]. eauto.
Qed.

(** ** Ranges without any assumption on the frame *)

Lemma lor_range k a b : 0 <= k -> 0 <= a < 2 ^ k -> 0 <= b < 2 ^ k -> 0 <= Z.lor a b < 2 ^ k.
Proof.
  intros Hk [Ha Ha'] [Hb Hb']. assert (0 <= Z.lor a b) by by apply Z.lor_nonneg. split; [done|].
  destruct (Z.eq_dec (Z.lor a b) 0) as [->|]; [lia|]. apply Z.log2_lt_pow2; [lia|].
  rewrite Z.log2_lor by lia. destruct (Z.eq_dec a 0) as [->|], (Z.eq_dec b 0) as [->|]; try done.
  - change (Z.log2 0) with 0. rewrite Z.max_r by apply Z.log2_nonneg. apply Z.log2_lt_pow2; lia.
  - change (Z.log2 0) with 0. rewrite Z.max_l by apply Z.log2_nonneg. apply Z.log2_lt_pow2; lia.
  - apply Z.max_lub_lt; apply Z.log2_lt_pow2; lia.
Qed.

(** What is read fits its type, whatever the span. *)
Lemma readAs_range n sp v sp' :
  (1 <= n)%nat -> ByteSpan.readAs n sp = Ok (v, sp') -> 0 <= v < 256 ^ Z.of_nat n.
Proof.
  intros Hn. unfold ByteSpan.readAs, ByteSpan.peek. destruct (_ >? _); [done|]. cbn [obind].
  destruct (ByteSpan.advance _ _); [|done]. cbn [obind]. intros [= <- _].
  assert (Hpow : 256 ^ Z.of_nat n = 2 ^ (8 * Z.of_nat n)) by (rewrite (Z.pow_mul_r 2 8) by lia; reflexivity).
  assert (H8 : 2 ^ 8 <= 2 ^ (8 * Z.of_nat n)) by (apply Z.pow_le_mono_r; lia).
  rewrite Hpow. generalize (ztake (Z.of_nat n) (zdrop (ByteSpan.cur sp) (ByteSpan.data sp))). intros l.
  enough (Hall : forall acc, 0 <= acc < 2 ^ (8 * Z.of_nat n) ->
    0 <= fold_left (fun v b => Z.lor (Z.shiftl v 8 mod 2 ^ (8 * Z.of_nat n)) (b2z b)) l acc < 2 ^ (8 * Z.of_nat n))
    by (apply Hall; lia).
  induction l as [|b l IH]; intros acc Hacc; cbn [fold_left]; [done|]. apply IH. apply lor_range; [lia| |].
  - apply Z.mod_pos_bound. lia.
  - pose proof (b2z_range b). lia.
Qed.

Lemma read_settings_range fuel sp l : SettingFrame.read_settings fuel sp = Ok l -> settings_wf l.
Proof.
  revert sp l. induction fuel as [|fuel IH]; intros sp l; cbn [SettingFrame.read_settings]; [done|].
  destruct (ByteSpan.empty sp); [intros [= <-]; apply Forall_nil_2|]. intros H. inv_ok.
  destruct a as [id sp1]. apply obind_Ok_inv in H as ([value sp2] & E2 & H). apply obind_Ok_inv in H as (rest & E3 & H).
  injection H as <-. apply Forall_cons_2; [|by eapply IH].
  split; [by apply (readAs_range 2) in E; [|lia]|by apply (readAs_range 4) in E2; [|lia]].
Qed.

Lemma settings_range raw f : SettingFrame.parse raw = Ok f -> settings_wf (SettingFrame.settings f).
Proof.
  unfold SettingFrame.parse. case_if; [intros [= <-]; apply Forall_nil_2|].
  intros H. inv_ok. by eapply read_settings_range.
Qed.
