(* ===== verification/Stream.v ===== *)
(** * Streams

    [include/chttp2/stream.hpp] and [src/stream.cpp]: the per-request record
    that [Http2Protocol] mutates; one setter per field that it assigns. *)

From S2P Require Import Prelude Outcome ByteBuffer Types Flow.

Module Stream.
Record t := mk {
  streamId : Z;
  streamState : StreamState;
  requestStarted : bool;
  localEndStreamSent : bool;
  remoteEndStreamReceived : bool;
  waitingForContinuation : bool;
  pendingHeaderEndStream : bool;
  finalResponseHeadersReceived : bool;
  trailingHeadersReceived : bool;
  responseComplete : bool;
  isHeadRequest : bool;
  requestBodyOffset : Z;
  expectedContentLength : Z;  (** -1: no Content-Length header *)
  receivedContentLength : Z;
  rqst : Request.t;
  resp : Response.t;
  lastEC : Z;
  pendingHeaderBlock : ByteBuffer.t;
  inflow : InFlow.t;
  outflow : OutFlow.t;
}.

Definition init (id : Z) : t :=
  mk id IDLE false false false false false false false false false 0 (-1) 0
     Request.init Response.init ErrorCode.NO_ERROR ByteBuffer.empty_buffer
     InFlow.init_zero OutFlow.init_zero.

Definition set_streamState (v : StreamState) (s : t) : t :=
  mk (streamId s) v (requestStarted s) (localEndStreamSent s) (remoteEndStreamReceived s)
    (waitingForContinuation s) (pendingHeaderEndStream s) (finalResponseHeadersReceived s)
    (trailingHeadersReceived s) (responseComplete s) (isHeadRequest s) (requestBodyOffset s)
    (expectedContentLength s) (receivedContentLength s) (rqst s) (resp s) (lastEC s)
    (pendingHeaderBlock s) (inflow s) (outflow s).
Definition set_requestStarted (v : bool) (s : t) : t :=
  mk (streamId s) (streamState s) v (localEndStreamSent s) (remoteEndStreamReceived s)
    (waitingForContinuation s) (pendingHeaderEndStream s) (finalResponseHeadersReceived s)
    (trailingHeadersReceived s) (responseComplete s) (isHeadRequest s) (requestBodyOffset s)
    (expectedContentLength s) (receivedContentLength s) (rqst s) (resp s) (lastEC s)
    (pendingHeaderBlock s) (inflow s) (outflow s).
Definition set_localEndStreamSent (v : bool) (s : t) : t :=
  mk (streamId s) (streamState s) (requestStarted s) v (remoteEndStreamReceived s)
    (waitingForContinuation s) (pendingHeaderEndStream s) (finalResponseHeadersReceived s)
    (trailingHeadersReceived s) (responseComplete s) (isHeadRequest s) (requestBodyOffset s)
    (expectedContentLength s) (receivedContentLength s) (rqst s) (resp s) (lastEC s)
    (pendingHeaderBlock s) (inflow s) (outflow s).
Definition set_remoteEndStreamReceived (v : bool) (s : t) : t :=
  mk (streamId s) (streamState s) (requestStarted s) (localEndStreamSent s) v
    (waitingForContinuation s) (pendingHeaderEndStream s) (finalResponseHeadersReceived s)
    (trailingHeadersReceived s) (responseComplete s) (isHeadRequest s) (requestBodyOffset s)
    (expectedContentLength s) (receivedContentLength s) (rqst s) (resp s) (lastEC s)
    (pendingHeaderBlock s) (inflow s) (outflow s).
Definition set_waitingForContinuation (v : bool) (s : t) : t :=
  mk (streamId s) (streamState s) (requestStarted s) (localEndStreamSent s)
    (remoteEndStreamReceived s) v (pendingHeaderEndStream s) (finalResponseHeadersReceived s)
    (trailingHeadersReceived s) (responseComplete s) (isHeadRequest s) (requestBodyOffset s)
    (expectedContentLength s) (receivedContentLength s) (rqst s) (resp s) (lastEC s)
    (pendingHeaderBlock s) (inflow s) (outflow s).
Definition set_pendingHeaderEndStream (v : bool) (s : t) : t :=
  mk (streamId s) (streamState s) (requestStarted s) (localEndStreamSent s)
    (remoteEndStreamReceived s) (waitingForContinuation s) v (finalResponseHeadersReceived s)
    (trailingHeadersReceived s) (responseComplete s) (isHeadRequest s) (requestBodyOffset s)
    (expectedContentLength s) (receivedContentLength s) (rqst s) (resp s) (lastEC s)
    (pendingHeaderBlock s) (inflow s) (outflow s).
Definition set_finalResponseHeadersReceived (v : bool) (s : t) : t :=
  mk (streamId s) (streamState s) (requestStarted s) (localEndStreamSent s)
    (remoteEndStreamReceived s) (waitingForContinuation s) (pendingHeaderEndStream s) v
    (trailingHeadersReceived s) (responseComplete s) (isHeadRequest s) (requestBodyOffset s)
    (expectedContentLength s) (receivedContentLength s) (rqst s) (resp s) (lastEC s)
    (pendingHeaderBlock s) (inflow s) (outflow s).
Definition set_trailingHeadersReceived (v : bool) (s : t) : t :=
  mk (streamId s) (streamState s) (requestStarted s) (localEndStreamSent s)
    (remoteEndStreamReceived s) (waitingForContinuation s) (pendingHeaderEndStream s)
    (finalResponseHeadersReceived s) v (responseComplete s) (isHeadRequest s)
    (requestBodyOffset s) (expectedContentLength s) (receivedContentLength s) (rqst s) (resp s)
    (lastEC s) (pendingHeaderBlock s) (inflow s) (outflow s).
Definition set_responseComplete (v : bool) (s : t) : t :=
  mk (streamId s) (streamState s) (requestStarted s) (localEndStreamSent s)
    (remoteEndStreamReceived s) (waitingForContinuation s) (pendingHeaderEndStream s)
    (finalResponseHeadersReceived s) (trailingHeadersReceived s) v (isHeadRequest s)
    (requestBodyOffset s) (expectedContentLength s) (receivedContentLength s) (rqst s) (resp s)
    (lastEC s) (pendingHeaderBlock s) (inflow s) (outflow s).
Definition set_requestBodyOffset (v : Z) (s : t) : t :=
  mk (streamId s) (streamState s) (requestStarted s) (localEndStreamSent s)
    (remoteEndStreamReceived s) (waitingForContinuation s) (pendingHeaderEndStream s)
    (finalResponseHeadersReceived s) (trailingHeadersReceived s) (responseComplete s)
    (isHeadRequest s) v (expectedContentLength s) (receivedContentLength s) (rqst s) (resp s)
    (lastEC s) (pendingHeaderBlock s) (inflow s) (outflow s).
Definition set_expectedContentLength (v : Z) (s : t) : t :=
  mk (streamId s) (streamState s) (requestStarted s) (localEndStreamSent s)
    (remoteEndStreamReceived s) (waitingForContinuation s) (pendingHeaderEndStream s)
    (finalResponseHeadersReceived s) (trailingHeadersReceived s) (responseComplete s)
    (isHeadRequest s) (requestBodyOffset s) v (receivedContentLength s) (rqst s) (resp s)
    (lastEC s) (pendingHeaderBlock s) (inflow s) (outflow s).
Definition set_receivedContentLength (v : Z) (s : t) : t :=
  mk (streamId s) (streamState s) (requestStarted s) (localEndStreamSent s)
    (remoteEndStreamReceived s) (waitingForContinuation s) (pendingHeaderEndStream s)
    (finalResponseHeadersReceived s) (trailingHeadersReceived s) (responseComplete s)
    (isHeadRequest s) (requestBodyOffset s) (expectedContentLength s) v (rqst s) (resp s)
    (lastEC s) (pendingHeaderBlock s) (inflow s) (outflow s).
Definition set_rqst (v : Request.t) (s : t) : t :=
  mk (streamId s) (streamState s) (requestStarted s) (localEndStreamSent s)
    (remoteEndStreamReceived s) (waitingForContinuation s) (pendingHeaderEndStream s)
    (finalResponseHeadersReceived s) (trailingHeadersReceived s) (responseComplete s)
    (isHeadRequest s) (requestBodyOffset s) (expectedContentLength s) (receivedContentLength s)
    v (resp s) (lastEC s) (pendingHeaderBlock s) (inflow s) (outflow s).
Definition set_resp (v : Response.t) (s : t) : t :=
  mk (streamId s) (streamState s) (requestStarted s) (localEndStreamSent s)
    (remoteEndStreamReceived s) (waitingForContinuation s) (pendingHeaderEndStream s)
    (finalResponseHeadersReceived s) (trailingHeadersReceived s) (responseComplete s)
    (isHeadRequest s) (requestBodyOffset s) (expectedContentLength s) (receivedContentLength s)
    (rqst s) v (lastEC s) (pendingHeaderBlock s) (inflow s) (outflow s).
Definition set_pendingHeaderBlock (v : ByteBuffer.t) (s : t) : t :=
  mk (streamId s) (streamState s) (requestStarted s) (localEndStreamSent s)
    (remoteEndStreamReceived s) (waitingForContinuation s) (pendingHeaderEndStream s)
    (finalResponseHeadersReceived s) (trailingHeadersReceived s) (responseComplete s)
    (isHeadRequest s) (requestBodyOffset s) (expectedContentLength s) (receivedContentLength s)
    (rqst s) (resp s) (lastEC s) v (inflow s) (outflow s).
Definition set_inflow (v : InFlow.t) (s : t) : t :=
  mk (streamId s) (streamState s) (requestStarted s) (localEndStreamSent s)
    (remoteEndStreamReceived s) (waitingForContinuation s) (pendingHeaderEndStream s)
    (finalResponseHeadersReceived s) (trailingHeadersReceived s) (responseComplete s)
    (isHeadRequest s) (requestBodyOffset s) (expectedContentLength s) (receivedContentLength s)
    (rqst s) (resp s) (lastEC s) (pendingHeaderBlock s) v (outflow s).
Definition set_outflow (v : OutFlow.t) (s : t) : t :=
  mk (streamId s) (streamState s) (requestStarted s) (localEndStreamSent s)
    (remoteEndStreamReceived s) (waitingForContinuation s) (pendingHeaderEndStream s)
    (finalResponseHeadersReceived s) (trailingHeadersReceived s) (responseComplete s)
    (isHeadRequest s) (requestBodyOffset s) (expectedContentLength s) (receivedContentLength s)
    (rqst s) (resp s) (lastEC s) (pendingHeaderBlock s) (inflow s) v.

Definition isClosed (s : t) : bool := bool_decide (streamState s = CLOSED).
Definition needsContinuation (s : t) : bool := waitingForContinuation s.
Definition hasPendingRequestBody (s : t) : bool :=
  requestBodyOffset s <? zlen (Request.body (rqst s)).
Definition hasBody (s : t) : bool := negb (zlen (Request.body (rqst s)) =? 0).
Definition bodySize (s : t) : Z := zlen (Request.body (rqst s)).
Definition bodyOffset (s : t) : Z := requestBodyOffset s.

(** A [size_t] difference. *)
Definition remainingBodySize (s : t) : Z := u64 (zlen (Request.body (rqst s)) - requestBodyOffset s).

(** The status code is parsed first: [std::stoi] may throw. *)
Definition expectsNoBody (s : t) : outcome bool :=
  let! status := Response.getStatusCode (resp s) in
  Ok (isHeadRequest s || (status =? 204) || (status =? 304)).

Definition setRequest (request : Request.t) (s : t) : t :=
  let head := match StdMap.find (bs ":method") (Request.headers request) with
              | Some method => bool_decide (method = bs "HEAD")
              | None => false
              end in
  mk (streamId s) (streamState s) (requestStarted s) (localEndStreamSent s)
     (remoteEndStreamReceived s) (waitingForContinuation s) (pendingHeaderEndStream s)
     (finalResponseHeadersReceived s) (trailingHeadersReceived s) (responseComplete s)
     head (requestBodyOffset s) (expectedContentLength s) (receivedContentLength s)
     request (resp s) (lastEC s) (pendingHeaderBlock s) (inflow s) (outflow s).

Definition markClosed (errorCode : Z) (s : t) : t :=
  mk (streamId s) CLOSED (requestStarted s) (localEndStreamSent s)
     (remoteEndStreamReceived s) (waitingForContinuation s) (pendingHeaderEndStream s)
     (finalResponseHeadersReceived s) (trailingHeadersReceived s) (responseComplete s)
     (isHeadRequest s) (requestBodyOffset s) (expectedContentLength s) (receivedContentLength s)
     (rqst s) (resp s) errorCode (pendingHeaderBlock s) (inflow s) (outflow s).
End Stream.
