(* ===== verification/ProtocolEvent.v ===== *)
(** * Protocol events and step results

    [include/chttp2/protocol_event.hpp], and [ProtocolStepResult] of
    [http2_protocol.hpp] with [mergeStepResult] of [src/http2_protocol.cpp].
    A [ProtocolEvent] is a tagged union: one constructor per factory, with
    the fields that factory sets. *)

From S2P Require Import Prelude Outcome Types.

Inductive ProtocolEvent : Type :=
| connectionStarted
| settingsReceived
| settingsAckReceived
| pingReceived (opaqueData : bytes)
| pingAckReceived (opaqueData : bytes)
| goAwaySent (lastStreamId errorCode : Z) (debugData : bytes)
| goAwayReceived (lastStreamId errorCode : Z) (debugData : bytes)
| connectionError (errorCode : Z)
| connectionClosed (errorCode : Z)
| transportClosed
| streamOpened (streamId : Z)
| streamHeadersReceived (streamId : Z) (response : Response.t)
| streamResetReceived (streamId errorCode : Z)
| streamClosed (streamId errorCode : Z)
| windowUpdateReceived (streamId increment : Z)
| pushPromiseReceived (streamId promisedStreamId : Z)
| unknownFrameReceived (frameType streamId flags : Z) (opaqueData : bytes)
| responseCompleted (streamId : Z) (response : Response.t)
| responseFailed (streamId errorCode : Z).

Module StepResult.
Record t := mk {
  outbound : list bytes;
  events : list ProtocolEvent;
  hasSubmittedStream : bool;
  submittedStreamId : Z;
}.

Definition empty : t := mk [] [] false 0.

(** [result.events.push_back(e)]. *)
Definition push_event (e : ProtocolEvent) (r : t) : t :=
  mk (outbound r) (events r ++ [e]) (hasSubmittedStream r) (submittedStreamId r).

(** [result->outbound.push_back(b)], as [appendOutboundFrame] does. *)
Definition push_outbound (b : bytes) (r : t) : t :=
  mk (outbound r ++ [b]) (events r) (hasSubmittedStream r) (submittedStreamId r).

Definition set_submitted (id : Z) (r : t) : t := mk (outbound r) (events r) true id.

Definition mergeStepResult (dst src : t) : t :=
  mk (outbound dst ++ outbound src) (events dst ++ events src)
     (if hasSubmittedStream src then true else hasSubmittedStream dst)
     (if hasSubmittedStream src then submittedStreamId src else submittedStreamId dst).

Lemma merge_empty_l r : hasSubmittedStream r = true \/ submittedStreamId r = 0 -> mergeStepResult empty r = r.
Proof. destruct r as [o e [] i]; cbn; intros [?|?]; try done; by subst. Qed.

Lemma merge_empty_r r : mergeStepResult r empty = r.
Proof. destruct r; unfold mergeStepResult; cbn. by rewrite !app_nil_r. Qed.

Lemma merge_assoc a b c :
  mergeStepResult (mergeStepResult a b) c = mergeStepResult a (mergeStepResult b c).
Proof. destruct a, b, c; unfold mergeStepResult; cbn. rewrite !app_assoc. by repeat case_if. Qed.

Lemma merge_push_event a b e : mergeStepResult a (push_event e b) = push_event e (mergeStepResult a b).
Proof. unfold mergeStepResult, push_event; cbn. by rewrite app_assoc. Qed.

Lemma merge_push_outbound a b x :
  mergeStepResult a (push_outbound x b) = push_outbound x (mergeStepResult a b).
Proof. unfold mergeStepResult, push_outbound; cbn. by rewrite app_assoc. Qed.
End StepResult.
