(* ===== verification/ProtocolState.v ===== *)
(** * Protocol state

    The data members of [Http2Protocol] ([include/chttp2/http2_protocol.hpp]),
    one setter per member, [reset], the constructor and the query methods of
    the class.  The hash table of streams is a finite map; a [Stream*] is the
    id of its stream, and dereferencing it is undefined once the stream has
    been erased.  [std::unordered_map] iterates in an order the code cannot
    rely on: it is a parameter, [IterOrder]. *)

From S2P Require Import Prelude Outcome ByteBuffer Types Flow Frame FrameCodec HpackTable.
From S2P Require Import Hpack ProtocolEvent Stream.

Module Http2Protocol.
Record t := mk {
  frameCodec : FrameCodec.t;
  streams : gmap Z Stream.t;
  maxConcurrentStreams : Z;
  encodeHeaderTableSize : Z;
  decodeHeaderTableSize : Z;
  maxFrameSize : Z;
  localMaxFrameSize : Z;
  initialWindowSize : Z;
  maxHeaderListSize : Z;
  enablePush : bool;
  nextStreamId : Z;
  lastPeerStreamId : Z;
  started : bool;
  closed : bool;
  sentConnectionPreface : bool;
  sentLocalSettings : bool;
  gotPeerSettings : bool;
  sentGoaway : bool;
  receivedGoaway : bool;
  transportClosed_ : bool;
  expectingContinuation : bool;
  continuationStreamId : Z;
  connectionErrorCode : Z;
  connectionDebugData : bytes;
  pingCounter : Z;
  connectionInflow : InFlow.t;
  connectionOutFlow : OutFlow.t;
  hpack : Hpack.t;
  ghostHeaderBlock : ByteBuffer.t;
}.

Definition set_frameCodec (v : FrameCodec.t) (p : t) : t :=
  mk v (streams p) (maxConcurrentStreams p) (encodeHeaderTableSize p) (decodeHeaderTableSize p)
    (maxFrameSize p) (localMaxFrameSize p) (initialWindowSize p) (maxHeaderListSize p)
    (enablePush p) (nextStreamId p) (lastPeerStreamId p) (started p) (closed p)
    (sentConnectionPreface p) (sentLocalSettings p) (gotPeerSettings p) (sentGoaway p)
    (receivedGoaway p) (transportClosed_ p) (expectingContinuation p) (continuationStreamId p)
    (connectionErrorCode p) (connectionDebugData p) (pingCounter p) (connectionInflow p)
    (connectionOutFlow p) (hpack p) (ghostHeaderBlock p).
Definition set_streams (v : gmap Z Stream.t) (p : t) : t :=
  mk (frameCodec p) v (maxConcurrentStreams p) (encodeHeaderTableSize p)
    (decodeHeaderTableSize p) (maxFrameSize p) (localMaxFrameSize p) (initialWindowSize p)
    (maxHeaderListSize p) (enablePush p) (nextStreamId p) (lastPeerStreamId p) (started p)
    (closed p) (sentConnectionPreface p) (sentLocalSettings p) (gotPeerSettings p)
    (sentGoaway p) (receivedGoaway p) (transportClosed_ p) (expectingContinuation p)
    (continuationStreamId p) (connectionErrorCode p) (connectionDebugData p) (pingCounter p)
    (connectionInflow p) (connectionOutFlow p) (hpack p) (ghostHeaderBlock p).
Definition set_maxConcurrentStreams (v : Z) (p : t) : t :=
  mk (frameCodec p) (streams p) v (encodeHeaderTableSize p) (decodeHeaderTableSize p)
    (maxFrameSize p) (localMaxFrameSize p) (initialWindowSize p) (maxHeaderListSize p)
    (enablePush p) (nextStreamId p) (lastPeerStreamId p) (started p) (closed p)
    (sentConnectionPreface p) (sentLocalSettings p) (gotPeerSettings p) (sentGoaway p)
    (receivedGoaway p) (transportClosed_ p) (expectingContinuation p) (continuationStreamId p)
    (connectionErrorCode p) (connectionDebugData p) (pingCounter p) (connectionInflow p)
    (connectionOutFlow p) (hpack p) (ghostHeaderBlock p).
Definition set_encodeHeaderTableSize (v : Z) (p : t) : t :=
  mk (frameCodec p) (streams p) (maxConcurrentStreams p) v (decodeHeaderTableSize p)
    (maxFrameSize p) (localMaxFrameSize p) (initialWindowSize p) (maxHeaderListSize p)
    (enablePush p) (nextStreamId p) (lastPeerStreamId p) (started p) (closed p)
    (sentConnectionPreface p) (sentLocalSettings p) (gotPeerSettings p) (sentGoaway p)
    (receivedGoaway p) (transportClosed_ p) (expectingContinuation p) (continuationStreamId p)
    (connectionErrorCode p) (connectionDebugData p) (pingCounter p) (connectionInflow p)
    (connectionOutFlow p) (hpack p) (ghostHeaderBlock p).
Definition set_decodeHeaderTableSize (v : Z) (p : t) : t :=
  mk (frameCodec p) (streams p) (maxConcurrentStreams p) (encodeHeaderTableSize p) v
    (maxFrameSize p) (localMaxFrameSize p) (initialWindowSize p) (maxHeaderListSize p)
    (enablePush p) (nextStreamId p) (lastPeerStreamId p) (started p) (closed p)
    (sentConnectionPreface p) (sentLocalSettings p) (gotPeerSettings p) (sentGoaway p)
    (receivedGoaway p) (transportClosed_ p) (expectingContinuation p) (continuationStreamId p)
    (connectionErrorCode p) (connectionDebugData p) (pingCounter p) (connectionInflow p)
    (connectionOutFlow p) (hpack p) (ghostHeaderBlock p).
Definition set_maxFrameSize (v : Z) (p : t) : t :=
  mk (frameCodec p) (streams p) (maxConcurrentStreams p) (encodeHeaderTableSize p)
    (decodeHeaderTableSize p) v (localMaxFrameSize p) (initialWindowSize p)
    (maxHeaderListSize p) (enablePush p) (nextStreamId p) (lastPeerStreamId p) (started p)
    (closed p) (sentConnectionPreface p) (sentLocalSettings p) (gotPeerSettings p)
    (sentGoaway p) (receivedGoaway p) (transportClosed_ p) (expectingContinuation p)
    (continuationStreamId p) (connectionErrorCode p) (connectionDebugData p) (pingCounter p)
    (connectionInflow p) (connectionOutFlow p) (hpack p) (ghostHeaderBlock p).
Definition set_localMaxFrameSize (v : Z) (p : t) : t :=
  mk (frameCodec p) (streams p) (maxConcurrentStreams p) (encodeHeaderTableSize p)
    (decodeHeaderTableSize p) (maxFrameSize p) v (initialWindowSize p) (maxHeaderListSize p)
    (enablePush p) (nextStreamId p) (lastPeerStreamId p) (started p) (closed p)
    (sentConnectionPreface p) (sentLocalSettings p) (gotPeerSettings p) (sentGoaway p)
    (receivedGoaway p) (transportClosed_ p) (expectingContinuation p) (continuationStreamId p)
    (connectionErrorCode p) (connectionDebugData p) (pingCounter p) (connectionInflow p)
    (connectionOutFlow p) (hpack p) (ghostHeaderBlock p).
Definition set_initialWindowSize (v : Z) (p : t) : t :=
  mk (frameCodec p) (streams p) (maxConcurrentStreams p) (encodeHeaderTableSize p)
    (decodeHeaderTableSize p) (maxFrameSize p) (localMaxFrameSize p) v (maxHeaderListSize p)
    (enablePush p) (nextStreamId p) (lastPeerStreamId p) (started p) (closed p)
    (sentConnectionPreface p) (sentLocalSettings p) (gotPeerSettings p) (sentGoaway p)
    (receivedGoaway p) (transportClosed_ p) (expectingContinuation p) (continuationStreamId p)
    (connectionErrorCode p) (connectionDebugData p) (pingCounter p) (connectionInflow p)
    (connectionOutFlow p) (hpack p) (ghostHeaderBlock p).
Definition set_maxHeaderListSize (v : Z) (p : t) : t :=
  mk (frameCodec p) (streams p) (maxConcurrentStreams p) (encodeHeaderTableSize p)
    (decodeHeaderTableSize p) (maxFrameSize p) (localMaxFrameSize p) (initialWindowSize p) v
    (enablePush p) (nextStreamId p) (lastPeerStreamId p) (started p) (closed p)
    (sentConnectionPreface p) (sentLocalSettings p) (gotPeerSettings p) (sentGoaway p)
    (receivedGoaway p) (transportClosed_ p) (expectingContinuation p) (continuationStreamId p)
    (connectionErrorCode p) (connectionDebugData p) (pingCounter p) (connectionInflow p)
    (connectionOutFlow p) (hpack p) (ghostHeaderBlock p).
Definition set_enablePush (v : bool) (p : t) : t :=
  mk (frameCodec p) (streams p) (maxConcurrentStreams p) (encodeHeaderTableSize p)
    (decodeHeaderTableSize p) (maxFrameSize p) (localMaxFrameSize p) (initialWindowSize p)
    (maxHeaderListSize p) v (nextStreamId p) (lastPeerStreamId p) (started p) (closed p)
    (sentConnectionPreface p) (sentLocalSettings p) (gotPeerSettings p) (sentGoaway p)
    (receivedGoaway p) (transportClosed_ p) (expectingContinuation p) (continuationStreamId p)
    (connectionErrorCode p) (connectionDebugData p) (pingCounter p) (connectionInflow p)
    (connectionOutFlow p) (hpack p) (ghostHeaderBlock p).
Definition set_nextStreamId (v : Z) (p : t) : t :=
  mk (frameCodec p) (streams p) (maxConcurrentStreams p) (encodeHeaderTableSize p)
    (decodeHeaderTableSize p) (maxFrameSize p) (localMaxFrameSize p) (initialWindowSize p)
    (maxHeaderListSize p) (enablePush p) v (lastPeerStreamId p) (started p) (closed p)
    (sentConnectionPreface p) (sentLocalSettings p) (gotPeerSettings p) (sentGoaway p)
    (receivedGoaway p) (transportClosed_ p) (expectingContinuation p) (continuationStreamId p)
    (connectionErrorCode p) (connectionDebugData p) (pingCounter p) (connectionInflow p)
    (connectionOutFlow p) (hpack p) (ghostHeaderBlock p).
Definition set_lastPeerStreamId (v : Z) (p : t) : t :=
  mk (frameCodec p) (streams p) (maxConcurrentStreams p) (encodeHeaderTableSize p)
    (decodeHeaderTableSize p) (maxFrameSize p) (localMaxFrameSize p) (initialWindowSize p)
    (maxHeaderListSize p) (enablePush p) (nextStreamId p) v (started p) (closed p)
    (sentConnectionPreface p) (sentLocalSettings p) (gotPeerSettings p) (sentGoaway p)
    (receivedGoaway p) (transportClosed_ p) (expectingContinuation p) (continuationStreamId p)
    (connectionErrorCode p) (connectionDebugData p) (pingCounter p) (connectionInflow p)
    (connectionOutFlow p) (hpack p) (ghostHeaderBlock p).
Definition set_started (v : bool) (p : t) : t :=
  mk (frameCodec p) (streams p) (maxConcurrentStreams p) (encodeHeaderTableSize p)
    (decodeHeaderTableSize p) (maxFrameSize p) (localMaxFrameSize p) (initialWindowSize p)
    (maxHeaderListSize p) (enablePush p) (nextStreamId p) (lastPeerStreamId p) v (closed p)
    (sentConnectionPreface p) (sentLocalSettings p) (gotPeerSettings p) (sentGoaway p)
    (receivedGoaway p) (transportClosed_ p) (expectingContinuation p) (continuationStreamId p)
    (connectionErrorCode p) (connectionDebugData p) (pingCounter p) (connectionInflow p)
    (connectionOutFlow p) (hpack p) (ghostHeaderBlock p).
Definition set_closed (v : bool) (p : t) : t :=
  mk (frameCodec p) (streams p) (maxConcurrentStreams p) (encodeHeaderTableSize p)
    (decodeHeaderTableSize p) (maxFrameSize p) (localMaxFrameSize p) (initialWindowSize p)
    (maxHeaderListSize p) (enablePush p) (nextStreamId p) (lastPeerStreamId p) (started p) v
    (sentConnectionPreface p) (sentLocalSettings p) (gotPeerSettings p) (sentGoaway p)
    (receivedGoaway p) (transportClosed_ p) (expectingContinuation p) (continuationStreamId p)
    (connectionErrorCode p) (connectionDebugData p) (pingCounter p) (connectionInflow p)
    (connectionOutFlow p) (hpack p) (ghostHeaderBlock p).
Definition set_sentConnectionPreface (v : bool) (p : t) : t :=
  mk (frameCodec p) (streams p) (maxConcurrentStreams p) (encodeHeaderTableSize p)
    (decodeHeaderTableSize p) (maxFrameSize p) (localMaxFrameSize p) (initialWindowSize p)
    (maxHeaderListSize p) (enablePush p) (nextStreamId p) (lastPeerStreamId p) (started p)
    (closed p) v (sentLocalSettings p) (gotPeerSettings p) (sentGoaway p) (receivedGoaway p)
    (transportClosed_ p) (expectingContinuation p) (continuationStreamId p)
    (connectionErrorCode p) (connectionDebugData p) (pingCounter p) (connectionInflow p)
    (connectionOutFlow p) (hpack p) (ghostHeaderBlock p).
Definition set_sentLocalSettings (v : bool) (p : t) : t :=
  mk (frameCodec p) (streams p) (maxConcurrentStreams p) (encodeHeaderTableSize p)
    (decodeHeaderTableSize p) (maxFrameSize p) (localMaxFrameSize p) (initialWindowSize p)
    (maxHeaderListSize p) (enablePush p) (nextStreamId p) (lastPeerStreamId p) (started p)
    (closed p) (sentConnectionPreface p) v (gotPeerSettings p) (sentGoaway p) (receivedGoaway p)
    (transportClosed_ p) (expectingContinuation p) (continuationStreamId p)
    (connectionErrorCode p) (connectionDebugData p) (pingCounter p) (connectionInflow p)
    (connectionOutFlow p) (hpack p) (ghostHeaderBlock p).
Definition set_gotPeerSettings (v : bool) (p : t) : t :=
  mk (frameCodec p) (streams p) (maxConcurrentStreams p) (encodeHeaderTableSize p)
    (decodeHeaderTableSize p) (maxFrameSize p) (localMaxFrameSize p) (initialWindowSize p)
    (maxHeaderListSize p) (enablePush p) (nextStreamId p) (lastPeerStreamId p) (started p)
    (closed p) (sentConnectionPreface p) (sentLocalSettings p) v (sentGoaway p)
    (receivedGoaway p) (transportClosed_ p) (expectingContinuation p) (continuationStreamId p)
    (connectionErrorCode p) (connectionDebugData p) (pingCounter p) (connectionInflow p)
    (connectionOutFlow p) (hpack p) (ghostHeaderBlock p).
Definition set_sentGoaway (v : bool) (p : t) : t :=
  mk (frameCodec p) (streams p) (maxConcurrentStreams p) (encodeHeaderTableSize p)
    (decodeHeaderTableSize p) (maxFrameSize p) (localMaxFrameSize p) (initialWindowSize p)
    (maxHeaderListSize p) (enablePush p) (nextStreamId p) (lastPeerStreamId p) (started p)
    (closed p) (sentConnectionPreface p) (sentLocalSettings p) (gotPeerSettings p) v
    (receivedGoaway p) (transportClosed_ p) (expectingContinuation p) (continuationStreamId p)
    (connectionErrorCode p) (connectionDebugData p) (pingCounter p) (connectionInflow p)
    (connectionOutFlow p) (hpack p) (ghostHeaderBlock p).
Definition set_receivedGoaway (v : bool) (p : t) : t :=
  mk (frameCodec p) (streams p) (maxConcurrentStreams p) (encodeHeaderTableSize p)
    (decodeHeaderTableSize p) (maxFrameSize p) (localMaxFrameSize p) (initialWindowSize p)
    (maxHeaderListSize p) (enablePush p) (nextStreamId p) (lastPeerStreamId p) (started p)
    (closed p) (sentConnectionPreface p) (sentLocalSettings p) (gotPeerSettings p)
    (sentGoaway p) v (transportClosed_ p) (expectingContinuation p) (continuationStreamId p)
    (connectionErrorCode p) (connectionDebugData p) (pingCounter p) (connectionInflow p)
    (connectionOutFlow p) (hpack p) (ghostHeaderBlock p).
Definition set_transportClosed_ (v : bool) (p : t) : t :=
  mk (frameCodec p) (streams p) (maxConcurrentStreams p) (encodeHeaderTableSize p)
    (decodeHeaderTableSize p) (maxFrameSize p) (localMaxFrameSize p) (initialWindowSize p)
    (maxHeaderListSize p) (enablePush p) (nextStreamId p) (lastPeerStreamId p) (started p)
    (closed p) (sentConnectionPreface p) (sentLocalSettings p) (gotPeerSettings p)
    (sentGoaway p) (receivedGoaway p) v (expectingContinuation p) (continuationStreamId p)
    (connectionErrorCode p) (connectionDebugData p) (pingCounter p) (connectionInflow p)
    (connectionOutFlow p) (hpack p) (ghostHeaderBlock p).
Definition set_expectingContinuation (v : bool) (p : t) : t :=
  mk (frameCodec p) (streams p) (maxConcurrentStreams p) (encodeHeaderTableSize p)
    (decodeHeaderTableSize p) (maxFrameSize p) (localMaxFrameSize p) (initialWindowSize p)
    (maxHeaderListSize p) (enablePush p) (nextStreamId p) (lastPeerStreamId p) (started p)
    (closed p) (sentConnectionPreface p) (sentLocalSettings p) (gotPeerSettings p)
    (sentGoaway p) (receivedGoaway p) (transportClosed_ p) v (continuationStreamId p)
    (connectionErrorCode p) (connectionDebugData p) (pingCounter p) (connectionInflow p)
    (connectionOutFlow p) (hpack p) (ghostHeaderBlock p).
Definition set_continuationStreamId (v : Z) (p : t) : t :=
  mk (frameCodec p) (streams p) (maxConcurrentStreams p) (encodeHeaderTableSize p)
    (decodeHeaderTableSize p) (maxFrameSize p) (localMaxFrameSize p) (initialWindowSize p)
    (maxHeaderListSize p) (enablePush p) (nextStreamId p) (lastPeerStreamId p) (started p)
    (closed p) (sentConnectionPreface p) (sentLocalSettings p) (gotPeerSettings p)
    (sentGoaway p) (receivedGoaway p) (transportClosed_ p) (expectingContinuation p) v
    (connectionErrorCode p) (connectionDebugData p) (pingCounter p) (connectionInflow p)
    (connectionOutFlow p) (hpack p) (ghostHeaderBlock p).
Definition set_connectionErrorCode (v : Z) (p : t) : t :=
  mk (frameCodec p) (streams p) (maxConcurrentStreams p) (encodeHeaderTableSize p)
    (decodeHeaderTableSize p) (maxFrameSize p) (localMaxFrameSize p) (initialWindowSize p)
    (maxHeaderListSize p) (enablePush p) (nextStreamId p) (lastPeerStreamId p) (started p)
    (closed p) (sentConnectionPreface p) (sentLocalSettings p) (gotPeerSettings p)
    (sentGoaway p) (receivedGoaway p) (transportClosed_ p) (expectingContinuation p)
    (continuationStreamId p) v (connectionDebugData p) (pingCounter p) (connectionInflow p)
    (connectionOutFlow p) (hpack p) (ghostHeaderBlock p).
Definition set_connectionDebugData (v : bytes) (p : t) : t :=
  mk (frameCodec p) (streams p) (maxConcurrentStreams p) (encodeHeaderTableSize p)
    (decodeHeaderTableSize p) (maxFrameSize p) (localMaxFrameSize p) (initialWindowSize p)
    (maxHeaderListSize p) (enablePush p) (nextStreamId p) (lastPeerStreamId p) (started p)
    (closed p) (sentConnectionPreface p) (sentLocalSettings p) (gotPeerSettings p)
    (sentGoaway p) (receivedGoaway p) (transportClosed_ p) (expectingContinuation p)
    (continuationStreamId p) (connectionErrorCode p) v (pingCounter p) (connectionInflow p)
    (connectionOutFlow p) (hpack p) (ghostHeaderBlock p).
Definition set_pingCounter (v : Z) (p : t) : t :=
  mk (frameCodec p) (streams p) (maxConcurrentStreams p) (encodeHeaderTableSize p)
    (decodeHeaderTableSize p) (maxFrameSize p) (localMaxFrameSize p) (initialWindowSize p)
    (maxHeaderListSize p) (enablePush p) (nextStreamId p) (lastPeerStreamId p) (started p)
    (closed p) (sentConnectionPreface p) (sentLocalSettings p) (gotPeerSettings p)
    (sentGoaway p) (receivedGoaway p) (transportClosed_ p) (expectingContinuation p)
    (continuationStreamId p) (connectionErrorCode p) (connectionDebugData p) v
    (connectionInflow p) (connectionOutFlow p) (hpack p) (ghostHeaderBlock p).
Definition set_connectionInflow (v : InFlow.t) (p : t) : t :=
  mk (frameCodec p) (streams p) (maxConcurrentStreams p) (encodeHeaderTableSize p)
    (decodeHeaderTableSize p) (maxFrameSize p) (localMaxFrameSize p) (initialWindowSize p)
    (maxHeaderListSize p) (enablePush p) (nextStreamId p) (lastPeerStreamId p) (started p)
    (closed p) (sentConnectionPreface p) (sentLocalSettings p) (gotPeerSettings p)
    (sentGoaway p) (receivedGoaway p) (transportClosed_ p) (expectingContinuation p)
    (continuationStreamId p) (connectionErrorCode p) (connectionDebugData p) (pingCounter p) v
    (connectionOutFlow p) (hpack p) (ghostHeaderBlock p).
Definition set_connectionOutFlow (v : OutFlow.t) (p : t) : t :=
  mk (frameCodec p) (streams p) (maxConcurrentStreams p) (encodeHeaderTableSize p)
    (decodeHeaderTableSize p) (maxFrameSize p) (localMaxFrameSize p) (initialWindowSize p)
    (maxHeaderListSize p) (enablePush p) (nextStreamId p) (lastPeerStreamId p) (started p)
    (closed p) (sentConnectionPreface p) (sentLocalSettings p) (gotPeerSettings p)
    (sentGoaway p) (receivedGoaway p) (transportClosed_ p) (expectingContinuation p)
    (continuationStreamId p) (connectionErrorCode p) (connectionDebugData p) (pingCounter p)
    (connectionInflow p) v (hpack p) (ghostHeaderBlock p).
Definition set_hpack (v : Hpack.t) (p : t) : t :=
  mk (frameCodec p) (streams p) (maxConcurrentStreams p) (encodeHeaderTableSize p)
    (decodeHeaderTableSize p) (maxFrameSize p) (localMaxFrameSize p) (initialWindowSize p)
    (maxHeaderListSize p) (enablePush p) (nextStreamId p) (lastPeerStreamId p) (started p)
    (closed p) (sentConnectionPreface p) (sentLocalSettings p) (gotPeerSettings p)
    (sentGoaway p) (receivedGoaway p) (transportClosed_ p) (expectingContinuation p)
    (continuationStreamId p) (connectionErrorCode p) (connectionDebugData p) (pingCounter p)
    (connectionInflow p) (connectionOutFlow p) v (ghostHeaderBlock p).
Definition set_ghostHeaderBlock (v : ByteBuffer.t) (p : t) : t :=
  mk (frameCodec p) (streams p) (maxConcurrentStreams p) (encodeHeaderTableSize p)
    (decodeHeaderTableSize p) (maxFrameSize p) (localMaxFrameSize p) (initialWindowSize p)
    (maxHeaderListSize p) (enablePush p) (nextStreamId p) (lastPeerStreamId p) (started p)
    (closed p) (sentConnectionPreface p) (sentLocalSettings p) (gotPeerSettings p)
    (sentGoaway p) (receivedGoaway p) (transportClosed_ p) (expectingContinuation p)
    (continuationStreamId p) (connectionErrorCode p) (connectionDebugData p) (pingCounter p)
    (connectionInflow p) (connectionOutFlow p) (hpack p) v.

(** ** Lifecycle *)

(** [reset()]; members it does not assign ([pingCounter],
    [ghostHeaderBlock]) keep their values. *)
Definition reset (p : t) : t :=
  let hpack := Hpack.setEncodeTableSize Http2SettingInfo.defaultHeaderTableSize
                 (Hpack.setDecodeTableLimit Http2SettingInfo.defaultHeaderTableSize
                    (Hpack.reset (hpack p))) in
  let window := i32 Http2SettingInfo.defaultInitialWindowSize in
  mk (FrameCodec.clear (frameCodec p)) ∅
     Http2SettingInfo.defaultMaxConcurrentStreams
     Http2SettingInfo.defaultHeaderTableSize Http2SettingInfo.defaultHeaderTableSize
     Http2SettingInfo.defaultMaxFrameSize Http2SettingInfo.defaultMaxFrameSize
     Http2SettingInfo.defaultInitialWindowSize Http2SettingInfo.defaultMaxHeaderListSize
     Http2SettingInfo.defaultEnablePush
     1 0 false false false false false false false false false 0
     ErrorCode.NO_ERROR [] (pingCounter p)
     (InFlow.init window InFlow.init_zero)
     (snd (OutFlow.add window OutFlow.init_zero))
     hpack (ghostHeaderBlock p).

(** The members before the constructor's body runs. *)
Definition uninit : t :=
  mk FrameCodec.init ∅ 0 0 0 0 0 0 0 false 0 0 false false false false false false false false
     false 0 0 [] 0 InFlow.init_zero OutFlow.init_zero Hpack.init ByteBuffer.empty_buffer.

(** [Http2Protocol(const ClientConfig&)]. *)
Definition make (config : ClientConfig.t) : t :=
  let p := reset uninit in
  let p := set_maxConcurrentStreams (ClientConfig.maxConcurrentStreams config) p in
  let p := set_decodeHeaderTableSize (ClientConfig.headerTableSize config) p in
  let p := set_localMaxFrameSize (ClientConfig.maxFrameSize config) p in
  let p := set_initialWindowSize (ClientConfig.initialWindowSize config) p in
  let p := set_maxHeaderListSize (ClientConfig.maxHeaderListSize config) p in
  let p := set_hpack (Hpack.setDecodeTableLimit (ClientConfig.headerTableSize config) (hpack p)) p in
  set_connectionInflow
    (InFlow.init (i32 (ClientConfig.initialWindowSize config)) (connectionInflow p)) p.

(** ** Queries *)

Definition isStarted (p : t) : bool := started p.
Definition isClosed (p : t) : bool := closed p.
Definition canSubmitRequests (p : t) : bool :=
  started p && negb (closed p) && negb (sentGoaway p) && negb (receivedGoaway p).
Definition nextLocalStreamId (p : t) : Z := nextStreamId p.
Definition activeStreamCount (p : t) : Z := Z.of_nat (size (streams p)).
Definition lastConnectionError (p : t) : Z := connectionErrorCode p.
Definition lastConnectionDebugData (p : t) : bytes := connectionDebugData p.
Definition peerMaxConcurrentStreams (p : t) : Z := maxConcurrentStreams p.
Definition peerMaxFrameSize (p : t) : Z := maxFrameSize p.
Definition peerInitialWindowSize (p : t) : Z := initialWindowSize p.
Definition peerMaxHeaderListSize (p : t) : Z := maxHeaderListSize p.

(** ** Pointers to streams *)

(** [*stream]. *)
Definition deref (id : Z) : st t Stream.t := fun p =>
  match streams p !! id with
  | Some s => Ok (s, p)
  | None => undef "dangling Stream*"
  end.

(** An assignment through [stream->]. *)
Definition update (id : Z) (f : Stream.t -> Stream.t) : st t unit := fun p =>
  match streams p !! id with
  | Some s => Ok (tt, set_streams (<[id := f s]> (streams p)) p)
  | None => undef "dangling Stream*"
  end.

Definition contains (id : Z) : st t bool :=
  gets (fun p => bool_decide (is_Some (streams p !! id))).
Definition erase (id : Z) : st t unit :=
  modify (fun p => set_streams (delete id (streams p)) p).
End Http2Protocol.

(** The iteration order of [std::unordered_map]: some order of the keys. *)
Class IterOrder : Type := {
  iter_order : gmap Z Stream.t -> list Z;
  iter_order_perm m : iter_order m ≡ₚ (map_to_list m).*1;
}.

(** One such order, for concrete runs. *)
#[export] Instance sorted_order : IterOrder := {
  iter_order m := (map_to_list m).*1;
  iter_order_perm m := reflexivity _;
}.

Section iter_order.
Context `{IterOrder}.

Lemma iter_order_elem m id : id ∈ iter_order m <-> is_Some (m !! id).
Proof.
  rewrite iter_order_perm, list_elem_of_fmap. split.
  - intros ([k s] & -> & Hk%elem_of_map_to_list). cbn. eauto.
  - intros [s Hs]. exists (id, s). split; [done|]. by apply elem_of_map_to_list.
Qed.

Lemma iter_order_NoDup m : NoDup (iter_order m).
Proof. rewrite iter_order_perm. apply NoDup_fst_map_to_list. Qed.
End iter_order.
