(* ===== verification/Protocol.v ===== *)
(** * The HTTP/2 client protocol: emission and failure

    [src/http2_protocol.cpp], the functions the frame handlers call: frame
    builders, [failStream] and [failConnection], emission of request headers
    and bodies, decoding of response headers and finalisation of streams.
    Each is a computation on the protocol state; a [ProtocolStepResult*]
    parameter is passed in and returned. *)

From S2P Require Import Prelude Outcome ByteBuffer Types Flow Frame HeaderRules Hpack.
From S2P Require Import ProtocolEvent Stream ProtocolState.
Import Http2Protocol.

(** ** Frame builders *)

Definition buildLocalSettingsFrame (p : t) : SettingFrame.t :=
  let settings :=
    [(Http2SettingParameter.MAX_CONCURRENT_STREAMS, maxConcurrentStreams p);
     (Http2SettingParameter.HEADER_TABLE_SIZE, decodeHeaderTableSize p);
     (Http2SettingParameter.ENABLE_PUSH, if enablePush p then 1 else 0);
     (Http2SettingParameter.MAX_FRAME_SIZE, localMaxFrameSize p);
     (Http2SettingParameter.INITIAL_WINDOW_SIZE, initialWindowSize p)]
    ++ (if maxHeaderListSize p >? 0
        then [(Http2SettingParameter.MAX_HEADER_LIST_SIZE, maxHeaderListSize p)] else []) in
  SettingFrame.mk (FrameHeader.mk (u32 (zlen settings * 6)) FrameType.SETTINGS 0 0) settings.

Definition buildGoAwayFrame (errorCode : Z) (debugData : bytes) (p : t) : GoAwayFrame.t :=
  GoAwayFrame.mk (FrameHeader.mk (u32 (8 + zlen debugData)) FrameType.GOAWAY 0 0)
    (lastPeerStreamId p) errorCode debugData.

Definition buildRstStreamFrame (streamId errorCode : Z) : RstStreamFrame.t :=
  RstStreamFrame.mk (FrameHeader.mk 4 FrameType.RST_STREAM 0 streamId) errorCode.

Definition buildWindowUpdateFrame (streamId increment : Z) : WindowUpdateFrame.t :=
  WindowUpdateFrame.mk (FrameHeader.mk 4 FrameType.WINDOW_UPDATE 0 streamId) increment.

Section protocol.
Context `{IterOrder}.

(** ** Stream and connection failure *)

Definition failStream (streamId errorCode : Z) (sendRst : bool) : st t StepResult.t :=
  present <- contains streamId ;;
  if negb present then ret StepResult.empty
  else
    p <- get ;;
    let result :=
      if sendRst && negb (closed p) && negb (transportClosed_ p)
      then StepResult.push_outbound
             (RstStreamFrame.toBytes (buildRstStreamFrame streamId errorCode)) StepResult.empty
      else StepResult.empty in
    stream <- deref streamId ;;
    (if Stream.waitingForContinuation stream
        && negb (ByteBuffer.empty (Stream.pendingHeaderBlock stream))
     then
       modify (set_ghostHeaderBlock (Stream.pendingHeaderBlock stream)) ;;;
       update streamId (Stream.set_pendingHeaderBlock ByteBuffer.empty_buffer)
     else ret tt) ;;;
    update streamId (Stream.markClosed errorCode) ;;;
    update streamId (Stream.set_responseComplete true) ;;;
    erase streamId ;;;
    ret (StepResult.push_event (responseFailed streamId errorCode)
           (StepResult.push_event (streamClosed streamId errorCode) result)).

(** [for (auto id : ids) mergeStepResult(result, failStream(id, code))]. *)
Fixpoint fail_each (ids : list Z) (errorCode : Z) (result : StepResult.t)
  : st t StepResult.t :=
  match ids with
  | [] => ret result
  | id :: ids' =>
      r <- failStream id errorCode false ;;
      fail_each ids' errorCode (StepResult.mergeStepResult result r)
  end.

Definition failAllStreams (errorCode : Z) (result : StepResult.t) : st t StepResult.t :=
  ids <- gets (fun p => iter_order (streams p)) ;;
  fail_each ids errorCode result.

(** The GOAWAY of [failConnection] and of [close]. *)
Definition append_goaway (errorCode : Z) (debugData : bytes) (result : StepResult.t)
  : st t StepResult.t :=
  p <- get ;;
  let goaway := buildGoAwayFrame errorCode debugData p in
  modify (set_sentGoaway true) ;;;
  ret (StepResult.push_event (goAwaySent (GoAwayFrame.lastStreamId goaway) errorCode debugData)
         (StepResult.push_outbound (GoAwayFrame.toBytes goaway) result)).

Definition failConnection (errorCode : Z) (debugData : bytes) : st t StepResult.t :=
  p <- get ;;
  result <- (if negb (sentGoaway p) && negb (transportClosed_ p)
             then append_goaway errorCode debugData StepResult.empty
             else ret StepResult.empty) ;;
  modify (set_connectionErrorCode errorCode) ;;;
  modify (set_connectionDebugData debugData) ;;;
  modify (set_closed true) ;;;
  modify (set_expectingContinuation false) ;;;
  modify (set_continuationStreamId 0) ;;;
  modify (fun p => set_ghostHeaderBlock (ByteBuffer.clear (ghostHeaderBlock p)) p) ;;;
  result <- failAllStreams errorCode result ;;
  ret (StepResult.push_event (connectionClosed errorCode)
         (StepResult.push_event (connectionError errorCode) result)).

Definition handleHeaderBlockError (streamId errorCode : Z) : st t StepResult.t :=
  if errorCode =? ErrorCode.COMPRESSION_ERROR
  then failConnection errorCode (bs "HPACK decode error")
  else failStream streamId errorCode true.

(** ** Request headers *)

(** The CONTINUATION frames; each consumes [maxFrameSize > 0] bytes. *)
Fixpoint emit_continuations (fuel : nat) (streamId : Z) (span : ByteSpan.t)
  (result : StepResult.t) : st t StepResult.t :=
  match fuel with
  | O => fail_with Hangs
  | S fuel' =>
      if negb (ByteSpan.empty span) then
        p <- get ;;
        let chunkSize := Z.min (maxFrameSize p) (ByteSpan.size span) in
        data <- lift (ByteSpan.first span chunkSize) ;;
        span <- lift (ByteSpan.advance span chunkSize) ;;
        let header := FrameHeader.set_payloadLength chunkSize
                        (FrameHeader.of_stream FrameType.CONTINUATION streamId) in
        let header := if ByteSpan.empty span then FrameHeader.setEndHeadersFlag header else header in
        emit_continuations fuel' streamId span
          (StepResult.push_outbound
             (ContinuationFrame.toBytes (ContinuationFrame.mk header data)) result)
      else ret result
  end.

Definition emitRequestHeaders (streamId : Z) (encoded : bytes) (result : StepResult.t)
  : st t StepResult.t :=
  stream <- deref streamId ;;
  let hasBody := Stream.hasBody stream in
  let span := ByteSpan.make encoded in
  p <- get ;;
  let chunkSize := Z.min (maxFrameSize p) (ByteSpan.size span) in
  let header := FrameHeader.of_stream FrameType.HEADERS streamId in
  r <- (if chunkSize >? 0 then
          data <- lift (ByteSpan.first span chunkSize) ;;
          span <- lift (ByteSpan.advance span chunkSize) ;;
          ret (FrameHeader.set_payloadLength chunkSize header, data, span)
        else ret (header, [], span)) ;;
  let '(header, data, span) := r in
  header <- (if ByteSpan.empty span then
               let header := FrameHeader.setEndHeadersFlag header in
               if negb hasBody then
                 update streamId (Stream.set_localEndStreamSent true) ;;;
                 ret (FrameHeader.setEndStreamFlag header)
               else ret header
             else ret header) ;;
  let result := StepResult.push_outbound
    (HeadersFrame.toBytes (HeadersFrame.mk header 0 0 0 data [])) result in
  emit_continuations (S (length encoded)) streamId span result.

(** ** Request bodies *)

(** [while (stream->remainingBodySize())]; [break] returns. *)
Fixpoint body_loop (fuel : nat) (streamId : Z) (result : StepResult.t) : st t StepResult.t :=
  match fuel with
  | O => fail_with Hangs
  | S fuel' =>
      stream <- deref streamId ;;
      if Stream.remainingBodySize stream =? 0 then ret result
      else
        p <- get ;;
        let chunkSize := u32 (Z.min (maxFrameSize p) (Stream.remainingBodySize stream)) in
        let available :=
          u32 (Z.max 0 (OutFlow.available (connectionOutFlow p) (Stream.outflow stream))) in
        let chunkSize := Z.min chunkSize available in
        if chunkSize =? 0 then ret result
        else
          let beginOffset := Stream.bodyOffset stream in
          let endOffset := beginOffset + chunkSize in
          let data := ztake chunkSize (zdrop beginOffset (Request.body (Stream.rqst stream))) in
          r <- lift (OutFlow.take (i32 chunkSize) (connectionOutFlow p) (Stream.outflow stream)) ;;
          let '(conn, out) := r in
          modify (set_connectionOutFlow conn) ;;;
          update streamId (Stream.set_outflow out) ;;;
          update streamId (Stream.set_requestBodyOffset endOffset) ;;;
          stream <- deref streamId ;;
          let header := FrameHeader.set_payloadLength chunkSize
                          (FrameHeader.of_stream FrameType.DATA streamId) in
          header <- (if Stream.remainingBodySize stream =? 0 then
                       update streamId (Stream.set_localEndStreamSent true) ;;;
                       ret (FrameHeader.setEndStreamFlag header)
                     else ret header) ;;
          body_loop fuel' streamId
            (StepResult.push_outbound (DataFrame.toBytes (DataFrame.mk header 0 data [])) result)
  end.

Definition emitPendingRequestBody (streamId : Z) (result : StepResult.t) : st t StepResult.t :=
  stream <- deref streamId ;;
  if Stream.localEndStreamSent stream || Stream.isClosed stream then ret result
  else
    result <- body_loop (S (length (Request.body (Stream.rqst stream)))) streamId result ;;
    stream <- deref streamId ;;
    if Stream.localEndStreamSent stream then
      if Stream.remoteEndStreamReceived stream then
        update streamId (Stream.set_streamState CLOSED) ;;;
        erase streamId ;;;
        ret (StepResult.push_event (streamClosed streamId ErrorCode.NO_ERROR) result)
      else
        update streamId (Stream.set_streamState HALF_CLOSED_LOCAL) ;;;
        ret result
    else ret result.

(** ** Responses *)

(** What a moved-from [Response] keeps. *)
Definition moved_from (r : Response.t) : Response.t :=
  Response.mk [] [] [] (Response.isError r) (Response.errorCode r) [] [].

Definition finalizeRemoteStream (streamId : Z) (result : StepResult.t) : st t StepResult.t :=
  update streamId (Stream.set_remoteEndStreamReceived true) ;;;
  stream <- deref streamId ;;
  mismatch <- (if Stream.expectedContentLength stream >=? 0 then
                 noBody <- lift (Stream.expectsNoBody stream) ;;
                 ret (negb noBody &&
                      negb (Stream.receivedContentLength stream =? Stream.expectedContentLength stream))
               else ret false) ;;
  if mismatch then
    fail <- failStream streamId ErrorCode.PROTOCOL_ERROR true ;;
    ret (StepResult.mergeStepResult result fail)
  else
    update streamId (Stream.set_responseComplete true) ;;;
    let result := StepResult.push_event (responseCompleted streamId (Stream.resp stream)) result in
    update streamId (fun s => Stream.set_resp (moved_from (Stream.resp s)) s) ;;;
    stream <- deref streamId ;;
    if Stream.localEndStreamSent stream then
      update streamId (Stream.set_streamState CLOSED) ;;;
      erase streamId ;;;
      ret (StepResult.push_event (streamClosed streamId ErrorCode.NO_ERROR) result)
    else
      update streamId (Stream.set_streamState HALF_CLOSED_REMOTE) ;;;
      ret result.

Definition is_connect (r : Request.t) : bool :=
  match StdMap.find (bs ":method") (Request.headers r) with
  | Some method => bool_decide (method = bs "CONNECT")
  | None => false
  end.

(** Storing a validated, non-informational header block. *)
Definition store_headers (streamId : Z) (headers : list HeaderField.t) : st t Z :=
  stream <- deref streamId ;;
  if negb (Stream.finalResponseHeadersReceived stream) then
    update streamId (fun s =>
      Stream.set_resp (Response.set_headers (Response.headers (Stream.resp s) ++ headers)
                         (Stream.resp s)) s) ;;;
    update streamId (Stream.set_finalResponseHeadersReceived true) ;;;
    ret ErrorCode.NO_ERROR
  else if is_connect (Stream.rqst stream) then ret ErrorCode.PROTOCOL_ERROR
  else
    update streamId (fun s =>
      Stream.set_resp (Response.set_trailers (Response.trailers (Stream.resp s) ++ headers)
                         (Stream.resp s)) s) ;;;
    update streamId (Stream.set_trailingHeadersReceived true) ;;;
    ret ErrorCode.NO_ERROR.

(** Error code and [*result]. *)
Definition decodeResponseHeaders (streamId : Z) (endStream : bool) (result : StepResult.t)
  : st t (Z * StepResult.t) :=
  stream <- deref streamId ;;
  p <- get ;;
  r <- lift (Hpack.decode (ByteBuffer.span (Stream.pendingHeaderBlock stream)) [] (hpack p)) ;;
  let '(ok, headers, hp) := r in
  modify (set_hpack hp) ;;;
  if negb ok then ret (ErrorCode.COMPRESSION_ERROR, result)
  else if (maxHeaderListSize p >? 0) && (headerListSize headers >? maxHeaderListSize p)
  then ret (ErrorCode.ENHANCE_YOUR_CALM, result)
  else
    update streamId (fun s =>
      Stream.set_pendingHeaderBlock (ByteBuffer.clear (Stream.pendingHeaderBlock s)) s) ;;;
    update streamId (Stream.set_waitingForContinuation false) ;;;
    update streamId (Stream.set_pendingHeaderEndStream false) ;;;
    v <- lift (validateResponseHeaderBlock (Stream.finalResponseHeadersReceived stream)
                 (Stream.expectedContentLength stream) headers endStream) ;;
    let '(code, informational, length) := v in
    update streamId (Stream.set_expectedContentLength length) ;;;
    if negb (code =? ErrorCode.NO_ERROR) then ret (code, result)
    else if informational then
      ret (ErrorCode.NO_ERROR,
           StepResult.push_event
             (streamHeadersReceived streamId (Response.set_headers headers Response.init)) result)
    else
      code <- store_headers streamId headers ;;
      if negb (code =? ErrorCode.NO_ERROR) then ret (code, result)
      else
        stream <- deref streamId ;;
        let result := StepResult.push_event
                        (streamHeadersReceived streamId (Stream.resp stream)) result in
        if endStream then
          result <- finalizeRemoteStream streamId result ;;
          ret (ErrorCode.NO_ERROR, result)
        else ret (ErrorCode.NO_ERROR, result).
End protocol.
