(* ===== verification/ProtocolHandlers.v ===== *)
(** * The HTTP/2 client protocol: frame handlers and public operations

    [src/http2_protocol.cpp]: [receiveFrame] and one handler per frame type,
    and the public operations of [Http2Protocol]. *)

From S2P Require Import Prelude Outcome ByteBuffer Types Flow Frame FrameCodec HeaderRules.
From S2P Require Import Hpack ProtocolEvent Stream ProtocolState Protocol.
Import Http2Protocol.

Section handlers.
Context `{IterOrder}.

(** ** DATA *)

(** [connectionInflow.add(consumed)] and its WINDOW_UPDATE; [None] is the
    overflow. *)
Definition refresh_connection (consumed : Z) (result : StepResult.t)
  : st t (option StepResult.t) :=
  p <- get ;;
  r <- lift (InFlow.add (i32 consumed) (connectionInflow p)) ;;
  let '(connRefresh, f) := r in
  modify (set_connectionInflow f) ;;;
  if connRefresh <? 0 then ret None
  else if connRefresh >? 0 then
    ret (Some (StepResult.push_outbound
      (WindowUpdateFrame.toBytes (buildWindowUpdateFrame 0 (u32 connRefresh))) result))
  else ret (Some result).

Definition processDataOnUnknownStream (dataFrame : DataFrame.t) : st t StepResult.t :=
  let header := DataFrame.header dataFrame in
  let streamId := FrameHeader.streamId header in
  p <- get ;;
  if Z.land streamId 1 =? 0
  then failConnection ErrorCode.PROTOCOL_ERROR (bs "unexpected peer-initiated DATA stream")
  else if streamId >=? nextStreamId p
  then failConnection ErrorCode.PROTOCOL_ERROR (bs "DATA for never-opened stream")
  else
    r <- lift (InFlow.take (FrameHeader.payloadLength header) (connectionInflow p)) ;;
    let '(taken, f) := r in
    modify (set_connectionInflow f) ;;;
    if negb taken
    then failConnection ErrorCode.FLOW_CONTROL_ERROR
           (bs "old stream DATA exceeded connection window")
    else
      o <- refresh_connection (FrameHeader.payloadLength header) StepResult.empty ;;
      match o with
      | None => failConnection ErrorCode.FLOW_CONTROL_ERROR
                  (bs "connection inflow window overflow")
      | Some result => ret result
      end.

(** DATA accepted by the stream: body, windows, end of stream. *)
Definition accept_data (streamId : Z) (dataFrame : DataFrame.t) : st t StepResult.t :=
  let header := DataFrame.header dataFrame in
  let data := DataFrame.data dataFrame in
  update streamId (fun s =>
    Stream.set_resp (Response.set_body (Response.body (Stream.resp s) ++ data) (Stream.resp s)) s) ;;;
  stream <- deref streamId ;;
  received <- lift (checked_i64 (Stream.receivedContentLength stream + zlen data)) ;;
  update streamId (Stream.set_receivedContentLength received) ;;;
  let consumed := FrameHeader.payloadLength header in
  o <- refresh_connection consumed StepResult.empty ;;
  match o with
  | None => failConnection ErrorCode.FLOW_CONTROL_ERROR (bs "connection inflow window overflow")
  | Some result =>
      stream <- deref streamId ;;
      r <- lift (InFlow.add (i32 consumed) (Stream.inflow stream)) ;;
      let '(streamRefresh, f) := r in
      update streamId (Stream.set_inflow f) ;;;
      if streamRefresh <? 0 then failStream streamId ErrorCode.FLOW_CONTROL_ERROR true
      else
        let result :=
          if streamRefresh >? 0
          then StepResult.push_outbound
                 (WindowUpdateFrame.toBytes (buildWindowUpdateFrame streamId (u32 streamRefresh)))
                 result
          else result in
        if FrameHeader.hasEndStreamFlag header then finalizeRemoteStream streamId result
        else ret result
  end.

Definition processDataFrame (frame : RawFrame.t) : st t StepResult.t :=
  let header := RawFrame.header frame in
  let streamId := FrameHeader.streamId header in
  if streamId =? 0 then failConnection ErrorCode.PROTOCOL_ERROR (bs "DATA on stream 0")
  else
    invalid <- lift (validatePaddedPayload frame 0) ;;
    match invalid with
    | Some (code, debug) => failConnection code debug
    | None =>
        dataFrame <- lift (DataFrame.parse frame) ;;
        known <- contains streamId ;;
        if negb known then processDataOnUnknownStream dataFrame
        else
          stream <- deref streamId ;;
          if Stream.isClosed stream || Stream.remoteEndStreamReceived stream
          then failStream streamId ErrorCode.STREAM_CLOSED true
          else if negb (Stream.finalResponseHeadersReceived stream)
          then failStream streamId ErrorCode.PROTOCOL_ERROR true
          else
            p <- get ;;
            r <- lift (InFlow.takeInflows (connectionInflow p) (Stream.inflow stream)
                         (FrameHeader.payloadLength header)) ;;
            let '(taken, f1, f2) := r in
            modify (set_connectionInflow f1) ;;;
            update streamId (Stream.set_inflow f2) ;;;
            if negb taken
            then failConnection ErrorCode.FLOW_CONTROL_ERROR (bs "flow control exceeded")
            else
              rejected <- (if negb (zlen (DataFrame.data dataFrame) =? 0)
                           then lift (Stream.expectsNoBody stream) else ret false) ;;
              if rejected then failStream streamId ErrorCode.PROTOCOL_ERROR true
              else accept_data streamId dataFrame
    end.

(** ** HEADERS *)

(** HEADERS for a stream that is gone: decode and discard. *)
Definition headers_on_unknown_stream (frame : HeadersFrame.t) : st t StepResult.t :=
  let header := HeadersFrame.header frame in
  let streamId := FrameHeader.streamId header in
  p <- get ;;
  if Z.land streamId 1 =? 0
  then failConnection ErrorCode.PROTOCOL_ERROR (bs "unexpected peer-initiated HEADERS stream")
  else if streamId >=? nextStreamId p
  then failConnection ErrorCode.PROTOCOL_ERROR (bs "HEADERS for never-opened stream")
  else if FrameHeader.hasEndHeadersFlag header then
    r <- lift (Hpack.decode (ByteSpan.make (HeadersFrame.data frame)) [] (hpack p)) ;;
    let '(ok, _, hp) := r in
    modify (set_hpack hp) ;;;
    if negb ok
    then failConnection ErrorCode.COMPRESSION_ERROR
           (bs "HPACK decode failed on closed-stream HEADERS")
    else ret StepResult.empty
  else
    ghost <- lift (ByteBuffer.append_range (HeadersFrame.data frame) (ByteBuffer.make 128)) ;;
    modify (set_ghostHeaderBlock ghost) ;;;
    modify (set_expectingContinuation true) ;;;
    modify (set_continuationStreamId streamId) ;;;
    ret StepResult.empty.

(** [stream->pendingHeaderBlock.append(...)] and the size check; the result
    says whether the block is within the limit. *)
Definition append_header_block (streamId : Z) (data : bytes) : st t bool :=
  stream <- deref streamId ;;
  block <- lift (ByteBuffer.append_range data (Stream.pendingHeaderBlock stream)) ;;
  update streamId (Stream.set_pendingHeaderBlock block) ;;;
  p <- get ;;
  ret (negb ((maxHeaderListSize p >? 0) && (ByteBuffer.size block >? maxHeaderListSize p))).

(** A complete header block. *)
Definition complete_header_block (streamId : Z) (endStream : bool) : st t StepResult.t :=
  r <- decodeResponseHeaders streamId endStream StepResult.empty ;;
  let '(code, result) := r in
  if negb (code =? ErrorCode.NO_ERROR) then handleHeaderBlockError streamId code
  else ret result.

Definition headers_on_stream (frame : HeadersFrame.t) : st t StepResult.t :=
  let header := HeadersFrame.header frame in
  let streamId := FrameHeader.streamId header in
  stream <- deref streamId ;;
  if Stream.isClosed stream || Stream.remoteEndStreamReceived stream
  then failStream streamId ErrorCode.STREAM_CLOSED true
  else
    within <- append_header_block streamId (HeadersFrame.data frame) ;;
    if negb within
    then failConnection ErrorCode.ENHANCE_YOUR_CALM (bs "header block too large")
    else if negb (FrameHeader.hasEndHeadersFlag header) then
      update streamId (Stream.set_waitingForContinuation true) ;;;
      update streamId (Stream.set_pendingHeaderEndStream (FrameHeader.hasEndStreamFlag header)) ;;;
      modify (set_expectingContinuation true) ;;;
      modify (set_continuationStreamId streamId) ;;;
      ret StepResult.empty
    else complete_header_block streamId (FrameHeader.hasEndStreamFlag header).

Definition processHeadersFrame (frame : RawFrame.t) : st t StepResult.t :=
  let header := RawFrame.header frame in
  if FrameHeader.streamId header =? 0
  then failConnection ErrorCode.PROTOCOL_ERROR (bs "HEADERS on stream 0")
  else
    let priorityPrefix := if FrameHeader.hasAnyFlag FrameFlag.PRIORITY header then 5 else 0 in
    invalid <- lift (validatePaddedPayload frame priorityPrefix) ;;
    match invalid with
    | Some (code, debug) => failConnection code debug
    | None =>
        headersFrame <- lift (HeadersFrame.parse frame) ;;
        known <- contains (FrameHeader.streamId header) ;;
        if negb known then headers_on_unknown_stream headersFrame
        else headers_on_stream headersFrame
    end.

(** ** PRIORITY, RST_STREAM *)

Definition processPriorityFrame (frame : RawFrame.t) : st t StepResult.t :=
  let header := RawFrame.header frame in
  if FrameHeader.streamId header =? 0
  then failConnection ErrorCode.PROTOCOL_ERROR (bs "PRIORITY on stream 0")
  else if negb (FrameHeader.payloadLength header =? 5) then
    ret (StepResult.push_outbound
           (RstStreamFrame.toBytes
              (buildRstStreamFrame (FrameHeader.streamId header) ErrorCode.FRAME_SIZE_ERROR))
           StepResult.empty)
  else ret StepResult.empty.

Definition processRstStreamFrame (frame : RawFrame.t) : st t StepResult.t :=
  let header := RawFrame.header frame in
  let streamId := FrameHeader.streamId header in
  if streamId =? 0 then failConnection ErrorCode.PROTOCOL_ERROR (bs "RST_STREAM on stream 0")
  else if negb (FrameHeader.payloadLength header =? 4)
  then failConnection ErrorCode.FRAME_SIZE_ERROR (bs "invalid RST_STREAM size")
  else
    known <- contains streamId ;;
    if negb known then
      p <- get ;;
      if streamId >=? nextStreamId p
      then failConnection ErrorCode.PROTOCOL_ERROR (bs "RST_STREAM for idle stream")
      else ret StepResult.empty
    else
      rst <- lift (RstStreamFrame.parse frame) ;;
      let errorCode := RstStreamFrame.errorCode rst in
      let result := StepResult.push_event (streamResetReceived streamId errorCode) StepResult.empty in
      r <- failStream streamId errorCode false ;;
      ret (StepResult.mergeStepResult result r).

(** ** SETTINGS *)

(** [entry.second->outflow.add(delta)] for every stream; the result says
    whether no window overflowed. *)
Fixpoint add_outflows (ids : list Z) (delta : Z) : st t bool :=
  match ids with
  | [] => ret true
  | id :: ids' =>
      stream <- deref id ;;
      let '(ok, f) := OutFlow.add delta (Stream.outflow stream) in
      update id (Stream.set_outflow f) ;;;
      if negb ok then ret false else add_outflows ids' delta
  end.

(** One iteration of the loop of [applyPeerSettings]. *)
Definition applyPeerSetting (param value : Z) : st t Z :=
  if param =? Http2SettingParameter.MAX_CONCURRENT_STREAMS then
    modify (set_maxConcurrentStreams value) ;;; ret ErrorCode.NO_ERROR
  else if param =? Http2SettingParameter.HEADER_TABLE_SIZE then
    modify (set_encodeHeaderTableSize value) ;;;
    modify (fun p => set_hpack (Hpack.setEncodeTableSize value (hpack p)) p) ;;;
    ret ErrorCode.NO_ERROR
  else if param =? Http2SettingParameter.ENABLE_PUSH then
    if negb (value =? 0) then ret ErrorCode.PROTOCOL_ERROR
    else modify (set_enablePush false) ;;; ret ErrorCode.NO_ERROR
  else if param =? Http2SettingParameter.MAX_FRAME_SIZE then
    if (value <? Http2SettingInfo.minimumMaxFrameSize)
       || (value >? Http2SettingInfo.maximumMaxFrameSize)
    then ret ErrorCode.PROTOCOL_ERROR
    else modify (set_maxFrameSize value) ;;; ret ErrorCode.NO_ERROR
  else if param =? Http2SettingParameter.INITIAL_WINDOW_SIZE then
    if value >? Http2SettingInfo.maximumWindowSize then ret ErrorCode.FLOW_CONTROL_ERROR
    else
      p <- get ;;
      delta <- lift (checked_i32 (i32 value - i32 (initialWindowSize p))) ;;
      modify (set_initialWindowSize value) ;;;
      ids <- gets (fun p => iter_order (streams p)) ;;
      ok <- add_outflows ids delta ;;
      if negb ok then ret ErrorCode.FLOW_CONTROL_ERROR else ret ErrorCode.NO_ERROR
  else if param =? Http2SettingParameter.MAX_HEADER_LIST_SIZE then
    modify (set_maxHeaderListSize value) ;;; ret ErrorCode.NO_ERROR
  else ret ErrorCode.NO_ERROR.

Fixpoint applyPeerSettings (settings : list (Z * Z)) : st t Z :=
  match settings with
  | [] => ret ErrorCode.NO_ERROR
  | (param, value) :: settings' =>
      code <- applyPeerSetting param value ;;
      if negb (code =? ErrorCode.NO_ERROR) then ret code else applyPeerSettings settings'
  end.

(** [for (auto& entry : streams) emitPendingRequestBody(...)]: when the body
    of the loop erases the current entry, advancing the iterator is
    undefined. *)
Fixpoint flush_streams (ids : list Z) (result : StepResult.t) : st t StepResult.t :=
  match ids with
  | [] => ret result
  | id :: ids' =>
      result <- emitPendingRequestBody id result ;;
      alive <- contains id ;;
      if alive then flush_streams ids' result
      else fail_with (Undefined "range-for over streams: iterator invalidated by erase")
  end.

Definition settings_ack : SettingFrame.t :=
  SettingFrame.mk (FrameHeader.setAckFlag (FrameHeader.mk 0 FrameType.SETTINGS 0 0)) [].

Definition processSettingFrame (frame : RawFrame.t) : st t StepResult.t :=
  let header := RawFrame.header frame in
  if negb (FrameHeader.streamId header =? 0)
  then failConnection ErrorCode.PROTOCOL_ERROR (bs "SETTINGS with non-zero stream id")
  else if negb (FrameHeader.payloadLength header mod 6 =? 0)
  then failConnection ErrorCode.FRAME_SIZE_ERROR (bs "invalid SETTINGS size")
  else if FrameHeader.hasAckFlag header then
    if negb (FrameHeader.payloadLength header =? 0)
    then failConnection ErrorCode.FRAME_SIZE_ERROR (bs "SETTINGS ack must be empty")
    else ret (StepResult.push_event settingsAckReceived StepResult.empty)
  else
    modify (set_gotPeerSettings true) ;;;
    settingsFrame <- lift (SettingFrame.parse frame) ;;
    applyCode <- applyPeerSettings (SettingFrame.settings settingsFrame) ;;
    if negb (applyCode =? ErrorCode.NO_ERROR)
    then failConnection applyCode (bs "invalid peer settings")
    else
      ids <- gets (fun p => iter_order (streams p)) ;;
      result <- flush_streams ids StepResult.empty ;;
      ret (StepResult.push_outbound (SettingFrame.toBytes settings_ack)
             (StepResult.push_event settingsReceived result)).

(** ** PUSH_PROMISE, PING *)

Definition processPushPromiseFrame (frame : RawFrame.t) : st t StepResult.t :=
  let header := RawFrame.header frame in
  if FrameHeader.streamId header =? 0
  then failConnection ErrorCode.PROTOCOL_ERROR (bs "PUSH_PROMISE on stream 0")
  else
    invalid <- lift (validatePaddedPayload frame 4) ;;
    match invalid with
    | Some (code, debug) => failConnection code debug
    | None =>
        push <- lift (PushPromiseFrame.parse frame) ;;
        let promised := PushPromiseFrame.promisedStreamId push in
        p <- get ;;
        if (promised =? 0) || negb (Z.land promised 1 =? 0)
        then failConnection ErrorCode.PROTOCOL_ERROR (bs "invalid promised stream id parity")
        else if promised <=? lastPeerStreamId p
        then failConnection ErrorCode.PROTOCOL_ERROR (bs "promised stream id must be new")
        else
          let result := StepResult.push_event
            (pushPromiseReceived (FrameHeader.streamId header) promised) StepResult.empty in
          if negb (enablePush p) then
            r <- failConnection ErrorCode.PROTOCOL_ERROR (bs "server push disabled") ;;
            ret (StepResult.mergeStepResult result r)
          else ret result
    end.

Definition processPingFrame (frame : RawFrame.t) : st t StepResult.t :=
  let header := RawFrame.header frame in
  if negb (FrameHeader.streamId header =? 0)
  then failConnection ErrorCode.PROTOCOL_ERROR (bs "PING with non-zero stream id")
  else if negb (FrameHeader.payloadLength header =? 8)
  then failConnection ErrorCode.FRAME_SIZE_ERROR (bs "invalid PING size")
  else
    ping <- lift (PingFrame.parse frame) ;;
    if FrameHeader.hasAckFlag header
    then ret (StepResult.push_event (pingAckReceived (PingFrame.data ping)) StepResult.empty)
    else
      let result := StepResult.push_event (pingReceived (PingFrame.data ping)) StepResult.empty in
      let ack := PingFrame.mk (FrameHeader.setAckFlag (FrameHeader.mk 8 FrameType.PING 0 0))
                   (PingFrame.data ping) in
      ret (StepResult.push_outbound (PingFrame.toBytes ack) result).

(** ** GOAWAY *)

Definition processGoAwayFrame (frame : RawFrame.t) : st t StepResult.t :=
  let header := RawFrame.header frame in
  if negb (FrameHeader.streamId header =? 0)
  then failConnection ErrorCode.PROTOCOL_ERROR (bs "GOAWAY with non-zero stream id")
  else if FrameHeader.payloadLength header <? 8
  then failConnection ErrorCode.FRAME_SIZE_ERROR (bs "invalid GOAWAY")
  else
    goaway <- lift (GoAwayFrame.parse frame) ;;
    let errorCode := GoAwayFrame.errorCode goaway in
    modify (set_receivedGoaway true) ;;;
    let result := StepResult.push_event
      (goAwayReceived (GoAwayFrame.lastStreamId goaway) errorCode (GoAwayFrame.data goaway))
      StepResult.empty in
    ids <- gets (fun p => iter_order (streams p)) ;;
    let toFail := List.filter (fun id => id >? GoAwayFrame.lastStreamId goaway) ids in
    fail_each toFail errorCode result.

(** ** WINDOW_UPDATE *)

(** [for (auto* s : pending) if (streams.count(s->streamId)) ...]. *)
Fixpoint flush_pending (pending : list Z) (result : StepResult.t) : st t StepResult.t :=
  match pending with
  | [] => ret result
  | s :: pending' =>
      _ <- deref s ;;
      present <- contains s ;;
      result <- (if present then emitPendingRequestBody s result else ret result) ;;
      flush_pending pending' result
  end.

Definition processWindowUpdateFrame (frame : RawFrame.t) : st t StepResult.t :=
  let header := RawFrame.header frame in
  let streamId := FrameHeader.streamId header in
  if negb (FrameHeader.payloadLength header =? 4)
  then failConnection ErrorCode.FRAME_SIZE_ERROR (bs "invalid WINDOW_UPDATE size")
  else
    window <- lift (WindowUpdateFrame.parse frame) ;;
    let increment := Z.land (WindowUpdateFrame.windowSizeIncrement window) 0x7fffffff in
    if increment =? 0 then
      if streamId =? 0
      then failConnection ErrorCode.PROTOCOL_ERROR (bs "zero connection window update")
      else failStream streamId ErrorCode.PROTOCOL_ERROR true
    else
      let result := StepResult.push_event (windowUpdateReceived streamId increment) StepResult.empty in
      p <- get ;;
      if streamId =? 0 then
        let '(ok, f) := OutFlow.add (i32 increment) (connectionOutFlow p) in
        modify (set_connectionOutFlow f) ;;;
        if negb ok
        then failConnection ErrorCode.FLOW_CONTROL_ERROR (bs "connection window overflow")
        else
          pending <- gets (fun p => iter_order (streams p)) ;;
          flush_pending pending result
      else
        known <- contains streamId ;;
        if negb known then
          if streamId >=? nextStreamId p
          then failConnection ErrorCode.PROTOCOL_ERROR (bs "WINDOW_UPDATE for idle stream")
          else ret result
        else
          stream <- deref streamId ;;
          let '(ok, f) := OutFlow.add (i32 increment) (Stream.outflow stream) in
          update streamId (Stream.set_outflow f) ;;;
          if negb ok then failStream streamId ErrorCode.FLOW_CONTROL_ERROR true
          else emitPendingRequestBody streamId result.

(** ** CONTINUATION *)

(** The ghost path: the stream has been removed. *)
Definition continuation_on_unknown_stream (frame : ContinuationFrame.t) : st t StepResult.t :=
  p <- get ;;
  ghost <- lift (ByteBuffer.append_range (ContinuationFrame.data frame) (ghostHeaderBlock p)) ;;
  modify (set_ghostHeaderBlock ghost) ;;;
  if (maxHeaderListSize p >? 0) && (ByteBuffer.size ghost >? maxHeaderListSize p) then
    modify (set_ghostHeaderBlock (ByteBuffer.clear ghost)) ;;;
    failConnection ErrorCode.ENHANCE_YOUR_CALM (bs "header block too large")
  else if negb (FrameHeader.hasEndHeadersFlag (ContinuationFrame.header frame))
  then ret StepResult.empty
  else
    modify (set_expectingContinuation false) ;;;
    modify (set_continuationStreamId 0) ;;;
    r <- lift (Hpack.decode (ByteBuffer.span ghost) [] (hpack p)) ;;
    let '(ok, _, hp) := r in
    modify (set_hpack hp) ;;;
    modify (set_ghostHeaderBlock (ByteBuffer.clear ghost)) ;;;
    if negb ok
    then failConnection ErrorCode.COMPRESSION_ERROR
           (bs "HPACK decode failed on closed-stream CONTINUATION")
    else ret StepResult.empty.

Definition processContinuationFrame (frame : RawFrame.t) : st t StepResult.t :=
  let header := RawFrame.header frame in
  let streamId := FrameHeader.streamId header in
  p <- get ;;
  if streamId =? 0 then failConnection ErrorCode.PROTOCOL_ERROR (bs "CONTINUATION on stream 0")
  else if negb (expectingContinuation p) || negb (continuationStreamId p =? streamId)
  then failConnection ErrorCode.PROTOCOL_ERROR (bs "unexpected CONTINUATION")
  else
    continuation <- lift (ContinuationFrame.parse frame) ;;
    known <- contains streamId ;;
    if negb known then continuation_on_unknown_stream continuation
    else
      within <- append_header_block streamId (ContinuationFrame.data continuation) ;;
      if negb within
      then failConnection ErrorCode.ENHANCE_YOUR_CALM (bs "header block too large")
      else if negb (FrameHeader.hasEndHeadersFlag (ContinuationFrame.header continuation))
      then ret StepResult.empty
      else
        modify (set_expectingContinuation false) ;;;
        modify (set_continuationStreamId 0) ;;;
        update streamId (Stream.set_waitingForContinuation false) ;;;
        stream <- deref streamId ;;
        complete_header_block streamId (Stream.pendingHeaderEndStream stream).

(** ** Dispatch *)

Definition receiveFrame (frame : RawFrame.t) : st t StepResult.t :=
  let header := RawFrame.header frame in
  let type := FrameHeader.type header in
  p <- get ;;
  if negb (gotPeerSettings p) && negb (type =? FrameType.SETTINGS)
  then failConnection ErrorCode.PROTOCOL_ERROR (bs "first peer frame must be SETTINGS")
  else if FrameHeader.payloadLength header >? localMaxFrameSize p
  then failConnection ErrorCode.FRAME_SIZE_ERROR (bs "frame exceeds local max frame size")
  else if expectingContinuation p && negb (type =? FrameType.CONTINUATION)
  then failConnection ErrorCode.PROTOCOL_ERROR (bs "expected CONTINUATION")
  else if type =? FrameType.DATA then processDataFrame frame
  else if type =? FrameType.HEADERS then processHeadersFrame frame
  else if type =? FrameType.PRIORITY then processPriorityFrame frame
  else if type =? FrameType.RST_STREAM then processRstStreamFrame frame
  else if type =? FrameType.SETTINGS then processSettingFrame frame
  else if type =? FrameType.PUSH_PROMISE then processPushPromiseFrame frame
  else if type =? FrameType.PING then processPingFrame frame
  else if type =? FrameType.GOAWAY then processGoAwayFrame frame
  else if type =? FrameType.WINDOW_UPDATE then processWindowUpdateFrame frame
  else if type =? FrameType.CONTINUATION then processContinuationFrame frame
  else ret (StepResult.push_event
              (unknownFrameReceived type (FrameHeader.streamId header)
                 (FrameHeader.flags header) (RawFrame.data frame)) StepResult.empty).

(** ** Public operations *)

Definition start : st t StepResult.t :=
  p <- get ;;
  if started p
  then ret (StepResult.push_event (connectionError ErrorCode.PROTOCOL_ERROR) StepResult.empty)
  else
    let result := StepResult.push_outbound HTTP2_CONNECTION_PREFACE StepResult.empty in
    modify (set_sentConnectionPreface true) ;;;
    let result := StepResult.push_outbound
                    (SettingFrame.toBytes (buildLocalSettingsFrame p)) result in
    modify (set_sentLocalSettings true) ;;;
    modify (set_started true) ;;;
    ret (StepResult.push_event connectionStarted result).

(** The stream of a new request. *)
Definition new_stream (streamId : Z) (request : Request.t) (window : Z) : Stream.t :=
  let s := Stream.setRequest request (Stream.init streamId) in
  let s := Stream.set_inflow (InFlow.init (i32 window) (Stream.inflow s)) s in
  let out := OutFlow.setConnFlow (Stream.outflow s) in
  Stream.set_outflow (snd (OutFlow.add (i32 window) out)) s.

Definition submitRequest (request : Request.t) : st t StepResult.t :=
  p <- get ;;
  let refused code := ret (StepResult.push_event (responseFailed 0 code) StepResult.empty) in
  if negb (canSubmitRequests p) then refused ErrorCode.REFUSED_STREAM
  else if negb (Request.isValid request) then refused ErrorCode.PROTOCOL_ERROR
  else if activeStreamCount p >=? maxConcurrentStreams p then refused ErrorCode.REFUSED_STREAM
  else if (nextStreamId p =? 0) || (nextStreamId p >? 0x7fffffff - 1)
  then refused ErrorCode.REFUSED_STREAM
  else
    let streamId := nextStreamId p in
    modify (set_nextStreamId (u32 (streamId + 2))) ;;;
    modify (fun p => set_streams
      (<[streamId := new_stream streamId request (initialWindowSize p)]> (streams p)) p) ;;;
    let result := StepResult.push_event (streamOpened streamId) StepResult.empty in
    r <- lift (Hpack.encode (buildRequestHeaderFields request) (hpack p)) ;;
    let '(encoded, hp) := r in
    modify (set_hpack hp) ;;;
    result <- emitRequestHeaders streamId encoded result ;;
    update streamId (Stream.set_requestStarted true) ;;;
    update streamId (fun s =>
      Stream.set_streamState
        (if Stream.localEndStreamSent s then HALF_CLOSED_LOCAL else OPEN) s) ;;;
    result <- emitPendingRequestBody streamId result ;;
    ret (StepResult.set_submitted streamId result).

(** [while (frameCodec.tryPop(&frame))]: every frame takes nine bytes. *)
Fixpoint receive_loop (fuel : nat) (result : StepResult.t) : st t StepResult.t :=
  match fuel with
  | O => fail_with Hangs
  | S fuel' =>
      p <- get ;;
      r <- lift (FrameCodec.tryPop (frameCodec p)) ;;
      let '(o, codec) := r in
      modify (set_frameCodec codec) ;;;
      match o with
      | None => ret result
      | Some frame =>
          r <- receiveFrame frame ;;
          let result := StepResult.mergeStepResult result r in
          p <- get ;;
          if closed p then ret result else receive_loop fuel' result
      end
  end.

Definition receiveBytes (data : bytes) : st t StepResult.t :=
  p <- get ;;
  if closed p || transportClosed_ p then ret StepResult.empty
  else
    modify (fun p => set_frameCodec (FrameCodec.feed data (frameCodec p)) p) ;;;
    fuel <- gets (fun p => S (length (FrameCodec.buffer (frameCodec p)))) ;;
    receive_loop fuel StepResult.empty.

Definition cancelStream (streamId errorCode : Z) : st t StepResult.t :=
  p <- get ;;
  if closed p then ret StepResult.empty else failStream streamId errorCode true.

Definition sendPing : st t StepResult.t :=
  p <- get ;;
  if closed p || negb (started p) then ret StepResult.empty
  else
    let counter := u64 (pingCounter p + 1) in
    modify (set_pingCounter counter) ;;;
    let frame := PingFrame.mk (FrameHeader.mk 8 FrameType.PING 0 0) (be_write 8 counter) in
    ret (StepResult.push_outbound (PingFrame.toBytes frame) StepResult.empty).

Definition close : st t StepResult.t :=
  p <- get ;;
  if closed p then ret StepResult.empty
  else
    result <- (if negb (sentGoaway p)
               then append_goaway ErrorCode.NO_ERROR [] StepResult.empty
               else ret StepResult.empty) ;;
    result <- failAllStreams ErrorCode.CANCEL result ;;
    modify (set_closed true) ;;;
    ret (StepResult.push_event (connectionClosed ErrorCode.NO_ERROR) result).

Definition onTransportClosed : st t StepResult.t :=
  modify (set_transportClosed_ true) ;;;
  p <- get ;;
  result <- (if negb (closed p) then failAllStreams ErrorCode.CANCEL StepResult.empty
             else ret StepResult.empty) ;;
  modify (set_closed true) ;;;
  p <- get ;;
  ret (StepResult.push_event (connectionClosed (connectionErrorCode p))
         (StepResult.push_event transportClosed result)).
End handlers.
