(* ===== verification/ProtocolInv.v ===== *)
(** * The protocol invariant

    What every public operation of [Http2Protocol] keeps true of the state,
    the closure of that invariant under the assignments the code makes, and
    the proof rules for stream pointers. *)

From S2P Require Import Prelude Outcome ByteBuffer Types Flow Frame FrameFacts FrameCodec.
From S2P Require Import HeaderRules Hpack ProtocolEvent Stream ProtocolState Protocol.
From S2P Require Import ProtocolHandlers.
From S2P Require HpackTableFacts HpackFacts.
Import Http2Protocol.

(** ** Emitted frames *)

(** An outbound buffer is one well-formed frame. *)
Definition out_ok (b : bytes) : Prop := exists f, frame_wf f /\ b = frame_toBytes f.
Definition res_ok (r : StepResult.t) : Prop := Forall out_ok (StepResult.outbound r).

Lemma res_ok_empty : res_ok StepResult.empty.
Proof. constructor. Qed.

Lemma res_ok_event e r : res_ok r -> res_ok (StepResult.push_event e r).
Proof. done. Qed.

Lemma res_ok_outbound f r : res_ok r -> frame_wf f -> res_ok (StepResult.push_outbound (frame_toBytes f) r).
Proof.
  intros Hr Hf. unfold res_ok. cbn. apply Forall_app_2; [done|]. constructor; [|done]. by exists f.
Qed.

Lemma res_ok_merge a b : res_ok a -> res_ok b -> res_ok (StepResult.mergeStepResult a b).
Proof. intros Ha Hb. by apply Forall_app_2. Qed.

Lemma res_ok_submitted id r : res_ok r -> res_ok (StepResult.set_submitted id r).
Proof. done. Qed.

#[export] Hint Resolve res_ok_empty res_ok_event res_ok_merge res_ok_submitted : h2.

(** ** The invariant of a stream

    [k] bounds the bytes the connection may still receive: it keeps the
    32-bit header buffers and the 64-bit body counters from overflowing. *)
Record stream_ok (k id : Z) (s : Stream.t) : Prop := {
  so_id : Stream.streamId s = id;
  so_odd : Z.odd id = true;
  so_open : Stream.isClosed s = false;
  so_ends : Stream.localEndStreamSent s = true -> Stream.remoteEndStreamReceived s = false;
  so_in : InFlow.wf (Stream.inflow s);
  so_out : OutFlow.wf (Stream.outflow s) /\ OutFlow.conn (Stream.outflow s) = true;
  so_off : 0 <= Stream.requestBodyOffset s <= Stream.bodySize s /\ Stream.bodySize s < 2 ^ 63;
  so_sent : Stream.localEndStreamSent s = true -> Stream.requestBodyOffset s = Stream.bodySize s;
  so_block : ByteBuffer.wf (Stream.pendingHeaderBlock s) /\
             ByteBuffer.size (Stream.pendingHeaderBlock s) + k <= 2 ^ 31;
  so_received : 0 <= Stream.receivedContentLength s /\ Stream.receivedContentLength s + k < 2 ^ 62;
  so_status : exists c, Response.getStatusCode (Stream.resp s) = Ok c;
}.

(** ** The invariant of the connection *)

(** Everything that also holds in the middle of [failConnection]. *)
Record inv_core (k : Z) (p : t) : Prop := {
  v_room : 0 <= k;
  v_streams id s : streams p !! id = Some s -> 1 <= id < nextStreamId p /\ stream_ok k id s;
  v_next : 1 <= nextStreamId p <= 2 ^ 31 /\ Z.odd (nextStreamId p) = true;
  v_push : enablePush p = false;
  v_peer : lastPeerStreamId p = 0;
  v_maxframe : 16384 <= maxFrameSize p < 2 ^ 24;
  v_window : 0 <= initialWindowSize p < 2 ^ 31;
  v_limits : 0 <= maxConcurrentStreams p < 2 ^ 32 /\ 0 <= decodeHeaderTableSize p < 2 ^ 32 /\
             0 <= localMaxFrameSize p < 2 ^ 32 /\ 0 <= maxHeaderListSize p < 2 ^ 32;
  v_in : InFlow.wf (connectionInflow p);
  v_out : OutFlow.wf (connectionOutFlow p);
  v_dec : HpackFacts.dec_wf (hpack p);
  v_enc : HpackFacts.enc_wf (hpack p);
  v_ghost : ByteBuffer.wf (ghostHeaderBlock p) /\ ByteBuffer.size (ghostHeaderBlock p) + k <= 2 ^ 31;
}.

(** A closed connection has no streams. *)
Definition inv (k : Z) (p : t) : Prop :=
  inv_core k p /\ (closed p = true -> streams p = ∅).

Lemma inv_stream k p id s : inv k p -> streams p !! id = Some s -> stream_ok k id s.
Proof. intros [Hc _] Hs. by apply (v_streams _ _ Hc). Qed.

Lemma inv_not_closed k p id s : inv k p -> streams p !! id = Some s -> closed p = false.
Proof.
  intros [_ Hc] Hs. destruct (closed p); [|done]. rewrite Hc in Hs by done. by rewrite lookup_empty in Hs.
Qed.

Lemma stream_ok_mono k k' id s : stream_ok k id s -> 0 <= k' <= k -> stream_ok k' id s.
Proof. intros [] Hk. constructor; try done; destruct so_block0, so_received0; split; (done || lia). Qed.

Lemma inv_core_mono k k' p : inv_core k p -> 0 <= k' <= k -> inv_core k' p.
Proof.
  intros [] Hk. constructor; try done; [lia| |destruct v_ghost0; split; (done || lia)].
  intros id s Hs. destruct (v_streams0 id s Hs). split; [done|]. by eapply stream_ok_mono.
Qed.

Lemma inv_mono k k' p : inv k p -> 0 <= k' <= k -> inv k' p.
Proof. intros [Hc ?] Hk. split; [by eapply inv_core_mono|done]. Qed.

(** *** Closure under assignments *)

Section closure.
Context (k : Z) (p : t) (Hinv : inv_core k p).

Local Ltac close := destruct Hinv; constructor; cbn; solve [done | lia | eauto].

Lemma inv_set_stream id s :
  1 <= id < nextStreamId p -> stream_ok k id s ->
  inv_core k (set_streams (<[id := s]> (streams p)) p).
Proof.
  intros Hid Hs. destruct Hinv; constructor; cbn; try done.
  intros i s'. rewrite lookup_insert_Some. intros [[<- <-]|[_ ?]]; [done|eauto].
Qed.

Lemma inv_delete_stream id : inv_core k (set_streams (delete id (streams p)) p).
Proof.
  destruct Hinv; constructor; cbn; try done.
  intros i s'. rewrite lookup_delete_Some. intros [_ ?]; eauto.
Qed.

Lemma inv_set_ghost b :
  ByteBuffer.wf b -> ByteBuffer.size b + k <= 2 ^ 31 -> inv_core k (set_ghostHeaderBlock b p).
Proof. intros. close. Qed.
Lemma inv_set_hpack hp :
  HpackFacts.dec_wf hp -> HpackFacts.enc_wf hp -> inv_core k (set_hpack hp p).
Proof. intros. close. Qed.
Lemma inv_set_inflow f : InFlow.wf f -> inv_core k (set_connectionInflow f p).
Proof. intros. close. Qed.
Lemma inv_set_outflow f : OutFlow.wf f -> inv_core k (set_connectionOutFlow f p).
Proof. intros. close. Qed.
Lemma inv_set_maxFrameSize n : 16384 <= n < 2 ^ 24 -> inv_core k (set_maxFrameSize n p).
Proof. intros. close. Qed.
Lemma inv_set_initialWindowSize n : 0 <= n < 2 ^ 31 -> inv_core k (set_initialWindowSize n p).
Proof. intros. close. Qed.
Lemma inv_set_maxConcurrentStreams n : 0 <= n < 2 ^ 32 -> inv_core k (set_maxConcurrentStreams n p).
Proof. intros. destruct Hinv; constructor; cbn; try done. tauto. Qed.
Lemma inv_set_maxHeaderListSize n : 0 <= n < 2 ^ 32 -> inv_core k (set_maxHeaderListSize n p).
Proof. intros. destruct Hinv; constructor; cbn; try done. tauto. Qed.
Lemma inv_set_enablePush : inv_core k (set_enablePush false p).
Proof. close. Qed.
Lemma inv_set_encodeHeaderTableSize n : inv_core k (set_encodeHeaderTableSize n p).
Proof. close. Qed.
Lemma inv_set_frameCodec c : inv_core k (set_frameCodec c p).
Proof. close. Qed.
Lemma inv_set_closed b : inv_core k (set_closed b p).
Proof. close. Qed.
Lemma inv_set_started b : inv_core k (set_started b p).
Proof. close. Qed.
Lemma inv_set_sentConnectionPreface b : inv_core k (set_sentConnectionPreface b p).
Proof. close. Qed.
Lemma inv_set_sentLocalSettings b : inv_core k (set_sentLocalSettings b p).
Proof. close. Qed.
Lemma inv_set_gotPeerSettings b : inv_core k (set_gotPeerSettings b p).
Proof. close. Qed.
Lemma inv_set_sentGoaway b : inv_core k (set_sentGoaway b p).
Proof. close. Qed.
Lemma inv_set_receivedGoaway b : inv_core k (set_receivedGoaway b p).
Proof. close. Qed.
Lemma inv_set_transportClosed b : inv_core k (set_transportClosed_ b p).
Proof. close. Qed.
Lemma inv_set_expectingContinuation b : inv_core k (set_expectingContinuation b p).
Proof. close. Qed.
Lemma inv_set_continuationStreamId n : inv_core k (set_continuationStreamId n p).
Proof. close. Qed.
Lemma inv_set_connectionErrorCode n : inv_core k (set_connectionErrorCode n p).
Proof. close. Qed.
Lemma inv_set_connectionDebugData b : inv_core k (set_connectionDebugData b p).
Proof. close. Qed.
Lemma inv_set_pingCounter n : inv_core k (set_pingCounter n p).
Proof. close. Qed.
End closure.

#[export] Hint Resolve inv_set_stream inv_delete_stream inv_set_ghost inv_set_hpack inv_set_inflow
  inv_set_outflow inv_set_maxFrameSize inv_set_initialWindowSize inv_set_maxConcurrentStreams
  inv_set_maxHeaderListSize inv_set_enablePush inv_set_encodeHeaderTableSize inv_set_frameCodec
  inv_set_closed inv_set_started inv_set_sentConnectionPreface inv_set_sentLocalSettings
  inv_set_gotPeerSettings inv_set_sentGoaway inv_set_receivedGoaway inv_set_transportClosed
  inv_set_expectingContinuation inv_set_continuationStreamId inv_set_connectionErrorCode
  inv_set_connectionDebugData inv_set_pingCounter : h2.

(** ** Rules for stream pointers *)

Section rules.
Context {E : fault -> Prop}.

Lemma wp_deref id s (Q : Stream.t -> t -> Prop) p :
  streams p !! id = Some s -> Q s p -> wp E (deref id) Q p.
Proof. unfold wp, deref. by intros ->. Qed.

Lemma wp_update id s f (Q : unit -> t -> Prop) p :
  streams p !! id = Some s -> Q tt (set_streams (<[id := f s]> (streams p)) p) ->
  wp E (update id f) Q p.
Proof. unfold wp, update. by intros ->. Qed.

Lemma wp_contains id (Q : bool -> t -> Prop) p :
  Q (bool_decide (is_Some (streams p !! id))) p -> wp E (contains id) Q p.
Proof. done. Qed.

Lemma wp_erase id (Q : unit -> t -> Prop) p :
  Q tt (set_streams (delete id (streams p)) p) -> wp E (erase id) Q p.
Proof. done. Qed.

(** Assignments to the same stream compose. *)
Lemma set_streams_insert_insert id s s' p :
  set_streams (<[id := s']> (streams (set_streams (<[id := s]> (streams p)) p)))
    (set_streams (<[id := s]> (streams p)) p)
  = set_streams (<[id := s']> (streams p)) p.
Proof. unfold set_streams. cbn. by rewrite insert_insert_eq. Qed.

Lemma set_streams_delete_insert id s p :
  set_streams (delete id (streams (set_streams (<[id := s]> (streams p)) p)))
    (set_streams (<[id := s]> (streams p)) p)
  = set_streams (delete id (streams p)) p.
Proof. unfold set_streams. cbn. by rewrite delete_insert_eq. Qed.

Lemma streams_set id s p : streams (set_streams (<[id := s]> (streams p)) p) !! id = Some s.
Proof. cbn. by rewrite lookup_insert_eq. Qed.
End rules.

(** [p] with stream [id] now [s]: the normal form of symbolic execution. *)
Definition with_stream (id : Z) (s : Stream.t) (p : t) : t :=
  set_streams (<[id := s]> (streams p)) p.
Definition without_stream (id : Z) (p : t) : t := set_streams (delete id (streams p)) p.

#[global] Arguments with_stream : simpl never.
#[global] Arguments without_stream : simpl never.

Section with_stream.
Context {E : fault -> Prop}.

Lemma with_stream_lookup id s p : streams (with_stream id s p) !! id = Some s.
Proof. apply streams_set. Qed.

Lemma with_stream_with id s s' p : with_stream id s' (with_stream id s p) = with_stream id s' p.
Proof. apply set_streams_insert_insert. Qed.

Lemma without_stream_with id s p : without_stream id (with_stream id s p) = without_stream id p.
Proof. apply set_streams_delete_insert. Qed.

Lemma with_stream_self id s p : streams p !! id = Some s -> with_stream id s p = p.
Proof. intros Hs. unfold with_stream. rewrite insert_id by done. by destruct p. Qed.

Lemma wp_update_first id s f (Q : unit -> t -> Prop) p :
  streams p !! id = Some s -> Q tt (with_stream id (f s) p) -> wp E (update id f) Q p.
Proof. apply wp_update. Qed.

Lemma wp_update_with id s f (Q : unit -> t -> Prop) p :
  Q tt (with_stream id (f s) p) -> wp E (update id f) Q (with_stream id s p).
Proof.
  intros HQ. eapply wp_update; [apply with_stream_lookup|].
  fold (with_stream id (f s) (with_stream id s p)). by rewrite with_stream_with.
Qed.

Lemma wp_deref_with id s (Q : Stream.t -> t -> Prop) p :
  Q s (with_stream id s p) -> wp E (deref id) Q (with_stream id s p).
Proof. intros HQ. eapply wp_deref; [apply with_stream_lookup|done]. Qed.

Lemma wp_erase_with id s (Q : unit -> t -> Prop) p :
  Q tt (without_stream id p) -> wp E (erase id) Q (with_stream id s p).
Proof.
  intros HQ. apply wp_erase. fold (without_stream id (with_stream id s p)).
  by rewrite without_stream_with.
Qed.

Lemma inv_core_with k p id s :
  inv_core k p -> 1 <= id < nextStreamId p -> stream_ok k id s -> inv_core k (with_stream id s p).
Proof. intros. by apply inv_set_stream. Qed.

Lemma inv_core_without k p id : inv_core k p -> inv_core k (without_stream id p).
Proof. intros. by apply inv_delete_stream. Qed.

Lemma inv_with k p id s s0 :
  inv k p -> streams p !! id = Some s0 -> stream_ok k id s -> inv k (with_stream id s p).
Proof.
  intros Hinv Hs0 Hs. pose proof (inv_not_closed _ _ _ _ Hinv Hs0) as Hcl.
  destruct Hinv as [Hc _]. split; [|unfold with_stream; cbn; congruence].
  apply inv_core_with; [done| |done]. by apply (v_streams _ _ Hc id s0).
Qed.

Lemma inv_without k p id : inv k p -> inv k (without_stream id p).
Proof.
  intros [Hc He]. split; [by apply inv_core_without|]. unfold without_stream. cbn. intros Hcl.
  by rewrite He, delete_empty.
Qed.
End with_stream.

#[export] Hint Resolve inv_core_with inv_core_without inv_without : h2.

(** One step of symbolic execution on a state in normal form. *)
Ltac pstep :=
  lazymatch goal with
  | |- wp _ (update ?id _) _ (with_stream ?id _ _) => apply wp_update_with
  | |- wp _ (deref ?id) _ (with_stream ?id _ _) => apply wp_deref_with
  | |- wp _ (erase ?id) _ (with_stream ?id _ _) => apply wp_erase_with
  | |- wp _ (contains _) _ _ => apply wp_contains
  | |- _ => wp_step
  end;
  cbv beta.
Ltac psteps := repeat pstep; cbv beta zeta.
