(* ===== verification/ProtocolFrame.v ===== *)
(** * What the frame handlers leave alone

    A small frame logic: [keeps R m] says that a computation that returns
    relates its initial and final states by [R]: the members that no frame
    handler assigns (the codec, the ids of this end's streams, the local
    limits, the flags of the connection's start) are unchanged, no stream is
    opened and no request is altered; only HEADERS starts a block that must be
    continued, and a closed connection stays closed.  The proofs walk through the code of
    each handler. *)

From S2P Require Import Prelude Outcome ByteBuffer Types Flow Frame FrameCodec HeaderRules.
From S2P Require Import Hpack ProtocolEvent Stream ProtocolState Protocol ProtocolHandlers.
Import Http2Protocol.

(** The members that receiving a frame does not change. *)
Record local_part := mk_local {
  l_codec : FrameCodec.t; l_decodeHeaderTableSize : Z; l_localMaxFrameSize : Z; l_nextStreamId : Z;
  l_lastPeerStreamId : Z; l_started : bool; l_sentConnectionPreface : bool; l_sentLocalSettings : bool;
  l_transportClosed : bool; l_pingCounter : Z;
}.

Definition local (p : t) : local_part :=
  mk_local (frameCodec p) (decodeHeaderTableSize p) (localMaxFrameSize p) (nextStreamId p)
    (lastPeerStreamId p) (started p) (sentConnectionPreface p) (sentLocalSettings p)
    (transportClosed_ p) (pingCounter p).

(** The requests of the streams. *)
Definition requests (p : t) : gmap Z Request.t := Stream.rqst <$> streams p.

(** The two frame conditions.  Receiving keeps the local part, opens no
    stream and alters no request... *)
Definition receiver_frame (p p' : t) : Prop := local p' = local p /\ requests p' ⊆ requests p.
(** ... and every call but [receiveBytes] keeps the codec. *)
Definition same_codec (p p' : t) : Prop := frameCodec p' = frameCodec p.

(** What the logic needs of such a relation. *)
Class FrameRel (R : t -> t -> Prop) : Prop := {
  frame_preorder :: PreOrder R;
  frame_update p id s s' :
    streams p !! id = Some s -> Stream.rqst s' = Stream.rqst s -> R p (set_streams (<[id := s']> (streams p)) p);
  frame_erase p id : R p (set_streams (delete id (streams p)) p);
}.

#[export] Instance receiver_frame_rel : FrameRel receiver_frame.
Proof.
  split.
  - split; [done|]. intros p1 p2 p3 [H1 H2] [H3 H4]. split; [congruence|by etrans].
  - intros p id s s' Hs Hr. split; [done|]. unfold requests. cbn. rewrite fmap_insert, insert_id; [done|].
    by rewrite lookup_fmap, Hs, Hr.
  - intros p id. split; [done|]. unfold requests. cbn. rewrite fmap_delete. apply delete_subseteq.
Qed.

#[export] Instance same_codec_rel : FrameRel same_codec.
Proof. split; [|done..]. split; [done|]. intros p1 p2 p3. unfold same_codec. congruence. Qed.

(** No stream has a body to send; this is kept too. *)
Definition bodyless (p : t) : Prop := forall id r, requests p !! id = Some r -> Request.body r = [].
Definition stays_bodyless (p p' : t) : Prop := bodyless p -> bodyless p'.

Lemma bodyless_subseteq p p' : requests p' ⊆ requests p -> stays_bodyless p p'.
Proof. intros Hr Hb id r Hid. eapply Hb, lookup_weaken; done. Qed.

#[export] Instance stays_bodyless_rel : FrameRel stays_bodyless.
Proof.
  split.
  - split; [by intros p Hp|]. intros p1 p2 p3 H1 H2 Hb. auto.
  - intros p id s s' Hs Hr. apply bodyless_subseteq. by eapply (frame_update (R := receiver_frame)).
  - intros p id. apply bodyless_subseteq, (frame_erase (R := receiver_frame)).
Qed.

(** A header block that must be continued is only ever given up. *)
Definition block_kept (p p' : t) : Prop :=
  expectingContinuation p' = true ->
  expectingContinuation p = true /\
  (continuationStreamId p' = continuationStreamId p \/ continuationStreamId p' = 0).

#[export] Instance block_kept_rel : FrameRel block_kept.
Proof.
  unfold block_kept. split; [|intros; split; [done|by left]..]. split; [intros p Hp; split; [done|by left]|].
  intros p1 p2 p3 H1 H2 Hp. destruct (H2 Hp) as [Hp2 [->|Hz]]; [by apply H1|]. destruct (H1 Hp2). auto.
Qed.

(** A closed connection stays closed. *)
Definition stays_closed (p p' : t) : Prop := closed p = true -> closed p' = true.

#[export] Instance stays_closed_rel : FrameRel stays_closed.
Proof. unfold stays_closed. split; [|done..]. split; [by intros p Hp|]. intros p1 p2 p3. auto. Qed.

(** A connection whose transport is gone is closed. *)
Definition shut (p : t) : Prop := transportClosed_ p = true -> closed p = true.
Definition stays_shut (p p' : t) : Prop := shut p -> shut p'.

#[export] Instance stays_shut_rel : FrameRel stays_shut.
Proof. unfold stays_shut. split; [|done..]. split; [by intros p Hp|]. intros p1 p2 p3. auto. Qed.

(** The assignments that the handlers below make to other members. *)
Class HandlerRel (R : t -> t -> Prop) : Prop := {
  handler_frame :: FrameRel R;
  handler_modify f :
    (forall p, local (f p) = local p) -> (forall p, streams (f p) = streams p) ->
    (forall p, block_kept p (f p)) -> (forall p, stays_closed p (f p)) -> forall p, R p (f p);
}.

#[export] Instance receiver_frame_handler : HandlerRel receiver_frame.
Proof. split; [apply _|]. intros f Hl Hs _ _ p. split; [done|]. unfold requests. by rewrite Hs. Qed.
#[export] Instance same_codec_handler : HandlerRel same_codec.
Proof. split; [apply _|]. intros f Hl _ _ _ p. by apply (f_equal l_codec (Hl p)). Qed.
#[export] Instance stays_bodyless_handler : HandlerRel stays_bodyless.
Proof. split; [apply _|]. intros f _ Hs _ _ p. apply bodyless_subseteq. unfold requests. by rewrite Hs. Qed.
#[export] Instance block_kept_handler : HandlerRel block_kept.
Proof. split; [apply _|done]. Qed.
#[export] Instance stays_closed_handler : HandlerRel stays_closed.
Proof. split; [apply _|done]. Qed.
#[export] Instance stays_shut_handler : HandlerRel stays_shut.
Proof.
  split; [apply _|]. intros f Hl _ _ Hc p Hp Ht. pose proof (f_equal l_transportClosed (Hl p)) as Htc. cbn in Htc.
  apply Hc, Hp. congruence.
Qed.

Definition keeps {A} (R : t -> t -> Prop) (m : st t A) : Prop :=
  forall p a p', m p = Ok (a, p') -> R p p'.

Section rules.
Context (R : t -> t -> Prop) `{!FrameRel R}.

Lemma keeps_ret {A} (a : A) : keeps R (ret a).
Proof. by intros p b p' [= _ <-]. Qed.
Lemma keeps_get : keeps R get.
Proof. by intros p b p' [= _ <-]. Qed.
Lemma keeps_gets {A} (f : t -> A) : keeps R (gets f).
Proof. by intros p b p' [= _ <-]. Qed.
Lemma keeps_modify f : (forall p, R p (f p)) -> keeps R (modify f).
Proof. intros Hf p b p' [= _ <-]. apply Hf. Qed.
Lemma keeps_lift {A} (m : outcome A) : keeps R (lift m).
Proof. intros p b p'. unfold lift. destruct m; [|done]. by intros [= _ <-]. Qed.
Lemma keeps_fail {A} f : keeps R (@fail_with t A f).
Proof. done. Qed.
Lemma keeps_deref id : keeps R (deref id).
Proof. intros p b p'. unfold deref. destruct (_ !! _); [|done]. by intros [= _ <-]. Qed.
Lemma keeps_update id f : (forall s, Stream.rqst (f s) = Stream.rqst s) -> keeps R (update id f).
Proof.
  intros Hf p b p'. unfold update. destruct (_ !! _) eqn:Hs; [|done]. intros [= _ <-].
  by eapply frame_update.
Qed.
Lemma keeps_contains id : keeps R (contains id).
Proof. apply keeps_gets. Qed.
Lemma keeps_erase id : keeps R (erase id).
Proof. apply keeps_modify. intros p. apply frame_erase. Qed.
Lemma keeps_bind {A A'} (m : st t A) (k : A -> st t A') :
  keeps R m -> (forall a, keeps R (k a)) -> keeps R (bind m k).
Proof.
  intros Hm Hk p b p'. unfold bind. destruct (m p) as [[a q]|] eqn:Hmp; [|done].
  intros Hkp. etrans; [by eapply Hm|by eapply Hk].
Qed.
End rules.

(** Adding the frame condition to a specification. *)
Lemma wp_keeps {E A} (R : t -> t -> Prop) (m : st t A) Q p :
  wp E m Q p -> keeps R m -> wp E m (fun a p' => Q a p' /\ R p p') p.
Proof. unfold wp. intros Hm Hk. destruct (m p) as [[a p']|] eqn:Hrun; [|done]. split; [done|by eapply Hk]. Qed.

Create HintDb keeps discriminated.

Ltac block_kept := intros Hp; first [discriminate Hp | split; [exact Hp|first [by left | by right]]].

(** Walk through a computation; known functions are in the hint base. *)
Ltac keeps_step :=
  lazymatch goal with
  | |- keeps _ (bind _ _) => apply keeps_bind; [apply _| |intros ?]
  | |- keeps _ (ret _) => apply keeps_ret, _
  | |- keeps _ get => apply keeps_get, _
  | |- keeps _ (gets _) => apply keeps_gets, _
  | |- keeps _ (modify _) =>
      first [solve [auto with keeps]
            | apply keeps_modify, handler_modify; intros ?; [reflexivity..|solve [block_kept]|by intros Hp]
            | apply keeps_modify; intros ?; first [reflexivity | split; reflexivity | exact id | solve [block_kept] | by intros Hp]]
  | |- keeps _ (lift _) => apply keeps_lift, _
  | |- keeps _ (fail_with _) => apply keeps_fail
  | |- keeps _ (deref _) => apply keeps_deref, _
  | |- keeps _ (update _ _) => apply keeps_update; [apply _|intros ?; reflexivity]
  | |- keeps _ (contains _) => apply keeps_contains, _
  | |- keeps _ (erase _) => apply keeps_erase, _
  | |- keeps _ (match ?x with _ => _ end) => destruct x
  | |- keeps _ _ => solve [auto with keeps]
  end.
Ltac keeps := cbv zeta; repeat (keeps_step; cbv beta zeta).

Section handlers.
Context `{IterOrder}.

Section generic.
Context (R : t -> t -> Prop) `{!HandlerRel R}.

Lemma failStream_keeps id code rst : keeps R (failStream id code rst).
Proof. unfold failStream. keeps. Qed.
Hint Resolve failStream_keeps : keeps.

Lemma fail_each_keeps ids code r : keeps R (fail_each ids code r).
Proof. revert r. induction ids; intros r; cbn [fail_each]; keeps. Qed.
Hint Resolve fail_each_keeps : keeps.

Lemma failConnection_keeps code debug : keeps R (failConnection code debug).
Proof. unfold failConnection, failAllStreams, append_goaway. keeps. Qed.
Hint Resolve failConnection_keeps : keeps.

Lemma body_loop_keeps fuel id r : keeps R (body_loop fuel id r).
Proof. revert r. induction fuel; intros r; cbn [body_loop]; keeps. Qed.
Hint Resolve body_loop_keeps : keeps.

Lemma emitPending_keeps id r : keeps R (emitPendingRequestBody id r).
Proof. unfold emitPendingRequestBody. keeps. Qed.
Hint Resolve emitPending_keeps : keeps.

Lemma finalize_keeps id r : keeps R (finalizeRemoteStream id r).
Proof. unfold finalizeRemoteStream. keeps. Qed.
Hint Resolve finalize_keeps : keeps.

Lemma complete_header_block_keeps id endStream : keeps R (complete_header_block id endStream).
Proof.
  unfold complete_header_block, decodeResponseHeaders, store_headers, handleHeaderBlockError. keeps.
Qed.
Hint Resolve complete_header_block_keeps : keeps.

Lemma refresh_connection_keeps n r : keeps R (refresh_connection n r).
Proof. unfold refresh_connection. keeps. Qed.
Hint Resolve refresh_connection_keeps : keeps.

Lemma append_header_block_keeps id d : keeps R (append_header_block id d).
Proof. unfold append_header_block. keeps. Qed.
Hint Resolve append_header_block_keeps : keeps.

Lemma add_outflows_keeps ids delta : keeps R (add_outflows ids delta).
Proof. induction ids; cbn [add_outflows]; keeps. Qed.
Hint Resolve add_outflows_keeps : keeps.

Lemma applyPeerSettings_keeps l : keeps R (applyPeerSettings l).
Proof. induction l; cbn [applyPeerSettings]; unfold applyPeerSetting; keeps. Qed.
Hint Resolve applyPeerSettings_keeps : keeps.

Lemma flush_streams_keeps ids r : keeps R (flush_streams ids r).
Proof. revert r. induction ids; intros r; cbn [flush_streams]; keeps. Qed.
Hint Resolve flush_streams_keeps : keeps.

Lemma flush_pending_keeps ids r : keeps R (flush_pending ids r).
Proof. revert r. induction ids; intros r; cbn [flush_pending]; keeps. Qed.
Hint Resolve flush_pending_keeps : keeps.

Lemma processDataFrame_keeps frame : keeps R (processDataFrame frame).
Proof. unfold processDataFrame, processDataOnUnknownStream, accept_data. keeps. Qed.
Lemma processSettingFrame_keeps frame : keeps R (processSettingFrame frame).
Proof. unfold processSettingFrame. keeps. Qed.
Lemma processWindowUpdateFrame_keeps frame : keeps R (processWindowUpdateFrame frame).
Proof. unfold processWindowUpdateFrame. keeps. Qed.
Lemma processContinuationFrame_keeps frame : keeps R (processContinuationFrame frame).
Proof. unfold processContinuationFrame, continuation_on_unknown_stream. keeps. Qed.
Hint Resolve processDataFrame_keeps processSettingFrame_keeps
  processWindowUpdateFrame_keeps processContinuationFrame_keeps : keeps.

(** Only HEADERS may start a block that must be continued. *)
Lemma receiveFrame_keeps_of frame :
  keeps R (processHeadersFrame frame) \/ FrameHeader.type (RawFrame.header frame) <> FrameType.HEADERS ->
  keeps R (receiveFrame frame).
Proof.
  intros Hh. assert (Hheaders : keeps R (if FrameHeader.type (RawFrame.header frame) =? FrameType.HEADERS
    then processHeadersFrame frame else ret StepResult.empty)).
  { case_if; [|apply keeps_ret, _]. destruct Hh as [|Hh]; [done|]. by bool_to_prop. }
  unfold receiveFrame, processPriorityFrame, processRstStreamFrame, processPushPromiseFrame,
    processPingFrame, processGoAwayFrame. keeps.
Qed.

Lemma emit_continuations_keeps fuel id span r : keeps R (emit_continuations fuel id span r).
Proof. revert span r. induction fuel; intros span r; cbn [emit_continuations]; keeps. Qed.
Hint Resolve emit_continuations_keeps : keeps.

Lemma emitRequestHeaders_keeps id block r : keeps R (emitRequestHeaders id block r).
Proof. unfold emitRequestHeaders. keeps. Qed.
End generic.

Hint Extern 0 (HandlerRel _) => apply _ : keeps.
Hint Resolve failStream_keeps fail_each_keeps failConnection_keeps finalize_keeps complete_header_block_keeps
  append_header_block_keeps emitPending_keeps emitRequestHeaders_keeps : keeps.

Lemma processHeadersFrame_keeps frame : keeps receiver_frame (processHeadersFrame frame).
Proof. unfold processHeadersFrame, headers_on_unknown_stream, headers_on_stream. keeps. Qed.

Lemma receiveFrame_keeps frame : keeps receiver_frame (receiveFrame frame).
Proof. apply receiveFrame_keeps_of; [apply _|left; apply processHeadersFrame_keeps]. Qed.

(** ** The other operations *)

Lemma receiveBytes_bodyless data : keeps stays_bodyless (receiveBytes data).
Proof.
  assert (Hframe : forall frame, keeps stays_bodyless (receiveFrame frame)).
  { intros frame p r p' Hrun. destruct (receiveFrame_keeps _ _ _ _ Hrun) as [_ Hr]. by apply bodyless_subseteq. }
  assert (Hloop : forall fuel r, keeps stays_bodyless (receive_loop fuel r)).
  { induction fuel; intros r; cbn [receive_loop]; keeps. }
  unfold receiveBytes. keeps.
Qed.

Lemma submitRequest_bodyless request :
  Request.body request = [] -> keeps stays_bodyless (submitRequest request).
Proof.
  intros Hb. unfold submitRequest.
  assert (Hnew : forall id, keeps stays_bodyless (modify (fun p => set_streams
    (<[id := new_stream id request (initialWindowSize p)]> (streams p)) p))).
  { intros id. apply keeps_modify. intros p Hp i r. unfold requests. cbn. rewrite fmap_insert.
    intros [[_ <-]|[_ Hr]]%lookup_insert_Some; [done|by apply (Hp i)]. }
  keeps.
Qed.

(** The codec is fed and drained by [receiveBytes] only, which alone starts
    header blocks. *)
Lemma submitRequest_keeps R request :
  R = same_codec \/ R = block_kept \/ R = stays_closed -> keeps R (submitRequest request).
Proof. unfold submitRequest. intros [->|[->| ->]]; keeps. Qed.

Lemma other_calls_keep id code R :
  R = same_codec \/ R = stays_bodyless \/ R = block_kept \/ R = stays_closed ->
  keeps R start /\ keeps R (cancelStream id code) /\ keeps R sendPing /\ keeps R close /\
  keeps R onTransportClosed.
Proof.
  unfold start, cancelStream, sendPing, close, onTransportClosed, append_goaway, failAllStreams.
  intros [->|[->|[->| ->]]]; (split; [|split; [|split; [|split]]]); keeps.
Qed.

Lemma calls_stay_shut request id code :
  keeps stays_shut start /\ keeps stays_shut (submitRequest request) /\ keeps stays_shut (cancelStream id code) /\
  keeps stays_shut sendPing /\ keeps stays_shut close /\ keeps stays_shut onTransportClosed.
Proof.
  unfold start, submitRequest, cancelStream, sendPing, close, append_goaway, failAllStreams.
  (split; [|split; [|split; [|split; [|split]]]]); [keeps..|].
  unfold onTransportClosed. intros p r p' Hrun _ _.
  unfold bind, modify, get, ret in Hrun. by repeat case_match; simplify_eq.
Qed.

(** All the calls but [receiveBytes]. *)
Lemma local_calls_keep request id code R :
  R = same_codec \/ R = block_kept \/ R = stays_closed \/ R = stays_shut ->
  keeps R start /\ keeps R (submitRequest request) /\ keeps R (cancelStream id code) /\ keeps R sendPing /\
  keeps R close /\ keeps R onTransportClosed.
Proof.
  intros [HR|[HR|[HR| ->]]]; [..|apply calls_stay_shut];
    (destruct (other_calls_keep id code R) as (? & ? & ? & ? & ?); [tauto|]);
    (split; [done|split; [apply submitRequest_keeps; tauto|done]]).
Qed.
End handlers.
