(* ===== verification/ProtocolFacts.v ===== *)
(** * Facts about emission and failure

    Specifications of the functions of [Protocol.v]: they return, keep the
    invariant, and emit well-formed frames only. *)

From S2P Require Import Prelude Outcome ByteBuffer Types Flow Frame FrameFacts FrameCodec.
From S2P Require Import HeaderRules Hpack ProtocolEvent Stream ProtocolState Protocol.
From S2P Require Import ProtocolInv.
From S2P Require HpackTableFacts HpackFacts HeaderFacts.
Import Http2Protocol.

Section facts.
Context `{IterOrder}.

(** ** Frame builders *)

Definition code_ok (code : Z) : Prop := 0 <= code < 2 ^ 32.

Lemma rst_frame_wf id code :
  0 <= id < 2 ^ 31 -> code_ok code -> frame_wf (FRstStream (buildRstStreamFrame id code)).
Proof. intros Hid Hc. split; [|split]; [split_and!; cbn; (lia || done)|split; done|done]. Qed.

Lemma window_frame_wf id n :
  0 <= id < 2 ^ 31 -> 0 <= n < 2 ^ 32 -> frame_wf (FWindowUpdate (buildWindowUpdateFrame id n)).
Proof. intros Hid Hc. split; [|split]; [split_and!; cbn; (lia || done)|split; done|done]. Qed.

Lemma goaway_frame_wf k code debug p :
  inv_core k p -> code_ok code -> zlen debug < 2 ^ 16 ->
  frame_wf (FGoAway (buildGoAwayFrame code debug p)).
Proof.
  intros Hp Hc Hd. pose proof (zlen_nonneg debug). pose proof (v_peer _ _ Hp) as Hpeer.
  assert (Hl : u32 (8 + zlen debug) = 8 + zlen debug) by (apply u32_small; lia).
  split; [|split].
  - unfold FrameHeader.wf, buildGoAwayFrame. cbn. rewrite Hl. split_and!; (lia || done).
  - cbn. rewrite Hpeer. split_and!; try done; apply Hc.
  - cbn [frame_header frame_toBytes]. unfold GoAwayFrame.toBytes, buildGoAwayFrame.
    cbn [GoAwayFrame.header GoAwayFrame.lastStreamId GoAwayFrame.errorCode GoAwayFrame.data FrameHeader.payloadLength].
    rewrite Hl, !zlen_app, zlen_header_encode, !zlen_be_write. lia.
Qed.

(** ** Failing streams *)

(** What [failStream] reports for a stream it knows, and what it leaves: the
    stream is gone and its unfinished header block is the ghost block. *)
Definition fail_result (p : t) (id code : Z) (rst : bool) : StepResult.t :=
  StepResult.mk
    (if rst && negb (closed p) && negb (transportClosed_ p)
     then [RstStreamFrame.toBytes (buildRstStreamFrame id code)] else [])
    [streamClosed id code; responseFailed id code] false 0.

Definition fail_state (p : t) (id : Z) (s : Stream.t) : t :=
  set_ghostHeaderBlock
    (if Stream.waitingForContinuation s && negb (ByteBuffer.empty (Stream.pendingHeaderBlock s))
     then Stream.pendingHeaderBlock s else ghostHeaderBlock p)
    (without_stream id p).

Lemma failStream_exact E p id s code rst :
  streams p !! id = Some s ->
  wp E (failStream id code rst)
    (fun r p' => r = fail_result p id code rst /\ p' = fail_state p id s) p.
Proof.
  intros Hs. unfold failStream. wp_step. apply wp_contains.
  rewrite Hs, bool_decide_true by done. cbn [negb]. wp_steps.
  eapply wp_deref; [done|]. cbv beta. wp_steps. unfold fail_state.
  set (r0 := if rst && _ && _ then _ else _).
  assert (Hr0 : StepResult.push_event (responseFailed id code)
           (StepResult.push_event (streamClosed id code) r0) = fail_result p id code rst).
  { unfold r0, fail_result. case_if; done. }
  clearbody r0. destruct (Stream.waitingForContinuation s && _).
  - wp_steps. eapply (wp_update_first _ s); [done|]. cbv beta.
    psteps. done.
  - wp_steps. eapply (wp_update_first _ s); [done|]. cbv beta. psteps.
    split; [done|]. by destruct p.
Qed.

Lemma fail_result_ok p id code rst : 0 <= id < 2 ^ 31 -> code_ok code -> res_ok (fail_result p id code rst).
Proof.
  intros Hid Hc. unfold res_ok, fail_result. cbn. case_if; [|constructor]. constructor; [|constructor].
  exists (FRstStream (buildRstStreamFrame id code)). split; [by apply rst_frame_wf|done].
Qed.

Lemma failStream_spec E k p id code rst :
  inv_core k p -> code_ok code ->
  wp E (failStream id code rst)
    (fun r p' => res_ok r /\ StepResult.hasSubmittedStream r = false /\
       exists g, ByteBuffer.wf g /\ ByteBuffer.size g + k <= 2 ^ 31 /\
         p' = set_ghostHeaderBlock g (without_stream id p)) p.
Proof.
  intros Hp Hc. destruct (streams p !! id) as [s|] eqn:Hs.
  - destruct (v_streams _ _ Hp id s Hs) as [Hid Hso]. pose proof (v_next _ _ Hp).
    eapply wp_mono; [by eapply failStream_exact|]. intros r p' [-> ->].
    split; [apply fail_result_ok; [lia|done]|]. split; [done|]. eexists. split; [|split; [|done]];
      (case_if; [apply Hso|apply Hp]).
  - unfold failStream. wp_step. apply wp_contains. rewrite Hs.
    rewrite bool_decide_false by (intros [? ?]; done). cbn [negb]. apply wp_ret.
    split; [apply res_ok_empty|]. split; [done|]. exists (ghostHeaderBlock p).
    split; [apply Hp|]. split; [apply Hp|]. unfold without_stream. rewrite delete_id by done.
    by destruct p.
Qed.

(** Removing several streams. *)
Lemma fail_each_spec E k p ids code r :
  inv_core k p -> code_ok code -> res_ok r ->
  wp E (fail_each ids code r)
    (fun r' p' => res_ok r' /\ (StepResult.hasSubmittedStream r' = StepResult.hasSubmittedStream r) /\
       inv_core k p' /\
       exists g m, p' = set_ghostHeaderBlock g (set_streams m p) /\
         forall id, m !! id = if bool_decide (id ∈ ids) then None else streams p !! id) p.
Proof.
  intros Hp Hc. revert p r Hp. induction ids as [|id ids IH]; intros p r Hp Hr; cbn [fail_each].
  - apply wp_ret. split; [done|]. split; [done|]. split; [done|].
    exists (ghostHeaderBlock p), (streams p). split; [by destruct p|]. done.
  - apply wp_bind. eapply wp_mono; [by apply (failStream_spec E k)|].
    intros r1 p1 (Hr1 & Hs1 & g & Hg & Hgk & ->).
    assert (Hp1 : inv_core k (set_ghostHeaderBlock g (without_stream id p))) by auto with h2.
    eapply wp_mono; [apply IH; [done|by apply res_ok_merge]|].
    intros r2 p2 (Hr2 & Hs2 & Hp2 & g2 & m & -> & Hm). split; [done|].
    split; [rewrite Hs2; cbn; by rewrite Hs1|]. split; [done|]. exists g2, m. split; [done|].
    intros i. rewrite Hm. unfold without_stream. cbn [streams set_streams set_ghostHeaderBlock].
    destruct (decide (i ∈ ids)).
    { rewrite !bool_decide_true by set_solver. done. }
    rewrite bool_decide_false by done. destruct (decide (i = id)) as [->|].
    + rewrite lookup_delete_eq, bool_decide_true by set_solver. done.
    + rewrite lookup_delete_ne, bool_decide_false by set_solver. done.
Qed.

Lemma failAllStreams_spec E k p code r :
  inv_core k p -> code_ok code -> res_ok r ->
  wp E (failAllStreams code r)
    (fun r' p' => res_ok r' /\ (StepResult.hasSubmittedStream r' = StepResult.hasSubmittedStream r) /\
       inv_core k p' /\
       exists g, p' = set_ghostHeaderBlock g (set_streams ∅ p)) p.
Proof.
  intros Hp Hc Hr. unfold failAllStreams. wp_steps.
  eapply wp_mono; [by apply (fail_each_spec E k)|].
  intros r' p' (Hr' & Hs' & Hp' & g & m & -> & Hm). split; [done|]. split; [done|]. split; [done|].
  exists g. assert (m = ∅) as ->; [|done]. apply map_eq. intros i. rewrite Hm, lookup_empty.
  case_bool_decide as Hi; [done|]. rewrite iter_order_elem in Hi.
  destruct (streams p !! i); [|done]. destruct Hi. eauto.
Qed.

(** ** Failing the connection *)

Lemma append_goaway_spec E k p code debug r :
  inv_core k p -> code_ok code -> zlen debug < 2 ^ 16 -> res_ok r ->
  wp E (append_goaway code debug r)
    (fun r' p' => res_ok r' /\ p' = set_sentGoaway true p /\
       StepResult.hasSubmittedStream r' = StepResult.hasSubmittedStream r) p.
Proof.
  intros Hp Hc Hd Hr. unfold append_goaway. psteps. split; [|done].
  apply (res_ok_outbound (FGoAway (buildGoAwayFrame code debug p))); [done|].
  by eapply goaway_frame_wf.
Qed.

Lemma clear_ok b k : ByteBuffer.wf b -> 0 <= k <= 2 ^ 31 ->
  ByteBuffer.wf (ByteBuffer.clear b) /\ ByteBuffer.size (ByteBuffer.clear b) + k <= 2 ^ 31.
Proof.
  unfold ByteBuffer.wf, ByteBuffer.clear, ByteBuffer.size. cbn [ByteBuffer.data ByteBuffer.cap].
  change (zlen (@nil byte)) with 0. lia.
Qed.

Lemma room_bound k p : inv_core k p -> 0 <= k <= 2 ^ 31.
Proof.
  intros Hp. pose proof (v_room _ _ Hp). destruct (v_ghost _ _ Hp) as [[? ?] ?]. lia.
Qed.

Lemma failConnection_spec E k p code debug :
  inv_core k p -> code_ok code -> zlen debug < 2 ^ 16 ->
  wp E (failConnection code debug)
    (fun r p' => res_ok r /\ inv k p' /\ closed p' = true /\ sentGoaway p' = (sentGoaway p || negb (transportClosed_ p))
       /\ StepResult.hasSubmittedStream r = false) p.
Proof.
  intros Hp Hc Hd. unfold failConnection. wp_steps.
  apply wp_mono with (Q := fun r p' => res_ok r /\ StepResult.hasSubmittedStream r = false /\
    p' = set_sentGoaway (sentGoaway p || negb (transportClosed_ p)) p).
  { destruct (sentGoaway p) eqn:Hs; cbn [negb andb orb].
    { apply wp_ret. split; [apply res_ok_empty|]. split; [done|]. rewrite <- Hs. by destruct p. }
    destruct (transportClosed_ p); cbn [negb andb orb].
    { apply wp_ret. split; [apply res_ok_empty|]. split; [done|]. rewrite <- Hs. by destruct p. }
    eapply wp_mono; [apply (append_goaway_spec E k); [done..|apply res_ok_empty]|].
    intros r p' (? & -> & ?). done. }
  intros r p1 (Hr & Hsub & ->). psteps.
  pose proof (room_bound _ _ Hp) as Hk.
  eapply wp_mono; [apply (failAllStreams_spec E k); [|done|done]|].
  { destruct (clear_ok (ghostHeaderBlock p) k) as [Hw Hsz]; [apply Hp|done|].
    apply inv_set_ghost; [auto 12 with h2|exact Hw|exact Hsz]. }
  intros r2 p2 (Hr2 & Hsub2 & Hp2 & g & ->). psteps. split; [done|].
  split; [split; [exact Hp2|done]|]. split; [done|]. split; [done|]. cbn. congruence.
Qed.

Lemma handleHeaderBlockError_spec E k p id code :
  inv k p -> code_ok code ->
  wp E (handleHeaderBlockError id code) (fun r p' => res_ok r /\ inv k p') p.
Proof.
  intros Hp Hc. unfold handleHeaderBlockError. case_if.
  - eapply wp_mono; [apply (failConnection_spec E k); [apply Hp|done|done]|]. intros r p' (? & ? & _). done.
  - eapply wp_mono; [apply (failStream_spec E k); [apply Hp|done]|].
    intros r p' (Hr & _ & g & Hg & Hgk & ->). split; [done|].
    destruct (inv_without k p id Hp) as [Hc1 He1]. split; [by apply inv_set_ghost|done].
Qed.

(** ** Request headers *)

Lemma chunk_ok sp n :
  ByteSpan.wf sp -> 0 <= n <= zlen (ByteSpan.rest sp) ->
  exists sp', ByteSpan.first sp n = Ok (ztake n (ByteSpan.rest sp)) /\ ByteSpan.advance sp n = Ok sp' /\
    ByteSpan.wf sp' /\ ByteSpan.rest sp' = zdrop n (ByteSpan.rest sp) /\
    zlen (ztake n (ByteSpan.rest sp)) = n /\ zlen (ByteSpan.rest sp') = zlen (ByteSpan.rest sp) - n.
Proof.
  intros Hwf Hn. destruct (ByteSpan.advance_ok sp n Hwf Hn) as (sp' & Ha & Hw & Hr & _).
  exists sp'. rewrite ByteSpan.first_ok, Hr, zlen_ztake, zlen_zdrop by done. done.
Qed.

(** Header and flags of an emitted header-block frame. *)
Lemma block_header_wf n ty flags id :
  0 <= n < 2 ^ 24 -> 0 <= ty < 2 ^ 8 -> 0 <= flags < 2 ^ 8 -> 0 <= id < 2 ^ 31 ->
  FrameHeader.wf (FrameHeader.mk n ty flags id).
Proof. done. Qed.

Lemma continuation_frame_wf n flags id data :
  zlen data = n -> n < 2 ^ 24 -> 0 <= flags < 2 ^ 8 -> 0 <= id < 2 ^ 31 ->
  frame_wf (FContinuation (ContinuationFrame.mk (FrameHeader.mk n FrameType.CONTINUATION flags id) data)).
Proof.
  intros <- Hn Hf Hid. pose proof (zlen_nonneg data). split; [|split; [done|]].
  - by apply block_header_wf.
  - cbn [frame_header frame_toBytes]. unfold ContinuationFrame.toBytes. cbn [ContinuationFrame.data].
    rewrite zlen_app, zlen_header_encode. cbn. lia.
Qed.

Lemma headers_frame_wf n flags id data :
  zlen data = n -> n < 2 ^ 24 -> flags = 0 \/ flags = 4 \/ flags = 5 -> 0 <= id < 2 ^ 31 ->
  frame_wf (FHeaders (HeadersFrame.mk (FrameHeader.mk n FrameType.HEADERS flags id) 0 0 0 data [])).
Proof.
  intros <- Hn Hf Hid. pose proof (zlen_nonneg data).
  assert (0 <= flags < 2 ^ 8) by lia.
  assert (Hp : FrameHeader.hasAnyFlag FrameFlag.PADDED (FrameHeader.mk (zlen data) FrameType.HEADERS flags id) = false
    /\ FrameHeader.hasAnyFlag FrameFlag.PRIORITY (FrameHeader.mk (zlen data) FrameType.HEADERS flags id) = false)
    by (destruct Hf as [->|[->| ->]]; done).
  destruct Hp as [Hp Hpr]. split; [|split].
  - by apply block_header_wf.
  - split; [done|]. split; [done|]. cbn. done.
  - cbn [frame_header frame_toBytes]. unfold HeadersFrame.toBytes.
    cbn [HeadersFrame.header HeadersFrame.data]. rewrite Hp, Hpr.
    rewrite app_nil_l, app_nil_l, app_nil_r, zlen_app, zlen_header_encode. cbn. lia.
Qed.

Lemma data_frame_wf n flags id data :
  zlen data = n -> n < 2 ^ 24 -> flags = 0 \/ flags = 1 -> 0 <= id < 2 ^ 31 ->
  frame_wf (FData (DataFrame.mk (FrameHeader.mk n FrameType.DATA flags id) 0 data [])).
Proof.
  intros <- Hn Hf Hid. pose proof (zlen_nonneg data). assert (0 <= flags < 2 ^ 8) by lia.
  assert (Hp : FrameHeader.hasAnyFlag FrameFlag.PADDED (FrameHeader.mk (zlen data) FrameType.DATA flags id) = false)
    by (destruct Hf as [->| ->]; done).
  split; [|split].
  - by apply block_header_wf.
  - split; [done|]. done.
  - cbn [frame_header frame_toBytes]. unfold DataFrame.toBytes.
    cbn [DataFrame.header DataFrame.data]. rewrite Hp.
    rewrite app_nil_l, app_nil_r, zlen_app, zlen_header_encode. cbn. lia.
Qed.

Lemma emit_continuations_spec E p fuel id sp r :
  16384 <= maxFrameSize p < 2 ^ 24 -> 0 <= id < 2 ^ 31 -> ByteSpan.wf sp -> res_ok r ->
  zlen (ByteSpan.rest sp) < Z.of_nat fuel ->
  wp E (emit_continuations fuel id sp r) (fun r' p' => p' = p /\ res_ok r') p.
Proof.
  intros Hp Hid. revert sp r. induction fuel as [|fuel IH]; intros sp r Hwf Hr Hf;
    [pose proof (zlen_nonneg (ByteSpan.rest sp)); lia|].
  cbn [emit_continuations]. destruct (ByteSpan.empty sp) eqn:He; cbn [negb]; [done|].
  apply ByteSpan.empty_false_rest in He; [|done]. wp_steps.
  rewrite ByteSpan.size_rest by done.
  assert (0 < zlen (ByteSpan.rest sp)).
  { destruct (ByteSpan.rest sp); [done|]. zlen_lia. }
  set (n := Z.min (maxFrameSize p) (zlen (ByteSpan.rest sp))).
  destruct (chunk_ok sp n Hwf) as (sp' & Hfi & Ha & Hw' & Hr' & Hl & Hl'); [lia|].
  eapply wp_lift; [exact Hfi|]. cbv beta. wp_step. eapply wp_lift; [exact Ha|]. cbv beta zeta.
  apply IH; [done| |lia].
  assert (Hn24 : n < 2 ^ 24) by lia.
  destruct (ByteSpan.empty sp');
    (apply (res_ok_outbound (FContinuation _)); [done|];
     by apply (continuation_frame_wf n)).
Qed.

(** What the HEADERS frame does to the stream. *)
Definition headers_sent (s s' : Stream.t) : Prop :=
  s' = s \/ Stream.hasBody s = false /\ s' = Stream.set_localEndStreamSent true s.

Lemma emitRequestHeaders_spec E k p id s encoded r :
  inv_core k p -> streams p !! id = Some s -> zlen encoded < 2 ^ 32 -> res_ok r ->
  wp E (emitRequestHeaders id encoded r)
    (fun r' p' => res_ok r' /\ exists s', headers_sent s s' /\ p' = with_stream id s' p) p.
Proof.
  intros Hp Hs Hl Hr. destruct (v_streams _ _ Hp id s Hs) as [Hid _].
  pose proof (v_next _ _ Hp). pose proof (v_maxframe _ _ Hp). pose proof (zlen_nonneg encoded).
  assert (Hwf : ByteSpan.wf (ByteSpan.make encoded)) by by apply ByteSpan.wf_make.
  assert (Hrest : ByteSpan.rest (ByteSpan.make encoded) = encoded) by (unfold ByteSpan.rest; apply zdrop_0).
  rewrite <- (with_stream_self id s p Hs) at 1. unfold emitRequestHeaders. psteps.
  rewrite ByteSpan.size_rest, Hrest by done. change (maxFrameSize (with_stream id s p)) with (maxFrameSize p).
  set (n := Z.min (maxFrameSize p) (zlen encoded)). assert (Hn : 0 <= n < 2 ^ 24) by lia.
  apply wp_mono with (Q := fun r' p' => p' = with_stream id s p /\ exists data span,
    r' = (FrameHeader.mk n FrameType.HEADERS 0 id, data, span) /\ zlen data = n /\
    ByteSpan.wf span /\ zlen (ByteSpan.rest span) <= zlen encoded).
  { rewrite Z.gtb_ltb. destruct (Z.ltb_spec 0 n).
    - destruct (chunk_ok (ByteSpan.make encoded) n Hwf) as (sp' & Hfi & Ha & Hw' & Hr' & Hdl & Hl');
        [rewrite Hrest; lia|]. wp_steps. eapply wp_lift; [exact Hfi|]. cbv beta. wp_step.
      eapply wp_lift; [exact Ha|]. cbv beta. wp_steps. split; [done|].
      eexists _, sp'. split; [done|]. rewrite Hrest in *. split; [done|]. split; [done|lia].
    - apply wp_ret. split; [done|]. exists [], (ByteSpan.make encoded).
      assert (n = 0) as -> by lia. rewrite Hrest. done. }
  intros r1 p1 (-> & data & span & -> & Hd & Hw & Hsp). wp_steps.
  apply wp_mono with (Q := fun h p' => exists s' flags, h = FrameHeader.mk n FrameType.HEADERS flags id /\
    (flags = 0 \/ flags = 4 \/ flags = 5) /\ headers_sent s s' /\ p' = with_stream id s' p).
  { destruct (ByteSpan.empty span); [|apply wp_ret; exists s, 0; unfold headers_sent; by eauto 10].
    destruct (Stream.hasBody s) eqn:Hb; cbn [negb]; psteps.
    - exists s, 4. unfold headers_sent. by eauto 10.
    - exists (Stream.set_localEndStreamSent true s), 5. unfold headers_sent. by eauto 10. }
  intros h p1 (s' & flags & -> & Hflags & Hsent & ->).
  assert (Hr2 : res_ok (StepResult.push_outbound (HeadersFrame.toBytes
    (HeadersFrame.mk (FrameHeader.mk n FrameType.HEADERS flags id) 0 0 0 data [])) r)).
  { apply (res_ok_outbound (FHeaders _)); [done|]. apply headers_frame_wf; [done|lia|done|lia]. }
  eapply wp_mono; [apply emit_continuations_spec; [done|lia|done|done|unfold zlen in *; lia]|].
  intros r' p' [-> ?]. eauto.
Qed.

(** ** Request bodies *)

(** A part of the body as DATA frames: full-size frames, and END_STREAM on
    the last one exactly when [fin]. *)
Definition data_frame (id flags : Z) (d : bytes) : DataFrame.t :=
  DataFrame.mk (FrameHeader.mk (zlen d) FrameType.DATA flags id) 0 d [].

Inductive data_frames (maxSize id : Z) (fin : bool) : bytes -> list DataFrame.t -> Prop :=
| df_none : data_frames maxSize id fin [] []
| df_last d :
    0 < zlen d <= maxSize ->
    data_frames maxSize id fin d [data_frame id (if fin then FrameFlag.END_STREAM else 0) d]
| df_more d rest fs :
    zlen d = maxSize -> rest <> [] -> data_frames maxSize id fin rest fs ->
    data_frames maxSize id fin (d ++ rest) (data_frame id 0 d :: fs).

Lemma data_frames_ok maxSize id fin d fs :
  data_frames maxSize id fin d fs -> maxSize < 2 ^ 24 -> 0 <= id < 2 ^ 31 ->
  Forall out_ok (map DataFrame.toBytes fs).
Proof.
  intros Hd Hm Hid. assert (Hone : forall x flags, zlen x <= maxSize -> flags = 0 \/ flags = 1 ->
    out_ok (DataFrame.toBytes (data_frame id flags x))).
  { intros x flags Hx Hf. exists (FData (data_frame id flags x)). split; [|done].
    by apply data_frame_wf; [|lia|..]. }
  induction Hd as [|x Hx|x rest fs Hx Hne Hd IH]; cbn [map].
  - apply Forall_nil_2.
  - apply Forall_singleton, Hone; [lia|]. destruct fin; auto.
  - apply Forall_cons_2; [|done]. apply Hone; [lia|by left].
Qed.

Definition charge (n : Z) (f : OutFlow.t) : OutFlow.t := OutFlow.mk (OutFlow.conn f) (OutFlow.window f - n).

(** The stream once [n] more bytes of its body are sent. *)
Definition body_sent (n : Z) (s : Stream.t) : Stream.t :=
  let s' := Stream.set_requestBodyOffset (Stream.requestBodyOffset s + n)
              (Stream.set_outflow (charge n (Stream.outflow s)) s) in
  if (0 <? n) && (Stream.requestBodyOffset s + n =? Stream.bodySize s)
  then Stream.set_localEndStreamSent true s' else s'.

(** How much can be sent. *)
Definition sendable (conn : OutFlow.t) (s : Stream.t) : Z :=
  Z.min (Stream.bodySize s - Stream.requestBodyOffset s)
    (Z.max 0 (OutFlow.available conn (Stream.outflow s))).

Lemma charge_0 f : charge 0 f = f.
Proof. unfold charge. rewrite Z.sub_0_r. by destruct f. Qed.

Lemma charge_charge a b f : charge a (charge b f) = charge (b + a) f.
Proof. unfold charge. cbn. f_equal. lia. Qed.

Lemma body_sent_0 s : body_sent 0 s = s.
Proof. unfold body_sent. cbn [Z.ltb Z.compare andb]. rewrite charge_0, Z.add_0_r. by destruct s. Qed.

(** Sending in two steps. *)
Lemma body_sent_more a b s :
  0 < a -> 0 <= b -> Stream.requestBodyOffset s + a < Stream.bodySize s ->
  body_sent b (body_sent a s) = body_sent (a + b) s.
Proof.
  intros Ha Hb Hs.
  assert (Hfirst : body_sent a s = Stream.set_requestBodyOffset (Stream.requestBodyOffset s + a)
              (Stream.set_outflow (charge a (Stream.outflow s)) s)).
  { unfold body_sent. destruct (Z.eqb_spec (Stream.requestBodyOffset s + a) (Stream.bodySize s)); [lia|].
    by rewrite andb_false_r. }
  rewrite Hfirst. unfold body_sent, Stream.bodySize in *. cbn.
  rewrite charge_charge, Z.add_assoc.
  destruct (Z.ltb_spec 0 b); destruct (Z.ltb_spec 0 (a + b)); try lia; cbn [andb]; [done|].
  assert (b = 0) as -> by lia. destruct (Z.eqb_spec (Stream.requestBodyOffset s + a + 0)
    (zlen (Request.body (Stream.rqst s)))); [lia|done].
Qed.

Lemma sendable_after m c s :
  0 < m <= sendable c s -> OutFlow.conn (Stream.outflow s) = true ->
  sendable (charge m c) (body_sent m s) = sendable c s - m.
Proof.
  unfold sendable. rewrite !OutFlow.available_min. intros Hm Hc.
  assert (Hb : Stream.bodySize (body_sent m s) = Stream.bodySize s /\
    Stream.requestBodyOffset (body_sent m s) = Stream.requestBodyOffset s + m /\
    Stream.outflow (body_sent m s) = charge m (Stream.outflow s)).
  { unfold body_sent, Stream.bodySize. case_if; done. }
  destruct Hb as (-> & -> & ->). unfold charge. cbn. rewrite Hc in *. lia.
Qed.

(** [n] bytes of the body of [s] have been sent: the new state and result. *)
Definition body_done (p : t) (id : Z) (s : Stream.t) (c : OutFlow.t) (r : StepResult.t) (n : Z)
  (r' : StepResult.t) (p' : t) : Prop :=
  p' = with_stream id (body_sent n s) (set_connectionOutFlow (charge n c) p) /\
  exists fs, data_frames (maxFrameSize p) id (Stream.requestBodyOffset s + n =? Stream.bodySize s)
      (ztake n (zdrop (Stream.requestBodyOffset s) (Request.body (Stream.rqst s)))) fs /\
    r' = StepResult.mk (StepResult.outbound r ++ map DataFrame.toBytes fs) (StepResult.events r)
           (StepResult.hasSubmittedStream r) (StepResult.submittedStreamId r).

(** The result after one more DATA frame of [m] bytes. *)
Definition body_frame (id : Z) (s : Stream.t) (m : Z) : DataFrame.t :=
  data_frame id (if Stream.requestBodyOffset s + m =? Stream.bodySize s then FrameFlag.END_STREAM else 0)
    (ztake m (zdrop (Stream.requestBodyOffset s) (Request.body (Stream.rqst s)))).
Definition push_body (id : Z) (s : Stream.t) (m : Z) (r : StepResult.t) : StepResult.t :=
  StepResult.push_outbound (DataFrame.toBytes (body_frame id s m)) r.

Lemma body_done_0 p id s c r :
  body_done p id s c r 0 r (with_stream id s (set_connectionOutFlow c p)).
Proof.
  unfold body_done. rewrite body_sent_0, charge_0, ztake_0. split; [done|]. exists [].
  split; [constructor|]. cbn [map]. rewrite app_nil_r. by destruct r.
Qed.

Lemma body_chunk_len s m :
  0 <= Stream.requestBodyOffset s -> 0 <= m -> Stream.requestBodyOffset s + m <= Stream.bodySize s ->
  zlen (ztake m (zdrop (Stream.requestBodyOffset s) (Request.body (Stream.rqst s)))) = m.
Proof. unfold Stream.bodySize. intros. apply zlen_ztake. rewrite zlen_zdrop; lia. Qed.

Lemma body_done_last p id s c r m :
  0 < m <= maxFrameSize p -> 0 <= Stream.requestBodyOffset s ->
  Stream.requestBodyOffset s + m <= Stream.bodySize s ->
  body_done p id s c r m (push_body id s m r) (with_stream id (body_sent m s) (set_connectionOutFlow (charge m c) p)).
Proof.
  intros Hm Hoff Hsz. split; [done|]. exists [body_frame id s m]. split; [|done].
  apply df_last. by rewrite body_chunk_len by lia.
Qed.

Lemma body_done_more p id s c r m b r' p' :
  0 < m -> m = maxFrameSize p -> 0 <= Stream.requestBodyOffset s -> 0 < b ->
  Stream.requestBodyOffset s + m + b <= Stream.bodySize s ->
  body_done p id (body_sent m s) (charge m c) (push_body id s m r) b r' p' ->
  body_done p id s c r (m + b) r' p'.
Proof.
  intros Hm Hmax Hoff Hb Hsz (-> & fs & Hfs & ->). unfold body_done.
  assert (Hs : Stream.requestBodyOffset (body_sent m s) = Stream.requestBodyOffset s + m /\
    Stream.rqst (body_sent m s) = Stream.rqst s) by (unfold body_sent; case_if; done).
  destruct Hs as [Hs Hrq]. rewrite Hs, Hrq in Hfs. unfold Stream.bodySize at 1 in Hfs.
  rewrite Hrq in Hfs. fold (Stream.bodySize s) in Hfs.
  rewrite charge_charge, body_sent_more, <- zdrop_zdrop in * by lia. split; [done|].
  exists (body_frame id s m :: fs). split.
  - rewrite ztake_add by lia. unfold body_frame.
    destruct (Z.eqb_spec (Stream.requestBodyOffset s + m) (Stream.bodySize s)); [lia|].
    rewrite Z.add_assoc. apply df_more; [rewrite body_chunk_len; lia| |done].
    intros Hnil. apply (f_equal zlen) in Hnil. rewrite zlen_nil, zdrop_zdrop in Hnil by lia.
    unfold Stream.bodySize in *. rewrite zlen_ztake in Hnil; [lia|]. rewrite zlen_zdrop; lia.
  - cbn. by rewrite <- app_assoc.
Qed.

Lemma body_done_step p id s c r m r' p' :
  OutFlow.conn (Stream.outflow s) = true -> 0 < m -> 0 <= Stream.requestBodyOffset s ->
  m = Z.min (Z.min (maxFrameSize p) (Stream.bodySize s - Stream.requestBodyOffset s))
        (Z.max 0 (OutFlow.available c (Stream.outflow s))) ->
  body_done p id (body_sent m s) (charge m c) (push_body id s m r)
    (sendable (charge m c) (body_sent m s)) r' p' ->
  body_done p id s c r (sendable c s) r' p'.
Proof.
  intros Hc Hm Hoff Heq.
  assert (Hle : 0 < m <= sendable c s) by (unfold sendable; lia).
  rewrite sendable_after by done. destruct (Z.eq_dec (sendable c s) m) as [->|].
  - rewrite Z.sub_diag. intros Hd. assert (Hd0 : r' = push_body id s m r /\
      p' = with_stream id (body_sent m s) (set_connectionOutFlow (charge m c) p)).
    { destruct Hd as (-> & fs & Hfs & ->). rewrite body_sent_0, charge_0. rewrite ztake_0 in Hfs.
      split; [|done]. assert (fs = []) as ->; [|cbn [map]; rewrite app_nil_r; by destruct (push_body id s m r)].
      inversion Hfs as [|d Hd|d rest fs' Hd Hne]; subst; [done|change (zlen (@nil byte)) with 0 in *; lia|].
      destruct d; [|done]. by destruct rest. }
    destruct Hd0 as [-> ->]. apply body_done_last; [lia|lia|unfold sendable in *; lia].
  - intros Hd. replace (sendable c s) with (m + (sendable c s - m)) by lia.
    unfold sendable in *. apply body_done_more; [lia|lia|lia|lia|lia|done].
Qed.

Lemma charge_wf c n : OutFlow.wf c -> 0 <= n <= Z.max 0 (OutFlow.window c) -> OutFlow.wf (charge n c).
Proof. unfold OutFlow.wf, charge, INT32_MIN, INT32_MAX. cbn. lia. Qed.

Lemma remaining_eq s :
  0 <= Stream.requestBodyOffset s <= Stream.bodySize s -> Stream.bodySize s < 2 ^ 63 ->
  Stream.remainingBodySize s = Stream.bodySize s - Stream.requestBodyOffset s.
Proof. unfold Stream.remainingBodySize, Stream.bodySize. intros. apply u64_small. lia. Qed.

Lemma body_loop_spec E p fuel id s c r :
  16384 <= maxFrameSize p < 2 ^ 24 -> OutFlow.wf c ->
  OutFlow.wf (Stream.outflow s) /\ OutFlow.conn (Stream.outflow s) = true ->
  0 <= Stream.requestBodyOffset s <= Stream.bodySize s -> Stream.bodySize s < 2 ^ 63 ->
  Stream.bodySize s - Stream.requestBodyOffset s < Z.of_nat fuel ->
  wp E (body_loop fuel id r) (body_done p id s c r (sendable c s))
    (with_stream id s (set_connectionOutFlow c p)).
Proof.
  intros Hm. revert s c r. induction fuel as [|fuel IH]; intros s c r Hc [Ho Hoc] Hoff Hsz Hf; [lia|].
  assert (Hstop : sendable c s = 0 -> wp E (ret r) (body_done p id s c r (sendable c s))
    (with_stream id s (set_connectionOutFlow c p))).
  { intros ->. apply wp_ret, body_done_0. }
  cbn [body_loop]. psteps. rewrite remaining_eq by lia.
  destruct (Z.eqb_spec (Stream.bodySize s - Stream.requestBodyOffset s) 0).
  { apply Hstop. unfold sendable. lia. }
  psteps. change (connectionOutFlow (with_stream id s (set_connectionOutFlow c p))) with c.
  change (maxFrameSize (with_stream id s (set_connectionOutFlow c p))) with (maxFrameSize p).
  set (av := OutFlow.available c (Stream.outflow s)).
  assert (Hav : av <= INT32_MAX /\ av <= OutFlow.window c /\ av <= OutFlow.window (Stream.outflow s)).
  { unfold av. rewrite OutFlow.available_min, Hoc. unfold OutFlow.wf in *. lia. }
  destruct Hav as (Hav & Hav1 & Hav2).
  unfold INT32_MAX in Hav. rewrite (u32_small (Z.min _ _)), (u32_small (Z.max _ _)) by lia.
  set (m := Z.min (Z.min (maxFrameSize p) (Stream.bodySize s - Stream.requestBodyOffset s)) (Z.max 0 av)).
  assert (Hsend : sendable c s = Z.min (Stream.bodySize s - Stream.requestBodyOffset s) (Z.max 0 av)) by done.
  destruct (Z.eqb_spec m 0); [apply Hstop; lia|].
  assert (Hm0 : 0 < m < 2 ^ 24) by lia. psteps.  rewrite i32_small by lia.
  eapply wp_lift; [apply OutFlow.take_charges; [done|done|done|fold av; lia]|]. cbv beta iota.
  fold (charge m c).
  replace (OutFlow.mk true (OutFlow.window (Stream.outflow s) - m)) with (charge m (Stream.outflow s))
    by (unfold charge; by rewrite Hoc).
  wp_step. wp_step.
  change (set_connectionOutFlow (charge m c) (with_stream id s (set_connectionOutFlow c p)))
    with (with_stream id s (set_connectionOutFlow (charge m c) p)).
  psteps. set (s1 := Stream.set_requestBodyOffset _ _).
  assert (Hs1 : Stream.requestBodyOffset s1 = Stream.requestBodyOffset s + m /\ Stream.bodySize s1 = Stream.bodySize s)
    by done.
  rewrite remaining_eq by lia. destruct Hs1 as [-> ->].
  apply wp_mono with (Q := fun h p' => p' = with_stream id (body_sent m s) (set_connectionOutFlow (charge m c) p) /\
    h = DataFrame.header (body_frame id s m)).
  { unfold body_frame, body_sent. cbn [DataFrame.header data_frame]. rewrite body_chunk_len by lia.
    destruct (Z.ltb_spec 0 m); [|lia]. cbn [andb].
    destruct (Z.eqb_spec (Stream.bodySize s - (Stream.requestBodyOffset s + m)) 0);
      destruct (Z.eqb_spec (Stream.requestBodyOffset s + m) (Stream.bodySize s)); try lia; by psteps. }
  intros h p' [-> ->].
  assert (Hsent : Stream.bodySize (body_sent m s) = Stream.bodySize s /\
    Stream.requestBodyOffset (body_sent m s) = Stream.requestBodyOffset s + m /\
    Stream.outflow (body_sent m s) = charge m (Stream.outflow s)).
  { unfold body_sent, Stream.bodySize. case_if; done. }
  destruct Hsent as (Hb1 & Hb2 & Hb3).
  eapply wp_mono; [apply IH; rewrite ?Hb1, ?Hb2, ?Hb3|].
  - apply charge_wf; [done|lia].
  - split; [|done]. apply charge_wf; [done|lia].
  - lia.
  - lia.
  - lia.
  - intros r' p'. apply body_done_step; [done|lia|lia|done].
Qed.

(** What [emitPendingRequestBody] makes of the state... *)
Definition pending_state (p : t) (id : Z) (s : Stream.t) : t :=
  if Stream.localEndStreamSent s || Stream.isClosed s then p
  else
    let n := sendable (connectionOutFlow p) s in
    let p1 := set_connectionOutFlow (charge n (connectionOutFlow p)) p in
    let s1 := body_sent n s in
    if Stream.localEndStreamSent s1 then
      if Stream.remoteEndStreamReceived s1 then without_stream id p1
      else with_stream id (Stream.set_streamState HALF_CLOSED_LOCAL s1) p1
    else with_stream id s1 p1.

(** ... and of the result. *)
Definition pending_result (p : t) (id : Z) (s : Stream.t) (r r' : StepResult.t) : Prop :=
  if Stream.localEndStreamSent s || Stream.isClosed s then r' = r
  else
    let n := sendable (connectionOutFlow p) s in
    exists fs, data_frames (maxFrameSize p) id (Stream.requestBodyOffset s + n =? Stream.bodySize s)
        (ztake n (zdrop (Stream.requestBodyOffset s) (Request.body (Stream.rqst s)))) fs /\
      r' = StepResult.mk (StepResult.outbound r ++ map DataFrame.toBytes fs)
             (StepResult.events r ++
                if Stream.localEndStreamSent (body_sent n s) && Stream.remoteEndStreamReceived s
                then [streamClosed id ErrorCode.NO_ERROR] else [])
             (StepResult.hasSubmittedStream r) (StepResult.submittedStreamId r).

Lemma body_sent_remote n s :
  Stream.remoteEndStreamReceived (body_sent n s) = Stream.remoteEndStreamReceived s.
Proof. unfold body_sent. case_if; done. Qed.

Lemma emitPending_run E p id s r :
  16384 <= maxFrameSize p < 2 ^ 24 -> OutFlow.wf (connectionOutFlow p) -> streams p !! id = Some s ->
  OutFlow.wf (Stream.outflow s) /\ OutFlow.conn (Stream.outflow s) = true ->
  0 <= Stream.requestBodyOffset s <= Stream.bodySize s /\ Stream.bodySize s < 2 ^ 63 ->
  wp E (emitPendingRequestBody id r)
    (fun r' p' => p' = pending_state p id s /\ pending_result p id s r r') p.
Proof.
  intros Hmax Hout Hs Hso [Hoff Hsz].
  unfold emitPendingRequestBody. wp_steps. eapply wp_deref; [done|]. cbv beta.
  unfold pending_state, pending_result.
  destruct (Stream.localEndStreamSent s || Stream.isClosed s); [done|]. wp_steps.
  assert (Hnorm : p = with_stream id s (set_connectionOutFlow (connectionOutFlow p) p)).
  { transitivity (with_stream id s p); [symmetry; by apply with_stream_self|]. by destruct p. }
  rewrite Hnorm at 1. clear Hnorm.
  eapply wp_mono.
  { apply body_loop_spec; [done..|].
    unfold Stream.bodySize, zlen in *. lia. }
  intros r1 p1 (-> & fs & Hfs & ->). cbv zeta.
  set (s1 := body_sent _ s). set (p1 := set_connectionOutFlow _ p). psteps. rewrite <- (body_sent_remote (sendable (connectionOutFlow p) s) s).
  fold s1. destruct (Stream.localEndStreamSent s1); cbn [andb].
  2:{ apply wp_ret. split; [done|]. exists fs. split; [done|]. by rewrite app_nil_r. }
  destruct (Stream.remoteEndStreamReceived s1); psteps; (split; [done|]); exists fs; (split; [done|]).
  - done.
  - by rewrite app_nil_r.
Qed.

Lemma emitPending_exact E k p id s r :
  inv_core k p -> streams p !! id = Some s ->
  wp E (emitPendingRequestBody id r)
    (fun r' p' => p' = pending_state p id s /\ pending_result p id s r r') p.
Proof.
  intros Hp Hs. destruct (v_streams _ _ Hp id s Hs) as [_ Hso].
  apply emitPending_run; [apply Hp|apply Hp|done|apply (so_out _ _ _ Hso)|apply (so_off _ _ _ Hso)].
Qed.

Lemma sendable_range k id s c :
  stream_ok k id s ->
  0 <= sendable c s <= Stream.bodySize s - Stream.requestBodyOffset s /\
  sendable c s <= Z.max 0 (OutFlow.window c) /\ sendable c s <= Z.max 0 (OutFlow.window (Stream.outflow s)).
Proof.
  intros Hs. destruct (so_off _ _ _ Hs). destruct (so_out _ _ _ Hs) as [_ Hc].
  unfold sendable. rewrite OutFlow.available_min, Hc. lia.
Qed.

Lemma body_sent_ok k id s n :
  stream_ok k id s -> Stream.localEndStreamSent s = false ->
  0 <= n <= Stream.bodySize s - Stream.requestBodyOffset s ->
  n <= Z.max 0 (OutFlow.window (Stream.outflow s)) ->
  (Stream.localEndStreamSent (body_sent n s) = true -> Stream.remoteEndStreamReceived s = false) ->
  stream_ok k id (body_sent n s).
Proof.
  intros Hs Hl Hn Hw Hends. pose proof (charge_wf (Stream.outflow s) n (proj1 (so_out _ _ _ Hs))).
  pose proof (so_off _ _ _ Hs). pose proof (proj2 (so_out _ _ _ Hs)).
  unfold body_sent in *. destruct (Z.ltb_spec 0 n); cbn [andb] in *.
  1: destruct (Z.eqb_spec (Stream.requestBodyOffset s + n) (Stream.bodySize s)).
  all: destruct Hs; constructor; unfold Stream.isClosed, Stream.bodySize in *; cbn in *;
    try done; (split; [lia|lia]) || (split; [auto with lia|done]) || congruence.
Qed.

Lemma halve_local_ok k id s :
  stream_ok k id s -> stream_ok k id (Stream.set_streamState HALF_CLOSED_LOCAL s).
Proof. intros []. by constructor. Qed.

Lemma pending_state_ok k p id s :
  inv k p -> streams p !! id = Some s -> inv k (pending_state p id s).
Proof.
  intros Hp Hs. pose proof (inv_stream _ _ _ _ Hp Hs) as Hso. pose proof (inv_not_closed _ _ _ _ Hp Hs) as Hcl.
  unfold pending_state. destruct (Stream.localEndStreamSent s) eqn:Hl; [done|].
  rewrite (so_open _ _ _ Hso). cbn [orb]. cbv zeta.
  destruct (sendable_range k id s (connectionOutFlow p) Hso) as (Hn & Hc & Hw).
  set (n := sendable (connectionOutFlow p) s) in *. set (p1 := set_connectionOutFlow _ p).
  assert (Hp1 : inv k p1).
  { split; [apply inv_set_outflow; [apply Hp|]|unfold p1; cbn; congruence].
    apply charge_wf; [apply (v_out _ _ (proj1 Hp))|lia]. }
  assert (Hs1 : streams p1 !! id = Some s) by done. rewrite body_sent_remote.
  destruct (Stream.localEndStreamSent (body_sent n s)) eqn:Hl1.
  - destruct (Stream.remoteEndStreamReceived s) eqn:Hr; [by apply inv_without|].
    eapply inv_with; [done|done|]. apply halve_local_ok. by apply body_sent_ok.
  - eapply inv_with; [done|done|]. apply body_sent_ok; try done. congruence.
Qed.

Lemma pending_result_ok k p id s r r' :
  inv_core k p -> streams p !! id = Some s -> pending_result p id s r r' ->
  (res_ok r -> res_ok r') /\ StepResult.hasSubmittedStream r' = StepResult.hasSubmittedStream r.
Proof.
  intros Hp Hs. unfold pending_result. case_if; [by intros ->|]. intros (fs & Hfs & ->).
  split; [|done]. intros Hr. apply Forall_app_2; [done|].
  pose proof (v_next _ _ Hp). destruct (v_streams _ _ Hp id s Hs).
  eapply data_frames_ok; [done|apply (v_maxframe _ _ Hp)|lia].
Qed.

(** Only the stream itself and the connection's window change. *)
Lemma pending_state_frame p id s :
  let p' := pending_state p id s in
  (forall j, j <> id -> streams p' !! j = streams p !! j) /\
  p' = set_streams (streams p') (set_connectionOutFlow (connectionOutFlow p') p).
Proof.
  cbv zeta. unfold pending_state. repeat case_if; unfold with_stream, without_stream;
    (split; [intros j Hj; cbn; rewrite ?lookup_insert_ne, ?lookup_delete_ne by done; done|by destruct p]).
Qed.

Lemma emitPending_spec E k p id s r :
  inv k p -> streams p !! id = Some s -> res_ok r ->
  wp E (emitPendingRequestBody id r)
    (fun r' p' => res_ok r' /\ StepResult.hasSubmittedStream r' = StepResult.hasSubmittedStream r /\
       inv k p' /\ p' = pending_state p id s) p.
Proof.
  intros Hp Hs Hr. eapply wp_mono; [eapply emitPending_exact; [apply Hp|done]|].
  intros r' p' [-> Hr']. destruct (pending_result_ok k p id s r r') as [? ?]; [apply Hp|done|done|].
  split; [auto|]. split; [done|]. split; [by apply pending_state_ok|done].
Qed.

(** ** End of the response *)

(** The body received is not as long as the Content-Length announced. *)
Definition length_mismatch (s : Stream.t) (status : Z) : bool :=
  (Stream.expectedContentLength s >=? 0)
  && negb (Stream.isHeadRequest s || (status =? 204) || (status =? 304))
  && negb (Stream.receivedContentLength s =? Stream.expectedContentLength s).

(** The stream after its response has been handed over. *)
Definition completed (s : Stream.t) : Stream.t :=
  Stream.set_resp (moved_from (Stream.resp s))
    (Stream.set_responseComplete true (Stream.set_remoteEndStreamReceived true s)).

Definition finalize_result (p : t) (id : Z) (s : Stream.t) (status : Z) (r : StepResult.t) : StepResult.t :=
  if length_mismatch s status
  then StepResult.mergeStepResult r (fail_result p id ErrorCode.PROTOCOL_ERROR true)
  else
    let r := StepResult.push_event (responseCompleted id (Stream.resp s)) r in
    if Stream.localEndStreamSent s
    then StepResult.push_event (streamClosed id ErrorCode.NO_ERROR) r else r.

Definition finalize_state (p : t) (id : Z) (s : Stream.t) (status : Z) : t :=
  if length_mismatch s status then fail_state p id s
  else if Stream.localEndStreamSent s then without_stream id p
  else with_stream id (Stream.set_streamState HALF_CLOSED_REMOTE (completed s)) p.

Lemma finalize_exact E p id s status r :
  streams p !! id = Some s -> Response.getStatusCode (Stream.resp s) = Ok status ->
  wp E (finalizeRemoteStream id r)
    (fun r' p' => r' = finalize_result p id s status r /\ p' = finalize_state p id s status) p.
Proof.
  intros Hs Hst. unfold finalizeRemoteStream. psteps. eapply (wp_update_first _ s); [done|]. cbv beta.
  set (s1 := Stream.set_remoteEndStreamReceived true s). psteps.
  apply wp_mono with (Q := fun m p' => m = length_mismatch s status /\ p' = with_stream id s1 p).
  { unfold length_mismatch. change (Stream.expectedContentLength s1) with (Stream.expectedContentLength s).
    destruct (Stream.expectedContentLength s >=? 0); [|done]. psteps.
    eapply wp_lift; [unfold Stream.expectsNoBody; change (Stream.resp s1) with (Stream.resp s); rewrite Hst; done|].
    done. }
  intros m p1 [-> ->]. unfold finalize_result, finalize_state. destruct (length_mismatch s status).
  - psteps. eapply wp_mono; [eapply failStream_exact, with_stream_lookup|].
    intros r2 p2 [-> ->]. apply wp_ret. split; [done|]. unfold fail_state.
    rewrite without_stream_with. done.
  - psteps. change (Stream.localEndStreamSent _) with (Stream.localEndStreamSent s).
    destruct (Stream.localEndStreamSent s); psteps; done.
Qed.

Lemma fail_state_ok k p id s :
  inv k p -> streams p !! id = Some s -> inv k (fail_state p id s).
Proof.
  intros Hp Hs. pose proof (inv_stream _ _ _ _ Hp Hs) as Hso. destruct (inv_without k p id Hp) as [Hc He].
  split; [|done]. apply inv_set_ghost; [done|case_if; [apply Hso|apply Hp]..].
Qed.

Lemma finalize_spec E k p id s r :
  inv k p -> streams p !! id = Some s -> res_ok r ->
  wp E (finalizeRemoteStream id r)
    (fun r' p' => res_ok r' /\ StepResult.hasSubmittedStream r' = StepResult.hasSubmittedStream r /\ inv k p') p.
Proof.
  intros Hp Hs Hr. pose proof (inv_stream _ _ _ _ Hp Hs) as Hso. destruct (so_status _ _ _ Hso) as [status Hst].
  destruct (v_streams _ _ (proj1 Hp) id s Hs) as [Hid _]. pose proof (v_next _ _ (proj1 Hp)).
  eapply wp_mono; [by eapply finalize_exact|]. intros r' p' [-> ->].
  unfold finalize_result, finalize_state. destruct (length_mismatch s status).
  - split; [apply res_ok_merge; [done|apply fail_result_ok; [lia|done]]|]. split; [done|].
    by apply fail_state_ok.
  - destruct (Stream.localEndStreamSent s) eqn:Hl; (split; [done|]); (split; [done|]); [by apply inv_without|].
    eapply inv_with; [done|done|]. destruct Hso; constructor; try done; cbn; congruence || eauto.
Qed.

(** ** Response headers *)

Lemma store_headers_spec E k p id s headers :
  stream_ok k id s ->
  (Stream.finalResponseHeadersReceived s = false -> exists c, Response.find_status headers = Ok c) ->
  wp E (store_headers id headers)
    (fun code p' => (code = ErrorCode.NO_ERROR \/ code = ErrorCode.PROTOCOL_ERROR) /\
       exists s', p' = with_stream id s' p /\ stream_ok k id s') (with_stream id s p).
Proof.
  intros Hso Hst. unfold store_headers. psteps.
  destruct (Stream.finalResponseHeadersReceived s); cbn [negb].
  - destruct (is_connect _); psteps; [eauto|]. split; [by left|]. eexists. split; [done|].
    destruct Hso. constructor; try done; cbn; congruence || eauto.
  - psteps. split; [by left|]. eexists. split; [done|].
    destruct (so_status _ _ _ Hso) as [c1 Hc1]. destruct Hst as [c2 Hc2]; [done|].
    destruct (HeaderFacts.find_status_app _ _ _ _ Hc1 Hc2) as [c Hc].
    destruct Hso. constructor; try done; cbn; congruence || eauto.
Qed.

Lemma span_total k b acc hp :
  ByteBuffer.wf b -> ByteBuffer.size b + k <= 2 ^ 31 -> 0 <= k -> HpackFacts.dec_wf hp ->
  exists ok hs hp', Hpack.decode (ByteBuffer.span b) acc hp = Ok (ok, acc ++ hs, hp') /\
    HpackFacts.dec_wf hp' /\ HpackFacts.enc_part hp' = HpackFacts.enc_part hp.
Proof. intros _ Hb Hk Hd. apply HpackFacts.decode_total; [|done]. unfold ByteBuffer.size in Hb. lia. Qed.

Lemma enc_part_wf hp hp' :
  HpackFacts.enc_part hp' = HpackFacts.enc_part hp -> HpackFacts.enc_wf hp -> HpackFacts.enc_wf hp'.
Proof. unfold HpackFacts.enc_part, HpackFacts.enc_wf. intros [= -> -> -> _]. done. Qed.

Lemma inv_decoded k p hp :
  inv k p -> HpackFacts.dec_wf hp -> HpackFacts.enc_part hp = HpackFacts.enc_part (hpack p) ->
  inv k (set_hpack hp p).
Proof.
  intros [Hc He] Hd Hp. split; [|done]. apply inv_set_hpack; [done|done|]. eapply enc_part_wf; [done|apply Hc].
Qed.

Lemma decodeResponseHeaders_spec E k p id s endStream r :
  inv k p -> streams p !! id = Some s -> res_ok r ->
  wp E (decodeResponseHeaders id endStream r)
    (fun cr p' => code_ok (fst cr) /\ res_ok (snd cr) /\ inv k p') p.
Proof.
  intros Hp Hs Hr. pose proof (inv_stream _ _ _ _ Hp Hs) as Hso. unfold decodeResponseHeaders.
  wp_step. eapply wp_deref; [done|]. cbv beta. wp_steps.
  destruct (so_block _ _ _ Hso) as [Hb Hbk].
  destruct (span_total k (Stream.pendingHeaderBlock s) [] (hpack p) Hb Hbk) as (ok & hs & hp & Hd & Hdw & Hep);
    [apply (v_room _ _ (proj1 Hp))|apply (v_dec _ _ (proj1 Hp))|].
  eapply wp_lift; [exact Hd|]. cbv beta iota. wp_steps.
  assert (Hp1 : inv k (set_hpack hp p)) by by apply inv_decoded.
  destruct ok; cbn [negb]; [|apply wp_ret; done]. case_if; [apply wp_ret; done|].
  set (p1 := set_hpack hp p) in *. assert (Hs1 : streams p1 !! id = Some s) by done.
  wp_step. eapply (wp_update_first _ s); [done|]. cbv beta. psteps. cbn [app].
  destruct (HeaderFacts.validate_total (Stream.finalResponseHeadersReceived s)
    (Stream.expectedContentLength s) hs endStream) as (code & info & len & Hv & Hcode & Hstat).
  eapply wp_lift; [exact Hv|]. cbv beta iota. psteps.
  set (s1 := Stream.set_expectedContentLength len _).
  assert (Hso1 : stream_ok k id s1).
  { destruct Hso. constructor; try done. apply clear_ok; [done|]. by eapply room_bound, Hp. }
  assert (Hp2 : inv k (with_stream id s1 p1)) by by eapply inv_with.
  destruct (Z.eqb_spec code ErrorCode.NO_ERROR); cbn [negb]; [|apply wp_ret; done].
  destruct info; [apply wp_ret; done|]. wp_step.
  eapply wp_mono; [by apply store_headers_spec; [|intros; by apply Hstat]|].
  intros c p2 (Hc & s2 & -> & Hso2).
  assert (Hp3 : inv k (with_stream id s2 p1)) by by eapply inv_with.
  destruct (Z.eqb_spec c ErrorCode.NO_ERROR); cbn [negb];
    [|apply wp_ret; split; [destruct Hc as [->| ->]; done|done]].
  psteps. destruct endStream; psteps; [|done].
  eapply wp_mono; [eapply finalize_spec; [done|apply with_stream_lookup|done]|].
  intros r' p' (? & _ & ?). apply wp_ret. done.
Qed.
End facts.
