(* ===== verification/ProtocolSafety.v ===== *)
(** * Every operation of [Http2Protocol] is safe

    Each frame handler and each public operation, run in a state that
    satisfies the invariant, returns a state that satisfies it and a result
    whose outbound buffers are well-formed frames.  [E] is the set of
    tolerated faults: it matters for SETTINGS only. *)

From S2P Require Import Prelude Outcome ByteBuffer Types Flow Frame FrameFacts FrameCodec.
From S2P Require Import FrameParse HeaderRules Hpack ProtocolEvent Stream ProtocolState.
From S2P Require Import Protocol ProtocolHandlers ProtocolInv ProtocolFrame ProtocolFacts.
From S2P Require HpackTableFacts HpackFacts HeaderFacts HpackSize.
Import Http2Protocol.

Section safety.
Context `{IterOrder} {E : fault -> Prop}.

Definition handled (k : Z) (r : StepResult.t) (p : t) : Prop := res_ok r /\ inv k p.

Lemma fail_connection_handled k p code debug :
  inv k p -> code_ok code -> zlen debug < 2 ^ 16 -> wp E (failConnection code debug) (handled k) p.
Proof.
  intros Hp Hc Hd. eapply wp_mono; [by apply (failConnection_spec E k); [apply Hp|..]|].
  intros r p' (? & ? & _). done.
Qed.

Lemma fail_stream_handled k p id code rst :
  inv k p -> code_ok code -> wp E (failStream id code rst) (handled k) p.
Proof.
  intros Hp Hc. eapply wp_mono; [by apply (failStream_spec E k); [apply Hp|]|].
  intros r p' (? & _ & g & ? & ? & ->). split; [done|]. destruct (inv_without k p id Hp) as [? He].
  split; [by apply inv_set_ghost|done].
Qed.

Lemma header_block_error_handled k p id code :
  inv k p -> code_ok code -> wp E (handleHeaderBlockError id code) (handled k) p.
Proof. intros. by apply handleHeaderBlockError_spec. Qed.

(** Closure of [inv] under assignments to members other than [closed]. *)
Lemma inv_assign k p f :
  inv k p -> inv_core k (f p) -> closed (f p) = closed p -> streams (f p) = streams p -> inv k (f p).
Proof. intros [_ He] Hc Hcl Hs. split; [done|]. by rewrite Hcl, Hs. Qed.

Lemma handled_empty k p : inv k p -> wp E (ret StepResult.empty) (handled k) p.
Proof. intros Hp. apply wp_ret. split; [apply res_ok_empty|done]. Qed.

(** ** DATA *)

Lemma window_update_ok id n r :
  0 <= id < 2 ^ 31 -> 0 <= n < 2 ^ 32 -> res_ok r ->
  res_ok (StepResult.push_outbound (WindowUpdateFrame.toBytes (buildWindowUpdateFrame id n)) r).
Proof.
  intros. apply (res_ok_outbound (FWindowUpdate (buildWindowUpdateFrame id n))); [done|].
  by apply window_frame_wf.
Qed.

Lemma refresh_connection_spec p n r :
  InFlow.wf (connectionInflow p) -> 0 <= n < 2 ^ 24 ->
  InFlow.credit (connectionInflow p) + n <= INT32_MAX -> res_ok r ->
  wp E (refresh_connection n r)
    (fun o p' => exists r' f, o = Some r' /\ res_ok r' /\ p' = set_connectionInflow f p /\ InFlow.wf f /\
       InFlow.credit f = InFlow.credit (connectionInflow p) + n) p.
Proof.
  intros Hw Hn Hc Hr. unfold refresh_connection. wp_steps. rewrite i32_small by lia.
  destruct (InFlow.add_ok n _ Hw) as (w & f & Ha & Hf & Hcf & Hw0 & Hav & _); [lia|done|].
  eapply wp_lift; [exact Ha|]. cbv beta iota. wp_steps.
  destruct (Z.ltb_spec w 0); [lia|]. rewrite Z.gtb_ltb.
  assert (w < 2 ^ 31).
  { destruct Hw as (? & ? & ?), Hf as (? & ? & ?). unfold InFlow.credit, INT32_MAX in *. lia. }
  destruct (Z.ltb_spec 0 w); wp_steps; eexists _, f; (split; [done|]); [|done].
  split; [|done]. apply window_update_ok; [done| |done]. rewrite u32_small; lia.
Qed.

Lemma take_credit n f f' :
  InFlow.wf f -> 0 <= n < 2 ^ 24 -> InFlow.take n f = Ok (true, f') ->
  InFlow.wf f' /\ InFlow.credit f' + n <= INT32_MAX.
Proof.
  intros Hf Hn. rewrite InFlow.take_ok by (done || lia). intros [= Ht].
  destruct (Z.ltb_spec 0 (InFlow.avail f)); destruct (Z.leb_spec n (InFlow.avail f)); cbn [andb] in Ht; try done.
  injection Ht as <-. destruct Hf as (? & ? & ?). unfold InFlow.wf, InFlow.credit in *. cbn. lia.
Qed.

Lemma inv_inflow k p f : inv k p -> InFlow.wf f -> inv k (set_connectionInflow f p).
Proof. intros Hp Hf. apply (inv_assign k p (set_connectionInflow f)); [done|by apply inv_set_inflow, Hf; apply Hp|done..]. Qed.

Lemma data_on_unknown_handled k p f :
  inv k p -> FrameHeader.wf (DataFrame.header f) -> wp E (processDataOnUnknownStream f) (handled k) p.
Proof.
  intros Hp (Hl & _ & _ & Hid). unfold processDataOnUnknownStream. wp_steps.
  case_if; [by apply fail_connection_handled|]. case_if; [by apply fail_connection_handled|].
  set (n := FrameHeader.payloadLength (DataFrame.header f)) in *. wp_steps.
  pose proof (v_in _ _ (proj1 Hp)) as Hw.
  pose proof (InFlow.take_ok n (connectionInflow p) Hw ltac:(lia)) as Ht.
  destruct ((0 <? _) && _) eqn:Hb; (eapply wp_lift; [exact Ht|]); cbv beta iota; wp_steps; cbn [negb].
  2:{ apply fail_connection_handled; [by apply inv_inflow|done|done]. }
  assert (Ht' := Ht). apply take_credit in Ht' as [Hw' Hc']; [|done|done].
  set (g := InFlow.mk _ _) in *. wp_steps.
  eapply wp_mono; [apply refresh_connection_spec; [done|done|done|apply res_ok_empty]|].
  intros o p' (r' & f' & -> & Hr' & -> & Hf' & _). apply wp_ret. split; [done|].
  by apply inv_inflow; [apply inv_inflow|].
Qed.

Lemma checked_i64_ok z : - 2 ^ 63 <= z < 2 ^ 63 -> checked_i64 z = Ok z.
Proof. unfold checked_i64. intros. destruct (Z.leb_spec (- 2 ^ 63) z), (Z.ltb_spec z (2 ^ 63)); try lia; done. Qed.

(** The stream with [d] appended to its response body. *)
Definition with_body (d : bytes) (s : Stream.t) : Stream.t :=
  Stream.set_receivedContentLength (Stream.receivedContentLength s + zlen d)
    (Stream.set_resp (Response.set_body (Response.body (Stream.resp s) ++ d) (Stream.resp s)) s).

Lemma with_body_ok k n id s d :
  stream_ok (k + n) id s -> 0 <= k -> zlen d <= n -> stream_ok k id (with_body d s).
Proof.
  intros Hs Hk Hd. pose proof (zlen_nonneg d). pose proof (so_received _ _ _ Hs).
  destruct (stream_ok_mono (k + n) k id s) as []; [done|lia|].
  constructor; try done. unfold with_body. cbn. lia.
Qed.

Lemma set_inflow_ok k id s f : stream_ok k id s -> InFlow.wf f -> stream_ok k id (Stream.set_inflow f s).
Proof. intros [] Hf. by constructor. Qed.

Lemma inflow_with_stream f id s p :
  set_connectionInflow f (with_stream id s p) = with_stream id s (set_connectionInflow f p).
Proof. done. Qed.

Lemma accept_data_handled k n p id s f :
  inv (k + n) p -> streams p !! id = Some s -> 0 <= k ->
  FrameHeader.payloadLength (DataFrame.header f) = n -> 0 <= n < 2 ^ 24 -> zlen (DataFrame.data f) <= n ->
  InFlow.credit (connectionInflow p) + n <= INT32_MAX ->
  InFlow.credit (Stream.inflow s) + n <= INT32_MAX ->
  wp E (accept_data id f) (handled k) p.
Proof.
  intros Hp Hs Hk Hlen Hn Hd Hc1 Hc2. pose proof (inv_stream _ _ _ _ Hp Hs) as Hso.
  destruct (v_streams _ _ (proj1 Hp) id s Hs) as [Hid _]. pose proof (v_next _ _ (proj1 Hp)).
  unfold accept_data. rewrite Hlen. psteps. eapply (wp_update_first _ s); [done|]. cbv beta. psteps.
  pose proof (zlen_nonneg (DataFrame.data f)). destruct (so_received _ _ _ Hso).
  eapply wp_lift; [apply checked_i64_ok; cbn; lia|]. cbv beta. psteps.
  set (s1 := Stream.set_receivedContentLength _ _).
  assert (Hso1 : stream_ok k id s1) by exact (with_body_ok k n id s _ Hso Hk Hd).
  assert (Hpk : inv k p) by (eapply inv_mono; [done|lia]).
  eapply wp_mono; [apply refresh_connection_spec; [apply (v_in _ _ (proj1 Hp))|done|done|apply res_ok_empty]|].
  intros o p1 (r1 & g & -> & Hr1 & -> & Hg & _). cbv beta iota. rewrite inflow_with_stream. psteps.
  rewrite i32_small by lia. change (Stream.inflow s1) with (Stream.inflow s).
  destruct (InFlow.add_ok n (Stream.inflow s) (so_in _ _ _ Hso)) as (w & h & Ha & Hh & _ & Hw0 & Hav & _); [lia|done|].
  eapply wp_lift; [exact Ha|]. cbv beta iota. psteps.
  set (p2 := set_connectionInflow _ _). assert (Hp2 : inv k p2) by by apply inv_inflow.
  set (s2 := Stream.set_inflow h s1). assert (Hso2 : stream_ok k id s2) by by apply set_inflow_ok.
  assert (Hp3 : inv k (with_stream id s2 p2)) by by eapply inv_with.
  destruct (Z.ltb_spec w 0); [lia|].
  assert (w < 2 ^ 31).
  { destruct Hh as (? & ? & ?), (so_in _ _ _ Hso) as (? & ? & ?). unfold InFlow.credit, INT32_MAX in *. lia. }
  set (r2 := if w >? 0 then _ else r1).
  assert (Hr2 : res_ok r2).
  { unfold r2. case_if; [|done]. apply window_update_ok; [lia|rewrite u32_small; lia|done]. }
  case_if; [|by apply wp_ret].
  eapply wp_mono; [eapply finalize_spec; [done|apply with_stream_lookup|done]|].
  intros r' p' (? & _ & ?). done.
Qed.

Lemma take_both_credit k p id s n :
  inv k p -> streams p !! id = Some s -> 0 <= n < 2 ^ 24 ->
  match (if (n =? 0) || (n <=? InFlow.avail (connectionInflow p)) && (n <=? InFlow.avail (Stream.inflow s))
         then (true, InFlow.mk (InFlow.avail (connectionInflow p) - n) (InFlow.unsnt (connectionInflow p)),
               InFlow.mk (InFlow.avail (Stream.inflow s) - n) (InFlow.unsnt (Stream.inflow s)))
         else (false, connectionInflow p, Stream.inflow s)) with
  | (taken, f1, f2) =>
      (InFlow.wf f1 /\ InFlow.wf f2) /\
      (taken = true -> InFlow.credit f1 + n <= INT32_MAX /\ InFlow.credit f2 + n <= INT32_MAX)
  end.
Proof.
  intros Hp Hs Hn. pose proof (v_in _ _ (proj1 Hp)) as (? & ? & ?).
  pose proof (so_in _ _ _ (inv_stream _ _ _ _ Hp Hs)) as (? & ? & ?).
  unfold InFlow.wf, InFlow.credit in *. case_if; cbn [InFlow.avail InFlow.unsnt]; [|split; [lia|done]].
  apply orb_true_iff in Heqb as [Hz|Hz]; [apply Z.eqb_eq in Hz; lia|].
  apply andb_true_iff in Hz as [?%Z.leb_le ?%Z.leb_le]. lia.
Qed.

Lemma processDataFrame_handled k frame p :
  RawFrame.wf frame -> inv (k + zlen (RawFrame.data frame)) p -> 0 <= k ->
  wp E (processDataFrame frame) (handled k) p.
Proof.
  intros Hf Hp Hk. pose proof (raw_len _ Hf). pose proof (proj1 Hf) as Hh. pose proof (proj2 Hf) as Hlen.
  assert (Hpk : inv k p) by (eapply inv_mono; [done|lia]).
  unfold processDataFrame. case_if; [by apply fail_connection_handled|]. wp_steps.
  destruct (payload_validate_total frame 0 Hf ltac:(lia)) as (o & Hv & Ho).
  eapply wp_lift; [exact Hv|]. cbv beta. destruct o as [[code debug]|]; [by apply fail_connection_handled; [|apply Ho..]|].
  destruct Ho as (pad & l & Hs). wp_steps. eapply wp_lift; [by apply data_parse|]. cbv beta.
  assert (Hl : zlen l <= zlen (RawFrame.data frame)).
  { destruct Hs as (_ & _ & Hs). destruct (FrameHeader.hasAnyFlag _ _); [destruct Hs as (b & -> & _); zlen_lia|by destruct Hs as [-> _]]. }
  destruct Hs as (Hpad & Hs & _). set (df := DataFrame.mk _ _ _ _).
  assert (Hdl : zlen (DataFrame.data df) <= zlen (RawFrame.data frame)) by (cbn; rewrite zlen_ztake; lia).
  psteps. set (id := FrameHeader.streamId (RawFrame.header frame)).
  destruct (streams p !! id) as [s|] eqn:Hst.
  2:{ rewrite bool_decide_false by (intros [? ?]; done). cbn [negb]. by apply data_on_unknown_handled. }
  rewrite bool_decide_true by done. cbn [negb].
  pose proof (inv_stream _ _ _ _ Hp Hst) as Hso. wp_step. eapply wp_deref; [done|]. cbv beta.
  case_if; [by apply fail_stream_handled|]. case_if; [by apply fail_stream_handled|]. wp_steps.
  set (n := FrameHeader.payloadLength (DataFrame.header df)).
  assert (Hn : n = zlen (RawFrame.data frame)) by done.
  pose proof (InFlow.takeInflows_ok (connectionInflow p) (Stream.inflow s) n
    (v_in _ _ (proj1 Hp)) (so_in _ _ _ Hso) ltac:(lia)) as Ht.
  eapply wp_lift; [exact Ht|]. cbv beta.
  pose proof (take_both_credit k p id s n Hpk Hst ltac:(lia)) as Hall.
  destruct (if (n =? 0) || _ then _ else _) as [[taken f1] f2]. destruct Hall as [[Hf1 Hf2] Htaken]. psteps.
  eapply (wp_update_first _ s); [done|]. cbv beta. psteps. set (s1 := Stream.set_inflow f2 s).
  assert (Hp1 : inv (k + zlen (RawFrame.data frame)) (with_stream id s1 (set_connectionInflow f1 p))).
  { eapply inv_with; [by apply inv_inflow|done|]. by apply set_inflow_ok. }
  assert (Hpk1 : inv k (with_stream id s1 (set_connectionInflow f1 p))) by (eapply inv_mono; [done|lia]).
  destruct taken; cbn [negb]; [|by apply fail_connection_handled].
  destruct Htaken as [Hc1 Hc2]; [done|]. wp_steps.
  eapply wp_mono with (Q := fun _ p' => p' = with_stream id s1 (set_connectionInflow f1 p)).
  { case_if; [|done]. destruct (so_status _ _ _ Hso) as [status Hstat].
    eapply wp_lift; [|done]. unfold Stream.expectsNoBody. change (Stream.resp s1) with (Stream.resp s).
    by rewrite Hstat. }
  intros rejected p' ->. case_if; [by apply fail_stream_handled|].
  eapply (accept_data_handled k n); [by rewrite Hn|apply with_stream_lookup|done|done|lia|lia|done|done].
Qed.

(** ** HEADERS *)

Lemma append_block k n b d :
  ByteBuffer.wf b -> ByteBuffer.size b + (k + n) <= 2 ^ 31 -> 0 <= k -> zlen d <= n ->
  exists b', ByteBuffer.append_range d b = Ok b' /\ ByteBuffer.data b' = ByteBuffer.data b ++ d /\
    ByteBuffer.wf b' /\ ByteBuffer.size b' + k <= 2 ^ 31.
Proof.
  intros Hb Hs Hk Hd. destruct (ByteBuffer.append_range_ok d b Hb) as (b' & Ha & Hb' & Hdata); [lia|].
  exists b'. split; [done|]. split; [done|]. split; [done|].
  unfold ByteBuffer.size in *. rewrite Hdata, zlen_app. lia.
Qed.

Lemma append_header_block_spec k n p id s d :
  inv (k + n) p -> streams p !! id = Some s -> 0 <= k -> zlen d <= n ->
  wp E (append_header_block id d)
    (fun _ p' => exists b, ByteBuffer.data b = ByteBuffer.data (Stream.pendingHeaderBlock s) ++ d /\
       p' = with_stream id (Stream.set_pendingHeaderBlock b s) p /\
       stream_ok k id (Stream.set_pendingHeaderBlock b s)) p.
Proof.
  intros Hp Hs Hk Hd. pose proof (inv_stream _ _ _ _ Hp Hs) as Hso. pose proof (zlen_nonneg d).
  destruct (so_block _ _ _ Hso) as [Hb Hbk].
  destruct (append_block k n _ d Hb Hbk Hk Hd) as (b & Ha & Hdata & Hb' & Hbk').
  unfold append_header_block. wp_step. eapply wp_deref; [done|]. cbv beta. wp_step.
  eapply wp_lift; [exact Ha|]. cbv beta. wp_step.
  eapply (wp_update_first _ s); [done|]. cbv beta. wp_steps. exists b. split; [done|]. split; [done|].
  apply (stream_ok_mono (k + n) k) in Hso; [|lia]. destruct Hso. by constructor.
Qed.

Lemma complete_header_block_handled k p id s endStream :
  inv k p -> streams p !! id = Some s -> wp E (complete_header_block id endStream) (handled k) p.
Proof.
  intros Hp Hs. unfold complete_header_block. wp_step.
  eapply wp_mono; [by eapply decodeResponseHeaders_spec; [| |apply res_ok_empty]|].
  intros [code r] p' (Hc & Hr & Hp'). cbv beta iota.
  case_if; [by apply header_block_error_handled|by apply wp_ret].
Qed.

Lemma discard_block k p b :
  inv k p -> ByteBuffer.wf b -> ByteBuffer.size b + k <= 2 ^ 31 ->
  exists ok hs hp, Hpack.decode (ByteBuffer.span b) [] (hpack p) = Ok (ok, hs, hp) /\ inv k (set_hpack hp p).
Proof.
  intros Hp Hb Hbk. destruct (span_total k b [] (hpack p) Hb Hbk) as (ok & hs & hp & Hd & Hdw & Hep);
    [apply (v_room _ _ (proj1 Hp))|apply (v_dec _ _ (proj1 Hp))|].
  exists ok, hs, hp. split; [done|]. by apply inv_decoded.
Qed.

Lemma inv_ghost k p b :
  inv k p -> ByteBuffer.wf b -> ByteBuffer.size b + k <= 2 ^ 31 -> inv k (set_ghostHeaderBlock b p).
Proof. intros Hp ? ?. apply (inv_assign k p (set_ghostHeaderBlock b)); [done|apply inv_set_ghost; [apply Hp|done..]|done..]. Qed.

Lemma inv_expecting k p b id :
  inv k p -> inv k (set_continuationStreamId id (set_expectingContinuation b p)).
Proof.
  intros Hp. apply (inv_assign k p (fun p => set_continuationStreamId id (set_expectingContinuation b p)));
    [done|apply inv_set_continuationStreamId, inv_set_expectingContinuation, Hp|done..].
Qed.

Lemma headers_on_unknown_handled k n p f :
  inv (k + n) p -> 0 <= k -> zlen (HeadersFrame.data f) <= n ->
  wp E (headers_on_unknown_stream f) (handled k) p.
Proof.
  intros Hp Hk Hd. pose proof (zlen_nonneg (HeadersFrame.data f)).
  assert (Hpk : inv k p) by (eapply inv_mono; [done|lia]).
  pose proof (room_bound _ _ (proj1 Hp)). unfold headers_on_unknown_stream. wp_steps.
  case_if; [by apply fail_connection_handled|]. case_if; [by apply fail_connection_handled|].
  case_if.
  - destruct (HpackFacts.decode_total (HeadersFrame.data f) [] (hpack p)) as (ok & hs & hp & Hdec & Hdw & Hep);
      [lia|apply (v_dec _ _ (proj1 Hp))|].
    wp_step. eapply wp_lift; [exact Hdec|]. cbv beta iota. wp_steps.
    assert (inv k (set_hpack hp p)) by by apply inv_decoded.
    case_if; [by apply fail_connection_handled|by apply handled_empty].
  - destruct (append_block k n (ByteBuffer.make 128) (HeadersFrame.data f)) as (b & Ha & _ & Hb & Hbk);
      [apply ByteBuffer.make_wf; lia|change (0 + (k + n) <= 2 ^ 31); lia|done|done|].
    wp_step. eapply wp_lift; [exact Ha|]. cbv beta. wp_steps. split; [apply res_ok_empty|].
    by apply inv_expecting, inv_ghost.
Qed.

Lemma headers_on_stream_handled k n p f s :
  inv (k + n) p -> 0 <= k -> zlen (HeadersFrame.data f) <= n ->
  streams p !! FrameHeader.streamId (HeadersFrame.header f) = Some s ->
  wp E (headers_on_stream f) (handled k) p.
Proof.
  intros Hp Hk Hd Hs. pose proof (zlen_nonneg (HeadersFrame.data f)).
  assert (Hpk : inv k p) by (eapply inv_mono; [done|lia]).
  unfold headers_on_stream. set (id := FrameHeader.streamId _) in *. wp_step. eapply wp_deref; [done|]. cbv beta.
  case_if; [by apply fail_stream_handled|]. wp_step.
  eapply wp_mono; [by eapply (append_header_block_spec k n)|]. intros within p' (b & _ & -> & Hso).
  set (s1 := Stream.set_pendingHeaderBlock b s) in *.
  assert (Hp1 : inv k (with_stream id s1 p)) by by eapply inv_with.
  case_if; [by apply fail_connection_handled|]. case_if.
  - psteps. split; [apply res_ok_empty|]. apply inv_expecting. eapply inv_with; [done|done|].
    destruct Hso. by constructor.
  - eapply complete_header_block_handled; [done|apply with_stream_lookup].
Qed.

Lemma processHeadersFrame_handled k frame p :
  RawFrame.wf frame -> inv (k + zlen (RawFrame.data frame)) p -> 0 <= k ->
  wp E (processHeadersFrame frame) (handled k) p.
Proof.
  intros Hf Hp Hk. pose proof (raw_len _ Hf).
  assert (Hpk : inv k p) by (eapply inv_mono; [done|lia]).
  unfold processHeadersFrame. case_if; [by apply fail_connection_handled|]. cbv zeta.
  set (n := if FrameHeader.hasAnyFlag FrameFlag.PRIORITY _ then 5 else 0).
  assert (Hn : 0 <= n) by (unfold n; case_if; lia). wp_steps.
  destruct (payload_validate_total frame n Hf Hn) as (o & Hv & Ho).
  eapply wp_lift; [exact Hv|]. cbv beta. destruct o as [[code debug]|]; [by apply fail_connection_handled; [|apply Ho..]|].
  destruct Ho as (pad & l & Hs). destruct (headers_parse frame n pad l Hf eq_refl Hs) as (dep & w & Hparse).
  wp_steps. eapply wp_lift; [exact Hparse|]. cbv beta.
  set (hf := HeadersFrame.mk _ _ _ _ _ _).
  assert (Hd : zlen (HeadersFrame.data hf) <= zlen (RawFrame.data frame)).
  { destruct Hs as (Hpad & Hnl & Hs). cbn. rewrite zlen_ztake by (rewrite zlen_zdrop; lia).
    destruct (FrameHeader.hasAnyFlag FrameFlag.PADDED _); [destruct Hs as (b & -> & _); zlen_lia|destruct Hs as [-> _]; lia]. }
  psteps. destruct (streams p !! FrameHeader.streamId (RawFrame.header frame)) as [s|] eqn:Hst.
  - rewrite bool_decide_true by done. cbn [negb]. by eapply headers_on_stream_handled.
  - rewrite bool_decide_false by (intros [? ?]; done). cbn [negb]. by eapply headers_on_unknown_handled.
Qed.

(** ** PRIORITY, RST_STREAM, PUSH_PROMISE, PING *)

Lemma processPriorityFrame_handled k frame p :
  RawFrame.wf frame -> inv k p -> wp E (processPriorityFrame frame) (handled k) p.
Proof.
  intros Hf Hp. destruct (proj1 Hf) as (_ & _ & _ & Hid). unfold processPriorityFrame.
  case_if; [by apply fail_connection_handled|]. case_if; [|by apply handled_empty].
  apply wp_ret. split; [|done].
  apply (res_ok_outbound (FRstStream (buildRstStreamFrame _ _))); [apply res_ok_empty|]. by apply rst_frame_wf.
Qed.

Lemma processRstStreamFrame_handled k frame p :
  RawFrame.wf frame -> inv k p -> wp E (processRstStreamFrame frame) (handled k) p.
Proof.
  intros Hf Hp. pose proof (proj2 Hf) as Hl. unfold processRstStreamFrame.
  case_if; [by apply fail_connection_handled|]. rewrite Hl.
  destruct (Z.eqb_spec (zlen (RawFrame.data frame)) 4); cbn [negb]; [|by apply fail_connection_handled].
  psteps. destruct (streams p !! _); [rewrite bool_decide_true by done|
    rewrite bool_decide_false by (intros [? ?]; done)]; cbn [negb].
  - destruct (rst_stream_parse frame Hf) as (code & Hc & Hcode); [done|].
    wp_step. eapply wp_lift; [exact Hc|]. cbv beta. wp_steps.
    eapply wp_mono; [by apply fail_stream_handled|]. intros r p' [Hr ?]. apply wp_ret.
    split; [auto with h2|done].
  - wp_steps. case_if; [by apply fail_connection_handled|by apply handled_empty].
Qed.

Lemma processPushPromiseFrame_handled k frame p :
  RawFrame.wf frame -> inv k p -> wp E (processPushPromiseFrame frame) (handled k) p.
Proof.
  intros Hf Hp. unfold processPushPromiseFrame. case_if; [by apply fail_connection_handled|]. wp_step.
  destruct (payload_validate_total frame 4 Hf ltac:(lia)) as (o & Hv & Ho).
  eapply wp_lift; [exact Hv|]. cbv beta. destruct o as [[code debug]|]; [by apply fail_connection_handled; [|apply Ho..]|].
  destruct Ho as (pad & l & Hs). destruct (push_promise_parse frame pad l Hf Hs) as (pf & Hparse).
  wp_step. eapply wp_lift; [exact Hparse|]. cbv beta. wp_steps.
  case_if; [by apply fail_connection_handled|]. case_if; [by apply fail_connection_handled|].
  case_if; wp_steps; [|by split; [auto with h2|]]. eapply wp_mono; [by apply fail_connection_handled|].
  intros r p' [Hr ?]. apply wp_ret. split; [auto with h2|done].
Qed.

Lemma ping_frame_wf flags data :
  zlen data = 8 -> 0 <= flags < 2 ^ 8 ->
  frame_wf (FPing (PingFrame.mk (FrameHeader.mk 8 FrameType.PING flags 0) data)).
Proof.
  intros Hd Hf. split; [split_and!; cbn; (lia || done)|]. split; [done|].
  cbn [frame_header frame_toBytes]. unfold PingFrame.toBytes. cbn [PingFrame.header PingFrame.data].
  rewrite zlen_app, zlen_header_encode, Hd. done.
Qed.

Lemma processPingFrame_handled k frame p :
  RawFrame.wf frame -> inv k p -> wp E (processPingFrame frame) (handled k) p.
Proof.
  intros Hf Hp. unfold processPingFrame. case_if; [by apply fail_connection_handled|].
  destruct (Z.eqb_spec (FrameHeader.payloadLength (RawFrame.header frame)) 8) as [Hl|]; cbn [negb];
    [|by apply fail_connection_handled].
  rewrite (proj2 Hf) in Hl. wp_step. eapply wp_lift; [done|]. cbv beta.
  case_if; apply wp_ret; (split; [|done]); [auto with h2|].
  apply (res_ok_outbound (FPing (PingFrame.mk (FrameHeader.mk 8 FrameType.PING FrameFlag.ACK 0) _)));
    [auto with h2|]. by apply ping_frame_wf.
Qed.

(** ** GOAWAY, WINDOW_UPDATE *)

Lemma processGoAwayFrame_handled k frame p :
  RawFrame.wf frame -> inv k p -> wp E (processGoAwayFrame frame) (handled k) p.
Proof.
  intros Hf Hp. unfold processGoAwayFrame. case_if; [by apply fail_connection_handled|].
  rewrite (proj2 Hf). destruct (Z.ltb_spec (zlen (RawFrame.data frame)) 8); [by apply fail_connection_handled|].
  destruct (goaway_parse frame Hf) as (g & Hg & Hcode & _); [done|].
  wp_step. eapply wp_lift; [exact Hg|]. cbv beta. wp_steps.
  eapply wp_mono; [apply (fail_each_spec E k); [by apply inv_set_receivedGoaway, Hp|done|auto with h2]|].
  intros r p' (Hr & _ & Hp' & g' & m & -> & Hm). split; [done|]. split; [done|]. intros Hcl.
  apply map_eq. intros i. rewrite Hm.
  change (streams (set_receivedGoaway true p)) with (streams p). rewrite (proj2 Hp Hcl), !lookup_empty. by case_bool_decide.
Qed.

Lemma inv_outflow k p f : inv k p -> OutFlow.wf f -> inv k (set_connectionOutFlow f p).
Proof. intros Hp ?. apply (inv_assign k p (set_connectionOutFlow f)); [done|by apply inv_set_outflow; [apply Hp|]|done..]. Qed.

(** Sending pending bodies leaves other streams in place. *)
Lemma flush_pending_handled k pending p r :
  inv k p -> NoDup pending -> (forall id, id ∈ pending -> is_Some (streams p !! id)) -> res_ok r ->
  wp E (flush_pending pending r) (handled k) p.
Proof.
  intros Hp Hnd Hin Hr. revert p r Hp Hin Hr. induction Hnd as [|id ids Hnotin Hnd IH]; intros p r Hp Hin Hr;
    cbn [flush_pending]; [by apply wp_ret|].
  destruct (Hin id) as [s Hs]; [set_solver|]. wp_step. eapply wp_deref; [done|]. cbv beta. psteps.
  rewrite Hs, bool_decide_true by done.
  eapply wp_mono; [by eapply emitPending_spec|]. intros r' p' (Hr' & _ & Hp' & ->).
  apply IH; [done| |done]. intros j Hj. destruct (pending_state_frame p id s) as [Hother _].
  rewrite Hother by (intros ->; done). apply Hin. set_solver.
Qed.

Lemma processWindowUpdateFrame_handled k frame p :
  RawFrame.wf frame -> inv k p -> wp E (processWindowUpdateFrame frame) (handled k) p.
Proof.
  intros Hf Hp. unfold processWindowUpdateFrame. rewrite (proj2 Hf).
  destruct (Z.eqb_spec (zlen (RawFrame.data frame)) 4); cbn [negb]; [|by apply fail_connection_handled].
  destruct (window_update_parse frame Hf) as (n & Hn & Hrange); [done|].
  wp_step. eapply wp_lift; [exact Hn|]. cbv beta zeta. cbn [WindowUpdateFrame.windowSizeIncrement].
  pose proof (land_31_range n) as Hl. set (inc := Z.land n 0x7fffffff) in *.
  case_if; [case_if; [by apply fail_connection_handled|by apply fail_stream_handled]|]. wp_steps. case_if.
  - pose proof (OutFlow.add_wf (i32 inc) (connectionOutFlow p) (v_out _ _ (proj1 Hp))) as Hw.
    destruct (OutFlow.add (i32 inc) (connectionOutFlow p)) as [ok f]. wp_steps.
    assert (Hp1 : inv k (set_connectionOutFlow f p)) by by apply inv_outflow.
    destruct ok; cbn [negb]; [|by apply fail_connection_handled]. wp_steps.
    apply flush_pending_handled; [done|apply iter_order_NoDup| |auto with h2].
    intros id. by rewrite iter_order_elem.
  - psteps. set (id := FrameHeader.streamId (RawFrame.header frame)).
    destruct (streams p !! id) as [s|] eqn:Hs.
    2:{ rewrite bool_decide_false by (intros [? ?]; done). cbn [negb].
        case_if; [by apply fail_connection_handled|]. apply wp_ret. split; [auto with h2|done]. }
    rewrite bool_decide_true by done. cbn [negb]. wp_step. eapply wp_deref; [done|]. cbv beta.
    pose proof (inv_stream _ _ _ _ Hp Hs) as Hso. destruct (so_out _ _ _ Hso) as [Ho Hoc].
    pose proof (OutFlow.add_wf (i32 inc) _ Ho) as Hw. pose proof (OutFlow.add_conn (i32 inc) (Stream.outflow s)) as Hwc.
    destruct (OutFlow.add (i32 inc) (Stream.outflow s)) as [ok f]. wp_step.
    eapply (wp_update_first _ s); [done|]. cbv beta.
    assert (Hp1 : inv k (with_stream id (Stream.set_outflow f s) p)).
    { eapply inv_with; [done|done|]. destruct Hso. constructor; try done. split; [done|]. by rewrite <- Hoc. }
    destruct ok; cbn [negb]; [|by apply fail_stream_handled].
    eapply wp_mono; [eapply emitPending_spec; [done|apply with_stream_lookup|auto with h2]|].
    intros r' p' (? & _ & ? & _). done.
Qed.

(** ** SETTINGS *)

Lemma resize_wf n hp :
  0 <= n < 2 ^ 32 -> HpackFacts.dec_wf hp -> HpackFacts.enc_wf hp ->
  HpackFacts.dec_wf (Hpack.setEncodeTableSize n hp) /\ HpackFacts.enc_wf (Hpack.setEncodeTableSize n hp).
Proof.
  intros Hn Hd (Hw & Hm & Hmin & Hr). destruct (HpackTableFacts.setMaxSize_spec n _ Hw) as (Hw' & _ & Hm'); [lia|].
  split; [done|]. unfold HpackFacts.enc_wf.
  change (Hpack.encodeTable (Hpack.setEncodeTableSize n hp)) with (HpackTable.HpackTable.setMaxSize n (Hpack.encodeTable hp)).
  change (Hpack.encodeMinSize (Hpack.setEncodeTableSize n hp)) with (Z.min n (Hpack.encodeMinSize hp)).
  rewrite Hm'. split; [done|]. lia.
Qed.

Lemma add_outflows_spec k p ids delta :
  inv k p -> (forall id, id ∈ ids -> is_Some (streams p !! id)) ->
  wp E (add_outflows ids delta) (fun _ p' => inv k p') p.
Proof.
  revert p. induction ids as [|id ids IH]; intros p Hp Hin; cbn [add_outflows]; [by apply wp_ret|].
  destruct (Hin id) as [s Hs]; [set_solver|]. wp_step. eapply wp_deref; [done|]. cbv beta.
  destruct (so_out _ _ _ (inv_stream _ _ _ _ Hp Hs)) as [Ho Hoc].
  pose proof (OutFlow.add_wf delta _ Ho) as Hw. pose proof (OutFlow.add_conn delta (Stream.outflow s)) as Hwc.
  destruct (OutFlow.add delta (Stream.outflow s)) as [ok f]. wp_step.
  eapply (wp_update_first _ s); [done|]. cbv beta.
  assert (Hp1 : inv k (with_stream id (Stream.set_outflow f s) p)).
  { eapply inv_with; [done|done|]. destruct (inv_stream _ _ _ _ Hp Hs). constructor; try done.
    split; [done|]. by rewrite <- Hoc. }
  destruct ok; cbn [negb]; [|by apply wp_ret]. apply IH; [done|].
  intros j Hj. destruct (decide (j = id)) as [->|]; [rewrite with_stream_lookup; eauto|].
  unfold with_stream. cbn. rewrite lookup_insert_ne by done. apply Hin. set_solver.
Qed.

Lemma applyPeerSetting_spec k p param value :
  inv k p -> 0 <= value < 2 ^ 32 ->
  wp E (applyPeerSetting param value) (fun code p' => code_ok code /\ inv k p') p.
Proof.
  intros Hp Hv. pose proof (proj1 Hp) as Hc. unfold applyPeerSetting.
  assert (Hset : forall f, inv_core k (f p) -> closed (f p) = closed p -> streams (f p) = streams p ->
    wp E (modify f ;;; ret ErrorCode.NO_ERROR) (fun code p' => code_ok code /\ inv k p') p).
  { intros f Hf Hcl Hst. wp_steps. split; [done|]. by apply inv_assign. }
  case_if; [by apply Hset; [apply inv_set_maxConcurrentStreams|..]|].
  case_if.
  { wp_steps. split; [done|]. destruct (resize_wf value (hpack p)) as [? ?]; [done|apply Hc..|].
    by apply inv_assign with (f := fun p => set_hpack _ (set_encodeHeaderTableSize value p)) (p := p);
      [|apply inv_set_hpack; [apply inv_set_encodeHeaderTableSize|..]|..]. }
  case_if; [case_if; [by apply wp_ret|by apply Hset; [apply inv_set_enablePush|..]]|].
  case_if.
  { destruct ((value <? _) || _) eqn:Hr; [by apply wp_ret|]. apply orb_false_iff in Hr as [Hlo Hhi].
    apply Z.ltb_ge in Hlo. rewrite Z.gtb_ltb in Hhi. apply Z.ltb_ge in Hhi.
    change Http2SettingInfo.minimumMaxFrameSize with 16384 in Hlo.
    change Http2SettingInfo.maximumMaxFrameSize with 16777215 in Hhi.
    apply Hset; [apply inv_set_maxFrameSize; [done|lia]|done..]. }
  case_if.
  { rewrite Z.gtb_ltb. change Http2SettingInfo.maximumWindowSize with 2147483647.
    destruct (Z.ltb_spec 2147483647 value); [by apply wp_ret|]. wp_steps. pose proof (v_window _ _ Hc).
    rewrite !i32_small by lia. eapply wp_lift; [apply checked_i32_ok; unfold INT32_MIN, INT32_MAX; lia|].
    cbv beta. wp_steps.
    eapply wp_mono; [apply (add_outflows_spec k)|].
    - apply (inv_assign k p (set_initialWindowSize value)); [done|by apply inv_set_initialWindowSize; [|lia]|done..].
    - intros id. by rewrite iter_order_elem.
    - intros ok p' Hp'. cbv beta. case_if; by apply wp_ret. }
  case_if; [by apply Hset; [apply inv_set_maxHeaderListSize|..]|]. by apply wp_ret.
Qed.

Lemma applyPeerSettings_spec k p l :
  inv k p -> settings_wf l -> wp E (applyPeerSettings l) (fun code p' => code_ok code /\ inv k p') p.
Proof.
  intros Hp Hl. revert p Hp. induction Hl as [|[param value] l [_ Hv] Hl IH]; intros p Hp;
    cbn [applyPeerSettings]; [by apply wp_ret|]. wp_step.
  eapply wp_mono; [by apply applyPeerSetting_spec|]. intros code p' [? ?]. cbv beta.
  case_if; [by apply wp_ret|by apply IH].
Qed.

(** The fault of [processSettingFrame]'s loop. *)
Definition erased_in_loop : fault := Undefined "range-for over streams: iterator invalidated by erase".

(** What makes the loop safe: the fault is tolerated, or cannot occur. *)
Definition may_flush (p : t) : Prop := E erased_in_loop \/ bodyless p.

Lemma may_flush_frame p p' : may_flush p -> receiver_frame p p' -> may_flush p'.
Proof.
  intros [?|Hb] [_ Hr]; [by left|right]. intros id r Hid. eapply Hb, lookup_weaken; done.
Qed.

Lemma pending_state_bodyless k p id s :
  stream_ok k id s -> streams p !! id = Some s -> Request.body (Stream.rqst s) = [] ->
  is_Some (streams (pending_state p id s) !! id).
Proof.
  intros Hs Hin Hb. assert (Hz : Stream.bodySize s = 0) by (unfold Stream.bodySize; by rewrite Hb).
  pose proof (so_off _ _ _ Hs) as [Hoff _]. unfold pending_state.
  destruct (Stream.localEndStreamSent s) eqn:Hl; [eauto|]. rewrite (so_open _ _ _ Hs). cbn [orb]. cbv zeta.
  assert (Hn : sendable (connectionOutFlow p) s = 0) by (unfold sendable; lia).
  rewrite Hn, body_sent_0, Hl, with_stream_lookup. eauto.
Qed.

Lemma flush_streams_handled k ids p r :
  may_flush p ->
  inv k p -> NoDup ids -> (forall id, id ∈ ids -> is_Some (streams p !! id)) -> res_ok r ->
  wp E (flush_streams ids r) (handled k) p.
Proof.
  intros HE Hp Hnd Hin Hr. revert p r HE Hp Hin Hr.
  induction Hnd as [|id ids Hnotin Hnd IH]; intros p r HE Hp Hin Hr; cbn [flush_streams]; [by apply wp_ret|].
  destruct (Hin id) as [s Hs]; [set_solver|]. wp_step.
  eapply wp_mono; [eapply wp_keeps; [by eapply emitPending_spec|apply (emitPending_keeps receiver_frame)]|].
  intros r' p' [(Hr' & _ & Hp' & ->) Hframe]. cbv beta. psteps. case_bool_decide as Hin'.
  2:{ apply wp_fail. destruct HE as [?|Hb]; [done|]. destruct Hin'.
      eapply pending_state_bodyless; [exact (inv_stream _ _ _ _ Hp Hs)|done|].
      apply (Hb id). unfold requests. by rewrite lookup_fmap, Hs. }
  apply IH; [by eapply may_flush_frame|done| |done]. intros j Hj. destruct (pending_state_frame p id s) as [Hother _].
  rewrite Hother by (intros ->; done). apply Hin. set_solver.
Qed.

Lemma settings_ack_ok r : res_ok r -> res_ok (StepResult.push_outbound (SettingFrame.toBytes settings_ack) r).
Proof.
  intros Hr. apply (res_ok_outbound (FSettings settings_ack)); [done|].
  split; [split_and!; cbn; (lia || done)|]. split; [split; [done|apply Forall_nil_2]|done].
Qed.

Lemma processSettingFrame_handled k frame p :
  may_flush p -> RawFrame.wf frame -> inv k p -> wp E (processSettingFrame frame) (handled k) p.
Proof.
  intros HE Hf Hp. unfold processSettingFrame. case_if; [by apply fail_connection_handled|].
  destruct (Z.eqb_spec (FrameHeader.payloadLength (RawFrame.header frame) mod 6) 0) as [Hl|]; cbn [negb];
    [|by apply fail_connection_handled].
  case_if.
  { case_if; [by apply fail_connection_handled|]. apply wp_ret. split; [auto with h2|done]. }
  rewrite (proj2 Hf) in Hl. destruct (settings_parse frame Hf Hl) as (l & Hparse & Hl'). wp_steps.
  eapply wp_lift; [exact Hparse|]. cbv beta. wp_step.
  eapply wp_mono; [eapply wp_keeps; [apply (applyPeerSettings_spec k); [|done]|apply (applyPeerSettings_keeps receiver_frame)]|].
  { apply (inv_assign k p (set_gotPeerSettings true)); [done|apply inv_set_gotPeerSettings, Hp|done..]. }
  intros code p' [[Hc Hp'] Hframe]. cbv beta. case_if; [by apply fail_connection_handled|]. wp_steps.
  eapply wp_mono; [apply (flush_streams_handled k); [by eapply may_flush_frame|done|apply iter_order_NoDup| |apply res_ok_empty]|].
  { intros id. by rewrite iter_order_elem. }
  intros r p2 [Hr Hp2]. apply wp_ret. split; [|done]. apply settings_ack_ok. auto with h2.
Qed.

(** ** CONTINUATION *)

Lemma continuation_on_unknown_handled k n p f :
  inv (k + n) p -> 0 <= k -> zlen (ContinuationFrame.data f) <= n ->
  wp E (continuation_on_unknown_stream f) (handled k) p.
Proof.
  intros Hp Hk Hd. pose proof (zlen_nonneg (ContinuationFrame.data f)).
  assert (Hpk : inv k p) by (eapply inv_mono; [done|lia]). pose proof (room_bound _ _ (proj1 Hpk)).
  destruct (v_ghost _ _ (proj1 Hp)) as [Hg Hgk].
  destruct (append_block k n _ _ Hg Hgk Hk Hd) as (b & Ha & _ & Hb & Hbk).
  unfold continuation_on_unknown_stream. wp_steps. eapply wp_lift; [exact Ha|]. cbv beta. wp_steps.
  set (p1 := set_ghostHeaderBlock b p). assert (Hp1 : inv k p1) by by apply inv_ghost.
  destruct (clear_ok b k) as [Hclw Hcl]; [done|done|].
  case_if; [wp_steps; apply fail_connection_handled; [by apply inv_ghost|done|done]|].
  case_if; [by apply handled_empty|]. wp_steps.
  set (p2 := set_continuationStreamId 0 _). assert (Hp2 : inv k p2) by by apply inv_expecting.
  destruct (discard_block k p2 b Hp2 Hb Hbk) as (ok & hs & hp & Hdec & Hp3).
  eapply wp_lift; [exact Hdec|]. cbv beta iota. wp_steps.
  case_if; [apply fail_connection_handled; [by apply inv_ghost|done|done]|].
  apply handled_empty. by apply inv_ghost.
Qed.

Lemma processContinuationFrame_handled k frame p :
  RawFrame.wf frame -> inv (k + zlen (RawFrame.data frame)) p -> 0 <= k ->
  wp E (processContinuationFrame frame) (handled k) p.
Proof.
  intros Hf Hp Hk. pose proof (raw_len _ Hf).
  assert (Hpk : inv k p) by (eapply inv_mono; [done|lia]).
  unfold processContinuationFrame. wp_steps. case_if; [by apply fail_connection_handled|].
  case_if; [by apply fail_connection_handled|]. wp_step. eapply wp_lift; [done|]. cbv beta. psteps.
  set (id := FrameHeader.streamId (RawFrame.header frame)). destruct (streams p !! id) as [s|] eqn:Hs.
  2:{ rewrite bool_decide_false by (intros [? ?]; done). cbn [negb].
      by eapply continuation_on_unknown_handled. }
  rewrite bool_decide_true by done. cbn [negb]. wp_step.
  eapply wp_mono; [by eapply (append_header_block_spec k)|]. intros within p' (b & _ & -> & Hso).
  set (s1 := Stream.set_pendingHeaderBlock b s) in *.
  assert (Hp1 : inv k (with_stream id s1 p)) by by eapply inv_with.
  case_if; [by apply fail_connection_handled|]. case_if; [by apply handled_empty|]. wp_steps.
  set (p2 := set_continuationStreamId 0 _). assert (Hp2 : inv k p2) by by apply inv_expecting.
  eapply (wp_update_first _ s1); [apply (with_stream_lookup id s1 p)|]. cbv beta. psteps.
  eapply complete_header_block_handled; [|apply with_stream_lookup].
  eapply inv_with; [done|apply (with_stream_lookup id s1 p)|]. destruct Hso. by constructor.
Qed.

(** ** Received bytes *)

Lemma receiveFrame_handled k frame p :
  may_flush p -> RawFrame.wf frame -> inv (k + zlen (RawFrame.data frame)) p -> 0 <= k ->
  wp E (receiveFrame frame) (handled k) p.
Proof.
  intros HE Hf Hp Hk. pose proof (raw_len _ Hf).
  assert (Hpk : inv k p) by (eapply inv_mono; [done|lia]).
  unfold receiveFrame. wp_steps. do 3 (case_if; [by apply fail_connection_handled|]).
  case_if; [by apply processDataFrame_handled|]. case_if; [by apply processHeadersFrame_handled|].
  case_if; [by apply processPriorityFrame_handled|]. case_if; [by apply processRstStreamFrame_handled|].
  case_if; [by apply processSettingFrame_handled|]. case_if; [by apply processPushPromiseFrame_handled|].
  case_if; [by apply processPingFrame_handled|]. case_if; [by apply processGoAwayFrame_handled|].
  case_if; [by apply processWindowUpdateFrame_handled|]. case_if; [by apply processContinuationFrame_handled|].
  apply wp_ret. split; [auto with h2|done].
Qed.

Lemma inv_codec k p c : inv k p -> inv k (set_frameCodec c p).
Proof. intros Hp. apply (inv_assign k p (set_frameCodec c)); [done|apply inv_set_frameCodec, Hp|done..]. Qed.

(** The bytes still in the codec count as receivable. *)
Definition buffered (p : t) : Z := zlen (FrameCodec.buffer (frameCodec p)).

Lemma receive_loop_spec k fuel p r :
  may_flush p -> (length (FrameCodec.buffer (frameCodec p)) < fuel)%nat ->
  0 <= k -> inv (k + buffered p) p -> res_ok r ->
  wp E (receive_loop fuel r) (fun r' p' => res_ok r' /\ inv (k + buffered p') p') p.
Proof.
  revert p r. induction fuel as [|fuel IH]; intros p r HE Hf Hk Hp Hr; [lia|].
  cbn [receive_loop]. wp_steps.
  destruct (FrameCodec.tryPop_spec (frameCodec p)) as [Hpop|(frame & rest & Hpop & Hwf & hd & Hhd & Hbuf & _)];
    (eapply wp_lift; [exact Hpop|]); cbv beta iota; wp_steps.
  { split; [done|]. by apply inv_codec. }
  set (p1 := set_frameCodec _ p).
  assert (Hb : buffered p = 9 + zlen (RawFrame.data frame) + zlen rest).
  { unfold buffered. rewrite Hbuf, !zlen_app. lia. }
  pose proof (zlen_nonneg rest). pose proof (zlen_nonneg (RawFrame.data frame)).
  assert (Hp1 : inv (k + zlen rest + zlen (RawFrame.data frame)) p1).
  { apply inv_codec. eapply inv_mono; [done|lia]. }
  eapply wp_mono; [eapply wp_keeps; [by apply (receiveFrame_handled (k + zlen rest)); [|..|lia]|apply receiveFrame_keeps]|].
  intros r' p' [[Hr' Hp'] Hframe]. cbv beta. wp_steps. pose proof (proj1 Hframe) as Hloc.
  apply (f_equal l_codec) in Hloc. cbn in Hloc.
  assert (Hbuf' : buffered p' = zlen rest) by (unfold buffered; by rewrite Hloc).
  case_if; [apply wp_ret; split; [by apply res_ok_merge|by rewrite Hbuf']|].
  apply IH; [by apply (may_flush_frame p1)| |done|by rewrite Hbuf'|by apply res_ok_merge].
  rewrite Hloc. rewrite Hbuf, !length_app in Hf. unfold zlen in Hhd. cbn. lia.
Qed.

Lemma receiveBytes_spec k p data :
  may_flush p -> 0 <= k -> inv (k + zlen data + buffered p) p ->
  wp E (receiveBytes data) (fun r p' => res_ok r /\ inv (k + buffered p') p') p.
Proof.
  intros HE Hk Hp. pose proof (zlen_nonneg data). unfold receiveBytes. wp_steps. case_if.
  - apply wp_ret. split; [apply res_ok_empty|]. eapply inv_mono; [done|].
    pose proof (zlen_nonneg (FrameCodec.buffer (frameCodec p))). unfold buffered in *. lia.
  - wp_steps. apply receive_loop_spec; [done|lia|done| |apply res_ok_empty].
    unfold buffered in *. cbn [frameCodec set_frameCodec]. rewrite FrameCodec.feed_buffer, zlen_app.
    apply inv_codec. eapply inv_mono; [done|].
    pose proof (zlen_nonneg (FrameCodec.buffer (frameCodec p))). lia.
Qed.

(** ** Requests *)

(** A request whose header list and body fit the 32- and 64-bit sizes. *)
Definition request_fits (r : Request.t) : Prop :=
  headerListSize (buildRequestHeaderFields r) < 2 ^ 31 /\ zlen (Request.body r) < 2 ^ 63.

Lemma headerListSize_fields hs h : h ∈ hs -> HeaderField.size h <= headerListSize hs.
Proof.
  induction hs as [|x hs IH]; intros Hin; [set_solver|]. rewrite HpackSize.headerListSize_cons.
  assert (0 <= headerListSize hs).
  { clear. induction hs as [|x hs IH]; [done|]. rewrite HpackSize.headerListSize_cons.
    pose proof (HeaderField.size_pos x). lia. }
  pose proof (HeaderField.size_pos x). apply elem_of_cons in Hin as [->|Hin]; [lia|]. specialize (IH Hin). lia.
Qed.

Lemma request_fields_ok r : request_fits r -> Forall HpackFacts.field_ok (buildRequestHeaderFields r).
Proof.
  intros [Hr _]. apply Forall_forall. intros h Hh. apply headerListSize_fields in Hh.
  unfold HpackFacts.field_ok, HeaderField.size in *.
  pose proof (zlen_nonneg (HeaderField.name h)). pose proof (zlen_nonneg (HeaderField.value h)). lia.
Qed.

Lemma new_stream_ok k p id r :
  inv_core k p -> Z.odd id = true -> request_fits r ->
  stream_ok k id (new_stream id r (initialWindowSize p)).
Proof.
  intros Hp Hodd [_ Hb]. pose proof (v_window _ _ Hp) as Hw. pose proof (room_bound _ _ Hp).
  pose proof (zlen_nonneg (Request.body r)).
  constructor; unfold new_stream; try done.
  - cbn. apply InFlow.wf_init. rewrite i32_small; unfold INT32_MAX; lia.
  - split; [apply OutFlow.add_wf; done|]. cbn. by rewrite OutFlow.add_conn.
  - split; [apply ByteBuffer.wf_empty|]. change (0 + k <= 2 ^ 31). lia.
  - cbn. lia.
  - by exists (-1).
Qed.

Lemma headers_sent_ok k id s s' :
  stream_ok k id s -> Stream.remoteEndStreamReceived s = false -> Stream.requestBodyOffset s = 0 ->
  headers_sent s s' -> stream_ok k id s'.
Proof.
  intros Hs Hr Ho [->|[Hb ->]]; [done|]. destruct Hs. constructor; try done.
  intros _. cbn. rewrite Ho. unfold Stream.hasBody in Hb. unfold Stream.bodySize. cbn.
  destruct (Z.eqb_spec (zlen (Request.body (Stream.rqst s))) 0); [done|discriminate Hb].
Qed.

(** The stream's bookkeeping after its headers are out. *)
Definition opened (s : Stream.t) : Stream.t :=
  Stream.set_streamState (if Stream.localEndStreamSent s then HALF_CLOSED_LOCAL else OPEN)
    (Stream.set_requestStarted true s).

Lemma opened_ok k id s : stream_ok k id s -> stream_ok k id (opened s).
Proof. intros []. constructor; try done. unfold opened, Stream.isClosed. cbn. by destruct (Stream.localEndStreamSent s). Qed.

Lemma submitRequest_handled k p request :
  inv k p -> request_fits request -> wp E (submitRequest request) (handled k) p.
Proof.
  intros Hp Hreq. assert (Hrefuse : forall code, wp E (ret (StepResult.push_event (responseFailed 0 code) StepResult.empty))
    (handled k) p) by (intros; apply wp_ret; split; [auto with h2|done]).
  unfold submitRequest. wp_steps. destruct (canSubmitRequests p) eqn:Hcan; cbn [negb]; [|done].
  case_if; [done|]. case_if; [done|]. case_if; [done|].
  apply orb_false_iff in Heqb1 as [_ Hnext]. rewrite Z.gtb_ltb in Hnext. apply Z.ltb_ge in Hnext.
  change (0x7fffffff - 1) with 2147483646 in Hnext. destruct (v_next _ _ (proj1 Hp)) as [Hn Hodd].
  set (id := nextStreamId p) in *. cbv zeta. wp_steps.
  assert (Hcl : closed p = false).
  { unfold canSubmitRequests in Hcan. destruct (started p), (closed p); done. }
  assert (Hid : id + 2 <= 2 ^ 31).
  { destruct (Z.eq_dec id 2147483646) as [He|]; [rewrite He in Hodd; discriminate Hodd|lia]. }
  set (p1 := set_nextStreamId (u32 (id + 2)) p).
  assert (Hp1 : inv_core k p1).
  { destruct Hp as [Hc _]. destruct Hc. constructor; try done; unfold p1; cbn; rewrite u32_small by lia.
    - intros i s Hs. destruct (v_streams _ s Hs). split; [lia|done].
    - split; [lia|]. by rewrite Z.odd_add, Hodd. }
  set (s0 := new_stream id request (initialWindowSize p1)).
  assert (Hs0 : stream_ok k id s0) by by apply new_stream_ok.
  assert (Hid1 : 1 <= id < nextStreamId p1) by (unfold p1; cbn; rewrite u32_small by lia; lia).
  change (set_streams (<[id := s0]> (streams p1)) p1) with (with_stream id s0 p1).
  destruct (HpackFacts.encode_total (buildRequestHeaderFields request) (hpack p)) as (block & hp & Henc & Hew & Hdp);
    [apply (v_enc _ _ (proj1 Hp))|by apply request_fields_ok|].
  eapply wp_lift; [exact Henc|]. cbv beta iota. wp_steps.
  change (set_hpack hp (with_stream id s0 p1)) with (with_stream id s0 (set_hpack hp p1)).
  set (p2 := set_hpack hp p1).
  assert (Hp2 : inv_core k p2).
  { apply inv_set_hpack; [done| |done]. pose proof (v_dec _ _ (proj1 Hp)) as Hd.
    unfold HpackFacts.dec_part in Hdp. injection Hdp as H1 H2 _ _. unfold HpackFacts.dec_wf. by rewrite H1, H2. }
  assert (Hlen : zlen block < 2 ^ 32).
  { apply HpackSize.encode_size in Henc. destruct Hreq as [Hr _]. lia. }
  eapply wp_mono; [eapply (emitRequestHeaders_spec E k);
    [by apply inv_core_with|apply with_stream_lookup|done|auto with h2]|].
  intros r1 p3 (Hr1 & s1 & Hsent & ->). cbv beta. rewrite with_stream_with. psteps.
  assert (Hs1 : stream_ok k id s1) by by eapply headers_sent_ok.
  apply (opened_ok k id) in Hs1. set (s2 := Stream.set_streamState _ _). change s2 with (opened s1).
  eapply wp_mono; [eapply emitPending_spec; [|apply with_stream_lookup|done]|].
  { split; [by apply inv_core_with|]. unfold with_stream, p2, p1. cbn. congruence. }
  intros r' p' (Hr' & _ & Hp' & _). apply wp_ret. split; [auto with h2|done].
Qed.
End safety.
