(* ===== verification/ProtocolOps.v ===== *)
(** * The public interface of [Http2Protocol] over whole runs

    The remaining public operations keep the invariant, so any sequence of
    operations does. *)

From S2P Require Import Prelude Outcome ByteBuffer Types Flow Frame FrameFacts FrameCodec.
From S2P Require Import FrameParse HeaderRules Hpack ProtocolEvent Stream ProtocolState.
From S2P Require Import Protocol ProtocolHandlers ProtocolInv ProtocolFrame ProtocolFacts.
From S2P Require Import ProtocolSafety.
From S2P Require HpackTableFacts HpackFacts.
Import Http2Protocol.

Section ops.
Context `{IterOrder} {E : fault -> Prop}.

(** ** Calls

    A run is what happens from the constructor to the first [reset()], which
    is not a call of a run.  [reset()] brings
    every member but [pingCounter] and [ghostHeaderBlock] to the value that it
    gives when the constructor calls it ([reset_fresh]), so that identifiers,
    windows, header tables and the flags of GOAWAY start anew; the settings the
    constructor then takes from the configuration are not taken again. *)

Lemma reset_fresh p :
  reset p = set_ghostHeaderBlock (ghostHeaderBlock p) (set_pingCounter (pingCounter p) (reset uninit)).
Proof. by destruct p. Qed.

(** A call of the public interface, but for [reset()]... *)
Inductive call : Type :=
| CStart
| CSubmit (request : Request.t)
| CReceive (data : bytes)
| CCancel (streamId errorCode : Z)
| CPing
| CClose
| CTransportClosed.

Definition call_run (c : call) : st t StepResult.t :=
  match c with
  | CStart => start
  | CSubmit request => submitRequest request
  | CReceive data => receiveBytes data
  | CCancel streamId errorCode => cancelStream streamId errorCode
  | CPing => sendPing
  | CClose => close
  | CTransportClosed => onTransportClosed
  end.

(** ... and a client's run: the step results of all the calls. *)
Fixpoint run_calls (calls : list call) : st t (list StepResult.t) :=
  match calls with
  | [] => ret []
  | c :: calls' =>
      r <- call_run c ;;
      rs <- run_calls calls' ;;
      ret (r :: rs)
  end.

(** What a step may hand to the transport. *)
Definition sent_ok (r : StepResult.t) : Prop :=
  Forall (fun b => b = HTTP2_CONNECTION_PREFACE \/ out_ok b) (StepResult.outbound r).

Definition call_ok (c : call) : Prop :=
  match c with
  | CSubmit request => request_fits request
  | CCancel _ errorCode => code_ok errorCode
  | _ => True
  end.

Definition call_bytes (c : call) : Z := match c with CReceive data => zlen data | _ => 0 end.
Definition calls_bytes (calls : list call) : Z := fold_right Z.add 0 (map call_bytes calls).

Lemma call_bytes_nonneg c : 0 <= call_bytes c.
Proof. destruct c; cbn; try lia. apply zlen_nonneg. Qed.

Lemma calls_bytes_nonneg calls : 0 <= calls_bytes calls.
Proof.
  induction calls as [|c calls IH]; [done|]. change (0 <= call_bytes c + calls_bytes calls).
  pose proof (call_bytes_nonneg c). lia.
Qed.

(** ** Construction *)

Lemma resize_decoder_wf n hp :
  0 <= n -> HpackFacts.dec_wf hp -> HpackFacts.dec_wf (Hpack.setDecodeTableLimit n hp).
Proof.
  intros Hn [Hw _]. destruct (HpackTableFacts.setMaxSize_spec n _ Hw Hn) as (Hw' & _ & Hm).
  split; [done|]. unfold Hpack.setDecodeTableLimit. cbn [Hpack.decodeTable Hpack.decodeTableLimit]. lia.
Qed.

Lemma hpack_init_wf : HpackFacts.dec_wf Hpack.init /\ HpackFacts.enc_wf Hpack.init.
Proof. split; (split; [apply HpackTableFacts.init_wf|]); [done|]. split; [done|]. split; done. Qed.

Lemma make_inv k config : ClientConfig.wf config -> 0 <= k <= 2 ^ 31 -> inv k (make config).
Proof.
  intros (Hconc & Hwin & Hframe & Hlist & Htable) Hk.
  destruct hpack_init_wf as [Hdec Henc].
  assert (Hreset : HpackFacts.dec_wf (hpack (reset uninit)) /\ HpackFacts.enc_wf (hpack (reset uninit))).
  { apply resize_wf; [done| |done]. by apply resize_decoder_wf. }
  destruct Hreset as [Hd He].
  assert (Hhp : hpack (make config) = Hpack.setDecodeTableLimit (ClientConfig.headerTableSize config) (hpack (reset uninit)))
    by reflexivity.
  split; [|done]. constructor.
  - lia.
  - intros id s Hs. change (streams (make config)) with (∅ : gmap Z Stream.t) in Hs. by rewrite lookup_empty in Hs.
  - done.
  - done.
  - done.
  - done.
  - done.
  - done.
  - change (InFlow.wf (InFlow.init (i32 (ClientConfig.initialWindowSize config)) InFlow.init_zero)).
    apply InFlow.wf_init. rewrite i32_small; unfold INT32_MAX; lia.
  - done.
  - rewrite Hhp. apply resize_decoder_wf; [lia|done].
  - rewrite Hhp. done.
  - split; [apply ByteBuffer.wf_empty|]. change (0 + k <= 2 ^ 31). lia.
Qed.

(** ** The other operations *)

Lemma local_settings_wf k p : inv_core k p -> frame_wf (FSettings (buildLocalSettingsFrame p)).
Proof.
  intros Hp. destruct (v_limits _ _ Hp) as (? & ? & ? & ?). pose proof (v_window _ _ Hp). pose proof (v_push _ _ Hp) as Hpush.
  unfold buildLocalSettingsFrame. set (l := _ ++ _).
  assert (Hl : settings_wf l /\ 0 <= zlen l <= 6).
  { unfold l. rewrite Hpush. case_if; (split; [|done]); repeat apply Forall_cons_2; try apply Forall_nil_2;
      cbn [fst snd]; (split; [done|lia]). }
  destruct Hl as [Hwf Hl]. clearbody l. split; [|split].
  - unfold FrameHeader.wf. cbn. rewrite u32_small by lia. split_and!; (lia || done).
  - split; [done|exact Hwf].
  - cbn [frame_header frame_toBytes SettingFrame.header FrameHeader.payloadLength]. unfold SettingFrame.toBytes.
    cbn [SettingFrame.header SettingFrame.settings].
    rewrite zlen_app, zlen_header_encode, zlen_encode_settings, u32_small by lia. lia.
Qed.

Lemma start_spec k p :
  inv k p ->
  wp E start (fun r p' => inv k p' /\ (StepResult.outbound r = [] \/
     StepResult.outbound r = [HTTP2_CONNECTION_PREFACE; SettingFrame.toBytes (buildLocalSettingsFrame p)])) p.
Proof.
  intros Hp. unfold start. wp_steps. case_if; [apply wp_ret; split; [done|by left]|]. wp_steps.
  split; [|by right]. destruct Hp as [Hc He]. split; [|done].
  by apply inv_set_started, inv_set_sentLocalSettings, inv_set_sentConnectionPreface.
Qed.

Lemma cancelStream_handled k p id code :
  inv k p -> code_ok code -> wp E (cancelStream id code) (handled k) p.
Proof. intros Hp Hc. unfold cancelStream. wp_steps. case_if; [by apply handled_empty|by apply fail_stream_handled]. Qed.

Lemma sendPing_handled k p : inv k p -> wp E sendPing (handled k) p.
Proof.
  intros Hp. unfold sendPing. wp_steps. case_if; [by apply handled_empty|]. wp_steps. split.
  - apply (res_ok_outbound (FPing (PingFrame.mk (FrameHeader.mk 8 FrameType.PING 0 0) _))); [apply res_ok_empty|].
    by apply ping_frame_wf; [apply zlen_be_write|].
  - apply (inv_assign k p (set_pingCounter _)); [done|apply inv_set_pingCounter, Hp|done..].
Qed.

(** Closing: every stream has been failed. *)
Lemma close_all k p code r :
  inv_core k p -> code_ok code -> res_ok r ->
  wp E (failAllStreams code r) (fun r' p' => res_ok r' /\ inv k p') p.
Proof.
  intros Hp Hc Hr. eapply wp_mono; [by apply (failAllStreams_spec E k)|].
  intros r' p' (? & _ & Hp' & g & ->). done.
Qed.

Lemma close_handled k p : inv k p -> wp E close (handled k) p.
Proof.
  intros Hp. unfold close. wp_steps. case_if; [by apply handled_empty|]. wp_steps.
  eapply wp_mono with (Q := fun r p' => res_ok r /\ inv_core k p').
  { case_if; [|apply wp_ret; split; [apply res_ok_empty|apply Hp]].
    eapply wp_mono; [apply (append_goaway_spec E k); [apply Hp|done|done|apply res_ok_empty]|].
    intros r p' (? & -> & _). split; [done|]. apply inv_set_sentGoaway, Hp. }
  intros r p' [Hr Hp']. wp_steps. eapply wp_mono; [by apply (failAllStreams_spec E k)|].
  intros r2 p2 (Hr2 & _ & Hp2 & g & ->). wp_steps. split; [auto with h2|]. split; [by apply inv_set_closed|done].
Qed.

Lemma onTransportClosed_handled k p : inv k p -> wp E onTransportClosed (handled k) p.
Proof.
  intros Hp. unfold onTransportClosed. wp_steps.
  eapply wp_mono with (Q := fun r p' => res_ok r /\ inv_core k p' /\ streams p' = ∅).
  { destruct (closed p) eqn:Hcl; cbn [negb closed set_transportClosed_].
    - rewrite Hcl. apply wp_ret. split; [apply res_ok_empty|]. split; [apply inv_set_transportClosed, Hp|].
      by apply (proj2 Hp).
    - rewrite Hcl. eapply wp_mono; [apply (failAllStreams_spec E k); [apply inv_set_transportClosed, Hp|done|apply res_ok_empty]|].
      intros r p' (? & _ & ? & g & ->). done. }
  intros r p' (Hr & Hp' & Hemp). wp_steps. split; [auto with h2|]. split; [by apply inv_set_closed|done].
Qed.

(** ** Runs *)

Definition step_ok (k : Z) (r : StepResult.t) (p : t) : Prop :=
  sent_ok r /\ inv (k + buffered p) p.

Lemma handled_step k m p :
  wp E m (handled (k + buffered p)) p -> keeps same_codec m -> wp E m (step_ok k) p.
Proof.
  intros Hm Hk. eapply wp_mono; [by eapply wp_keeps|]. intros r p' [[Hr Hp'] Hc]. split.
  - eapply Forall_impl; [exact Hr|]. intros b Hb. by right.
  - unfold buffered in *. by rewrite Hc.
Qed.

(** What makes a run free of the fault of the SETTINGS loop. *)
Definition sends_no_body (c : call) : Prop :=
  match c with CSubmit request => Request.body request = [] | _ => True end.
Definition may_flush_call (c : call) : Prop := E erased_in_loop \/ sends_no_body c.

Lemma call_bodyless c : sends_no_body c -> keeps stays_bodyless (call_run c).
Proof.
  destruct (other_calls_keep 0 0 stays_bodyless (or_intror (or_introl eq_refl))) as (? & _ & ? & ? & ?).
  destruct c as [|r|d|id code| | |]; cbn [call_run sends_no_body]; intros Hc; try done.
  - by apply submitRequest_bodyless.
  - apply receiveBytes_bodyless.
  - apply (other_calls_keep id code stays_bodyless (or_intror (or_introl eq_refl))).
Qed.

Lemma call_keeps R c :
  R = same_codec \/ R = block_kept \/ R = stays_closed \/ R = stays_shut ->
  (forall data, c <> CReceive data) -> keeps R (call_run c).
Proof.
  intros HR Hc. pose proof (fun request id code => local_calls_keep request id code R HR) as Hk.
  pose proof (Hk Request.init 0 0) as (? & _ & _ & ? & ? & ?).
  destruct c as [|request|data|id code| | |]; cbn [call_run]; try done.
  - apply (Hk request 0 0).
  - by destruct (Hc data).
  - apply (Hk Request.init id code).
Qed.

Lemma call_step k n c p :
  may_flush (E := E) p -> call_ok c -> n = call_bytes c -> 0 <= k ->
  inv (k + n + buffered p) p -> wp E (call_run c) (step_ok k) p.
Proof.
  intros HE Hc Hn Hk Hp. pose proof (zlen_nonneg (FrameCodec.buffer (frameCodec p))) as Hb.
  fold (buffered p) in Hb. pose proof (call_bytes_nonneg c).
  assert (Hpk : inv (k + buffered p) p) by (eapply inv_mono; [done|lia]).
  pose proof (call_keeps same_codec c (or_introl eq_refl)) as Hcodec.
  destruct c as [|r|d|id code| | |]; cbn [call_run] in *.
  - eapply wp_mono; [eapply wp_keeps; [by apply start_spec|by apply Hcodec]|].
    intros r p' [[Hp' Hout] Hc']. split; [|unfold buffered in *; by rewrite Hc'].
    unfold sent_ok. destruct Hout as [->| ->]; [constructor|]. repeat apply Forall_cons_2; [by left| |apply Forall_nil_2].
    right. exists (FSettings (buildLocalSettingsFrame p)). split; [by eapply local_settings_wf, Hpk|done].
  - apply handled_step; [by apply submitRequest_handled|by apply Hcodec].
  - eapply wp_mono; [apply (receiveBytes_spec k); [done|done|]|].
    + cbn in Hn. by rewrite <- Hn.
    + intros r p' [Hr Hp']. split; [|done]. eapply Forall_impl; [exact Hr|]. intros b Hb'. by right.
  - apply handled_step; [by apply cancelStream_handled|by apply Hcodec].
  - apply handled_step; [by apply sendPing_handled|by apply Hcodec].
  - apply handled_step; [by apply close_handled|by apply Hcodec].
  - apply handled_step; [by apply onTransportClosed_handled|by apply Hcodec].
Qed.

Lemma call_step_flush k n c p :
  may_flush (E := E) p -> may_flush_call c -> call_ok c -> n = call_bytes c -> 0 <= k ->
  inv (k + n + buffered p) p -> wp E (call_run c) (fun r p' => step_ok k r p' /\ may_flush (E := E) p') p.
Proof.
  intros HE Hfc Hc Hn Hk Hp. assert (Hs : wp E (call_run c) (step_ok k) p) by by eapply call_step.
  destruct HE as [HE|Hb]; [eapply wp_mono; [done|]; split; [done|by left]|].
  destruct Hfc as [HE|Hfc]; [eapply wp_mono; [done|]; split; [done|by left]|].
  eapply wp_mono; [by eapply wp_keeps, call_bodyless|]. intros r p' [? Hk']. split; [done|right; auto].
Qed.

Lemma run_calls_spec k calls p :
  may_flush (E := E) p -> Forall may_flush_call calls -> Forall call_ok calls -> 0 <= k ->
  inv (k + calls_bytes calls + buffered p) p ->
  wp E (run_calls calls) (fun rs p' => Forall sent_ok rs /\ inv (k + buffered p') p') p.
Proof.
  intros HE Hflush Hcalls Hk. revert p HE Hflush.
  induction Hcalls as [|c calls Hc Hcalls IH]; intros p HE Hflush Hp; cbn [run_calls].
  - apply wp_ret. cbn in Hp. rewrite Z.add_0_r in Hp. done.
  - pose proof (call_bytes_nonneg c). pose proof (calls_bytes_nonneg calls).
    change (calls_bytes (c :: calls)) with (call_bytes c + calls_bytes calls) in Hp. wp_step.
    apply Forall_cons in Hflush as [Hfc Hflush].
    eapply wp_mono; [apply (call_step_flush (k + calls_bytes calls) (call_bytes c)); [done|done|done|done|lia|]|].
    { eapply inv_mono; [done|]. pose proof (zlen_nonneg (FrameCodec.buffer (frameCodec p))) as Hb.
      unfold buffered in *. lia. }
    intros r p' [[Hr Hp'] HE']. cbv beta. wp_step. eapply wp_mono; [by apply IH|].
    intros rs p2 [Hrs Hp2]. apply wp_ret. split; [by apply Forall_cons_2|done].
Qed.
End ops.

Lemma make_bodyless config : bodyless (make config).
Proof.
  intros id r Hr. unfold requests in Hr. rewrite lookup_fmap in Hr.
  change (streams (make config)) with (∅ : gmap Z Stream.t) in Hr. by rewrite lookup_empty in Hr.
Qed.

Lemma run_from_make `{IterOrder} (E : fault -> Prop) config calls :
  ClientConfig.wf config -> Forall call_ok calls -> calls_bytes calls <= 2 ^ 31 ->
  may_flush (E := E) (make config) -> Forall (may_flush_call (E := E)) calls ->
  match run_calls calls (make config) with
  | Ok (rs, p) => Forall sent_ok rs /\ inv 0 p
  | Fault f => E f
  end.
Proof.
  intros Hconf Hcalls Hb Hf Hfc. assert (Hnn : 0 <= calls_bytes calls) by apply calls_bytes_nonneg.
  pose proof (run_calls_spec 0 calls (make config) Hf Hfc Hcalls ltac:(lia)) as Hrun. unfold wp in Hrun.
  assert (Hinv : inv (0 + calls_bytes calls + buffered (make config)) (make config)).
  { apply make_inv; [done|]. change (buffered (make config)) with 0. lia. }
  specialize (Hrun Hinv). destruct (run_calls calls (make config)) as [[out p]|f]; [|done].
  destruct Hrun as [Hout Hp]. split; [done|]. eapply inv_mono; [done|].
  pose proof (zlen_nonneg (FrameCodec.buffer (frameCodec p))). unfold buffered in *. lia.
Qed.

(** ** Properties *)

(** C1: a client is safe against every peer.  For any configuration, any
    sequence of calls (requests whose sizes fit the machine integers, up to
    2 GiB of received bytes, cut into reads anywhere) and any iteration order
    of the stream table, no call throws, overflows, reads or writes out of
    bounds, follows a dangling stream pointer or loops for ever - with the
    single exception of the SETTINGS loop ([settings_loop_undefined]) - and
    every buffer handed to the transport is the connection preface or exactly
    one frame that a receiver can parse; the invariant holds at the end. *)
Theorem protocol_safe `{IterOrder} config calls :
  ClientConfig.wf config -> Forall call_ok calls -> calls_bytes calls <= 2 ^ 31 ->
  match run_calls calls (make config) with
  | Ok (rs, p) => Forall sent_ok rs /\ inv 0 p
  | Fault f => f = erased_in_loop
  end.
Proof.
  intros Hconf Hcalls Hb.
  pose proof (run_from_make (fun f => f = erased_in_loop) config calls Hconf Hcalls Hb) as Hrun.
  apply Hrun; [by left|]. apply Forall_true. by left.
Qed.

Definition example_request (body : bytes) : Request.t :=
  Request.setHeader (bs ":method") (bs "GET")
    (Request.setHeader (bs ":scheme") (bs "https")
      (Request.setHeader (bs ":path") (bs "/") (Request.mk [] body))).

Definition example_calls : list call :=
  [CStart; CReceive (SettingFrame.toBytes (SettingFrame.mk (FrameHeader.mk 6 FrameType.SETTINGS 0 0) [(4, 70000)]));
   CSubmit (example_request []); CPing; CReceive [x00; x00; xff]; CCancel 1 ErrorCode.CANCEL; CClose].

Lemma example_calls_ok : Forall call_ok example_calls /\ calls_bytes example_calls <= 2 ^ 31.
Proof. split; [|vm_compute; discriminate]. repeat (apply Forall_cons_2; [vm_compute; done|]). apply Forall_nil_2. Qed.

Lemma protocol_safe_witness :
  match run_calls example_calls (make ClientConfig.default) with
  | Ok (rs, p) => Forall sent_ok rs /\ inv 0 p
  | Fault f => f = erased_in_loop
  end.
Proof.
  apply (protocol_safe ClientConfig.default example_calls);
    [vm_compute; repeat split; discriminate|apply example_calls_ok..].
Defined.

(** C2: for a client whose requests have no body the exception disappears:
    every run, against every peer, returns. *)
Theorem protocol_safe_without_bodies `{IterOrder} config calls :
  ClientConfig.wf config -> Forall call_ok calls -> Forall sends_no_body calls ->
  calls_bytes calls <= 2 ^ 31 ->
  exists rs p, run_calls calls (make config) = Ok (rs, p) /\ Forall sent_ok rs /\ inv 0 p.
Proof.
  intros Hconf Hcalls Hnb Hb.
  assert (Hrun : match run_calls calls (make config) with
    | Ok (rs, p) => Forall sent_ok rs /\ inv 0 p
    | Fault f => no_fault f
    end).
  { apply run_from_make; [done..|right; apply make_bodyless|].
    eapply Forall_impl; [exact Hnb|]. intros c Hc. by right. }
  destruct (run_calls calls (make config)) as [[out p]|f]; [eauto|done].
Qed.

Lemma protocol_safe_without_bodies_witness :
  exists rs p, run_calls example_calls (make ClientConfig.default) = Ok (rs, p) /\
    Forall sent_ok rs /\ inv 0 p.
Proof.
  apply (protocol_safe_without_bodies ClientConfig.default example_calls);
    [vm_compute; repeat split; discriminate|apply example_calls_ok| |apply example_calls_ok].
  repeat (apply Forall_cons_2; [vm_compute; done|]). apply Forall_nil_2.
Defined.
