(* ===== verification/ProtocolBlind.v ===== *)
(** * Received bytes do not depend on how the transport cuts them

    No frame handler looks at the codec's buffer: a computation is [blind]
    when it commutes with replacing the codec.  The reception loop is then
    the codec's loop followed by the handlers, and two reads amount to one
    read of their concatenation. *)

From S2P Require Import Prelude Outcome ByteBuffer Types Flow Frame FrameCodec HeaderRules.
From S2P Require Import Hpack ProtocolEvent Stream ProtocolState Protocol ProtocolHandlers.
From S2P Require Import ProtocolFrame.
Import Http2Protocol.

(** ** Computations that ignore the codec *)

(** The same outcome, with the codec replaced. *)
Definition recodec {A} (c : FrameCodec.t) (o : outcome (A * t)) : outcome (A * t) :=
  match o with Ok (a, p) => Ok (a, set_frameCodec c p) | Fault f => Fault f end.

Definition blind {A} (m : st t A) : Prop := forall c p, m (set_frameCodec c p) = recodec c (m p).

Lemma set_frameCodec_twice c c' p : set_frameCodec c (set_frameCodec c' p) = set_frameCodec c p.
Proof. done. Qed.

Lemma set_frameCodec_self p : set_frameCodec (frameCodec p) p = p.
Proof. by destruct p. Qed.

Lemma blind_ret {A} (a : A) : blind (ret a).
Proof. done. Qed.
Lemma blind_gets {A} (f : t -> A) : (forall c p, f (set_frameCodec c p) = f p) -> blind (gets f).
Proof. intros Hf c p. unfold gets. by rewrite Hf. Qed.
Lemma blind_modify f : (forall c p, f (set_frameCodec c p) = set_frameCodec c (f p)) -> blind (modify f).
Proof. intros Hf c p. unfold modify. by rewrite Hf. Qed.
Lemma blind_lift {A} (m : outcome A) : blind (lift m).
Proof. intros c p. unfold lift. by destruct m. Qed.
Lemma blind_fail {A} f : blind (@fail_with t A f).
Proof. done. Qed.
Lemma blind_deref id : blind (deref id).
Proof. intros c p. unfold deref. cbn. by destruct (streams p !! id). Qed.
Lemma blind_update id f : blind (update id f).
Proof. intros c p. unfold update. cbn. by destruct (streams p !! id). Qed.
Lemma blind_contains id : blind (contains id).
Proof. done. Qed.
Lemma blind_erase id : blind (erase id).
Proof. done. Qed.

Lemma blind_bind {A B} (m : st t A) (k : A -> st t B) :
  blind m -> (forall a, blind (k a)) -> blind (bind m k).
Proof.
  intros Hm Hk c p. unfold bind. rewrite Hm. destruct (m p) as [[a p']|f]; [|done]. cbn. apply Hk.
Qed.

(** The state may be read, as long as the continuation does not use its codec. *)
Lemma blind_get {A} (k : t -> st t A) :
  (forall c p, k (set_frameCodec c p) = k p) -> (forall p, blind (k p)) -> blind (bind get k).
Proof. intros Hk Hb c p. unfold bind, get. rewrite Hk. apply Hb. Qed.

Create HintDb blind discriminated.

Ltac blind_step :=
  lazymatch goal with
  | |- blind (bind get _) => apply blind_get; [intros ? ?; reflexivity|intros ?]
  | |- blind (bind _ _) => apply blind_bind; [|intros ?]
  | |- blind (ret _) => apply blind_ret
  | |- blind (gets _) => apply blind_gets; intros ? ?; reflexivity
  | |- blind (modify _) => apply blind_modify; intros ? ?; reflexivity
  | |- blind (lift _) => apply blind_lift
  | |- blind (fail_with _) => apply blind_fail
  | |- blind (deref _) => apply blind_deref
  | |- blind (update _ _) => apply blind_update
  | |- blind (contains _) => apply blind_contains
  | |- blind (erase _) => apply blind_erase
  | |- blind (match ?x with _ => _ end) => destruct x
  | |- blind _ => solve [auto with blind]
  end.
Ltac blind := cbv zeta; repeat (blind_step; cbv beta zeta).

Section blind.
Context `{IterOrder}.

Lemma failStream_blind id code rst : blind (failStream id code rst).
Proof. unfold failStream. blind. Qed.
Hint Resolve failStream_blind : blind.

Lemma fail_each_blind ids code r : blind (fail_each ids code r).
Proof. revert r. induction ids; intros r; cbn [fail_each]; blind. Qed.
Hint Resolve fail_each_blind : blind.

Lemma failConnection_blind code debug : blind (failConnection code debug).
Proof. unfold failConnection, failAllStreams, append_goaway. blind. Qed.
Hint Resolve failConnection_blind : blind.

Lemma body_loop_blind fuel id r : blind (body_loop fuel id r).
Proof. revert r. induction fuel; intros r; cbn [body_loop]; blind. Qed.
Hint Resolve body_loop_blind : blind.

Lemma emitPending_blind id r : blind (emitPendingRequestBody id r).
Proof. unfold emitPendingRequestBody. blind. Qed.
Hint Resolve emitPending_blind : blind.

Lemma finalize_blind id r : blind (finalizeRemoteStream id r).
Proof. unfold finalizeRemoteStream. blind. Qed.
Hint Resolve finalize_blind : blind.

Lemma complete_header_block_blind id endStream : blind (complete_header_block id endStream).
Proof. unfold complete_header_block, decodeResponseHeaders, store_headers, handleHeaderBlockError. blind. Qed.
Hint Resolve complete_header_block_blind : blind.

Lemma append_header_block_blind id d : blind (append_header_block id d).
Proof. unfold append_header_block. blind. Qed.
Hint Resolve append_header_block_blind : blind.

Lemma add_outflows_blind ids delta : blind (add_outflows ids delta).
Proof. induction ids; cbn [add_outflows]; blind. Qed.
Hint Resolve add_outflows_blind : blind.

Lemma applyPeerSettings_blind l : blind (applyPeerSettings l).
Proof. induction l; cbn [applyPeerSettings]; unfold applyPeerSetting; blind. Qed.
Hint Resolve applyPeerSettings_blind : blind.

Lemma flush_streams_blind ids r : blind (flush_streams ids r).
Proof. revert r. induction ids; intros r; cbn [flush_streams]; blind. Qed.
Lemma flush_pending_blind ids r : blind (flush_pending ids r).
Proof. revert r. induction ids; intros r; cbn [flush_pending]; blind. Qed.
Hint Resolve flush_streams_blind flush_pending_blind : blind.

Lemma refresh_connection_blind n r : blind (refresh_connection n r).
Proof. unfold refresh_connection. blind. Qed.
Hint Resolve refresh_connection_blind : blind.

Lemma processDataFrame_blind frame : blind (processDataFrame frame).
Proof. unfold processDataFrame, processDataOnUnknownStream, accept_data. blind. Qed.
Lemma processHeadersFrame_blind frame : blind (processHeadersFrame frame).
Proof. unfold processHeadersFrame, headers_on_unknown_stream, headers_on_stream. blind. Qed.
Lemma processSettingFrame_blind frame : blind (processSettingFrame frame).
Proof. unfold processSettingFrame. blind. Qed.
Lemma processWindowUpdateFrame_blind frame : blind (processWindowUpdateFrame frame).
Proof. unfold processWindowUpdateFrame. blind. Qed.
Lemma processContinuationFrame_blind frame : blind (processContinuationFrame frame).
Proof. unfold processContinuationFrame, continuation_on_unknown_stream. blind. Qed.
Hint Resolve processDataFrame_blind processHeadersFrame_blind processSettingFrame_blind
  processWindowUpdateFrame_blind processContinuationFrame_blind : blind.

Lemma receiveFrame_blind frame : blind (receiveFrame frame).
Proof.
  unfold receiveFrame, processPriorityFrame, processRstStreamFrame, processPushPromiseFrame,
    processPingFrame, processGoAwayFrame. blind.
Qed.
Hint Resolve receiveFrame_blind : blind.

(** ** The reception loop as a fold over frames *)

(** The handlers run over frames already cut; a frame that closes the
    connection is the last one. *)
Fixpoint receive_frames (frames : list RawFrame.t) (result : StepResult.t) : st t StepResult.t :=
  match frames with
  | [] => ret result
  | frame :: frames' =>
      r <- receiveFrame frame ;;
      p <- get ;;
      if closed p then ret (StepResult.mergeStepResult result r)
      else receive_frames frames' (StepResult.mergeStepResult result r)
  end.

Lemma receive_frames_blind frames r : blind (receive_frames frames r).
Proof. revert r. induction frames; intros r; cbn [receive_frames]; blind. Qed.

Lemma receive_frames_app fs gs r p :
  closed p = false ->
  receive_frames (fs ++ gs) r p =
    (r' <- receive_frames fs r ;; q <- get ;; if closed q then ret r' else receive_frames gs r') p.
Proof.
  revert r p. induction fs as [|f fs IH]; intros r p Hp; cbn [receive_frames app].
  - unfold bind, ret, get. by rewrite Hp.
  - unfold bind, get, ret. destruct (receiveFrame f p) as [[a q]|]; [|done].
    destruct (closed q) eqn:Hq; [by rewrite Hq|]. rewrite IH by done. done.
Qed.

Lemma receive_frames_merge fs r p :
  receive_frames fs r p =
    (r' <- receive_frames fs StepResult.empty ;; ret (StepResult.mergeStepResult r r')) p.
Proof.
  revert r p. induction fs as [|f fs IH]; intros r p; cbn [receive_frames].
  - unfold bind, ret. by rewrite StepResult.merge_empty_r.
  - unfold bind, get, ret in *. destruct (receiveFrame f p) as [[a q]|]; [|done].
    destruct (closed q); [|].
    + by rewrite <- StepResult.merge_assoc, StepResult.merge_empty_r.
    + rewrite (IH (StepResult.mergeStepResult r a)), (IH (StepResult.mergeStepResult StepResult.empty a)).
      destruct (receive_frames fs StepResult.empty q) as [[b q']|]; [|done].
      by rewrite <- !StepResult.merge_assoc, StepResult.merge_empty_r.
Qed.

(** [receive_loop] is the codec's loop followed by the handlers.  When a
    frame closes the connection the bytes after it stay in the codec. *)
Lemma receive_loop_frames fuel r c c' fs p :
  FrameCodec.drain fuel c = Ok (fs, c') ->
  exists c'', receive_loop fuel r (set_frameCodec c p) = recodec c'' (receive_frames fs r p) /\
    forall r' q, receive_frames fs r p = Ok (r', q) -> c'' = c' \/ closed q = true.
Proof.
  revert r c fs p. induction fuel as [|fuel IH]; intros r c fs p Hd; [done|].
  cbn [FrameCodec.drain receive_loop] in *. unfold bind, get, lift, modify.
  change (frameCodec (set_frameCodec c p)) with c.
  destruct (FrameCodec.tryPop c) as [[[f|] c1]|]; cbn [obind] in Hd; [| |done].
  - destruct (FrameCodec.drain fuel c1) as [[gs c2]|] eqn:Hd1; [|done]. cbn [obind] in Hd. simplify_eq.
    rewrite set_frameCodec_twice, receiveFrame_blind. cbn [receive_frames]. unfold bind, get, ret.
    destruct (receiveFrame f p) as [[a q]|]; cbn [recodec]; [|by exists c1].
    change (closed (set_frameCodec c1 q)) with (closed q).
    destruct (closed q) eqn:Hq; [|by apply IH].
    exists c1. split; [done|]. intros r' q' [= _ <-]. by right.
  - simplify_eq. exists c'. split; [done|]. auto.
Qed.

Lemma receiveBytes_frames x p fs c' :
  closed p = false -> transportClosed_ p = false ->
  FrameCodec.drain_all (FrameCodec.feed x (frameCodec p)) = Ok (fs, c') ->
  exists c'', receiveBytes x p = recodec c'' (receive_frames fs StepResult.empty p) /\
    forall r' q, receive_frames fs StepResult.empty p = Ok (r', q) -> c'' = c' \/ closed q = true.
Proof.
  intros Hc Ht Hd. unfold receiveBytes, bind, get, gets, modify. rewrite Hc, Ht. cbn [orb].
  apply receive_loop_frames. exact Hd.
Qed.

Lemma receiveBytes_closed x p :
  closed p = true \/ transportClosed_ p = true -> receiveBytes x p = Ok (StepResult.empty, p).
Proof.
  intros Hp. unfold receiveBytes, bind, get. replace (closed p || transportClosed_ p) with true; [done|].
  symmetry. apply orb_true_iff. done.
Qed.

(** Frames do not touch the transport's flag. *)
Lemma receive_frames_transport fs r p r' q :
  receive_frames fs r p = Ok (r', q) -> transportClosed_ q = transportClosed_ p.
Proof.
  assert (Hk : keeps receiver_frame (receive_frames fs r)).
  { revert r. induction fs as [|f fs IH]; intros r; cbn [receive_frames].
    - apply keeps_ret, _.
    - apply keeps_bind; [apply _|apply receiveFrame_keeps|intros a].
      apply keeps_bind; [apply _|apply keeps_get, _|intros s]. case_if; [apply keeps_ret, _|apply IH]. }
  intros Hrun. destruct (Hk _ _ _ Hrun) as [Hl _]. by apply (f_equal l_transportClosed) in Hl.
Qed.
End blind.

(** ** Two reads are one read *)

(** Equal states, the codec apart. *)
Definition same_but_codec (p q : t) : Prop :=
  set_frameCodec FrameCodec.init p = set_frameCodec FrameCodec.init q.

#[export] Instance same_but_codec_equiv : Equivalence same_but_codec.
Proof. unfold same_but_codec. split; [by intros p|by intros p q|by intros p q s -> ->]. Qed.

#[export] Instance set_frameCodec_proper c : Proper (same_but_codec ==> eq) (set_frameCodec c).
Proof. intros p q Hpq. apply (f_equal (set_frameCodec c)) in Hpq. by rewrite !set_frameCodec_twice in Hpq. Qed.

Lemma same_but_codec_set c p : same_but_codec (set_frameCodec c p) p.
Proof. done. Qed.

(** C12: the protocol does not depend on how the transport cuts the stream:
    receiving [x] and then [y] gives the step result (same buffers to send,
    same events, same order) of receiving [x ++ y] at once, and the same
    state; only the bytes left in the codec of a connection that has just
    been closed may differ. *)
Theorem receiveBytes_segmentation `{IterOrder} x y p :
  match (r1 <- receiveBytes x ;; r2 <- receiveBytes y ;; ret (StepResult.mergeStepResult r1 r2)) p,
        receiveBytes (x ++ y) p with
  | Ok (r, q), Ok (r', q') => r = r' /\ same_but_codec q q' /\ (closed q = false -> q = q')
  | Fault f, Fault f' => f = f'
  | _, _ => False
  end.
Proof.
  unfold bind, ret.
  destruct (closed p || transportClosed_ p) eqn:Hp.
  { apply orb_true_iff in Hp. rewrite (receiveBytes_closed x p Hp), !receiveBytes_closed by done. done. }
  apply orb_false_iff in Hp as [Hc Ht].
  destruct (FrameCodec.drain_twice x y (frameCodec p)) as (fs & gs & c1 & c2 & Hx & Hy & Hxy).
  destruct (receiveBytes_frames x p fs c1 Hc Ht Hx) as (d1 & -> & Hd1).
  destruct (receiveBytes_frames (x ++ y) p (fs ++ gs) c2 Hc Ht Hxy) as (d2 & -> & Hd2).
  rewrite receive_frames_app in * by done. unfold bind, get, ret in *.
  destruct (receive_frames fs StepResult.empty p) as [[r1 q]|f] eqn:Hrun; [|done]. cbn [recodec] in *.
  destruct (closed q) eqn:Hq.
  { rewrite receiveBytes_closed by (by left). rewrite StepResult.merge_empty_r. split; [done|]. split; [done|].
    change (closed (set_frameCodec d1 q)) with (closed q). congruence. }
  destruct (Hd1 _ _ eq_refl) as [->|]; [|congruence].
  pose proof (receive_frames_transport _ _ _ _ _ Hrun) as Htq.
  destruct (receiveBytes_frames y (set_frameCodec c1 q) gs c2) as (d3 & -> & Hd3); [done|cbn; congruence|done|].
  rewrite receive_frames_blind. rewrite (receive_frames_merge gs r1) in Hd2 |- *. unfold bind, ret in *.
  rewrite receive_frames_blind in Hd3.
  destruct (receive_frames gs StepResult.empty q) as [[r2 q2]|f]; [|done]. cbn [recodec] in *.
  split; [done|]. split; [done|]. change (closed q2 = false -> set_frameCodec d3 q2 = set_frameCodec d2 q2).
  intros Hq2. destruct (Hd2 _ _ eq_refl) as [->|?]; [|congruence].
  destruct (Hd3 _ _ eq_refl) as [->|Hq3]; [done|]. change (closed q2 = true) in Hq3. congruence.
Qed.
