(* ===== verification/ProtocolLedger.v ===== *)
(** * The ledger of streams, events and frames

    What a step reports and sends must agree with what it did to the table of
    streams.  A [Ledger] is a relation between (state, result so far) pairs
    that the code's few ways of failing, completing and closing a stream
    respect; the handlers are walked through once, for every such relation.
    A [DataLedger] does not look at DATA, and is kept by the handlers that send
    it; an [OpenLedger] does not look at what is sent but for GOAWAY, nor at the
    header encoder, and is kept by all handlers that make the client send; a
    [ResponseLedger] does not look at what is received, and is kept by those
    that receive a response.  [ProtocolRuns.v] has four ledgers of both kinds,
    [ProtocolSends.v] the ledgers of what is sent, [ProtocolReceives.v] the
    ledger of what is received. *)

From S2P Require Import Prelude Outcome ByteBuffer Types Flow Frame FrameCodec HeaderRules.
From S2P Require Import Hpack HpackFacts ProtocolEvent Stream ProtocolState Protocol ProtocolHandlers.
From S2P Require Import ProtocolInv ProtocolFacts.
Import Http2Protocol.

(** Events that say nothing about the table of streams or GOAWAY... *)
Definition plain_event (e : ProtocolEvent) : bool :=
  match e with
  | streamOpened _ | streamClosed _ _ | responseCompleted _ _ | responseFailed _ _
  | goAwaySent _ _ _ => false
  | _ => true
  end.
(** ... or about credit for DATA. *)
Definition quiet_event (e : ProtocolEvent) : bool :=
  match e with windowUpdateReceived _ _ => false | _ => plain_event e end.

(** Buffers that carry a part of a request, a GOAWAY, the acknowledgement of
    SETTINGS, or none of them. *)
Definition buffer_type (b : bytes) : option Z := b2z <$> b !! 3%nat.
Definition request_buffer (b : bytes) : bool :=
  match buffer_type b with
  | Some ty => (ty =? FrameType.DATA) || (ty =? FrameType.HEADERS) || (ty =? FrameType.CONTINUATION)
  | None => false
  end.
Definition goaway_buffer (b : bytes) : bool :=
  match buffer_type b with Some ty => ty =? FrameType.GOAWAY | None => false end.
Definition header_buffer (b : bytes) : bool :=
  match buffer_type b with Some ty => (ty =? FrameType.HEADERS) || (ty =? FrameType.CONTINUATION) | None => false end.
Definition ack_buffer (b : bytes) : bool :=
  match buffer_type b, b2z <$> b !! 4%nat with
  | Some ty, Some flags => (ty =? FrameType.SETTINGS) && Z.testbit flags 0
  | _, _ => false
  end.
(** Neither a header block nor an acknowledgement. *)
Definition calm_buffer (b : bytes) : bool := negb (header_buffer b) && negb (ack_buffer b).
Definition quiet_buffer (b : bytes) : bool :=
  negb (request_buffer b) && negb (goaway_buffer b) && negb (ack_buffer b).

Lemma quiet_buffer_split b :
  quiet_buffer b = true -> request_buffer b = false /\ goaway_buffer b = false /\ calm_buffer b = true.
Proof.
  unfold quiet_buffer, calm_buffer, header_buffer, request_buffer. rewrite !andb_true_iff, !negb_true_iff.
  intros [[Hr Hg] Ha]. do 2 (split; [done|]). split; [|done]. destruct (buffer_type b); [|done].
  by apply orb_false_iff in Hr as [[_ ->]%orb_false_iff ->].
Qed.

(** The members a ledger may look at; of a stream, what sending depends on. *)
Definition kept (p : t)
  : gmap Z Stream.t * Z * bool * OutFlow.t * Z * Z * (HpackTable.HpackTable.t * bool * Z * Z) :=
  (streams p, nextStreamId p, sentGoaway p, connectionOutFlow p, initialWindowSize p, maxFrameSize p,
   enc_part (hpack p)).
Definition send_part (s : Stream.t) : Request.t * Z * bool * OutFlow.t :=
  (Stream.rqst s, Stream.requestBodyOffset s, Stream.localEndStreamSent s, Stream.outflow s).

(** Assignments that leave it alone, and do not close the stream. *)
Definition same_sending (s s' : Stream.t) : Prop :=
  send_part s' = send_part s /\ (Stream.isClosed s = false -> Stream.isClosed s' = false).

(** ... and those that leave the body received alone, and do not announce
    the end of the stream. *)
Definition same_response (s s' : Stream.t) : Prop :=
  Response.body (Stream.resp s') = Response.body (Stream.resp s) /\
  (Stream.pendingHeaderEndStream s' = true -> Stream.pendingHeaderEndStream s = true).

Notation "d ⊕ e" := (StepResult.mergeStepResult d e) (at level 50, left associativity) : outcome_scope.

Class Ledger (R : t * StepResult.t -> t * StepResult.t -> Prop) : Prop := {
  lg_preorder :: PreOrder R;
  lg_frame d p e p' e' : R (p, e) (p', e') -> R (p, d ⊕ e) (p', d ⊕ e');
  lg_report p e e' :
    StepResult.events e' = StepResult.events e -> StepResult.outbound e' = StepResult.outbound e ->
    R (p, e) (p, e');
  (** assignments to other members *)
  lg_same p p' e : kept p' = kept p -> R (p, e) (p', e);
  (** assignments to a stream *)
  lg_update p id s s' e :
    streams p !! id = Some s -> Stream.remoteEndStreamReceived s' = Stream.remoteEndStreamReceived s ->
    same_response s s' -> same_sending s s' -> R (p, e) (with_stream id s' p, e);
  (** events, before or after what is reported, and control frames *)
  lg_note p e ev : quiet_event ev = true -> R (p, e) (p, StepResult.push_event ev e);
  lg_note_first p e ev :
    quiet_event ev = true -> R (p, e) (p, StepResult.push_event ev StepResult.empty ⊕ e);
  lg_push p e b : quiet_buffer b = true -> R (p, e) (p, StepResult.push_outbound b e);
  (** a stream fails, it closes *)
  lg_fail p id s e code :
    streams p !! id = Some s ->
    R (p, e) (without_stream id p,
              StepResult.push_event (responseFailed id code) (StepResult.push_event (streamClosed id code) e));
  lg_close p id s e code :
    streams p !! id = Some s -> Stream.remoteEndStreamReceived s = true ->
    R (p, e) (without_stream id p, StepResult.push_event (streamClosed id code) e);
  (** GOAWAY is sent and reported *)
  lg_goaway p e code debug :
    sentGoaway p = false ->
    R (p, e) (set_sentGoaway true p,
              StepResult.push_event (goAwaySent (lastPeerStreamId p) code debug)
                (StepResult.push_outbound (GoAwayFrame.toBytes (buildGoAwayFrame code debug p)) e));
}.

Class ResponseLedger (R : t * StepResult.t -> t * StepResult.t -> Prop) : Prop := {
  rl_ledger :: Ledger R;
  (** a body grows, a response is complete *)
  rl_body p id s s' e :
    streams p !! id = Some s -> Stream.remoteEndStreamReceived s' = Stream.remoteEndStreamReceived s ->
    same_sending s s' -> R (p, e) (with_stream id s' p, e);
  rl_complete p id s s' e resp :
    streams p !! id = Some s -> same_sending s s' ->
    R (p, e) (with_stream id s' p, StepResult.push_event (responseCompleted id resp) e);
}.

Class DataLedger (R : t * StepResult.t -> t * StepResult.t -> Prop) : Prop := {
  dl_ledger :: Ledger R;
  dl_same p p' e :
    streams p' = streams p -> nextStreamId p' = nextStreamId p -> sentGoaway p' = sentGoaway p ->
    enc_part (hpack p') = enc_part (hpack p) -> R (p, e) (p', e);
  dl_update p id s s' e :
    streams p !! id = Some s -> Stream.remoteEndStreamReceived s' = Stream.remoteEndStreamReceived s ->
    same_response s s' -> R (p, e) (with_stream id s' p, e);
  dl_note p e ev : plain_event ev = true -> R (p, e) (p, StepResult.push_event ev e);
  dl_push p e b : goaway_buffer b = false -> calm_buffer b = true -> R (p, e) (p, StepResult.push_outbound b e);
}.

Class OpenLedger (R : t * StepResult.t -> t * StepResult.t -> Prop) : Prop := {
  ol_data :: DataLedger R;
  ol_encoder p hp e : R (p, e) (set_hpack hp p, e);
  ol_push p e b : goaway_buffer b = false -> R (p, e) (p, StepResult.push_outbound b e);
}.

(** A ledger is open when it allows any assignment to other members, to what
    sending depends on in a stream, and any frame but GOAWAY. *)
Lemma open_ledger (R : t * StepResult.t -> t * StepResult.t -> Prop) :
  Ledger R ->
  (forall p p' e, streams p' = streams p -> nextStreamId p' = nextStreamId p -> sentGoaway p' = sentGoaway p ->
     R (p, e) (p', e)) ->
  (forall p id s s' e,
     streams p !! id = Some s -> Stream.remoteEndStreamReceived s' = Stream.remoteEndStreamReceived s ->
     same_response s s' -> R (p, e) (with_stream id s' p, e)) ->
  (forall p e ev, plain_event ev = true -> R (p, e) (p, StepResult.push_event ev e)) ->
  (forall p e b, goaway_buffer b = false -> R (p, e) (p, StepResult.push_outbound b e)) -> OpenLedger R.
Proof.
  intros HR Hsame Hupdate Hnote Hpush. split; [split; [done|by auto|done|done|by auto]| |done].
  intros p hp e. by apply Hsame.
Qed.

(** [m], started with the result [e] so far, keeps the books: [c] gives the
    result when it returns. *)
Definition books {A} (R : t * StepResult.t -> t * StepResult.t -> Prop)
  (e : StepResult.t) (m : st t A) (c : A -> StepResult.t) : Prop :=
  forall p a p', m p = Ok (a, p') -> R (p, e) (p', c a).
Abbreviation result := (fun r : StepResult.t => r).

Lemma books_wp {A} R e (m : st t A) c :
  (forall p, wp (fun _ => True) m (fun a p' => R (p, e) (p', c a)) p) <-> books R e m c.
Proof.
  split.
  - intros Hm p a p' Hrun. by apply (wp_inv _ _ _ _ _ _ (Hm p) Hrun).
  - intros Hm p. unfold wp. destruct (m p) as [[a p']|] eqn:Hrun; [by apply Hm|done].
Qed.

Section rules.
Context (R : t * StepResult.t -> t * StepResult.t -> Prop) `{!PreOrder R}.
Implicit Type e : StepResult.t.

Lemma books_ret {A} e (a : A) c : (forall p, R (p, e) (p, c a)) -> books R e (ret a) c.
Proof. by intros HR p b p' [= <- <-]. Qed.
Lemma books_get e : books R e get (fun _ => e).
Proof. by intros p b p' [= <- <-]. Qed.
Lemma books_gets {A} e (f : t -> A) : books R e (gets f) (fun _ => e).
Proof. by intros p b p' [= <- <-]. Qed.
Lemma books_lift {A} e (m : outcome A) : books R e (lift m) (fun _ => e).
Proof. intros p b p'. unfold lift. destruct m; [|done]. by intros [= _ <-]. Qed.
Lemma books_fail {A} e f c : books R e (@fail_with t A f) c.
Proof. done. Qed.
Lemma books_deref e id : books R e (deref id) (fun _ => e).
Proof. intros p b p'. unfold deref. destruct (_ !! _); [|done]. by intros [= _ <-]. Qed.
Lemma books_contains e id : books R e (contains id) (fun _ => e).
Proof. apply books_gets. Qed.
Lemma books_bind {A B} e (m : st t A) (k : A -> st t B) c1 c2 :
  books R e m c1 -> (forall a, books R (c1 a) (k a) c2) -> books R e (bind m k) c2.
Proof.
  intros Hm Hk p b p'. unfold bind. destruct (m p) as [[a q]|] eqn:Hmp; [|done].
  intros Hkp. etrans; [by eapply Hm|by eapply Hk].
Qed.

(** ... when something is known of the result of [m]. *)
Lemma books_bind_that {A B} (Q : A -> Prop) e (m : st t A) (k : A -> st t B) c1 c2 :
  (forall p a p', m p = Ok (a, p') -> Q a) ->
  books R e m c1 -> (forall a, Q a -> books R (c1 a) (k a) c2) -> books R e (bind m k) c2.
Proof.
  intros HQ Hm Hk p b p'. unfold bind. destruct (m p) as [[a q]|] eqn:Hmp; [|done].
  intros Hkp. etrans; [by eapply Hm|eapply Hk; [by eapply HQ|done]].
Qed.

(** What was reported before the call. *)
Lemma books_pre {A} e e' (m : st t A) c :
  (forall p, R (p, e) (p, e')) -> books R e' m c -> books R e m c.
Proof. intros He Hm p a p' Hrun. etrans; [apply He|by eapply Hm]. Qed.
End rules.

Section ledger_rules.
Context (R : t * StepResult.t -> t * StepResult.t -> Prop) `{!Ledger R}.
Implicit Type e : StepResult.t.

Lemma books_modify e f : (forall p, kept (f p) = kept p) -> books R e (modify f) (fun _ => e).
Proof. intros ? p b p' [= <- <-]. by apply lg_same. Qed.
Lemma books_update e id f :
  (forall s, Stream.remoteEndStreamReceived (f s) = Stream.remoteEndStreamReceived s) ->
  (forall s, same_response s (f s)) -> (forall s, same_sending s (f s)) -> books R e (update id f) (fun _ => e).
Proof.
  intros Hf Hb Hs p b p'. unfold update. destruct (streams p !! id) eqn:Hid; [|done]. intros [= _ <-].
  by eapply lg_update.
Qed.

(** A computation that reports from scratch. *)
Lemma books_frame {A} e (m : st t A) c :
  books R StepResult.empty m c -> books R e m (fun a => e ⊕ c a).
Proof. intros Hm p a p' Hrun. rewrite <- (StepResult.merge_empty_r e) at 1. by apply lg_frame, Hm. Qed.

(** ... and one whose result is all that is reported. *)
Lemma books_scratch (m : st t StepResult.t) :
  books R StepResult.empty m (fun r => StepResult.empty ⊕ r) -> books R StepResult.empty m result.
Proof. intros Hm p r p' Hrun. etrans; [by eapply Hm|by apply lg_report]. Qed.

Lemma lg_push_event p e ev r :
  R (p, e) (p, r) -> quiet_event ev = true -> R (p, e) (p, StepResult.push_event ev r).
Proof. intros Hr Hev. etrans; [exact Hr|by apply lg_note]. Qed.
Lemma lg_push_outbound p e b r :
  R (p, e) (p, r) -> quiet_buffer b = true -> R (p, e) (p, StepResult.push_outbound b r).
Proof. intros Hr Hb. etrans; [exact Hr|by apply lg_push]. Qed.
Lemma lg_set_submitted p e id r : R (p, e) (p, r) -> R (p, e) (p, StepResult.set_submitted id r).
Proof. intros Hr. etrans; [exact Hr|by apply lg_report]. Qed.

End ledger_rules.

(** ** Decoding

    [books_at p0]: started where the encoder is that of the state [p0] read
    before. *)

Definition books_at {A} (R : t * StepResult.t -> t * StepResult.t -> Prop) (p0 : t)
  (e : StepResult.t) (m : st t A) (c : A -> StepResult.t) : Prop :=
  forall p a p', enc_part (hpack p) = enc_part (hpack p0) -> m p = Ok (a, p') -> R (p, e) (p', c a).

Section decoding.
Context (R : t * StepResult.t -> t * StepResult.t -> Prop) `{!Ledger R}.

Lemma books_get_at {A} e (k : t -> st t A) c :
  (forall p0, books_at R p0 e (k p0) c) -> books R e (bind get k) c.
Proof. intros Hk p a p'. by apply Hk. Qed.
Lemma at_books {A} p0 e (m : st t A) c : books R e m c -> books_at R p0 e m c.
Proof. intros Hm p a p' _. apply Hm. Qed.
Lemma at_lift {A B} p0 e (m : outcome A) (k : A -> st t B) c :
  (forall a, books_at R p0 e (k a) c) -> books_at R p0 e (bind (lift m) k) c.
Proof. intros Hk p b p' Hp. unfold bind, lift. destruct m; [|done]. by apply Hk. Qed.
Lemma at_modify {B} p0 e f (k : unit -> st t B) c :
  (forall p, kept (f p) = kept p) -> books_at R p0 e (k tt) c ->
  books_at R p0 e (bind (modify f) k) c.
Proof.
  intros Hf Hk p b p' Hp Hrun. etrans; [by apply (lg_same _ (f p)), Hf|]. eapply Hk; [|exact Hrun].
  rewrite <- Hp. pose proof (Hf p) as Hkept. unfold kept in Hkept. congruence.
Qed.
Lemma at_decode {A} p0 e data acc (k : bool -> list HeaderField.t -> Hpack.t -> st t A) c :
  (forall ok hs hp, books R e (k ok hs hp) c) ->
  books_at R p0 e
    (r <- lift (Hpack.decode data acc (hpack p0)) ;;
     let '(ok, hs, hp) := r in modify (set_hpack hp) ;;; k ok hs hp) c.
Proof.
  intros Hk p a p' Hp. unfold bind, lift, modify.
  destruct (Hpack.decode data acc (hpack p0)) as [[[ok hs] hp]|] eqn:Hd; [|done].
  intros Hrun. etrans; [|by eapply Hk]. apply lg_same. apply decode_enc_part in Hd.
  unfold kept. cbn. by rewrite Hd, Hp.
Qed.
End decoding.

(** What a ledger that does not look at DATA also allows. *)
Section data_rules.
Context (R : t * StepResult.t -> t * StepResult.t -> Prop) `{!DataLedger R}.
Implicit Type e : StepResult.t.

Lemma dl_modify e f :
  (forall p, streams (f p) = streams p) -> (forall p, nextStreamId (f p) = nextStreamId p) ->
  (forall p, sentGoaway (f p) = sentGoaway p) -> (forall p, enc_part (hpack (f p)) = enc_part (hpack p)) ->
  books R e (modify f) (fun _ => e).
Proof. intros ? ? ? ? p b p' [= <- <-]. by apply dl_same. Qed.
Lemma dl_books_update e id f :
  (forall s, Stream.remoteEndStreamReceived (f s) = Stream.remoteEndStreamReceived s) ->
  (forall s, same_response s (f s)) -> books R e (update id f) (fun _ => e).
Proof.
  intros Hf Hb p b p'. unfold update. destruct (streams p !! id) eqn:Hid; [|done]. intros [= _ <-].
  by eapply dl_update.
Qed.
Lemma dl_push_event p e ev r :
  R (p, e) (p, r) -> plain_event ev = true -> R (p, e) (p, StepResult.push_event ev r).
Proof. intros Hr Hev. etrans; [exact Hr|by apply dl_note]. Qed.
Lemma dl_push_outbound p e b r :
  R (p, e) (p, r) -> goaway_buffer b = false -> calm_buffer b = true -> R (p, e) (p, StepResult.push_outbound b r).
Proof. intros Hr Hb Hc. etrans; [exact Hr|by apply dl_push]. Qed.
End data_rules.

(** What an open ledger also allows. *)
Section open_rules.
Context (R : t * StepResult.t -> t * StepResult.t -> Prop) `{!OpenLedger R}.
Implicit Type e : StepResult.t.

Lemma ol_same p p' e :
  streams p' = streams p -> nextStreamId p' = nextStreamId p -> sentGoaway p' = sentGoaway p -> R (p, e) (p', e).
Proof.
  intros Hs Hn Hg. etrans; [by apply (dl_same p (set_hpack (hpack p) p'))|].
  etrans; [apply (ol_encoder _ (hpack p'))|]. by destruct p'.
Qed.
Lemma ol_modify e f :
  (forall p, streams (f p) = streams p) -> (forall p, nextStreamId (f p) = nextStreamId p) ->
  (forall p, sentGoaway (f p) = sentGoaway p) -> books R e (modify f) (fun _ => e).
Proof. intros ? ? ? p b p' [= <- <-]. by apply ol_same. Qed.
Lemma ol_push_outbound p e b r :
  R (p, e) (p, r) -> goaway_buffer b = false -> R (p, e) (p, StepResult.push_outbound b r).
Proof. intros Hr Hb. etrans; [exact Hr|by apply ol_push]. Qed.
End open_rules.
Arguments ol_same {R _}.

(** What a ledger of responses also allows. *)
Lemma rl_books_update R `{!ResponseLedger R} e id f :
  (forall s, Stream.remoteEndStreamReceived (f s) = Stream.remoteEndStreamReceived s) ->
  (forall s, same_sending s (f s)) -> books R e (update id f) (fun _ => e).
Proof.
  intros Hf Hs p b p'. unfold update. destruct (streams p !! id) eqn:Hid; [|done]. intros [= _ <-].
  by eapply rl_body.
Qed.

Create HintDb books discriminated.

(** Side conditions: quiet events and frames between the two sides. *)
Ltac noted :=
  intros;
  repeat lazymatch goal with
  | |- _ (?p, ?e) (?p, ?e) => reflexivity
  | |- _ (?p, _) (?p, StepResult.push_event _ _) =>
      first [apply lg_push_event; [apply _| |reflexivity] | apply dl_push_event; [apply _| |reflexivity]]
  | |- _ (?p, _) (?p, StepResult.push_outbound _ _) =>
      first [apply lg_push_outbound; [apply _| |reflexivity] | apply dl_push_outbound; [apply _| |reflexivity..]
            | apply ol_push_outbound; [apply _| |reflexivity]]
  | |- _ (?p, ?e) (?p, StepResult.push_event _ StepResult.empty ⊕ ?e) =>
      apply lg_note_first; reflexivity
  | |- _ (?p, _) (?p, StepResult.set_submitted _ _) => apply lg_set_submitted; [apply _|]
  end;
  first [reflexivity | eassumption | solve [auto with books]].

Ltac books_step :=
  lazymatch goal with
  | |- books _ _ (bind (refresh_connection _ _) _) _ => fail (** its result needs a name *)
  | |- books _ _ (@bind _ FrameHeader.t _ _ _) _ => fail (** its type matters *)
  | |- books _ _ (@bind _ (FrameHeader.t * _ * _) _ _ _) _ => fail
  | |- books _ _ (bind _ _) _ => eapply books_bind; [apply _| |intros ?]
  | |- books _ ?e (@ret _ ?A _) ?c =>
      (** an unknown [c] is read off the type of the value *)
      tryif is_evar c
      then lazymatch A with
           | StepResult.t => unify c result
           | _ => unify c (fun _ : A => e)
           end
      else idtac;
      apply books_ret; noted
  | |- books _ _ get _ => apply books_get, _
  | |- books _ _ (gets _) _ => apply books_gets, _
  | |- books _ _ (modify _) _ =>
      first [apply books_modify; [apply _|reflexivity] | apply dl_modify; [apply _|reflexivity..]
            | apply ol_modify; [apply _|reflexivity..]]
  | |- books _ _ (lift _) _ => apply books_lift, _
  | |- books _ _ (fail_with _) _ => apply books_fail
  | |- books _ _ (deref _) _ => apply books_deref, _
  | |- books _ _ (update _ _) _ =>
      first [apply books_update; [apply _|intros ?; reflexivity|intros ?; by split|intros ?; by split]
            | apply dl_books_update; [apply _|intros ?; reflexivity|intros ?; by split]
            | apply rl_books_update; [apply _|intros ?; reflexivity|intros ?; by split]]
  | |- books _ _ (contains _) _ => apply books_contains, _
  | |- books _ _ (match ?x with _ => _ end) _ => destruct x
  | |- books _ _ _ _ => first [solve [auto with books] | solve [eauto with books]]
  end.
Ltac books := cbv zeta; repeat (books_step; cbv beta iota zeta).

(** ** What a run of those that end streams has done *)

Lemma run_bind {A B} (m : st t A) (k : A -> st t B) p b p' :
  bind m k p = Ok (b, p') -> exists a q, m p = Ok (a, q) /\ k a q = Ok (b, p').
Proof. unfold bind. destruct (m p) as [[a q]|]; [eauto|done]. Qed.

Lemma lift_run {A} (m : outcome A) (p : t) a p' : lift m p = Ok (a, p') -> m = Ok a /\ p' = p.
Proof. unfold lift. destruct m; [|done]. by intros [= <- <-]. Qed.
Lemma deref_run id p s p' : deref id p = Ok (s, p') -> streams p !! id = Some s /\ p' = p.
Proof. unfold deref. destruct (_ !! _); [|done]. by intros [= <- <-]. Qed.
Lemma update_run id f p u p' :
  update id f p = Ok (u, p') -> exists s, streams p !! id = Some s /\ p' = with_stream id (f s) p.
Proof. unfold update. destruct (_ !! _) as [s|]; [|done]. intros [= _ <-]. by exists s. Qed.

(** Split a run into the runs of its parts. *)
Ltac run_cases :=
  repeat lazymatch goal with
  | H : bind ?m _ ?p = Ok _ |- _ =>
      let a := fresh "a" in let q := fresh "q" in let Hm := fresh "Hm" in
      apply run_bind in H as (a & q & Hm & H); cbv beta in H
  | H : ret _ _ = Ok _ |- _ => injection H as; subst
  | H : modify _ _ = Ok _ |- _ => injection H as; subst
  | H : get _ = Ok _ |- _ => injection H as; subst
  | H : gets _ _ = Ok _ |- _ => injection H as; subst
  end.

(** ... and of both branches of a conditional. *)
Ltac run_branches :=
  repeat lazymatch goal with
  | H : (if ?b then _ else _) _ = Ok _ |- _ => destruct b
  | H : _ = Ok _ |- _ => progress run_cases
  end.

Lemma failStream_run id code rst p r p' :
  failStream id code rst p = Ok (r, p') ->
  (exists s, streams p !! id = Some s /\ r = fail_result p id code rst /\ p' = fail_state p id s) \/
  (streams p !! id = None /\ r = StepResult.empty /\ p' = p).
Proof.
  intros Hrun. destruct (streams p !! id) as [s|] eqn:Hs.
  - left. exists s. split; [done|]. exact (wp_inv _ _ _ _ _ _ (failStream_exact no_fault p id s code rst Hs) Hrun).
  - right. split; [done|]. unfold failStream, bind, contains, gets in Hrun. rewrite Hs in Hrun.
    rewrite bool_decide_false in Hrun by (by intros [? ?]). by injection Hrun as <- <-.
Qed.

Lemma finalize_run id r p r' p' :
  finalizeRemoteStream id r p = Ok (r', p') ->
  exists s, streams p !! id = Some s /\
    ((r' = r ⊕ fail_result p id ErrorCode.PROTOCOL_ERROR true /\ p' = fail_state p id s) \/
     (r' = (let r := StepResult.push_event (responseCompleted id (Stream.resp s)) r in
            if Stream.localEndStreamSent s
            then StepResult.push_event (streamClosed id ErrorCode.NO_ERROR) r else r) /\
      p' = if Stream.localEndStreamSent s then without_stream id p
           else with_stream id (Stream.set_streamState HALF_CLOSED_REMOTE (completed s)) p)).
Proof.
  intros Hrun. destruct (streams p !! id) as [s|] eqn:Hs;
    [|by unfold finalizeRemoteStream, bind, update in Hrun; rewrite Hs in Hrun].
  exists s. split; [done|]. refine (wp_inv (fun _ => True) _ (fun r' p' => _) _ _ _ _ Hrun).
  unfold finalizeRemoteStream. psteps. eapply (wp_update_first _ s); [done|]. cbv beta. psteps.
  eapply wp_mono with (Q := fun _ p' => p' = with_stream id (Stream.set_remoteEndStreamReceived true s) p).
  { case_if; [|done]. unfold wp, bind, lift. by destruct (Stream.expectsNoBody _). }
  intros m p1 ->. destruct m.
  - psteps. eapply wp_mono; [eapply failStream_exact, with_stream_lookup|]. intros a p2 [-> ->]. psteps.
    left. unfold fail_state. by rewrite without_stream_with.
  - psteps. change (Stream.localEndStreamSent _) with (Stream.localEndStreamSent s).
    destruct (Stream.localEndStreamSent s); psteps; by right.
Qed.

Lemma fail_each_closed ids code r p r' p' : fail_each ids code r p = Ok (r', p') -> closed p' = closed p.
Proof.
  revert r p. induction ids as [|i ids IH]; intros r p; cbn [fail_each]; [by intros [= _ <-]|].
  intros Hrun. apply run_bind in Hrun as (r1 & p1 & Hf & Hrun). rewrite (IH _ _ Hrun).
  by apply failStream_run in Hf as [(si & Hi & _ & ->)|(Hi & _ & ->)].
Qed.

(** Failing the connection closes it and removes every stream. *)
Lemma fail_each_removes ids code r p r' p' :
  fail_each ids code r p = Ok (r', p') ->
  forall id s, streams p' !! id = Some s -> streams p !! id = Some s /\ id ∉ ids.
Proof.
  revert r p. induction ids as [|i ids IH]; intros r p; cbn [fail_each].
  { intros [= _ <-] id s Hs. split; [done|]. apply not_elem_of_nil. }
  intros Hrun id s Hs. apply run_bind in Hrun as (r1 & p1 & Hf & Hrun).
  destruct (IH _ _ Hrun id s Hs) as [Hs1 Hni]. apply failStream_run in Hf as [(si & Hi & _ & ->)|(Hi & _ & ->)].
  - unfold fail_state, without_stream in Hs1. cbn in Hs1. apply lookup_delete_Some in Hs1 as [Hne Hs1].
    split; [done|]. by intros [->|?]%elem_of_cons.
  - split; [done|]. intros [->|?]%elem_of_cons; [congruence|done].
Qed.

Lemma failConnection_empties `{IterOrder} code debug p r p' :
  failConnection code debug p = Ok (r, p') -> streams p' = ∅.
Proof.
  unfold failConnection, failAllStreams. intros Hrun. run_cases. subst.
  lazymatch goal with H : fail_each _ _ _ _ = _ |- _ => rename H into Hf end.
  apply map_eq. intros id. rewrite lookup_empty. destruct (streams p' !! id) as [s|] eqn:Hs; [|done].
  destruct (fail_each_removes _ _ _ _ _ _ Hf id s Hs) as [Hs1 Hni]. destruct Hni.
  rewrite iter_order_elem. cbn in *. rewrite Hs1. eauto.
Qed.

Lemma failConnection_closes `{IterOrder} code debug p r p' :
  failConnection code debug p = Ok (r, p') -> closed p' = true.
Proof.
  unfold failConnection, failAllStreams. intros Hrun. run_cases. subst.
  lazymatch goal with H : fail_each _ _ _ _ = _ |- _ => by rewrite (fail_each_closed _ _ _ _ _ _ H) end.
Qed.

Section handlers.
Context `{IterOrder} (R : t * StepResult.t -> t * StepResult.t -> Prop) `{!Ledger R}.

(** ** Failure *)

Lemma fail_result_books p id s code rst :
  streams p !! id = Some s -> R (p, StepResult.empty) (fail_state p id s, fail_result p id code rst).
Proof.
  intros Hs. unfold fail_result. case_if.
  - etrans; [by apply (lg_push p _ (RstStreamFrame.toBytes (buildRstStreamFrame id code)))|].
    etrans; [by apply (lg_fail p id s _ code)|]. by apply lg_same.
  - etrans; [by apply (lg_fail p id s _ code)|]. by apply lg_same.
Qed.

Lemma failStream_books e id code rst : books R e (failStream id code rst) (fun r => e ⊕ r).
Proof.
  apply books_frame; [done|]. intros p r p' Hrun.
  destruct (failStream_run _ _ _ _ _ _ Hrun) as [(s & Hs & -> & ->)|(_ & -> & ->)];
    [by apply fail_result_books|done].
Qed.
Hint Resolve failStream_books : books.

Lemma failStream_books_nil id code rst : books R StepResult.empty (failStream id code rst) result.
Proof. apply books_scratch, failStream_books; done. Qed.
Hint Resolve failStream_books_nil : books.

Lemma fail_each_books e ids code r :
  (forall p, R (p, e) (p, r)) -> books R e (fail_each ids code r) result.
Proof.
  intros Hr. eapply books_pre; [apply _|exact Hr|]. clear Hr e.
  revert r. induction ids as [|id ids IH]; intros r; cbn [fail_each]; [books|].
  eapply books_bind; [apply _|apply failStream_books|intros a]. apply IH.
Qed.
Hint Extern 1 (books _ _ (fail_each _ _ _) _) => apply fail_each_books; noted : books.

Lemma failAllStreams_books e code r :
  (forall p, R (p, e) (p, r)) -> books R e (failAllStreams code r) result.
Proof. intros Hr. unfold failAllStreams. books. Qed.
Hint Extern 1 (books _ _ (failAllStreams _ _) _) => apply failAllStreams_books; noted : books.

(** The GOAWAY is reported once, when the flag goes up. *)
Lemma append_goaway_run e code debug r p :
  sentGoaway p = false -> R (p, e) (p, r) ->
  exists r' p', append_goaway code debug r p = Ok (r', p') /\ R (p, e) (p', r').
Proof.
  intros Hs Hr. unfold append_goaway, bind, get, modify, ret. do 2 eexists. split; [reflexivity|].
  etrans; [exact Hr|]. by apply lg_goaway.
Qed.

Lemma maybe_goaway_books (b : t -> bool) code debug {A} (k : StepResult.t -> st t A) c :
  (forall p, b p = true -> sentGoaway p = false) ->
  (forall r, books R r (k r) c) ->
  books R StepResult.empty (p <- get ;;
    r <- (if b p then append_goaway code debug StepResult.empty else ret StepResult.empty) ;; k r) c.
Proof.
  intros Hb Hk p a p' Hrun. unfold bind, get in Hrun. destruct (b p) eqn:Hbp.
  - destruct (append_goaway_run StepResult.empty code debug StepResult.empty p) as (r & q & Hq & HR);
      [by apply Hb|done|]. rewrite Hq in Hrun. etrans; [exact HR|]. by eapply Hk.
  - by apply (Hk _ _ _ _ Hrun).
Qed.

Lemma failConnection_books e code debug : books R e (failConnection code debug) (fun r => e ⊕ r).
Proof.
  apply books_frame; [done|]. unfold failConnection.
  apply (maybe_goaway_books (fun p => negb (sentGoaway p) && negb (transportClosed_ p))).
  - intros p [Hp _]%andb_true_iff. by apply negb_true_iff in Hp.
  - intros r. books.
Qed.
Hint Resolve failConnection_books : books.

Lemma failConnection_books_nil code debug : books R StepResult.empty (failConnection code debug) result.
Proof. apply books_scratch, failConnection_books; done. Qed.
Hint Resolve failConnection_books_nil : books.

Lemma handleHeaderBlockError_books id code :
  books R StepResult.empty (handleHeaderBlockError id code) result.
Proof. unfold handleHeaderBlockError. books. Qed.
Hint Resolve handleHeaderBlockError_books : books.

(** ** Parts of the receiving handlers *)

Lemma store_headers_books e id headers : books R e (store_headers id headers) (fun _ => e).
Proof. unfold store_headers. books. Qed.
Hint Resolve store_headers_books : books.

Lemma append_header_block_books e id d : books R e (append_header_block id d) (fun _ => e).
Proof. unfold append_header_block. books. Qed.
Hint Resolve append_header_block_books : books.

(** ** Windows *)

(** [refresh_connection] only appends to the buffers to send. *)
Lemma refresh_connection_run e n r p o p' :
  (forall q, R (q, e) (q, r)) -> refresh_connection n r p = Ok (o, p') ->
  R (p, e) (p', e) /\ forall q r', o = Some r' -> R (q, e) (q, r').
Proof.
  intros Hr. unfold refresh_connection, bind, get, lift, modify, ret.
  destruct (InFlow.add _ _) as [[d f]|]; [|done].
  destruct (d <? 0); [|destruct (d >? 0)]; intros [= <- <-]; (split; [by apply lg_same|]); [done| |];
    intros q r' [= <-]; noted.
Qed.

Lemma refresh_connection_books {A} e n r (k : option StepResult.t -> st t A) c :
  (forall p, R (p, e) (p, r)) ->
  (forall o, (forall p r', o = Some r' -> R (p, e) (p, r')) -> books R e (k o) c) ->
  books R e (bind (refresh_connection n r) k) c.
Proof.
  intros Hr Hk p a p' Hrun. apply run_bind in Hrun as (o & q & Ho & Hrun).
  destruct (refresh_connection_run e n r p o q Hr Ho) as [HR Hr']. etrans; [exact HR|by eapply Hk].
Qed.

(** ** Frames *)

Lemma processDataOnUnknownStream_books d :
  books R StepResult.empty (processDataOnUnknownStream d) result.
Proof.
  unfold processDataOnUnknownStream. books. apply refresh_connection_books; [noted|].
  intros [r'|] Hr'; books.
Qed.

Hint Resolve processDataOnUnknownStream_books : books.

Lemma headers_on_unknown_books frame : books R StepResult.empty (headers_on_unknown_stream frame) result.
Proof.
  unfold headers_on_unknown_stream. apply books_get_at. intros p0. cbv zeta.
  repeat case_if; try (apply at_books; books; fail). apply at_decode; [done|]. intros ok _ _. books.
Qed.
Hint Resolve headers_on_unknown_books : books.

Lemma continuation_on_unknown_books frame :
  books R StepResult.empty (continuation_on_unknown_stream frame) result.
Proof.
  unfold continuation_on_unknown_stream. apply books_get_at. intros p0.
  apply at_lift. intros ghost. apply at_modify; [done|done|].
  repeat case_if; try (apply at_books; books; fail).
  apply at_modify; [done|done|]. apply at_modify; [done|done|]. apply at_decode; [done|]. intros ok _ _. books.
Qed.
Hint Resolve continuation_on_unknown_books : books.

Lemma processPushPromiseFrame_books frame : books R StepResult.empty (processPushPromiseFrame frame) result.
Proof.
  unfold processPushPromiseFrame. books.
Qed.

Lemma processRstStreamFrame_books frame : books R StepResult.empty (processRstStreamFrame frame) result.
Proof.
  unfold processRstStreamFrame. books.
Qed.

Lemma processGoAwayFrame_books frame : books R StepResult.empty (processGoAwayFrame frame) result.
Proof. unfold processGoAwayFrame. books. Qed.
Hint Resolve processPushPromiseFrame_books processRstStreamFrame_books processGoAwayFrame_books : books.

(** ** Public operations *)

Lemma cancelStream_books id code : books R StepResult.empty (cancelStream id code) result.
Proof. unfold cancelStream. books. Qed.

Lemma sendPing_books : books R StepResult.empty sendPing result.
Proof. unfold sendPing. books. Qed.

Lemma start_books : books R StepResult.empty start result.
Proof. unfold start. books. Qed.

Lemma onTransportClosed_books : books R StepResult.empty onTransportClosed result.
Proof. unfold onTransportClosed. books. Qed.

Lemma close_books : books R StepResult.empty close result.
Proof.
  intros p r p' Hrun. unfold close, bind at 1, get in Hrun. destruct (closed p); [by injection Hrun as <- <-|].
  revert p r p' Hrun. change (books R StepResult.empty (p <- get ;;
    r <- (if negb (sentGoaway p) then append_goaway ErrorCode.NO_ERROR [] StepResult.empty
               else ret StepResult.empty) ;;
    r <- failAllStreams ErrorCode.CANCEL r ;; modify (set_closed true) ;;;
    ret (StepResult.push_event (connectionClosed ErrorCode.NO_ERROR) r)) result).
  apply (maybe_goaway_books (fun p => negb (sentGoaway p))); [by intros p ?%negb_true_iff|].
  intros r. books.
Qed.

(** ** Receiving

    SETTINGS and WINDOW_UPDATE make the client send, DATA, HEADERS and
    CONTINUATION may complete a response: that they keep the books is for the
    ledger to show. *)

Section receiving.
Context (Hsettings : forall frame, books R StepResult.empty (processSettingFrame frame) result).
Context (Hwindow : forall frame, books R StepResult.empty (processWindowUpdateFrame frame) result).
Context (Hdata : forall frame, books R StepResult.empty (processDataFrame frame) result).
Context (Hheaders : forall frame, books R StepResult.empty (processHeadersFrame frame) result).
Context (Hcontinuation : forall frame, books R StepResult.empty (processContinuationFrame frame) result).
Hint Resolve Hsettings Hwindow Hdata Hheaders Hcontinuation : books.

Lemma receiveFrame_books frame : books R StepResult.empty (receiveFrame frame) result.
Proof. unfold receiveFrame, processPriorityFrame, processPingFrame. books. Qed.
Hint Resolve receiveFrame_books : books.

Lemma receive_loop_books e fuel r :
  (forall p, R (p, e) (p, r)) -> books R e (receive_loop fuel r) result.
Proof.
  intros Hr. eapply books_pre; [apply _|exact Hr|]. clear Hr e. revert r.
  induction fuel as [|fuel IH]; intros r; cbn [receive_loop]; [apply books_fail|].
  eapply books_bind; [apply _|apply books_get, _|intros p]. eapply books_bind; [apply _|apply books_lift, _|intros [o c]].
  eapply books_bind; [apply _|by apply books_modify|intros ?]. destruct o as [frame|]; [|books].
  eapply books_bind; [apply _|apply (books_frame R r), receiveFrame_books; done|intros b].
  eapply books_bind; [apply _|apply books_get, _|intros q]. case_if; [books|]. apply IH.
Qed.
Hint Extern 1 (books _ _ (receive_loop _ _) _) => apply receive_loop_books; noted : books.

Lemma receiveBytes_books_of data : books R StepResult.empty (receiveBytes data) result.
Proof. unfold receiveBytes. books. Qed.
End receiving.

(** ** Completion, in a ledger of responses *)

Section responses.
Context `{!ResponseLedger R}.

Lemma finalize_books e id r :
  (forall p, R (p, e) (p, r)) -> books R e (finalizeRemoteStream id r) result.
Proof.
  intros Hr. eapply books_pre; [apply _|exact Hr|]. clear Hr e. intros p r' p' Hrun.
  apply finalize_run in Hrun as (s & Hs & [[-> ->]|[-> ->]]).
  - rewrite <- (StepResult.merge_empty_r r) at 1. apply lg_frame. by apply fail_result_books.
  - destruct (Stream.localEndStreamSent s);
      (etrans; [by apply (rl_complete p id s (completed s) _ (Stream.resp s))|]).
    + rewrite <- (without_stream_with id (completed s) p).
      eapply lg_close; [apply with_stream_lookup|done].
    + rewrite <- (with_stream_with id (completed s) (Stream.set_streamState HALF_CLOSED_REMOTE (completed s))).
      eapply lg_update; [apply with_stream_lookup|done|done|done].
Qed.
Hint Extern 1 (books _ _ (finalizeRemoteStream _ _) _) => apply finalize_books; noted : books.

(** *** Header blocks *)

(** A header block that is rejected has reported nothing. *)
Definition decoded (cr : Z * StepResult.t) : StepResult.t :=
  if fst cr =? ErrorCode.NO_ERROR then snd cr else StepResult.empty.

Lemma decoded_error code p : R (p, StepResult.empty) (p, decoded (code, StepResult.empty)).
Proof. unfold decoded. by case_if. Qed.

Lemma decoded_ok e r p : R (p, e) (p, r) -> R (p, e) (p, decoded (ErrorCode.NO_ERROR, r)).
Proof. done. Qed.

Lemma decodeResponseHeaders_books id endStream :
  books R StepResult.empty (decodeResponseHeaders id endStream StepResult.empty) decoded.
Proof.
  unfold decodeResponseHeaders. eapply books_bind; [apply _|apply books_deref, _|intros s].
  apply books_get_at. intros p0. apply at_decode; [done|]. intros ok headers _.
  repeat (books_step || (apply books_ret; intros; first [apply decoded_error|apply decoded_ok; noted]);
    cbv beta iota zeta).
Qed.

Lemma complete_header_block_books id endStream :
  books R StepResult.empty (complete_header_block id endStream) result.
Proof.
  unfold complete_header_block. eapply books_bind; [apply _|apply decodeResponseHeaders_books|].
  intros [code r]. unfold decoded. cbn [fst snd]. destruct (code =? _); cbn [negb]; books.
Qed.
Hint Resolve complete_header_block_books : books.

(** *** Frames *)

Lemma accept_data_books id d : books R StepResult.empty (accept_data id d) result.
Proof.
  unfold accept_data. books. apply refresh_connection_books; [noted|]. intros [r'|] Hr'; [|books].
  assert (Hr : forall p, R (p, StepResult.empty) (p, r')) by (intros p; by apply Hr').
  books; apply finalize_books || apply books_ret; intros p; destruct (_ >? 0); noted.
Qed.
Hint Resolve accept_data_books : books.

Lemma processDataFrame_books frame : books R StepResult.empty (processDataFrame frame) result.
Proof. unfold processDataFrame. books. Qed.

Lemma processHeadersFrame_books frame : books R StepResult.empty (processHeadersFrame frame) result.
Proof. unfold processHeadersFrame, headers_on_stream. books. Qed.

Lemma processContinuationFrame_books frame :
  books R StepResult.empty (processContinuationFrame frame) result.
Proof. unfold processContinuationFrame. books. Qed.

Lemma receiveBytes_books data :
  (forall frame, books R StepResult.empty (processSettingFrame frame) result) ->
  (forall frame, books R StepResult.empty (processWindowUpdateFrame frame) result) ->
  books R StepResult.empty (receiveBytes data) result.
Proof.
  intros Hsettings Hwindow. apply receiveBytes_books_of; [done|done|apply processDataFrame_books|apply processHeadersFrame_books|].
  apply processContinuationFrame_books.
Qed.
End responses.
End handlers.

(** ** Sending *)

Abbreviation typed ty := (fun h => FrameHeader.type h = ty).

Section sending.
Context `{IterOrder} (R : t * StepResult.t -> t * StepResult.t -> Prop) `{!DataLedger R}.
Hint Extern 1 (books _ _ (failStream _ _ _) _) => apply failStream_books_nil, _ : books.
Hint Extern 1 (books _ _ (failConnection _ _) _) => apply failConnection_books_nil, _ : books.

Lemma body_loop_books e fuel id r :
  (forall p, R (p, e) (p, r)) -> books R e (body_loop fuel id r) result.
Proof.
  intros Hr. eapply books_pre; [apply _|exact Hr|]. clear Hr e. revert r.
  induction fuel as [|fuel IH]; intros r; cbn [body_loop]; [apply books_fail|]. books.
  eapply (books_bind_that _ (typed FrameType.DATA)); [by intros ? ? ? Hrun; run_branches; subst|books|].
  intros [hlen hty hfl hid] Hty. cbn in Hty. subst hty. eapply books_pre; [apply _| |apply IH]. noted.
Qed.
Hint Extern 1 (books _ _ (body_loop _ _ _) _) => apply body_loop_books; noted : books.

Lemma emitPending_books e id r :
  (forall p, R (p, e) (p, r)) -> books R e (emitPendingRequestBody id r) result.
Proof.
  intros Hr. eapply books_pre; [apply _|exact Hr|]. clear Hr e. unfold emitPendingRequestBody.
  apply (books_bind _ _ _ _ (fun _ => r)); [apply books_deref, _|intros s]. case_if; [books|].
  eapply books_bind; [apply _|apply body_loop_books; noted|intros r1].
  intros p a p' Hrun. unfold bind, deref, erase, modify, ret in Hrun.
  destruct (streams p !! id) as [s1|] eqn:Hs; [|done].
  destruct (Stream.localEndStreamSent s1); [|by injection Hrun as <- <-].
  destruct (Stream.remoteEndStreamReceived s1) eqn:Hrem.
  - unfold update in Hrun. rewrite Hs in Hrun. injection Hrun as <- <-.
    rewrite delete_insert_eq. by eapply (lg_close p id s1).
  - unfold update in Hrun. rewrite Hs in Hrun. injection Hrun as <- <-. by eapply dl_update.
Qed.
Hint Extern 1 (books _ _ (emitPendingRequestBody _ _) _) => apply emitPending_books; noted : books.

Lemma add_outflows_books e ids delta : books R e (add_outflows ids delta) (fun _ => e).
Proof. induction ids; cbn [add_outflows]; books. Qed.
Hint Resolve add_outflows_books : books.

Lemma flush_streams_books e ids r :
  (forall p, R (p, e) (p, r)) -> books R e (flush_streams ids r) result.
Proof.
  intros Hr. eapply books_pre; [apply _|exact Hr|]. clear Hr e. revert r.
  induction ids; intros r; cbn [flush_streams]; books.
Qed.
Hint Extern 1 (books _ _ (flush_streams _ _) _) => apply flush_streams_books; noted : books.

Lemma flush_pending_books e ids r :
  (forall p, R (p, e) (p, r)) -> books R e (flush_pending ids r) result.
Proof.
  intros Hr. eapply books_pre; [apply _|exact Hr|]. clear Hr e. revert r.
  induction ids; intros r; cbn [flush_pending]; books.
Qed.
Hint Extern 1 (books _ _ (flush_pending _ _) _) => apply flush_pending_books; noted : books.

Lemma processWindowUpdateFrame_books frame : books R StepResult.empty (processWindowUpdateFrame frame) result.
Proof. unfold processWindowUpdateFrame. books. Qed.

(** SETTINGS and new requests, in an open ledger. *)
Section in_open_ledger.
Context `{!OpenLedger R}.

Lemma applyPeerSettings_books e l : books R e (applyPeerSettings l) (fun _ => e).
Proof. induction l; cbn [applyPeerSettings]; unfold applyPeerSetting; books. Qed.
Hint Resolve applyPeerSettings_books : books.

Lemma processSettingFrame_books frame : books R StepResult.empty (processSettingFrame frame) result.
Proof. unfold processSettingFrame. books. Qed.

Lemma receive_books `{!ResponseLedger R} data : books R StepResult.empty (receiveBytes data) result.
Proof.
  apply (receiveBytes_books R); [apply processSettingFrame_books|apply processWindowUpdateFrame_books].
Qed.

Lemma emit_continuations_books fuel id span r :
  books R r (emit_continuations fuel id span r) result.
Proof.
  revert span r. induction fuel; intros span r; cbn [emit_continuations]; books.
  eapply books_pre; [apply _| |apply IHfuel]. destruct (ByteSpan.empty _); noted.
Qed.

Lemma emitRequestHeaders_books id block r :
  books R r (emitRequestHeaders id block r) result.
Proof.
  unfold emitRequestHeaders. books.
  eapply (books_bind_that _ (fun r => FrameHeader.type r.1.1 = FrameType.HEADERS)); [by intros ? ? ? Hrun; run_branches; subst|books|].
  intros [[[hlen hty hfl hid] d] span] Hty. cbn in Hty. subst hty.
  eapply (books_bind_that _ (typed FrameType.HEADERS));
    [by intros ? ? ? Hrun; run_branches; subst|books|].
  intros [hlen' hty hfl' hid'] Hty. cbn in Hty. subst hty.
  eapply books_pre; [apply _| |apply emit_continuations_books]. noted.
Qed.
End in_open_ledger.
End sending.

(** ** Submitting *)

Section submitting.
Context `{IterOrder}.

(** A refused request changes nothing; an accepted one opens the next stream,
    and the rest of the call keeps the books from there. *)
Definition opened_state (request : Request.t) (p : t) : t :=
  set_streams
    (<[nextStreamId p := new_stream (nextStreamId p) request (initialWindowSize p)]> (streams p))
    (set_nextStreamId (u32 (nextStreamId p + 2)) p).

Definition refused (r : StepResult.t) : Prop :=
  exists code, r = StepResult.push_event (responseFailed 0 code) StepResult.empty.

(** What [submitRequest] does once the stream is in the table. *)
Definition submit_tail (request : Request.t) (streamId : Z) : st t StepResult.t :=
  p <- get ;;
  r <- lift (Hpack.encode (buildRequestHeaderFields request) (hpack p)) ;;
  let '(encoded, hp) := r in
  modify (set_hpack hp) ;;;
  result <- emitRequestHeaders streamId encoded
              (StepResult.push_event (streamOpened streamId) StepResult.empty) ;;
  update streamId (Stream.set_requestStarted true) ;;;
  update streamId (fun s =>
    Stream.set_streamState (if Stream.localEndStreamSent s then HALF_CLOSED_LOCAL else OPEN) s) ;;;
  result <- emitPendingRequestBody streamId result ;;
  ret (StepResult.set_submitted streamId result).

Lemma submitRequest_cases request p r p' :
  submitRequest request p = Ok (r, p') ->
  (p' = p /\ refused r) \/
  (canSubmitRequests p = true /\ Request.isValid request = true /\
   nextStreamId p <> 0 /\ nextStreamId p <= 0x7ffffffe /\
   submit_tail request (nextStreamId p) (opened_state request p) = Ok (r, p')).
Proof.
  unfold submitRequest, refused. unfold bind at 1. unfold get.
  destruct (canSubmitRequests p) eqn:Hcan; cbn [negb]; [|by intros [= <- <-]; eauto].
  destruct (Request.isValid request) eqn:Hval; cbn [negb]; [|by intros [= <- <-]; eauto].
  destruct (activeStreamCount p >=? maxConcurrentStreams p); [by intros [= <- <-]; eauto|].
  destruct (_ || _) eqn:Hid; [by intros [= <- <-]; eauto|].
  bool_to_prop. intros Hrun. right. split; [done|]. split; [done|]. split; [done|]. split; [lia|]. exact Hrun.
Qed.

Lemma run_ends {A B} (m : st t A) (k : A -> st t B) (P : B -> Prop) p b p' :
  (forall a q b q', k a q = Ok (b, q') -> P b) -> bind m k p = Ok (b, p') -> P b.
Proof. intros Hk. unfold bind. destruct (m p) as [[a q]|]; [apply Hk|done]. Qed.

Lemma submit_tail_id request id p r p' :
  submit_tail request id p = Ok (r, p') ->
  StepResult.hasSubmittedStream r = true /\ StepResult.submittedStreamId r = id.
Proof.
  set (P := fun r => StepResult.hasSubmittedStream r = true /\ StepResult.submittedStreamId r = id).
  change (submit_tail request id p = Ok (r, p') -> P r). unfold submit_tail.
  apply (run_ends _ _ P). intros q q1 r1 q1'. apply (run_ends _ _ P). intros [encoded hp] q2 r2 q2'.
  repeat (apply (run_ends _ _ P); intros ? ? ? ?). by intros [= <- <-].
Qed.

Hint Extern 1 (books _ _ (emitRequestHeaders _ _ _) _) => apply emitRequestHeaders_books; apply _ : books.
Hint Extern 1 (books _ _ (emitPendingRequestBody _ _) _) => apply emitPending_books; [apply _|noted] : books.

Lemma submit_tail_books request id r0 R `{!OpenLedger R} :
  (forall p, R (p, r0) (p, StepResult.push_event (streamOpened id) StepResult.empty)) ->
  books R r0 (submit_tail request id) result.
Proof.
  intros Hr. eapply books_pre; [apply _|exact Hr|]. unfold submit_tail. books.
Qed.

Lemma submitRequest_books R `{!OpenLedger R} request p r p' :
  submitRequest request p = Ok (r, p') ->
  (p' = p /\ refused r) \/
  (canSubmitRequests p = true /\ Request.isValid request = true /\
   nextStreamId p <> 0 /\ nextStreamId p <= 0x7ffffffe /\
   StepResult.hasSubmittedStream r = true /\ StepResult.submittedStreamId r = nextStreamId p /\
   R (opened_state request p, StepResult.push_event (streamOpened (nextStreamId p)) StepResult.empty) (p', r)).
Proof.
  intros Hrun. destruct (submitRequest_cases _ _ _ _ Hrun) as [?|(? & ? & ? & ? & Htail)]; [by left|right].
  destruct (submit_tail_id _ _ _ _ _ Htail) as [? ?]. split_and!; [done..|].
  by eapply (submit_tail_books request (nextStreamId p) _ R).
Qed.
End submitting.
