(* ===== verification/ProtocolRuns.v ===== *)
(** * Whole runs: streams, events and GOAWAY

    The four ledgers, and what they give for any sequence of calls on a new
    connection: stream identifiers, the life of every stream, the fate of
    every request, and GOAWAY. *)

From S2P Require Import Prelude Outcome ByteBuffer Types Flow Frame FrameFacts FrameCodec.
From S2P Require Import FrameParse HeaderRules Hpack ProtocolEvent Stream ProtocolState.
From S2P Require Import Protocol ProtocolHandlers ProtocolInv ProtocolFrame ProtocolFacts.
From S2P Require Import ProtocolSafety ProtocolOps ProtocolLedger.
Import Http2Protocol.

(** ** Ledgers of events

    These ledgers look at the state and the events only: they are open. *)

Class EventLedger (R : t * list ProtocolEvent -> t * list ProtocolEvent -> Prop) : Prop := {
  el_preorder :: PreOrder R;
  el_frame_l d p e p' e' : R (p, e) (p', e') -> R (p, d ++ e) (p', d ++ e');
  el_frame_r d p e p' e' : R (p, e) (p', e') -> R (p, e ++ d) (p', e' ++ d);
  (** assignments to other members *)
  el_same p p' e :
    streams p' = streams p -> nextStreamId p' = nextStreamId p -> sentGoaway p' = sentGoaway p ->
    R (p, e) (p', e);
  (** assignments to a stream *)
  el_update p id s s' e :
    streams p !! id = Some s -> Stream.remoteEndStreamReceived s' = Stream.remoteEndStreamReceived s ->
    R (p, e) (with_stream id s' p, e);
  el_note p e ev : plain_event ev = true -> R (p, e) (p, e ++ [ev]);
  (** a stream fails, its response is complete, it closes *)
  el_fail p id s e code :
    streams p !! id = Some s ->
    R (p, e) (without_stream id p, e ++ [streamClosed id code; responseFailed id code]);
  el_complete p id s s' e resp :
    streams p !! id = Some s -> R (p, e) (with_stream id s' p, e ++ [responseCompleted id resp]);
  el_close p id s e code :
    streams p !! id = Some s -> Stream.remoteEndStreamReceived s = true ->
    R (p, e) (without_stream id p, e ++ [streamClosed id code]);
  el_goaway p e id code debug :
    sentGoaway p = false -> R (p, e) (set_sentGoaway true p, e ++ [goAwaySent id code debug]);
}.

Definition on_events (R : t * list ProtocolEvent -> t * list ProtocolEvent -> Prop)
  (x y : t * StepResult.t) : Prop :=
  R (x.1, StepResult.events x.2) (y.1, StepResult.events y.2).

#[export] Instance event_ledger_open R : EventLedger R -> OpenLedger (on_events R).
Proof.
  intros HR. unfold on_events. apply open_ledger; [split|..]; cbn [fst snd StepResult.events StepResult.mergeStepResult
    StepResult.push_event StepResult.push_outbound StepResult.empty app].
  - split; [intros x; reflexivity|]. intros x y z Hxy Hyz. by etrans.
  - intros d p e p' e'. apply el_frame_l.
  - intros p e e' -> _. reflexivity.
  - intros p p' e [= Hs Hn Hg _ _ _ _ _ _ _]. by apply el_same.
  - intros p id s s' e Hs Hr _ _. by eapply el_update.
  - intros p e ev Hev. apply el_note. by destruct ev.
  - intros p e ev Hev. apply (el_frame_r (StepResult.events e) p [] p [ev]). apply (el_note p []). by destruct ev.
  - reflexivity.
  - intros p id s e code Hs. rewrite <- app_assoc. by eapply el_fail.
  - intros p id s e code Hs Hr. by eapply el_close.
  - intros p e code debug Hs. by apply el_goaway.
  - intros p p' e Hs Hn Hg. by apply el_same.
  - intros p id s s' e Hs Hr _. by eapply el_update.
  - intros p e ev Hev. by apply el_note.
  - reflexivity.
Qed.

#[export] Instance event_ledger_responses R : EventLedger R -> ResponseLedger (on_events R).
Proof.
  intros HR. split; [apply _|..]; unfold on_events; cbn [fst snd StepResult.events StepResult.push_event].
  - intros p id s s' e Hs Hr _. by eapply el_update.
  - intros p id s s' e resp Hs _. by eapply el_complete.
Qed.

(** ** What the events say *)

Definition opened_ids (e : list ProtocolEvent) : list Z :=
  omap (fun ev => match ev with streamOpened id => Some id | _ => None end) e.
Definition closed_ids (e : list ProtocolEvent) : list Z :=
  omap (fun ev => match ev with streamClosed id _ => Some id | _ => None end) e.
(** The streams whose request has got an answer. *)
Definition answered_ids (e : list ProtocolEvent) : list Z :=
  omap (fun ev => match ev with responseCompleted id _ | responseFailed id _ => Some id | _ => None end) e.
Definition goaways (e : list ProtocolEvent) : list Z :=
  omap (fun ev => match ev with goAwaySent last _ _ => Some last | _ => None end) e.

(** The live streams; those still waiting for the end of their response. *)
Definition live_ids (p : t) : list Z := (map_to_list (streams p)).*1.
Definition waiting (p : t) (id : Z) : Prop :=
  exists s, streams p !! id = Some s /\ Stream.remoteEndStreamReceived s = false.

Lemma omap_snoc_none {A B} (f : A -> option B) e x : f x = None -> omap f (e ++ [x]) = omap f e.
Proof. intros Hx. rewrite omap_app. cbn. by rewrite Hx, app_nil_r. Qed.

Lemma live_insert p id s s' :
  streams p !! id = Some s -> live_ids (with_stream id s' p) ≡ₚ live_ids p.
Proof.
  intros Hs. unfold live_ids, with_stream. cbn. rewrite <- (insert_delete_eq (streams p)).
  rewrite map_to_list_insert by apply lookup_delete_eq. cbn.
  rewrite <- (map_to_list_delete (streams p) id s Hs). done.
Qed.

Lemma live_delete p id s :
  streams p !! id = Some s -> live_ids p ≡ₚ id :: live_ids (without_stream id p).
Proof.
  intros Hs. unfold live_ids, without_stream. cbn. by rewrite <- (map_to_list_delete (streams p) id s Hs).
Qed.

(** ** The ledgers *)

(** Streams leave the table exactly when they are reported closed. *)
Definition streams_ledger (x y : t * list ProtocolEvent) : Prop :=
  live_ids y.1 ++ closed_ids y.2 ≡ₚ live_ids x.1 ++ closed_ids x.2.

#[export] Instance streams_ledger_ok : EventLedger streams_ledger.
Proof.
  unfold streams_ledger. split; cbn [fst snd].
  - split; [by intros [p e]|]. intros x y z Hxy Hyz. by rewrite Hyz.
  - intros d p e p' e' HR. unfold closed_ids in *. rewrite !omap_app.
    rewrite (Permutation_app_comm (omap _ d) (omap _ e')), (Permutation_app_comm (omap _ d) (omap _ e)), !app_assoc.
    by rewrite HR.
  - intros d p e p' e' HR. unfold closed_ids in *. rewrite !omap_app, !app_assoc. by rewrite HR.
  - intros p p' e Hs _ _. unfold live_ids. by rewrite Hs.
  - intros p id s s' e Hs _. by rewrite live_insert.
  - intros p e ev Hev. unfold closed_ids. rewrite omap_snoc_none; [done|by destruct ev].
  - intros p id s e code Hs. rewrite (live_delete p id s Hs). unfold closed_ids. rewrite omap_app. cbn.
    by rewrite app_assoc, Permutation_app_comm.
  - intros p id s s' e resp Hs. unfold closed_ids. rewrite omap_snoc_none by done. by rewrite live_insert.
  - intros p id s e code Hs _. rewrite (live_delete p id s Hs). unfold closed_ids. rewrite omap_app. cbn.
    by rewrite app_assoc, Permutation_app_comm.
  - intros p e id code debug _. unfold closed_ids. by rewrite omap_snoc_none.
Qed.

(** No request is forgotten: it waits or has been answered. *)
Definition answers_ledger (x y : t * list ProtocolEvent) : Prop :=
  forall id, waiting x.1 id \/ id ∈ answered_ids x.2 -> waiting y.1 id \/ id ∈ answered_ids y.2.

Lemma answered_app e e' id :
  id ∈ answered_ids (e ++ e') <-> id ∈ answered_ids e \/ id ∈ answered_ids e'.
Proof. unfold answered_ids. by rewrite omap_app, elem_of_app. Qed.

Lemma waiting_other p id s' j : j <> id -> waiting p j -> waiting (with_stream id s' p) j.
Proof. intros Hj (s & Hs & Hr). exists s. split; [|done]. unfold with_stream. cbn. by rewrite lookup_insert_ne. Qed.

Lemma waiting_removed p id j : j <> id -> waiting p j -> waiting (without_stream id p) j.
Proof. intros Hj (s & Hs & Hr). exists s. split; [|done]. unfold without_stream. cbn. by rewrite lookup_delete_ne. Qed.

#[export] Instance answers_ledger_ok : EventLedger answers_ledger.
Proof.
  unfold answers_ledger. split; cbn [fst snd].
  - split; [by intros [p e] id|]. intros x y z Hxy Hyz id Hid. auto.
  - intros d p e p' e' HR id. rewrite !answered_app. specialize (HR id). tauto.
  - intros d p e p' e' HR id. rewrite !answered_app. specialize (HR id). tauto.
  - intros p p' e Hs _ _ id. unfold waiting. by rewrite Hs.
  - intros p id s s' e Hs Hr j [Hj|Hj]; [left|by right]. destruct (decide (j = id)) as [->|]; [|by apply waiting_other].
    destruct Hj as (s0 & Hs0 & Hr0). exists s'. split; [apply with_stream_lookup|]. simplify_eq. congruence.
  - intros p e ev Hev id. rewrite answered_app. tauto.
  - intros p id s e code Hs j. rewrite answered_app. intros [Hj|Hj]; [|by right; left].
    destruct (decide (j = id)) as [->|]; [right; right; by apply list_elem_of_singleton|left; by apply waiting_removed].
  - intros p id s s' e resp Hs j. rewrite answered_app. intros [Hj|Hj]; [|by right; left].
    destruct (decide (j = id)) as [->|]; [right; right; by apply list_elem_of_singleton|left; by apply waiting_other].
  - intros p id s e code Hs Hr j. rewrite answered_app. intros [Hj|Hj]; [|by right; left].
    destruct (decide (j = id)) as [->|]; [|left; by apply waiting_removed].
    destruct Hj as (s0 & Hs0 & Hr0). congruence.
  - intros p e id code debug _ j. rewrite answered_app. tauto.
Qed.

(** Only [submitRequest] opens streams. *)
Definition opening_ledger (x y : t * list ProtocolEvent) : Prop :=
  nextStreamId y.1 = nextStreamId x.1 /\ opened_ids y.2 = opened_ids x.2.

#[export] Instance opening_ledger_ok : EventLedger opening_ledger.
Proof.
  unfold opening_ledger, opened_ids. split; cbn [fst snd].
  - split; [done|]. intros x y z [-> ->] [-> ->]. done.
  - intros d p e p' e' [-> HR]. split; [done|]. by rewrite !omap_app, HR.
  - intros d p e p' e' [-> HR]. split; [done|]. by rewrite !omap_app, HR.
  - done.
  - done.
  - intros p e ev Hev. split; [done|]. rewrite omap_snoc_none; [done|by destruct ev].
  - intros p id s e code _. split; [done|]. rewrite omap_app. cbn. by rewrite app_nil_r.
  - intros p id s s' e resp _. split; [done|]. by rewrite omap_snoc_none.
  - intros p id s e code _ _. split; [done|]. by rewrite omap_snoc_none.
  - intros p e id code debug _. split; [done|]. by rewrite omap_snoc_none.
Qed.

(** GOAWAY frames: those among the buffers to send, by their type byte, and
    those the events speak of. *)
Definition goaway_frames (bufs : list bytes) : list bytes := List.filter goaway_buffer bufs.
Definition announced (ev : ProtocolEvent) : option bytes :=
  match ev with
  | goAwaySent last code debug =>
      Some (GoAwayFrame.toBytes
              (GoAwayFrame.mk (FrameHeader.mk (u32 (8 + zlen debug)) FrameType.GOAWAY 0 0) last code debug))
  | _ => None
  end.

Definition announcements (e : list ProtocolEvent) : list bytes := omap announced e.

(** The same frames are sent and reported, one exactly when the flag goes up. *)
Definition goaway_ledger (x y : t * StepResult.t) : Prop :=
  exists l,
    goaway_frames (StepResult.outbound y.2) = goaway_frames (StepResult.outbound x.2) ++ l /\
    omap announced (StepResult.events y.2) = omap announced (StepResult.events x.2) ++ l /\
    (length l + Nat.b2n (sentGoaway x.1) = Nat.b2n (sentGoaway y.1))%nat.

(** Nothing about GOAWAY changes. *)
Lemma goaway_same p p' e e' :
  sentGoaway p' = sentGoaway p ->
  goaway_frames (StepResult.outbound e') = goaway_frames (StepResult.outbound e) ->
  omap announced (StepResult.events e') = omap announced (StepResult.events e) -> goaway_ledger (p, e) (p', e').
Proof. intros Hs Ho He. exists []. cbn [fst snd]. rewrite Hs, Ho, He, !app_nil_r. done. Qed.

Lemma goaway_pushed p e b : goaway_buffer b = false -> goaway_ledger (p, e) (p, StepResult.push_outbound b e).
Proof.
  intros Hb. apply goaway_same; [done| |done]. cbn. unfold goaway_frames. rewrite List.filter_app. cbn.
  by rewrite Hb, app_nil_r.
Qed.

Lemma goaway_noted p p' e ev :
  sentGoaway p' = sentGoaway p -> announced ev = None -> goaway_ledger (p, e) (p', StepResult.push_event ev e).
Proof. intros Hs Hev. apply goaway_same; [done|done|]. cbn. by rewrite omap_snoc_none. Qed.

#[export] Instance goaway_ledger_preorder : PreOrder goaway_ledger.
Proof.
  split; [intros [p e]; by apply goaway_same|]. intros x y z (l1 & Ho1 & He1 & Hn1) (l2 & Ho2 & He2 & Hn2).
  exists (l1 ++ l2). rewrite Ho2, Ho1, He2, He1, <- !app_assoc, length_app. split_and!; [done|done|lia].
Qed.

#[export] Instance goaway_ledger_open : OpenLedger goaway_ledger.
Proof.
  apply open_ledger; [split; [apply _|..]|..].
  - intros d p e p' e' (l & Ho & He & Hn). exists l. cbn [fst snd] in *.
    unfold goaway_frames in *. cbn [StepResult.mergeStepResult StepResult.outbound StepResult.events].
    rewrite !List.filter_app, !omap_app, Ho, He, !app_assoc. done.
  - intros p e e' He Ho. apply goaway_same; [done|by rewrite Ho|by rewrite He].
  - intros p p' e [= _ _ Hg _ _ _ _ _ _ _]. by apply goaway_same.
  - intros p id s s' e _ _ _ _. by apply goaway_same.
  - intros p e ev Hev. apply goaway_noted; [done|by destruct ev].
  - intros p e ev Hev. apply goaway_same; [done|done|]. cbn. by destruct ev.
  - intros p e b (_ & Hb & _)%quiet_buffer_split. by apply goaway_pushed.
  - intros p id s e code _. etrans; [apply (goaway_noted p p e (streamClosed id code)); done|by apply goaway_noted].
  - intros p id s e code _ _. by apply goaway_noted.
  - intros p e code debug Hs. exists [GoAwayFrame.toBytes (buildGoAwayFrame code debug p)]. cbn [fst snd].
    cbn [StepResult.outbound StepResult.events StepResult.push_event StepResult.push_outbound].
    unfold goaway_frames. rewrite List.filter_app, omap_app, Hs. split_and!; done.
  - intros p p' e _ _ Hg. by apply goaway_same.
  - intros p id s s' e _ _ _. by apply goaway_same.
  - intros p e ev Hev. apply goaway_noted; [done|by destruct ev].
  - intros p e b Hb. by apply goaway_pushed.
Qed.

#[export] Instance goaway_ledger_responses : ResponseLedger goaway_ledger.
Proof.
  split; [apply _|..].
  - intros p id s s' e _ _ _. by apply goaway_same.
  - intros p id s s' e resp _ _. by apply goaway_noted.
Qed.

(** Two ledgers kept at once. *)
Definition both (R1 R2 : t * list ProtocolEvent -> t * list ProtocolEvent -> Prop)
  (x y : t * list ProtocolEvent) : Prop := R1 x y /\ R2 x y.

#[export] Instance both_ok R1 R2 : EventLedger R1 -> EventLedger R2 -> EventLedger (both R1 R2).
Proof.
  intros [] []. unfold both. split; try (intros; split; by eauto).
  - split; [by intros x; split|]. intros x y z [? ?] [? ?]. split; by etrans.
  - intros d p e p' e' [? ?]. split; auto.
  - intros d p e p' e' [? ?]. split; auto.
Qed.

(** ** Runs *)

Section runs.
Context `{IterOrder}.

(** Calls that open no stream. *)
Lemma other_call_books R `{!Ledger R} c :
  (forall request, c <> CSubmit request) ->
  (forall data, c = CReceive data -> books R StepResult.empty (receiveBytes data) result) ->
  books R StepResult.empty (call_run c) result.
Proof.
  intros Hs Hr. destruct c as [|request|data|id code| | |]; cbn [call_run].
  - apply start_books, _.
  - by destruct (Hs request).
  - by apply Hr.
  - apply cancelStream_books, _.
  - apply sendPing_books, _.
  - apply close_books, _.
  - apply onTransportClosed_books, _.
Qed.

(** One call: the books are kept, the request is refused, or a new stream is
    opened first. *)
Lemma call_cases R `{!OpenLedger R} `{!ResponseLedger R} c p r p' :
  call_run c p = Ok (r, p') ->
  R (p, StepResult.empty) (p', r) \/ (p' = p /\ refused r) \/
  exists request, canSubmitRequests p = true /\ nextStreamId p <= 0x7ffffffe /\
    R (opened_state request p, StepResult.push_event (streamOpened (nextStreamId p)) StepResult.empty) (p', r).
Proof.
  intros Hrun. assert (Hc : (exists request, c = CSubmit request) \/ forall request, c <> CSubmit request)
    by (destruct c; eauto).
  destruct Hc as [[request ->]|Hc]; [|left].
  - destruct (submitRequest_books R request p r p' Hrun) as [?|(Hcan & _ & _ & Hid & _ & _ & HR)]; [by right; left|].
    do 2 right. by exists request.
  - apply (other_call_books R) in Hrun; [done|done|]. intros data _. apply receive_books; apply _.
Qed.

Definition call_kept (R : t * list ProtocolEvent -> t * list ProtocolEvent -> Prop)
  (p : t) (r : StepResult.t) (p' : t) : Prop :=
  R (p, []) (p', StepResult.events r) \/
  exists request, canSubmitRequests p = true /\ nextStreamId p <= 0x7ffffffe /\
    R (opened_state request p, [streamOpened (nextStreamId p)]) (p', StepResult.events r).

Lemma call_books R `{!EventLedger R} c p r p' :
  (forall p code, R (p, []) (p, [responseFailed 0 code])) ->
  call_run c p = Ok (r, p') -> call_kept R p r p'.
Proof.
  intros Hrefused Hrun. destruct (call_cases (on_events R) c p r p' Hrun) as [HR|[(-> & code & ->)|HR]]; [by left| |by right].
  left. apply Hrefused.
Qed.

(** An invariant of the calls made, their results and the state, shown call
    by call. *)
Definition run_events (rs : list StepResult.t) : list ProtocolEvent := concat (map StepResult.events rs).

(** All the buffers sent in a run. *)
Definition sent (rs : list StepResult.t) : list bytes := concat (map StepResult.outbound rs).

Lemma sent_snoc rs r : sent (rs ++ [r]) = sent rs ++ StepResult.outbound r.
Proof. unfold sent. rewrite map_app, concat_app. cbn. by rewrite app_nil_r. Qed.

Lemma run_events_snoc rs r : run_events (rs ++ [r]) = run_events rs ++ StepResult.events r.
Proof. unfold run_events. rewrite map_app, concat_app. cbn. by rewrite app_nil_r. Qed.

Lemma run_calls_invariant (P : list call -> list StepResult.t -> t -> Prop) calls p cs rs0 k :
  (forall c p r p' cs rs k k', call_ok c -> call_run c p = Ok (r, p') -> inv k p -> inv k' p' -> P cs rs p ->
     P (cs ++ [c]) (rs ++ [r]) p') ->
  Forall call_ok calls -> 0 <= k -> inv (k + calls_bytes calls + buffered p) p -> P cs rs0 p ->
  forall rs p', run_calls calls p = Ok (rs, p') -> P (cs ++ calls) (rs0 ++ rs) p'.
Proof.
  intros Hstep Hcalls Hk. revert p cs rs0.
  induction Hcalls as [|c calls Hc Hcalls IH]; intros p cs rs0 Hp HP rs p' Hrun; cbn [run_calls] in Hrun.
  - injection Hrun as <- <-. by rewrite !app_nil_r.
  - unfold bind in Hrun. destruct (call_run c p) as [[r q]|] eqn:Hcr; [|done].
    destruct (run_calls calls q) as [[rs' q']|] eqn:Hrs; [|done]. injection Hrun as <- <-.
    pose proof (call_bytes_nonneg c). pose proof (calls_bytes_nonneg calls).
    change (calls_bytes (c :: calls)) with (call_bytes c + calls_bytes calls) in Hp.
    pose proof (zlen_nonneg (FrameCodec.buffer (frameCodec p))) as Hb. fold (buffered p) in Hb.
    assert (Hq : step_ok (k + calls_bytes calls) r q).
    { assert (Hw : wp (fun _ => True) (call_run c) (step_ok (k + calls_bytes calls)) p).
      { eapply (call_step (E := fun _ => True)); [by left|done|reflexivity|lia|].
        eapply inv_mono; [done|]. lia. }
      by apply (wp_inv _ _ _ _ _ _ Hw Hcr). }
    change (c :: calls) with ([c] ++ calls). change (r :: rs') with ([r] ++ rs'). rewrite !app_assoc.
    eapply IH; [apply Hq| |exact Hrs]. by eapply Hstep; [..|apply Hq|].
Qed.

Lemma run_induction (P : list call -> list StepResult.t -> t -> Prop) config calls :
  ClientConfig.wf config -> Forall call_ok calls -> calls_bytes calls <= 2 ^ 31 ->
  P [] [] (make config) ->
  (forall c p r p' cs rs k k', call_ok c -> call_run c p = Ok (r, p') -> inv k p -> inv k' p' -> P cs rs p ->
     P (cs ++ [c]) (rs ++ [r]) p') ->
  match run_calls calls (make config) with
  | Ok (rs, p) => P calls rs p /\ inv 0 p
  | Fault f => f = erased_in_loop
  end.
Proof.
  intros Hconf Hcalls Hb HP Hstep.
  pose proof (run_from_make (fun f => f = erased_in_loop) config calls Hconf Hcalls Hb (or_introl eq_refl)) as Hrun.
  specialize (Hrun (Forall_true _ _ (fun _ => or_introl eq_refl))).
  destruct (run_calls calls (make config)) as [[rs p]|f] eqn:Hr; [|done]. destruct Hrun as [_ Hp]. split; [|done].
  eapply (run_calls_invariant P calls (make config) [] [] 0); [done|done|done| |done|done].
  apply make_inv; [done|]. change (buffered (make config)) with 0. pose proof (calls_bytes_nonneg calls). lia.
Qed.

(** ... of the events only. *)
Lemma run_from_new (P : list ProtocolEvent -> t -> Prop) config calls :
  ClientConfig.wf config -> Forall call_ok calls -> calls_bytes calls <= 2 ^ 31 ->
  P [] (make config) ->
  (forall c p r p' e k, call_run c p = Ok (r, p') -> inv k p -> P e p -> P (e ++ StepResult.events r) p') ->
  match run_calls calls (make config) with
  | Ok (rs, p) => P (run_events rs) p /\ inv 0 p
  | Fault f => f = erased_in_loop
  end.
Proof.
  intros Hconf Hcalls Hb HP Hstep. apply (run_induction (fun _ rs p => P (run_events rs) p)); [done..|].
  intros c p r p' cs rs k k' _ Hrun Hp _ He. rewrite run_events_snoc. by eapply Hstep.
Qed.
End runs.

(** ** One call *)

Section steps.
Context `{IterOrder}.

Lemma fresh_id k p : inv k p -> streams p !! nextStreamId p = None.
Proof.
  intros [Hp _]. destruct (streams p !! nextStreamId p) as [s|] eqn:Hs; [|done].
  destruct (v_streams _ _ Hp _ _ Hs). lia.
Qed.

Lemma live_opened k p request :
  inv k p -> live_ids (opened_state request p) ≡ₚ nextStreamId p :: live_ids p.
Proof.
  intros Hp. unfold live_ids, opened_state. cbn. by rewrite map_to_list_insert by (by eapply fresh_id).
Qed.

Lemma waiting_opened k p request id :
  inv k p -> waiting p id \/ id = nextStreamId p -> waiting (opened_state request p) id.
Proof.
  intros Hp [Hid| ->].
  - destruct Hid as (s & Hs & Hr). exists s. split; [|done]. cbn. rewrite lookup_insert_ne; [done|].
    intros <-. by rewrite (fresh_id _ _ Hp) in Hs.
  - eexists. split; [cbn; by rewrite lookup_insert_eq|done].
Qed.

Definition odd_ids (n : nat) : list Z := map (fun i => 2 * Z.of_nat i + 1) (seq 0 n).

Lemma odd_ids_S n : odd_ids (S n) = odd_ids n ++ [2 * Z.of_nat n + 1].
Proof. unfold odd_ids. by rewrite seq_S, map_app. Qed.

Lemma odd_ids_NoDup n : NoDup (odd_ids n).
Proof. unfold odd_ids. apply NoDup_fmap; [intros i j Hij; lia|apply NoDup_seq]. Qed.

Lemma ids_step c p r p' e k :
  call_run c p = Ok (r, p') -> inv k p ->
  (exists n, opened_ids e = odd_ids n /\ nextStreamId p = 2 * Z.of_nat n + 1) ->
  exists n, opened_ids (e ++ StepResult.events r) = odd_ids n /\ nextStreamId p' = 2 * Z.of_nat n + 1.
Proof.
  intros Hrun Hp (n & He & Hn). unfold opened_ids. rewrite omap_app. fold (opened_ids e) (opened_ids (StepResult.events r)).
  destruct (call_books opening_ledger c p r p' (fun _ _ => conj eq_refl eq_refl) Hrun)
    as [[Hn' Ho]|(request & _ & Hid & [Hn' Ho])]; cbn [fst snd] in *.
  - exists n. rewrite Ho. cbn. rewrite app_nil_r. split; [done|congruence].
  - exists (S n). rewrite Ho, odd_ids_S. cbn [opened_ids omap list_omap]. split; [cbn; congruence|].
    rewrite Hn'. cbn. rewrite u32_small; lia.
Qed.

Lemma accounting_step c p r p' e k :
  call_run c p = Ok (r, p') -> inv k p -> opened_ids e ≡ₚ live_ids p ++ closed_ids e ->
  opened_ids (e ++ StepResult.events r) ≡ₚ live_ids p' ++ closed_ids (e ++ StepResult.events r).
Proof.
  intros Hrun Hp He. unfold opened_ids, closed_ids. rewrite !omap_app.
  fold (opened_ids e) (opened_ids (StepResult.events r)) (closed_ids e) (closed_ids (StepResult.events r)).
  rewrite He. rewrite (Permutation_app_comm (closed_ids e) (closed_ids _)), (app_assoc (live_ids p')).
  destruct (call_books (both streams_ledger opening_ledger) c p r p') as [[Hs [_ Ho]]|(request & _ & _ & Hs & [_ Ho])];
    [intros q code; split; [unfold streams_ledger; reflexivity|done]|done| |]; unfold streams_ledger in Hs; cbn [fst snd] in Hs, Ho; rewrite Ho, Hs; cbn [opened_ids closed_ids omap list_omap app].
  - by rewrite !app_nil_r.
  - rewrite (live_opened k p request Hp), !app_nil_r, <- app_assoc. cbn.
    by rewrite app_assoc, <- Permutation_cons_append.
Qed.

Lemma answers_step c p r p' e k :
  call_run c p = Ok (r, p') -> inv k p ->
  (forall id, id ∈ opened_ids e -> waiting p id \/ id ∈ answered_ids e) ->
  forall id, id ∈ opened_ids (e ++ StepResult.events r) ->
    waiting p' id \/ id ∈ answered_ids (e ++ StepResult.events r).
Proof.
  intros Hrun Hp He id. unfold opened_ids. rewrite omap_app, elem_of_app. fold (opened_ids e) (opened_ids (StepResult.events r)).
  rewrite answered_app.
  assert (Hrefused : forall p code, both answers_ledger opening_ledger (p, []) (p, [responseFailed 0 code])).
  { intros q code. split; [|done]. intros j [Hj|Hj]; [by left|by apply elem_of_nil in Hj]. }
  destruct (call_books (both answers_ledger opening_ledger) c p r p' Hrefused Hrun)
    as [[Ha [_ Ho]]|(request & _ & _ & Ha & [_ Ho])]; cbn [fst snd] in *; specialize (Ha id); cbn [fst snd] in Ha;
    rewrite Ho; intros [Hid|Hid].
  - destruct (He id Hid); tauto.
  - by apply elem_of_nil in Hid.
  - destruct (He id Hid) as [Hw|]; [|tauto]. pose proof (waiting_opened k p request id Hp (or_introl Hw)). tauto.
  - apply list_elem_of_singleton in Hid. pose proof (waiting_opened k p request id Hp (or_intror Hid)). tauto.
Qed.

Lemma goaway_step c p r p' :
  call_run c p = Ok (r, p') ->
  goaway_frames (StepResult.outbound r) = omap announced (StepResult.events r) /\
  (length (goaway_frames (StepResult.outbound r)) + Nat.b2n (sentGoaway p) = Nat.b2n (sentGoaway p'))%nat.
Proof.
  intros Hrun. destruct (call_cases goaway_ledger c p r p' Hrun)
    as [(l & Ho & He & Hn)|[(-> & code & ->)|(request & _ & _ & l & Ho & He & Hn)]]; [|done|];
    cbn in Ho, He, Hn; by rewrite Ho, He.
Qed.
End steps.

(** ** Properties *)

(** C22: stream identifiers follow RFC 9113 section 5.1.1.  Over any run, on
    any input from the peer, the streams the client opens are numbered
    1, 3, 5, ... without gap or repetition, the next one is the next odd
    number, and the 31-bit identifier never wraps around. *)
Theorem stream_ids_consecutive `{IterOrder} config calls :
  ClientConfig.wf config -> Forall call_ok calls -> calls_bytes calls <= 2 ^ 31 ->
  match run_calls calls (make config) with
  | Ok (rs, p) => (exists n, opened_ids (run_events rs) = odd_ids n /\ nextStreamId p = 2 * Z.of_nat n + 1) /\
                  NoDup (opened_ids (run_events rs)) /\ nextStreamId p <= 2 ^ 31
  | Fault f => f = erased_in_loop
  end.
Proof.
  intros Hconf Hcalls Hb.
  pose proof (run_from_new (fun e p => exists n, opened_ids e = odd_ids n /\ nextStreamId p = 2 * Z.of_nat n + 1)
    config calls Hconf Hcalls Hb (ex_intro _ O (conj eq_refl eq_refl)) (fun _ _ _ _ _ _ => ids_step _ _ _ _ _ _)) as Hrun.
  destruct (run_calls calls (make config)) as [[rs p]|f]; [|done]. destruct Hrun as [[n [Hn Hp]] Hinv].
  split; [by exists n|]. split; [rewrite Hn; apply odd_ids_NoDup|apply Hinv].
Qed.

(** C14: the books of the stream table.  Over any run the streams that were
    opened are, each exactly once, either still in the table or reported
    closed by one [streamClosed] event; a stream never closes twice and none
    leaves the table silently.  On a closed connection all have been closed. *)
Theorem streams_accounted `{IterOrder} config calls :
  ClientConfig.wf config -> Forall call_ok calls -> calls_bytes calls <= 2 ^ 31 ->
  match run_calls calls (make config) with
  | Ok (rs, p) =>
      opened_ids (run_events rs) ≡ₚ live_ids p ++ closed_ids (run_events rs) /\
      (closed p = true -> opened_ids (run_events rs) ≡ₚ closed_ids (run_events rs))
  | Fault f => f = erased_in_loop
  end.
Proof.
  intros Hconf Hcalls Hb.
  pose proof (run_from_new (fun e p => opened_ids e ≡ₚ live_ids p ++ closed_ids e)
    config calls Hconf Hcalls Hb (reflexivity _) (fun _ _ _ _ _ _ => accounting_step _ _ _ _ _ _)) as Hrun.
  destruct (run_calls calls (make config)) as [[rs p]|f]; [|done]. destruct Hrun as [HP [_ Hcl]].
  split; [done|]. intros Hc. rewrite HP. unfold live_ids. by rewrite (Hcl Hc).
Qed.

(** C13: no request is lost.  Over any run, each stream that was opened is
    still in the table with its response unfinished, or the client has been
    told its outcome by [responseCompleted] or [responseFailed]; once the
    connection is closed - by the caller, by the peer or by an error - every
    request has been answered. *)
Theorem requests_answered `{IterOrder} config calls :
  ClientConfig.wf config -> Forall call_ok calls -> calls_bytes calls <= 2 ^ 31 ->
  match run_calls calls (make config) with
  | Ok (rs, p) => forall id, id ∈ opened_ids (run_events rs) ->
      (waiting p id \/ id ∈ answered_ids (run_events rs)) /\
      (closed p = true -> id ∈ answered_ids (run_events rs))
  | Fault f => f = erased_in_loop
  end.
Proof.
  intros Hconf Hcalls Hb.
  pose proof (run_from_new (fun e p => forall id, id ∈ opened_ids e -> waiting p id \/ id ∈ answered_ids e)
    config calls Hconf Hcalls Hb) as Hrun.
  destruct (run_calls calls (make config)) as [[rs p]|f]; [|apply Hrun; [by intros id ?%elem_of_nil|apply answers_step]].
  destruct Hrun as [HP [_ Hcl]]; [by intros id ?%elem_of_nil|apply answers_step|].
  intros id Hid. split; [auto|]. intros Hc. destruct (HP id Hid) as [(s & Hs & _)|]; [|done].
  by rewrite (Hcl Hc), lookup_empty in Hs.
Qed.

(** C23: at most one GOAWAY.  Over any run the GOAWAY frames among all the
    buffers the client sends are those its [goAwaySent] events report - the
    same last stream, error code and debug data, as GOAWAY frames on stream
    0 - and there is one of them exactly when the [sentGoaway] flag is up, and
    otherwise none. *)
Theorem goaway_at_most_once `{IterOrder} config calls :
  ClientConfig.wf config -> Forall call_ok calls -> calls_bytes calls <= 2 ^ 31 ->
  match run_calls calls (make config) with
  | Ok (rs, p) =>
      length (goaway_frames (sent rs)) = Nat.b2n (sentGoaway p) /\
      goaway_frames (sent rs) = announcements (run_events rs)
  | Fault f => f = erased_in_loop
  end.
Proof.
  intros Hconf Hcalls Hb.
  pose proof (run_induction (fun _ rs p => length (goaway_frames (sent rs)) = Nat.b2n (sentGoaway p) /\
    goaway_frames (sent rs) = announcements (run_events rs)) config calls Hconf Hcalls Hb (conj eq_refl eq_refl)) as Hrun.
  destruct (run_calls calls (make config)) as [[rs p]|f]; (apply Hrun || refine (proj1 (Hrun _)));
    intros c q r q' cs rs' k k' _ Hc _ _ [Hl He]; destruct (goaway_step _ _ _ _ Hc) as [Hr Hn];
    rewrite sent_snoc, run_events_snoc; unfold announcements, goaway_frames in *; rewrite omap_app; rewrite List.filter_app, length_app, He, Hr;
    rewrite He, Hr in *; (split; [lia|done]).
Qed.

(** *** A run to apply them to *)

Definition goaway_calls : list call :=
  [CStart; CReceive (SettingFrame.toBytes (SettingFrame.mk (FrameHeader.mk 0 FrameType.SETTINGS 0 0) []));
   CSubmit (example_request []); CSubmit (example_request [x00]); CCancel 1 ErrorCode.CANCEL;
   CSubmit (example_request []); CReceive [x00; x00; x00; x00; x00; x00; x00; x00; x00]].

Lemma goaway_calls_ok :
  ClientConfig.wf ClientConfig.default /\ Forall call_ok goaway_calls /\ calls_bytes goaway_calls <= 2 ^ 31.
Proof.
  split; [vm_compute; repeat split; discriminate|]. split; [|vm_compute; discriminate].
  repeat (apply Forall_cons_2; [vm_compute; done|]). apply Forall_nil_2.
Qed.

Definition goaway_run : option (list Z * list Z * list Z * list Z * bool) :=
  match run_calls goaway_calls (make ClientConfig.default) with
  | Ok (rs, p) =>
      let e := run_events rs in Some (opened_ids e, closed_ids e, answered_ids e, goaways e, closed p)
  | Fault _ => None
  end.

(** Three requests, one cancelled; DATA on stream 0 then closes the
    connection and fails the other two. *)
Example goaway_run_result : goaway_run = Some ([1; 3; 5], [1; 5; 3], [1; 5; 3], [0], true).
Proof. vm_compute. reflexivity. Qed.

Lemma stream_ids_consecutive_witness :
  match run_calls goaway_calls (make ClientConfig.default) with
  | Ok (rs, p) => (exists n, opened_ids (run_events rs) = odd_ids n /\ nextStreamId p = 2 * Z.of_nat n + 1) /\
                  NoDup (opened_ids (run_events rs)) /\ nextStreamId p <= 2 ^ 31
  | Fault f => f = erased_in_loop
  end.
Proof. apply (stream_ids_consecutive ClientConfig.default goaway_calls); apply goaway_calls_ok. Defined.

Lemma streams_accounted_witness :
  match run_calls goaway_calls (make ClientConfig.default) with
  | Ok (rs, p) =>
      opened_ids (run_events rs) ≡ₚ live_ids p ++ closed_ids (run_events rs) /\
      (closed p = true -> opened_ids (run_events rs) ≡ₚ closed_ids (run_events rs))
  | Fault f => f = erased_in_loop
  end.
Proof. apply (streams_accounted ClientConfig.default goaway_calls); apply goaway_calls_ok. Defined.

Lemma requests_answered_witness :
  match run_calls goaway_calls (make ClientConfig.default) with
  | Ok (rs, p) => forall id, id ∈ opened_ids (run_events rs) ->
      (waiting p id \/ id ∈ answered_ids (run_events rs)) /\
      (closed p = true -> id ∈ answered_ids (run_events rs))
  | Fault f => f = erased_in_loop
  end.
Proof. apply (requests_answered ClientConfig.default goaway_calls); apply goaway_calls_ok. Defined.

Lemma goaway_at_most_once_witness :
  match run_calls goaway_calls (make ClientConfig.default) with
  | Ok (rs, p) => length (goaway_frames (sent rs)) = Nat.b2n (sentGoaway p) /\
      goaway_frames (sent rs) = announcements (run_events rs)
  | Fault f => f = erased_in_loop
  end.
Proof. apply (goaway_at_most_once ClientConfig.default goaway_calls); apply goaway_calls_ok. Defined.
