(* ===== verification/Wire.v ===== *)
(** * What the buffers to send say

    A buffer of [ProtocolStepResult::outbound] read the way a receiver reads
    it, with the code's own codec and frame constructors: the DATA frames of a
    stream, and the header blocks of the connection. *)

From S2P Require Import Prelude Outcome ByteBuffer Types Flow Frame FrameFacts FrameCodec.
From S2P Require Import HpackFacts HeaderRules Hpack ProtocolEvent Stream ProtocolState Protocol ProtocolFacts.
From S2P Require Import ProtocolLedger.

(** ** One buffer *)

(** The frame a buffer holds. *)
Definition read_buffer (b : bytes) : option RawFrame.t :=
  match FrameCodec.tryPop (FrameCodec.feed b FrameCodec.init) with
  | Ok (Some frame, _) => Some frame
  | _ => None
  end.

(** The stream, the END_STREAM flag and the data of a DATA frame. *)
Definition data_of (b : bytes) : option (Z * (bool * bytes)) :=
  match read_buffer b with
  | Some raw =>
      if FrameHeader.type (RawFrame.header raw) =? FrameType.DATA then
        match DataFrame.parse raw with
        | Ok f => Some (FrameHeader.streamId (DataFrame.header f),
                        (FrameHeader.hasEndStreamFlag (DataFrame.header f), DataFrame.data f))
        | Fault _ => None
        end
      else None
  | None => None
  end.

(** A fragment of a header block: its stream, END_HEADERS and its bytes. *)
Definition fragment_of (b : bytes) : option (Z * (bool * bytes)) :=
  match read_buffer b with
  | Some raw =>
      let ty := FrameHeader.type (RawFrame.header raw) in
      if ty =? FrameType.HEADERS then
        match HeadersFrame.parse raw with
        | Ok f => Some (FrameHeader.streamId (HeadersFrame.header f),
                        (FrameHeader.hasEndHeadersFlag (HeadersFrame.header f), HeadersFrame.data f))
        | Fault _ => None
        end
      else if ty =? FrameType.CONTINUATION then
        match ContinuationFrame.parse raw with
        | Ok f => Some (FrameHeader.streamId (ContinuationFrame.header f),
                        (FrameHeader.hasEndHeadersFlag (ContinuationFrame.header f), ContinuationFrame.data f))
        | Fault _ => None
        end
      else None
  | None => None
  end.

Lemma read_frame f :
  frame_wf f -> read_buffer (frame_toBytes f) = Some (RawFrame.mk (frame_header f) (zdrop 9 (frame_toBytes f))).
Proof.
  intros Hf. unfold read_buffer. pose proof (FrameCodec.feed_buffer (frame_toBytes f) FrameCodec.init) as Hb.
  destruct (FrameCodec.feed _ _) as [b]. cbn in Hb. subst b. rewrite <- (app_nil_r (frame_toBytes f)) at 1.
  by rewrite (tryPop_frame f [] Hf).
Qed.

(** The type byte is the fourth. *)
Lemma read_buffer_type b raw :
  read_buffer b = Some raw -> buffer_type b = Some (FrameHeader.type (RawFrame.header raw)).
Proof.
  unfold read_buffer. pose proof (FrameCodec.feed_buffer b FrameCodec.init) as Hb. cbn in Hb.
  destruct (FrameCodec.tryPop_spec (FrameCodec.feed b FrameCodec.init))
    as [->|(f & rest & -> & _ & hd & Hhd & Hbuf & Hdec)]; [done|]. intros [= <-].
  rewrite Hb in Hbuf. subst b. do 9 (destruct hd as [|? hd]; [done|]).
  rewrite zlen_cons in Hhd. destruct hd; [|rewrite !zlen_cons in Hhd; pose proof (zlen_nonneg hd); lia].
  rewrite header_decode_bytes in Hdec. by injection Hdec as <-.
Qed.

Lemma quiet_no_data b : request_buffer b = false -> data_of b = None.
Proof.
  unfold request_buffer, data_of. destruct (read_buffer b) as [raw|] eqn:Hr; [|done].
  rewrite (read_buffer_type _ _ Hr). intros Hq. by destruct (_ =? FrameType.DATA).
Qed.

Lemma calm_no_fragment b : header_buffer b = false -> fragment_of b = None.
Proof.
  unfold header_buffer, fragment_of. destruct (read_buffer b) as [raw|] eqn:Hr; [|done].
  rewrite (read_buffer_type _ _ Hr). cbv zeta. intros Hq.
  destruct (_ =? FrameType.HEADERS); [done|]. by destruct (_ =? FrameType.CONTINUATION).
Qed.

(** A buffer with a fragment acknowledges nothing. *)
Lemma fragment_no_ack b x : fragment_of b = Some x -> ack_buffer b = false.
Proof.
  unfold fragment_of, ack_buffer. destruct (read_buffer b) as [raw|] eqn:Hr; [|done].
  rewrite (read_buffer_type _ _ Hr). cbv zeta. destruct (b2z <$> _); [|done].
  destruct (Z.eqb_spec (FrameHeader.type (RawFrame.header raw)) FrameType.HEADERS) as [->|]; [done|].
  by destruct (Z.eqb_spec (FrameHeader.type (RawFrame.header raw)) FrameType.CONTINUATION) as [->|].
Qed.

Lemma data_of_frame id flags d :
  zlen d < 2 ^ 24 -> flags = 0 \/ flags = 1 -> 0 <= id < 2 ^ 31 ->
  data_of (DataFrame.toBytes (data_frame id flags d)) = Some (id, (negb (flags =? 0), d)).
Proof.
  intros Hd Hf Hid. pose proof (data_frame_wf (zlen d) flags id d eq_refl Hd Hf Hid) as Hwf.
  pose proof (read_frame (FData (data_frame id flags d)) Hwf) as Hread.
  pose proof (data_roundtrip (data_frame id flags d) Hwf) as Hp. cbn [frame_header frame_toBytes] in Hread.
  unfold data_of. rewrite Hread. change (FrameHeader.type _ =? FrameType.DATA) with true. cbn iota.
  rewrite Hp. by destruct Hf as [->| ->].
Qed.

Lemma fragment_no_data b x : fragment_of b = Some x -> data_of b = None.
Proof.
  unfold fragment_of, data_of. destruct (read_buffer b) as [raw|]; [|done]. cbv zeta.
  destruct (Z.eqb_spec (FrameHeader.type (RawFrame.header raw)) FrameType.DATA) as [->|]; done.
Qed.

(** ** The DATA frames of a stream *)

(** END_STREAM and data of each, in the order sent. *)
Definition data_on (id : Z) (out : list bytes) : list (bool * bytes) :=
  omap (fun x => if fst x =? id then Some (snd x) else None) (omap data_of out).

Definition payload (fs : list (bool * bytes)) : bytes := concat fs.*2.

(** Bytes of DATA sent, over all streams. *)
Definition data_sent (out : list bytes) : Z :=
  zlen (concat (map (fun x => snd (snd x)) (omap data_of out))).

(** [delivers body fs rest]: each frame carries the next bytes, at least one,
    and END_STREAM exactly when nothing is left; [rest] is still to send. *)
Inductive delivers : bytes -> list (bool * bytes) -> bytes -> Prop :=
| dl_none rest : delivers rest [] rest
| dl_frame d left fs rest :
    d <> [] -> delivers left fs rest -> delivers (d ++ left) ((bool_decide (left = []), d) :: fs) rest.

Lemma delivers_payload body fs rest : delivers body fs rest -> body = payload fs ++ rest.
Proof.
  unfold payload. induction 1 as [|d left fs rest Hd _ IH]; [done|]. cbn. by rewrite IH, <- app_assoc.
Qed.

Lemma delivers_app body fs mid gs rest :
  delivers body fs mid -> delivers mid gs rest -> delivers body (fs ++ gs) rest.
Proof. induction 1; [done|]. intros. cbn. constructor; auto. Qed.

Lemma data_on_app id a b : data_on id (a ++ b) = data_on id a ++ data_on id b.
Proof. unfold data_on. by rewrite !omap_app. Qed.
Lemma data_sent_app a b : data_sent (a ++ b) = data_sent a + data_sent b.
Proof. unfold data_sent. by rewrite omap_app, map_app, concat_app, zlen_app. Qed.
Lemma payload_app a b : payload (a ++ b) = payload a ++ payload b.
Proof. unfold payload. by rewrite fmap_app, concat_app. Qed.

(** The frames of [emitPendingRequestBody]. *)
Lemma data_frames_sent maxSize id fin d fs :
  data_frames maxSize id fin d fs -> 0 < maxSize < 2 ^ 24 -> 0 <= id < 2 ^ 31 ->
  data_sent (map DataFrame.toBytes fs) = zlen d /\
  (forall j, j <> id -> data_on j (map DataFrame.toBytes fs) = []) /\
  (forall rest, fin = bool_decide (rest = []) ->
     delivers (d ++ rest) (data_on id (map DataFrame.toBytes fs)) rest) /\
  payload (data_on id (map DataFrame.toBytes fs)) = d.
Proof.
  intros Hd Hm Hid. induction Hd as [|x Hx|x left fs Hx Hne Hd IH]; cbn [map].
  - split_and!; [done|done|intros; constructor|done].
  - assert (Hone : data_of (DataFrame.toBytes (data_frame id (if fin then FrameFlag.END_STREAM else 0) x))
      = Some (id, (fin, x))) by (rewrite data_of_frame; [by destruct fin|lia|destruct fin; auto|done]).
    unfold data_sent, data_on, payload. cbn. rewrite Hone. cbn. rewrite Z.eqb_refl. cbn. rewrite !app_nil_r.
    split_and!; [done| | |done].
    + intros j Hj. by destruct (Z.eqb_spec id j) as [->|].
    + intros rest ->. constructor; [intros ->; change (zlen (@nil byte)) with 0 in Hx; lia|constructor].
  - assert (Hone : data_of (DataFrame.toBytes (data_frame id 0 x)) = Some (id, (false, x)))
      by (rewrite data_of_frame; [done|lia|auto|done]).
    destruct IH as (IH1 & IH2 & IH3 & IH4). unfold data_sent, data_on, payload in *. cbn. rewrite Hone. cbn. rewrite Z.eqb_refl. cbn.
    rewrite !zlen_app, IH1, IH4. split_and!; [done| | |done].
    + intros j Hj. specialize (IH2 j Hj). destruct (Z.eqb_spec id j); [congruence|]. exact IH2.
    + intros rest Hr. rewrite <- app_assoc.
      rewrite <- (bool_decide_false (left ++ rest = [])) by (intros [Hl _]%app_eq_nil; done).
      constructor; [intros ->; change (zlen (@nil byte)) with 0 in Hx; lia|by apply IH3].
Qed.

(** ** Header blocks *)

(** The frames of one block: a HEADERS frame, when it is the start of the
    block, then CONTINUATION frames, on stream [id] and with the fragments of
    [block]; the last has END_HEADERS. *)
Definition starts_block (b : bytes) : bool :=
  match buffer_type b with Some ty => ty =? FrameType.HEADERS | None => false end.

Inductive block_frames (id : Z) : bool -> bytes -> list bytes -> Prop :=
| bf_last first d b :
    fragment_of b = Some (id, (true, d)) -> starts_block b = first -> block_frames id first d [b]
| bf_more first d rest b frames :
    fragment_of b = Some (id, (false, d)) -> starts_block b = first -> block_frames id false rest frames ->
    block_frames id first (d ++ rest) (b :: frames).

Lemma block_frames_no_data id first block frames : block_frames id first block frames -> omap data_of frames = [].
Proof.
  induction 1 as [first d b Hb _|first d rest b frames Hb _ _ IH]; cbn; by rewrite (fragment_no_data _ _ Hb).
Qed.

Definition append_out (r : StepResult.t) (frames : list bytes) : StepResult.t :=
  StepResult.mk (StepResult.outbound r ++ frames) (StepResult.events r)
    (StepResult.hasSubmittedStream r) (StepResult.submittedStreamId r).

Lemma fragment_of_headers n flags id d :
  zlen d = n -> n < 2 ^ 24 -> flags = 0 \/ flags = 4 \/ flags = 5 -> 0 <= id < 2 ^ 31 ->
  fragment_of (HeadersFrame.toBytes (HeadersFrame.mk (FrameHeader.mk n FrameType.HEADERS flags id) 0 0 0 d []))
  = Some (id, (negb (flags =? 0), d)).
Proof.
  intros Hd Hn Hf Hid. pose proof (headers_frame_wf n flags id d Hd Hn Hf Hid) as Hwf.
  set (f := HeadersFrame.mk _ _ _ _ _ _) in *. pose proof (read_frame (FHeaders f) Hwf) as Hread.
  pose proof (headers_roundtrip f Hwf) as Hp. cbn [frame_header frame_toBytes] in Hread.
  unfold fragment_of. rewrite Hread. cbv zeta. change (FrameHeader.type _ =? FrameType.HEADERS) with true. cbn iota.
  rewrite Hp. by destruct Hf as [->|[->| ->]].
Qed.

Lemma fragment_of_continuation n flags id d :
  zlen d = n -> n < 2 ^ 24 -> flags = 0 \/ flags = 4 -> 0 <= id < 2 ^ 31 ->
  fragment_of (ContinuationFrame.toBytes (ContinuationFrame.mk (FrameHeader.mk n FrameType.CONTINUATION flags id) d))
  = Some (id, (negb (flags =? 0), d)).
Proof.
  intros Hd Hn Hf Hid. assert (Hf8 : 0 <= flags < 2 ^ 8) by lia.
  pose proof (continuation_frame_wf n flags id d Hd Hn Hf8 Hid) as Hwf.
  set (f := ContinuationFrame.mk _ _) in *. pose proof (read_frame (FContinuation f) Hwf) as Hread.
  cbn [frame_header frame_toBytes] in Hread. unfold fragment_of. rewrite Hread. cbv zeta.
  change (FrameHeader.type _ =? FrameType.HEADERS) with false.
  change (FrameHeader.type _ =? FrameType.CONTINUATION) with true. cbn iota.
  unfold ContinuationFrame.parse. cbn [RawFrame.header RawFrame.data ContinuationFrame.header ContinuationFrame.data].
  unfold ContinuationFrame.toBytes. rewrite zdrop_header. by destruct Hf as [->| ->].
Qed.
