(* ===== verification/ProtocolSends.v ===== *)
(** * The accounts of what is sent

    The ledger of DATA: every byte sent is charged to the window of its
    stream and to the connection's, the peer's credits are entered once, and
    the DATA frames of a stream carry its request body in order.  Frames and
    calls that send no part of a request are [quiet]: a ledger only has to
    say what SETTINGS, WINDOW_UPDATE and new requests do. *)

From S2P Require Import Prelude Outcome ByteBuffer Types Flow Frame FrameFacts FrameCodec FrameParse.
From S2P Require Import HpackFacts HeaderRules Hpack ProtocolEvent Stream ProtocolState.
From S2P Require Import Protocol ProtocolHandlers ProtocolInv ProtocolFacts ProtocolLedger Wire.
Import Http2Protocol.

(** ** Quiet steps *)

(** The credits the peer has given: stream (0: connection) and bytes. *)
Definition credits (e : list ProtocolEvent) : list (Z * Z) :=
  omap (fun ev => match ev with windowUpdateReceived id n => Some (id, n) | _ => None end) e.

(** No stream appears, and those that stay can send what they could. *)
Definition streams_kept (p p' : t) : Prop :=
  forall id s', streams p' !! id = Some s' -> exists s, streams p !! id = Some s /\ same_sending s s'.

Record quiet (x y : t * StepResult.t) : Prop := {
  q_streams : streams_kept x.1 y.1;
  q_conn : connectionOutFlow y.1 = connectionOutFlow x.1;
  q_next : nextStreamId y.1 = nextStreamId x.1;
  q_window : initialWindowSize y.1 = initialWindowSize x.1;
  q_max : maxFrameSize y.1 = maxFrameSize x.1;
  q_data : omap data_of (StepResult.outbound y.2) = omap data_of (StepResult.outbound x.2);
  q_credits : credits (StepResult.events y.2) = credits (StepResult.events x.2);
}.

Lemma same_sending_refl s : same_sending s s.
Proof. done. Qed.
Lemma same_sending_trans s1 s2 s3 : same_sending s1 s2 -> same_sending s2 s3 -> same_sending s1 s3.
Proof. intros [H1 H2] [H3 H4]. split; [congruence|auto]. Qed.

Lemma streams_kept_refl p : streams_kept p p.
Proof. intros id s Hs. eauto using same_sending_refl. Qed.
Lemma streams_kept_with p id s s' :
  streams p !! id = Some s -> same_sending s s' -> streams_kept p (with_stream id s' p).
Proof.
  intros Hs Hss j sj. unfold with_stream. cbn. destruct (decide (j = id)) as [->|].
  - rewrite lookup_insert_eq. intros [= <-]. eauto.
  - rewrite lookup_insert_ne by done. eauto using same_sending_refl.
Qed.
Lemma streams_kept_without p id : streams_kept p (without_stream id p).
Proof.
  intros j sj. unfold without_stream. cbn. intros [_ Hj]%lookup_delete_Some. eauto using same_sending_refl.
Qed.

#[export] Instance quiet_preorder : PreOrder quiet.
Proof.
  split.
  - intros x. constructor; [apply streams_kept_refl|done..].
  - intros x y z [] []. constructor; [|congruence..].
    intros id s3 Hs3. destruct (q_streams1 id s3 Hs3) as (s2 & Hs2 & H23).
    destruct (q_streams0 id s2 Hs2) as (s1 & Hs1 & H12). eauto using same_sending_trans.
Qed.

Lemma quiet_event_credits e ev : quiet_event ev = true -> credits (e ++ [ev]) = credits e.
Proof. intros Hev. unfold credits. rewrite omap_app. destruct ev; cbn; (done || by rewrite app_nil_r). Qed.

(** A state and a result that differ in nothing that matters. *)
Lemma quiet_state p p' e e' :
  streams_kept p p' -> connectionOutFlow p' = connectionOutFlow p -> nextStreamId p' = nextStreamId p ->
  initialWindowSize p' = initialWindowSize p -> maxFrameSize p' = maxFrameSize p ->
  StepResult.outbound e' = StepResult.outbound e ->
  credits (StepResult.events e') = credits (StepResult.events e) -> quiet (p, e) (p', e').
Proof. intros ? ? ? ? ? Ho ?. constructor; cbn [fst snd]; rewrite ?Ho; done. Qed.

(** Sending a buffer that carries no part of a request. *)
Lemma quiet_buffer_pushed p e b : request_buffer b = false -> quiet (p, e) (p, StepResult.push_outbound b e).
Proof.
  intros Hb. constructor; cbn [fst snd StepResult.push_outbound StepResult.outbound StepResult.events]; try done;
    [apply streams_kept_refl|..]; rewrite omap_app; cbn;
    rewrite ?(quiet_no_data b Hb), app_nil_r; done.
Qed.

#[export] Instance quiet_ledger : Ledger quiet.
Proof.
  split; [apply _|..].
  - intros d p e p' e' []. constructor; cbn [fst snd] in *; try done;
      cbn [StepResult.mergeStepResult StepResult.outbound StepResult.events]; unfold credits in *; rewrite !omap_app; congruence.
  - intros p e e' He Ho. apply quiet_state; try done; [apply streams_kept_refl|by rewrite He].
  - intros p p' e [= Hs Hn _ Hc Hi Hm _ _ _ _]. apply quiet_state; try done.
    intros id s. rewrite Hs. eauto using same_sending_refl.
  - intros p id s s' e Hs _ _ Hss. apply quiet_state; try done. by eapply streams_kept_with.
  - intros p e ev Hev. apply quiet_state; try done; [apply streams_kept_refl|by apply quiet_event_credits].
  - intros p e ev Hev. apply quiet_state; try done; [apply streams_kept_refl|].
    unfold credits. cbn. by destruct ev.
  - intros p e b (Hb & _ & _)%quiet_buffer_split. by apply quiet_buffer_pushed.
  - intros p id s e code Hs. apply quiet_state; try done; [by apply streams_kept_without|].
    cbn. unfold credits. by rewrite <- app_assoc, omap_app, app_nil_r.
  - intros p id s e code Hs _. apply quiet_state; try done; [by apply streams_kept_without|].
    unfold credits. cbn. by rewrite omap_app, app_nil_r.
  - intros p e code debug _.
    etrans; [by apply (quiet_buffer_pushed p e (GoAwayFrame.toBytes (buildGoAwayFrame code debug p)))|].
    apply quiet_state; try done; [apply (streams_kept_refl p)|].
    unfold credits. cbn. by rewrite omap_app, app_nil_r.
Qed.

#[export] Instance quiet_responses : ResponseLedger quiet.
Proof.
  split; [apply _|..].
  - intros p id s s' e Hs _ Hss. apply quiet_state; try done. by eapply streams_kept_with.
  - intros p id s s' e resp Hs Hss. apply quiet_state; try done; [by eapply streams_kept_with|].
    unfold credits. cbn. by rewrite omap_app, app_nil_r.
Qed.

(** A relation that holds of quiet steps is a ledger. *)
Lemma ledger_of_quiet (R : t * StepResult.t -> t * StepResult.t -> Prop) :
  PreOrder R ->
  (forall d p e p' e', R (p, e) (p', e') -> R (p, d ⊕ e) (p', d ⊕ e')) ->
  (forall x y, quiet x y -> R x y) -> ResponseLedger R.
Proof.
  intros HR Hframe Hq. split; [split; [done|done|..]|..]; intros; apply Hq;
    first [by apply lg_report | by apply lg_same | by eapply lg_update | by apply lg_note
          | by apply lg_note_first | by apply lg_push | by eapply lg_fail | by eapply lg_close
          | by apply lg_goaway | by eapply rl_body | by eapply rl_complete].
Qed.

(** ** Header blocks and acknowledgements

    [calm]: no part of a header block and no acknowledgement of SETTINGS is
    sent, and the header encoder is left alone. *)

Definition calm (x y : t * StepResult.t) : Prop :=
  enc_part (hpack y.1) = enc_part (hpack x.1) /\
  exists more, StepResult.outbound y.2 = StepResult.outbound x.2 ++ more /\ Forall (fun b => calm_buffer b = true) more.

Lemma calm_state p p' e e' :
  enc_part (hpack p') = enc_part (hpack p) -> StepResult.outbound e' = StepResult.outbound e -> calm (p, e) (p', e').
Proof. intros Hh Ho. split; [done|]. exists []. cbn [fst snd]. by rewrite Ho, app_nil_r. Qed.

Lemma calm_pushed p e b : calm_buffer b = true -> calm (p, e) (p, StepResult.push_outbound b e).
Proof. intros Hb. split; [done|]. exists [b]. split; [done|]. by apply Forall_singleton. Qed.

#[export] Instance calm_preorder : PreOrder calm.
Proof.
  split; [intros [p e]; by apply calm_state|].
  intros x y z (Hh1 & m1 & Ho1 & Hm1) (Hh2 & m2 & Ho2 & Hm2). split; [congruence|]. exists (m1 ++ m2).
  rewrite Ho2, Ho1, app_assoc. split; [done|]. by apply Forall_app.
Qed.

#[export] Instance calm_ledger : Ledger calm.
Proof.
  split; [apply _|..].
  - intros d p e p' e' (Hh & more & Ho & Hm). split; [done|]. exists more. cbn [fst snd] in *.
    cbn [StepResult.mergeStepResult StepResult.outbound]. by rewrite Ho, app_assoc.
  - intros p e e' _ Ho. by apply calm_state.
  - intros p p' e [= _ _ _ _ _ _ He1 He2 He3 He4]. apply calm_state; [|done]. unfold enc_part. congruence.
  - intros p id s s' e _ _ _ _. by apply calm_state.
  - intros p e ev _. by apply calm_state.
  - intros p e ev _. by apply calm_state.
  - intros p e b (_ & _ & Hb)%quiet_buffer_split. by apply calm_pushed.
  - intros p id s e code _. by apply calm_state.
  - intros p id s e code _ _. by apply calm_state.
  - intros p e code debug _.
    etrans; [by apply (calm_pushed p e (GoAwayFrame.toBytes (buildGoAwayFrame code debug p)))|]. by apply calm_state.
Qed.

#[export] Instance calm_data : DataLedger calm.
Proof.
  split; [apply _|..].
  - intros p p' e _ _ _ Hh. by apply calm_state.
  - intros p id s s' e _ _ _. by apply calm_state.
  - intros p e ev _. by apply calm_state.
  - intros p e b _ Hb. by apply calm_pushed.
Qed.

#[export] Instance calm_responses : ResponseLedger calm.
Proof.
  split; [apply _|..].
  - intros p id s s' e _ _ _. by apply calm_state.
  - intros p id s s' e resp _ _. by apply calm_state.
Qed.

(** The table sizes among some settings, in order; SETTINGS_HEADER_TABLE_SIZE
    is 1. *)
Definition table_sizes (settings : list (Z * Z)) : list Z :=
  omap (fun '(id, value) => if id =? 1 then Some value else None) settings.

(** The sizes that a frame of the peer announces; a SETTINGS frame with the
    ACK flag announces nothing, and none answers it. *)
Definition announced_sizes (frame : RawFrame.t) : option (list Z) :=
  if (FrameHeader.type (RawFrame.header frame) =? FrameType.SETTINGS)
     && negb (FrameHeader.hasAckFlag (RawFrame.header frame))
  then Some match SettingFrame.parse frame with Ok f => table_sizes (SettingFrame.settings f) | Fault _ => [] end
  else None.

Section announced.
Context `{IterOrder}.

Lemma add_outflows_hpack ids delta p ok p' : add_outflows ids delta p = Ok (ok, p') -> hpack p' = hpack p.
Proof.
  revert p. induction ids as [|id ids IH]; intros p; cbn [add_outflows]; [by intros [= _ <-]|]. intros Hrun.
  apply run_bind in Hrun as (s & q & [_ ->]%deref_run & Hrun). destruct (OutFlow.add _ _) as [added f].
  apply run_bind in Hrun as (u & q & (s1 & _ & ->)%update_run & Hrun).
  destruct (negb added); [by injection Hrun as _ <-|]. by rewrite (IH _ Hrun).
Qed.

(** The encoder takes each table size as it comes. *)
Lemma applyPeerSetting_encoder param value p p' :
  applyPeerSetting param value p = Ok (ErrorCode.NO_ERROR, p') ->
  hpack p' = if param =? 1 then Hpack.setEncodeTableSize value (hpack p) else hpack p.
Proof.
  unfold applyPeerSetting. destruct (Z.eqb_spec param Http2SettingParameter.MAX_CONCURRENT_STREAMS) as [->|];
    [by intros [= <-]|].
  destruct (Z.eqb_spec param Http2SettingParameter.HEADER_TABLE_SIZE) as [->|Hne]; [by intros [= <-]|].
  change Http2SettingParameter.HEADER_TABLE_SIZE with 1 in Hne. rewrite (proj2 (Z.eqb_neq _ _) Hne).
  case_if; [case_if; [done|]; by intros [= <-]|]. case_if; [case_if; [done|]; by intros [= <-]|].
  case_if; [|case_if; by intros [= <-]]. case_if; [done|]. intros Hrun. run_cases.
  apply lift_run in Hm0 as [_ ->]. apply add_outflows_hpack in Hm3. destruct a3; [|done]. injection Hrun as <-. by rewrite Hm3.
Qed.

Lemma applyPeerSettings_encoder l p p' :
  applyPeerSettings l p = Ok (ErrorCode.NO_ERROR, p') ->
  hpack p' = fold_left (fun h v => Hpack.setEncodeTableSize v h) (table_sizes l) (hpack p).
Proof.
  revert p. induction l as [|[param value] l IH]; intros p; cbn [applyPeerSettings]; [by intros [= <-]|].
  intros (c & q & Hone & Hrun)%run_bind. destruct (Z.eqb_spec c ErrorCode.NO_ERROR) as [->|]; cbn [negb] in Hrun;
    [|by injection Hrun].
  apply applyPeerSetting_encoder in Hone. rewrite (IH _ Hrun), Hone. unfold table_sizes. cbn.
  by destruct (param =? 1).
Qed.

Lemma failConnection_calm code debug p r p' :
  failConnection code debug p = Ok (r, p') ->
  Forall (fun b => calm_buffer b = true) (StepResult.outbound r) /\ closed p' = true.
Proof.
  intros Hf. split; [|by apply failConnection_closes in Hf].
  apply (failConnection_books_nil calm) in Hf as (_ & more & Ho & Hm). cbn in Ho. by rewrite Ho.
Qed.

(** SETTINGS: the connection fails, or the encoder follows the sizes announced
    and the frame is acknowledged, once and last. *)
Lemma processSettingFrame_acks frame p r p' :
  FrameHeader.type (RawFrame.header frame) = FrameType.SETTINGS ->
  processSettingFrame frame p = Ok (r, p') ->
  Forall (fun b => calm_buffer b = true) (StepResult.outbound r) /\ closed p' = true \/
  match announced_sizes frame with
  | Some sizes =>
      exists more, StepResult.outbound r = more ++ [SettingFrame.toBytes settings_ack] /\
        Forall (fun b => calm_buffer b = true) more /\ Forall (fun v => 0 <= v < 2 ^ 32) sizes /\
        enc_part (hpack p') = enc_part (fold_left (fun h v => Hpack.setEncodeTableSize v h) sizes (hpack p))
  | None => calm (p, StepResult.empty) (p', r)
  end.
Proof.
  intros Hty. pose proof failConnection_calm as Hfails.
  unfold processSettingFrame, announced_sizes. rewrite Hty, Z.eqb_refl. cbn [andb].
  case_if; [eauto|]. case_if; [eauto|]. destruct (FrameHeader.hasAckFlag _); cbn [negb].
  { case_if; [eauto|]. intros [= <- <-]. right. by apply calm_state. }
  intros Hrun. run_cases. apply lift_run in Hm0 as [Hparse ->]. rewrite Hparse. pose proof (settings_range _ _ Hparse) as Hwf.
  destruct (Z.eqb_spec a1 ErrorCode.NO_ERROR) as [->|]; cbn [negb] in Hrun; [|eauto]. right.
  apply applyPeerSettings_encoder in Hm1. run_cases.
  apply (flush_streams_books calm StepResult.empty) in Hm0 as (Hh & more & Ho & Hmore); [|reflexivity]. cbn [fst snd] in *.
  exists more. split; [by cbn; rewrite Ho|]. split; [done|]. split; [|by rewrite Hh, Hm1].
  clear -Hwf. unfold table_sizes. induction Hwf as [|[i v] l [_ Hv] _ IH]; [apply Forall_nil_2|]. cbn.
  destruct (i =? 1); [by apply Forall_cons_2|done].
Qed.

(** Any other frame is calm. *)
Lemma receiveFrame_heads frame p r p' :
  receiveFrame frame p = Ok (r, p') ->
  Forall (fun b => calm_buffer b = true) (StepResult.outbound r) /\ closed p' = true \/
  match announced_sizes frame with
  | Some sizes =>
      exists more, StepResult.outbound r = more ++ [SettingFrame.toBytes settings_ack] /\
        Forall (fun b => calm_buffer b = true) more /\ Forall (fun v => 0 <= v < 2 ^ 32) sizes /\
        enc_part (hpack p') = enc_part (fold_left (fun h v => Hpack.setEncodeTableSize v h) sizes (hpack p))
  | None => calm (p, StepResult.empty) (p', r)
  end.
Proof.
  intros Hrun. unfold receiveFrame in Hrun. cbv zeta in Hrun.
  apply run_bind in Hrun as (p0 & q & [= <- <-] & Hrun).
  destruct (Z.eqb_spec (FrameHeader.type (RawFrame.header frame)) FrameType.SETTINGS) as [Hty|Hty].
  - rewrite Hty in Hrun. cbn [negb] in Hrun. rewrite andb_false_r in Hrun.
    pose proof failConnection_calm as Hfails.
    destruct (_ >? _); [eauto|]. destruct (_ && _); [eauto|]. by apply (processSettingFrame_acks frame).
  - right. unfold announced_sizes. rewrite (proj2 (Z.eqb_neq _ _) Hty). cbn [andb].
    lazymatch type of Hrun with ?m _ = _ =>
      assert (Hm : books calm StepResult.empty m result); [|by apply Hm in Hrun] end. clear Hrun.
    pose proof (failConnection_books_nil calm) as Hfail.
    pose proof (processRstStreamFrame_books calm) as Hrst.
    pose proof (processPushPromiseFrame_books calm) as Hpush.
    pose proof (processGoAwayFrame_books calm) as Hgoaway.
    pose proof (processWindowUpdateFrame_books calm) as Hwindow.
    pose proof (processDataFrame_books calm) as Hdata.
    pose proof (processHeadersFrame_books calm) as Hheaders.
    pose proof (processContinuationFrame_books calm) as Hcontinuation.
    unfold processPriorityFrame, processPingFrame. books.
Qed.
End announced.

(** ** The accounts *)

(** What sending relies on. *)
Definition sender_ok (s : Stream.t) : Prop :=
  (OutFlow.wf (Stream.outflow s) /\ OutFlow.conn (Stream.outflow s) = true) /\
  (0 <= Stream.requestBodyOffset s <= Stream.bodySize s /\ Stream.bodySize s < 2 ^ 63) /\
  Stream.isClosed s = false /\
  (Stream.localEndStreamSent s = true -> Stream.requestBodyOffset s = Stream.bodySize s).

Record send_ok (p : t) : Prop := {
  se_max : 16384 <= maxFrameSize p < 2 ^ 24;
  se_conn : OutFlow.wf (connectionOutFlow p) /\ 0 <= OutFlow.window (connectionOutFlow p);
  se_window : 0 <= initialWindowSize p < 2 ^ 31;
  se_next : 1 <= nextStreamId p <= 2 ^ 31;
  se_streams id s : streams p !! id = Some s -> 1 <= id < nextStreamId p /\ sender_ok s;
}.

Lemma sender_ok_kept s s' : same_sending s s' -> sender_ok s -> sender_ok s'.
Proof.
  unfold sender_ok, Stream.bodySize. intros [[= Hr Ho Hl Hf] Hc] (? & ? & ? & ?). rewrite Hr, Ho, Hl, Hf. auto.
Qed.

Lemma send_ok_quiet x y : quiet x y -> send_ok x.1 -> send_ok y.1.
Proof.
  intros [Hs Hc Hn Hw Hm _ _] []. constructor; [by rewrite Hm|by rewrite Hc|by rewrite Hw|by rewrite Hn|].
  rewrite Hn.
  intros id s' Hs'. destruct (Hs id s' Hs') as (s & Hs0 & Hss). destruct (se_streams0 id s Hs0).
  split; [done|]. by eapply sender_ok_kept.
Qed.

(** The peer's credit for a stream, or for the connection. *)
Definition credit (id : Z) (e : list ProtocolEvent) : Z :=
  fold_right Z.add 0 (map snd (List.filter (fun c => fst c =? id) (credits e))).

Lemma credit_app id e e' : credit id (e ++ e') = credit id e + credit id e'.
Proof.
  unfold credit, credits. rewrite omap_app, List.filter_app, map_app.
  induction (map snd (List.filter _ (omap _ e))) as [|x l IH]; cbn; [done|lia].
Qed.

Lemma credit_same id e e' : credits e' = credits e -> credit id e' = credit id e.
Proof. unfold credit. by intros ->. Qed.

(** What is left of the request's body. *)
Definition unsent (s : Stream.t) : bytes := zdrop (Stream.requestBodyOffset s) (Request.body (Stream.rqst s)).

(** The account of one stream between two moments: the DATA frames sent
    carry the next part of the body, and their size, the credits and the
    change of the initial window explain the new window. *)
Definition stream_account (id : Z) (x y : t * StepResult.t) : Prop :=
  exists new,
    data_on id (StepResult.outbound y.2) = data_on id (StepResult.outbound x.2) ++ new /\
    match streams x.1 !! id, streams y.1 !! id with
    | Some s, Some s' =>
        Stream.rqst s' = Stream.rqst s /\ delivers (unsent s) new (unsent s') /\
        OutFlow.window (Stream.outflow s') + zlen (payload new) =
          OutFlow.window (Stream.outflow s) + (initialWindowSize y.1 - initialWindowSize x.1) +
          (credit id (StepResult.events y.2) - credit id (StepResult.events x.2))
    | Some s, None => exists rest, delivers (unsent s) new rest
    | None, None => new = []
    | None, Some _ => False
    end.

Definition connection_account (x y : t * StepResult.t) : Prop :=
  OutFlow.window (connectionOutFlow y.1) + data_sent (StepResult.outbound y.2)
    - credit 0 (StepResult.events y.2) =
  OutFlow.window (connectionOutFlow x.1) + data_sent (StepResult.outbound x.2)
    - credit 0 (StepResult.events x.2).

(** No stream is opened, and none is given credit before it is. *)
Definition next_account (x y : t * StepResult.t) : Prop :=
  nextStreamId y.1 = nextStreamId x.1 /\
  forall id, nextStreamId x.1 <= id -> credit id (StepResult.events y.2) = credit id (StepResult.events x.2).

Definition account (x y : t * StepResult.t) : Prop :=
  connection_account x y /\ next_account x y /\ forall id, stream_account id x y.

(** The ledger: from a state in order to one, with the accounts kept. *)
Definition sends (x y : t * StepResult.t) : Prop := send_ok x.1 -> send_ok y.1 /\ account x y.

Lemma stream_account_refl id x : stream_account id x x.
Proof.
  exists []. rewrite app_nil_r. split; [done|]. destruct (streams x.1 !! id); [|done].
  split; [done|]. split; [constructor|]. change (zlen (payload [])) with 0. lia.
Qed.

Lemma stream_account_trans id x y z :
  stream_account id x y -> stream_account id y z -> stream_account id x z.
Proof.
  intros (n1 & H1 & Hxy) (n2 & H2 & Hyz). exists (n1 ++ n2). split; [by rewrite H2, H1, app_assoc|].
  destruct (streams x.1 !! id) as [s1|], (streams y.1 !! id) as [s2|], (streams z.1 !! id) as [s3|];
    try done.
  - destruct Hxy as (Hr1 & Hd1 & Hw1), Hyz as (Hr2 & Hd2 & Hw2). split; [congruence|].
    split; [by eapply delivers_app|]. rewrite payload_app, zlen_app. lia.
  - destruct Hxy as (_ & Hd1 & _), Hyz as (rest & Hd2). exists rest. by eapply delivers_app.
  - subst n2. rewrite app_nil_r. done.
  - by subst.
Qed.

#[export] Instance sends_preorder : PreOrder sends.
Proof.
  split.
  - intros x Hx. do 3 (split; [done|]). intros id. apply stream_account_refl.
  - intros x y z Hxy Hyz Hx. destruct (Hxy Hx) as (Hy & Hc1 & [Hn1 Hf1] & Hs1).
    destruct (Hyz Hy) as (Hz & Hc2 & [Hn2 Hf2] & Hs2).
    split; [done|]. split; [unfold connection_account in *; lia|].
    split; [split; [congruence|]; intros id Hid; rewrite Hf2, Hf1 by lia; done|].
    intros id. by eapply stream_account_trans.
Qed.

Lemma sends_frame d p e p' e' : sends (p, e) (p', e') -> sends (p, d ⊕ e) (p', d ⊕ e').
Proof.
  intros HR Hp. destruct (HR Hp) as (Hp' & Hc & [Hn Hf] & Hs). split; [done|].
  cbn [fst snd] in *. unfold account, connection_account, next_account, stream_account in *.
  cbn [fst snd StepResult.mergeStepResult StepResult.outbound StepResult.events] in *. split_and!.
  - rewrite !data_sent_app, !credit_app. lia.
  - done.
  - intros id Hid. rewrite !credit_app, Hf by done. done.
  - intros id. destruct (Hs id) as (new & Hnew & Hm). exists new. rewrite !data_on_app, Hnew, app_assoc.
    split; [done|]. rewrite !credit_app.
    replace (credit id (StepResult.events d) + credit id (StepResult.events e')
      - (credit id (StepResult.events d) + credit id (StepResult.events e)))
      with (credit id (StepResult.events e') - credit id (StepResult.events e)) by lia. done.
Qed.

Lemma quiet_account x y : quiet x y -> account x y.
Proof.
  intros [Hs Hc Hn Hw _ Hd Hcr]. destruct x as [p e], y as [p' e']. cbn [fst snd] in *.
  split; [unfold connection_account, data_sent; cbn [fst snd]; by rewrite Hd, Hc, (credit_same 0 _ _ Hcr)|].
  split; [split; [exact Hn|by intros id _; apply credit_same]|].
  unfold stream_account, data_on, credit. cbn [fst snd]. rewrite Hd, Hcr, Hw. intros id. exists []. rewrite app_nil_r. split; [done|].
  destruct (streams p' !! id) as [s'|] eqn:Hs'.
  - destruct (Hs id s' Hs') as (s & -> & [[= Hr Ho _ Hf] _]). split; [done|]. unfold unsent. rewrite Hr, Ho, Hf.
    split; [constructor|]. change (zlen (payload [])) with 0. lia.
  - destruct (streams p !! id); [|done]. eexists. constructor.
Qed.

Lemma quiet_sends x y : quiet x y -> sends x y.
Proof. intros Hq Hx. split; [by eapply send_ok_quiet|by apply quiet_account]. Qed.

#[export] Instance sends_ledger : ResponseLedger sends.
Proof. apply ledger_of_quiet; [apply _|apply sends_frame|apply quiet_sends]. Qed.

(** ** Sending the body *)

Lemma unsent_sent n s :
  0 <= Stream.requestBodyOffset s -> 0 <= n ->
  unsent s = ztake n (unsent s) ++ unsent (body_sent n s) /\
  (0 <= Stream.requestBodyOffset s + n <= Stream.bodySize s ->
   (Stream.requestBodyOffset s + n =? Stream.bodySize s) = bool_decide (unsent (body_sent n s) = [])).
Proof.
  intros Ho Hn. unfold unsent.
  assert (Hs : Stream.requestBodyOffset (body_sent n s) = Stream.requestBodyOffset s + n /\
    Stream.rqst (body_sent n s) = Stream.rqst s) by (unfold body_sent; case_if; done).
  destruct Hs as [-> ->]. split.
  - by rewrite <- zdrop_zdrop, ztake_zdrop by lia.
  - intros Hr. unfold Stream.bodySize in *. symmetry. destruct (Z.eqb_spec (Stream.requestBodyOffset s + n)
      (zlen (Request.body (Stream.rqst s)))) as [->|Hne].
    + apply bool_decide_eq_true. apply zdrop_all.
    + apply bool_decide_eq_false. intros Hnil. apply (f_equal zlen) in Hnil.
      rewrite zlen_zdrop in Hnil by lia. change (zlen (@nil byte)) with 0 in Hnil. lia.
Qed.

(** [n] bytes of the body of [s] leave, and the stream may close. *)
Lemma body_account p id s n r fs q r' :
  send_ok p -> streams p !! id = Some s -> 0 <= n <= sendable (connectionOutFlow p) s ->
  data_frames (maxFrameSize p) id (Stream.requestBodyOffset s + n =? Stream.bodySize s)
    (ztake n (unsent s)) fs ->
  connectionOutFlow q = charge n (connectionOutFlow p) ->
  nextStreamId q = nextStreamId p ->
  initialWindowSize q = initialWindowSize p -> maxFrameSize q = maxFrameSize p ->
  (forall j, j <> id -> streams q !! j = streams p !! j) ->
  (forall s', streams q !! id = Some s' -> same_sending (body_sent n s) s') ->
  StepResult.outbound r' = StepResult.outbound r ++ map DataFrame.toBytes fs ->
  credits (StepResult.events r') = credits (StepResult.events r) ->
  send_ok q /\ account (p, r) (q, r').
Proof.
  intros Hp Hs Hn Hfs Hc Hnext Hw Hm Hother Hid Ho Hcr. destruct (se_streams _ Hp id s Hs) as (Hr & [Hf Hfc] & [Hoff Hsz] & Hcl & Hend).
  destruct (se_conn _ Hp) as [Hcw Hcn].
  assert (Hn' : n <= Stream.bodySize s - Stream.requestBodyOffset s /\ n <= OutFlow.window (connectionOutFlow p) /\
    n <= Z.max 0 (OutFlow.window (Stream.outflow s)))
    by (unfold sendable in Hn; rewrite OutFlow.available_min, Hfc in Hn; lia).
  destruct Hn' as (Hn1 & Hn2 & Hn3). destruct (unsent_sent n s) as [Hsplit Hfin]; [lia..|].
  specialize (Hfin ltac:(lia)). assert (Hlen : zlen (ztake n (unsent s)) = n).
  { apply zlen_ztake. unfold unsent. rewrite zlen_zdrop by (unfold Stream.bodySize in *; lia). unfold Stream.bodySize in *. lia. }
  destruct (data_frames_sent _ _ _ _ _ Hfs) as (Hsum & Hothers & Hdel & Hpay); [pose proof (se_max _ Hp); lia|pose proof (se_next _ Hp); lia|].
  assert (Hbs : Stream.outflow (body_sent n s) = charge n (Stream.outflow s) /\
    Stream.rqst (body_sent n s) = Stream.rqst s /\ Stream.isClosed (body_sent n s) = Stream.isClosed s /\
    Stream.requestBodyOffset (body_sent n s) = Stream.requestBodyOffset s + n)
    by (unfold body_sent; case_if; done).
  destruct Hbs as (Hbf & Hbr & Hbc & Hbo).
  assert (Hbe : Stream.localEndStreamSent (body_sent n s) = true ->
    Stream.requestBodyOffset s + n = Stream.bodySize s).
  { unfold body_sent. destruct ((0 <? n) && _) eqn:Hb; cbn; [bool_to_prop; lia|]. intros Hl. specialize (Hend Hl). lia. }
  split.
  - constructor; [by rewrite Hm; apply Hp| |by rewrite Hw; apply Hp|by rewrite Hnext; apply Hp|rewrite Hnext].
    + rewrite Hc. split; [by apply charge_wf; [|lia]|]. cbn. lia.
    + intros j sj Hj. destruct (decide (j = id)) as [->|Hne]; [|rewrite (Hother j Hne) in Hj; by apply Hp].
      split; [done|]. eapply sender_ok_kept; [by apply Hid|]. unfold sender_ok, Stream.bodySize in *.
      rewrite Hbf, Hbr, Hbc, Hbo. split; [split; [by apply charge_wf; [|lia]|done]|]. split; [lia|]. by split.
  - unfold account, connection_account, next_account, stream_account; cbn [fst snd]. split_and!.
    + rewrite Ho, Hc, data_sent_app, Hsum, Hlen. rewrite (credit_same 0 _ _ Hcr). cbn. lia.
    + done.
    + intros j _. by apply credit_same.
    + intros j. rewrite Ho, data_on_app. exists (data_on j (map DataFrame.toBytes fs)). split; [done|].
      rewrite (credit_same j _ _ Hcr), Hw. destruct (decide (j = id)) as [->|Hne].
      * rewrite Hs. specialize (Hdel _ Hfin). rewrite <- Hsplit in Hdel. destruct (streams q !! id) as [s'|]; [|eauto].
        destruct (Hid s' eq_refl) as [[= Hr' Ho' _ Hf'] _]. rewrite Hf', Hr', Hbr, Hbf. split; [done|].
        rewrite Hpay, Hlen. unfold unsent at 2. rewrite Hr', Ho'. split; [done|]. cbn. lia.
      * rewrite (Hother j Hne), (Hothers j Hne). destruct (streams p !! j) as [sj|]; [|done].
        split; [done|]. split; [constructor|]. change (zlen (payload [])) with 0. lia.
Qed.

Lemma emitPending_sends p id r r' p' :
  emitPendingRequestBody id r p = Ok (r', p') -> sends (p, r) (p', r').
Proof.
  intros Hrun Hp. cbn [fst] in Hp. destruct (streams p !! id) as [s|] eqn:Hs;
    [|by unfold emitPendingRequestBody, bind, deref in Hrun; rewrite Hs in Hrun].
  destruct (se_streams _ Hp id s Hs) as (Hid & Hf & Hoff & Hcl & _).
  destruct (wp_inv _ _ _ _ _ _ (emitPending_run no_fault p id s r (se_max _ Hp) (proj1 (se_conn _ Hp)) Hs Hf Hoff) Hrun)
    as [-> Hres]. cbn [fst snd]. unfold pending_state, pending_result in *.
  destruct (Stream.localEndStreamSent s || Stream.isClosed s).
  { subst r'. split; [done|]. apply quiet_account. reflexivity. }
  cbv zeta in Hres. destruct Hres as (fs & Hfs & ->). cbv zeta.
  assert (Hn : 0 <= sendable (connectionOutFlow p) s <= sendable (connectionOutFlow p) s)
    by (unfold sendable; lia).
  eapply (body_account p id s _ r fs); [done|done|exact Hn|exact Hfs| | | | | | |done|]; repeat case_if; try done.
  all: try (intros j Hj; unfold with_stream, without_stream; cbn; rewrite ?lookup_insert_ne, ?lookup_delete_ne by done; done).
  all: try (unfold credits; cbn; rewrite omap_app; cbn; by rewrite app_nil_r).
  all: intros s'; unfold with_stream, without_stream; cbn; rewrite ?lookup_insert_eq, ?lookup_delete_eq; by intros [= <-].
Qed.

Lemma emitPending_sends_books e id r :
  (forall p, sends (p, e) (p, r)) -> books sends e (emitPendingRequestBody id r) result.
Proof. intros Hr p r' p' Hrun. etrans; [apply Hr|by eapply emitPending_sends]. Qed.

(** ** SETTINGS *)

(** A stream after the change of SETTINGS_INITIAL_WINDOW_SIZE. *)
Definition resized (delta : Z) (s : Stream.t) : Stream.t :=
  Stream.set_outflow (OutFlow.mk (OutFlow.conn (Stream.outflow s)) (OutFlow.window (Stream.outflow s) + delta)) s.

Lemma outflow_add_true n f g :
  OutFlow.add n f = (true, g) -> g = OutFlow.mk (OutFlow.conn f) (OutFlow.window f + n) /\ OutFlow.wf g.
Proof.
  unfold OutFlow.add, OutFlow.wf. destruct (_ || _) eqn:Hr; [done|]. intros [= <-]. bool_to_prop.
  split; [done|]. cbn. lia.
Qed.

Lemma add_outflows_run ids delta p ok p' :
  NoDup ids -> add_outflows ids delta p = Ok (ok, p') ->
  p' = set_streams (streams p') p /\
  (ok = true -> forall id,
     streams p' !! id = (if bool_decide (id ∈ ids) then resized delta <$> streams p !! id else streams p !! id) /\
     (forall s, id ∈ ids -> streams p' !! id = Some s -> OutFlow.wf (Stream.outflow s))).
Proof.
  intros Hnd. revert p. induction Hnd as [|id ids Hnotin Hnd IH]; intros p; cbn [add_outflows].
  { intros [= <- <-]. split; [by destruct p|]. intros _ id. split; [done|]. by intros s Hin%elem_of_nil. }
  unfold bind, deref. destruct (streams p !! id) as [s|] eqn:Hs; [|done].
  destruct (OutFlow.add delta (Stream.outflow s)) as [added f] eqn:Hadd. unfold update. rewrite Hs.
  destruct added; cbn [negb]; [|by intros [= <- <-]; destruct p].
  apply outflow_add_true in Hadd as [-> Hwf]. change (Stream.set_outflow _ s) with (resized delta s).
  fold (with_stream id (resized delta s) p). intros Hrun. destruct (IH _ Hrun) as [Hp' Hstreams]. split; [by rewrite Hp'|].
  intros Hok j. destruct (Hstreams Hok j) as [Hj Hjwf]. unfold with_stream in Hj. cbn [streams set_streams] in Hj.
  destruct (decide (j = id)) as [->|Hne].
  - rewrite bool_decide_false in Hj by done. rewrite lookup_insert_eq in Hj.
    rewrite bool_decide_true by by apply elem_of_cons; left. rewrite Hs, Hj. split; [done|]. by intros s' _ [= <-].
  - rewrite lookup_insert_ne in Hj by done. rewrite Hj.
    destruct (bool_decide (j ∈ ids)) eqn:Hin.
    + apply bool_decide_eq_true in Hin. rewrite bool_decide_true by by apply elem_of_cons; right. split; [done|].
      intros s' _ Hs'. apply Hjwf; [done|]. by rewrite Hj.
    + apply bool_decide_eq_false in Hin. rewrite bool_decide_false by (intros [?|?]%elem_of_cons; done). split; [done|].
      by intros s' [?|?]%elem_of_cons.
Qed.

(** All windows move with the initial window: the accounts still balance. *)
Lemma resize_sends p delta v m e :
  v = initialWindowSize p + delta -> 0 <= v < 2 ^ 31 ->
  (forall id, m !! id = resized delta <$> streams p !! id) ->
  (forall id s, m !! id = Some s -> OutFlow.wf (Stream.outflow s)) ->
  sends (p, e) (set_streams m (set_initialWindowSize v p), e).
Proof.
  intros Hv Hrange Hm Hwf Hp. cbn [fst] in Hp. split.
  - constructor; cbn [fst]; [apply Hp|apply Hp|done|apply Hp|]. intros id s' Hs'. cbn in Hs'. pose proof (Hwf id s' Hs') as Hw.
    rewrite Hm in Hs'. destruct (streams p !! id) as [s|] eqn:Hs; [|done]. cbn in Hs'. injection Hs' as <-.
    destruct (se_streams _ Hp id s Hs) as (? & [_ Hc] & ? & ?).
    split; [done|]. split; [by split|]. by split.
  - do 2 (split; [done|]). intros id. exists []. rewrite app_nil_r. split; [done|].
    cbn [fst snd streams set_streams set_initialWindowSize].
    rewrite Hm. destruct (streams p !! id) as [s|]; cbn; [|done]. split; [done|]. split; [constructor|].
    change (zlen (@nil byte)) with 0. lia.
Qed.

(** What a call that fails the connection leaves of the sender. *)
Definition wrecked (p p' : t) : Prop :=
  connectionOutFlow p' = connectionOutFlow p /\ nextStreamId p' = nextStreamId p /\ 16384 <= maxFrameSize p' < 2 ^ 24 /\
  0 <= initialWindowSize p' < 2 ^ 31.

(** The outcome of SETTINGS: the ledger is kept, or the sender is wrecked. *)
Definition settled (p p' : t) (code : Z) : Prop :=
  (code = ErrorCode.NO_ERROR /\ forall e, sends (p, e) (p', e)) \/
  (code <> ErrorCode.NO_ERROR /\ exists q, (forall e, sends (p, e) (q, e)) /\ wrecked q p').

Lemma settled_other p p' :
  streams p' = streams p -> nextStreamId p' = nextStreamId p ->
  connectionOutFlow p' = connectionOutFlow p ->
  initialWindowSize p' = initialWindowSize p -> 16384 <= maxFrameSize p' < 2 ^ 24 ->
  settled p p' ErrorCode.NO_ERROR.
Proof.
  intros Hs Hn Hc Hi Hm. left. split; [done|]. intros e Hp. cbn [fst] in Hp. split.
  - cbn [fst]. constructor; [done|by rewrite Hc; apply Hp|by rewrite Hi; apply Hp|by rewrite Hn; apply Hp|].
    rewrite Hs, Hn. apply Hp.
  - unfold account, connection_account, next_account, stream_account; cbn [fst snd]; rewrite ?Hc, ?Hi, ?Hs, ?Hn.
    do 2 (split; [done|]). intros id. exact (stream_account_refl id (p, e)).
Qed.

Lemma settled_refused p code : send_ok p -> code <> ErrorCode.NO_ERROR -> settled p p code.
Proof. intros Hp Hc. right. split; [done|]. exists p. split; [reflexivity|]. do 2 (split; [done|]). by destruct Hp. Qed.

Section settings.
Context `{IterOrder}.

Lemma applyPeerSetting_settled p param value code p' :
  send_ok p -> 0 <= value < 2 ^ 32 ->
  applyPeerSetting param value p = Ok (code, p') -> settled p p' code.
Proof.
  intros Hp Hv. pose proof (se_max _ Hp) as Hmax. unfold applyPeerSetting.
  case_if; [intros [= <- <-]; by apply settled_other|].
  case_if; [intros [= <- <-]; by apply settled_other|].
  case_if; [case_if; intros [= <- <-]; [by apply settled_refused|by apply settled_other]|].
  case_if.
  { destruct (_ || _) eqn:Hr; intros [= <- <-]; [by apply settled_refused|]. apply orb_false_iff in Hr as [Hlo Hhi].
    apply Z.ltb_ge in Hlo. rewrite Z.gtb_ltb in Hhi. apply Z.ltb_ge in Hhi.
    change Http2SettingInfo.minimumMaxFrameSize with 16384 in Hlo.
    change Http2SettingInfo.maximumMaxFrameSize with 16777215 in Hhi.
    apply settled_other; try done. cbn. lia. }
  case_if; [|case_if; intros [= <- <-]; by apply settled_other].
  rewrite Z.gtb_ltb. change Http2SettingInfo.maximumWindowSize with 2147483647.
  destruct (Z.ltb_spec 2147483647 value); [intros [= <- <-]; by apply settled_refused|].
  pose proof (se_window _ Hp) as Hw. unfold bind at 1, get, lift. rewrite !i32_small by lia. unfold bind at 1.
  rewrite checked_i32_ok by (unfold INT32_MIN, INT32_MAX; lia). unfold bind, modify, gets.
  destruct (add_outflows _ _ _) as [[ok q]|] eqn:Hadd; [|done].
  apply add_outflows_run in Hadd as [Hq Hstreams]; [|apply iter_order_NoDup]. destruct ok; cbn [negb]; intros [= <- <-].
  - left. split; [done|]. intros e. rewrite Hq.
    assert (Hm : forall id, streams q !! id = resized (value - initialWindowSize p) <$> streams p !! id).
    { intros id. destruct (Hstreams eq_refl id) as [-> _]. case_bool_decide as Hin; [done|].
      rewrite iter_order_elem in Hin. cbn in *. destruct (streams p !! id); [|done]. destruct Hin; eauto. }
    change (set_streams (streams q) (set_initialWindowSize value p)) with
      (set_streams (streams q) (set_initialWindowSize value p)).
    apply (resize_sends p (value - initialWindowSize p)); [lia|lia|exact Hm|].
    intros id s Hs. destruct (Hstreams eq_refl id) as [_ Hwf]. apply Hwf; [|done].
    rewrite iter_order_elem. cbn. rewrite Hm in Hs. by destruct (streams p !! id).
  - right. split; [done|]. exists p. split; [reflexivity|]. rewrite Hq. do 2 (split; [done|]). cbn. lia.
Qed.

Lemma applyPeerSettings_settled l p code p' :
  send_ok p -> settings_wf l -> applyPeerSettings l p = Ok (code, p') -> settled p p' code.
Proof.
  intros Hp Hl. revert p Hp. induction Hl as [|[param value] l [_ Hv] Hl IH]; intros p Hp; cbn [applyPeerSettings].
  { intros [= <- <-]. left. split; [done|reflexivity]. }
  unfold bind. destruct (applyPeerSetting param value p) as [[c q]|] eqn:Hone; [|done].
  apply applyPeerSetting_settled in Hone; [|done|done]. destruct Hone as [[-> Hq]|[Hc Hq]].
  - cbn [Z.eqb negb]. intros Hrun. assert (Hok : send_ok q) by by apply (Hq StepResult.empty).
    destruct (IH q Hok Hrun) as [[Hcode Hp']|[Hcode (q' & Hq' & Hw)]].
    + left. split; [done|]. intros e. etrans; [apply Hq|apply Hp'].
    + right. split; [done|]. exists q'. split; [|done]. intros e. etrans; [apply Hq|apply Hq'].
  - destruct (Z.eqb_spec c ErrorCode.NO_ERROR); [done|]. cbn [negb]. intros [= <- <-]. by right.
Qed.

(** A wrecked sender whose connection fails: the books are closed in order. *)
Lemma wrecked_failConnection_sends p q e code debug r p' :
  (forall e, sends (p, e) (q, e)) -> forall p1, wrecked q p1 ->
  failConnection code debug p1 = Ok (r, p') -> sends (p, e) (p', e ⊕ r).
Proof.
  intros Hpq p1 (Hc & Hn & Hm & Hi) Hrun. etrans; [apply Hpq|]. intros Hq. cbn [fst] in Hq.
  pose proof (failConnection_empties _ _ _ _ _ Hrun) as Hempty.
  pose proof (failConnection_books quiet e code debug p1 r p' Hrun) as Hquiet.
  destruct Hquiet as [_ Hqc Hqn Hqw Hqm Hqd Hqcr]. cbn [fst snd] in *. split.
  - cbn [fst]. constructor; [lia|rewrite Hqc, Hc; apply Hq|lia|rewrite Hqn, Hn; apply Hq|].
    intros id s. by rewrite Hempty, lookup_empty.
  - unfold account, connection_account, next_account, stream_account, data_sent, data_on, credit. cbn [fst snd].
    rewrite Hqd, Hqcr, Hqc, Hc, Hqn, Hn, Hempty. split; [done|]. split; [done|].
    intros id. exists []. rewrite app_nil_r, lookup_empty. split; [done|].
    destruct (streams q !! id); [|done]. eexists. constructor.
Qed.

Lemma flush_streams_sends e ids r :
  (forall p, sends (p, e) (p, r)) -> books sends e (flush_streams ids r) result.
Proof.
  intros Hr. eapply books_pre; [apply _|exact Hr|]. clear Hr e. revert r.
  induction ids as [|id ids IH]; intros r; cbn [flush_streams]; [books|].
  eapply books_bind; [apply _|apply emitPending_sends_books; reflexivity|intros r1].
  eapply books_bind; [apply _|apply books_contains, _|intros alive]. destruct alive; [apply IH|apply books_fail].
Qed.

Lemma processSettingFrame_sends frame : books sends StepResult.empty (processSettingFrame frame) result.
Proof.
  unfold processSettingFrame. case_if; [apply (failConnection_books_nil sends)|].
  case_if; [apply (failConnection_books_nil sends)|].
  case_if; [case_if; [apply (failConnection_books_nil sends)|books]|].
  eapply books_bind; [apply _|by apply (books_modify sends)|intros ?]. intros p r p' Hrun.
  unfold bind at 1, lift in Hrun. destruct (SettingFrame.parse frame) as [f|] eqn:Hf; [|done].
  apply settings_range in Hf. unfold bind at 1 in Hrun.
  destruct (applyPeerSettings (SettingFrame.settings f) p) as [[code q]|] eqn:Happly; [|done].
  intros Hp. cbn [fst] in Hp. apply applyPeerSettings_settled in Happly; [|done|done].
  revert Hp. change (sends (p, StepResult.empty) (p', r)).
  destruct Happly as [[-> Hq]|[Hcode (q' & Hq' & Hw)]].
  - etrans; [apply Hq|]. revert q r p' Hrun Hq. change (forall q r p', (ids <- gets (fun p => iter_order (streams p)) ;;
      r <- flush_streams ids StepResult.empty ;;
      ret (StepResult.push_outbound (SettingFrame.toBytes settings_ack)
             (StepResult.push_event settingsReceived r))) q = Ok (r, p') ->
      (forall e, sends (p, e) (q, e)) -> sends (q, StepResult.empty) (p', r)).
    intros q r p' Hrun _. revert q r p' Hrun.
    eapply books_bind; [apply _|apply books_gets, _|intros ids].
    eapply books_bind; [apply _|by apply flush_streams_sends|intros r1]. apply books_ret. intros q.
    etrans; [by apply (lg_note q r1 settingsReceived)|]. by apply quiet_sends, quiet_buffer_pushed.
  - destruct (Z.eqb_spec code ErrorCode.NO_ERROR); [done|]. cbn [negb] in Hrun.
    etrans; [by eapply (wrecked_failConnection_sends p q')|by apply lg_report].
Qed.
End settings.

(** ** WINDOW_UPDATE *)

Lemma credit_event id j n e :
  credit id (e ++ [windowUpdateReceived j n]) = credit id e + (if j =? id then n else 0).
Proof. rewrite credit_app. f_equal. unfold credit. cbn. destruct (j =? id); cbn; lia. Qed.

(** A credit that touches no live stream's account but the one named. *)
Lemma credit_connection_sends p n g e :
  0 <= n -> OutFlow.add n (connectionOutFlow p) = (true, g) ->
  sends (p, e) (set_connectionOutFlow g p, StepResult.push_event (windowUpdateReceived 0 n) e).
Proof.
  intros Hn [-> Hwf]%outflow_add_true Hp. cbn [fst] in Hp. destruct (se_conn _ Hp) as [_ Hpos]. split.
  - constructor; cbn [fst]; [apply Hp|split; [done|cbn; lia]|apply Hp..].
  - unfold account, connection_account, next_account, stream_account;
      cbn [fst snd StepResult.push_event StepResult.events StepResult.outbound]. split_and!.
    + rewrite credit_event. cbn. lia.
    + done.
    + intros id Hid. rewrite credit_event. destruct (Z.eqb_spec 0 id); [pose proof (se_next _ Hp); lia|lia].
    + intros id. exists []. rewrite app_nil_r, credit_event. split; [done|]. cbn [streams set_connectionOutFlow].
      destruct (streams p !! id) as [s|] eqn:Hs; [|done]. destruct (se_streams _ Hp id s Hs) as [Hid _].
      split; [done|]. split; [constructor|]. destruct (Z.eqb_spec 0 id); [lia|]. change (zlen (payload [])) with 0.
      cbn. lia.
Qed.

Lemma credit_stream_sends p id s n g e :
  streams p !! id = Some s -> OutFlow.add n (Stream.outflow s) = (true, g) ->
  sends (p, e) (with_stream id (Stream.set_outflow g s) p, StepResult.push_event (windowUpdateReceived id n) e).
Proof.
  intros Hs [-> Hwf]%outflow_add_true Hp. cbn [fst] in Hp. destruct (se_streams _ Hp id s Hs) as (Hid & [_ Hc] & Hso).
  split.
  - constructor; cbn [fst]; [apply Hp..|]. intros j sj. unfold with_stream. cbn.
    intros [[<- <-]|[_ Hj]]%lookup_insert_Some; [|by apply Hp]. split; [done|]. split; [by split|done].
  - unfold account, connection_account, next_account, stream_account;
      cbn [fst snd StepResult.push_event StepResult.events StepResult.outbound]. split_and!.
    + rewrite credit_event. destruct (Z.eqb_spec id 0); [lia|].
      change (connectionOutFlow (with_stream _ _ p)) with (connectionOutFlow p). lia.
    + done.
    + intros j Hj. rewrite credit_event. destruct (Z.eqb_spec id j); lia.
    + intros j. exists []. rewrite app_nil_r, credit_event. split; [done|]. unfold with_stream.
      cbn [streams set_streams initialWindowSize]. destruct (decide (j = id)) as [->|Hne].
      * rewrite lookup_insert_eq, Hs, Z.eqb_refl. split; [done|]. split; [constructor|].
        change (zlen (payload [])) with 0. cbn. lia.
      * rewrite lookup_insert_ne by done. destruct (streams p !! j); [|done]. split; [done|]. split; [constructor|].
        destruct (Z.eqb_spec id j); [congruence|]. change (zlen (payload [])) with 0. lia.
Qed.

Lemma credit_gone_sends p id n e :
  streams p !! id = None -> id <> 0 -> id < nextStreamId p -> sends (p, e) (p, StepResult.push_event (windowUpdateReceived id n) e).
Proof.
  intros Hs Hid Hlt Hp. split; [done|]. unfold account, connection_account, next_account, stream_account;
    cbn [fst snd StepResult.push_event StepResult.events StepResult.outbound]. split_and!.
  - rewrite credit_event. destruct (Z.eqb_spec id 0); [done|]. lia.
  - done.
  - intros j Hj. rewrite credit_event. destruct (Z.eqb_spec id j); lia.
  - intros j. exists []. rewrite app_nil_r, credit_event. split; [done|]. destruct (streams p !! j) eqn:Hj; [|done].
    split; [done|]. split; [constructor|]. destruct (Z.eqb_spec id j); [congruence|].
    change (zlen (payload [])) with 0. lia.
Qed.

(** A window that would overflow stays as it is. *)
Lemma outflow_add_false n f g : OutFlow.add n f = (false, g) -> g = f.
Proof. unfold OutFlow.add. case_if; by intros [= <-]. Qed.

Section window_update.
Context `{IterOrder}.

Lemma flush_pending_sends e ids r :
  (forall p, sends (p, e) (p, r)) -> books sends e (flush_pending ids r) result.
Proof.
  intros Hr. eapply books_pre; [apply _|exact Hr|]. clear Hr e. revert r.
  induction ids as [|id ids IH]; intros r; cbn [flush_pending]; [books|].
  eapply books_bind; [apply _|apply books_deref, _|intros ?].
  eapply books_bind; [apply _|apply books_contains, _|intros present].
  apply (books_bind _ _ _ _ result); [|intros r1; apply IH].
  destruct present; [by apply emitPending_sends_books|books].
Qed.

Lemma processWindowUpdateFrame_sends frame :
  books sends StepResult.empty (processWindowUpdateFrame frame) result.
Proof.
  unfold processWindowUpdateFrame. cbv zeta. case_if; [by apply (failConnection_books_nil sends)|].
  eapply books_bind; [apply _|apply books_lift, _|intros f].
  pose proof (land_31_range (WindowUpdateFrame.windowSizeIncrement f)) as Hn.
  set (n := Z.land _ _) in *. clearbody n. set (id := FrameHeader.streamId _). clearbody id.
  case_if; [case_if; [by apply (failConnection_books_nil sends)|by apply (failStream_books_nil sends)]|].
  rewrite i32_small by lia. intros p r p' Hrun. apply run_bind in Hrun as (p0 & q0 & Hget & Hrun). injection Hget as <- <-.
  destruct (Z.eqb_spec id 0) as [->|Hid].
  - destruct (OutFlow.add n (connectionOutFlow p)) as [ok g] eqn:Hadd.
    apply run_bind in Hrun as (? & q1 & [= <- <-] & Hrun). destruct ok; cbn [negb] in Hrun.
    + etrans; [by apply (credit_connection_sends p n g); [lia|]|]. revert Hrun.
      apply (books_bind sends _ _ _ _ result (books_gets _ _ _)). intros ids. by apply flush_pending_sends.
    + apply outflow_add_false in Hadd as ->.
      etrans; [|by eapply (failConnection_books_nil sends)]. apply lg_same. by destruct p.
  - apply run_bind in Hrun as (known & q1 & [= <- <-] & Hrun). destruct (streams p !! id) as [s|] eqn:Hs.
    + rewrite bool_decide_true in Hrun by done. cbn [negb] in Hrun.
      apply run_bind in Hrun as (s0 & q1 & Hd & Hrun). unfold deref in Hd. rewrite Hs in Hd. injection Hd as <- <-.
      destruct (OutFlow.add n (Stream.outflow s)) as [ok g] eqn:Hadd.
      apply run_bind in Hrun as (? & q1 & Hu & Hrun). unfold update in Hu. rewrite Hs in Hu. injection Hu as _ <-.
      fold (with_stream id (Stream.set_outflow g s) p) in Hrun. destruct ok; cbn [negb] in Hrun.
      * etrans; [by apply (credit_stream_sends p id s n g)|]. by eapply emitPending_sends.
      * apply outflow_add_false in Hadd as ->.
        etrans; [|by eapply (failStream_books_nil sends)]. by eapply lg_update.
    + rewrite bool_decide_false in Hrun by (by intros [? ?]). cbn [negb] in Hrun. rewrite Z.geb_leb in Hrun. destruct (Z.leb_spec (nextStreamId p) id).
      * by eapply (failConnection_books_nil sends).
      * injection Hrun as <- <-. by apply credit_gone_sends.
Qed.
End window_update.
