(* ===== verification/SendRuns.v ===== *)
(** * What a run sends: flow control, bodies and header frames

    The accounts of [ProtocolSends.v] over any sequence of calls on a new
    connection: the client never sends more DATA than the peer's windows
    allow, each request body arrives in order with END_STREAM at its end, and
    the frames of a new request carry its header block. *)

From S2P Require Import Prelude Outcome ByteBuffer Types Flow Frame FrameFacts FrameCodec.
From S2P Require Import Hpack HpackFacts HeaderRules HpackSize FrameParse Stream.
From S2P Require Import ProtocolEvent ProtocolState Protocol ProtocolHandlers ProtocolInv.
From S2P Require Import ProtocolFrame ProtocolFacts ProtocolSafety ProtocolOps.
From S2P Require Import ProtocolLedger ProtocolRuns Wire ProtocolSends.
Import Http2Protocol.

(** ** The header frames of a request

    [emitRequestHeaders] sends the encoded header block, and nothing else:
    the fragments of its HEADERS and CONTINUATION frames join to the block. *)

(** [append_out] is associative. *)
Lemma append_out_app r a b : append_out (append_out r a) b = append_out r (a ++ b).
Proof. unfold append_out. cbn. by rewrite app_assoc. Qed.
Lemma append_out_nil r : append_out r [] = r.
Proof. unfold append_out. rewrite app_nil_r. by destruct r. Qed.
Lemma append_out_push r b : StepResult.push_outbound b r = append_out r [b].
Proof. done. Qed.

(** The frames still needed for the rest of a block, if there is any. *)
Definition rest_frames (id : Z) (rest : bytes) (frames : list bytes) : Prop :=
  if bool_decide (rest = []) then frames = [] else block_frames id false rest frames.

Lemma emit_continuations_frames E p fuel id sp r :
  16384 <= maxFrameSize p < 2 ^ 24 -> 0 <= id < 2 ^ 31 -> ByteSpan.wf sp ->
  zlen (ByteSpan.rest sp) < Z.of_nat fuel ->
  wp E (emit_continuations fuel id sp r)
    (fun r' p' => p' = p /\ exists frames, r' = append_out r frames /\ rest_frames id (ByteSpan.rest sp) frames) p.
Proof.
  intros Hp Hid. revert sp r. induction fuel as [|fuel IH]; intros sp r Hwf Hf;
    [pose proof (zlen_nonneg (ByteSpan.rest sp)); lia|].
  cbn [emit_continuations]. unfold rest_frames. destruct (ByteSpan.empty sp) eqn:He; cbn [negb].
  { apply ByteSpan.empty_rest in He; [|done]. rewrite He, bool_decide_true by done.
    split; [done|]. exists []. by rewrite append_out_nil. }
  apply ByteSpan.empty_false_rest in He; [|done]. rewrite bool_decide_false by done. wp_steps.
  rewrite ByteSpan.size_rest by done.
  assert (0 < zlen (ByteSpan.rest sp)) by (destruct (ByteSpan.rest sp); [done|zlen_lia]).
  set (n := Z.min (maxFrameSize p) (zlen (ByteSpan.rest sp))).
  destruct (chunk_ok sp n Hwf) as (sp' & Hfi & Ha & Hw' & Hr' & Hl & Hl'); [lia|].
  eapply wp_lift; [exact Hfi|]. cbv beta. wp_step. eapply wp_lift; [exact Ha|]. cbv beta zeta.
  rewrite append_out_push. eapply wp_mono; [apply IH; [done|lia]|]. intros r' p' [-> (frames & -> & Hfr)]. split; [done|].
  rewrite append_out_app. eexists. split; [reflexivity|]. pose proof (ztake_zdrop n (ByteSpan.rest sp)) as Hsplit.
  rewrite <- Hr' in Hsplit. rewrite <- Hsplit at 1.
  unfold rest_frames in Hfr. destruct (ByteSpan.empty sp') eqn:He'.
  - apply ByteSpan.empty_rest in He'; [|done]. rewrite He' in Hfr |- *. rewrite bool_decide_true in Hfr by done. subst frames.
    rewrite app_nil_r. apply bf_last; [by apply (fragment_of_continuation n 4); [|lia|auto|]|done].
  - apply ByteSpan.empty_false_rest in He'; [|done]. rewrite bool_decide_false in Hfr by done.
    apply bf_more; [by apply (fragment_of_continuation n 0); [|lia|auto|]|done|done].
Qed.

Lemma emitRequestHeaders_frames E p id s encoded r :
  16384 <= maxFrameSize p < 2 ^ 24 -> 0 <= id < 2 ^ 31 -> streams p !! id = Some s -> zlen encoded < 2 ^ 32 ->
  wp E (emitRequestHeaders id encoded r)
    (fun r' p' => (exists frames, r' = append_out r frames /\ block_frames id true encoded frames) /\
       exists s', headers_sent s s' /\ p' = with_stream id s' p) p.
Proof.
  intros Hmax Hid Hs Hl. pose proof (zlen_nonneg encoded).
  assert (Hwf : ByteSpan.wf (ByteSpan.make encoded)) by by apply ByteSpan.wf_make.
  assert (Hrest : ByteSpan.rest (ByteSpan.make encoded) = encoded) by (unfold ByteSpan.rest; apply zdrop_0).
  rewrite <- (with_stream_self id s p Hs) at 1. unfold emitRequestHeaders. psteps.
  rewrite ByteSpan.size_rest, Hrest by done. change (maxFrameSize (with_stream id s p)) with (maxFrameSize p).
  set (n := Z.min (maxFrameSize p) (zlen encoded)). assert (Hn : 0 <= n < 2 ^ 24) by lia.
  apply wp_mono with (Q := fun r' p' => p' = with_stream id s p /\ exists data span,
    r' = (FrameHeader.mk n FrameType.HEADERS 0 id, data, span) /\ zlen data = n /\
    ByteSpan.wf span /\ encoded = data ++ ByteSpan.rest span).
  { rewrite Z.gtb_ltb. destruct (Z.ltb_spec 0 n).
    - destruct (chunk_ok (ByteSpan.make encoded) n Hwf) as (sp' & Hfi & Ha & Hw' & Hr' & Hdl & Hl');
        [rewrite Hrest; lia|]. wp_steps. eapply wp_lift; [exact Hfi|]. cbv beta. wp_step.
      eapply wp_lift; [exact Ha|]. cbv beta. wp_steps. split; [done|].
      eexists _, sp'. split; [done|]. rewrite Hr', Hrest in *. split; [done|]. split; [done|]. symmetry. apply ztake_zdrop.
    - apply wp_ret. split; [done|]. exists [], (ByteSpan.make encoded).
      assert (n = 0) as -> by lia. by rewrite Hrest. }
  intros r1 p1 (-> & data & span & -> & Hd & Hw & Henc). wp_steps.
  apply wp_mono with (Q := fun h p' => exists s' flags, h = FrameHeader.mk n FrameType.HEADERS flags id /\
    (flags = 0 \/ flags = 4 \/ flags = 5) /\ (flags = 0 <-> ByteSpan.rest span <> []) /\
    headers_sent s s' /\ p' = with_stream id s' p).
  { destruct (ByteSpan.empty span) eqn:He.
    - apply ByteSpan.empty_rest in He; [|done]. destruct (Stream.hasBody s) eqn:Hb; cbn [negb]; psteps.
      + exists s, 4. unfold headers_sent. split_and!; [done|auto|by rewrite He|auto|done].
      + exists (Stream.set_localEndStreamSent true s), 5. unfold headers_sent.
        split_and!; [done|auto|by rewrite He|auto|done].
    - apply ByteSpan.empty_false_rest in He; [|done]. apply wp_ret. exists s, 0. unfold headers_sent. split_and!; [done|auto|done|auto|done]. }
  intros h p1 (s' & flags & -> & Hflags & Hend & Hsent & ->). rewrite append_out_push.
  eapply wp_mono; [apply (emit_continuations_frames E); [done|done|done|]|].
  { apply (f_equal zlen) in Henc. rewrite zlen_app in Henc. unfold zlen in *. lia. }
  intros r' p' [-> (frames & -> & Hfr)]. split; [|eauto]. rewrite append_out_app. eexists. split; [reflexivity|].
  pose proof (fragment_of_headers n flags id data Hd (proj2 Hn) Hflags Hid) as Hfrag.
  rewrite Henc. unfold rest_frames in Hfr. case_bool_decide as He.
  - subst frames. rewrite He, app_nil_r. apply bf_last; [|done]. rewrite Hfrag.
    destruct (Z.eqb_spec flags 0) as [->|]; [|done]. by destruct (proj1 Hend eq_refl).
  - apply bf_more; [|done|done]. rewrite Hfrag. by rewrite (proj2 Hend He).
Qed.

(** ** Submitting a request *)

(** The accounts without the header blocks. *)
Definition data_account (x y : t * StepResult.t) : Prop :=
  connection_account x y /\ next_account x y /\ forall id, stream_account id x y.
Definition sends_data (x y : t * StepResult.t) : Prop := send_ok x.1 -> send_ok y.1 /\ data_account x y.

Lemma sends_sends_data x y : sends x y -> sends_data x y.
Proof. intros Hxy Hx. destruct (Hxy Hx) as (Hy & ? & ? & ?). do 3 (split; [done|]). done. Qed.

#[export] Instance sends_data_preorder : PreOrder sends_data.
Proof.
  split.
  - intros x. apply sends_sends_data. reflexivity.
  - intros x y z Hxy Hyz Hx. destruct (Hxy Hx) as (Hy & Hc1 & [Hn1 Hf1] & Hs1).
    destruct (Hyz Hy) as (Hz & Hc2 & [Hn2 Hf2] & Hs2). split; [done|].
    split; [unfold connection_account in *; lia|].
    split; [split; [congruence|]; intros id Hid; rewrite Hf2, Hf1 by lia; done|].
    intros id. by eapply stream_account_trans.
Qed.

(** Header frames: no DATA, and the stream may be ended. *)
Lemma headers_sends_data p q id s s' e frames :
  streams p !! id = Some s -> headers_sent s s' -> streams q = <[id := s']> (streams p) ->
  connectionOutFlow q = connectionOutFlow p -> nextStreamId q = nextStreamId p ->
  initialWindowSize q = initialWindowSize p -> maxFrameSize q = maxFrameSize p ->
  omap data_of frames = [] -> sends_data (p, e) (q, append_out e frames).
Proof.
  intros Hs Hsent Hq Hc Hn Hw Hm Hfr Hp. cbn [fst] in Hp.
  assert (Hs' : Stream.rqst s' = Stream.rqst s /\ Stream.outflow s' = Stream.outflow s /\
    Stream.requestBodyOffset s' = Stream.requestBodyOffset s /\ Stream.isClosed s' = Stream.isClosed s)
    by (destruct Hsent as [->|[_ ->]]; done).
  destruct Hs' as (Hr & Hf & Ho & Hcl). destruct (se_streams _ Hp id s Hs) as [Hid Hok].
  assert (Hsame : forall j, streams q !! j = if decide (j = id) then Some s' else streams p !! j).
  { intros j. rewrite Hq. destruct (decide (j = id)) as [->|]; [apply lookup_insert_eq|by apply lookup_insert_ne]. }
  split.
  - constructor; cbn [fst]; rewrite ?Hc, ?Hn, ?Hw, ?Hm; [apply Hp..|]. intros j sj. rewrite Hsame.
    destruct (decide (j = id)) as [->|]; [|apply Hp]. intros [= <-]. split; [done|].
    destruct Hok as (? & ? & ? & Hend). unfold sender_ok, Stream.bodySize in *. rewrite Hr, Hf, Ho, Hcl.
    do 3 (split; [done|]). destruct Hsent as [->|[Hb ->]]; [done|]. intros _.
    unfold Stream.hasBody in Hb. apply negb_false_iff in Hb. bool_to_prop. lia.
  - unfold data_account, connection_account, next_account, stream_account, append_out.
    cbn [fst snd StepResult.outbound StepResult.events]. rewrite Hc, Hn, Hw.
    assert (Hd : omap data_of (StepResult.outbound e ++ frames) = omap data_of (StepResult.outbound e))
      by (by rewrite omap_app, Hfr, app_nil_r).
    unfold data_sent, data_on. rewrite Hd. split; [done|]. split; [done|]. intros j. exists []. rewrite app_nil_r, Hsame.
    split; [done|]. destruct (decide (j = id)) as [->|].
    + rewrite Hs. unfold unsent. rewrite Hr, Hf, Ho. split; [done|]. split; [constructor|].
      change (zlen (payload [])) with 0. lia.
    + destruct (streams p !! j); [|done]. split; [done|]. split; [constructor|].
      change (zlen (payload [])) with 0. lia.
Qed.

(** What [submitRequest] does after opening the stream: the block of the
    request's header fields, then whatever the windows let through. *)
Lemma submit_tail_run request id p s r p' (e := StepResult.push_event (streamOpened id) StepResult.empty) :
  send_ok p -> streams p !! id = Some s -> request_fits request ->
  submit_tail request id p = Ok (r, p') ->
  exists block hp frames q,
    Hpack.encode (buildRequestHeaderFields request) (hpack p) = Ok (block, hp) /\ zlen block < 2 ^ 32 /\
    block_frames id true block frames /\ enc_part (hpack p') = enc_part hp /\
    (exists more, StepResult.outbound r = frames ++ more /\ Forall (fun b => calm_buffer b = true) more) /\
    sends_data (p, e) (q, append_out e frames) /\ sends (q, append_out e frames) (p', r) /\
    exists q' r', send_ok q' /\ emitPendingRequestBody id (append_out e frames) q' = Ok (r', p') /\
      connectionOutFlow q' = connectionOutFlow p /\ (forall j, j <> id -> streams q' !! j = streams p !! j).
Proof.
  intros Hp Hs Hreq Hrun. unfold submit_tail in Hrun. fold e in Hrun.
  apply run_bind in Hrun as (p0 & q0 & Hget & Hrun). injection Hget as <- <-.
  apply run_bind in Hrun as ([block hp] & q1 & Henc & Hrun). unfold lift in Henc.
  destruct (Hpack.encode _ _) as [[b h]|] eqn:He; [|done]. injection Henc as -> -> <-.
  assert (Hlen : zlen block < 2 ^ 32) by (apply encode_size in He; destruct Hreq as [? _]; lia).
  apply run_bind in Hrun as (? & q2 & Hmod & Hrun). injection Hmod as _ <-.
  apply run_bind in Hrun as (r1 & q3 & Hemit & Hrun).
  destruct (se_streams _ Hp id s Hs) as [Hid _]. pose proof (se_next _ Hp).
  destruct (wp_inv _ _ _ _ _ _ (emitRequestHeaders_frames no_fault (set_hpack hp p) id s block e (se_max _ Hp)
    ltac:(lia) Hs Hlen) Hemit) as [(frames & -> & Hfr) (s' & Hsent & ->)].
  exists block, hp, frames, (with_stream id s' (set_hpack hp p)). split; [done|]. split; [done|]. split; [done|].
  assert (Hdata : sends_data (p, e) (with_stream id s' (set_hpack hp p), append_out e frames))
    by (by eapply (headers_sends_data p _ id s s'); [..|by eapply block_frames_no_data]).
  apply run_bind in Hrun as (? & q4 & Hu1 & Hrun). apply run_bind in Hrun as (? & q5 & Hu2 & Hrun).
  apply run_bind in Hrun as (r2 & q6 & Hbody & Hrun). injection Hrun as <- <-.
  assert (Hupd : sends (with_stream id s' (set_hpack hp p), append_out e frames) (q5, append_out e frames)).
  { etrans; [eapply (books_update sends _ id (Stream.set_requestStarted true)); [done|done|by split|exact Hu1]|].
    eapply (books_update sends _ id (fun s => Stream.set_streamState
      (if Stream.localEndStreamSent s then HALF_CLOSED_LOCAL else OPEN) s)); [done|done| |exact Hu2].
    intros s0. split; [done|]. intros _. by destruct (Stream.localEndStreamSent s0). }
  assert (Hcalm : calm (with_stream id s' (set_hpack hp p), append_out e frames) (q6, r2)).
  { etrans; [eapply (books_update calm _ id (Stream.set_requestStarted true)); [done|done|by split|exact Hu1]|].
    etrans; [eapply (books_update calm _ id (fun s => Stream.set_streamState
      (if Stream.localEndStreamSent s then HALF_CLOSED_LOCAL else OPEN) s)); [done|done| |exact Hu2]|].
    - intros s0. split; [done|]. intros _. by destruct (Stream.localEndStreamSent s0).
    - by eapply (emitPending_books calm); [|exact Hbody]. }
  destruct Hcalm as (Hhp & more & Hmore & Hcalm). cbn in Hmore. split; [exact Hhp|].
  split; [by exists more|]. split; [exact Hdata|].
  split; [etrans; [exact Hupd|etrans; [by eapply emitPending_sends|by apply lg_report]]|].
  exists q5, r2. split; [by apply Hupd, Hdata|]. split; [done|].
  unfold update in Hu1. rewrite with_stream_lookup in Hu1. injection Hu1 as _ <-.
  unfold update in Hu2. cbn [streams set_streams] in Hu2. rewrite lookup_insert_eq in Hu2. injection Hu2 as _ <-.
  split; [done|]. intros j Hne. unfold with_stream. cbn [streams set_streams set_hpack].
  by rewrite !lookup_insert_ne by done.
Qed.

(** ** The invariant of a run *)

(** The requests accepted, with their streams. *)
Definition submission (cr : call * StepResult.t) : option (Z * Request.t) :=
  match cr with
  | (CSubmit request, r) =>
      if StepResult.hasSubmittedStream r then Some (StepResult.submittedStreamId r, request) else None
  | _ => None
  end.
Definition submissions (cs : list call) (rs : list StepResult.t) : list (Z * Request.t) :=
  omap submission (zip cs rs).

(** The DATA sent, [out], and the events, [ev], of the requests [subs]. *)
Record data_books (subs : list (Z * Request.t)) (out : list bytes) (ev : list ProtocolEvent) (p : t) : Prop := {
  db_ok : send_ok p;
  db_connection : OutFlow.window (connectionOutFlow p) + data_sent out = 65535 + credit 0 ev;
  db_ids id request : (id, request) ∈ subs -> id < nextStreamId p;
  db_fresh id : nextStreamId p <= id -> credit id ev = 0;
  db_silent id : (forall request, (id, request) ∉ subs) -> data_on id out = [];
  db_bodies id request :
    (id, request) ∈ subs ->
    exists rest, delivers (Request.body request) (data_on id out) rest /\
      forall s, streams p !! id = Some s -> Stream.rqst s = request /\ rest = unsent s;
  db_windows id s :
    streams p !! id = Some s ->
    (id, Stream.rqst s) ∈ subs /\
    OutFlow.window (Stream.outflow s) + zlen (payload (data_on id out)) = initialWindowSize p + credit id ev;
}.

(** A step that keeps the accounts keeps the books. *)
Lemma data_books_step subs out ev p e p' r :
  data_books subs out ev p -> sends_data (p, e) (p', r) ->
  StepResult.outbound e = [] -> credits (StepResult.events e) = [] ->
  data_books subs (out ++ StepResult.outbound r) (ev ++ StepResult.events r) p'.
Proof.
  intros [Hok Hconn Hids Hfresh Hsilent Hbodies Hwin] Hstep He Hce.
  destruct (Hstep Hok) as (Hok' & Hc & [Hn Hf] & Hs). cbn [fst snd] in *.
  assert (Hce0 : forall id, credit id (StepResult.events e) = 0) by (intros id; unfold credit; by rewrite Hce).
  unfold connection_account, stream_account in *. cbn [fst snd] in *. rewrite He in *.
  split; rewrite ?data_sent_app, ?Hn; [done| | | | | |].
  - rewrite credit_app. rewrite Hce0 in Hc. change (data_sent []) with 0 in Hc. lia.
  - done.
  - intros id Hid. rewrite credit_app, Hfresh, Hf, Hce0 by done. done.
  - intros id Hid. rewrite data_on_app, Hsilent by done. destruct (Hs id) as (new & -> & Hm).
    destruct (streams p !! id) as [s|] eqn:Hsp; [|destruct (streams p' !! id); [done|by subst]].
    destruct (Hwin id s Hsp) as [Hin _]. by destruct (Hid (Stream.rqst s)).
  - intros id request Hin. destruct (Hbodies id request Hin) as (rest & Hd & Hrest). rewrite data_on_app.
    destruct (Hs id) as (new & -> & Hm). cbn [app data_on omap list_omap]. change (data_on id []) with (@nil (bool * bytes)).
    cbn [app]. destruct (streams p !! id) as [s|] eqn:Hsp; destruct (streams p' !! id) as [s'|] eqn:Hsp'.
    + destruct (Hrest s eq_refl) as [Hr ->], Hm as (Hr' & Hd' & _). exists (unsent s').
      split; [by eapply delivers_app|]. intros ? [= <-]. split; [congruence|done].
    + destruct (Hrest s eq_refl) as [Hr ->], Hm as (rest' & Hd'). exists rest'. split; [by eapply delivers_app|done].
    + done.
    + subst new. exists rest. by rewrite app_nil_r.
  - intros id s' Hsp'. destruct (Hs id) as (new & Hnew & Hm). rewrite Hsp' in Hm.
    destruct (streams p !! id) as [s|] eqn:Hsp; [|done]. destruct Hm as (Hr & Hd & Hw), (Hwin id s Hsp) as [Hin Hwin0].
    rewrite Hr. split; [done|]. rewrite data_on_app, Hnew, credit_app. change (data_on id []) with (@nil (bool * bytes)).
    cbn [app]. rewrite payload_app, zlen_app. rewrite Hce0 in Hw. lia.
Qed.

(** Opening a stream. *)
Lemma data_books_open subs out ev p request :
  data_books subs out ev p -> nextStreamId p <= 0x7ffffffe -> Z.odd (nextStreamId p) = true ->
  zlen (Request.body request) < 2 ^ 63 -> streams p !! nextStreamId p = None ->
  data_books (subs ++ [(nextStreamId p, request)]) out ev (opened_state request p).
Proof.
  intros [Hok Hconn Hids Hfresh Hsilent Hbodies Hwin] Hmax Hodd Hsz Hnone.
  set (id := nextStreamId p) in *. pose proof (se_next _ Hok) as Hnx. fold id in Hnx.
  assert (Hid : id + 2 <= 2 ^ 31).
  { destruct (Z.eq_dec id 0x7ffffffe) as [Heq|]; [rewrite Heq in Hodd; discriminate Hodd|lia]. }
  pose proof (se_window _ Hok) as Hw. set (w := initialWindowSize p) in *.
  set (s0 := new_stream id request w).
  assert (Hadd : OutFlow.add (i32 w) (OutFlow.mk true 0) = (true, OutFlow.mk true w)).
  { rewrite i32_small by lia. unfold OutFlow.add. cbn [OutFlow.window OutFlow.conn]. rewrite Z.gtb_ltb.
    unfold INT32_MAX, INT32_MIN. destruct (Z.ltb_spec (2 ^ 31 - 1) (0 + w)); [lia|].
    destruct (Z.ltb_spec (0 + w) (- 2 ^ 31)); [lia|]. cbn [orb]. done. }
  assert (Hs0 : Stream.rqst s0 = request /\ Stream.outflow s0 = OutFlow.mk true w /\
    Stream.requestBodyOffset s0 = 0 /\ Stream.isClosed s0 = false /\ Stream.localEndStreamSent s0 = false).
  { unfold s0, new_stream. cbn -[OutFlow.add i32]. change (OutFlow.setConnFlow OutFlow.init_zero) with (OutFlow.mk true 0).
    by rewrite Hadd. }
  destruct Hs0 as (Hr & Hf & Ho & Hcl & Hend).
  assert (Hnext : nextStreamId (opened_state request p) = id + 2).
  { unfold opened_state. cbn. apply u32_small. lia. }
  assert (Hstreams : streams (opened_state request p) = <[id := s0]> (streams p)) by done.
  assert (Hnotin : forall request', (id, request') ∉ subs).
  { intros request' Hin. apply Hids in Hin. lia. }
  split; rewrite ?Hnext, ?Hstreams; [| done | | | | |].
  - constructor; rewrite ?Hnext, ?Hstreams; [apply Hok|apply Hok|apply Hok|lia|].
    intros j s [[<- <-]|[Hne Hj]]%lookup_insert_Some.
    + split; [lia|]. unfold sender_ok, Stream.bodySize. rewrite Hr, Hf, Ho, Hcl.
      split; [split; [|done]|split; [|by rewrite Hend]].
      * unfold OutFlow.wf, INT32_MIN, INT32_MAX. change (OutFlow.window (OutFlow.mk true w)) with w. lia.
      * pose proof (zlen_nonneg (Request.body request)). lia.
    + destruct (se_streams _ Hok j s Hj). fold id in H. split; [lia|done].
  - intros j request' [Hin|Hin%list_elem_of_singleton]%elem_of_app; [apply Hids in Hin; lia|].
    injection Hin as -> _. lia.
  - intros j Hj. apply Hfresh. lia.
  - intros j Hj. apply Hsilent. intros request' Hin. destruct (Hj request'). apply elem_of_app. by left.
  - intros j request' [Hin|Hin%list_elem_of_singleton]%elem_of_app.
    + destruct (Hbodies j request' Hin) as (rest & Hd & Hrest). exists rest. split; [done|].
      intros s. rewrite lookup_insert_ne; [by apply Hrest|]. intros <-. by destruct (Hnotin request').
    + injection Hin as -> ->. exists (Request.body request). rewrite (Hsilent id Hnotin). split; [constructor|].
      intros s. rewrite lookup_insert_eq. intros [= <-]. split; [done|]. unfold unsent. by rewrite Hr, Ho.
  - intros j s [[<- <-]|[Hne Hj]]%lookup_insert_Some.
    + rewrite Hr, Hf, (Hsilent id Hnotin), (Hfresh id) by lia. split; [apply elem_of_app; right; by apply list_elem_of_singleton|].
      change (zlen (payload [])) with 0. change (initialWindowSize (opened_state request p)) with w. cbn. lia.
    + destruct (Hwin j s Hj) as [Hin Hacc]. split; [apply elem_of_app; by left|done].
Qed.

(** ** One call *)

Definition run_books (cs : list call) (rs : list StepResult.t) (p : t) : Prop :=
  length cs = length rs /\
  data_books (submissions cs rs) (sent rs) (run_events rs) p.

Lemma submissions_snoc cs rs c r :
  length cs = length rs ->
  submissions (cs ++ [c]) (rs ++ [r]) = submissions cs rs ++ from_option (fun x => [x]) [] (submission (c, r)).
Proof.
  intros Hl. unfold submissions. rewrite zip_with_app by done. by rewrite omap_app.
Qed.

Section steps.
Context `{IterOrder}.

Lemma quiet_call_sends c p r p' :
  (forall request, c <> CSubmit request) -> call_run c p = Ok (r, p') -> sends (p, StepResult.empty) (p', r).
Proof.
  intros Hc. apply (other_call_books sends); [done|]. intros data _.
  apply (receiveBytes_books sends); [apply processSettingFrame_sends|apply processWindowUpdateFrame_sends].
Qed.

Lemma refused_sends p r : refused r -> sends (p, StepResult.empty) (p, r).
Proof. intros [code ->]. apply quiet_sends, quiet_state; [apply (streams_kept_refl p)|done..]. Qed.

Lemma run_books_plain cs rs c p r p' :
  run_books cs rs p -> submission (c, r) = None -> sends (p, StepResult.empty) (p', r) ->
  run_books (cs ++ [c]) (rs ++ [r]) p'.
Proof.
  intros (Hl & Hd) Hsub Hsends. unfold run_books. rewrite submissions_snoc, Hsub, sent_snoc, run_events_snoc by done.
  cbn [from_option]. rewrite app_nil_r. split; [rewrite !length_app; cbn; lia|].
  apply (data_books_step _ _ _ p StepResult.empty); [done|by apply sends_sends_data|done|done].
Qed.

Lemma run_books_step c p r p' cs rs k :
  call_ok c -> call_run c p = Ok (r, p') -> inv k p -> run_books cs rs p -> run_books (cs ++ [c]) (rs ++ [r]) p'.
Proof.
  intros Hok Hrun Hinv Hbooks. destruct c as [|request| | | | |];
    try (by eapply run_books_plain; [|done|eapply quiet_call_sends; [|exact Hrun]]).
  destruct (submitRequest_cases _ _ _ _ Hrun) as [[-> Href]|(_ & _ & _ & Hmax & Htail)].
  { eapply run_books_plain; [done| |by apply refused_sends]. by destruct Href as [code ->]. }
  destruct Hbooks as (Hl & Hd). pose proof (submit_tail_id _ _ _ _ _ Htail) as [Hsub Hid].
  set (id := nextStreamId p) in *.
  assert (Hd1 : data_books (submissions cs rs ++ [(id, request)]) (sent rs) (run_events rs) (opened_state request p)).
  { apply data_books_open; [done|done|apply (v_next _ _ (proj1 Hinv))|apply Hok|by eapply fresh_id]. }
  assert (Hs : streams (opened_state request p) !! id = Some (new_stream id request (initialWindowSize p)))
    by apply lookup_insert_eq.
  destruct (submit_tail_run _ _ _ _ _ _ (db_ok _ _ _ _ Hd1) Hs Hok Htail)
    as (block & hp & frames & q & _ & _ & _ & _ & _ & Hdata & Hsends & _).
  unfold run_books. rewrite submissions_snoc, sent_snoc, run_events_snoc by done.
  cbn [submission]. rewrite Hsub, Hid. cbn [from_option]. split; [rewrite !length_app; cbn; lia|].
  eapply data_books_step; [exact Hd1| | |]; [etrans; [exact Hdata|by apply sends_sends_data]|done|done].
Qed.

Lemma run_books_start config :
  ClientConfig.wf config -> run_books [] [] (make config).
Proof.
  intros Hconf. assert (Hinv : inv 0 (make config)) by (apply make_inv; [done|lia]).
  split; [done|]. split.
  - destruct Hinv as [[] _]. constructor; [done|split; [done|by vm_compute]|done|apply v_next|].
    intros id s Hs. change (streams (make config)) with (∅ : gmap Z Stream.t) in Hs. by rewrite lookup_empty in Hs.
  - done.
  - intros id request Hin. by apply elem_of_nil in Hin.
  - done.
  - done.
  - intros id request Hin. by apply elem_of_nil in Hin.
  - intros id s Hs. change (streams (make config)) with (∅ : gmap Z Stream.t) in Hs. by rewrite lookup_empty in Hs.
Qed.
End steps.
