(* ===== verification/ProtocolReceives.v ===== *)
(** * The accounts of what is received

    A response is delivered with the body the peer sent: the DATA of its
    stream, in order, up to the end of the stream.  The account is kept frame
    by frame: most frames leave the bodies alone ([undisturbed], a ledger),
    DATA extends one, and DATA, HEADERS or CONTINUATION may hand one over. *)

From S2P Require Import Prelude Outcome ByteBuffer Types Flow Frame FrameFacts FrameCodec HeaderRules.
From S2P Require Import Hpack ProtocolEvent Stream ProtocolState Protocol ProtocolHandlers.
From S2P Require Import ProtocolInv ProtocolFrame ProtocolFacts ProtocolOps ProtocolLedger.
From S2P Require Import ProtocolSafety ProtocolBlind ProtocolRuns.
Import Http2Protocol.

(** ** What the frames say *)

(** The data of a DATA frame, padding removed. *)
Definition data_in (frame : RawFrame.t) : bytes :=
  match DataFrame.parse frame with Ok d => DataFrame.data d | Fault _ => [] end.

Definition frame_on (type id : Z) (frame : RawFrame.t) : bool :=
  (FrameHeader.type (RawFrame.header frame) =? type) && (FrameHeader.streamId (RawFrame.header frame) =? id).

Definition frame_data (id : Z) (frame : RawFrame.t) : bytes :=
  if frame_on FrameType.DATA id frame then data_in frame else [].
Definition received_data (id : Z) (frames : list RawFrame.t) : bytes := concat (map (frame_data id) frames).

(** END_STREAM. *)
Definition frame_ends (id : Z) (frame : RawFrame.t) : bool :=
  (frame_on FrameType.DATA id frame || frame_on FrameType.HEADERS id frame)
  && FrameHeader.hasEndStreamFlag (RawFrame.header frame).
Definition ended (id : Z) (frames : list RawFrame.t) : bool := existsb (frame_ends id) frames.

(** The bodies handed over. *)
Definition completions (e : list ProtocolEvent) : list (Z * bytes) :=
  omap (fun ev => match ev with responseCompleted id r => Some (id, Response.body r) | _ => None end) e.

Abbreviation body s := (Response.body (Stream.resp s)).

Lemma received_data_snoc id frames frame :
  received_data id (frames ++ [frame]) = received_data id frames ++ frame_data id frame.
Proof. unfold received_data. rewrite map_app, concat_app. cbn. by rewrite app_nil_r. Qed.

Lemma ended_snoc id frames frame : ended id (frames ++ [frame]) = ended id frames || frame_ends id frame.
Proof. unfold ended. rewrite existsb_app. cbn. by rewrite orb_false_r. Qed.

Lemma frame_data_other id frame :
  FrameHeader.type (RawFrame.header frame) <> FrameType.DATA \/
  FrameHeader.streamId (RawFrame.header frame) <> id -> frame_data id frame = [].
Proof.
  unfold frame_data, frame_on. intros Ho. destruct (_ && _) eqn:Hb; [|done]. bool_to_prop. lia.
Qed.

Lemma completions_app e e' : completions (e ++ e') = completions e ++ completions e'.
Proof. apply omap_app. Qed.

(** ** Frames that leave the responses alone *)

(** What became of a stream that received the bytes [d]; [fin] allows it to
    wait for a header block that ends it. *)
Definition stream_received (d : bytes) (fin : bool) (s s' : Stream.t) : Prop :=
  Stream.remoteEndStreamReceived s' = Stream.remoteEndStreamReceived s /\
  body s' = body s ++ d /\
  (Stream.pendingHeaderEndStream s' = true -> Stream.pendingHeaderEndStream s = true \/ fin = true).

Definition streams_received (d : Z -> bytes) (fin : Z -> bool) (p p' : t) : Prop :=
  forall id s', streams p' !! id = Some s' ->
    exists s, streams p !! id = Some s /\ stream_received (d id) (fin id) s s'.

Definition undisturbed (x y : t * StepResult.t) : Prop :=
  streams_received (fun _ => []) (fun _ => false) x.1 y.1 /\
  completions (StepResult.events y.2) = completions (StepResult.events x.2) /\
  nextStreamId y.1 = nextStreamId x.1.

Lemma stream_received_refl s fin : stream_received [] fin s s.
Proof. split; [done|]. by rewrite app_nil_r; auto. Qed.

Lemma streams_received_refl p p' fin : streams p' = streams p -> streams_received (fun _ => []) fin p p'.
Proof. intros Hs id s'. rewrite Hs. eauto using stream_received_refl. Qed.

Lemma streams_received_with p id s s' :
  streams p !! id = Some s -> Stream.remoteEndStreamReceived s' = Stream.remoteEndStreamReceived s ->
  same_response s s' -> streams_received (fun _ => []) (fun _ => false) p (with_stream id s' p).
Proof.
  intros Hs Hr [Hb Hh] j sj. unfold with_stream. cbn. rewrite lookup_insert_Some.
  intros [[<- <-]|[_ Hj]]; [|eauto using stream_received_refl].
  exists s. split; [done|]. split; [done|]. rewrite app_nil_r. auto.
Qed.

Lemma streams_received_without p id : streams_received (fun _ => []) (fun _ => false) p (without_stream id p).
Proof.
  intros j sj. unfold without_stream. cbn. intros [_ Hj]%lookup_delete_Some. eauto using stream_received_refl.
Qed.

(** Nothing more is received. *)
Lemma streams_received_trans d fin p q p' :
  streams_received d fin p q -> streams_received (fun _ => []) (fun _ => false) q p' ->
  streams_received d fin p p'.
Proof.
  intros H1 H2 id s' Hs'. destruct (H2 id s' Hs') as (s1 & Hs1 & Hr2 & Hb2 & Hh2).
  destruct (H1 id s1 Hs1) as (s & Hs & Hr1 & Hb1 & Hh1). exists s. split; [done|]. split; [congruence|].
  rewrite app_nil_r in Hb2. split; [congruence|]. intros Hp. destruct (Hh2 Hp); [auto|done].
Qed.

Lemma completions_snoc e ev :
  match ev with responseCompleted _ _ => False | _ => True end -> completions (e ++ [ev]) = completions e.
Proof. intros Hev. rewrite completions_app. destruct ev; cbn; (done || by rewrite app_nil_r). Qed.

#[export] Instance undisturbed_ledger : OpenLedger undisturbed.
Proof.
  assert (Hrefl : forall p p' fin, streams p' = streams p -> streams_received (fun _ => []) fin p p')
    by (intros; by apply streams_received_refl).
  unfold undisturbed. apply open_ledger; [split|..]; cbn [fst snd StepResult.events StepResult.mergeStepResult
    StepResult.push_event StepResult.push_outbound StepResult.empty app].
  - split; [by intros x; split; [apply Hrefl|]|]. intros x y z (Hs1 & He1 & Hn1) (Hs2 & He2 & Hn2).
    split; [by eapply streams_received_trans|split; congruence].
  - intros d p e p' e' (Hs & He & Hn). split; [done|]. rewrite !completions_app. by rewrite He.
  - intros p e e' -> _. auto.
  - intros p p' e [= Hs Hn _ _ _ _ _ _ _ _]. auto.
  - intros p id s s' e Hs Hr Hss _. by split; [by eapply streams_received_with|].
  - intros p e ev Hev. split; [auto|]. split; [|done]. apply completions_snoc. by destruct ev.
  - intros p e ev Hev. split; [auto|]. change (ev :: StepResult.events e) with ([ev] ++ StepResult.events e).
    rewrite completions_app. split; [by destruct ev|done].
  - auto.
  - intros p id s e code Hs. split; [apply streams_received_without|]. by rewrite !completions_snoc.
  - intros p id s e code Hs _. split; [apply streams_received_without|]. by rewrite completions_snoc.
  - intros p e code debug _. split; [auto|]. by rewrite completions_snoc.
  - auto.
  - intros p id s s' e Hs Hr Hss. by split; [by eapply streams_received_with|].
  - intros p e ev Hev. split; [auto|]. split; [|done]. apply completions_snoc. by destruct ev.
  - auto.
Qed.

(** ** Up to the end of the stream

    [leads R e F m c]: [m] keeps the books to its end, or up to a last step
    that [F] describes. *)

Definition leads {A} (R : t * StepResult.t -> t * StepResult.t -> Prop) (e : StepResult.t)
  (F : t -> StepResult.t -> A -> t -> Prop) (m : st t A) (c : A -> StepResult.t) : Prop :=
  forall p a p', m p = Ok (a, p') ->
    R (p, e) (p', c a) \/ exists q r, R (p, e) (q, r) /\ F q r a p'.

Lemma leads_books {A} R e F (m : st t A) c : books R e m c -> leads R e F m c.
Proof. intros Hm p a p' Hrun. left. by eapply Hm. Qed.

Lemma leads_bind {A B} R `{!PreOrder R} e F (m : st t A) (k : A -> st t B) c1 c2 :
  books R e m c1 -> (forall a, leads R (c1 a) F (k a) c2) -> leads R e F (bind m k) c2.
Proof.
  intros Hm Hk p b p' Hrun. apply run_bind in Hrun as (a & q & Ha & Hrun).
  destruct (Hk a q b p' Hrun) as [HR|(q' & r & HR & HF)]; [left|right; exists q', r; split; [|done]];
    (etrans; [by eapply Hm|exact HR]).
Qed.

(** What [finalizeRemoteStream id] does last. *)
Definition finalizes (id : Z) (q : t) (r r' : StepResult.t) (p' : t) : Prop :=
  finalizeRemoteStream id r q = Ok (r', p').

Lemma leads_finalize R `{!PreOrder R} e id r :
  (forall p, R (p, e) (p, r)) -> leads R e (finalizes id) (finalizeRemoteStream id r) result.
Proof. intros Hr p r' p' Hrun. right. by exists p, r. Qed.

Ltac leads_step :=
  lazymatch goal with
  | |- leads _ _ _ (bind _ _) _ => eapply leads_bind; [apply _|books_step|intros ?]
  | |- leads _ _ _ (match ?x with _ => _ end) _ => destruct x
  | |- leads _ _ _ (finalizeRemoteStream _ _) _ => apply leads_finalize; [apply _|noted]
  | |- leads _ _ _ _ _ => apply leads_books; books
  end.
Ltac leads := cbv zeta; repeat (leads_step; cbv beta iota zeta).

Section frames.
Context `{IterOrder}.

Hint Extern 1 (books _ _ (failStream _ _ _) _) => apply failStream_books_nil, _ : books.
Hint Extern 1 (books _ _ (failConnection _ _) _) => apply failConnection_books_nil, _ : books.
Hint Extern 1 (books _ _ (store_headers _ _) _) => apply store_headers_books, _ : books.

Lemma leads_refresh {A} R `{!Ledger R} e F n r (k : option StepResult.t -> st t A) c :
  (forall p, R (p, e) (p, r)) ->
  (forall o, (forall p r', o = Some r' -> R (p, e) (p, r')) -> leads R e F (k o) c) ->
  leads R e F (bind (refresh_connection n r) k) c.
Proof.
  intros Hr Hk p a p' Hrun. apply run_bind in Hrun as (o & q & Ho & Hrun).
  destruct (refresh_connection_run R e n r p o q Hr Ho) as [HR Hr'].
  destruct (Hk o Hr' q a p' Hrun) as [HR'|(q' & r' & HR' & HF)]; [left|right; exists q', r'; split; [|done]];
    (etrans; [exact HR|exact HR']).
Qed.

(** DATA for a stream: it is appended to the body, and with END_STREAM the
    body is handed over at the end. *)
Lemma accept_data_leads id d q r p' :
  accept_data id d q = Ok (r, p') ->
  exists s, streams q !! id = Some s /\
    let q1 := with_stream id (Stream.set_resp
      (Response.set_body (body s ++ DataFrame.data d) (Stream.resp s)) s) q in
    undisturbed (q1, StepResult.empty) (p', r) \/
    exists q2 r2, undisturbed (q1, StepResult.empty) (q2, r2) /\
      FrameHeader.hasEndStreamFlag (DataFrame.header d) = true /\ finalizes id q2 r2 r p'.
Proof.
  unfold accept_data. intros Hrun. apply run_bind in Hrun as (u & q1 & Hu & Hrun).
  apply update_run in Hu as (s & Hs & ->). exists s. split; [done|].
  lazymatch type of Hrun with ?m _ = _ =>
    assert (Hl : leads undisturbed StepResult.empty (fun q2 r2 r p' =>
      FrameHeader.hasEndStreamFlag (DataFrame.header d) = true /\ finalizes id q2 r2 r p') m result) end;
    [|by apply Hl].
  do 3 leads_step. apply leads_refresh; [apply _|noted|]. intros [r1|] Hr1; [|leads].
  assert (Hr : forall p, undisturbed (p, StepResult.empty) (p, r1)) by (intros p; by apply Hr1).
  do 5 (leads_step; cbv beta iota zeta); [leads|].
  destruct (FrameHeader.hasEndStreamFlag _).
  - intros q2 r2 q2' Hfin. right. do 2 eexists. split; [|split; [done|exact Hfin]]. destruct (_ >? 0); noted.
  - apply leads_books. apply books_ret. intros p. destruct (_ >? 0); noted.
Qed.
(** A header block: with END_STREAM the response is handed over at the end. *)
Lemma decodeResponseHeaders_leads id endStream :
  leads undisturbed StepResult.empty
    (fun q r cr p' => endStream = true /\ fst cr = ErrorCode.NO_ERROR /\ finalizes id q r (snd cr) p')
    (decodeResponseHeaders id endStream StepResult.empty) decoded.
Proof.
  unfold decodeResponseHeaders. leads.
  all: try (apply books_ret; intros; first [apply decoded_error, _|apply decoded_ok; noted]).
  intros q r q' Hrun. apply run_bind in Hrun as (r1 & q1 & Hfin & [= <- <-]).
  right. do 2 eexists. split; [|split; [done|split; [done|exact Hfin]]]. noted.
Qed.

Lemma complete_header_block_leads id endStream :
  leads undisturbed StepResult.empty (fun q r r' p' => endStream = true /\ finalizes id q r r' p')
    (complete_header_block id endStream) result.
Proof.
  intros p r p' Hrun. unfold complete_header_block in Hrun. apply run_bind in Hrun as ([code r1] & q & Hd & Hrun).
  destruct (decodeResponseHeaders_leads _ _ _ _ _ Hd) as [HR|(q1 & r2 & HR & Hes & Hcode & Hfin)].
  - left. etrans; [exact HR|]. clear HR Hd. revert q r p' Hrun.
    lazymatch goal with |- forall q r p', ?m q = _ -> ?R => change (books undisturbed (decoded (code, r1)) m result) end.
    unfold decoded. cbn [fst snd]. destruct (code =? _); cbn [negb]; [books|]. apply handleHeaderBlockError_books, _.
  - cbn [fst snd] in Hcode, Hfin. rewrite Hcode in Hrun. injection Hrun as <- <-. right. by exists q1, r2.
Qed.

(** ** One frame *)

(** The data of the frame is added, and nothing is handed over. *)
Definition applied (frame : RawFrame.t) (p p' : t) (r : StepResult.t) : Prop :=
  streams_received (fun id => frame_data id frame) (fun id => frame_ends id frame) p p' /\
  completions (StepResult.events r) = [].

(** ... or it is added, and one stream that was open has its body handed over. *)
Definition received (frame : RawFrame.t) (p p' : t) (r : StepResult.t) : Prop :=
  (forall id s', streams p' !! id = Some s' ->
     exists s, streams p !! id = Some s /\
       (Stream.remoteEndStreamReceived s = true -> Stream.remoteEndStreamReceived s' = true) /\
       (Stream.remoteEndStreamReceived s' = false ->
        Stream.remoteEndStreamReceived s = false /\ body s' = body s ++ frame_data id frame) /\
       (Stream.pendingHeaderEndStream s' = true ->
        Stream.pendingHeaderEndStream s = true \/ frame_ends id frame = true)) /\
  (completions (StepResult.events r) = [] \/
   exists id s, completions (StepResult.events r) = [(id, body s ++ frame_data id frame)] /\
     id = FrameHeader.streamId (RawFrame.header frame) /\ streams p !! id = Some s /\ Stream.remoteEndStreamReceived s = false /\
     (Stream.pendingHeaderEndStream s = true \/ frame_ends id frame = true) /\
     forall s', streams p' !! id = Some s' -> Stream.remoteEndStreamReceived s' = true).

Lemma undisturbed_applied frame p p' r :
  undisturbed (p, StepResult.empty) (p', r) ->
  (forall id s, streams p' !! id = Some s -> frame_data id frame = []) -> applied frame p p' r.
Proof.
  intros (Hs & He & _) Hd. split; [|done]. intros id s' Hs'. destruct (Hs id s' Hs') as (s & ? & ? & ? & Hh).
  exists s. split; [done|]. rewrite (Hd id s' Hs'). split; [done|]. split; [done|].
  intros Hp. destruct (Hh Hp); [auto|done].
Qed.

Lemma applied_undisturbed frame p q r p' r' :
  applied frame p q r -> undisturbed (q, r) (p', r') -> applied frame p p' r'.
Proof. intros [Hs He] (Hs' & He' & _). split; [by eapply streams_received_trans|]. cbn [snd] in He'. congruence. Qed.

Lemma applied_received frame p p' r : applied frame p p' r -> received frame p p' r.
Proof.
  intros [Hs He]. split; [|by left]. intros id s' Hs'. destruct (Hs id s' Hs') as (s & ? & Hr & ? & ?).
  exists s. split; [done|]. rewrite Hr. auto.
Qed.

Lemma finalize_received frame p id s q r2 r p' :
  applied frame p q r2 -> streams p !! id = Some s -> Stream.remoteEndStreamReceived s = false ->
  Stream.pendingHeaderEndStream s = true \/ frame_ends id frame = true ->
  id = FrameHeader.streamId (RawFrame.header frame) -> finalizes id q r2 r p' -> received frame p p' r.
Proof.
  intros Happ Hs Hopen Hend Hid Hfin. apply finalize_run in Hfin as (s1 & Hs1 & [[-> ->]|[-> ->]]).
  - apply applied_received. eapply applied_undisturbed; [exact Happ|].
    rewrite <- (StepResult.merge_empty_r r2) at 1. apply lg_frame. by apply fail_result_books; [apply _|].
  - destruct Happ as [Hstr Hev]. destruct (Hstr id s1 Hs1) as (s0 & Hs0 & Hr1 & Hb1 & Hh1).
    rewrite Hs in Hs0. injection Hs0 as <-.
    assert (Hother : forall j s', j <> id -> streams q !! j = Some s' -> exists s, streams p !! j = Some s /\
       (Stream.remoteEndStreamReceived s = true -> Stream.remoteEndStreamReceived s' = true) /\
       (Stream.remoteEndStreamReceived s' = false ->
        Stream.remoteEndStreamReceived s = false /\ body s' = body s ++ frame_data j frame) /\
       (Stream.pendingHeaderEndStream s' = true ->
        Stream.pendingHeaderEndStream s = true \/ frame_ends j frame = true)).
    { intros j s' _ Hj. destruct (Hstr j s' Hj) as (sj & ? & Hr & ? & ?). exists sj. rewrite Hr. auto. }
    split.
    + intros j s'. destruct (Stream.localEndStreamSent s1); unfold with_stream, without_stream; cbn.
      * intros [Hne Hj]%lookup_delete_Some. by apply Hother.
      * intros [[<- <-]|[Hne Hj]]%lookup_insert_Some; [|by apply Hother]. by exists s.
    + right. exists id, s. split.
      { destruct (Stream.localEndStreamSent s1); cbn [StepResult.push_event StepResult.events];
          rewrite !completions_app, Hev; cbn; by rewrite Hb1. }
      do 4 (split; [done|]). intros s'. destruct (Stream.localEndStreamSent s1); unfold with_stream, without_stream; cbn.
      * by rewrite lookup_delete_eq.
      * rewrite lookup_insert_eq. by intros [= <-].
Qed.

(** ** The handlers *)

Definition ids_ok (p : t) : Prop := forall id s, streams p !! id = Some s -> id < nextStreamId p.

(** A header block is only awaited for a stream that is open. *)
Definition block_ok (p : t) : Prop :=
  expectingContinuation p = true -> continuationStreamId p <> 0 ->
  forall s, streams p !! continuationStreamId p = Some s -> Stream.remoteEndStreamReceived s = false.

Definition frame_books (frame : RawFrame.t) (p p' : t) (r : StepResult.t) : Prop :=
  received frame p p' r /\ block_ok p' /\
  (closed p' = true \/ forall id, nextStreamId p <= id -> frame_data id frame = []).

Lemma block_ok_none p p' : expectingContinuation p = false -> block_kept p p' -> block_ok p'.
Proof. intros Hp Hk Hp'. destruct (Hk Hp'). congruence. Qed.

Lemma block_ok_applied frame p p' r : block_ok p -> block_kept p p' -> applied frame p p' r -> block_ok p'.
Proof.
  intros Hp Hk [Hs _] Hp' Hid s' Hs'. destruct (Hk Hp') as [He [Hc|Hc]]; [|done]. rewrite Hc in *.
  destruct (Hs _ _ Hs') as (s & Hs0 & -> & _). by apply Hp.
Qed.

Lemma failConnection_received frame p code debug q r p' :
  failConnection code debug q = Ok (r, p') -> frame_books frame p p' r.
Proof.
  intros Hrun. pose proof (failConnection_empties _ _ _ _ _ Hrun) as Hempty.
  pose proof (failConnection_closes _ _ _ _ _ Hrun) as Hclosed.
  destruct (failConnection_books_nil undisturbed code debug q r p' Hrun) as (_ & He & _).
  split; [split; [|by left]|split; [|by left]].
  - intros id s'. by rewrite Hempty, lookup_empty.
  - intros _ _ s. by rewrite Hempty, lookup_empty.
Qed.
Hint Extern 1 (frame_books _ _ _ _) => eapply failConnection_received; eassumption : core.

(** Most frames carry no data. *)
Lemma undisturbed_received frame p p' r :
  undisturbed (p, StepResult.empty) (p', r) -> block_ok p' ->
  (forall id, (exists s, streams p' !! id = Some s) \/ nextStreamId p <= id -> frame_data id frame = []) ->
  frame_books frame p p' r.
Proof.
  intros Hu Hb Hd. split; [apply applied_received, undisturbed_applied; [done|]|split; [done|right; auto]].
  intros id s Hs. apply Hd. eauto.
Qed.

Lemma failStream_removes id code rst p r p' s :
  failStream id code rst p = Ok (r, p') -> streams p' !! id = Some s -> False.
Proof.
  intros [(s0 & _ & _ & ->)|(Hs & _ & ->)]%failStream_run; [|congruence].
  unfold fail_state, without_stream. cbn. by rewrite lookup_delete_eq.
Qed.

Lemma parse_data_header frame d : DataFrame.parse frame = Ok d -> DataFrame.header d = RawFrame.header frame.
Proof.
  unfold DataFrame.parse. destruct (read_padLength _ _) as [[n sp]|]; [|done]. cbn [obind].
  destruct (split_padding _ _) as [[x y]|]; [|done]. by intros [= <-].
Qed.

Lemma processDataOnUnknown_received frame d p r p' (id := FrameHeader.streamId (RawFrame.header frame)) :
  DataFrame.header d = RawFrame.header frame -> streams p !! id = None -> block_ok p' ->
  processDataOnUnknownStream d p = Ok (r, p') -> frame_books frame p p' r.
Proof.
  intros Hh Hs Hblock Hrun. pose proof (processDataOnUnknownStream_books undisturbed d p r p' Hrun) as Hu.
  unfold processDataOnUnknownStream in Hrun. rewrite Hh in Hrun. cbv zeta in Hrun. fold id in Hrun.
  apply run_bind in Hrun as (p0 & q & [= <- <-] & Hrun). destruct (Z.land id 1 =? 0); [auto|].
  rewrite Z.geb_leb in Hrun. destruct (Z.leb_spec (nextStreamId p) id); [auto|].
  apply undisturbed_received; [done|done|]. intros j Hj. apply frame_data_other. right. fold id. intros <-.
  destruct Hj as [[s' Hs']|Hj]; [|lia]. destruct (proj1 Hu _ _ Hs') as (s & Hs1 & _). cbn in Hs1. congruence.
Qed.

(** The stream accepts the data. *)
Lemma accept_data_received frame d p q s r p' (id := FrameHeader.streamId (RawFrame.header frame)) :
  FrameHeader.type (RawFrame.header frame) = FrameType.DATA -> DataFrame.parse frame = Ok d ->
  ids_ok p -> streams p !! id = Some s -> Stream.remoteEndStreamReceived s = false ->
  undisturbed (p, StepResult.empty) (q, StepResult.empty) -> block_ok p' ->
  accept_data id d q = Ok (r, p') -> frame_books frame p p' r.
Proof.
  intros Hty Hparse Hids Hs Hrem [Hq _] Hblock (s2 & Hs2 & Hrun)%accept_data_leads. cbn in Hq.
  assert (Hother : forall j, j <> id -> frame_data j frame = [])
    by (intros j Hj; apply frame_data_other; right; fold id; congruence).
  assert (Hdata : frame_data id frame = DataFrame.data d)
    by (unfold frame_data, frame_on, data_in; by rewrite Hty, Hparse, !Z.eqb_refl).
  cbv zeta in Hrun. set (q1 := with_stream id _ q) in *.
  assert (Hq1 : applied frame p q1 StepResult.empty).
  { split; [|done]. intros j s'. unfold q1, with_stream. cbn. destruct (decide (j = id)) as [->|Hj].
    - rewrite lookup_insert_eq. intros [= <-]. destruct (Hq _ _ Hs2) as (s0 & ? & Hr & Hb & Hh). exists s0.
      split; [done|]. split; [done|]. rewrite Hdata. rewrite app_nil_r in Hb. cbn. rewrite Hb.
      split; [done|]. intros Hp. destruct (Hh Hp); [auto|done].
    - rewrite lookup_insert_ne by done. intros (s0 & ? & ? & ? & Hh)%Hq. exists s0. rewrite (Hother j Hj).
      split; [done|]. split; [done|]. split; [done|]. intros Hp. destruct (Hh Hp); [auto|done]. }
  split; [|split; [done|]].
  - destruct Hrun as [Hu|(q2 & r2 & Hu & Hes & Hfin)].
    + apply applied_received. by eapply applied_undisturbed.
    + eapply (finalize_received frame p id s q2 r2); [by eapply applied_undisturbed|done|done| |done|done].
      right. unfold frame_ends, frame_on. rewrite (parse_data_header _ _ Hparse) in Hes. fold id.
      by rewrite Hty, Hes, !Z.eqb_refl.
  - right. intros j Hj. apply Hother. intros ->. specialize (Hids _ _ Hs). lia.
Qed.

Lemma processDataFrame_received frame p r p' :
  FrameHeader.type (RawFrame.header frame) = FrameType.DATA ->
  ids_ok p -> expectingContinuation p = false ->
  processDataFrame frame p = Ok (r, p') -> frame_books frame p p' r.
Proof.
  intros Hty Hids Hexp Hrun. pose proof (block_ok_none _ _ Hexp (processDataFrame_keeps block_kept _ _ _ _ Hrun)) as Hblock.
  unfold processDataFrame in Hrun. cbv zeta in Hrun.
  set (id := FrameHeader.streamId (RawFrame.header frame)) in *. destruct (id =? 0); [auto|].
  assert (Hother : forall j, j <> id -> frame_data j frame = [])
    by (intros j Hj; apply frame_data_other; right; fold id; congruence).
  apply run_bind in Hrun as ([[code debug]|] & q & [_ ->]%lift_run & Hrun); [auto|].
  apply run_bind in Hrun as (d & q & [Hparse ->]%lift_run & Hrun).
  apply run_bind in Hrun as (known & q & [= <- <-] & Hrun). destruct (streams p !! id) as [s|] eqn:Hs;
    [rewrite bool_decide_true in Hrun by done
    |rewrite bool_decide_false in Hrun by (by intros [? ?]);
     cbn [negb] in Hrun; eapply (processDataOnUnknown_received frame d p); [by eapply parse_data_header|done..|exact Hrun]].
  assert (Hfail : forall q code rst, undisturbed (p, StepResult.empty) (q, StepResult.empty) ->
    failStream id code rst q = Ok (r, p') -> frame_books frame p p' r).
  { intros q code rst Hq Hf. apply undisturbed_received; [|done|].
    - etrans; [exact Hq|by eapply failStream_books_nil; [apply _|]].
    - intros j [[s' Hs']|Hj]; apply Hother; intros ->; [by eapply failStream_removes|]. specialize (Hids _ _ Hs). lia. }
  cbn [negb] in Hrun. apply run_bind in Hrun as (s0 & q & [Hs0 ->]%deref_run & Hrun). simplify_eq.
  destruct (Stream.isClosed s || Stream.remoteEndStreamReceived s) eqn:Hrem; [by eapply Hfail|].
  apply orb_false_iff in Hrem as [_ Hrem].
  destruct (Stream.finalResponseHeadersReceived s); cbn [negb] in Hrun; [|by eapply Hfail].
  apply run_bind in Hrun as (p0 & q & [= <- <-] & Hrun).
  apply run_bind in Hrun as ([[taken f1] f2] & q & [_ ->]%lift_run & Hrun).
  apply run_bind in Hrun as (? & q & [= _ <-] & Hrun).
  apply run_bind in Hrun as (? & q & (s1 & Hs1 & ->)%update_run & Hrun). cbn in Hs1. simplify_eq.
  set (q := with_stream id _ _) in *.
  assert (Hq : undisturbed (p, StepResult.empty) (q, StepResult.empty)).
  { etrans; [by apply (ol_same p (set_connectionInflow f1 p))|]. by eapply dl_update. }
  destruct taken; cbn [negb] in Hrun; [|auto].
  apply run_bind in Hrun as (rejected & q1 & Hrej & Hrun).
  assert (q1 = q) as -> by (destruct (negb _); [by apply lift_run in Hrej as [_ ?]|by injection Hrej]).
  destruct rejected; [by eapply Hfail|].
  eapply accept_data_received; done.
Qed.

(** *** Header blocks *)

Lemma complete_received frame endStream p q s r p' (id := FrameHeader.streamId (RawFrame.header frame)) :
  applied frame p q StepResult.empty -> streams p !! id = Some s ->
  Stream.remoteEndStreamReceived s = false ->
  (endStream = true -> Stream.pendingHeaderEndStream s = true \/ frame_ends id frame = true) ->
  complete_header_block id endStream q = Ok (r, p') -> received frame p p' r.
Proof.
  intros Happ Hs Hrem Hend [Hu|(q2 & r2 & Hu & Hes & Hfin)]%complete_header_block_leads.
  - apply applied_received. by eapply applied_undisturbed.
  - eapply (finalize_received frame p id s q2 r2); [by eapply applied_undisturbed|done|done|auto|done|done].
Qed.

Lemma parse_headers_header frame hf : HeadersFrame.parse frame = Ok hf -> HeadersFrame.header hf = RawFrame.header frame.
Proof.
  unfold HeadersFrame.parse, obind. intros Hp. repeat case_match; simplify_eq; done.
Qed.

(** A block for a stream that is gone awaits no stream. *)
Lemma headers_on_unknown_block hf p r p' (id := FrameHeader.streamId (HeadersFrame.header hf)) :
  expectingContinuation p = false -> streams p !! id = None ->
  headers_on_unknown_stream hf p = Ok (r, p') -> block_ok p'.
Proof.
  intros Hexp Hs Hrun. unfold headers_on_unknown_stream in Hrun. cbv zeta in Hrun. fold id in Hrun.
  assert (Hfail : forall q code debug, expectingContinuation q = false ->
    failConnection code debug q = Ok (r, p') -> block_ok p')
    by (intros q code debug Hq Hf; by apply (block_ok_none q), (failConnection_keeps block_kept _ _ _ _ _ Hf)).
  apply run_bind in Hrun as (p0 & q & [= <- <-] & Hrun).
  destruct (Z.land id 1 =? 0); [by eapply Hfail|]. destruct (id >=? nextStreamId p); [by eapply Hfail|].
  destruct (FrameHeader.hasEndHeadersFlag _); apply run_bind in Hrun as (x & q & [_ ->]%lift_run & Hrun).
  - destruct x as [[ok hs] hp]. apply run_bind in Hrun as (u & q & [= _ <-] & Hrun). destruct ok; cbn [negb] in Hrun.
    + injection Hrun as _ <-. intros Hp'. cbn in Hp'. congruence.
    + eapply Hfail; [|exact Hrun]. done.
  - run_cases. subst. intros _ _ s. cbn. congruence.
Qed.

Lemma no_data frame : FrameHeader.type (RawFrame.header frame) <> FrameType.DATA -> forall id, frame_data id frame = [].
Proof. intros Hty id. apply frame_data_other. by left. Qed.

Lemma no_data_applied frame p p' r :
  FrameHeader.type (RawFrame.header frame) <> FrameType.DATA ->
  undisturbed (p, StepResult.empty) (p', r) -> applied frame p p' r.
Proof. intros Hty Hu. apply undisturbed_applied; [done|]. intros id s _. by apply no_data. Qed.

Lemma no_data_received frame p p' r :
  FrameHeader.type (RawFrame.header frame) <> FrameType.DATA ->
  received frame p p' r -> block_ok p' -> frame_books frame p p' r.
Proof. intros Hty Hr Hb. split; [done|]. split; [done|]. right. intros id _. by apply no_data. Qed.

(** An END_STREAM that a CONTINUATION will complete. *)
Lemma headers_wait frame id s q s1 p' r :
  FrameHeader.type (RawFrame.header frame) = FrameType.HEADERS -> id = FrameHeader.streamId (RawFrame.header frame) ->
  Stream.pendingHeaderEndStream s1 = FrameHeader.hasEndStreamFlag (RawFrame.header frame) ->
  forall p, applied frame p q r -> streams q !! id = Some s ->
  Stream.remoteEndStreamReceived s1 = Stream.remoteEndStreamReceived s -> body s1 = body s ->
  streams p' = <[id := s1]> (streams q) -> applied frame p p' r.
Proof.
  intros Hty Hid Hp1 p [Hq He] Hs Hr Hb Hp'. split; [|done]. intros j s'. rewrite Hp', lookup_insert_Some.
  intros [[<- <-]|[_ Hj]]; [|by apply Hq]. destruct (Hq _ _ Hs) as (s0 & ? & ? & ? & _). exists s0.
  split; [done|]. split; [congruence|]. split; [congruence|]. rewrite Hp1. intros Hes. right.
  unfold frame_ends, frame_on. by rewrite Hty, Hid, Hes, !Z.eqb_refl.
Qed.

Lemma headers_on_stream_received frame hf p r p' :
  FrameHeader.type (RawFrame.header frame) = FrameType.HEADERS -> HeadersFrame.header hf = RawFrame.header frame ->
  expectingContinuation p = false ->
  headers_on_stream hf p = Ok (r, p') -> frame_books frame p p' r.
Proof.
  intros Hty Hh Hexp Hrun. unfold headers_on_stream in Hrun. rewrite Hh in Hrun. cbv zeta in Hrun.
  set (id := FrameHeader.streamId (RawFrame.header frame)) in *.
  assert (Hnd : FrameHeader.type (RawFrame.header frame) <> FrameType.DATA) by by rewrite Hty.
  apply run_bind in Hrun as (s & q & [Hs ->]%deref_run & Hrun).
  destruct (Stream.isClosed s || Stream.remoteEndStreamReceived s) eqn:Hrem.
  { apply no_data_received; [done| |by apply (block_ok_none p), (failStream_keeps block_kept _ _ _ _ _ _ Hrun)].
    apply applied_received, no_data_applied; [done|]. by eapply failStream_books_nil; [apply _|]. }
  apply orb_false_iff in Hrem as [_ Hrem].
  apply run_bind in Hrun as (within & q & Happ & Hrun).
  pose proof (append_header_block_keeps block_kept _ _ _ _ _ Happ) as Hk.
  apply (append_header_block_books undisturbed StepResult.empty) in Happ. apply (no_data_applied frame) in Happ; [|done].
  destruct within; cbn [negb] in Hrun; [|auto].
  destruct (FrameHeader.hasEndHeadersFlag _); cbn [negb] in Hrun.
  - apply no_data_received; [done| |].
    + eapply complete_received; [done..| |done]. intros Hes. right. unfold frame_ends, frame_on. fold id.
      by rewrite Hty, Hes, !Z.eqb_refl.
    + apply (block_ok_none p); [done|]. etrans; [exact Hk|].
      by apply (complete_header_block_keeps block_kept _ _ _ _ _ Hrun).
  - apply run_bind in Hrun as (? & q1 & (s1 & Hs1 & ->)%update_run & Hrun).
    apply run_bind in Hrun as (? & q1 & (s2 & Hs2 & ->)%update_run & Hrun). rewrite with_stream_lookup in Hs2.
    injection Hs2 as <-. rewrite with_stream_with in Hrun. run_cases. subst.
    destruct (proj1 Happ _ _ Hs1) as (s0 & Hs0 & Hr & _). simplify_eq.
    apply no_data_received; [done| |].
    + apply applied_received. eapply headers_wait; [done| | | |exact Hs1| | |reflexivity]; done.
    + intros _ _ s'. unfold with_stream. cbn. rewrite lookup_insert_eq. intros [= <-]. cbn. congruence.
Qed.

Lemma processHeadersFrame_received frame p r p' :
  FrameHeader.type (RawFrame.header frame) = FrameType.HEADERS -> expectingContinuation p = false ->
  processHeadersFrame frame p = Ok (r, p') -> frame_books frame p p' r.
Proof.
  intros Hty Hexp Hrun. unfold processHeadersFrame in Hrun. cbv zeta in Hrun.
  destruct (_ =? 0); [auto|].
  apply run_bind in Hrun as ([[code debug]|] & q & [_ ->]%lift_run & Hrun); [auto|].
  apply run_bind in Hrun as (hf & q & [Hparse%parse_headers_header ->]%lift_run & Hrun).
  apply run_bind in Hrun as (known & q & [= <- <-] & Hrun). destruct (streams p !! _) as [s|] eqn:Hs.
  - rewrite bool_decide_true in Hrun by done. by eapply headers_on_stream_received.
  - rewrite bool_decide_false in Hrun by (by intros [? ?]). cbn [negb] in Hrun.
    assert (Hnd : FrameHeader.type (RawFrame.header frame) <> FrameType.DATA) by by rewrite Hty.
    apply no_data_received; [done| |].
    + apply applied_received, no_data_applied; [done|]. by eapply headers_on_unknown_books; [apply _|].
    + eapply headers_on_unknown_block; [done| |done]. by rewrite Hparse.
Qed.

(** A frame that neither carries data nor ends anything. *)
Lemma quiet_received frame p p' r :
  FrameHeader.type (RawFrame.header frame) <> FrameType.DATA -> block_ok p -> block_kept p p' ->
  undisturbed (p, StepResult.empty) (p', r) -> frame_books frame p p' r.
Proof.
  intros Hty Hb Hk Hu. apply (no_data_applied frame) in Hu; [|done].
  apply no_data_received; [done|by apply applied_received|by eapply block_ok_applied].
Qed.

Lemma processContinuationFrame_received frame p r p' :
  FrameHeader.type (RawFrame.header frame) <> FrameType.DATA -> block_ok p ->
  processContinuationFrame frame p = Ok (r, p') -> frame_books frame p p' r.
Proof.
  intros Hty Hb Hrun. pose proof (processContinuationFrame_keeps block_kept _ _ _ _ Hrun) as Hblock.
  unfold processContinuationFrame in Hrun. cbv zeta in Hrun.
  set (id := FrameHeader.streamId (RawFrame.header frame)) in *.
  apply run_bind in Hrun as (p0 & q & [= <- <-] & Hrun). destruct (Z.eqb_spec id 0) as [|Hid]; [auto|].
  destruct (expectingContinuation p) eqn:Hexp; cbn [negb orb] in Hrun; [|auto].
  destruct (Z.eqb_spec (continuationStreamId p) id) as [Hc|]; cbn [negb] in Hrun; [|auto]. apply run_bind in Hrun as (cf & q & [Hparse ->]%lift_run & Hrun).
  apply run_bind in Hrun as (known & q & [= <- <-] & Hrun). destruct (streams p !! id) as [s|] eqn:Hs;
    [rewrite bool_decide_true in Hrun by done
    |rewrite bool_decide_false in Hrun by (by intros [? ?]);
     cbn [negb] in Hrun; apply quiet_received; [done..|]; by eapply continuation_on_unknown_books; [apply _|]].
  assert (Hrem : Stream.remoteEndStreamReceived s = false) by (apply Hb; [done|congruence|congruence]).
  apply run_bind in Hrun as (within & q & Happ & Hrun).
  apply (append_header_block_books undisturbed StepResult.empty) in Happ.
  destruct within; cbn [negb] in Hrun; [|auto].
  destruct (FrameHeader.hasEndHeadersFlag _); cbn [negb] in Hrun; [|injection Hrun as <- <-; by apply quiet_received].
  apply run_bind in Hrun as (? & q1 & [= _ <-] & Hrun). apply run_bind in Hrun as (? & q1 & [= _ <-] & Hrun).
  apply run_bind in Hrun as (? & q1 & (s1 & Hs1 & ->)%update_run & Hrun).
  apply run_bind in Hrun as (s2 & q1 & [Hs2 ->]%deref_run & Hrun).
  set (q1 := with_stream id _ _) in *.
  assert (Happ1 : applied frame p q1 StepResult.empty).
  { apply no_data_applied; [done|]. etrans; [exact Happ|]. etrans; [by apply (ol_same q (set_continuationStreamId 0 (set_expectingContinuation false q)))|].
    by eapply dl_update. }
  destruct (proj1 Happ1 _ _ Hs2) as (s0 & Hs0 & _ & _ & Hh). simplify_eq.
  apply no_data_received; [done|by eapply complete_received|].
  apply (block_ok_none q1); [done|]. by apply (complete_header_block_keeps block_kept _ _ _ _ _ Hrun).
Qed.

Lemma receiveFrame_received frame p r p' :
  ids_ok p -> block_ok p -> receiveFrame frame p = Ok (r, p') -> frame_books frame p p' r.
Proof.
  intros Hids Hb Hrun. pose proof (receiveFrame_keeps_of block_kept frame) as Hk.
  specialize (fun Hh => Hk Hh _ _ _ Hrun). unfold receiveFrame in Hrun. cbv zeta in Hrun.
  apply run_bind in Hrun as (p0 & q & [= <- <-] & Hrun).
  destruct (_ && _); [auto|]. destruct (_ >? _); [auto|].
  destruct (Z.eqb_spec (FrameHeader.type (RawFrame.header frame)) FrameType.CONTINUATION) as [Hc|Hc].
  { rewrite andb_false_r, Hc in Hrun. apply processContinuationFrame_received; [by rewrite Hc|done..]. }
  rewrite andb_true_r in Hrun. destruct (expectingContinuation p) eqn:Hexp; [auto|].
  destruct (Z.eqb_spec (FrameHeader.type (RawFrame.header frame)) FrameType.DATA); [by apply processDataFrame_received|].
  destruct (Z.eqb_spec (FrameHeader.type (RawFrame.header frame)) FrameType.HEADERS); [by apply processHeadersFrame_received|].
  apply quiet_received; [done|done|apply Hk; by right|].
  lazymatch type of Hrun with ?m _ = _ =>
    assert (Hm : books undisturbed StepResult.empty m result); [|by apply Hm in Hrun] end.
  pose proof (processRstStreamFrame_books undisturbed) as Hrst.
  pose proof (processSettingFrame_books undisturbed) as Hsettings.
  pose proof (processPushPromiseFrame_books undisturbed) as Hpush.
  pose proof (processGoAwayFrame_books undisturbed) as Hgoaway.
  pose proof (processWindowUpdateFrame_books undisturbed) as Hwindow.
  unfold processPriorityFrame, processPingFrame. books.
Qed.
End frames.

(** ** The account of a run *)

(** [data] is the body of stream [id]: its DATA up to some frame of that
    stream, by which it has been ended. *)
Definition delivered (frames : list RawFrame.t) (id : Z) (data : bytes) : Prop :=
  exists before frame, before ++ [frame] `prefix_of` frames /\
    FrameHeader.streamId (RawFrame.header frame) = id /\
    data = received_data id (before ++ [frame]) /\ ended id (before ++ [frame]) = true.

Record receipts (frames : list RawFrame.t) (ev : list ProtocolEvent) (p : t) : Prop := {
  rc_ids : ids_ok p;
  rc_block : block_ok p;
  rc_streams id s : streams p !! id = Some s ->
    (Stream.remoteEndStreamReceived s = false -> body s = received_data id frames) /\
    (Stream.pendingHeaderEndStream s = true -> ended id frames = true);
  rc_next : closed p = true \/ forall id, nextStreamId p <= id -> received_data id frames = [];
  rc_done id data : (id, data) ∈ completions ev ->
    delivered frames id data /\ id < nextStreamId p /\
    forall s, streams p !! id = Some s -> Stream.remoteEndStreamReceived s = true;
  rc_once : NoDup (completions ev).*1;
}.

Lemma delivered_more frames more id data : delivered frames id data -> delivered (frames ++ more) id data.
Proof. intros (before & frame & Hp & ?). exists before, frame. split; [|done]. by apply prefix_app_r. Qed.

Lemma receipts_codec c frames ev p : receipts frames ev p -> receipts frames ev (set_frameCodec c p).
Proof. by intros []. Qed.

(** Frames that come too late. *)
Lemma receipts_closed frames more ev p :
  closed p = true -> streams p = ∅ -> receipts frames ev p -> receipts (frames ++ more) ev p.
Proof.
  intros Hc Hs []. constructor; [done|done| |by left| |done].
  - intros id s. by rewrite Hs, lookup_empty.
  - intros id data Hid. destruct (rc_done0 id data Hid) as (? & ? & ?). by split; [apply delivered_more|].
Qed.

(** One more completion, of a stream that was open. *)
Lemma completed_once frames ev p id (new : list (Z * bytes)) :
  receipts frames ev p -> (new = [] \/ exists s data, new = [(id, data)] /\ streams p !! id = Some s /\
    Stream.remoteEndStreamReceived s = false) ->
  NoDup (completions ev ++ new).*1.
Proof.
  intros [] [->|(s & data & -> & Hs & Hr)]; [by rewrite app_nil_r|]. rewrite fmap_app. cbn.
  apply NoDup_app. split; [done|]. split; [|apply NoDup_singleton].
  intros j Hj ->%list_elem_of_singleton. apply list_elem_of_fmap in Hj as ([i d] & -> & Hin).
  destruct (rc_done0 _ _ Hin) as (_ & _ & Hrem). rewrite (Hrem s Hs) in Hr. done.
Qed.

Lemma receipts_frame frames ev frame p p' r :
  receipts frames ev p -> closed p = false -> nextStreamId p' = nextStreamId p ->
  frame_books frame p p' r -> receipts (frames ++ [frame]) (ev ++ StepResult.events r) p'.
Proof.
  intros Hp Hopen Hn ([Hstr Hcomp] & Hblock & Hnext). pose proof Hp as []. destruct rc_next0 as [|Hfresh]; [congruence|].
  assert (Hids : ids_ok p').
  { intros id s' Hs'. destruct (Hstr id s' Hs') as (s & Hs & _). rewrite Hn. by eapply rc_ids0. }
  constructor; [done|done|..].
  - intros id s' Hs'. destruct (Hstr id s' Hs') as (s & Hs & _ & Hb & Hh). destruct (rc_streams0 id s Hs) as [Hbody Hend].
    rewrite received_data_snoc, ended_snoc. split.
    + intros Hr. destruct (Hb Hr) as [Hr0 ->]. by rewrite Hbody.
    + intros Hp'. apply orb_true_iff. destruct (Hh Hp'); auto.
  - destruct Hnext as [|Hnext]; [by left|right]. intros id Hid. rewrite Hn in Hid.
    by rewrite received_data_snoc, Hfresh, Hnext.
  - intros id data. rewrite completions_app, elem_of_app, Hn. intros [Hid|Hid].
    + destruct (rc_done0 id data Hid) as (? & ? & Hrem). split; [by apply delivered_more|]. split; [done|].
      intros s' Hs'. destruct (Hstr id s' Hs') as (s & Hs & Hr & _). by apply Hr, (Hrem s).
    + destruct Hcomp as [He|(i & s & He & Hi & Hs & Hr & Hend & Hdone)]; rewrite He in Hid; [by apply elem_of_nil in Hid|].
      apply list_elem_of_singleton in Hid. injection Hid as -> ->. destruct (rc_streams0 i s Hs) as [Hbody Hend0].
      split; [|split; [by eapply rc_ids0|done]]. exists frames, frame. split; [done|]. split; [done|].
      rewrite received_data_snoc, ended_snoc, (Hbody Hr). split; [done|]. apply orb_true_iff. destruct Hend; auto.
  - rewrite completions_app. destruct Hcomp as [He|(i & s & He & _ & Hs & Hr & _)].
    + eapply (completed_once frames ev p 0); [done|by left].
    + eapply (completed_once frames ev p i); [done|right]. eauto.
Qed.

(** The bytes received over a run, and the frames in them. *)
Definition received_bytes (cs : list call) : bytes :=
  concat (map (fun c => match c with CReceive data => data | _ => [] end) cs).
Definition frames_of (data : bytes) : list RawFrame.t :=
  match FrameCodec.drain_all (FrameCodec.feed data FrameCodec.init) with Ok (frames, _) => frames | Fault _ => [] end.

(** The frames received by a state of the run: the codec holds the rest of
    the bytes, until the connection is closed. *)
Definition read_so_far (cs : list call) (frames : list RawFrame.t) (p : t) : Prop :=
  exists c,
    FrameCodec.drain_all (FrameCodec.feed (received_bytes cs) FrameCodec.init) = Ok (frames, c) /\
    (closed p = true \/ frameCodec p = c) /\ shut p.

Definition receive_account (cs : list call) (rs : list StepResult.t) (p : t) : Prop :=
  exists frames, read_so_far cs frames p /\ receipts frames (run_events rs) p.

Lemma read_frames_of cs frames p : read_so_far cs frames p -> frames_of (received_bytes cs) = frames.
Proof. intros (c & Hd & _). unfold frames_of. by rewrite Hd. Qed.

Lemma read_start config : read_so_far [] [] (make config).
Proof. exists FrameCodec.init. split; [done|]. split; [by right|done]. Qed.

Lemma received_bytes_snoc cs c :
  received_bytes (cs ++ [c]) = received_bytes cs ++ match c with CReceive data => data | _ => [] end.
Proof. unfold received_bytes. rewrite map_app, concat_app. cbn. by rewrite app_nil_r. Qed.

Lemma receipts_quiet frames ev p p' r :
  receipts frames ev p -> block_kept p p' -> stays_closed p p' -> undisturbed (p, StepResult.empty) (p', r) -> receipts frames (ev ++ StepResult.events r) p'.
Proof.
  intros [] Hk Hc (Hs & He & Hn). cbn in Hs, He, Hn.
  assert (Hev : completions (ev ++ StepResult.events r) = completions ev)
    by (by rewrite completions_app, He, app_nil_r).
  constructor; rewrite ?Hev.
  - intros id s' Hs'. destruct (Hs id s' Hs') as (s & Hs0 & _). rewrite Hn. by eapply rc_ids0.
  - intros Hp' Hid s' Hs'. destruct (Hk Hp') as [Hexp [Hcont|Hcont]]; [|done]. rewrite Hcont in *.
    destruct (Hs _ _ Hs') as (s & Hs0 & -> & _). by apply rc_block0.
  - intros id s' Hs'. destruct (Hs id s' Hs') as (s & Hs0 & Hr & Hb & Hh). destruct (rc_streams0 id s Hs0) as [Hbody Hend].
    rewrite Hr, Hb, app_nil_r. split; [done|]. intros Hp'. destruct (Hh Hp'); [auto|done].
  - rewrite Hn. destruct rc_next0; auto.
  - intros id data Hid. destruct (rc_done0 id data Hid) as (? & ? & Hrem). rewrite Hn. split; [done|]. split; [done|].
    intros s' Hs'. destruct (Hs id s' Hs') as (s & Hs0 & -> & _). by apply Hrem.
  - done.
Qed.

(** The stream of a new request has received nothing. *)
Lemma receipts_opened frames ev p request :
  receipts frames ev p -> closed p = false -> nextStreamId p <= 0x7ffffffe -> 0 <= nextStreamId p ->
  receipts frames ev (opened_state request p).
Proof.
  intros [] Hc Hn Hpos. destruct rc_next0 as [|Hfresh]; [congruence|].
  assert (Hnext : nextStreamId (opened_state request p) = nextStreamId p + 2) by (cbn; rewrite u32_small; lia).
  assert (Hlook : forall id s, streams (opened_state request p) !! id = Some s ->
    (id = nextStreamId p /\ Stream.remoteEndStreamReceived s = false /\ body s = [] /\
     Stream.pendingHeaderEndStream s = false) \/ (id <> nextStreamId p /\ streams p !! id = Some s)).
  { intros id s. cbn. intros [[<- <-]|[? ?]]%lookup_insert_Some; auto. }
  constructor.
  - intros id s [[-> _]|[_ Hs]]%Hlook; [lia|]. specialize (rc_ids0 id s Hs). lia.
  - intros Hp Hid s [(_ & ? & _)|[_ Hs]]%Hlook; [done|by eapply rc_block0].
  - intros id s [(-> & _ & -> & ->)|[_ Hs]]%Hlook; [|by apply rc_streams0]. by rewrite Hfresh.
  - right. intros id Hid. apply Hfresh. lia.
  - intros id data Hid. destruct (rc_done0 id data Hid) as (? & ? & Hrem). split; [done|]. split; [lia|].
    intros s [(-> & _)|[_ Hs]]%Hlook; [lia|by apply Hrem].
  - done.
Qed.

Section receives.
Context `{IterOrder}.

(** One read: the frames that it completes are handled in order, until one
    closes the connection. *)
Lemma read_more data p r p' cs frames :
  receiveBytes data p = Ok (r, p') -> read_so_far cs frames p ->
  exists gs, read_so_far (cs ++ [CReceive data]) (frames ++ gs) p' /\
    ((closed p = true /\ r = StepResult.empty /\ p' = p) \/
     (closed p = false /\ exists q c, receive_frames gs StepResult.empty p = Ok (r, q) /\ p' = set_frameCodec c q)).
Proof.
  intros Hrun (c & Hd & Hcodec & Hshut). unfold read_so_far. rewrite received_bytes_snoc.
  destruct (FrameCodec.drain_twice (received_bytes cs) data FrameCodec.init) as (fs & gs & c1 & c2 & H1 & H2 & H12).
  rewrite Hd in H1. simplify_eq. exists gs. destruct (closed p) eqn:Hcl.
  - rewrite receiveBytes_closed in Hrun by (by left). simplify_eq. split; [|by left].
    exists c2. split; [done|]. by split; [left|].
  - destruct Hcodec as [|<-]; [done|]. assert (Ht : transportClosed_ p = false).
    { destruct (transportClosed_ p) eqn:Ht; [|done]. specialize (Hshut Ht). congruence. }
    destruct (receiveBytes_frames data p gs c2 Hcl Ht H2) as (c3 & Hrecv & Hc3). rewrite Hrecv in Hrun.
    destruct (receive_frames gs StepResult.empty p) as [[r1 q]|] eqn:Hfold; [|done]. cbn [recodec] in Hrun. simplify_eq.
    pose proof (receive_frames_transport _ _ _ _ _ Hfold) as Htq. split.
    + exists c2. split; [done|]. split; [destruct (Hc3 _ _ eq_refl) as [->|]; auto|]. intros Ht'; cbn in Ht'; congruence.
    + right. split; [done|]. eauto.
Qed.

(** Other calls receive nothing. *)
Lemma read_other c p r p' cs frames :
  (forall data, c <> CReceive data) -> call_run c p = Ok (r, p') ->
  read_so_far cs frames p -> read_so_far (cs ++ [c]) frames p'.
Proof.
  intros Hc Hrun (cd & Hd & Hcodec & Hshut). unfold read_so_far. rewrite received_bytes_snoc.
  replace (match c with CReceive data => data | _ => [] end) with (@nil byte) by (destruct c; done || by destruct (Hc data)).
  rewrite app_nil_r. exists cd. split; [done|].
  assert (Hkeeps : forall R, R = same_codec \/ R = block_kept \/ R = stays_closed \/ R = stays_shut -> R p p')
    by (intros R HR; by apply (call_keeps R c HR Hc _ _ _ Hrun)).
  assert (Hcl : stays_closed p p') by (apply Hkeeps; tauto).
  assert (Hcc : same_codec p p') by (apply Hkeeps; tauto).
  assert (Hsh : stays_shut p p') by (apply Hkeeps; tauto).
  split; [unfold same_codec in Hcc; destruct Hcodec; [left; auto|right; congruence]|auto].
Qed.

(** The frames of one read: all of them, or those up to the one that closes
    the connection. *)
Lemma receive_frames_receipts gs frames ev r0 p r p' :
  receipts frames (ev ++ StepResult.events r0) p -> closed p = false ->
  receive_frames gs r0 p = Ok (r, p') ->
  exists handled rest, gs = handled ++ rest /\ (rest = [] \/ closed p' = true) /\
    receipts (frames ++ handled) (ev ++ StepResult.events r) p'.
Proof.
  revert frames r0 p. induction gs as [|g gs IH]; intros frames r0 p Hp Hopen Hrun; cbn [receive_frames] in Hrun.
  - injection Hrun as <- <-. exists [], []. split; [done|]. split; [by left|]. by rewrite app_nil_r.
  - apply run_bind in Hrun as (a & q & Ha & Hrun). apply run_bind in Hrun as (q0 & q1 & [= <- <-] & Hrun).
    assert (Hq : receipts (frames ++ [g]) (ev ++ StepResult.events (r0 ⊕ a)) q).
    { cbn. rewrite app_assoc. eapply receipts_frame; [done|done| |by apply receiveFrame_received; [apply Hp..|]].
      destruct (receiveFrame_keeps _ _ _ _ Ha) as [Hl _]. by apply (f_equal l_nextStreamId) in Hl. }
    destruct (closed q) eqn:Hcl.
    + injection Hrun as <- <-. exists [g], gs. auto.
    + destruct (IH _ _ _ Hq Hcl Hrun) as (handled & rest & -> & Hrest & Hr). exists (g :: handled), rest.
      rewrite <- app_assoc in Hr. auto.
Qed.

Lemma receive_account_receive data p r p' cs rs k k' :
  receiveBytes data p = Ok (r, p') -> inv k p -> inv k' p' ->
  receive_account cs rs p -> receive_account (cs ++ [CReceive data]) (rs ++ [r]) p'.
Proof.
  intros Hrun [_ Hp] [_ Hp'] (frames & Hrec & Hr). unfold receive_account. rewrite run_events_snoc.
  destruct (read_more _ _ _ _ _ _ Hrun Hrec) as (gs & Hrec' & [(Hcl & -> & ->)|(Hcl & q & c & Hfold & ->)]);
    exists (frames ++ gs); (split; [done|]).
  - cbn [StepResult.events StepResult.empty]. rewrite app_nil_r. apply receipts_closed; auto.
  - apply receipts_codec. destruct (receive_frames_receipts gs frames (run_events rs) StepResult.empty p r q)
      as (handled & rest & -> & Hrest & Hq); [by rewrite app_nil_r|done..|].
    rewrite app_assoc. destruct Hrest as [->|Hq']; [by rewrite app_nil_r|]. by apply receipts_closed; [|apply Hp'|].
Qed.

(** A request, or a call that receives nothing. *)
Lemma receive_account_other c p r p' cs rs k :
  (forall data, c <> CReceive data) -> call_run c p = Ok (r, p') -> inv k p ->
  receive_account cs rs p -> receive_account (cs ++ [c]) (rs ++ [r]) p'.
Proof.
  intros Hc Hrun Hinv (frames & Hrec & Hr). unfold receive_account.
  rewrite run_events_snoc. exists frames. split; [by eapply read_other|].
  assert (Hkeeps : forall R, R = same_codec \/ R = block_kept \/ R = stays_closed \/ R = stays_shut -> R p p')
    by (intros R HR; by apply (call_keeps R c HR Hc _ _ _ Hrun)).
  assert (Hk : block_kept p p') by (apply Hkeeps; tauto).
  assert (Hcl : stays_closed p p') by (apply Hkeeps; tauto).
  assert (Hs : (exists request, c = CSubmit request) \/ forall request, c <> CSubmit request) by (destruct c; eauto).
  destruct Hs as [[request ->]|Hs].
  - cbn [call_run] in Hrun.
    destruct (submitRequest_books undisturbed _ _ _ _ Hrun) as [(-> & code & ->)|(Hcan & _ & _ & Hid & _ & _ & Hu)].
    { destruct Hr. constructor; try done; by rewrite completions_app, app_nil_r. }
    unfold canSubmitRequests in Hcan. bool_to_prop. destruct Hinv as [Hcore _]. destruct (v_next _ _ Hcore) as [Hpos _].
    eapply (receipts_quiet _ _ (opened_state request p)); [apply receipts_opened; [done|done|done|lia]|done|done|].
    etrans; [|exact Hu]. split; [by apply streams_received_refl|done].
  - eapply (receipts_quiet _ _ p); [done..|]. apply (other_call_books undisturbed c); [done| |done]. intros data Hdata. by destruct (Hc data).
Qed.

Lemma receive_account_call c p r p' cs rs k k' :
  call_ok c -> call_run c p = Ok (r, p') -> inv k p -> inv k' p' ->
  receive_account cs rs p -> receive_account (cs ++ [c]) (rs ++ [r]) p'.
Proof.
  intros _ Hrun Hp Hp'. assert (Hc : (exists data, c = CReceive data) \/ forall data, c <> CReceive data) by (destruct c; eauto).
  destruct Hc as [[data ->]|Hc]; [by eapply receive_account_receive|by eapply receive_account_other].
Qed.
End receives.

(** ** Properties *)

(** C9: responses are delivered.  Over any run, on any input from the peer
    and however the transport cuts it, the body of every response handed to
    the caller is the data of the DATA frames addressed to its stream, padding
    removed, in order and without gap, up to some frame of the stream by which
    it has been ended with END_STREAM; no stream hands over two responses; and
    the streams still waiting hold all the data received for them so far. *)
Theorem responses_delivered `{IterOrder} config calls :
  ClientConfig.wf config -> Forall call_ok calls -> calls_bytes calls <= 2 ^ 31 ->
  match run_calls calls (make config) with
  | Ok (rs, p) =>
      let frames := frames_of (received_bytes calls) in
      (forall id r, responseCompleted id r ∈ run_events rs -> delivered frames id (Response.body r)) /\
      NoDup (completions (run_events rs)).*1 /\
      (forall id s, streams p !! id = Some s -> Stream.remoteEndStreamReceived s = false ->
         Response.body (Stream.resp s) = received_data id frames)
  | Fault f => f = erased_in_loop
  end.
Proof.
  intros Hconf Hcalls Hb.
  assert (Hstart : receive_account [] [] (make config)).
  { exists []. split; [apply read_start|].
    assert (Hempty : streams (make config) = ∅) by done.
    constructor; [| | |by right| |by apply NoDup_nil_2]; try (intros id s; by rewrite Hempty, lookup_empty); try done.
    by intros id data ?%elem_of_nil. }
  pose proof (run_induction receive_account config calls Hconf Hcalls Hb Hstart) as Hrun.
  destruct (run_calls calls (make config)) as [[rs p]|f]; [|apply Hrun; apply receive_account_call].
  destruct Hrun as [(frames & Hrec & []) _]; [apply receive_account_call|].
  cbv zeta. rewrite (read_frames_of _ _ _ Hrec). split; [|split; [done|by intros id s Hs; apply rc_streams0]].
  intros id r Hr. apply (rc_done0 id). apply list_elem_of_omap. by exists (responseCompleted id r).
Qed.

(** *** A run to apply it to *)

(** A response of two DATA frames, the first padded, cut within a frame. *)
Definition download : bytes :=
  concat (map frame_toBytes
    [FHeaders (HeadersFrame.mk (FrameHeader.mk 1 FrameType.HEADERS 0x4 1) 0 0 0 [x88] []);
     FData (DataFrame.mk (FrameHeader.mk 5 FrameType.DATA 0x8 1) 2 [x68; x65] [x00; x00]);
     FData (DataFrame.mk (FrameHeader.mk 3 FrameType.DATA 0x1 1) 0 [x6c; x6c; x6f] [])]).

Definition download_calls : list call :=
  [CStart; CReceive (SettingFrame.toBytes (SettingFrame.mk (FrameHeader.mk 0 FrameType.SETTINGS 0 0) []));
   CSubmit (example_request []); CReceive (ztake 27 download); CReceive (zdrop 27 download)].

Lemma download_calls_ok :
  ClientConfig.wf ClientConfig.default /\ Forall call_ok download_calls /\ calls_bytes download_calls <= 2 ^ 31.
Proof.
  split; [vm_compute; repeat split; discriminate|]. split; [|vm_compute; discriminate].
  repeat (apply Forall_cons_2; [vm_compute; done|]). apply Forall_nil_2.
Qed.

Definition download_run : option (list (Z * bytes)) :=
  match run_calls download_calls (make ClientConfig.default) with
  | Ok (rs, _) => Some (completions (run_events rs))
  | Fault _ => None
  end.

Example download_run_result : download_run = Some [(1, [x68; x65; x6c; x6c; x6f])].
Proof. vm_compute. reflexivity. Qed.

Lemma responses_delivered_witness :
  match run_calls download_calls (make ClientConfig.default) with
  | Ok (rs, p) =>
      let frames := frames_of (received_bytes download_calls) in
      (forall id r, responseCompleted id r ∈ run_events rs -> delivered frames id (Response.body r)) /\
      NoDup (completions (run_events rs)).*1 /\
      (forall id s, streams p !! id = Some s -> Stream.remoteEndStreamReceived s = false ->
         Response.body (Stream.resp s) = received_data id frames)
  | Fault f => f = erased_in_loop
  end.
Proof. apply (responses_delivered ClientConfig.default download_calls); apply download_calls_ok. Defined.
