(* ===== verification/SendProgress.v ===== *)
(** * Nothing that may be sent is held back

    After every call, a stream with a body left to send is blocked by its own
    window or by the connection's: SETTINGS, WINDOW_UPDATE and new requests
    flush what they unblock. *)

From S2P Require Import Prelude Outcome ByteBuffer Types Flow Frame FrameFacts FrameCodec FrameParse.
From S2P Require Import HpackTable HpackFacts HeaderRules Hpack ProtocolEvent Stream ProtocolState.
From S2P Require Import Protocol ProtocolHandlers ProtocolInv ProtocolFrame ProtocolFacts ProtocolSafety.
From S2P Require Import ProtocolOps ProtocolLedger ProtocolBlind ProtocolRuns ProtocolReceives Wire ProtocolSends SendRuns.
Import Http2Protocol.

(** Stream [id] has nothing to send, or may not. *)
Definition drained (p : t) (id : Z) : Prop :=
  forall s, streams p !! id = Some s -> sendable (connectionOutFlow p) s = 0.
Definition flushed (p : t) : Prop := forall id, drained p id.

(** A step that sends nothing, or only less, keeps a stream drained. *)
Definition keeps_drained (p p' : t) : Prop := forall id, drained p id -> drained p' id.

Lemma sendable_antitone c c' s :
  sender_ok s -> OutFlow.window c' <= OutFlow.window c -> sendable c s = 0 -> sendable c' s = 0.
Proof.
  intros ((_ & Hc) & ([? ?] & _) & _) Hle. unfold sendable. rewrite !OutFlow.available_min, Hc. lia.
Qed.

(** The ledger: sound states stay sound, flushed states stay flushed. *)
Definition progress (x y : t * StepResult.t) : Prop :=
  send_ok x.1 -> send_ok y.1 /\ (flushed x.1 -> flushed y.1).

#[export] Instance progress_preorder : PreOrder progress.
Proof.
  split; [by intros x Hx|]. intros x y z Hxy Hyz Hx. destruct (Hxy Hx) as [Hy H1]. destruct (Hyz Hy) as [Hz H2]. auto.
Qed.

Lemma quiet_drained x y : quiet x y -> keeps_drained x.1 y.1.
Proof.
  intros Hq id Hd s' Hs'. destruct (q_streams _ _ Hq id s' Hs') as (s & Hs & [[= Hr Ho _ Hf] _]).
  rewrite (q_conn _ _ Hq). specialize (Hd s Hs). unfold sendable, Stream.bodySize in *. by rewrite Hr, Ho, Hf.
Qed.

#[export] Instance progress_ledger : ResponseLedger progress.
Proof.
  apply ledger_of_quiet; [apply _|by intros d p e p' e' HR|].
  intros x y Hq Hx. split; [by eapply send_ok_quiet|]. intros Hf id. by eapply quiet_drained.
Qed.

(** [emitPendingRequestBody] drains its stream and fills no other. *)
Lemma emitPending_drains p id r r' p' :
  send_ok p -> emitPendingRequestBody id r p = Ok (r', p') ->
  drained p' id /\ keeps_drained p p' /\ (forall j, j <> id -> is_Some (streams p !! j) -> is_Some (streams p' !! j)).
Proof.
  intros Hp Hrun. destruct (streams p !! id) as [s|] eqn:Hs;
    [|by unfold emitPendingRequestBody, bind, deref in Hrun; rewrite Hs in Hrun].
  destruct (se_streams _ Hp id s Hs) as (Hid & Hf & Hoff & Hcl & Hend).
  destruct (wp_inv _ _ _ _ _ _ (emitPending_run no_fault p id s r (se_max _ Hp) (proj1 (se_conn _ Hp)) Hs Hf Hoff) Hrun)
    as [-> _]. destruct (pending_state_frame p id s) as [Hother _].
  assert (Hdr : drained (pending_state p id s) id).
  { unfold pending_state. rewrite Hcl, orb_false_r. destruct (Stream.localEndStreamSent s) eqn:Hl.
    - intros s'. rewrite Hs. intros [= <-]. unfold sendable. rewrite Hend by done. lia.
    - cbv zeta. set (n := sendable (connectionOutFlow p) s).
      assert (Hn : 0 <= n) by (unfold n, sendable; lia).
      assert (H0 : sendable (charge n (connectionOutFlow p)) (body_sent n s) = 0).
      { destruct (Z.eq_dec n 0) as [Hz|]; [by rewrite Hz, charge_0, body_sent_0|].
        rewrite sendable_after; [unfold n; lia|unfold n; lia|apply Hf]. }
      intros s'. repeat case_if; unfold with_stream, without_stream; cbn [streams set_streams];
        rewrite ?lookup_delete_eq, ?lookup_insert_eq; try done; intros [= <-]; exact H0. }
  split; [exact Hdr|]. split.
  - intros j Hj. destruct (decide (j = id)) as [->|Hne]; [done|]. intros sj. rewrite (Hother j Hne). intros Hsj.
    destruct (se_streams _ Hp j sj Hsj) as [_ Hok]. eapply sendable_antitone; [exact Hok| |by apply Hj].
    unfold pending_state. assert (0 <= sendable (connectionOutFlow p) s) by (unfold sendable; lia).
    repeat case_if; unfold with_stream, without_stream; cbn; lia.
  - intros j Hne. by rewrite (Hother j Hne).
Qed.

Section handlers.
Context `{IterOrder}.

Lemma emitPending_progress p id r r' p' : emitPendingRequestBody id r p = Ok (r', p') -> progress (p, r) (p', r').
Proof.
  intros Hrun Hp. split; [by eapply emitPending_sends|]. intros Hf j.
  destruct (emitPending_drains p id r r' p' Hp Hrun) as (_ & Hk & _). by apply Hk.
Qed.

(** Flushing a list of streams drains them all. *)
Lemma flush_streams_drains ids p r r' p' :
  send_ok p -> flush_streams ids r p = Ok (r', p') ->
  send_ok p' /\ keeps_drained p p' /\ (forall id, id ∈ ids -> drained p' id).
Proof.
  revert p r. induction ids as [|id ids IH]; intros p r Hp; cbn [flush_streams].
  { intros [= <- <-]. split; [done|]. split; [by intros j|]. by intros j Hj%elem_of_nil. }
  intros Hrun. apply run_bind in Hrun as (r1 & p1 & Hemit & Hrun).
  assert (Hp1 : send_ok p1) by by apply (emitPending_sends p id r r1 p1 Hemit).
  destruct (emitPending_drains p id r r1 p1 Hp Hemit) as (Hid & Hk & _).
  apply run_bind in Hrun as (alive & q & [= <- <-] & Hrun). case_bool_decide; [|done].
  destruct (IH _ _ Hp1 Hrun) as (Hp' & Hk' & Hids). split; [done|]. split; [intros j Hj; auto|].
  intros j [->|Hj]%elem_of_cons; auto.
Qed.

Lemma flush_pending_drains ids p r r' p' :
  send_ok p -> flush_pending ids r p = Ok (r', p') ->
  send_ok p' /\ keeps_drained p p' /\ (forall id, id ∈ ids -> drained p' id).
Proof.
  revert p r. induction ids as [|id ids IH]; intros p r Hp; cbn [flush_pending].
  { intros [= <- <-]. split; [done|]. split; [by intros j|]. by intros j Hj%elem_of_nil. }
  intros Hrun. apply run_bind in Hrun as (s & p0 & Hd & Hrun). unfold deref in Hd.
  destruct (streams p !! id) as [s0|] eqn:Hs; [|done]. injection Hd as <- <-.
  apply run_bind in Hrun as (present & q & [= <- <-] & Hrun). rewrite bool_decide_true in Hrun by done.
  apply run_bind in Hrun as (r1 & p1 & Hemit & Hrun).
  assert (Hp1 : send_ok p1) by by apply (emitPending_sends p id r r1 p1 Hemit).
  destruct (emitPending_drains p id r r1 p1 Hp Hemit) as (Hid & Hk & _).
  destruct (IH _ _ Hp1 Hrun) as (Hp' & Hk' & Hids). split; [done|]. split; [intros j Hj; auto|].
  intros j [->|Hj]%elem_of_cons; auto.
Qed.

(** ... and all the streams that were there: the table only shrinks. *)
Lemma flushed_all p p' :
  keeps_drained p p' -> (forall id, id ∈ iter_order (streams p) -> drained p' id) -> flushed p'.
Proof.
  intros Hk Hids id. destruct (streams p !! id) as [s|] eqn:Hs; [apply Hids; rewrite iter_order_elem; eauto|].
  apply Hk. intros s. by rewrite Hs.
Qed.

Lemma processSettingFrame_progress frame : books progress StepResult.empty (processSettingFrame frame) result.
Proof.
  intros p r p' Hrun Hp. cbn [fst snd] in *. split; [by eapply processSettingFrame_sends|]. intros Hf.
  assert (Hquiet : forall code debug, failConnection code debug p = Ok (r, p') -> flushed p').
  { intros code debug Hrun'. by apply (failConnection_books_nil progress code debug p r p' Hrun' Hp). }
  unfold processSettingFrame in Hrun. destruct (negb (_ =? 0)); [by eapply Hquiet|].
  destruct (negb (_ =? 0)); [by eapply Hquiet|].
  destruct (FrameHeader.hasAckFlag _); [destruct (negb _); [by eapply Hquiet|by injection Hrun as <- <-]|].
  apply run_bind in Hrun as (? & p1 & [= _ <-] & Hrun). apply run_bind in Hrun as (f & p2 & Hparse & Hrun).
  unfold lift in Hparse. destruct (SettingFrame.parse frame) as [f'|] eqn:Hf'; [|done]. injection Hparse as -> <-.
  apply run_bind in Hrun as (code & q & Happly & Hrun).
  assert (Hp1 : send_ok (set_gotPeerSettings true p)) by by destruct Hp.
  apply settings_range in Hf'. apply applyPeerSettings_settled in Happly; [|done|done].
  destruct (Z.eqb_spec code ErrorCode.NO_ERROR) as [->|Hne]; cbn [negb] in Hrun.
  - destruct Happly as [[_ Hq]|[? _]]; [|done]. destruct (Hq StepResult.empty Hp1) as [Hqok _]. cbn [fst] in Hqok.
    apply run_bind in Hrun as (ids & q1 & [= <- <-] & Hrun). apply run_bind in Hrun as (r1 & p3 & Hflush & Hrun).
    injection Hrun as _ <-. destruct (flush_streams_drains _ _ _ _ _ Hqok Hflush) as (_ & Hk & Hids).
    by eapply flushed_all.
  - apply failConnection_empties in Hrun. intros id s. by rewrite Hrun, lookup_empty.
Qed.

Lemma processWindowUpdateFrame_progress frame :
  books progress StepResult.empty (processWindowUpdateFrame frame) result.
Proof.
  intros p r p' Hrun Hp. cbn [fst snd] in *. split; [by eapply processWindowUpdateFrame_sends|]. intros Hf.
  assert (Hquiet : forall q code debug, progress (p, StepResult.empty) (q, StepResult.empty) ->
    failConnection code debug q = Ok (r, p') -> flushed p').
  { intros q code debug Hq Hrun'. assert (HR : progress (p, StepResult.empty) (p', r)).
    { etrans; [exact Hq|by eapply (failConnection_books_nil progress)]. } by apply HR. }
  assert (Hqs : forall q id code rst, progress (p, StepResult.empty) (q, StepResult.empty) ->
    failStream id code rst q = Ok (r, p') -> flushed p').
  { intros q id code rst Hq Hrun'. assert (HR : progress (p, StepResult.empty) (p', r)).
    { etrans; [exact Hq|by eapply (failStream_books_nil progress)]. } by apply HR. }
  unfold processWindowUpdateFrame in Hrun. cbv zeta in Hrun. set (id := FrameHeader.streamId _) in *. clearbody id.
  destruct (negb _); [by eapply Hquiet|]. apply run_bind in Hrun as (f & p1 & Hparse & Hrun).
  unfold lift in Hparse. destruct (WindowUpdateFrame.parse frame) as [f'|]; [|done]. injection Hparse as -> <-.
  pose proof (land_31_range (WindowUpdateFrame.windowSizeIncrement f)) as Hn. set (n := Z.land _ _) in *. clearbody n.
  destruct (n =? 0); [destruct (id =? 0); [by eapply Hquiet|by eapply Hqs]|]. rewrite i32_small in Hrun by lia.
  apply run_bind in Hrun as (p0 & q0 & Hget & Hrun). injection Hget as <- <-. destruct (Z.eqb_spec id 0) as [->|Hid].
  - destruct (OutFlow.add n (connectionOutFlow p)) as [ok g] eqn:Hadd.
    apply run_bind in Hrun as (? & q1 & [= _ <-] & Hrun). destruct ok; cbn [negb] in Hrun.
    + pose proof (credit_connection_sends p n g StepResult.empty ltac:(lia) Hadd Hp) as [Hq _]. cbn [fst] in Hq.
      apply run_bind in Hrun as (ids & q1 & [= <- <-] & Hrun).
      destruct (flush_pending_drains _ _ _ _ _ Hq Hrun) as (_ & Hk & Hids).
      by apply (flushed_all (set_connectionOutFlow g p)).
    + apply outflow_add_false in Hadd as ->. eapply Hquiet; [|exact Hrun]. apply lg_same. by destruct p.
  - apply run_bind in Hrun as (known & q1 & [= <- <-] & Hrun). destruct (streams p !! id) as [s|] eqn:Hs.
    + rewrite bool_decide_true in Hrun by done. cbn [negb] in Hrun.
      apply run_bind in Hrun as (s0 & q1 & Hd & Hrun). unfold deref in Hd. rewrite Hs in Hd. injection Hd as <- <-.
      destruct (OutFlow.add n (Stream.outflow s)) as [ok g] eqn:Hadd.
      apply run_bind in Hrun as (? & q1 & Hu & Hrun). unfold update in Hu. rewrite Hs in Hu. injection Hu as _ <-.
      fold (with_stream id (Stream.set_outflow g s) p) in Hrun. destruct ok; cbn [negb] in Hrun.
      * pose proof (credit_stream_sends p id s n g StepResult.empty Hs Hadd Hp) as [Hq _]. cbn [fst] in Hq.
        destruct (emitPending_drains _ _ _ _ _ Hq Hrun) as (Hdr & Hk & _). intros j.
        destruct (decide (j = id)) as [->|Hne]; [done|]. apply Hk. intros sj. unfold with_stream. cbn.
        rewrite lookup_insert_ne by done. apply Hf.
      * apply outflow_add_false in Hadd as ->. eapply Hqs; [|exact Hrun]. by eapply lg_update.
    + rewrite bool_decide_false in Hrun by (by intros [? ?]). cbn [negb] in Hrun.
      destruct (id >=? nextStreamId p); [by eapply Hquiet|by injection Hrun as <- <-].
Qed.
End handlers.

(** ** One call *)

Section calls.
Context `{IterOrder}.

Lemma quiet_call_progress c p r p' :
  (forall request, c <> CSubmit request) -> call_run c p = Ok (r, p') ->
  progress (p, StepResult.empty) (p', r).
Proof.
  intros Hc. apply (other_call_books progress); [done|]. intros data _.
  apply (receiveBytes_books progress); [apply processSettingFrame_progress|apply processWindowUpdateFrame_progress].
Qed.

(** The stream of a new request is drained last. *)
Lemma submit_tail_progress request id p s r p' :
  send_ok p -> streams p !! id = Some s -> request_fits request ->
  (forall j, j <> id -> drained p j) ->
  submit_tail request id p = Ok (r, p') -> flushed p'.
Proof.
  intros Hp Hs Hreq Hothers Hrun.
  destruct (submit_tail_run _ _ _ _ _ _ Hp Hs Hreq Hrun)
    as (_ & _ & frames & _ & _ & _ & _ & _ & _ & _ & _ & q & r' & Hok & Hemit & Hc & Hsame).
  destruct (emitPending_drains _ _ _ _ _ Hok Hemit) as (Hid & Hk & _). intros j.
  destruct (decide (j = id)) as [->|Hne]; [done|]. apply Hk. intros sj. rewrite Hc, Hsame by done.
  by apply Hothers.
Qed.
End calls.

(** ** The peer that reads the header blocks

    It has announced some sizes for its header table, one list for each of
    its SETTINGS frames, and applies those of a frame to its decoder when it
    is acknowledged. *)
Record Peer := {
  decoder : Hpack.t;
  unacknowledged : list (list Z);
  open_block : option (Z * bytes);
  requests : list (Z * list HeaderField.t);
}.

(** At the start of the connection: the default table of 4096 bytes. *)
Definition new_peer (announced : list (list Z)) : Peer :=
  {| decoder := Hpack.init; unacknowledged := announced; open_block := None; requests := [] |}.

(** One buffer from the client.  A header block is a HEADERS frame and the
    CONTINUATION frames of its stream, with nothing in between, up to
    END_HEADERS; it must be decoded.  An acknowledgement must answer a frame. *)
Definition peer_reads (b : bytes) (peer : Peer) : option Peer :=
  match fragment_of b, open_block peer with
  | Some (id, (fin, fragment)), block =>
      let in_order :=
        match block with None => starts_block b | Some (id', _) => negb (starts_block b) && (id' =? id) end in
      let block := match block with None => fragment | Some (_, before) => before ++ fragment end in
      if negb in_order then None
      else if fin then
        match Hpack.decode (ByteSpan.make block) [] (decoder peer) with
        | Ok (true, fields, decoder') =>
            Some {| decoder := decoder'; unacknowledged := unacknowledged peer; open_block := None;
                    requests := requests peer ++ [(id, fields)] |}
        | _ => None
        end
      else Some {| decoder := decoder peer; unacknowledged := unacknowledged peer; open_block := Some (id, block);
                   requests := requests peer |}
  | None, Some _ => None
  | None, None =>
      if ack_buffer b then
        match unacknowledged peer with
        | [] => None
        | sizes :: later =>
            Some {| decoder := fold_left (fun d size => Hpack.setDecodeTableLimit size d) sizes (decoder peer);
                    unacknowledged := later; open_block := None; requests := requests peer |}
        end
      else Some peer
  end.

Fixpoint peer_run (out : list bytes) (peer : Peer) : option Peer :=
  match out with
  | [] => Some peer
  | b :: out' => match peer_reads b peer with Some peer' => peer_run out' peer' | None => None end
  end.

Lemma peer_run_app a b peer :
  peer_run (a ++ b) peer = match peer_run a peer with Some peer' => peer_run b peer' | None => None end.
Proof. revert peer. induction a as [|x a IH]; intros peer; cbn; [done|]. by destruct (peer_reads x peer). Qed.

(** Announcing more changes nothing in what has been read. *)
Definition announce (more : list (list Z)) (peer : Peer) : Peer :=
  {| decoder := decoder peer; unacknowledged := unacknowledged peer ++ more; open_block := open_block peer;
     requests := requests peer |}.

Lemma peer_run_announce more out peer peer' :
  peer_run out peer = Some peer' -> peer_run out (announce more peer) = Some (announce more peer').
Proof.
  revert peer. induction out as [|b out IH]; intros peer; cbn [peer_run]; [by intros [= <-]|].
  destruct (peer_reads b peer) as [peer1|] eqn:Hb; [|done]. intros Hrun.
  assert (peer_reads b (announce more peer) = Some (announce more peer1)) as ->; [|by apply IH].
  clear IH Hrun. unfold peer_reads in *. change (open_block (announce more peer)) with (open_block peer).
  change (decoder (announce more peer)) with (decoder peer). change (requests (announce more peer)) with (requests peer).
  destruct (fragment_of b) as [[id [fin d]]|].
  - cbv zeta in *. destruct (negb _); [done|]. destruct fin; [|by injection Hb as <-].
    destruct (Hpack.decode _ _ _) as [[[[] fs] d']|]; [|done..]. by injection Hb as <-.
  - destruct (open_block peer) eqn:Ho; [done|]. destruct (ack_buffer b); [|by injection Hb as <-].
    unfold announce. cbn [unacknowledged]. destruct (unacknowledged peer) as [|sizes later]; [done|]. by injection Hb as <-.
Qed.

Lemma peer_run_calm out peer :
  Forall (fun b => calm_buffer b = true) out -> open_block peer = None -> peer_run out peer = Some peer.
Proof.
  intros Hout Ho. induction Hout as [|b out [Hh Ha]%andb_true_iff _ IH]; cbn [peer_run]; [done|].
  apply negb_true_iff in Hh, Ha. unfold peer_reads. by rewrite (calm_no_fragment _ Hh), Ho, Ha.
Qed.

(** A block that its decoder accepts. *)
Lemma peer_run_block id first block frames peer fields d before :
  block_frames id first block frames ->
  open_block peer = (if first then None else Some (id, before)) -> (first = true -> before = []) ->
  Hpack.decode (ByteSpan.make (before ++ block)) [] (decoder peer) = Ok (true, fields, d) ->
  peer_run frames peer =
    Some {| decoder := d; unacknowledged := unacknowledged peer; open_block := None;
            requests := requests peer ++ [(id, fields)] |}.
Proof.
  intros Hb. revert peer before. induction Hb as [first x b Hx Hfirst|first x rest b frames Hx Hfirst _ IH];
    intros peer before Ho Hbefore Hdec; cbn [peer_run]; unfold peer_reads; rewrite Hx, Ho, Hfirst.
  - destruct first; cbn [negb andb]; [rewrite Hbefore in Hdec by done; cbn [app] in Hdec|rewrite Z.eqb_refl; cbn [negb]];
      by rewrite Hdec.
  - assert (Hrest : forall block, before ++ x = block -> peer_run frames {| decoder := decoder peer;
      unacknowledged := unacknowledged peer; open_block := Some (id, block); requests := requests peer |} =
      Some {| decoder := d; unacknowledged := unacknowledged peer; open_block := None; requests := requests peer ++ [(id, fields)] |}).
    { intros block <-. refine (IH (Build_Peer _ _ _ _) (before ++ x) eq_refl _ _); [done|]. by rewrite <- app_assoc. }
    destruct first; cbn [negb andb]; [|rewrite Z.eqb_refl; cbn [negb]]; apply Hrest; [by rewrite Hbefore|done].
Qed.

(** ** The account of the header blocks *)

(** The header list of each request submitted. *)
Definition request_fields (sub : Z * Request.t) : Z * list HeaderField.t :=
  (fst sub, buildRequestHeaderFields (snd sub)).

Definition heads (frames : list RawFrame.t) (subs : list (Z * Request.t)) (out : list bytes) (p : t) : Prop :=
  exists peer,
    peer_run out (new_peer (omap announced_sizes frames)) = Some peer /\ open_block peer = None /\
    requests peer = map request_fields subs /\
    (closed p = true \/ unacknowledged peer = [] /\ synced (hpack p) (decoder peer)).

Definition header_account (cs : list call) (rs : list StepResult.t) (p : t) : Prop :=
  length cs = length rs /\
  exists frames, read_so_far cs frames p /\ heads frames (submissions cs rs) (sent rs) p.

Lemma heads_late frames more subs out p : closed p = true -> heads frames subs out p -> heads (frames ++ more) subs out p.
Proof.
  intros Hc (peer & Hrun & Ho & Hr & _). exists (announce (omap announced_sizes more) peer).
  rewrite omap_app. split; [exact (peer_run_announce _ _ _ _ Hrun)|]. split; [done|]. split; [done|]. by left.
Qed.

(** Calm steps. *)
Lemma heads_calm frames subs out p p' more :
  heads frames subs out p -> Forall (fun b => calm_buffer b = true) more ->
  closed p' = true \/ (closed p = true -> closed p' = true) /\ enc_part (hpack p') = enc_part (hpack p) ->
  heads frames subs (out ++ more) p'.
Proof.
  intros (peer & Hrun & Ho & Hr & Hsync) Hmore Hp. exists peer. rewrite peer_run_app, Hrun, peer_run_calm by done.
  do 3 (split; [done|]). destruct Hp as [|[Hc Hh]]; [by left|]. destruct Hsync as [|[Hu Hs]]; [left; auto|right].
  split; [done|]. by eapply synced_encoder.
Qed.

Section heads.
Context `{IterOrder}.

Lemma heads_frame frames subs out frame p r p' :
  closed p = false -> receiveFrame frame p = Ok (r, p') -> heads frames subs out p ->
  heads (frames ++ [frame]) subs (out ++ StepResult.outbound r) p'.
Proof.
  intros Hc Hrun Hh. destruct (receiveFrame_heads _ _ _ _ Hrun) as [[Hcalm Hc']|Hone].
  { apply heads_late; [done|]. eapply heads_calm; [done|done|by left]. }
  destruct Hh as (peer & Hpeer & Ho & Hr & [|[Hu Hs]]); [congruence|].
  destruct (announced_sizes frame) as [sizes|] eqn:Ha.
  - destruct Hone as (more & Hout & Hmore & Hsizes & Henc). rewrite Hout.
    apply (peer_run_announce [sizes]) in Hpeer.
    exists {| decoder := fold_left (fun d size => Hpack.setDecodeTableLimit size d) sizes (decoder peer);
              unacknowledged := []; open_block := None; requests := requests peer |}.
    rewrite omap_app. cbn [omap list_omap]. rewrite Ha. rewrite peer_run_app.
    change (announce [sizes] (new_peer (omap announced_sizes frames)))
      with (new_peer (omap announced_sizes frames ++ [sizes])) in Hpeer.
    rewrite Hpeer, peer_run_app, (peer_run_calm more) by (exact Hmore || exact Ho). cbn [peer_run]. unfold peer_reads.
    rewrite calm_no_fragment by done. cbn [announce open_block unacknowledged]. rewrite Ho, Hu. cbn [app].
    change (ack_buffer (SettingFrame.toBytes settings_ack)) with true. do 3 (split; [done|]). right. split; [done|].
    eapply synced_encoder; [exact Henc|]. by apply synced_limits.
  - destruct Hone as (Henc & more & Hout & Hmore). cbn [fst snd StepResult.outbound StepResult.empty app] in *.
    rewrite Hout. exists peer. rewrite omap_app. cbn [omap list_omap]. rewrite Ha, app_nil_r.
    rewrite peer_run_app, Hpeer, peer_run_calm by done. do 3 (split; [done|]). right. split; [done|].
    by eapply synced_encoder.
Qed.

Lemma heads_frames gs frames subs out r0 p r p' :
  closed p = false -> receive_frames gs r0 p = Ok (r, p') ->
  heads frames subs (out ++ StepResult.outbound r0) p ->
  heads (frames ++ gs) subs (out ++ StepResult.outbound r) p'.
Proof.
  revert frames r0 p. induction gs as [|g gs IH]; intros frames r0 p Hc Hrun Hh; cbn [receive_frames] in Hrun.
  - injection Hrun as <- <-. by rewrite app_nil_r.
  - apply run_bind in Hrun as (a & q & Ha & Hrun). apply run_bind in Hrun as (q0 & q1 & [= <- <-] & Hrun).
    assert (Hq : heads (frames ++ [g]) subs (out ++ StepResult.outbound (r0 ⊕ a)) q)
      by (cbn; rewrite app_assoc; by eapply heads_frame).
    change (g :: gs) with ([g] ++ gs). rewrite app_assoc. destruct (closed q) eqn:Hcl.
    + injection Hrun as <- <-. by apply heads_late.
    + by eapply IH.
Qed.

Lemma heads_submit frames subs out request p r p' :
  closed p = false -> send_ok (opened_state request p) -> request_fits request ->
  submit_tail request (nextStreamId p) (opened_state request p) = Ok (r, p') ->
  heads frames subs out p ->
  heads frames (subs ++ [(nextStreamId p, request)]) (out ++ StepResult.outbound r) p'.
Proof.
  intros Hc Hok Hreq Htail (peer & Hpeer & Ho & Hr & [|[Hu Hs]]); [congruence|].
  assert (Hst : streams (opened_state request p) !! nextStreamId p = Some (new_stream (nextStreamId p) request (initialWindowSize p)))
    by apply lookup_insert_eq.
  destruct (submit_tail_run _ _ _ _ _ _ Hok Hst Hreq Htail)
    as (block & hp & bufs & _ & Henc & Hlen & Hfr & Hhp & (more & Hout & Hmore) & _).
  destruct (encode_decode_synced (hpack p) (decoder peer) (buildRequestHeaderFields request) Hs (request_fields_ok _ Hreq))
    as (b & hp' & He' & Hdec). change (hpack (opened_state request p)) with (hpack p) in Henc.
  assert (b = block /\ hp' = hp) as [-> ->] by (split; congruence).
  destruct (Hdec Hlen []) as (d' & Hd' & Hs'). cbn [app] in Hd'.
  exists {| decoder := d'; unacknowledged := unacknowledged peer; open_block := None;
            requests := requests peer ++ [(nextStreamId p, buildRequestHeaderFields request)] |}.
  rewrite Hout, peer_run_app, Hpeer, peer_run_app, (peer_run_block _ _ _ _ _ _ _ [] Hfr Ho (fun _ => eq_refl) Hd').
  rewrite peer_run_calm by done. split; [done|]. split; [done|]. split; [cbn; by rewrite Hr, map_app|].
  right. split; [done|]. by eapply synced_encoder.
Qed.

Lemma header_account_step c p r p' cs rs k :
  call_ok c -> call_run c p = Ok (r, p') -> inv k p -> run_books cs rs p -> header_account cs rs p ->
  header_account (cs ++ [c]) (rs ++ [r]) p'.
Proof.
  intros Hok Hrun Hinv Hbooks (Hl & frames & Hrec & Hh). split; [rewrite !length_app; cbn; lia|].
  rewrite submissions_snoc, sent_snoc by done.
  assert (Hc : (exists data, c = CReceive data) \/ forall data, c <> CReceive data) by (destruct c; eauto).
  destruct Hc as [[data ->]|Hc].
  { destruct (read_more _ _ _ _ _ _ Hrun Hrec) as (gs & Hrec' & Hcase). exists (frames ++ gs). split; [done|].
    cbn [submission from_option]. rewrite app_nil_r. destruct Hcase as [(Hcl & -> & ->)|(Hcl & q & c & Hfold & ->)].
    - cbn [StepResult.outbound StepResult.empty]. rewrite app_nil_r. by apply heads_late.
    - eapply (heads_frames gs frames _ (sent rs)) in Hfold; [exact Hfold|done|]. cbn. by rewrite app_nil_r. }
  exists frames. split; [by eapply read_other|].
  assert (Hcl : stays_closed p p') by (eapply (call_keeps stays_closed c); [tauto|done..]).
  assert (Hs : (exists request, c = CSubmit request) \/ forall request, c <> CSubmit request) by (destruct c; eauto).
  destruct Hs as [[request ->]|Hs].
  - destruct (submitRequest_cases _ _ _ _ Hrun) as [[-> (code & ->)]|(Hcan & _ & _ & Hmax & Htail)].
    { cbn. rewrite !app_nil_r. done. }
    pose proof (submit_tail_id _ _ _ _ _ Htail) as [Hsub Hid]. cbn [submission]. rewrite Hsub, Hid. cbn [from_option].
    unfold canSubmitRequests in Hcan. bool_to_prop.
    assert (Hd1 : data_books (submissions cs rs ++ [(nextStreamId p, request)]) (sent rs) (run_events rs) (opened_state request p)).
    { apply data_books_open; [apply Hbooks|done|apply (v_next _ _ (proj1 Hinv))|apply Hok|by eapply fresh_id]. }
    apply heads_submit; [done|apply Hd1|done..].
  - replace (submission (c, r)) with (@None (Z * Request.t)) by (destruct c; done || by destruct (Hs request)).
    cbn [from_option]. rewrite app_nil_r.
    destruct (other_call_books calm c Hs ltac:(intros data Hdata; by destruct (Hc data)) _ _ _ Hrun) as (Henc & more & Hout & Hmore).
    cbn [fst snd StepResult.outbound StepResult.empty app] in *. rewrite Hout. eapply heads_calm; [done|done|right]. by split.
Qed.

Lemma header_account_start config : header_account [] [] (make config).
Proof.
  split; [done|]. exists []. split; [apply read_start|]. exists (new_peer []). do 3 (split; [done|]). right. split; [done|].
  assert (Hsz : 0 <= 4096 < 2 ^ 32 /\ 4096 <= Hpack.decodeTableLimit Hpack.init) by done.
  destruct (synced_resize Hpack.init Hpack.init 4096 synced_init) as []; [apply Hsz..|]. by constructor.
Qed.
End heads.

Section run.
Context `{IterOrder}.

Lemma flushed_step c p r p' cs rs k :
  call_ok c -> call_run c p = Ok (r, p') -> inv k p -> run_books cs rs p -> flushed p -> flushed p'.
Proof.
  intros Hok Hrun Hinv Hbooks Hf. destruct Hbooks as (_ & Hd).
  pose proof (db_ok _ _ _ _ Hd) as Hp. 
  assert (Hplain : (forall request, c <> CSubmit request) -> flushed p')
    by (intros Hc; by apply (quiet_call_progress c p r p' Hc Hrun Hp)).
  destruct c as [|request| | | | |]; [by apply Hplain| |by apply Hplain..].
  destruct (submitRequest_cases _ _ _ _ Hrun) as [[-> _]|(_ & _ & _ & Hmax & Htail)]; [done|].
  assert (Hd1 : data_books (submissions cs rs ++ [(nextStreamId p, request)]) (sent rs) (run_events rs) (opened_state request p)).
  { apply data_books_open; [done|done|apply (v_next _ _ (proj1 Hinv))|apply Hok|by eapply fresh_id]. }
  eapply (submit_tail_progress request); [apply Hd1|apply lookup_insert_eq|done| |exact Htail].
  intros j Hne s Hs. unfold opened_state in Hs. cbn in Hs. rewrite lookup_insert_ne in Hs by done. exact (Hf j s Hs).
Qed.

Lemma run_sends config calls :
  ClientConfig.wf config -> Forall call_ok calls -> calls_bytes calls <= 2 ^ 31 ->
  match run_calls calls (make config) with
  | Ok (rs, p) => run_books calls rs p /\ header_account calls rs p /\ flushed p
  | Fault f => f = erased_in_loop
  end.
Proof.
  intros Hconf Hcalls Hb.
  pose proof (run_induction (fun cs rs p => run_books cs rs p /\ header_account cs rs p /\ flushed p)
    config calls Hconf Hcalls Hb) as Hrun.
  assert (Hstart : run_books [] [] (make config) /\ header_account [] [] (make config) /\ flushed (make config)).
  { split; [by apply run_books_start|]. split; [apply header_account_start|]. intros id s Hs.
    change (streams (make config)) with (∅ : gmap Z Stream.t) in Hs. by rewrite lookup_empty in Hs. }
  destruct (run_calls calls (make config)) as [[rs p]|f]; apply Hrun; try done;
    intros c p1 r p2 cs1 rs1 k k' Hok Hcall Hinv _ (Hbooks & Hh & Hf);
    (split; [by eapply run_books_step|split; [by eapply header_account_step|by eapply flushed_step]]).
Qed.
End run.

(** ** Properties *)

(** C7: DATA respects flow control.  Over any run, against any peer, the
    client's accounts balance: the DATA sent on a live stream plus what is
    left of its window is the initial window plus the peer's WINDOW_UPDATEs
    for it, and likewise for the connection, whose window never goes below
    zero - so the DATA sent over all streams never exceeds 65535 bytes plus
    the peer's credits. *)
Theorem flow_control_respected `{IterOrder} config calls :
  ClientConfig.wf config -> Forall call_ok calls -> calls_bytes calls <= 2 ^ 31 ->
  match run_calls calls (make config) with
  | Ok (rs, p) =>
      let out := sent rs in let ev := run_events rs in
      (forall id s, streams p !! id = Some s ->
         zlen (payload (data_on id out)) + OutFlow.window (Stream.outflow s) = initialWindowSize p + credit id ev) /\
      data_sent out + OutFlow.window (connectionOutFlow p) = 65535 + credit 0 ev /\
      data_sent out <= 65535 + credit 0 ev
  | Fault f => f = erased_in_loop
  end.
Proof.
  intros Hconf Hcalls Hb. pose proof (run_sends config calls Hconf Hcalls Hb) as Hrun.
  destruct (run_calls calls (make config)) as [[rs p]|f]; [|done]. destruct Hrun as ((_ & Hd) & _).
  pose proof (db_connection _ _ _ _ Hd). destruct (se_conn _ (db_ok _ _ _ _ Hd)).
  split; [|lia]. intros id s Hs. destruct (db_windows _ _ _ _ Hd id s Hs). lia.
Qed.

(** C8: request bodies are sent in order and ended once.  Over any run, the
    DATA frames sent on the stream of an accepted request carry, non-empty
    frame by frame, a prefix of its body, and END_STREAM is on a frame exactly
    when that frame completes the body; while the stream is live the request
    is the one submitted and what is left of the body is what it still has to
    send.  No other stream carries DATA. *)
Theorem bodies_delivered `{IterOrder} config calls :
  ClientConfig.wf config -> Forall call_ok calls -> calls_bytes calls <= 2 ^ 31 ->
  match run_calls calls (make config) with
  | Ok (rs, p) =>
      (forall id request, (id, request) ∈ submissions calls rs ->
         exists rest, delivers (Request.body request) (data_on id (sent rs)) rest /\
           forall s, streams p !! id = Some s -> Stream.rqst s = request /\ rest = unsent s) /\
      (forall id, (forall request, (id, request) ∉ submissions calls rs) -> data_on id (sent rs) = [])
  | Fault f => f = erased_in_loop
  end.
Proof.
  intros Hconf Hcalls Hb. pose proof (run_sends config calls Hconf Hcalls Hb) as Hrun.
  destruct (run_calls calls (make config)) as [[rs p]|f]; [|done]. destruct Hrun as ((_ & Hd) & _).
  split; [apply (db_bodies _ _ _ _ Hd)|apply (db_silent _ _ _ _ Hd)].
Qed.

(** C10: request headers survive the connection.  Over any run, take a peer
    that announces the header table sizes found in the SETTINGS frames of the
    bytes received, bounds its HPACK decoder by them as soon as they are
    acknowledged, and reads all the client sent in order.  However the blocks
    are cut, it finds each one complete, in a HEADERS frame and CONTINUATION
    frames of one stream with nothing in between, and each is accepted by its
    decoder, one for each accepted request in the order of submission, with
    exactly that request's header fields.  Every SETTINGS frame is acknowledged
    once, in order, unless the connection has been closed. *)
Theorem header_blocks_decode `{IterOrder} config calls :
  ClientConfig.wf config -> Forall call_ok calls -> calls_bytes calls <= 2 ^ 31 ->
  match run_calls calls (make config) with
  | Ok (rs, p) =>
      exists peer,
        peer_run (sent rs) (new_peer (omap announced_sizes (frames_of (received_bytes calls)))) = Some peer /\
        open_block peer = None /\
        requests peer = map request_fields (submissions calls rs) /\
        (unacknowledged peer = [] \/ closed p = true)
  | Fault f => f = erased_in_loop
  end.
Proof.
  intros Hconf Hcalls Hb. pose proof (run_sends config calls Hconf Hcalls Hb) as Hrun.
  destruct (run_calls calls (make config)) as [[rs p]|f]; [|done].
  destruct Hrun as (_ & (_ & frames & Hrec & peer & Hpeer & Ho & Hr & Hu) & _).
  rewrite (read_frames_of _ _ _ Hrec). exists peer. split_and!; [done..|]. destruct Hu as [|[? _]]; auto.
Qed.

(** C11: nothing that may be sent is held back.  After any run, a live stream
    whose request has body left to send is blocked by flow control: its
    window or the connection's is exhausted. *)
Theorem no_stall `{IterOrder} config calls :
  ClientConfig.wf config -> Forall call_ok calls -> calls_bytes calls <= 2 ^ 31 ->
  match run_calls calls (make config) with
  | Ok (rs, p) => forall id s, streams p !! id = Some s -> Stream.hasPendingRequestBody s = true ->
      OutFlow.available (connectionOutFlow p) (Stream.outflow s) <= 0
  | Fault f => f = erased_in_loop
  end.
Proof.
  intros Hconf Hcalls Hb. pose proof (run_sends config calls Hconf Hcalls Hb) as Hrun.
  destruct (run_calls calls (make config)) as [[rs p]|f]; [|done]. destruct Hrun as ((_ & Hd) & _ & Hf).
  intros id s Hs Hpend. specialize (Hf id s Hs). unfold Stream.hasPendingRequestBody in Hpend. bool_to_prop.
  unfold sendable, Stream.bodySize in Hf. lia.
Qed.

(** *** A run to apply them to

    The peer allows three bytes on a stream, then ten more on stream 1. *)

Definition upload_calls : list call :=
  [CStart;
   CReceive (SettingFrame.toBytes (SettingFrame.mk (FrameHeader.mk 12 FrameType.SETTINGS 0 0) [(1, 100); (4, 3)]));
   CSubmit (example_request (bs "hello")); CSubmit (example_request (bs "world"));
   CReceive (WindowUpdateFrame.toBytes (WindowUpdateFrame.mk (FrameHeader.mk 4 FrameType.WINDOW_UPDATE 0 1) 10))].

Lemma upload_calls_ok :
  ClientConfig.wf ClientConfig.default /\ Forall call_ok upload_calls /\ calls_bytes upload_calls <= 2 ^ 31.
Proof.
  split; [vm_compute; repeat split; discriminate|]. split; [|vm_compute; discriminate].
  repeat (apply Forall_cons_2; [vm_compute; done|]). apply Forall_nil_2.
Qed.

Definition upload_run : option (list (bool * bytes) * list (bool * bytes) * Z * Z) :=
  match run_calls upload_calls (make ClientConfig.default) with
  | Ok (rs, p) => Some (data_on 1 (sent rs), data_on 3 (sent rs), data_sent (sent rs), credit 1 (run_events rs))
  | Fault _ => None
  end.

Example upload_run_result :
  upload_run = Some ([(false, bs "hel"); (true, bs "lo")], [(false, bs "wor")], 8, 10).
Proof. vm_compute. reflexivity. Qed.

Lemma flow_control_respected_witness :
  match run_calls upload_calls (make ClientConfig.default) with
  | Ok (rs, p) =>
      let out := sent rs in let ev := run_events rs in
      (forall id s, streams p !! id = Some s ->
         zlen (payload (data_on id out)) + OutFlow.window (Stream.outflow s) = initialWindowSize p + credit id ev) /\
      data_sent out + OutFlow.window (connectionOutFlow p) = 65535 + credit 0 ev /\
      data_sent out <= 65535 + credit 0 ev
  | Fault f => f = erased_in_loop
  end.
Proof. apply (flow_control_respected ClientConfig.default upload_calls); apply upload_calls_ok. Defined.

Lemma bodies_delivered_witness :
  match run_calls upload_calls (make ClientConfig.default) with
  | Ok (rs, p) =>
      (forall id request, (id, request) ∈ submissions upload_calls rs ->
         exists rest, delivers (Request.body request) (data_on id (sent rs)) rest /\
           forall s, streams p !! id = Some s -> Stream.rqst s = request /\ rest = unsent s) /\
      (forall id, (forall request, (id, request) ∉ submissions upload_calls rs) -> data_on id (sent rs) = [])
  | Fault f => f = erased_in_loop
  end.
Proof. apply (bodies_delivered ClientConfig.default upload_calls); apply upload_calls_ok. Defined.

(** The peer starts with a table of 4096 bytes, allows none, then 100 bytes. *)
Definition resize_calls : list call :=
  [CStart;
   CReceive (SettingFrame.toBytes (SettingFrame.mk (FrameHeader.mk 0 FrameType.SETTINGS 0 0) []));
   CSubmit (example_request (bs "a"));
   CReceive (SettingFrame.toBytes (SettingFrame.mk (FrameHeader.mk 6 FrameType.SETTINGS 0 0) [(1, 0)]));
   CSubmit (example_request (bs "b")); CSubmit (example_request (bs "c"));
   CReceive (SettingFrame.toBytes (SettingFrame.mk (FrameHeader.mk 6 FrameType.SETTINGS 0 0) [(1, 100)]));
   CSubmit (example_request (bs "d"))].

Lemma resize_calls_ok :
  ClientConfig.wf ClientConfig.default /\ Forall call_ok resize_calls /\ calls_bytes resize_calls <= 2 ^ 31.
Proof.
  split; [vm_compute; repeat split; discriminate|]. split; [|vm_compute; discriminate].
  repeat (apply Forall_cons_2; [vm_compute; done|]). apply Forall_nil_2.
Qed.

(** The sizes announced, and the decoder's limit and table at the end. *)
Definition resize_run : option (list (list Z) * Z * Z * nat) :=
  match run_calls resize_calls (make ClientConfig.default) with
  | Ok (rs, _) =>
      let announced := omap announced_sizes (frames_of (received_bytes resize_calls)) in
      match peer_run (sent rs) (new_peer announced) with
      | Some peer => Some (announced, Hpack.decodeTableLimit (decoder peer),
                           HpackTable.maxSize (Hpack.decodeTable (decoder peer)), length (requests peer))
      | None => None
      end
  | Fault _ => None
  end.

Example resize_run_result : resize_run = Some ([[]; [0]; [100]], 100, 100, 4%nat).
Proof. vm_compute. reflexivity. Qed.

Lemma header_blocks_decode_witness :
  match run_calls resize_calls (make ClientConfig.default) with
  | Ok (rs, p) =>
      exists peer,
        peer_run (sent rs) (new_peer (omap announced_sizes (frames_of (received_bytes resize_calls)))) = Some peer /\
        open_block peer = None /\
        requests peer = map request_fields (submissions resize_calls rs) /\
        (unacknowledged peer = [] \/ closed p = true)
  | Fault f => f = erased_in_loop
  end.
Proof. apply (header_blocks_decode ClientConfig.default resize_calls); apply resize_calls_ok. Defined.

Lemma no_stall_witness :
  match run_calls upload_calls (make ClientConfig.default) with
  | Ok (rs, p) => forall id s, streams p !! id = Some s -> Stream.hasPendingRequestBody s = true ->
      OutFlow.available (connectionOutFlow p) (Stream.outflow s) <= 0
  | Fault f => f = erased_in_loop
  end.
Proof. apply (no_stall ClientConfig.default upload_calls); apply upload_calls_ok. Defined.
