(* ===== verification/Deviations.v ===== *)
(** * Where the code leaves the protocol

    Behaviours of the client that its documents or RFC 9113 do not ask for,
    each established on the definitions: a lemma where it holds in general, a
    run of the public interface where one run tells it. *)

From S2P Require Import Prelude Outcome ByteBuffer Types Flow Frame FrameFacts FrameCodec.
From S2P Require Import FrameParse HeaderRules Hpack ProtocolEvent Stream ProtocolState.
From S2P Require Import Protocol ProtocolHandlers ProtocolInv ProtocolFrame ProtocolFacts ProtocolSafety.
From S2P Require Import ProtocolOps ProtocolRuns Wire SendRuns.
Import Http2Protocol.

(** ** Frames of the peer *)

Definition frame_bytes (type flags streamId : Z) (data : bytes) : bytes :=
  FrameHeader.encode (FrameHeader.mk (zlen data) type flags streamId) ++ data.

Definition settings_bytes (l : list (Z * Z)) : bytes :=
  SettingFrame.toBytes (SettingFrame.mk (FrameHeader.mk (6 * zlen l) FrameType.SETTINGS 0 0) l).

Definition headers_bytes (flags streamId : Z) (block : bytes) : bytes :=
  frame_bytes FrameType.HEADERS (FrameFlag.END_HEADERS + flags) streamId block.

(** What a run shows: the GOAWAY codes sent, and the codes of the responses
    that failed. *)
Definition sent_codes (evs : list ProtocolEvent) : list Z :=
  omap (fun e => match e with goAwaySent _ code _ => Some code | _ => None end) evs.
Definition failed_codes (evs : list ProtocolEvent) : list (Z * Z) :=
  omap (fun e => match e with responseFailed id code => Some (id, code) | _ => None end) evs.

Definition verdict (calls : list call) : option (list Z * list (Z * Z)) :=
  match run_calls calls (make ClientConfig.default) with
  | Ok (rs, _) => Some (sent_codes (run_events rs), failed_codes (run_events rs))
  | Fault _ => None
  end.

(** The frames sent, as type, flags and length. *)
Definition shape (b : bytes) : option (Z * Z * Z) :=
  raw ← read_buffer b;
  Some (FrameHeader.type (RawFrame.header raw), FrameHeader.flags (RawFrame.header raw), zlen (RawFrame.data raw)).

Definition opening : list call := [CStart; CReceive (settings_bytes []); CSubmit (example_request [])].

(** ** The loop over the streams

    The response ends while the request body waits for the window; the
    SETTINGS that opens the window completes the body, the stream is erased,
    and the loop that is visiting it goes on from it. *)
Lemma settings_loop_erases :
  run_calls
    [CStart; CReceive (settings_bytes [(4, 0)]); CSubmit (example_request (bs "a"));
     CReceive (headers_bytes FrameFlag.END_STREAM 1 [x88]); CReceive (settings_bytes [(4, 10)])]
    (make ClientConfig.default) = Fault erased_in_loop.
Proof. vm_compute. reflexivity. Qed.

(** ** Padding

    A payload that is all padding is legal; it is refused. *)
Lemma full_padding_refused frame prefix pad data :
  FrameHeader.hasAnyFlag FrameFlag.PADDED (RawFrame.header frame) = true ->
  RawFrame.data frame = pad :: data -> 0 <= prefix ->
  FrameHeader.payloadLength (RawFrame.header frame) = 1 + prefix + b2z pad ->
  validatePaddedPayload frame prefix = Ok (Some (ErrorCode.PROTOCOL_ERROR, bs "padding exceeds frame payload")).
Proof.
  intros Hflag Hdata Hp Hlen. pose proof (b2z_range pad). unfold validatePaddedPayload. rewrite Hflag, Hdata, Hlen.
  change (ByteSpan.index (ByteSpan.make (pad :: data)) 0) with (Ok pad : outcome byte).
  cbn [negb obind]. destruct (Z.eqb_spec (1 + prefix + b2z pad) 0); [lia|].
  destruct (Z.ltb_spec (1 + prefix + b2z pad) (1 + prefix)); [lia|].
  replace (b2z pad >=? _) with true by (symmetry; apply Z.geb_le; lia). done.
Qed.

Example padded_data_closes :
  verdict (opening ++ [CReceive (headers_bytes 0 1 [x88]);
                       CReceive (frame_bytes FrameType.DATA FrameFlag.PADDED 1 [x02; x00; x00])]) =
    Some ([ErrorCode.PROTOCOL_ERROR], [(1, ErrorCode.PROTOCOL_ERROR)]).
Proof. vm_compute. reflexivity. Qed.

(** ** Settings of the peer used as the client's own

    The peer may receive 3 bytes per stream: the client then refuses a
    response of 5, though it advertised a window of 65535. *)
Lemma peer_window_limits_responses :
  verdict [CStart; CReceive (settings_bytes [(4, 3)]); CSubmit (example_request []);
           CReceive (headers_bytes 0 1 [x88]); CReceive (frame_bytes FrameType.DATA 0 1 (bs "hello"))] =
    Some ([ErrorCode.FLOW_CONTROL_ERROR], [(1, ErrorCode.FLOW_CONTROL_ERROR)]).
Proof. vm_compute. reflexivity. Qed.

(** The peer accepts header lists of 10: the client refuses a block of 14. *)
Lemma peer_header_limit_refuses_responses :
  verdict [CStart; CReceive (settings_bytes [(6, 10)]); CSubmit (example_request []);
           CReceive (headers_bytes 0 1 (x88 :: x00 :: x01 :: bs "a" ++ x09 :: bs "bcdefghij"))] =
    Some ([ErrorCode.ENHANCE_YOUR_CALM], [(1, ErrorCode.ENHANCE_YOUR_CALM)]).
Proof. vm_compute. reflexivity. Qed.

(** ** Requests without a body and with long headers

    The block is cut in two: neither frame ends the stream, and the client
    never does. *)
Definition long_request : Request.t := Request.setHeader (bs "x") (replicate (Z.to_nat 17000) xff) (example_request []).

Lemma long_request_never_ends :
  match run_calls [CStart; CReceive (settings_bytes []); CSubmit long_request] (make ClientConfig.default) with
  | Ok (rs, p) =>
      omap shape (drop 3 (sent rs)) =
        [(FrameType.HEADERS, 0, 16384); (FrameType.CONTINUATION, FrameFlag.END_HEADERS, 629)] /\
      Stream.localEndStreamSent <$> streams p !! 1 = Some false
  | Fault _ => False
  end.
Proof. vm_compute. split; reflexivity. Qed.

(** ** Header blocks that are not decoded

    HEADERS for a stream whose response has ended: the block is not decoded,
    so the entry it adds is missing when the next response refers to it. *)
Definition late_headers : list call :=
  [CStart; CReceive (settings_bytes [(4, 0)]); CSubmit (example_request (bs "a")); CSubmit (example_request []);
   CReceive (headers_bytes FrameFlag.END_STREAM 1 [x88]);
   CReceive (headers_bytes FrameFlag.END_STREAM 1 (x40 :: x01 :: bs "a" ++ x01 :: bs "b"));
   CReceive (headers_bytes FrameFlag.END_STREAM 3 [x88; xbe])].

Lemma late_headers_desynchronise :
  verdict late_headers =
    Some ([ErrorCode.COMPRESSION_ERROR], [(1, ErrorCode.STREAM_CLOSED); (3, ErrorCode.COMPRESSION_ERROR)]).
Proof. vm_compute. reflexivity. Qed.

(** For a stream that is gone the same block is decoded, and the next response
    is accepted. *)
Example ghost_headers_decoded :
  verdict [CStart; CReceive (settings_bytes []); CSubmit (example_request []); CSubmit (example_request []);
           CReceive (headers_bytes FrameFlag.END_STREAM 1 [x88]);
           CReceive (headers_bytes FrameFlag.END_STREAM 1 (x40 :: x01 :: bs "a" ++ x01 :: bs "b"));
           CReceive (headers_bytes FrameFlag.END_STREAM 3 [x88; xbe])] = Some ([], []).
Proof. vm_compute. reflexivity. Qed.

(** ** Connection credit of rejected DATA

    5000 bytes of DATA before the response headers fail the stream; the
    connection window is neither charged nor given back, so the peer has lost
    those bytes of it for good. *)
Lemma rejected_data_keeps_credit :
  match run_calls (opening ++ [CReceive (frame_bytes FrameType.DATA 0 1 (replicate (Z.to_nat 5000) x00))])
          (make ClientConfig.default) with
  | Ok (rs, p) =>
      omap shape (drop 4 (sent rs)) = [(FrameType.RST_STREAM, 0, 4)] /\
      connectionInflow p = connectionInflow (make ClientConfig.default)
  | Fault _ => False
  end.
Proof. vm_compute. split; reflexivity. Qed.

(** Accepted DATA of the same length is given back. *)
Example accepted_data_returns_credit :
  match run_calls (opening ++ [CReceive (headers_bytes 0 1 [x88]);
                               CReceive (frame_bytes FrameType.DATA 0 1 (replicate (Z.to_nat 5000) x00))])
          (make ClientConfig.default) with
  | Ok (rs, _) => omap shape (drop 4 (sent rs)) = [(FrameType.WINDOW_UPDATE, 0, 4); (FrameType.WINDOW_UPDATE, 0, 4)]
  | Fault _ => False
  end.
Proof. vm_compute. reflexivity. Qed.

(** ** A limit of zero streams

    Zero is a limit like any other: every request is refused. *)
Lemma zero_streams_allowed `{IterOrder} request p :
  maxConcurrentStreams p = 0 -> canSubmitRequests p = true -> Request.isValid request = true ->
  submitRequest request p = Ok (StepResult.push_event (responseFailed 0 ErrorCode.REFUSED_STREAM) StepResult.empty, p).
Proof.
  intros Hmax Hcan Hvalid. unfold submitRequest, bind at 1, get. rewrite Hcan, Hvalid. cbn [negb orb].
  unfold activeStreamCount. rewrite Hmax. replace (_ >=? 0) with true by (symmetry; apply Z.geb_le; lia). done.
Qed.
