(* ===== verification/Std.v ===== *)
(** * The C++ standard library, as the upper layers use it

    [std::to_string], and the iteration order of the unordered containers,
    which the code cannot rely on: it is a parameter. *)

From S2P Require Import Prelude Outcome Types HeaderRules HeaderFacts.

(** ** [std::to_string] of an unsigned integer *)

Fixpoint to_digits (fuel : nat) (n : Z) (acc : bytes) : bytes :=
  match fuel with
  | O => acc
  | S fuel' =>
      let acc := z2b (0x30 + n mod 10) :: acc in
      if n / 10 =? 0 then acc else to_digits fuel' (n / 10) acc
  end.

(** Twenty digits are enough for 64 bits. *)
Definition to_string (n : Z) : bytes := to_digits 20 n [].

Lemma digit_byte d : 0 <= d < 10 -> b2z (z2b (0x30 + d)) = 0x30 + d.
Proof. intros Hd. rewrite b2z_z2b. apply Z.mod_small. lia. Qed.

Lemma to_digits_spec fuel n acc :
  0 <= n < 10 ^ Z.of_nat fuel -> (0 < fuel)%nat ->
  exists d, to_digits fuel n acc = d ++ acc /\ d <> [] /\ all_digits d = true /\
    forall m, dec_from m d = m * 10 ^ zlen d + n.
Proof.
  revert n acc. induction fuel as [|fuel IH]; intros n acc Hn Hf; [lia|]. cbn [to_digits].
  pose proof (Z.mod_pos_bound n 10 ltac:(lia)) as Hm. pose proof (Z.div_mod n 10 ltac:(lia)) as Hdm.
  pose proof (digit_byte (n mod 10) Hm) as Hb.
  assert (Hc : is_digit (z2b (0x30 + n mod 10)) = true).
  { unfold is_digit. rewrite Hb. apply andb_true_iff. split; [apply Z.leb_le|apply Z.leb_le]; lia. }
  destruct (Z.eqb_spec (n / 10) 0) as [H0|H0].
  - exists [z2b (0x30 + n mod 10)]. split; [done|]. split; [done|]. split; [cbn; by rewrite Hc|].
    intros m. unfold dec_from. cbn [fold_left]. rewrite Hb. change (zlen [_]) with 1. lia.
  - assert (Hlt : 0 <= n / 10 < 10 ^ Z.of_nat fuel).
    { split; [apply Z.div_pos; lia|]. apply Z.div_lt_upper_bound; [lia|].
      rewrite Nat2Z.inj_succ, Z.pow_succ_r in Hn by lia. lia. }
    assert (0 < fuel)%nat by (destruct fuel; [cbn in Hlt; lia|lia]).
    destruct (IH (n / 10) (z2b (0x30 + n mod 10) :: acc) Hlt) as (d & Hd & Hne & Hall & Hval); [done|].
    exists (d ++ [z2b (0x30 + n mod 10)]). split; [by rewrite Hd, <- app_assoc|].
    split; [by destruct d|]. split.
    + unfold all_digits in *. rewrite forallb_app, Hall. cbn. by rewrite Hc.
    + intros m. unfold dec_from in *. rewrite fold_left_app, Hval. cbn [fold_left]. rewrite Hb, zlen_app.
      change (zlen [_]) with 1. rewrite Z.pow_add_r by (zlen_lia || lia). lia.
Qed.

(** What the code prints it can parse. *)
Lemma to_string_parse n : 0 <= n < 10 ^ 20 -> all_digits (to_string n) = true /\ dec_value (to_string n) = n.
Proof.
  intros Hn. destruct (to_digits_spec 20 n []) as (d & Hd & _ & Hall & Hval); [done|lia|].
  unfold to_string. rewrite Hd, app_nil_r. split; [done|]. unfold dec_value. fold (dec_from 0 d).
  rewrite Hval. lia.
Qed.

(** ** [std::unordered_map] and [std::unordered_set] *)

(** The order a hash table is iterated in. *)
Class HashOrder (K : Type) `{Countable K} : Type := {
  hash_order {V} : gmap K V -> list (K * V);
  hash_order_perm {V} (m : gmap K V) : hash_order m ≡ₚ map_to_list m;
}.

(** One such order, for concrete runs. *)
#[export] Instance some_order {K} `{Countable K} : HashOrder K := {
  hash_order V m := map_to_list m;
  hash_order_perm V m := reflexivity _;
}.

Section order.
Context {K V : Type} `{HashOrder K}.
Implicit Type m : gmap K V.

Lemma hash_order_elem m k v : (k, v) ∈ hash_order m <-> m !! k = Some v.
Proof. rewrite hash_order_perm. apply elem_of_map_to_list. Qed.

Lemma hash_order_empty : hash_order (∅ : gmap K V) = [].
Proof. apply Permutation_nil. by rewrite hash_order_perm, map_to_list_empty. Qed.
End order.
