(* ===== verification/RequestContext.v ===== *)
(** * Request contexts

    [include/chttp2/request_context.hpp] and [src/request_context.cpp]: the
    shared record of a request in flight.  Every member is atomic or guarded
    by the context's mutex, so each method is one step on the record; a
    [RequestContextPtr] is the id of a record in a store, or null. *)

From S2P Require Import Prelude Outcome Types.

Module RequestContext.
Record t := mk {
  REQUEST_ID : Z;
  TIMEOUT_MS : Z;
  finished : bool;
  canceled : bool;
  streamId : Z;
  timerId : Z;
  hasCancelHandler : bool;  (** [cancelHandler] is not empty *)
}.

(** [RequestContext(requestId, timeoutMs, completion)]. *)
Definition init (requestId timeoutMs : Z) : t := mk requestId timeoutMs false false 0 0 false.

(** [finished.compare_exchange_strong(false, true)]. *)
Definition tryFinish (c : t) : bool * t :=
  if finished c then (false, c)
  else (true, mk (REQUEST_ID c) (TIMEOUT_MS c) true (canceled c) (streamId c) (timerId c)
                (hasCancelHandler c)).
Definition isFinished (c : t) : bool := finished c.

(** [canceled.compare_exchange_strong(false, true)]. *)
Definition markCanceled (c : t) : bool * t :=
  if canceled c then (false, c)
  else (true, mk (REQUEST_ID c) (TIMEOUT_MS c) (finished c) true (streamId c) (timerId c)
                (hasCancelHandler c)).
Definition isCanceled (c : t) : bool := canceled c.

Definition setStreamId (sid : Z) (c : t) : t :=
  mk (REQUEST_ID c) (TIMEOUT_MS c) (finished c) (canceled c) sid (timerId c) (hasCancelHandler c).
Definition getStreamId (c : t) : Z := streamId c.
Definition setTimerId (tid : Z) (c : t) : t :=
  mk (REQUEST_ID c) (TIMEOUT_MS c) (finished c) (canceled c) (streamId c) tid (hasCancelHandler c).
Definition getTimerId (c : t) : Z := timerId c.
Definition setCancelHandler (c : t) : t :=
  mk (REQUEST_ID c) (TIMEOUT_MS c) (finished c) (canceled c) (streamId c) (timerId c) true.

(** [cancel()]: whether it took effect, whether [cancelHandler] must be run
    (with [REQUEST_ID]), and the context. *)
Definition cancel (c : t) : bool * bool * t :=
  if isFinished c then (false, false, c)
  else
    let '(marked, c) := markCanceled c in
    if negb marked then (false, false, c) else (true, hasCancelHandler c, c).
End RequestContext.

(** [std::shared_ptr<RequestContext>]: contexts live in a store. *)
Definition RequestContextPtr : Type := option Z.
Abbreviation Contexts := (gmap Z RequestContext.t).

(** Two flags that only go up, and identifiers that never change. *)
Definition context_le (c c' : RequestContext.t) : Prop :=
  RequestContext.REQUEST_ID c' = RequestContext.REQUEST_ID c /\
  (RequestContext.finished c = true -> RequestContext.finished c' = true) /\
  (RequestContext.canceled c = true -> RequestContext.canceled c' = true).

#[export] Instance context_le_preorder : PreOrder context_le.
Proof.
  split; [by intros c; split_and!|]. intros a b c (Hab & ? & ?) (Hbc & ? & ?).
  split_and!; [congruence|auto|auto].
Qed.

Lemma tryFinish_spec c :
  RequestContext.tryFinish c = (negb (RequestContext.finished c), snd (RequestContext.tryFinish c)) /\
  RequestContext.finished (snd (RequestContext.tryFinish c)) = true /\
  context_le c (snd (RequestContext.tryFinish c)).
Proof. unfold RequestContext.tryFinish, context_le. by destruct (RequestContext.finished c) eqn:?. Qed.
