(* ===== verification/Transport.v ===== *)
(** * Transports

    [include/chttp2/stream_transport.hpp], [src/stream_transport.cpp] and the
    error classification of [include/chttp2/platform.hpp] (POSIX).  The
    system calls and the TLS library are parameters: a call is given the
    result they return, and [readSome]/[writeSome] translate it. *)

From S2P Require Import Prelude Outcome Types.

Inductive IOState : Type := OK | WOULD_BLOCK | CLOSED_ | ERR.

#[export] Instance IOState_eq_dec : EqDecision IOState.
Proof. solve_decision. Defined.

Record IOResult := mk_io { state : IOState; io_bytes : Z }.

Definition INVALID_SOCKET : Z := -1.

(** The [errno] values the code distinguishes; their numbers belong to the
    platform. *)
Class Errno : Type := {
  EAGAIN : Z; EWOULDBLOCK : Z; EPIPE : Z; ECONNRESET : Z;
}.

Definition isWouldBlock `{Errno} (err : Z) : bool := (err =? EAGAIN) || (err =? EWOULDBLOCK).
Definition isConnectionReset `{Errno} (err : Z) : bool := (err =? EPIPE) || (err =? ECONNRESET).

(** The part [readSome] and [writeSome] of [TcpStreamTransport] share: [ret]
    and [err] are the system call's result and [errno]. *)
Definition tcp_result `{Errno} (ready : bool) (len ret err : Z) : IOResult :=
  if negb ready then mk_io ERR 0
  else if len =? 0 then mk_io OK 0
  else if ret >? 0 then mk_io OK ret
  else if ret =? 0 then mk_io CLOSED_ 0
  else if isWouldBlock err then mk_io WOULD_BLOCK 0
  else if isConnectionReset err then mk_io CLOSED_ 0
  else mk_io ERR 0.

Definition tcp_writeSome `{Errno} (ready : bool) (len ret err : Z) : IOResult := tcp_result ready len ret err.
Definition tcp_readSome `{Errno} (ready : bool) (len ret err : Z) : IOResult := tcp_result ready len ret err.

(** The codes of [SSL_get_error] the code distinguishes. *)
Class SslError : Type := {
  SSL_ERROR_WANT_READ : Z; SSL_ERROR_WANT_WRITE : Z; SSL_ERROR_ZERO_RETURN : Z;
}.

Definition tls_result `{SslError} (ready ssl : bool) (len ret err : Z) : IOResult :=
  if negb ready || negb ssl then mk_io ERR 0
  else if len =? 0 then mk_io OK 0
  else if ret >? 0 then mk_io OK ret
  else if (err =? SSL_ERROR_WANT_READ) || (err =? SSL_ERROR_WANT_WRITE) then mk_io WOULD_BLOCK 0
  else if err =? SSL_ERROR_ZERO_RETURN then mk_io CLOSED_ 0
  else mk_io ERR 0.

Definition tls_writeSome `{SslError} (ready ssl : bool) (len ret err : Z) : IOResult := tls_result ready ssl len ret err.
Definition tls_readSome `{SslError} (ready ssl : bool) (len ret err : Z) : IOResult := tls_result ready ssl len ret err.

(** What a session relies on: bytes move only with [OK], and never more than
    were asked for. *)
Definition io_ok (len : Z) (r : IOResult) : Prop :=
  0 <= io_bytes r <= len /\ (state r <> OK -> io_bytes r = 0).

(** The kernel and the TLS library return at most [len]. *)
Lemma tcp_result_ok `{Errno} ready len ret err :
  0 <= len -> ret <= len -> io_ok len (tcp_result ready len ret err).
Proof.
  intros Hlen Hret. unfold tcp_result, io_ok. repeat case_if; bool_to_prop; cbn [io_bytes state];
    (split; [lia|done]).
Qed.

Lemma tls_result_ok `{SslError} ready ssl len ret err :
  0 <= len -> ret <= len -> io_ok len (tls_result ready ssl len ret err).
Proof.
  intros Hlen Hret. unfold tls_result, io_ok. repeat case_if; bool_to_prop; cbn [io_bytes state];
    (split; [lia|done]).
Qed.
