(* ===== verification/Session.v ===== *)
(** * HTTP/2 sessions

    [include/chttp2/ihttp_session.hpp], [http2_session.hpp] and
    [src/http2_session.cpp]: the driver that runs [Http2Protocol] over a
    transport and maps streams back to request contexts.  A method is a
    computation on the session and the store of contexts; the results of the
    transport's calls are arguments, in the order of the calls. *)

From S2P Require Import Prelude Outcome Types ProtocolEvent Stream ProtocolState Protocol.
From S2P Require Import ProtocolHandlers Std RequestContext Transport.

Inductive SessionEvent : Type :=
| REQUEST_DONE (context : RequestContextPtr) (response : Response.t)
| SESSION_CLOSING
| SESSION_DEAD
| PING_ACK.

Module Http2Session.
(** A chunk is its bytes and how many of them are written; [transport] is the
    descriptor of the owned transport, if there is one. *)
Record t := mk {
  protocol : Http2Protocol.t;
  transport : option Z;
  outbound : list (bytes * Z);
  started : bool;
  healthy : bool;
  goingAway : bool;
  streamContexts : gmap Z RequestContextPtr;
}.

Definition set_protocol v s := mk v (transport s) (outbound s) (started s) (healthy s) (goingAway s) (streamContexts s).
Definition set_transport v s := mk (protocol s) v (outbound s) (started s) (healthy s) (goingAway s) (streamContexts s).
Definition set_outbound v s := mk (protocol s) (transport s) v (started s) (healthy s) (goingAway s) (streamContexts s).
Definition set_started v s := mk (protocol s) (transport s) (outbound s) v (healthy s) (goingAway s) (streamContexts s).
Definition set_healthy v s := mk (protocol s) (transport s) (outbound s) (started s) v (goingAway s) (streamContexts s).
Definition set_goingAway v s := mk (protocol s) (transport s) (outbound s) (started s) (healthy s) v (streamContexts s).
Definition set_streamContexts v s := mk (protocol s) (transport s) (outbound s) (started s) (healthy s) (goingAway s) v.

(** [Http2Session(ep, cfg)]. *)
Definition make (config : ClientConfig.t) : t :=
  mk (Http2Protocol.make config) None [] false false false ∅.

(** ** Queries *)

Definition isHealthy (s : t) : bool := started s && healthy s && negb (Http2Protocol.isClosed (protocol s)).
Definition isGoingAway (s : t) : bool := goingAway s.
Definition hasStreamCapacity (s : t) : bool :=
  Http2Protocol.activeStreamCount (protocol s) <? Http2Protocol.peerMaxConcurrentStreams (protocol s).
Definition activeStreamCount (s : t) : Z := Http2Protocol.activeStreamCount (protocol s).
Definition pollFd (s : t) : Z := default INVALID_SOCKET (transport s).
Definition wantsWrite (s : t) : bool := match outbound s with [] => false | _ => true end.

(** ** Helpers *)

Definition enqueueOutbound (data : bytes) (s : t) : t := set_outbound (outbound s ++ [(data, 0)]) s.

Definition enqueue_all (bufs : list bytes) (s : t) : t :=
  fold_left (fun s b => enqueueOutbound b s) bufs s.

(** [consumeStepResult]; the events are returned to the caller. *)
Definition consumeStepResult (result : StepResult.t) (s : t) : list ProtocolEvent * t :=
  (StepResult.events result, enqueue_all (StepResult.outbound result) s).

Section session.
Context `{IterOrder} `{!HashOrder Z}.

Definition failAllStreams (response : Response.t) (s : t) : list SessionEvent * t :=
  (map (fun kv => REQUEST_DONE (snd kv) response) (hash_order (streamContexts s)),
   set_streamContexts ∅ s).

(** [transport->close()] resets the transport's socket. *)
Definition close_transport (s : t) : t :=
  set_transport (match transport s with Some _ => Some INVALID_SOCKET | None => None end) s.

(** The case of a finished stream. *)
Definition finish_stream (streamId : Z) (response : Response.t) (s : t) : list SessionEvent * t :=
  match streamContexts s !! streamId with
  | Some context => ([REQUEST_DONE context response], set_streamContexts (delete streamId (streamContexts s)) s)
  | None => ([], s)
  end.

(** One iteration of [translateEvents]. *)
Definition translateEvent (pe : ProtocolEvent) (s : t) : list SessionEvent * t :=
  match pe with
  | responseCompleted streamId response => finish_stream streamId response s
  | responseFailed streamId errorCode =>
      finish_stream streamId (Response.protocolError errorCode (bs "errorCode=" ++ to_string errorCode)) s
  | goAwayReceived _ _ _ => ([SESSION_CLOSING], set_goingAway true s)
  | pingAckReceived _ => ([PING_ACK], s)
  | connectionError _ | connectionClosed _ | transportClosed =>
      let '(failEvents, s) := failAllStreams (Response.failConnectionError (bs "Connection lost")) (set_healthy false s) in
      (failEvents ++ [SESSION_DEAD], s)
  | _ => ([], s)
  end.

Fixpoint translateEvents (pes : list ProtocolEvent) (s : t) : list SessionEvent * t :=
  match pes with
  | [] => ([], s)
  | pe :: pes' =>
      let '(evs, s) := translateEvent pe s in
      let '(evs', s) := translateEvents pes' s in
      (evs ++ evs', s)
  end.

(** *** Running the protocol *)

(** A call of [protocol]. *)
Definition on_protocol {A} (m : st Http2Protocol.t A) : st t A := fun s =>
  match m (protocol s) with
  | Ok (a, p) => Ok (a, set_protocol p s)
  | Fault f => Fault f
  end.

(** [consumeStepResult] and [translateEvents] on a step's result. *)
Definition translate_result (result : StepResult.t) : st t (list SessionEvent) := fun s =>
  let '(pes, s) := consumeStepResult result s in
  Ok (translateEvents pes s).

(** [consumeStepResult] into a vector that is dropped. *)
Definition discard_result (result : StepResult.t) : st t unit :=
  modify (fun s => snd (consumeStepResult result s)).

Definition handleTransportFailure : st t (list SessionEvent) :=
  s <- get ;;
  if negb (healthy s) then ret []
  else
    modify (set_healthy false) ;;;
    result <- on_protocol onTransportClosed ;;
    discard_result result ;;;
    modify (set_outbound []) ;;;
    modify close_transport ;;;
    s <- get ;;
    let '(events, s) := failAllStreams (Response.failConnectionError (bs "Connection lost")) s in
    modify (fun _ => s) ;;;
    ret (events ++ [SESSION_DEAD]).

(** ** Methods *)

(** [created] is what the factory returns, [None] when it throws; [inited]
    is the result of the transport's [init]. *)
Definition start (created : option Z) (inited : bool) : st t bool :=
  s <- get ;;
  if started s then ret true
  else
    match created with
    | None => ret false
    | Some fd =>
        modify (set_transport (Some fd)) ;;;
        if negb inited then ret false
        else
          result <- on_protocol ProtocolHandlers.start ;;
          discard_result result ;;;
          modify (set_started true) ;;;
          modify (set_healthy true) ;;;
          ret true
    end.

Definition close : st t (list SessionEvent) :=
  s <- get ;;
  if negb (started s) then ret []
  else
    modify (set_started false) ;;;
    modify (set_healthy false) ;;;
    modify (set_goingAway false) ;;;
    result <- on_protocol ProtocolHandlers.close ;;
    discard_result result ;;;
    modify (set_outbound []) ;;;
    modify (set_transport None) ;;;
    s <- get ;;
    let '(events, s) := failAllStreams (Response.failConnectionError (bs "Connection closed")) s in
    modify (fun _ => s) ;;;
    ret events.

(** The context of a submitted request. *)
Definition deref_context (contexts : Contexts) (context : RequestContextPtr) : outcome RequestContext.t :=
  match context with
  | Some id => of_option (Undefined "dangling RequestContext") (contexts !! id)
  | None => undef "null RequestContextPtr"
  end.

(** Cancelling a stream and completing its request. *)
Definition cancel_stream (streamId : Z) : st t (list SessionEvent) :=
  cancelResult <- on_protocol (cancelStream streamId ErrorCode.CANCEL) ;;
  events <- translate_result cancelResult ;;
  s <- get ;;
  let '(done, s) := finish_stream streamId (Response.customError (bs "Request canceled")) s in
  modify (fun _ => s) ;;;
  ret (events ++ done).

(** Returns the events and, when a stream was opened, its id, which the
    caller stores in the context ([context->setStreamId]); [canceled] and
    [finished] are read from the context at the end. *)
Definition submit_stream (request : Request.t) (context : RequestContextPtr) (canceled finished : bool)
  : st t (list SessionEvent * Z) :=
  s <- get ;;
  if negb (isHealthy s) then
    ret ([REQUEST_DONE context
            (Response.protocolError ErrorCode.REFUSED_STREAM (bs "Session not healthy"))], 0)
  else
    result <- on_protocol (submitRequest request) ;;
    let streamId := if StepResult.hasSubmittedStream result then StepResult.submittedStreamId result else 0 in
    (if StepResult.hasSubmittedStream result
     then modify (fun s => set_streamContexts (<[streamId := context]> (streamContexts s)) s)
     else ret tt) ;;;
    events <- translate_result result ;;
    if negb (streamId =? 0) && canceled && negb finished then
      cancelEvents <- cancel_stream streamId ;;
      ret (events ++ cancelEvents, streamId)
    else ret (events, streamId).

(** [submit(request, context)], with the store of contexts. *)
Definition submit (request : Request.t) (context : RequestContextPtr)
  : st (t * Contexts) (list SessionEvent) := fun '(s, contexts) =>
  if negb (isHealthy s) then
    let! (r, s) := submit_stream request context false false s in Ok (fst r, (s, contexts))
  else
    let! c := deref_context contexts context in
    let! (r, s) := submit_stream request context (RequestContext.isCanceled c) (RequestContext.isFinished c) s in
    let '(events, streamId) := r in
    Ok (events, (s, match context with
                    | Some id => if streamId =? 0 then contexts
                                 else <[id := RequestContext.setStreamId streamId c]> contexts
                    | None => contexts
                    end)).

Definition cancelRequest (context : RequestContextPtr) : st (t * Contexts) (list SessionEvent) :=
  fun '(s, contexts) =>
  match context with
  | None => Ok ([], (s, contexts))
  | Some _ =>
      let! c := deref_context contexts context in
      let streamId := RequestContext.getStreamId c in
      if (streamId =? 0) || negb (isHealthy s) then Ok ([], (s, contexts))
      else
        match streamContexts s !! streamId with
        | None => Ok ([], (s, contexts))
        | Some _ => let! (events, s) := cancel_stream streamId s in Ok (events, (s, contexts))
        end
  end.

Definition sendPing : st t (list SessionEvent) :=
  s <- get ;;
  if negb (isHealthy s) then ret []
  else
    result <- on_protocol ProtocolHandlers.sendPing ;;
    modify (enqueue_all (StepResult.outbound result)) ;;;
    ret [].

(** ** Input and output *)

(** [reads] are the results of the successive [readSome] calls, with the data
    read; a non-blocking descriptor that has no more results would block. *)
Fixpoint read_loop (reads : list (IOState * bytes)) (sessionEvents : list SessionEvent)
  : st t (list SessionEvent) :=
  match reads with
  | [] => ret sessionEvents
  | (io, data) :: reads' =>
      match io with
      | WOULD_BLOCK => ret sessionEvents
      | CLOSED_ | ERR => handleTransportFailure
      | OK =>
          if zlen data =? 0 then ret sessionEvents
          else
            result <- on_protocol (receiveBytes data) ;;
            events <- translate_result result ;;
            read_loop reads' (sessionEvents ++ events)
      end
  end.

(** [transport->]. *)
Definition need_transport : st t unit := fun s =>
  match transport s with Some _ => Ok (tt, s) | None => undef "null transport" end.

Definition onReadable (reads : list (IOState * bytes)) : st t (list SessionEvent) :=
  s <- get ;;
  if negb (isHealthy s) then ret []
  else need_transport ;;; read_loop reads [].

(** [writes] are the results of the successive [writeSome] calls; a step
    drops a finished chunk or writes some of the first one. *)
Fixpoint drop_written (chunks : list (bytes * Z)) : list (bytes * Z) :=
  match chunks with
  | (data, offset) :: chunks' => if offset >=? zlen data then drop_written chunks' else chunks
  | [] => []
  end.

(** The bytes the transport took are the result. *)
Fixpoint write_loop (writes : list IOResult) : st t bytes :=
  modify (fun s => set_outbound (drop_written (outbound s)) s) ;;;
  s <- get ;;
  match outbound s, writes with
  | [], _ => ret []
  | _ :: _, [] => ret []
  | (data, offset) :: chunks, io :: writes' =>
      match Transport.state io with
      | WOULD_BLOCK => ret []
      | CLOSED_ | ERR => handleTransportFailure ;;; ret []
      | OK =>
          modify (set_outbound ((data, offset + io_bytes io) :: chunks)) ;;;
          sent <- write_loop writes' ;;
          ret (ztake (io_bytes io) (zdrop offset data) ++ sent)
      end
  end.

Definition onWritable (writes : list IOResult) : st t bytes :=
  s <- get ;;
  if negb (isHealthy s) then ret []
  else
    (match outbound s with [] => ret tt | _ => need_transport end) ;;;
    write_loop writes.
End session.
End Http2Session.
