(* ===== verification/SessionFacts.v ===== *)
(** * Facts about sessions

    Where a request context is: held by the session under its stream, or
    handed back in a [REQUEST_DONE] event; and how that agrees with the
    protocol's own table of streams. *)

From S2P Require Import Prelude Outcome ByteBuffer Types Flow Frame FrameFacts FrameCodec.
From S2P Require Import FrameParse HeaderRules Hpack ProtocolEvent Stream ProtocolState.
From S2P Require Import Protocol ProtocolHandlers ProtocolInv ProtocolFrame ProtocolFacts.
From S2P Require Import ProtocolSafety ProtocolOps ProtocolLedger ProtocolRuns.
From S2P Require Import Std RequestContext Transport Session.
Import Http2Session.

(** The contexts a list of events completes, and those a session holds. *)
Definition done_contexts (evs : list SessionEvent) : list RequestContextPtr :=
  omap (fun ev => match ev with REQUEST_DONE c _ => Some c | _ => None end) evs.
Definition held_contexts (s : t) : list RequestContextPtr := (map_to_list (streamContexts s)).*2.

Lemma done_app a b : done_contexts (a ++ b) = done_contexts a ++ done_contexts b.
Proof. apply omap_app. Qed.

(** The parts of a session that event translation leaves alone. *)
Definition same_io (s s' : t) : Prop :=
  protocol s' = protocol s /\ transport s' = transport s /\ outbound s' = outbound s /\ started s' = started s.

#[export] Instance same_io_preorder : PreOrder same_io.
Proof.
  split; [by intros s; split_and!|]. intros a b c (? & ? & ? & ?) (? & ? & ? & ?). split_and!; congruence.
Qed.

Section facts.
Context `{IterOrder} `{!HashOrder Z}.

(** ** Event translation *)

Lemma failAllStreams_done response s :
  done_contexts (fst (failAllStreams response s)) ≡ₚ held_contexts s /\
  snd (failAllStreams response s) = set_streamContexts ∅ s.
Proof.
  split; [|done]. unfold failAllStreams, done_contexts, held_contexts. cbn [fst].
  rewrite <- hash_order_perm. induction (hash_order (streamContexts s)) as [|kv l IH]; [done|].
  cbn. by rewrite IH.
Qed.

Lemma held_delete s id c :
  streamContexts s !! id = Some c ->
  held_contexts s ≡ₚ c :: held_contexts (set_streamContexts (delete id (streamContexts s)) s).
Proof. intros Hc. unfold held_contexts. cbn. by rewrite <- (map_to_list_delete (streamContexts s) id c Hc). Qed.

Lemma held_insert s id c :
  streamContexts s !! id = None ->
  held_contexts (set_streamContexts (<[id := c]> (streamContexts s)) s) ≡ₚ c :: held_contexts s.
Proof. intros Hc. unfold held_contexts. cbn. by rewrite map_to_list_insert. Qed.

(** What translating some events does to the contexts: those handed back
    were held, no answered stream is left, nothing is added. *)
Record translated (es : list ProtocolEvent) (s : t) (evs : list SessionEvent) (s' : t) : Prop := {
  tr_conserves : done_contexts evs ++ held_contexts s' ≡ₚ held_contexts s;
  tr_sub : streamContexts s' ⊆ streamContexts s;
  tr_answered id : id ∈ answered_ids es -> streamContexts s' !! id = None;
  tr_io : same_io s s';
}.

Lemma finish_stream_translated id response s evs s' :
  finish_stream id response s = (evs, s') ->
  done_contexts evs ++ held_contexts s' ≡ₚ held_contexts s /\ streamContexts s' ⊆ streamContexts s /\
  streamContexts s' !! id = None /\ same_io s s'.
Proof.
  unfold finish_stream. destruct (streamContexts s !! id) as [c|] eqn:Hc; intros [= <- <-].
  - rewrite (held_delete s id c Hc). cbn. split; [done|]. split; [apply delete_subseteq|].
    split; [by rewrite lookup_delete_eq|by split_and!].
  - by split_and!.
Qed.

Lemma translateEvent_translated pe s evs s' :
  translateEvent pe s = (evs, s') -> translated [pe] s evs s'.
Proof.
  assert (Hid : forall evs, done_contexts evs = [] -> answered_ids [pe] = [] -> translated [pe] s evs s).
  { intros l Hl Ha. split; [by rewrite Hl|done| |by split_and!]. intros id. rewrite Ha. by intros ?%elem_of_nil. }
  assert (Hfail : forall r e, translated e s (fst (failAllStreams r (set_healthy false s)) ++ [SESSION_DEAD])
    (snd (failAllStreams r (set_healthy false s)))).
  { intros r e. destruct (failAllStreams_done r (set_healthy false s)) as [Hd Hs]. rewrite Hs. split.
    - rewrite done_app, Hd. cbn. unfold held_contexts at 2. cbn. by rewrite map_to_list_empty, !app_nil_r.
    - apply map_empty_subseteq.
    - intros id _. apply lookup_empty.
    - by split_and!. }
  destruct pe; cbn [translateEvent]; intros Htr; try (injection Htr as <- <-; by apply Hid);
    try (injection Htr as <- <-; apply Hfail);
    try (injection Htr as <- <-; split; [done|done|by intros id ?%elem_of_nil|by split_and!]);
    destruct (finish_stream_translated _ _ _ _ _ Htr) as (? & ? & ? & ?); (split; [done|done| |done]);
    intros id ->%list_elem_of_singleton; done.
Qed.

Lemma translateEvents_translated es s evs s' :
  translateEvents es s = (evs, s') -> translated es s evs s'.
Proof.
  revert s evs s'. induction es as [|pe es IH]; intros s evs s'; cbn [translateEvents].
  - intros [= <- <-]. split; [done|done|by intros id ?%elem_of_nil|by split_and!].
  - destruct (translateEvent pe s) as [evs1 s1] eqn:H1, (translateEvents es s1) as [evs2 s2] eqn:H2.
    intros [= <- <-]. destruct (translateEvent_translated _ _ _ _ H1) as [C1 S1 A1 I1].
    destruct (IH _ _ _ H2) as [C2 S2 A2 I2]. split.
    + by rewrite done_app, <- app_assoc, C2.
    + by etrans.
    + intros id. change (pe :: es) with ([pe] ++ es). rewrite answered_app. intros [Hid|Hid]; [|auto].
      eapply lookup_weaken_None; [by apply A1|done].
    + by etrans.
Qed.

Lemma enqueue_all_eq bufs s :
  enqueue_all bufs s = set_outbound (outbound s ++ map (fun b => (b, 0)) bufs) s.
Proof.
  revert s. unfold enqueue_all. induction bufs as [|b bufs IH]; intros s; cbn [fold_left map].
  - rewrite app_nil_r. by destruct s.
  - rewrite IH. unfold enqueueOutbound. cbn. by rewrite <- app_assoc.
Qed.

(** ** Sessions and the protocol's table *)

(** No chunk is written before its beginning. *)
Definition chunk_ok (c : bytes * Z) : Prop := 0 <= snd c.

Lemma chunk_ok_enqueued s bufs : Forall chunk_ok (outbound s) -> Forall chunk_ok (outbound (enqueue_all bufs s)).
Proof.
  intros Hs. rewrite enqueue_all_eq. apply Forall_app_2; [done|].
  induction bufs; constructor; [unfold chunk_ok; cbn; lia|done].
Qed.

(** A context is held for a stream that still waits for its response. *)
Definition held_live (s : t) : Prop :=
  forall id, is_Some (streamContexts s !! id) -> waiting (protocol s) id.

(** [k] bytes may still be received. *)
Record session_ok (k : Z) (s : t) : Prop := {
  sk_protocol : inv (k + buffered (protocol s)) (protocol s);
  sk_live : held_live s;
  sk_transport : started s = true -> is_Some (transport s);
  sk_chunks : Forall chunk_ok (outbound s);
}.

(** A call of the protocol does not forget a waiting stream. *)
Lemma call_answers c k p r p' :
  inv k p -> call_run c p = Ok (r, p') ->
  forall id, waiting p id -> waiting p' id \/ id ∈ answered_ids (StepResult.events r).
Proof.
  intros Hp Hrun id Hid.
  assert (Hrefused : forall p code, answers_ledger (p, []) (p, [responseFailed 0 code])).
  { intros q code j [Hj|Hj]; [by left|by apply elem_of_nil in Hj]. }
  destruct (call_books answers_ledger c p r p' Hrefused Hrun) as [Ha|(request & _ & _ & Ha)]; apply (Ha id); left; cbn.
  - done.
  - eapply waiting_opened; [done|by left].
Qed.

Lemma submit_answers request k p r p' :
  inv k p -> submitRequest request p = Ok (r, p') ->
  (p' = p /\ refused r) \/
  (Request.isValid request = true /\ StepResult.hasSubmittedStream r = true /\
   StepResult.submittedStreamId r = Http2Protocol.nextStreamId p /\ Http2Protocol.nextStreamId p <> 0 /\
   (waiting p' (Http2Protocol.nextStreamId p) \/ Http2Protocol.nextStreamId p ∈ answered_ids (StepResult.events r))).
Proof.
  intros Hp Hrun. destruct (submitRequest_books (on_events answers_ledger) _ _ _ _ Hrun) as [?|(_ & ? & ? & _ & ? & ? & Ha)];
    [by left|right]. split_and!; [done..|]. apply (Ha (Http2Protocol.nextStreamId p)). left. eapply waiting_opened; [done|by right].
Qed.

Lemma translate_live es s evs s' :
  (forall id, is_Some (streamContexts s !! id) -> waiting (protocol s) id \/ id ∈ answered_ids es) ->
  translateEvents es s = (evs, s') -> held_live s'.
Proof.
  intros Hs Htr id [c Hc]. destruct (translateEvents_translated _ _ _ _ Htr) as [_ Hsub Hans (Hp & _)].
  rewrite Hp. destruct (Hs id) as [?|Ha]; [eexists; by eapply lookup_weaken|done|].
  by rewrite (Hans id Ha) in Hc.
Qed.

Definition tolerated (f : fault) : Prop := f = erased_in_loop.

(** Running the protocol inside a session. *)
Lemma on_protocol_step k c s :
  session_ok (k + call_bytes c) s -> call_ok c -> 0 <= k ->
  wp tolerated (on_protocol (call_run c))
    (fun r s' => exists p', s' = set_protocol p' s /\ call_run c (protocol s) = Ok (r, p') /\
       inv (k + buffered p') p' /\
       forall id, waiting (protocol s) id -> waiting p' id \/ id ∈ answered_ids (StepResult.events r)) s.
Proof.
  intros [Hp _ _] Hc Hk. unfold wp, on_protocol.
  assert (Hw : wp tolerated (call_run c) (step_ok k) (protocol s)).
  { eapply (call_step (E := tolerated)); [by left|done|reflexivity|done|]. exact Hp. }
  unfold wp in Hw. destruct (call_run c (protocol s)) as [[r p']|f] eqn:Hrun; [|done].
  exists p'. split; [done|]. split; [done|]. split; [apply Hw|]. by eapply call_answers.
Qed.

(** ... and translating its events. *)
Lemma translate_step k s s0 r p' :
  s0 = set_protocol p' s -> inv (k + buffered p') p' ->
  (forall id, is_Some (streamContexts s !! id) -> waiting p' id \/ id ∈ answered_ids (StepResult.events r)) ->
  (started s = true -> is_Some (transport s)) -> Forall chunk_ok (outbound s) ->
  wp tolerated (translate_result r)
    (fun evs s' => session_ok k s' /\ done_contexts evs ++ held_contexts s' ≡ₚ held_contexts s /\
       protocol s' = p' /\ started s' = started s /\ transport s' = transport s /\ streamContexts s' ⊆ streamContexts s) s0.
Proof.
  intros -> Hp' Hlive Htr Hch. unfold wp, translate_result, consumeStepResult.
  pose proof (chunk_ok_enqueued (set_protocol p' s) (StepResult.outbound r) Hch) as Hch1.
  rewrite enqueue_all_eq in *. set (s1 := set_outbound _ _) in *.
  destruct (translateEvents (StepResult.events r) s1) as [evs s'] eqn:He.
  destruct (translateEvents_translated _ _ _ _ He) as [Hcons Hsub Hans (Hps & Ht & Ho & Hst)].
  split; [|by split_and!]. split.
  - by rewrite Hps.
  - by eapply translate_live in He.
  - rewrite Hst, Ht. exact Htr.
  - by rewrite Ho.
Qed.

Lemma call_translate k c s :
  session_ok (k + call_bytes c) s -> call_ok c -> 0 <= k ->
  wp tolerated (r <- on_protocol (call_run c) ;; translate_result r)
    (fun evs s' => session_ok k s' /\ done_contexts evs ++ held_contexts s' ≡ₚ held_contexts s /\
       started s' = started s /\ transport s' = transport s) s.
Proof.
  intros Hs Hc Hk. wp_step. eapply wp_mono; [by apply on_protocol_step|].
  intros r s0 (p' & -> & _ & Hp' & Ha). eapply wp_mono; [eapply (translate_step k s); [done|done| |apply Hs|apply Hs]|].
  - intros id Hid. apply Ha, Hs, Hid.
  - intros evs s' (? & ? & _ & ? & ? & _). by split_and!.
Qed.

(** ** The methods *)

Lemma finish_stream_ok k s id response evs s' :
  session_ok k s -> finish_stream id response s = (evs, s') -> session_ok k s'.
Proof.
  intros [Hp Hl Ht Hch] Hf. destruct (finish_stream_translated _ _ _ _ _ Hf) as (_ & Hsub & _ & (Hps & Htr & Ho & Hst)).
  split; [by rewrite Hps| |by rewrite Hst, Htr|by rewrite Ho].
  intros j [c Hc]. rewrite Hps. apply Hl. eexists. by eapply lookup_weaken.
Qed.

Lemma cancel_stream_spec k s id :
  session_ok k s -> 0 <= k ->
  wp tolerated (cancel_stream id)
    (fun evs s' => session_ok k s' /\ done_contexts evs ++ held_contexts s' ≡ₚ held_contexts s /\
       started s' = started s /\ transport s' = transport s) s.
Proof.
  intros Hs Hk. unfold cancel_stream. apply (wp_bind_assoc (on_protocol (cancelStream id ErrorCode.CANCEL))). wp_step.
  eapply wp_mono; [apply (call_translate k (CCancel id ErrorCode.CANCEL)); [by rewrite Z.add_0_r|done|done]|].
  intros evs s1 (Hs1 & Hd & Hst & Htr). wp_steps.
  destruct (finish_stream id (Response.customError (bs "Request canceled")) s1) as [done s2] eqn:Hf. wp_steps.
  destruct (finish_stream_translated _ _ _ _ _ Hf) as (Hd2 & _ & _ & (_ & Ht2 & _ & Hst2)).
  split; [by eapply finish_stream_ok|]. rewrite done_app, <- app_assoc, Hd2. split_and!; [done|congruence..].
Qed.

(** Handing back every held context. *)
Lemma failAll_ok k s response :
  inv (k + buffered (protocol s)) (protocol s) -> (started s = true -> is_Some (transport s)) ->
  Forall chunk_ok (outbound s) -> session_ok k (snd (failAllStreams response s)) /\
  held_contexts (snd (failAllStreams response s)) = [].
Proof.
  intros Hp Ht Hch. unfold failAllStreams. cbn [snd]. split; [split; [done| |done|done]|].
  - intros id [c Hc]. cbn in Hc. by rewrite lookup_empty in Hc.
  - unfold held_contexts. cbn. by rewrite map_to_list_empty.
Qed.

Lemma handleTransportFailure_spec k s :
  session_ok k s -> 0 <= k ->
  wp tolerated handleTransportFailure
    (fun evs s' => session_ok k s' /\ done_contexts evs ++ held_contexts s' ≡ₚ held_contexts s /\
       started s' = started s /\ (healthy s = true -> held_contexts s' = []) /\
       (is_Some (transport s) -> is_Some (transport s'))) s.
Proof.
  intros Hs Hk. unfold handleTransportFailure. wp_steps. destruct (healthy s) eqn:Hh; cbn [negb];
    [|apply wp_ret; by split_and!].
  wp_steps. eapply wp_mono.
  { apply (on_protocol_step k CTransportClosed); [|done|done]. rewrite Z.add_0_r. by destruct Hs. }
  intros r s0 (p' & -> & _ & Hp' & _). unfold discard_result, consumeStepResult. wp_steps. rewrite enqueue_all_eq.
  set (s1 := close_transport _).
  assert (Ht : is_Some (transport s) -> is_Some (transport s1)).
  { intros [fd Hfd]. unfold s1, close_transport. cbn. rewrite Hfd. eauto. }
  destruct (failAllStreams_done (Response.failConnectionError (bs "Connection lost")) s1) as [Hd Heq].
  destruct (failAll_ok k s1 (Response.failConnectionError (bs "Connection lost"))) as [Hok Hnil]; [done| |done|].
  { intros Hst. apply Ht, Hs, Hst. }
  destruct (failAllStreams _ s1) as [evs s2] eqn:Hf. cbn [fst snd] in *. wp_steps.
  rewrite done_app, Hd, Hnil, !app_nil_r. split_and!; [done|done|by subst s2|done|].
  intros HT. subst s2. by apply Ht.
Qed.

Lemma discard_spec k c s :
  session_ok (k + call_bytes c) s -> call_ok c -> 0 <= k ->
  wp tolerated (r <- on_protocol (call_run c) ;; discard_result r)
    (fun _ s' => inv (k + buffered (protocol s')) (protocol s') /\ streamContexts s' = streamContexts s /\
       started s' = started s /\ Forall chunk_ok (outbound s') /\ transport s' = transport s) s.
Proof.
  intros Hs Hc Hk. wp_step. eapply wp_mono; [by apply on_protocol_step|].
  intros r s0 (p' & -> & _ & Hp' & _). unfold discard_result, consumeStepResult. wp_steps. cbn [snd].
  pose proof (chunk_ok_enqueued (set_protocol p' s) (StepResult.outbound r) (sk_chunks _ _ Hs)) as Hch.
  rewrite enqueue_all_eq in *. done.
Qed.

Lemma close_spec k s :
  session_ok k s -> 0 <= k ->
  wp tolerated close
    (fun evs s' => session_ok k s' /\ done_contexts evs ++ held_contexts s' ≡ₚ held_contexts s /\
       (started s = true -> held_contexts s' = []) /\ started s' = false) s.
Proof.
  intros Hs Hk. unfold close. wp_steps. destruct (started s) eqn:Hst; cbn [negb];
    [|apply wp_ret; by split_and!].
  do 6 wp_step. apply (wp_bind_assoc (on_protocol ProtocolHandlers.close)). wp_step.
  set (s0 := set_goingAway false _).
  eapply wp_mono; [apply (discard_spec k CClose s0)|].
  { rewrite Z.add_0_r. split; [apply Hs|apply Hs|done|apply Hs]. }
  { done. }
  { done. }
  intros _ s1 (Hp1 & Hc1 & Hst1 & _ & _). wp_steps. set (s2 := set_transport None _).
  destruct (failAllStreams_done (Response.failConnectionError (bs "Connection closed")) s2) as [Hd Heq].
  destruct (failAll_ok k s2 (Response.failConnectionError (bs "Connection closed"))) as [Hok Hnil]; [done| |done|].
  { intros Hst2. unfold s2 in Hst2. cbn in Hst2. by rewrite Hst1 in Hst2. }
  destruct (failAllStreams _ s2) as [evs s3] eqn:Hf. cbn [fst snd] in *. wp_steps.
  rewrite Hnil, app_nil_r, Hd. split_and!; [done| |done|by subst s3]. unfold held_contexts, s2. cbn. by rewrite Hc1.
Qed.

(** *** Reading *)

Definition reads_bytes (reads : list (IOState * bytes)) : Z :=
  fold_right Z.add 0 (map (fun r => zlen (snd r)) reads).

Lemma reads_bytes_nonneg reads : 0 <= reads_bytes reads.
Proof.
  induction reads as [|[io d] reads IH]; [done|]. change (0 <= zlen d + reads_bytes reads).
  pose proof (zlen_nonneg d). lia.
Qed.

(** No read reports the end of the transport. *)
Definition reads_alive (reads : list (IOState * bytes)) : Prop :=
  Forall (fun r => fst r = OK \/ fst r = WOULD_BLOCK) reads.

(** What the loop gives back: nothing is handed back twice and, with
    [alive], every context that left the session is in the events. *)
Definition read_result (k : Z) (s : t) (acc : list SessionEvent) (alive : Prop)
  (evs : list SessionEvent) (s' : t) : Prop :=
  session_ok k s' /\ started s' = started s /\
  done_contexts evs ++ held_contexts s' ⊆+ done_contexts acc ++ held_contexts s /\
  (alive -> done_contexts evs ++ held_contexts s' ≡ₚ done_contexts acc ++ held_contexts s).

Lemma session_ok_mono k k' s : session_ok k s -> 0 <= k' <= k -> session_ok k' s.
Proof.
  intros [Hp Hl Ht Hch] Hk. split; [|done|done|done]. eapply inv_mono; [done|].
  pose proof (zlen_nonneg (FrameCodec.buffer (Http2Protocol.frameCodec (protocol s)))). unfold buffered. lia.
Qed.

Lemma read_loop_spec k reads s acc :
  session_ok (k + reads_bytes reads) s -> 0 <= k ->
  wp tolerated (read_loop reads acc) (read_result k s acc (reads_alive reads)) s.
Proof.
  intros Hs Hk. revert s acc Hs. induction reads as [|[io data] reads IH]; intros s acc Hs; cbn [read_loop].
  { apply wp_ret. cbn in Hs. rewrite Z.add_0_r in Hs. by split_and!. }
  change (reads_bytes ((io, data) :: reads)) with (zlen data + reads_bytes reads) in Hs.
  pose proof (reads_bytes_nonneg reads). pose proof (zlen_nonneg data).
  assert (Hs0 : session_ok k s) by (eapply session_ok_mono; [done|lia]).
  assert (Hfail : (io <> OK /\ io <> WOULD_BLOCK) ->
    wp tolerated handleTransportFailure (read_result k s acc (reads_alive ((io, data) :: reads))) s).
  { intros [? ?]. eapply wp_mono; [by apply handleTransportFailure_spec|].
    intros evs s' (? & Hd & ? & _). split_and!; [done|done|rewrite Hd; by apply submseteq_inserts_l|].
    intros [[?|?] _]%Forall_cons; done. }
  destruct io; [|by apply wp_ret|by apply Hfail|by apply Hfail].
  case_if; [by apply wp_ret|]. apply (wp_bind_assoc (on_protocol (receiveBytes data))). wp_step.
  eapply wp_mono; [apply (call_translate (k + reads_bytes reads) (CReceive data)); [|done|lia]|].
  { cbn [call_bytes]. by replace (k + reads_bytes reads + zlen data) with (k + (zlen data + reads_bytes reads)) by lia. }
  intros evs s1 (Hs1 & Hd & Hst & _). eapply wp_mono; [by apply IH|].
  intros evs' s' (? & ? & Hsub & Hc). rewrite done_app, <- app_assoc, Hd in Hsub, Hc.
  split_and!; [done|congruence|done|]. intros [_ Ha]%Forall_cons. by apply Hc.
Qed.

Lemma onReadable_spec k reads s :
  session_ok (k + reads_bytes reads) s -> 0 <= k ->
  wp tolerated (onReadable reads) (read_result k s [] (reads_alive reads)) s.
Proof.
  intros Hs Hk. pose proof (reads_bytes_nonneg reads). unfold onReadable. wp_steps. case_if.
  - apply wp_ret. split_and!; [eapply session_ok_mono; [done|lia]|done..].
  - wp_step. unfold need_transport, wp at 1. unfold isHealthy in Heqb. bool_to_prop.
    destruct (sk_transport _ _ Hs) as [fd ->]; [done|]. by apply read_loop_spec.
Qed.

(** *** Submitting and cancelling *)

Lemma held_fresh k s : session_ok k s -> streamContexts s !! Http2Protocol.nextStreamId (protocol s) = None.
Proof.
  intros Hs. destruct (streamContexts s !! _) as [c|] eqn:Hc; [|done].
  destruct (sk_live _ _ Hs _ (mk_is_Some _ _ Hc)) as (st & Hst & _).
  by rewrite (fresh_id _ _ (sk_protocol _ _ Hs)) in Hst.
Qed.

(** Whether the protocol takes a request. *)
Definition accepts (request : Request.t) (s : t) : bool :=
  match submitRequest request (protocol s) with Ok (r, _) => StepResult.hasSubmittedStream r | Fault _ => true end.

(** Where the context of a submission goes: handed back, held, or - when the
    protocol refuses the request - nowhere. *)
Definition submit_result (k : Z) (s : t) (request : Request.t) (context : RequestContextPtr)
  (r : list SessionEvent * Z) (s' : t) : Prop :=
  session_ok k s' /\ started s' = started s /\ (isHealthy s = false -> s' = s) /\
  (done_contexts (fst r) ++ held_contexts s' ≡ₚ context :: held_contexts s \/
   isHealthy s = true /\ accepts request s = false /\ r = ([], 0) /\ s' = s).

Lemma held_positive k s id : session_ok k s -> is_Some (streamContexts s !! id) -> 1 <= id.
Proof.
  intros Hs Hid. destruct (sk_live _ _ Hs _ Hid) as (st & Hst & _).
  destruct (v_streams _ _ (proj1 (sk_protocol _ _ Hs)) _ _ Hst). lia.
Qed.

Lemma finish_none id response s : streamContexts s !! id = None -> finish_stream id response s = ([], s).
Proof. unfold finish_stream. by intros ->. Qed.

(** The only event of a refused request names stream 0, which nobody holds. *)
Lemma translate_refused k s r :
  session_ok k s -> refused r -> translate_result r (set_protocol (protocol s) s) = Ok ([], s).
Proof.
  intros Hs [code ->]. unfold translate_result, consumeStepResult. rewrite enqueue_all_eq.
  cbn [StepResult.events StepResult.outbound StepResult.push_event StepResult.empty map app translateEvents translateEvent].
  rewrite finish_none.
  - rewrite app_nil_r. destruct s; cbn. by rewrite app_nil_r.
  - destruct (streamContexts s !! 0) as [c|] eqn:Hc; [|done].
    pose proof (held_positive k s 0 Hs (mk_is_Some _ _ Hc)). lia.
Qed.

Lemma submit_stream_spec k s request context canceled finished :
  session_ok k s -> request_fits request -> 0 <= k ->
  wp tolerated (submit_stream request context canceled finished) (submit_result k s request context) s.
Proof.
  intros Hs Hreq Hk. unfold submit_stream. wp_steps. destruct (isHealthy s) eqn:Hh; cbn [negb].
  2:{ apply wp_ret. split_and!; [done..|]. by left. }
  wp_steps. eapply wp_mono; [apply (on_protocol_step k (CSubmit request)); [by rewrite Z.add_0_r|done|done]|].
  intros r s0 (p' & -> & Hrun & Hp' & Ha). cbn [call_run] in Hrun.
  destruct (submit_answers request _ _ _ _ (sk_protocol _ _ Hs) Hrun) as [(-> & Href)|(_ & Hhas & Hid & Hne & Hw)].
  { assert (Hno : StepResult.hasSubmittedStream r = false) by (destruct Href as [code ->]; done). rewrite Hno.
    wp_steps. unfold wp at 1. rewrite (translate_refused k s r Hs Href). cbn [Z.eqb negb andb]. wp_steps.
    split_and!; [done|done|done|]. right. split; [done|]. split; [|done]. unfold accepts. by rewrite Hrun. }
  rewrite Hhas, Hid. wp_steps. set (id := Http2Protocol.nextStreamId (protocol s)) in *.
  set (s1 := set_streamContexts (<[id := context]> (streamContexts s)) s).
  assert (Hheld : held_contexts s1 ≡ₚ context :: held_contexts s) by (apply held_insert; by eapply held_fresh).
  eapply wp_mono; [apply (translate_step k s1 _ r p'); [done|done| |apply Hs|apply Hs]|].
  { intros j Hj. unfold s1 in Hj. cbn in Hj. destruct (decide (j = id)) as [->|]; [done|].
    rewrite lookup_insert_ne in Hj by done. apply Ha, Hs, Hj. }
  intros evs s2 (Hs2 & Hd & _ & Hst & Htr & _). case_if; wp_steps.
  - eapply wp_mono; [by apply cancel_stream_spec|]. intros evs2 s3 (Hs3 & Hd3 & Hst3 & _). wp_steps.
    split_and!; [done|by rewrite Hst3, Hst|by rewrite Hh|left]. cbn [fst]. by rewrite done_app, <- app_assoc, Hd3, Hd, Hheld.
  - split_and!; [done|done|by rewrite Hh|left]. cbn [fst]. by rewrite Hd, Hheld.
Qed.

(** *** Keep-alive, start and writing *)

Lemma sendPing_spec k s :
  session_ok k s -> 0 <= k ->
  wp tolerated sendPing
    (fun evs s' => evs = [] /\ session_ok k s' /\ streamContexts s' = streamContexts s /\ started s' = started s) s.
Proof.
  intros Hs Hk. unfold sendPing. wp_steps. case_if; [by apply wp_ret|]. wp_steps.
  eapply wp_mono; [apply (on_protocol_step k CPing); [by rewrite Z.add_0_r|done|done]|].
  intros r s0 (p' & -> & Hrun & Hp' & Ha). wp_steps.
  pose proof (chunk_ok_enqueued (set_protocol p' s) (StepResult.outbound r) (sk_chunks _ _ Hs)) as Hch.
  rewrite enqueue_all_eq in *. split_and!; [done| |done|done]. split; [done| |apply Hs|done]. intros id Hid. cbn. cbn in Hid.
  destruct (Ha id (sk_live _ _ Hs id Hid)) as [?|Hans]; [done|].
  assert (Hev : StepResult.events r = []).
  { cbn [call_run] in Hrun. unfold ProtocolHandlers.sendPing, bind, get, modify, ret in Hrun.
    destruct (_ || _); by injection Hrun as <- <-. }
  rewrite Hev in Hans. by apply elem_of_nil in Hans.
Qed.

Lemma session_start_spec k s created inited :
  session_ok k s -> 0 <= k -> (started s = false -> streamContexts s = ∅) ->
  wp tolerated (start created inited)
    (fun _ s' => session_ok k s' /\ streamContexts s' = streamContexts s /\
       (started s = true -> started s' = true)) s.
Proof.
  intros Hs Hk Hempty. unfold start. wp_steps. destruct (started s) eqn:Hst; [by apply wp_ret|].
  assert (Hfail : forall fd, session_ok k (set_transport (Some fd) s)).
  { intros fd. destruct Hs as [? ? _ ?]. split; [done|done|by eexists|done]. }
  destruct created as [fd|]; [|by apply wp_ret]. wp_steps. case_if; [by apply wp_ret|].
  apply (wp_bind_assoc (on_protocol ProtocolHandlers.start)). wp_step.
  eapply wp_mono; [apply (discard_spec k CStart); [by rewrite Z.add_0_r|done|done]|].
  intros _ s1 (Hp1 & Hc1 & Hst1 & Hch1 & Ht1). wp_steps. split; [|done].
  split; [done| |intros _; cbn; rewrite Ht1; by eexists|done].
  intros id [c Hc]. cbn in Hc. rewrite Hc1 in Hc. cbn in Hc. by rewrite (Hempty eq_refl), lookup_empty in Hc.
Qed.

(** The bytes still to be written. *)
Definition unsent (chunks : list (bytes * Z)) : bytes :=
  concat (map (fun c => zdrop (snd c) (fst c)) chunks).

Lemma drop_written_unsent chunks :
  Forall chunk_ok chunks -> unsent (drop_written chunks) = unsent chunks /\ Forall chunk_ok (drop_written chunks).
Proof.
  induction 1 as [|[data offset] chunks Hc Hcs IH]; [done|]. cbn [drop_written]. case_if; [|by split; [|constructor]].
  bool_to_prop. destruct IH as [Hu Hok]. split; [|done]. rewrite Hu. unfold unsent. cbn.
  unfold zdrop at 2. rewrite drop_ge; [done|]. unfold zlen in *. cbn in *. lia.
Qed.

Lemma drop_written_head chunks data offset rest :
  drop_written chunks = (data, offset) :: rest -> offset < zlen data.
Proof.
  induction chunks as [|[d o] chunks IH]; [done|]. cbn [drop_written]. case_if; [done|].
  bool_to_prop. by intros [= <- <- <-].
Qed.

(** Writes report what they took; an orderly transport only succeeds or
    would block. *)
Definition writes_ok (writes : list IOResult) : Prop := Forall (fun w => 0 <= io_bytes w) writes.
Definition writes_alive (writes : list IOResult) : Prop :=
  Forall (fun w => Transport.state w = OK \/ Transport.state w = WOULD_BLOCK) writes.

(** What was sent is the beginning of what was to be sent, in order; unless
    the transport fails the rest is still queued. *)
Definition write_result (k : Z) (s : t) (alive : Prop) (sent : bytes) (s' : t) : Prop :=
  session_ok k s' /\ started s' = started s /\
  sent `prefix_of` unsent (outbound s) /\ held_contexts s' ⊆+ held_contexts s /\
  (alive -> sent ++ unsent (outbound s') = unsent (outbound s) /\ streamContexts s' = streamContexts s).

Lemma unsent_written data offset n chunks :
  0 <= offset -> 0 <= n ->
  ztake n (zdrop offset data) ++ unsent ((data, offset + n) :: chunks) = unsent ((data, offset) :: chunks).
Proof.
  intros. unfold unsent. cbn. rewrite app_assoc. f_equal. rewrite <- zdrop_zdrop by done. apply ztake_zdrop.
Qed.

Lemma write_loop_spec k writes s :
  session_ok k s -> 0 <= k -> writes_ok writes ->
  wp tolerated (write_loop writes) (write_result k s (writes_alive writes)) s.
Proof.
  intros Hs Hk Hw. revert s Hs. induction Hw as [|io writes Hio Hw IH]; intros s Hs; cbn [write_loop]; wp_steps;
    set (s1 := set_outbound (drop_written (outbound s)) s);
    destruct (drop_written_unsent (outbound s) (sk_chunks _ _ Hs)) as [Hu Hch];
    assert (Hs1 : session_ok k s1) by (by destruct Hs);
    assert (Hstop : forall alive, write_result k s alive [] s1) by
      (intros alive; split_and!; [done|done|apply prefix_nil|reflexivity|intros _; split; [exact Hu|done]]);
    destruct (outbound s1) as [|[data offset] chunks] eqn:Ho; try (by apply wp_ret).
  assert (Hfail : Transport.state io <> OK /\ Transport.state io <> WOULD_BLOCK ->
    wp tolerated (handleTransportFailure ;;; ret []) (write_result k s (writes_alive (io :: writes))) s1).
  { intros [? ?]. wp_step. eapply wp_mono; [by apply handleTransportFailure_spec|].
    intros evs s2 (? & Hheld & ? & _). apply wp_ret. split_and!; [done|done|apply prefix_nil| |].
    - change (held_contexts s2 ⊆+ held_contexts s1). rewrite <- Hheld. apply submseteq_inserts_l. reflexivity.
    - intros [[?|?] _]%Forall_cons; done. }
  destruct (Transport.state io) eqn:Hio0; [|by apply wp_ret|by apply Hfail|by apply Hfail].
  change (outbound s1) with (drop_written (outbound s)) in Ho. rewrite Ho in Hu, Hch.
  apply Forall_cons in Hch as [Hoff Hch]. unfold chunk_ok in Hoff. cbn [snd] in Hoff.
  wp_steps. eapply wp_mono; [apply IH; destruct Hs1; split; try done; constructor; [unfold chunk_ok; cbn; lia|done]|].
  intros sent s2 (Hs2 & Hst & Hpre & Hheld & Ha). wp_steps.
  change (outbound (set_outbound _ s1)) with ((data, offset + io_bytes io) :: chunks) in *.
  unfold write_result. rewrite <- Hu, <- (unsent_written data offset (io_bytes io)) by done.
  split_and!; [done|done|by apply prefix_app|done|].
  intros [_ Hal]%Forall_cons. destruct (Ha Hal) as [Hsent Hctx]. split; [by rewrite <- app_assoc, Hsent|done].
Qed.

Lemma onWritable_spec k writes s :
  session_ok k s -> 0 <= k -> writes_ok writes ->
  wp tolerated (onWritable writes) (write_result k s (writes_alive writes)) s.
Proof.
  intros Hs Hk Hw. unfold onWritable. wp_steps. case_if.
  { apply wp_ret. split_and!; [done|done|apply prefix_nil|reflexivity|done]. }
  unfold isHealthy in Heqb. bool_to_prop. wp_step.
  apply wp_mono with (Q := fun _ s' => s' = s); [|intros _ s' ->; by apply write_loop_spec].
  destruct (outbound s); [done|]. unfold need_transport, wp.
  destruct (sk_transport _ _ Hs) as [fd ->]; [|done]. done.
Qed.
End facts.
