(* ===== verification/SessionProps.v ===== *)
(** * Properties of sessions

    Runs of a session against its transport and its protocol: what holds of
    every run, where contexts go, and two places where the code drops a
    completion. *)

From S2P Require Import Prelude Outcome ByteBuffer Types Flow Frame FrameFacts FrameCodec.
From S2P Require Import HeaderRules Hpack ProtocolEvent Stream ProtocolState.
From S2P Require Import Protocol ProtocolHandlers ProtocolInv ProtocolFacts.
From S2P Require Import ProtocolSafety ProtocolOps ProtocolLedger ProtocolRuns.
From S2P Require Import Std RequestContext Transport Session SessionFacts.
Import Http2Session.

Section runs.
Context `{IterOrder} `{!HashOrder Z}.

(** ** Runs *)

Inductive session_call : Type :=
| SStart (created : option Z) (inited : bool)
| SSubmit (request : Request.t) (context : Z)
| SCancel (context : RequestContextPtr)
| SPing
| SReadable (reads : list (IOState * bytes))
| SWritable (writes : list IOResult)
| SClose.

(** Methods that do not look at contexts. *)
Definition on_session {A} (m : st t A) : st (t * Contexts) A := fun '(s, contexts) =>
  let! (a, s) := m s in Ok (a, (s, contexts)).

Definition session_step (c : session_call) : st (t * Contexts) (list SessionEvent) :=
  match c with
  | SStart created inited => on_session (start created inited ;;; ret [])
  | SSubmit request context => submit request (Some context)
  | SCancel context => cancelRequest context
  | SPing => on_session sendPing
  | SReadable reads => on_session (onReadable reads)
  | SWritable writes => on_session (onWritable writes ;;; ret [])
  | SClose => on_session close
  end.

Fixpoint run_session (calls : list session_call) : st (t * Contexts) (list SessionEvent) :=
  match calls with
  | [] => ret []
  | c :: calls' =>
      evs <- session_step c ;;
      evs' <- run_session calls' ;;
      ret (evs ++ evs')
  end.

(** Requests fit the machine integers and contexts exist. *)
Definition session_call_ok (contexts : Contexts) (c : session_call) : Prop :=
  match c with
  | SSubmit request context => request_fits request /\ is_Some (contexts !! context)
  | SCancel (Some context) => is_Some (contexts !! context)
  | SWritable writes => writes_ok writes
  | _ => True
  end.

Definition session_call_bytes (c : session_call) : Z :=
  match c with SReadable reads => reads_bytes reads | _ => 0 end.
Definition session_bytes (calls : list session_call) : Z :=
  fold_right Z.add 0 (map session_call_bytes calls).

Lemma session_bytes_nonneg calls : 0 <= session_bytes calls.
Proof.
  induction calls as [|c calls IH]; [done|].
  change (0 <= session_call_bytes c + session_bytes calls).
  assert (0 <= session_call_bytes c) by (destruct c; cbn; try lia; apply reads_bytes_nonneg). lia.
Qed.

(** The store keeps its contexts. *)
Definition store_grows (C C' : Contexts) : Prop := forall id, is_Some (C !! id) -> is_Some (C' !! id).

(** A session that is not running holds nothing. *)
Definition idle_empty (s : t) : Prop := started s = false -> streamContexts s = ∅.

Definition run_ok (k : Z) (C : Contexts) (sC : t * Contexts) : Prop :=
  session_ok k (fst sC) /\ idle_empty (fst sC) /\ store_grows C (snd sC).

Lemma wp_on_session {A} (m : st t A) Q C s :
  wp tolerated m (fun a s' => Q a (s', C)) s -> wp tolerated (on_session m) Q (s, C).
Proof. unfold wp, on_session. destruct (m s) as [[a s']|f]; done. Qed.

Lemma idle_held s : streamContexts s = ∅ <-> held_contexts s = [].
Proof.
  unfold held_contexts. split; [intros ->; by rewrite map_to_list_empty|].
  intros Hn. apply map_to_list_empty_iff. by destruct (map_to_list (streamContexts s)).
Qed.

(** Nothing is held before, so nothing is held after. *)
Lemma idle_step s s' : idle_empty s -> started s' = started s -> held_contexts s' ⊆+ held_contexts s -> idle_empty s'.
Proof.
  intros Hi Hst Hp Hs'. rewrite Hst in Hs'. apply idle_held. rewrite (proj1 (idle_held s) (Hi Hs')) in Hp.
  by apply submseteq_nil_r.
Qed.

Lemma store_grows_insert C C' id c : store_grows C C' -> store_grows C (<[id := c]> C').
Proof.
  unfold store_grows in *. intros HC j Hj.
  destruct (decide (j = id)) as [->|]; [rewrite lookup_insert_eq; eauto|rewrite lookup_insert_ne by done; auto].
Qed.

(** *** The books of one call *)

(** The context a call hands to the session. *)
Definition taken (c : session_call) : list RequestContextPtr :=
  match c with SSubmit _ context => [Some context] | _ => [] end.

(** The calls the code has answers for: the transport does not fail, the
    protocol takes the request. *)
Definition lossless_call (c : session_call) (s : t) : bool :=
  match c with
  | SReadable reads => forallb (fun r => bool_decide (fst r = OK) || bool_decide (fst r = WOULD_BLOCK)) reads
  | SWritable writes => forallb (fun w => bool_decide (Transport.state w = OK) || bool_decide (Transport.state w = WOULD_BLOCK)) writes
  | SSubmit request _ => negb (isHealthy s) || accepts request s
  | _ => true
  end.

Definition call_books (c : session_call) (s : t) (evs : list SessionEvent) (s' : t) : Prop :=
  done_contexts evs ++ held_contexts s' ⊆+ taken c ++ held_contexts s /\
  (lossless_call c s = true -> done_contexts evs ++ held_contexts s' ≡ₚ taken c ++ held_contexts s).

Lemma books_of_perm c s evs s' :
  done_contexts evs ++ held_contexts s' ≡ₚ taken c ++ held_contexts s -> call_books c s evs s'.
Proof. intros Hp. split; [by rewrite Hp|done]. Qed.

Lemma books_unchanged c s s' : taken c = [] -> streamContexts s' = streamContexts s -> call_books c s [] s'.
Proof. intros Ht Hs. apply books_of_perm. unfold held_contexts. by rewrite Ht, Hs. Qed.

Lemma alive_lossless {A} (io : A -> IOState) (l : list A) :
  forallb (fun a => bool_decide (io a = OK) || bool_decide (io a = WOULD_BLOCK)) l = true ->
  Forall (fun a => io a = OK \/ io a = WOULD_BLOCK) l.
Proof.
  intros Hl. apply Forall_forall. intros a Ha. rewrite forallb_forall in Hl.
  specialize (Hl a (proj1 (list_elem_of_In _ _) Ha)). apply orb_true_iff in Hl as [?%bool_decide_eq_true|?%bool_decide_eq_true]; auto.
Qed.

(** *** One call *)

Definition step_result (k : Z) (C : Contexts) (c : session_call) (s : t)
  (evs : list SessionEvent) (sC' : t * Contexts) : Prop :=
  run_ok k C sC' /\ call_books c s evs (fst sC').

(** The submission, whatever it then writes into the context. *)
Lemma submit_stream_ok k C request context canceled finished s contexts upd :
  run_ok k C (s, contexts) -> request_fits request -> 0 <= k -> (forall r, store_grows C (upd r)) ->
  wp tolerated
    (fun _ => let! (r, s') := submit_stream request (Some context) canceled finished s in Ok (fst r, (s', upd r)))
    (step_result k C (SSubmit request context) s) (s, contexts).
Proof.
  intros (Hs & Hi & _) Hreq Hk Hupd. cbn [fst] in *.
  pose proof (submit_stream_spec k s request (Some context) canceled finished Hs Hreq Hk) as Hw. unfold wp in *.
  destruct (submit_stream request (Some context) canceled finished s) as [[r s']|f]; [|done].
  destruct Hw as (Hs' & Hst & Hsame & Hd). cbn [obind]. split.
  - split_and!; [done| |apply Hupd]. intros Hs0. cbn [fst] in *. rewrite Hst in Hs0.
    rewrite Hsame; [by apply Hi|]. unfold isHealthy. by rewrite Hs0.
  - cbn [fst]. destruct Hd as [Hd|(Hh & Hacc & -> & ->)]; [by apply books_of_perm|]. split.
    + change (held_contexts s ⊆+ Some context :: held_contexts s). by apply submseteq_cons.
    + cbn [lossless_call]. by rewrite Hh, Hacc.
Qed.

Lemma submit_ok k C request context s contexts :
  run_ok k C (s, contexts) -> session_call_ok C (SSubmit request context) -> 0 <= k ->
  wp tolerated (submit request (Some context)) (step_result k C (SSubmit request context) s) (s, contexts).
Proof.
  intros Hr [Hreq Hctx] Hk. pose proof Hr as (_ & _ & HC). cbn [snd] in HC. destruct (HC _ Hctx) as [c Hc].
  unfold wp, submit. case_if.
  - eapply (submit_stream_ok k C request context false false s contexts (fun _ => contexts)); done.
  - unfold deref_context. rewrite Hc. cbn [of_option obind].
    pose proof (submit_stream_ok k C request context (RequestContext.isCanceled c) (RequestContext.isFinished c) s contexts
      (fun r => if snd r =? 0 then contexts else <[context := RequestContext.setStreamId (snd r) c]> contexts) Hr Hreq Hk) as Hw.
    unfold wp in Hw. destruct (submit_stream _ _ _ _ s) as [[[evs id] s']|f]; cbn [obind fst snd] in *; apply Hw;
      intros r; case_if; try done; by apply store_grows_insert.
Qed.

Lemma cancel_ok k C context s contexts :
  run_ok k C (s, contexts) -> session_call_ok C (SCancel context) -> 0 <= k ->
  wp tolerated (cancelRequest context) (step_result k C (SCancel context) s) (s, contexts).
Proof.
  intros Hr Hc Hk. pose proof Hr as (Hs & Hi & HC). cbn [fst snd] in *.
  assert (Hnop : step_result k C (SCancel context) s [] (s, contexts)) by (split; [done|by apply books_unchanged]).
  unfold wp, cancelRequest. destruct context as [id|]; [|done]. destruct (HC _ Hc) as [c Hid].
  unfold deref_context. rewrite Hid. cbn [of_option obind]. case_if; [done|].
  destruct (streamContexts s !! _) as [held|]; [|done].
  pose proof (cancel_stream_spec k s (RequestContext.getStreamId c) Hs Hk) as Hw. unfold wp in Hw.
  destruct (cancel_stream _ s) as [[evs s']|f]; [|done]. destruct Hw as (Hs' & Hd & Hst & _). cbn [obind].
  split; [|by apply books_of_perm]. split_and!; [done| |done]. eapply idle_step; [exact Hi|done|].
  rewrite <- Hd. by apply submseteq_inserts_l.
Qed.

(** Methods that do not touch the contexts. *)
Lemma on_session_ok k C c s contexts (m : st t (list SessionEvent)) :
  run_ok k C (s, contexts) ->
  wp tolerated m (fun evs s' => session_ok k s' /\ idle_empty s' /\ call_books c s evs s') s ->
  wp tolerated (on_session m) (step_result k C c s) (s, contexts).
Proof.
  intros (_ & _ & HC) Hm. apply wp_on_session. eapply wp_mono; [exact Hm|].
  intros evs s' (? & ? & ?). by split.
Qed.

Lemma session_step_ok k C c s contexts :
  run_ok (k + session_call_bytes c) C (s, contexts) -> session_call_ok C c -> 0 <= k ->
  wp tolerated (session_step c) (step_result k C c s) (s, contexts).
Proof.
  intros Hr Hc Hk.
  assert (Hr0 : run_ok k C (s, contexts)).
  { destruct Hr as (Hs & ? & ?). split_and!; [|done|done]. eapply session_ok_mono; [done|].
    enough (0 <= session_call_bytes c) by lia. destruct c; cbn; try lia. apply reads_bytes_nonneg. }
  pose proof Hr0 as (Hs & Hi & _). cbn [fst] in *.
  destruct c as [created inited|request context|context| |reads|writes|]; cbn [session_step].
  - apply on_session_ok; [done|]. wp_step. eapply wp_mono; [by apply session_start_spec|]. intros b s' (? & Hsc & Hst). apply wp_ret.
    split_and!; [done| |by apply books_unchanged]. intros Hs0. rewrite Hsc. apply Hi.
    destruct (started s); [by rewrite Hst in Hs0|done].
  - by apply submit_ok.
  - by apply cancel_ok.
  - apply on_session_ok; [done|]. eapply wp_mono; [by apply sendPing_spec|]. intros evs s' (-> & ? & Hsc & Hst).
    split_and!; [done| |by apply books_unchanged]. intros Hs0. rewrite Hsc. apply Hi. congruence.
  - apply on_session_ok; [done|]. eapply wp_mono; [apply (onReadable_spec k); [apply Hr|done]|]. intros evs s' (? & Hst & Hsub & Ha).
    split_and!; [done| |].
    + eapply idle_step; [done|done|]. change (held_contexts s) with (done_contexts [] ++ held_contexts s). rewrite <- Hsub.
      by apply submseteq_inserts_l.
    + split; [done|]. intros Hl. apply Ha. by apply alive_lossless.
  - apply on_session_ok; [done|]. wp_step. eapply wp_mono; [by apply onWritable_spec|].
    intros sent s' (? & Hst & _ & Hsub & Ha). apply wp_ret. split_and!; [done|by eapply idle_step|]. split; [done|].
    intros Hl. destruct Ha as [_ Ha]; [by apply alive_lossless|]. unfold held_contexts. by rewrite Ha.
  - apply on_session_ok; [done|]. eapply wp_mono; [by apply close_spec|]. intros evs s' (? & Hd & Hnil & Hst).
    split_and!; [done| |by apply books_of_perm]. intros _. apply idle_held.
    destruct (started s) eqn:Hs0; [auto|]. rewrite (proj1 (idle_held s) (Hi Hs0)) in Hd.
    by apply Permutation_nil_r, app_nil in Hd as [_ ?].
Qed.

(** ** Runs *)

Definition submitted (calls : list session_call) : list RequestContextPtr := concat (map taken calls).

(** Every call of the run is lossless. *)
Fixpoint lossless (calls : list session_call) (sC : t * Contexts) : bool :=
  match calls with
  | [] => true
  | c :: calls' =>
      lossless_call c (fst sC) &&
      match session_step c sC with Ok (_, sC') => lossless calls' sC' | Fault _ => true end
  end.

Lemma run_session_ok k C calls sC :
  run_ok (k + session_bytes calls) C sC -> Forall (session_call_ok C) calls -> 0 <= k ->
  wp tolerated (run_session calls)
    (fun evs sC' => run_ok k C sC' /\
       done_contexts evs ++ held_contexts (fst sC') ⊆+ submitted calls ++ held_contexts (fst sC) /\
       (lossless calls sC = true ->
        done_contexts evs ++ held_contexts (fst sC') ≡ₚ submitted calls ++ held_contexts (fst sC))) sC.
Proof.
  intros Hr Hcalls Hk. revert sC Hr. induction Hcalls as [|c calls Hc Hcalls IH]; intros [s contexts] Hr; cbn [run_session].
  { apply wp_ret. change (session_bytes []) with 0 in Hr. rewrite Z.add_0_r in Hr. split_and!; done. }
  change (session_bytes (c :: calls)) with (session_call_bytes c + session_bytes calls) in Hr.
  pose proof (session_bytes_nonneg calls). wp_step.
  assert (Hstep : wp tolerated (session_step c) (step_result (k + session_bytes calls) C c s) (s, contexts)).
  { apply session_step_ok; [|done|lia].
    by replace (k + session_bytes calls + session_call_bytes c) with (k + (session_call_bytes c + session_bytes calls)) by lia. }
  cbn [lossless]. unfold wp in Hstep |- *. cbn [fst] in *.
  destruct (session_step c (s, contexts)) as [[evs1 sC1]|f]; [|done]. destruct Hstep as [Hr1 [Hsub1 Hp1]].
  specialize (IH sC1 Hr1). unfold wp, bind in IH |- *. destruct (run_session calls sC1) as [[evs2 sC2]|f]; [|done].
  destruct IH as (Hr2 & Hsub2 & Hp2). cbn [ret]. split; [done|]. unfold submitted in *. cbn [map concat].
  rewrite done_app, <- !app_assoc. split.
  - etrans; [by apply submseteq_skips_l|]. rewrite (Permutation_app_swap_app (done_contexts evs1)).
    etrans; [by apply submseteq_skips_l|]. by rewrite (Permutation_app_swap_app (concat _)).
  - intros [Hl1 Hl2]%andb_true_iff. rewrite (Hp2 Hl2), (Permutation_app_swap_app (done_contexts evs1)), (Hp1 Hl1).
    by rewrite (Permutation_app_swap_app (concat _)).
Qed.

Lemma make_session_ok config k : ClientConfig.wf config -> 0 <= k <= 2 ^ 31 -> session_ok k (make config).
Proof.
  intros Hconf Hk. split; [|by intros id [c Hc]|done|constructor].
  apply make_inv; [done|]. change (buffered (protocol (make config))) with 0. lia.
Qed.

Lemma session_from_make config C calls :
  ClientConfig.wf config -> Forall (session_call_ok C) calls -> session_bytes calls <= 2 ^ 31 ->
  wp tolerated (run_session calls)
    (fun evs sC => run_ok 0 C sC /\ done_contexts evs ++ held_contexts (fst sC) ⊆+ submitted calls /\
       (lossless calls (make config, C) = true ->
        done_contexts evs ++ held_contexts (fst sC) ≡ₚ submitted calls)) (make config, C).
Proof.
  intros Hconf Hcalls Hb. pose proof (session_bytes_nonneg calls).
  eapply wp_mono; [apply (run_session_ok 0 C calls (make config, C)); [|done|done]|].
  - split_and!; [apply make_session_ok; [done|lia]|by intros _|by intros id].
  - intros evs sC (Hr & Hsub & Hp). change (held_contexts (fst (make config, C))) with (@nil RequestContextPtr) in *.
    rewrite app_nil_r in *. done.
Qed.
End runs.

(** ** Writing *)

(** A chunk that stays at the head has a byte to send. *)
Lemma unsent_head chunks data offset rest :
  drop_written chunks = (data, offset) :: rest -> Forall chunk_ok chunks ->
  0 <= offset < zlen data /\ Forall chunk_ok rest /\
  zlen (unsent ((data, offset) :: rest)) = zlen data - offset + zlen (unsent rest).
Proof.
  intros Hd Hch. pose proof (drop_written_head _ _ _ _ Hd). destruct (drop_written_unsent chunks Hch) as [_ Hok].
  rewrite Hd in Hok. apply Forall_cons in Hok as [Ho Hr]. unfold chunk_ok in Ho. cbn in Ho. split; [lia|]. split; [done|].
  unfold unsent. cbn [map concat fst snd]. rewrite zlen_app, zlen_zdrop; lia.
Qed.

Definition accepted (w : IOResult) : Prop := Transport.state w = OK /\ 0 < io_bytes w.

Lemma write_loop_alive `{IterOrder} `{!HashOrder Z} writes s :
  Forall chunk_ok (outbound s) -> writes_ok writes -> writes_alive writes ->
  exists sent chunks, write_loop writes s = Ok (sent, set_outbound chunks s) /\
    sent ++ unsent chunks = unsent (outbound s) /\
    (Forall accepted writes -> zlen (unsent (outbound s)) <= zlen writes -> chunks = []).
Proof.
  intros Hch Hw. revert s Hch. induction Hw as [|io writes Hio Hw IH]; intros s Hch Hal; cbn [write_loop];
    destruct (drop_written_unsent (outbound s) Hch) as [Hu _]; unfold bind at 1, modify at 1, bind at 1, get at 1;
    change (outbound (set_outbound (drop_written (outbound s)) s)) with (drop_written (outbound s));
    destruct (drop_written (outbound s)) as [|[data offset] chunks] eqn:Ho; rewrite <- Hu;
    try (exists [], []; by split_and!);
    destruct (unsent_head _ _ _ _ Ho Hch) as (Hoff & Hrest & Hlen).
  - exists [], ((data, offset) :: chunks). split_and!; [done..|]. intros _. rewrite Hlen. change (zlen []) with 0.
    pose proof (zlen_nonneg (unsent chunks)). lia.
  - apply Forall_cons in Hal as [Hst Hal]. destruct (Transport.state io) eqn:Hio0; [|
      exists [], ((data, offset) :: chunks); split_and!; [done..|intros [[? ?] _]%Forall_cons; congruence]|
      by destruct Hst|by destruct Hst].
    unfold bind at 1, modify at 1, bind at 1.
    destruct (IH (set_outbound ((data, offset + io_bytes io) :: chunks) s)) as (sent & chunks' & Hrun & Hsent & Hall);
      [constructor; [unfold chunk_ok; cbn; lia|done]|done|].
    change (set_outbound _ (set_outbound ((data, offset) :: chunks) s)) with (set_outbound ((data, offset + io_bytes io) :: chunks) s).
    rewrite Hrun. exists (ztake (io_bytes io) (zdrop offset data) ++ sent), chunks'. split; [done|].
    change (outbound (set_outbound _ s)) with ((data, offset + io_bytes io) :: chunks) in Hsent, Hall.
    rewrite <- (unsent_written data offset (io_bytes io)) in Hlen |- * by lia. split; [by rewrite <- app_assoc, Hsent|].
    intros [[_ Hpos] Hacc]%Forall_cons Hn. apply Hall; [done|]. rewrite zlen_app in Hn, Hlen.
    assert (Htk : 1 <= zlen (ztake (io_bytes io) (zdrop offset data))).
    { unfold zlen, ztake, zdrop. rewrite length_take, length_drop. unfold zlen in Hoff. lia. }
    assert (zlen (io :: writes) = 1 + zlen writes) by (unfold zlen; cbn [length]; lia). lia.
Qed.

(** ** Properties *)

(** C15: a session is safe whatever happens to it.  From construction, over
    any sequence of calls - starting, submitting, cancelling, pings, reads
    and writes with any outcome the transport reports, closing - the session
    returns, dereferences no missing transport or context, and faults only in
    the known loop over erased streams.  At every end every held context
    belongs to a stream of the protocol that still waits for its response;
    a session that is not started, or whose protocol is closed, holds none. *)
Theorem session_safe `{IterOrder} `{!HashOrder Z} config contexts calls :
  ClientConfig.wf config -> Forall (session_call_ok contexts) calls -> session_bytes calls <= 2 ^ 31 ->
  match run_session calls (make config, contexts) with
  | Ok (evs, (s, _)) =>
      held_live s /\ (started s = true -> is_Some (transport s)) /\
      (started s = false \/ Http2Protocol.closed (protocol s) = true -> streamContexts s = ∅)
  | Fault f => f = erased_in_loop
  end.
Proof.
  intros Hconf Hcalls Hb. pose proof (session_from_make config contexts calls Hconf Hcalls Hb) as Hw. unfold wp in Hw.
  destruct (run_session calls _) as [[evs [s C]]|f]; [|done]. destruct Hw as ((Hs & Hi & _) & _). cbn [fst] in *.
  split; [apply Hs|]. split; [apply Hs|]. intros [?|Hcl]; [by apply Hi|]. apply map_empty. intros id.
  destruct (streamContexts s !! id) as [c|] eqn:Hc; [|done].
  destruct (sk_live _ _ Hs id (mk_is_Some _ _ Hc)) as (st & Hst & _).
  by rewrite (proj2 (sk_protocol _ _ Hs) Hcl), lookup_empty in Hst.
Qed.

(** C16: every request is completed at most once, and none is lost unless the
    code drops it.  Over any run the contexts handed back in [REQUEST_DONE]
    events and those still held are distinct submissions (as multisets: a
    submission is never completed twice, nor completed and held).  When
    moreover no read or write failed and the protocol refused no request,
    they are exactly the submissions; once the session is stopped each of
    them has been completed. *)
Theorem session_requests_accounted `{IterOrder} `{!HashOrder Z} config contexts calls :
  ClientConfig.wf config -> Forall (session_call_ok contexts) calls -> session_bytes calls <= 2 ^ 31 ->
  match run_session calls (make config, contexts) with
  | Ok (evs, (s, _)) =>
      done_contexts evs ++ held_contexts s ⊆+ submitted calls /\
      (lossless calls (make config, contexts) = true ->
         done_contexts evs ++ held_contexts s ≡ₚ submitted calls /\
         (started s = false -> done_contexts evs ≡ₚ submitted calls))
  | Fault f => f = erased_in_loop
  end.
Proof.
  intros Hconf Hcalls Hb. pose proof (session_from_make config contexts calls Hconf Hcalls Hb) as Hw. unfold wp in Hw.
  destruct (run_session calls _) as [[evs [s C]]|f]; [|done]. destruct Hw as ((_ & Hi & _) & Hsub & Hp). cbn [fst] in *.
  split; [done|]. intros Hl. split; [auto|]. intros Hs0. specialize (Hp Hl).
  by rewrite (proj1 (idle_held s) (Hi Hs0)), app_nil_r in Hp.
Qed.

(** C27: output is a byte stream.  While the transport accepts or would
    block, [onWritable] changes nothing but the queue, and the bytes the
    transport took followed by those still queued are the bytes that were
    queued: nothing is lost, repeated or reordered, however the transport
    splits the writes.  A healthy session drains its queue after at most one
    accepted write per queued byte. *)
Theorem onWritable_fifo `{IterOrder} `{!HashOrder Z} writes s :
  Forall chunk_ok (outbound s) -> is_Some (transport s) -> writes_ok writes -> writes_alive writes ->
  exists sent chunks, onWritable writes s = Ok (sent, set_outbound chunks s) /\
    sent ++ unsent chunks = unsent (outbound s) /\
    (isHealthy s = true -> Forall accepted writes -> zlen (unsent (outbound s)) <= zlen writes -> chunks = []).
Proof.
  intros Hch [fd Hfd] Hw Hal. unfold onWritable, bind at 1, get at 1. destruct (isHealthy s); cbn [negb].
  - destruct (write_loop_alive writes s Hch Hw Hal) as (sent & chunks & Hrun & Hsent & Hdrain).
    exists sent, chunks. split_and!; [|done|auto]. destruct (outbound s); [done|].
    unfold bind, need_transport. by rewrite Hfd.
  - exists [], (outbound s). split_and!; [by destruct s|done|done].
Qed.

(** A transport failure while reading drops completions.  The events
    gathered from the reads before the failure are discarded, whatever they
    are: [onReadable] answers with those of the failure alone, although the
    contexts of the others have already left the session. *)
Theorem read_failure_drops_events `{IterOrder} `{!HashOrder Z} data reads io s r p :
  isHealthy s = true -> is_Some (transport s) -> data <> [] -> io <> OK -> io <> WOULD_BLOCK ->
  receiveBytes data (protocol s) = Ok (r, p) ->
  let s1 := snd (translateEvents (StepResult.events r) (snd (consumeStepResult r (set_protocol p s)))) in
  onReadable ((OK, data) :: (io, []) :: reads) s = handleTransportFailure s1.
Proof.
  intros Hh [fd Hfd] Hd Hok Hwb Hrun s1. unfold onReadable, bind at 1, get. rewrite Hh. cbn [negb].
  unfold bind at 1, need_transport. rewrite Hfd. cbn [read_loop].
  assert (Hlen : (zlen data =? 0) = false) by (apply Z.eqb_neq; destruct data; [done|unfold zlen; cbn [length]; lia]).
  rewrite Hlen. unfold bind, on_protocol, translate_result. rewrite Hrun. unfold consumeStepResult in s1 |- *. cbn [snd] in s1.
  subst s1. destruct (translateEvents _ _) as [evs s2]. by destruct io.
Qed.

(** The requests a healthy session's protocol refuses. *)
Lemma refuses_request `{IterOrder} request s :
  Http2Protocol.canSubmitRequests (protocol s) = false \/ Request.isValid request = false \/
  Http2Protocol.maxConcurrentStreams (protocol s) <= Http2Protocol.activeStreamCount (protocol s) ->
  accepts request s = false.
Proof.
  intros Hr. unfold accepts, submitRequest, bind, get, ret. destruct (Http2Protocol.canSubmitRequests _); [|done].
  destruct (Request.isValid request); [|done]. cbn [negb]. destruct Hr as [?|[?|Hr]]; [done..|].
  by apply Z.geb_le in Hr as ->.
Qed.

(** C28: a refused request is dropped.  When the protocol refuses a request -
    its header fields are malformed, the connection no longer takes requests,
    or the peer's limit of streams is reached - submitting it to a healthy
    session yields no event and leaves the session and the contexts as they
    were: the request is neither held nor ever completed. *)
Theorem refused_submit_dropped `{IterOrder} `{!HashOrder Z} k request context contexts c s :
  session_ok k s -> isHealthy s = true -> contexts !! context = Some c ->
  Http2Protocol.canSubmitRequests (protocol s) = false \/ Request.isValid request = false \/
    Http2Protocol.maxConcurrentStreams (protocol s) <= Http2Protocol.activeStreamCount (protocol s) ->
  submit request (Some context) (s, contexts) = Ok ([], (s, contexts)).
Proof.
  intros Hs Hh Hc Hr%refuses_request. unfold submit, deref_context. rewrite Hh, Hc. cbn [negb of_option obind].
  unfold submit_stream, bind at 1, get. rewrite Hh. cbn [negb]. unfold bind at 1, on_protocol.
  unfold accepts in Hr. destruct (submitRequest request (protocol s)) as [[r p]|f] eqn:Hrun; [|done]. rewrite Hr.
  destruct (submit_answers request _ _ _ _ (sk_protocol _ _ Hs) Hrun) as [(-> & Href)|(_ & Hhas & _)]; [|congruence].
  unfold bind at 1, ret, bind. by rewrite (translate_refused k s r Hs Href).
Qed.

(** *** A run to apply them to *)

(** Two requests; the first response comes in one read with a PING
    acknowledgement, then the peer goes away. *)
Definition empty_settings : bytes := [x00; x00; x00; x04; x00; x00; x00; x00; x00].
Definition ok_response (id : byte) : bytes := [x00; x00; x01; x01; x05; x00; x00; x00; id; x88].

Definition example_contexts : Contexts :=
  <[1 := RequestContext.init 1 0]> (<[2 := RequestContext.init 2 0]> ∅).

Definition example_session_calls : list session_call :=
  [SStart (Some 5) true; SReadable [(OK, empty_settings)]; SSubmit (example_request []) 1; SSubmit (example_request [x00]) 2;
   SWritable [mk_io OK 7; mk_io OK 17]; SReadable [(OK, ok_response x01); (WOULD_BLOCK, [])]; SPing; SCancel (Some 2); SClose].

Lemma example_session_ok :
  ClientConfig.wf ClientConfig.default /\ Forall (session_call_ok example_contexts) example_session_calls /\
  session_bytes example_session_calls <= 2 ^ 31.
Proof.
  split; [vm_compute; repeat split; discriminate|]. split; [|vm_compute; discriminate].
  repeat (apply Forall_cons_2; [vm_compute; try done|]); try apply Forall_nil_2.
  all: repeat split; eauto; try done. all: repeat constructor; discriminate.
Qed.

(** What the run hands back, what is held, and whether it was lossless. *)
Definition session_summary (calls : list session_call) : option (list RequestContextPtr * list RequestContextPtr * bool) :=
  match run_session calls (make ClientConfig.default, example_contexts) with
  | Ok (evs, (s, _)) =>
      Some (done_contexts evs, held_contexts s, lossless calls (make ClientConfig.default, example_contexts))
  | Fault _ => None
  end.

Example session_completes_both :
  session_summary example_session_calls = Some ([Some 1; Some 2], [], true).
Proof. vm_compute. reflexivity. Qed.

(** The same response, read together with the end of the connection: both
    requests are gone. *)
Example session_loses_response :
  session_summary (take 4 example_session_calls ++ [SReadable [(OK, ok_response x01); (CLOSED_, [])]]) =
    Some ([Some 2], [], false).
Proof. vm_compute. reflexivity. Qed.

(** The session once it is open, and what the protocol then makes of the
    response. *)
Definition example_run : list SessionEvent * (t * Contexts) :=
  match run_session (take 4 example_session_calls) (make ClientConfig.default, example_contexts) with
  | Ok r => r
  | Fault _ => ([], (make ClientConfig.default, example_contexts))
  end.
Definition example_open : t := fst (snd example_run).

Definition example_received : StepResult.t * Http2Protocol.t :=
  match receiveBytes (ok_response x01) (protocol example_open) with
  | Ok rp => rp
  | Fault _ => (StepResult.empty, protocol example_open)
  end.

Lemma example_run_ok :
  run_session (take 4 example_session_calls) (make ClientConfig.default, example_contexts) = Ok example_run.
Proof. vm_compute. reflexivity. Qed.

Lemma example_open_healthy : isHealthy example_open = true.
Proof. vm_compute. reflexivity. Qed.

Lemma session_ok_of_run `{IterOrder} `{!HashOrder Z} config C calls r :
  ClientConfig.wf config -> Forall (session_call_ok C) calls -> session_bytes calls <= 2 ^ 31 ->
  run_session calls (make config, C) = Ok r -> session_ok 0 (fst (snd r)).
Proof.
  intros Hconf Hcalls Hb Hrun. pose proof (session_from_make config C calls Hconf Hcalls Hb) as Hw.
  unfold wp in Hw. rewrite Hrun in Hw. destruct r as [evs sC]. apply Hw.
Qed.

Lemma example_open_ok : session_ok 0 example_open.
Proof.
  destruct example_session_ok as (Hconf & Hcalls & _).
  refine (session_ok_of_run _ _ _ _ Hconf (Forall_take _ 4 _ Hcalls) _ example_run_ok). vm_compute. discriminate.
Qed.

Lemma session_safe_witness :
  match run_session example_session_calls (make ClientConfig.default, example_contexts) with
  | Ok (evs, (s, _)) =>
      held_live s /\ (started s = true -> is_Some (transport s)) /\
      (started s = false \/ Http2Protocol.closed (protocol s) = true -> streamContexts s = ∅)
  | Fault f => f = erased_in_loop
  end.
Proof. apply (session_safe ClientConfig.default example_contexts example_session_calls); apply example_session_ok. Defined.

Lemma session_requests_accounted_witness :
  match run_session example_session_calls (make ClientConfig.default, example_contexts) with
  | Ok (evs, (s, _)) =>
      done_contexts evs ++ held_contexts s ⊆+ submitted example_session_calls /\
      (lossless example_session_calls (make ClientConfig.default, example_contexts) = true ->
         done_contexts evs ++ held_contexts s ≡ₚ submitted example_session_calls /\
         (started s = false -> done_contexts evs ≡ₚ submitted example_session_calls))
  | Fault f => f = erased_in_loop
  end.
Proof.
  apply (session_requests_accounted ClientConfig.default example_contexts example_session_calls); apply example_session_ok.
Defined.

Lemma onWritable_fifo_witness :
  let s := set_outbound [([x00; x01; x02], 1); ([], 0); ([x03], 0)] example_open in
  exists sent chunks, onWritable [mk_io OK 1; mk_io OK 1; mk_io OK 1] s = Ok (sent, set_outbound chunks s) /\
    sent ++ unsent chunks = unsent (outbound s) /\
    (isHealthy s = true -> Forall accepted [mk_io OK 1; mk_io OK 1; mk_io OK 1] ->
     zlen (unsent (outbound s)) <= 3 -> chunks = []).
Proof.
  apply (onWritable_fifo [mk_io OK 1; mk_io OK 1; mk_io OK 1]
    (set_outbound [([x00; x01; x02], 1); ([], 0); ([x03], 0)] example_open)).
  - repeat constructor; discriminate.
  - vm_compute. eauto.
  - repeat constructor; discriminate.
  - repeat constructor.
Defined.

Lemma read_failure_drops_events_witness :
  let s1 := snd (translateEvents (StepResult.events (fst example_received))
                   (snd (consumeStepResult (fst example_received) (set_protocol (snd example_received) example_open)))) in
  onReadable [(OK, ok_response x01); (CLOSED_, [])] example_open = handleTransportFailure s1.
Proof.
  apply (read_failure_drops_events (ok_response x01) [] CLOSED_ example_open (fst example_received) (snd example_received)).
  - vm_compute. reflexivity.
  - vm_compute. eauto.
  - discriminate.
  - discriminate.
  - discriminate.
  - vm_compute. reflexivity.
Defined.

Lemma refused_submit_dropped_witness :
  submit (Request.mk [] []) (Some 2) (example_open, example_contexts) = Ok ([], (example_open, example_contexts)).
Proof.
  apply (refused_submit_dropped 0 (Request.mk [] []) 2 example_contexts (RequestContext.init 2 0) example_open).
  - apply example_open_ok.
  - apply example_open_healthy.
  - reflexivity.
  - right. left. reflexivity.
Defined.
