(* ===== verification/Reactor.v ===== *)
(** * The reactor

    [include/chttp2/reactor.hpp] and [src/reactor.cpp], on Linux: the queue
    of posted tasks, the timers and the table of watched descriptors.  Every
    method holds the reactor's mutex, so each is one step on the record; a
    closure is a value of a type of the client's choice.  The clock, in
    nanoseconds, and the results of the system calls are arguments. *)

From S2P Require Import Prelude Outcome Types Transport.

Definition MILLISECOND : Z := 1000000.

Record TimerItem {H : Type} : Type := mk_timer { due : Z; id : Z; handler : H }.
Record FdContext {F : Type} : Type := mk_fd {
  readHandler : F;
  writeHandler : option F;
  writeEnabled : bool;
}.
Arguments TimerItem : clear implicits.
Arguments mk_timer {H} due id handler.
Arguments FdContext : clear implicits.
Arguments mk_fd {F} readHandler writeHandler writeEnabled.

(** [std::priority_queue] with [TimerItemCompare]: its elements, the top
    first.  Where an element goes among those that are due at the same time
    is the library's business. *)
Definition due_le {H} (a b : TimerItem H) : Prop := due a <= due b.

Class HeapOrder : Type := {
  heap_push {H} : TimerItem H -> list (TimerItem H) -> list (TimerItem H);
  heap_push_perm {H} (x : TimerItem H) l : heap_push x l ≡ₚ x :: l;
  heap_push_sorted {H} (x : TimerItem H) l : StronglySorted due_le l -> StronglySorted due_le (heap_push x l);
}.

Module Reactor.
Section reactor.
Context {Task H F : Type} `{HeapOrder}.

(** [ready]: the descriptors of [setupPlatformPrimitives] are open; [woken]:
    the event descriptor has something to read; [timerfd]: when the timer
    descriptor expires. *)
Record t := mk {
  running : bool;
  ready : bool;
  tasks : list Task;
  timers : list (TimerItem H);
  canceledTimers : gmap Z bool;
  nextTimerId : Z;
  fdContexts : gmap Z (FdContext F);
  woken : bool;
  timerfd : option Z;
}.

Definition init : t := mk false false [] [] ∅ 1 ∅ false None.

Definition set_running v r := mk v (ready r) (tasks r) (timers r) (canceledTimers r) (nextTimerId r) (fdContexts r) (woken r) (timerfd r).
Definition set_ready v r := mk (running r) v (tasks r) (timers r) (canceledTimers r) (nextTimerId r) (fdContexts r) (woken r) (timerfd r).
Definition set_tasks v r := mk (running r) (ready r) v (timers r) (canceledTimers r) (nextTimerId r) (fdContexts r) (woken r) (timerfd r).
Definition set_timers v c r := mk (running r) (ready r) (tasks r) v c (nextTimerId r) (fdContexts r) (woken r) (timerfd r).
Definition set_nextTimerId v r := mk (running r) (ready r) (tasks r) (timers r) (canceledTimers r) v (fdContexts r) (woken r) (timerfd r).
Definition set_fdContexts v r := mk (running r) (ready r) (tasks r) (timers r) (canceledTimers r) (nextTimerId r) v (woken r) (timerfd r).
Definition set_woken v r := mk (running r) (ready r) (tasks r) (timers r) (canceledTimers r) (nextTimerId r) (fdContexts r) v (timerfd r).
Definition set_timerfd v r := mk (running r) (ready r) (tasks r) (timers r) (canceledTimers r) (nextTimerId r) (fdContexts r) (woken r) v.

Definition isRunning (r : t) : bool := running r.

Definition wakeup (r : t) : t := if ready r then set_woken true r else r.
Definition drainWakeupFd (r : t) : t := set_woken false r.

(** ** Starting and stopping *)

(** [opened]: what [setupPlatformPrimitives] returns. *)
Definition start (opened : bool) (r : t) : bool * t :=
  if running r then (true, r)
  else if negb opened then (false, r)
  else (true, set_running true (set_ready true r)).

(** [stop], before and after the worker is joined. *)
Definition stop_request (r : t) : t := if running r then wakeup (set_running false r) else r.

Definition teardownPlatformPrimitives (r : t) : t :=
  set_fdContexts ∅ (set_timerfd None (set_ready false r)).

Definition stop_joined (r : t) : t :=
  set_timers [] ∅ (set_tasks [] (teardownPlatformPrimitives r)).

(** ** Posted tasks *)

Definition post (task : option Task) (r : t) : bool * t :=
  match task with
  | None => (false, r)
  | Some task =>
      if negb (running r) then (false, r)
      else (true, wakeup (set_tasks (tasks r ++ [task]) r))
  end.

(** One iteration of [drainPostedTasks]: the task to run. *)
Definition take_task (r : t) : option Task * t :=
  match tasks r with
  | [] => (None, r)
  | task :: rest => (Some task, set_tasks rest r)
  end.

(** ** Descriptors *)

(** [added], [modified]: whether [epoll_ctl] succeeds. *)
Definition registerFd (fd : Z) (rh wh : option F) (added : bool) (r : t) : bool * t :=
  match rh with
  | None => (false, r)
  | Some rh =>
      if (fd =? INVALID_SOCKET) || negb (running r) then (false, r)
      else
        match fdContexts r !! fd with
        | Some _ => (false, r)
        | None =>
            if negb added then (false, r)
            else (true, set_fdContexts (<[fd := mk_fd rh wh false]> (fdContexts r)) r)
        end
  end.

Definition unregisterFd (fd : Z) (r : t) : bool * t :=
  match fdContexts r !! fd with
  | None => (false, r)
  | Some _ => (true, set_fdContexts (delete fd (fdContexts r)) r)
  end.

Definition enableWrite (fd : Z) (enable modified : bool) (r : t) : bool * t :=
  match fdContexts r !! fd with
  | None => (false, r)
  | Some c =>
      let c := mk_fd (readHandler c) (writeHandler c)
                 (enable && match writeHandler c with Some _ => true | None => false end) in
      (modified, set_fdContexts (<[fd := c]> (fdContexts r)) r)
  end.

(** The handlers an event calls, in order. *)
Definition handleFdEvent (fd : Z) (readable writable error : bool) (r : t) : list F :=
  match fdContexts r !! fd with
  | None => []
  | Some c =>
      if error then [readHandler c]
      else
        (if readable then [readHandler c] else []) ++
        (if writable && writeEnabled c then match writeHandler c with Some h => [h] | None => [] end else [])
  end.

(** ** Timers *)

(** Cancelled timers leave the top of the queue. *)
Fixpoint purge (ts : list (TimerItem H)) (canceled : gmap Z bool) : list (TimerItem H) * gmap Z bool :=
  match ts with
  | [] => ([], canceled)
  | top :: rest =>
      match canceled !! id top with
      | Some true => purge rest (delete (id top) canceled)
      | _ => (ts, canceled)
      end
  end.

Definition armNextTimerLocked (now : Z) (r : t) : t :=
  if negb (ready r) then r
  else
    let '(ts, canceled) := purge (timers r) (canceledTimers r) in
    let r := set_timers ts canceled r in
    match ts with
    | [] => set_timerfd None r
    | top :: _ =>
        let ns := due top - now in
        let ns := if ns <? MILLISECOND then MILLISECOND else ns in
        set_timerfd (Some (now + ns)) r
    end.

Definition scheduleOnce (now timeoutMs : Z) (handler : option H) (r : t) : Z * t :=
  match handler with
  | None => (0, r)
  | Some handler =>
      let timerId := nextTimerId r in
      let r := set_nextTimerId (u64 (nextTimerId r + 1)) r in
      if negb (running r) then (0, r)
      else
        let item := mk_timer (now + Z.max timeoutMs 0 * MILLISECOND) timerId handler in
        let r := set_timers (heap_push item (timers r)) (<[timerId := false]> (canceledTimers r)) r in
        (timerId, armNextTimerLocked now r)
  end.

Definition cancelTimer (now timerId : Z) (r : t) : bool * t :=
  match canceledTimers r !! timerId with
  | None => (false, r)
  | Some _ =>
      (true, armNextTimerLocked now (set_timers (timers r) (<[timerId := true]> (canceledTimers r)) r))
  end.

(** The loop of [fireDueTimers]: the handlers that are due. *)
Fixpoint collect (now : Z) (ts : list (TimerItem H)) (canceled : gmap Z bool)
  : list H * list (TimerItem H) * gmap Z bool :=
  match ts with
  | [] => ([], [], canceled)
  | top :: rest =>
      match canceled !! id top with
      | Some true => collect now rest (delete (id top) canceled)
      | _ =>
          if due top >? now then ([], ts, canceled)
          else
            let '(hs, ts, canceled) := collect now rest (delete (id top) canceled) in
            (handler top :: hs, ts, canceled)
      end
  end.

Definition fireDueTimers (now : Z) (r : t) : list H * t :=
  let '(hs, ts, canceled) := collect now (timers r) (canceledTimers r) in
  (hs, armNextTimerLocked now (set_timers ts canceled r)).
End reactor.
Arguments t : clear implicits.
End Reactor.
