(* ===== verification/ReactorFacts.v ===== *)
(** * The reactor's timers

    The queue with lazy deletion - cancelled timers stay in it until they
    come to the top - refines a finite map from identifiers to deadlines and
    handlers; and the timer descriptor is always armed in time. *)

From S2P Require Import Prelude Outcome Types Transport Reactor.
Import Reactor.

Section facts.
Context {Task H F : Type} `{HeapOrder}.
Implicit Types (r : t Task H F) (ts : list (TimerItem H)) (c : gmap Z bool) (x : TimerItem H).

(** ** The queue and the set of flags *)

Record queue_ok ts c : Prop := {
  qo_sorted : StronglySorted due_le ts;
  qo_nodup : NoDup (map id ts);
  qo_flags k : is_Some (c !! k) <-> k ∈ map id ts;
}.

(** A timer that has been neither cancelled nor fired. *)
Definition live ts c x : Prop := x ∈ ts /\ c !! id x = Some false.

Lemma queue_tail x ts c : queue_ok (x :: ts) c -> queue_ok ts (delete (id x) c).
Proof.
  intros [Hs Hn Hf]. apply StronglySorted_inv in Hs as [Hs _]. apply NoDup_cons in Hn as [Hx Hn].
  split; [done|done|]. intros k. specialize (Hf k). destruct (decide (k = id x)) as [->|Hk].
  - rewrite lookup_delete_eq. split; [by intros []%is_Some_None|done].
  - rewrite lookup_delete_ne by done. rewrite Hf. cbn. rewrite elem_of_cons. tauto.
Qed.

Lemma live_tail x ts c y :
  queue_ok (x :: ts) c -> live ts (delete (id x) c) y <-> live (x :: ts) c y /\ y <> x.
Proof.
  intros [Hs Hn Hf]. apply NoDup_cons in Hn as [Hx Hn]. unfold live. rewrite elem_of_cons.
  assert (Hy : y ∈ ts -> id y <> id x).
  { intros Hy Heq. apply Hx. rewrite <- Heq. apply list_elem_of_fmap. eauto. }
  split.
  - intros [Hin Hc]. specialize (Hy Hin). rewrite lookup_delete_ne in Hc by done.
    split; [tauto|]. by intros ->.
  - intros [[[->|Hin] Hc] Hne]; [done|]. split; [done|]. rewrite lookup_delete_ne; auto. intros Heq. by apply (Hy Hin).
Qed.

Lemma live_head_canceled x ts c y : c !! id x = Some true -> live (x :: ts) c y -> y <> x.
Proof. intros Hc [_ Hl] ->. congruence. Qed.

Lemma head_flag x ts c : queue_ok (x :: ts) c -> c !! id x <> Some true -> c !! id x = Some false.
Proof.
  intros Hq Hne. destruct (proj2 (qo_flags _ _ Hq (id x))) as [b Hb]; [by apply elem_of_cons; left|].
  rewrite Hb in *. by destruct b.
Qed.

(** Purging removes no live timer and leaves one at the top. *)
Lemma purge_spec ts c ts' c' :
  purge ts c = (ts', c') -> queue_ok ts c ->
  queue_ok ts' c' /\ (forall x, live ts' c' x <-> live ts c x) /\
  match ts' with [] => True | x :: _ => live ts' c' x end.
Proof.
  revert c. induction ts as [|x ts IH]; intros c; cbn [purge].
  { intros [= <- <-] Hq. by split_and!. }
  intros Hp Hq. destruct (c !! id x) as [[|]|] eqn:Hx.
  - destruct (IH _ Hp (queue_tail _ _ _ Hq)) as (Hq' & Hl & Hh). split_and!; [done| |done].
    intros y. rewrite Hl, live_tail by done. split; [tauto|]. intros Hy. split; [done|]. by eapply live_head_canceled.
  - injection Hp as <- <-. split_and!; [done|done|]. split; [by apply elem_of_cons; left|done].
  - injection Hp as <- <-. by rewrite (head_flag x ts c Hq) in Hx; [|rewrite Hx].
Qed.

Lemma purge_incl ts c ts' c' x : purge ts c = (ts', c') -> x ∈ ts' -> x ∈ ts.
Proof.
  revert c. induction ts as [|y ts IH]; intros c; cbn [purge]; [by intros [= <- <-]|].
  destruct (c !! id y) as [[|]|]; intros Hp Hx; [right; by eapply IH|by injection Hp as <- <-|by injection Hp as <- <-].
Qed.

Lemma collect_incl now ts c hs ts' c' x : collect now ts c = (hs, ts', c') -> x ∈ ts' -> x ∈ ts.
Proof.
  revert c hs. induction ts as [|y ts IH]; intros c hs; cbn [collect]; [by intros [= <- <- <-]|].
  destruct (collect now ts (delete (id y) c)) as [[hs0 ts0] c0] eqn:Hc.
  destruct (c !! id y) as [[|]|]; [intros [= <- <- <-] Hx; right; by eapply IH| |];
    (destruct (due y >? now); intros [= <- <- <-] Hx; [done|right; by eapply IH]).
Qed.

(** Firing: the live timers that are due, in the order of their deadlines. *)
Lemma collect_spec now ts c hs ts' c' :
  collect now ts c = (hs, ts', c') -> queue_ok ts c ->
  queue_ok ts' c' /\
  (exists fired, hs = map handler fired /\ StronglySorted due_le fired /\ NoDup (map id fired) /\
     forall x, x ∈ fired <-> live ts c x /\ due x <= now) /\
  (forall x, live ts' c' x <-> live ts c x /\ now < due x).
Proof.
  revert c hs. induction ts as [|x ts IH]; intros c hs; cbn [collect].
  { intros [= <- <- <-] Hq. split; [done|]. split; [|intros x; split; [by intros [?%elem_of_nil _]|by intros [[?%elem_of_nil _] _]]].
    exists []. split_and!; [done|constructor|constructor|]. intros x. split; [by intros ?%elem_of_nil|by intros [[? _] _]]. }
  intros Hcol Hq. pose proof (queue_tail _ _ _ Hq) as Hq1. pose proof (live_tail x ts c) as Htl.
  assert (Hafter : forall y, live (x :: ts) c y -> due x <= due y).
  { intros y [[->|Hin]%elem_of_cons _]; [lia|]. destruct Hq as [Hs _ _]. apply StronglySorted_inv in Hs as [_ Hall].
    rewrite Forall_forall in Hall. by apply Hall. }
  destruct (decide (c !! id x = Some true)) as [Hx|Hx].
  - rewrite Hx in Hcol. destruct (IH _ _ Hcol Hq1) as (Hq' & (fired & -> & Hs & Hn & Hfi) & Hl). split; [done|].
    split; [exists fired; split_and!; [done..|]|]; intros y; [rewrite Hfi|rewrite Hl]; rewrite Htl by done;
      (split; [tauto|intros [? ?]; split; [split; [done|by eapply live_head_canceled]|done]]).
  - pose proof (head_flag x ts c Hq Hx) as Hx'. rewrite Hx' in Hcol. destruct (due x >? now) eqn:Hd; bool_to_prop.
    + injection Hcol as <- <- <-. bool_to_prop. split; [done|]. split.
      * exists []. split_and!; [done|constructor|constructor|]. intros y. split; [by intros ?%elem_of_nil|].
        intros [Hy ?]. specialize (Hafter y Hy). lia.
      * intros y. split; [|by intros [? _]]. intros Hy. split; [done|]. specialize (Hafter y Hy). lia.
    + bool_to_prop. destruct (collect now ts (delete (id x) c)) as [[hs0 ts0] c0] eqn:Hc0. injection Hcol as <- <- <-.
      destruct (IH _ _ Hc0 Hq1) as (Hq' & (fired & -> & Hs & Hn & Hfi) & Hl). split; [done|].
      assert (Hlx : live (x :: ts) c x) by (split; [by apply elem_of_cons; left|done]).
      split.
      * exists (x :: fired). split; [done|]. split; [|split].
        -- constructor; [done|]. apply Forall_forall. intros y Hy. apply Hfi in Hy as [Hy _]. apply Htl in Hy as [Hy _]; [|done].
           by apply Hafter.
        -- cbn. apply NoDup_cons. split; [|done]. intros (y & Heq & Hy)%list_elem_of_fmap.
           apply Hfi in Hy as [[_ Hy] _]. by rewrite <- Heq, lookup_delete_eq in Hy.
        -- intros y. rewrite elem_of_cons, Hfi, Htl by done. split.
           ++ intros [->|[[? ?] ?]]; [by split|by split].
           ++ intros [Hy Hn0]. destruct (decide (id y = id x)) as [Heq|Hne].
              ** left. destruct Hy as [[->|Hin]%elem_of_cons _]; [done|]. destruct Hq as [_ Hnd _].
                 apply NoDup_cons in Hnd as [Hnx _]. destruct Hnx. rewrite <- Heq. apply list_elem_of_fmap. eauto.
              ** right. split; [|done]. split; [done|]. by intros ->.
      * intros y. rewrite Hl, Htl by done. split; [tauto|]. intros [Hy ?]. split; [|done]. split; [done|]. intros ->. lia.
Qed.

(** ** The map of pending timers *)

Definition entry x : Z * (Z * H) := (id x, (due x, handler x)).
Definition pending r : gmap Z (Z * H) :=
  list_to_map (map entry (filter (fun x => canceledTimers r !! id x = Some false) (timers r))).

Record timers_ok r : Prop := {
  tk_queue : queue_ok (timers r) (canceledTimers r);
  tk_ids x : x ∈ timers r -> 1 <= id x < nextTimerId r;
  tk_next : 1 <= nextTimerId r;
}.

Definition is_live r x : Prop := live (timers r) (canceledTimers r) x.

Lemma NoDup_filter_ids (P : TimerItem H -> Prop) `{!forall x, Decision (P x)} ts :
  NoDup (map id ts) -> NoDup (map id (filter P ts)).
Proof.
  induction ts as [|x ts IH]; [done|]. cbn [map]. intros [Hx Hn]%NoDup_cons. rewrite filter_cons. case_decide; [|auto].
  cbn [map]. apply NoDup_cons. split; [|auto]. intros (y & Heq & [_ Hy]%list_elem_of_filter)%list_elem_of_fmap. apply Hx, list_elem_of_fmap. eauto.
Qed.

Lemma pending_lookup r k d h :
  timers_ok r -> pending r !! k = Some (d, h) <-> is_live r (mk_timer d k h).
Proof.
  intros [Hq _ _]. unfold pending. rewrite <- elem_of_list_to_map.
  - unfold is_live, live. rewrite list_elem_of_fmap. split.
    + intros ([d0 k0 h0] & [= <- <- <-] & Hx). apply list_elem_of_filter in Hx as [? ?]. done.
    + intros [Hin Hc]. exists (mk_timer d k h). split; [done|]. by apply list_elem_of_filter.
  - rewrite <- list_fmap_compose. change (NoDup (map id (filter (fun x => canceledTimers r !! id x = Some false) (timers r)))).
    apply NoDup_filter_ids, Hq.
Qed.

(** Two states with the same live timers. *)
Lemma pending_ext r' m :
  timers_ok r' -> (forall k d h, is_live r' (mk_timer d k h) <-> m !! k = Some (d, h)) -> pending r' = m.
Proof.
  intros Hr' Hl. apply map_eq. intros k. apply option_eq. intros [d h]. by rewrite pending_lookup, Hl.
Qed.

(** *** Arming *)

Definition armed (now : Z) r : Prop :=
  forall k d h, pending r !! k = Some (d, h) ->
  exists e, timerfd r = Some e /\ e <= Z.max d (now + MILLISECOND).

Lemma arm_spec now r :
  timers_ok r -> ready r = true ->
  let r' := armNextTimerLocked now r in
  timers_ok r' /\ (forall x, is_live r' x <-> is_live r x) /\ armed now r' /\
  running r' = running r /\ ready r' = true /\ nextTimerId r' = nextTimerId r.
Proof.
  intros [Hq Hids Hnext] Hready. unfold armNextTimerLocked. rewrite Hready. cbn [negb].
  destruct (purge (timers r) (canceledTimers r)) as [ts c] eqn:Hp.
  destruct (purge_spec _ _ _ _ Hp Hq) as (Hq' & Hl & Hh).
  set (r' := set_timers ts c r).
  assert (Hok : timers_ok r') by (split; [done|intros x Hx; eapply Hids, purge_incl; done|done]).
  assert (Hlive : forall x, is_live r' x <-> is_live r x) by exact Hl.
  assert (Hfd : forall e, timers_ok (set_timerfd e r')) by (intros e; by destruct Hok).
  destruct ts as [|top rest]; cbv zeta; fold r'.
  - by split_and!.
  - split_and!; try done. intros k d h Hk. apply pending_lookup in Hk as [Hk _]; [|done]. eexists. split; [done|].
    assert (due top <= d).
    { destruct Hq' as [Hs _ _]. apply StronglySorted_inv in Hs as [_ Hall]. rewrite Forall_forall in Hall.
      apply elem_of_cons in Hk as [Hk|Hk]; [subst top; done|]. exact (Hall _ Hk). }
    case_if; bool_to_prop; lia.
Qed.

(** *** The operations *)

Inductive timer_op : Type :=
| Schedule (now timeoutMs : Z) (h : H)
| Cancel (now timerId : Z)
| Fire (now : Z).

Inductive timer_out : Type :=
| Scheduled (timerId : Z)
| Canceled (found : bool)
| Fired (hs : list H).

Definition op_time (op : timer_op) : Z := match op with Schedule now _ _ | Cancel now _ | Fire now => now end.

Definition timer_step (op : timer_op) r : timer_out * t Task H F :=
  match op with
  | Schedule now timeoutMs h => let '(k, r) := scheduleOnce now timeoutMs (Some h) r in (Scheduled k, r)
  | Cancel now k => let '(b, r) := cancelTimer now k r in (Canceled b, r)
  | Fire now => let '(hs, r) := fireDueTimers now r in (Fired hs, r)
  end.

(** The specification, on maps. *)
Definition timer_spec (m : gmap Z (Z * H)) (op : timer_op) (out : timer_out) (m' : gmap Z (Z * H)) : Prop :=
  match op, out with
  | Schedule now timeoutMs h, Scheduled k =>
      k <> 0 /\ m !! k = None /\ m' = <[k := (now + Z.max timeoutMs 0 * MILLISECOND, h)]> m
  | Cancel now k, Canceled found => m' = delete k m /\ (is_Some (m !! k) -> found = true)
  | Fire now, Fired hs =>
      exists fired : list (TimerItem H), hs = map handler fired /\ StronglySorted due_le fired /\ NoDup (map id fired) /\
        (forall x, x ∈ fired <-> m !! id x = Some (due x, handler x) /\ due x <= now) /\
        m' = filter (fun kv => now < kv.2.1) m
  | _, _ => False
  end.

Lemma armed_later now now' r : armed now r -> now <= now' -> armed now' r.
Proof. intros Ha Hn k d h Hk. destruct (Ha k d h Hk) as (e & ? & ?). exists e. split; [done|]. lia. Qed.

Definition working r : Prop := timers_ok r /\ running r = true /\ ready r = true.

(** The queue with a new timer. *)
Lemma schedule_queue d h r :
  timers_ok r ->
  timers_ok (set_timers (heap_push (mk_timer d (nextTimerId r) h) (timers r)) (<[nextTimerId r := false]> (canceledTimers r))
               (set_nextTimerId (nextTimerId r + 1) r)) /\ canceledTimers r !! nextTimerId r = None.
Proof.
  intros Hok. pose proof (tk_next _ Hok) as Hpos. pose proof (tk_queue _ Hok) as Hq.
  assert (Hfresh : canceledTimers r !! nextTimerId r = None).
  { apply eq_None_not_Some. rewrite (qo_flags _ _ Hq). intros (x & Hx & Hin)%list_elem_of_fmap.
    apply (tk_ids _ Hok) in Hin. lia. }
  set (item := mk_timer _ _ h).
  assert (Hids : map id (heap_push item (timers r)) ≡ₚ nextTimerId r :: map id (timers r)) by (by rewrite heap_push_perm).
  split; [|done]. split; cbn; [|intros x; rewrite heap_push_perm, elem_of_cons; intros [->|Hx]; cbn|lia].
  - split; [apply heap_push_sorted, Hq| |].
    + rewrite Hids. apply NoDup_cons. split; [|apply Hq]. rewrite <- (qo_flags _ _ Hq), Hfresh. by intros []%is_Some_None.
    + intros k. rewrite Hids, elem_of_cons, <- (qo_flags _ _ Hq). destruct (decide (k = nextTimerId r)) as [->|Hk].
      * rewrite lookup_insert_eq. split; eauto.
      * rewrite lookup_insert_ne by done. tauto.
  - lia.
  - apply (tk_ids _ Hok) in Hx. lia.
Qed.

(** The queue with one timer cancelled, and without those that are due. *)
Lemma cancel_queue k b r :
  timers_ok r -> canceledTimers r !! k = Some b ->
  timers_ok (set_timers (timers r) (<[k := true]> (canceledTimers r)) r).
Proof.
  intros Hok Hk. pose proof (tk_queue _ Hok) as Hq. split; [|apply Hok|apply Hok]. split; [apply Hq|apply Hq|]. intros j.
  change (timers (set_timers _ _ _)) with (timers r). rewrite <- (qo_flags _ _ Hq). cbn.
  destruct (decide (j = k)) as [->|]; [rewrite lookup_insert_eq, Hk; split; eauto|by rewrite lookup_insert_ne].
Qed.

Lemma collect_queue now r hs ts c :
  collect now (timers r) (canceledTimers r) = (hs, ts, c) -> timers_ok r -> timers_ok (set_timers ts c r).
Proof.
  intros Hc [Hq Hid Hn]. split; cbn; [by apply (collect_spec _ _ _ _ _ _ Hc Hq)| |done].
  intros x Hx. apply Hid. by eapply collect_incl.
Qed.

Lemma schedule_spec now timeoutMs h r :
  working r -> nextTimerId r + 1 < 2 ^ 64 ->
  let '(k, r') := scheduleOnce now timeoutMs (Some h) r in
  working r' /\ armed now r' /\ nextTimerId r' = nextTimerId r + 1 /\
  timer_spec (pending r) (Schedule now timeoutMs h) (Scheduled k) (pending r').
Proof.
  intros (Hok & Hrun & Hready) Hnext. unfold scheduleOnce. cbv zeta.
  change (running (set_nextTimerId _ r)) with (running r). rewrite Hrun. cbn [negb].
  pose proof (tk_next _ Hok) as Hpos. assert (Hu : u64 (nextTimerId r + 1) = nextTimerId r + 1) by (apply u64_small; lia).
  rewrite Hu. cbn [timers canceledTimers set_nextTimerId].
  destruct (schedule_queue (now + Z.max timeoutMs 0 * MILLISECOND) h r Hok) as [Hok1 Hfresh].
  set (item := mk_timer _ _ h) in *. set (r1 := set_timers _ _ _) in *.
  assert (Hin : forall x, x ∈ timers r1 <-> x = item \/ x ∈ timers r) by (intros x; cbn; by rewrite heap_push_perm, elem_of_cons).
  destruct (arm_spec now r1 Hok1 Hready) as (Hok2 & Hl2 & Ha2 & Hr2 & Hrd2 & Hn2).
  split; [unfold working; split_and!; [done|by rewrite Hr2|done]|]. split; [done|]. split; [rewrite Hn2; cbn; lia|].
  split; [lia|]. split.
  { apply eq_None_not_Some. intros [[d h'] Hk]. apply pending_lookup in Hk as [_ Hk]; [|done]. cbn in Hk. congruence. }
  apply pending_ext; [done|]. intros k d h'. rewrite Hl2, lookup_insert_Some, pending_lookup by done. unfold is_live, live.
  rewrite Hin. cbn. rewrite lookup_insert_Some. split.
  - intros [[Hitem|Hx] Hc]; [injection Hitem as -> -> ->; by left|]. right.
    assert (k <> nextTimerId r) by (intros ->; apply (tk_ids _ Hok) in Hx; cbn in Hx; lia).
    split; [done|]. destruct Hc as [[? _]|[_ ?]]; done.
  - intros [[<- [= <- <-]]|[Hk [Hx Hc]]]; split; auto.
Qed.

(** The fields the timers do not share. *)
Definition rest r := (running r, ready r, tasks r, nextTimerId r, fdContexts r, woken r).

Lemma arm_rest now r : rest (armNextTimerLocked now r) = rest r.
Proof.
  unfold armNextTimerLocked. destruct (ready r) eqn:Hr; [|done]. cbn [negb].
  destruct (purge (timers r) (canceledTimers r)) as [[|top ts] c]; unfold rest; cbn; by rewrite Hr.
Qed.

Lemma cancel_rest now k r : rest (snd (cancelTimer now k r)) = rest r.
Proof. unfold cancelTimer. destruct (canceledTimers r !! k); cbn [snd]; [by rewrite arm_rest|done]. Qed.

(** Cancelling removes the timer, if it is still pending. *)
Lemma cancel_pending now k r :
  timers_ok r -> ready r = true ->
  let '(found, r') := cancelTimer now k r in
  timers_ok r' /\ pending r' = delete k (pending r) /\ (armed now r -> armed now r') /\
  (is_Some (pending r !! k) -> found = true).
Proof.
  intros Hok Hready. pose proof (tk_queue _ Hok) as Hq. unfold cancelTimer.
  destruct (canceledTimers r !! k) as [b|] eqn:Hk.
  - set (r1 := set_timers _ _ r).
    assert (Hok1 : timers_ok r1) by (by eapply cancel_queue).
    destruct (arm_spec now r1 Hok1 Hready) as (Hok2 & Hl2 & Ha2 & _).
    split_and!; [done| |done|done].
    apply pending_ext; [done|]. intros j d h. rewrite Hl2, lookup_delete_Some, pending_lookup by done. unfold is_live, live.
    cbn. rewrite lookup_insert_Some. split; [|tauto]. intros [? [[_ ?]|[? ?]]]; done.
  - assert (Hnone : pending r !! k = None).
    { apply eq_None_not_Some. intros [[d h] Hp]. apply pending_lookup in Hp as [_ Hp]; [|done]. cbn in Hp. congruence. }
    split_and!; [done|by rewrite delete_id|done|]. rewrite Hnone. by intros []%is_Some_None.
Qed.

Lemma cancel_spec now k r :
  working r -> armed now r ->
  let '(found, r') := cancelTimer now k r in
  working r' /\ armed now r' /\ nextTimerId r' = nextTimerId r /\
  timer_spec (pending r) (Cancel now k) (Canceled found) (pending r').
Proof.
  intros (Hok & Hrun & Hready) Ha. pose proof (cancel_pending now k r Hok Hready) as Hc.
  pose proof (cancel_rest now k r) as Hr. destruct (cancelTimer now k r) as [found r']. injection Hr as Hrun' Hready' _ Hn _ _.
  destruct Hc as (? & ? & ? & ?). unfold working. rewrite Hrun', Hready', Hn. split_and!; [done..|auto|done|done].
Qed.

Lemma fire_pending now r :
  timers_ok r -> ready r = true ->
  let '(hs, r') := fireDueTimers now r in
  timers_ok r' /\ armed now r' /\ rest r' = rest r /\ timer_spec (pending r) (Fire now) (Fired hs) (pending r').
Proof.
  intros Hok Hready. unfold fireDueTimers.
  destruct (collect now (timers r) (canceledTimers r)) as [[hs ts] c] eqn:Hc.
  destruct (collect_spec _ _ _ _ _ _ Hc (tk_queue _ Hok)) as (Hq' & (fired & -> & Hs & Hn & Hf) & Hl).
  set (r1 := set_timers ts c r).
  assert (Hok1 : timers_ok r1) by (by eapply collect_queue).
  destruct (arm_spec now r1 Hok1 Hready) as (Hok2 & Hl2 & Ha2 & _ & _ & _).
  split_and!; [done|done|by rewrite arm_rest|]. exists fired. split_and!; [done..| |].
  - intros x. rewrite Hf, pending_lookup by done. by destruct x.
  - apply pending_ext; [done|]. intros k d h. rewrite Hl2, map_lookup_filter_Some, pending_lookup by done. apply Hl.
Qed.

Lemma fire_spec now r :
  working r ->
  let '(hs, r') := fireDueTimers now r in
  working r' /\ armed now r' /\ nextTimerId r' = nextTimerId r /\
  timer_spec (pending r) (Fire now) (Fired hs) (pending r').
Proof.
  intros (Hok & Hrun & Hready). pose proof (fire_pending now r Hok Hready) as Hf.
  destruct (fireDueTimers now r) as [hs r']. destruct Hf as (? & ? & Hrest & ?). unfold rest in Hrest.
  injection Hrest as ? ? _ ? _ _. unfold working. split_and!; [done|congruence..|done|congruence|done].
Qed.

(** What scheduling leaves alone, and the identifier it returns. *)
Lemma schedule_rest now ms h r :
  let '(k, r') := scheduleOnce now ms (Some h) r in
  k = (if running r then nextTimerId r else 0) /\ running r' = running r /\ ready r' = ready r /\ tasks r' = tasks r /\
  fdContexts r' = fdContexts r.
Proof.
  unfold scheduleOnce. cbv zeta. change (running (set_nextTimerId _ r)) with (running r). destruct (running r) eqn:Hr; cbn [negb].
  - set (r1 := set_timers _ _ _). pose proof (arm_rest now r1) as Ha. unfold rest in Ha. injection Ha as -> -> -> _ -> _. done.
  - done.
Qed.

(** A sequence of operations, with its outcomes. *)
Fixpoint timer_run (ops : list timer_op) r : list timer_out * t Task H F :=
  match ops with
  | [] => ([], r)
  | op :: ops' =>
      let '(out, r) := timer_step op r in
      let '(outs, r) := timer_run ops' r in
      (out :: outs, r)
  end.

Inductive spec_run : gmap Z (Z * H) -> list timer_op -> list timer_out -> gmap Z (Z * H) -> Prop :=
| spec_nil m : spec_run m [] [] m
| spec_cons m m' m'' op ops out outs :
    timer_spec m op out m' -> spec_run m' ops outs m'' -> spec_run m (op :: ops) (out :: outs) m''.

Lemma timer_step_ok op now0 r :
  working r -> armed now0 r -> now0 <= op_time op -> nextTimerId r + 1 < 2 ^ 64 ->
  let '(out, r') := timer_step op r in
  working r' /\ armed (op_time op) r' /\ nextTimerId r' <= nextTimerId r + 1 /\
  timer_spec (pending r) op out (pending r').
Proof.
  intros Hw Ha Hnow Hnext. destruct op as [now ms h|now k|now]; cbn [timer_step op_time] in *.
  - pose proof (schedule_spec now ms h r Hw Hnext) as Hs. destruct (scheduleOnce now ms (Some h) r).
    destruct Hs as (? & ? & ? & ?). split_and!; [done|done|lia|done].
  - pose proof (cancel_spec now k r Hw (armed_later _ _ _ Ha Hnow)) as Hs. destruct (cancelTimer now k r).
    destruct Hs as (? & ? & ? & ?). split_and!; [done|done|lia|done].
  - pose proof (fire_spec now r Hw) as Hs. destruct (fireDueTimers now r).
    destruct Hs as (? & ? & ? & ?). split_and!; [done|done|lia|done].
Qed.

Definition last_time (now0 : Z) (ops : list timer_op) : Z := fold_left (fun _ op => op_time op) ops now0.

Lemma timer_run_ok ops now0 r :
  working r -> armed now0 r -> Sorted Z.le (now0 :: map op_time ops) -> nextTimerId r + zlen ops < 2 ^ 64 ->
  let '(outs, r') := timer_run ops r in
  working r' /\ armed (last_time now0 ops) r' /\ spec_run (pending r) ops outs (pending r').
Proof.
  revert now0 r. induction ops as [|op ops IH]; intros now0 r Hw Ha Hs Hn; cbn [timer_run].
  { split_and!; [done|done|constructor]. }
  cbn [map] in Hs. apply Sorted_inv in Hs as [Hs Hhd]. apply HdRel_inv in Hhd.
  rewrite zlen_cons in Hn. pose proof (zlen_nonneg ops).
  pose proof (timer_step_ok op now0 r Hw Ha Hhd ltac:(lia)) as Hop.
  destruct (timer_step op r) as [out r1]. destruct Hop as (Hw1 & Ha1 & Hn1 & Hsp).
  specialize (IH (op_time op) r1 Hw1 Ha1 Hs ltac:(lia)). destruct (timer_run ops r1) as [outs r2].
  destruct IH as (? & ? & ?). split_and!; [done|done|by econstructor].
Qed.
End facts.

(** Such an order: first come, first served among equals. *)
Fixpoint insert_due {H} (x : TimerItem H) (l : list (TimerItem H)) : list (TimerItem H) :=
  match l with
  | [] => [x]
  | y :: l' => if due x <? due y then x :: l else y :: insert_due x l'
  end.

Lemma insert_due_perm {H} (x : TimerItem H) l : insert_due x l ≡ₚ x :: l.
Proof.
  induction l as [|y l IH]; [done|]. cbn [insert_due]. case_if; [done|]. by rewrite IH, Permutation_swap.
Qed.

Lemma insert_due_sorted {H} (x : TimerItem H) l :
  StronglySorted due_le l -> StronglySorted due_le (insert_due x l).
Proof.
  unfold due_le. induction 1 as [|y l Hs IH Hall]; cbn [insert_due]; [by repeat constructor|].
  case_if; bool_to_prop.
  - constructor; [by constructor|]. constructor; [lia|]. eapply Forall_impl; [exact Hall|]. cbn. lia.
  - constructor; [done|]. rewrite insert_due_perm. by constructor; [lia|].
Qed.

#[export] Instance fifo_heap : HeapOrder := {
  heap_push H x l := insert_due x l;
  heap_push_perm H := insert_due_perm;
  heap_push_sorted H := insert_due_sorted;
}.

(** ** Properties *)

(** C29: the timer queue is a map of deadlines.  Over any sequence of
    [scheduleOnce], [cancelTimer] and [fireDueTimers] calls on a started
    reactor at increasing times, the queue with its lazily deleted entries
    behaves as a finite map: scheduling returns a fresh identifier and adds
    one binding, cancelling removes exactly that one, firing returns the
    handlers of exactly the bindings that are due, earliest first, and
    removes them.  And no deadline is slept through: the timer descriptor
    expires no later than each pending deadline, or one millisecond after the
    last operation. *)
Theorem timers_refine_map {Task H F} `{HeapOrder} (ops : list (timer_op (H := H))) now0 :
  Sorted Z.le (now0 :: map op_time ops) -> zlen ops < 2 ^ 64 - 1 ->
  let '(outs, r) := timer_run ops (snd (start true (init (Task := Task) (F := F)))) in
  spec_run ∅ ops outs (pending r) /\ armed (last_time now0 ops) r.
Proof.
  intros Hs Hn. set (r0 := snd _).
  assert (Hq : queue_ok (timers r0) (canceledTimers r0)).
  { split; [constructor|constructor|]. intros k. split; [by intros []%is_Some_None|by intros ?%elem_of_nil]. }
  assert (Hw : working r0) by (split; [split; [done|by intros x ?%elem_of_nil|cbn; lia]|done]).
  pose proof (timer_run_ok ops now0 r0 Hw) as Hrun. destruct (timer_run ops r0) as [outs r].
  destruct Hrun as (_ & Ha & Hsp); [by intros k d h Hk|done|cbn; lia|]. done.
Qed.

Definition example_ops : list (timer_op (H := nat)) :=
  [Schedule 0 5 1%nat; Schedule 0 3 2%nat; Schedule 10 (-1) 3%nat; Cancel 20 2; Fire (4 * MILLISECOND); Fire (6 * MILLISECOND)].

(** The cancelled timer never fires; the others do, in order. *)
Example example_ops_outcomes :
  fst (timer_run example_ops (snd (start true (init (Task := unit) (F := unit))))) =
    [Scheduled 1; Scheduled 2; Scheduled 3; Canceled true; Fired [3%nat]; Fired [1%nat]].
Proof. vm_compute. reflexivity. Qed.

Lemma timers_refine_map_witness :
  let '(outs, r) := timer_run example_ops (snd (start true (init (Task := unit) (F := unit)))) in
  spec_run ∅ example_ops outs (pending r) /\ armed (last_time 0 example_ops) r.
Proof.
  apply (timers_refine_map example_ops 0); [|vm_compute; reflexivity].
  repeat constructor; vm_compute; discriminate.
Defined.
