(* ===== verification/Pollers.v ===== *)
(** * The reactor's three platforms

    The platform sections of [src/reactor.cpp] and of [reactor.hpp]: the
    descriptors a reactor waits with on Linux (epoll, eventfd, timerfd), macOS
    (kqueue and a pipe) and Windows (select and a pair of sockets), how it is
    woken, how the next timer is armed, and what a turn of its loop does with
    what the wait reports.  [Reactor.v] is the Linux variant with its
    descriptors abstracted into flags; the table of watched descriptors, which
    [teardownPlatformPrimitives] also clears, is there. *)

From S2P Require Import Prelude Outcome Types Transport Reactor ReactorFacts.

(** ** The calls *)

Inductive EpollOp : Type := EPOLL_CTL_ADD | EPOLL_CTL_MOD | EPOLL_CTL_DEL.

Module Epoll.
Definition EPOLLIN : Z := 0x001.
Definition EPOLLOUT : Z := 0x004.
Definition EPOLLERR : Z := 0x008.
Definition EPOLLHUP : Z := 0x010.
End Epoll.

Inductive Filter : Type := EVFILT_READ | EVFILT_WRITE | EVFILT_TIMER.
Inductive KeventAction : Type := EV_ENABLED | EV_ONESHOT | EV_DELETE.

(** [socket], [bind], ... are those of Winsock; an address of the loopback
    interface is its port. *)
Class Kernel (K : Type) : Type := {
  k_epoll_create1 : K -> Z * K;
  k_eventfd : K -> Z * K;
  k_timerfd_create : K -> Z * K;
  k_epoll_ctl : Z -> EpollOp -> Z -> Z -> K -> Z * K;
  k_kqueue : K -> Z * K;
  k_pipe : K -> (Z * (Z * Z)) * K;
  k_getfl : Z -> K -> Z * K;
  k_setfl : Z -> Z -> K -> Z * K;
  k_setfd : Z -> K -> Z * K;
  k_kevent : Z -> Z -> Filter -> KeventAction -> Z -> K -> Z * K;
  k_close : Z -> K -> K;
  k_socket : K -> Z * K;
  k_bind : Z -> Z -> K -> Z * K;
  k_getsockname : Z -> K -> (Z * Z) * K;
  k_listen : Z -> Z -> K -> Z * K;
  k_connect : Z -> Z -> K -> Z * K;
  k_accept : Z -> K -> Z * K;
  k_ioctlsocket : Z -> K -> Z * K;
  k_O_NONBLOCK : Z;
}.

Definition kcall {K A} (f : K -> A * K) : st K A := fun k => Ok (f k).

(** ** Linux *)

Module Linux.
Record Members := mk { epollFd : Z; wakeupFd : Z; timerFd : Z }.
Definition none : Members := mk (-1) (-1) (-1).

Section linux.
Context {K : Type} `{Kernel K}.

Definition close_fd (fd : Z) : st K Z := if fd >=? 0 then modify (k_close fd) ;;; ret (-1) else ret fd.

Definition teardownPlatformPrimitives (m : Members) : st K Members :=
  timerFd <- close_fd (timerFd m) ;;
  wakeupFd <- close_fd (wakeupFd m) ;;
  epollFd <- close_fd (epollFd m) ;;
  ret (mk epollFd wakeupFd timerFd).

(** [teardownPlatformPrimitives(); return false;] *)
Definition abandon (m : Members) : st K (bool * Members) :=
  m <- teardownPlatformPrimitives m ;; ret (false, m).

Definition setupPlatformPrimitives (m : Members) : st K (bool * Members) :=
  epollFd <- kcall k_epoll_create1 ;;
  let m := mk epollFd (wakeupFd m) (timerFd m) in
  if epollFd <? 0 then ret (false, m)
  else
    wakeupFd <- kcall k_eventfd ;;
    let m := mk epollFd wakeupFd (timerFd m) in
    if wakeupFd <? 0 then abandon m
    else
      timerFd <- kcall k_timerfd_create ;;
      let m := mk epollFd wakeupFd timerFd in
      if timerFd <? 0 then abandon m
      else
        r <- kcall (k_epoll_ctl epollFd EPOLL_CTL_ADD wakeupFd Epoll.EPOLLIN) ;;
        if negb (r =? 0) then abandon m
        else
          r <- kcall (k_epoll_ctl epollFd EPOLL_CTL_ADD timerFd Epoll.EPOLLIN) ;;
          if negb (r =? 0) then abandon m else ret (true, m).
End linux.

(** [it_value] of the timer descriptor: seconds and nanoseconds. *)
Definition it_value {H} (now : Z) (timers : list (TimerItem H)) : Z * Z :=
  match timers with
  | [] => (0, 0)
  | top :: _ =>
      let ns := due top - now in
      let ns := if ns <? 1000000 then 1 * MILLISECOND else ns in
      let sec := Z.quot ns (10 ^ 9) in
      (sec, ns - sec * 10 ^ 9)
  end.
End Linux.

(** ** macOS *)

Module Mac.
(** [wakeupPipe] is its two ends. *)
Record Members := mk { kqueueFd : Z; wakeupPipe0 : Z; wakeupPipe1 : Z }.
Definition none : Members := mk (-1) (-1) (-1).
Definition kTimerIdent : Z := 0xFFFFFFFF.

Section mac.
Context {K : Type} `{Kernel K}.

Definition teardownPlatformPrimitives (m : Members) : st K Members :=
  p0 <- Linux.close_fd (wakeupPipe0 m) ;;
  p1 <- Linux.close_fd (wakeupPipe1 m) ;;
  kq <- Linux.close_fd (kqueueFd m) ;;
  ret (mk kq p0 p1).

Definition abandon (m : Members) : st K (bool * Members) :=
  m <- teardownPlatformPrimitives m ;; ret (false, m).

(** The body of the loop over the two ends. *)
Definition set_flags (fd : Z) : st K unit :=
  flags <- kcall (k_getfl fd) ;;
  kcall (k_setfl fd (Z.lor flags k_O_NONBLOCK)) ;;;
  kcall (k_setfd fd) ;;;
  ret tt.

(** [pipe] leaves its argument alone when it fails. *)
Definition setupPlatformPrimitives (m : Members) : st K (bool * Members) :=
  kqueueFd <- kcall k_kqueue ;;
  let m := mk kqueueFd (wakeupPipe0 m) (wakeupPipe1 m) in
  if kqueueFd <? 0 then ret (false, m)
  else
    r <- kcall k_pipe ;;
    let '(r, (p0, p1)) := r in
    if negb (r =? 0) then abandon m
    else
      let m := mk kqueueFd p0 p1 in
      set_flags p0 ;;;
      set_flags p1 ;;;
      r <- kcall (k_kevent kqueueFd p0 EVFILT_READ EV_ENABLED 0) ;;
      if negb (r =? 0) then abandon m else ret (true, m).
End mac.

(** The one-shot timer, in milliseconds; [None] deletes it. *)
Definition timer_event {H} (now : Z) (timers : list (TimerItem H)) : option Z :=
  match timers with
  | [] => None
  | top :: _ =>
      let ms := Z.quot (due top - now) MILLISECOND in
      Some (if ms <? 1 then 1 else ms)
  end.
End Mac.

(** ** Windows *)

Module Windows.
Record Members := mk { wakeupPair0 : Z; wakeupPair1 : Z }.
Definition none : Members := mk INVALID_SOCKET INVALID_SOCKET.

Section windows.
Context {K : Type} `{Kernel K}.

Definition close_socket (fd : Z) : st K unit := modify (k_close fd).
Definition failed (r : Z) : bool := r =? -1.

(** The read end and the write end, or nothing. *)
Definition createSocketPair : st K (option (Z * Z)) :=
  listener <- kcall k_socket ;;
  if listener =? INVALID_SOCKET then ret None
  else
    r <- kcall (k_bind listener 0) ;;
    if failed r then close_socket listener ;;; ret None
    else
      r <- kcall (k_getsockname listener) ;;
      let '(r, addr) := r in
      if failed r then close_socket listener ;;; ret None
      else
        r <- kcall (k_listen listener 1) ;;
        if failed r then close_socket listener ;;; ret None
        else
          connector <- kcall k_socket ;;
          if connector =? INVALID_SOCKET then close_socket listener ;;; ret None
          else
            r <- kcall (k_connect connector addr) ;;
            if failed r then close_socket connector ;;; close_socket listener ;;; ret None
            else
              acceptor <- kcall (k_accept listener) ;;
              close_socket listener ;;;
              if acceptor =? INVALID_SOCKET then close_socket connector ;;; ret None
              else
                kcall (k_ioctlsocket connector) ;;;
                kcall (k_ioctlsocket acceptor) ;;;
                ret (Some (acceptor, connector)).

Definition setupPlatformPrimitives (m : Members) : st K (bool * Members) :=
  pair <- createSocketPair ;;
  match pair with
  | None => ret (false, none)
  | Some (p0, p1) => ret (true, mk p0 p1)
  end.

Definition close_end (fd : Z) : st K Z :=
  if negb (fd =? INVALID_SOCKET) then close_socket fd ;;; ret INVALID_SOCKET else ret fd.

Definition teardownPlatformPrimitives (m : Members) : st K Members :=
  p0 <- close_end (wakeupPair0 m) ;;
  p1 <- close_end (wakeupPair1 m) ;;
  ret (mk p0 p1).
End windows.

(** The timeout of [select], in seconds and microseconds; [long] has 32 bits. *)
Definition select_timeout {H} (now : Z) (timers : list (TimerItem H)) : option (Z * Z) :=
  match timers with
  | [] => None
  | top :: _ =>
      let msCount := i32 (Z.quot (due top - now) MILLISECOND) in
      let msCount := if msCount <? 1 then 1 else msCount in
      Some (Z.quot msCount 1000, Z.rem msCount 1000 * 1000)
  end.
End Windows.

(** ** Arming the next timer

    [ready] says that the platform's descriptors are open, and [timerfd] when
    the kernel's timer expires; Windows has none and looks at the queue before
    each wait. *)

Section arming.
Context {Task H F : Type}.
Abbreviation R := (Reactor.t Task H F).

Definition purged (r : R) : R :=
  let '(ts, canceled) := Reactor.purge (Reactor.timers r) (Reactor.canceledTimers r) in Reactor.set_timers ts canceled r.

Definition mac_arm (now : Z) (r : R) : R :=
  if negb (Reactor.ready r) then r
  else
    let r := purged r in
    Reactor.set_timerfd ((fun ms => now + ms * MILLISECOND) <$> Mac.timer_event now (Reactor.timers r)) r.

Definition windows_arm (now : Z) (r : R) : R :=
  let r := purged r in
  if Reactor.ready r then Reactor.set_woken true r else r.

(** When the wait that starts at [now] returns by itself. *)
Definition kernel_wait (now : Z) (r : R) : option Z := Reactor.timerfd r.
Definition windows_wait (now : Z) (r : R) : option Z :=
  '(sec, usec) ← Windows.select_timeout now (Reactor.timers r); Some (now + sec * 10 ^ 9 + usec * 1000).
End arming.

(** ** The methods on timers, on any platform

    [timer_op] and [timer_out] are those of [ReactorFacts.v]. *)

Section platform.
Context {Task H F : Type} `{HeapOrder}.
Abbreviation R := (Reactor.t Task H F).
Context (arm : Z -> R -> R).

Definition scheduleOnce (now timeoutMs : Z) (handler : option H) (r : R) : Z * R :=
  match handler with
  | None => (0, r)
  | Some handler =>
      let timerId := Reactor.nextTimerId r in
      let r := Reactor.set_nextTimerId (u64 (Reactor.nextTimerId r + 1)) r in
      if negb (Reactor.running r) then (0, r)
      else
        let item := mk_timer (now + Z.max timeoutMs 0 * MILLISECOND) timerId handler in
        let r := Reactor.set_timers (heap_push item (Reactor.timers r)) (<[timerId := false]> (Reactor.canceledTimers r)) r in
        (timerId, arm now r)
  end.

Definition cancelTimer (now timerId : Z) (r : R) : bool * R :=
  match Reactor.canceledTimers r !! timerId with
  | None => (false, r)
  | Some _ => (true, arm now (Reactor.set_timers (Reactor.timers r) (<[timerId := true]> (Reactor.canceledTimers r)) r))
  end.

Definition fireDueTimers (now : Z) (r : R) : list H * R :=
  let '(hs, ts, canceled) := Reactor.collect now (Reactor.timers r) (Reactor.canceledTimers r) in
  (hs, arm now (Reactor.set_timers ts canceled r)).

Definition platform_step (op : timer_op (H := H)) (r : R) : timer_out (H := H) * R :=
  match op with
  | Schedule now timeoutMs h => let '(k, r) := scheduleOnce now timeoutMs (Some h) r in (Scheduled k, r)
  | Cancel now k => let '(b, r) := cancelTimer now k r in (Canceled b, r)
  | Fire now => let '(hs, r) := fireDueTimers now r in (Fired hs, r)
  end.

Fixpoint platform_run (ops : list (timer_op (H := H))) (r : R) : list (timer_out (H := H)) * R :=
  match ops with
  | [] => ([], r)
  | op :: ops =>
      let '(out, r) := platform_step op r in
      let '(outs, r) := platform_run ops r in
      (out :: outs, r)
  end.
End platform.

(** ** A turn of the loop *)

(** What the loop does with one report of the kernel. *)
Inductive report : Type :=
| DrainWakeup
| FireTimers
| FdEvent (fd : Z) (readable writable error : bool).

Definition has (flag events : Z) : bool := negb (Z.land events flag =? 0).

Definition linux_report (m : Linux.Members) (fd events : Z) : report :=
  if fd =? Linux.wakeupFd m then DrainWakeup
  else if fd =? Linux.timerFd m then FireTimers
  else FdEvent fd (has Epoll.EPOLLIN events) (has Epoll.EPOLLOUT events)
         (has (Z.lor Epoll.EPOLLERR Epoll.EPOLLHUP) events).

Definition filter_eqb (a b : Filter) : bool :=
  match a, b with
  | EVFILT_READ, EVFILT_READ | EVFILT_WRITE, EVFILT_WRITE | EVFILT_TIMER, EVFILT_TIMER => true
  | _, _ => false
  end.

Definition mac_report (m : Mac.Members) (ident : Z) (filter : Filter) (eof : bool) (fflags : Z) : report :=
  if filter_eqb filter EVFILT_READ && (ident =? Mac.wakeupPipe0 m) then DrainWakeup
  else if filter_eqb filter EVFILT_TIMER && (ident =? Mac.kTimerIdent) then FireTimers
  else FdEvent ident (filter_eqb filter EVFILT_READ) (filter_eqb filter EVFILT_WRITE)
         (eof && negb (fflags =? 0)).

(** [ret]: the result of [select]; the sets are those it leaves. *)
Definition windows_reports (m : Windows.Members) (watchedFds : list Z) (ret : Z) (readSet writeSet errorSet : gset Z)
  : list report :=
  (if ret >? 0 then
     (if bool_decide (Windows.wakeupPair0 m ∈ readSet) then [DrainWakeup] else []) ++
     omap (fun fd =>
       let readable := bool_decide (fd ∈ readSet) in
       let writable := bool_decide (fd ∈ writeSet) in
       let error := bool_decide (fd ∈ errorSet) in
       if readable || writable || error then Some (FdEvent fd readable writable error) else None) watchedFds
   else []) ++
  [FireTimers].

(** The sets a turn asks [select] about. *)
Definition windows_sets {Task H F} (m : Windows.Members) (r : Reactor.t Task H F) : gset Z * gset Z * gset Z :=
  let fds := dom (Reactor.fdContexts r) in
  ({[Windows.wakeupPair0 m]} ∪ fds,
   dom (filter (fun kv => writeEnabled kv.2 = true) (Reactor.fdContexts r)), fds).

(** ** Starting and stopping, on any platform *)

Class Platform (K : Type) : Type := {
  Members : Type;
  closed : Members;
  setup : Members -> st K (bool * Members);
  teardown : Members -> st K Members;
  fds_of : Members -> gset Z;
}.

Definition owned (fd : Z) : gset Z := if fd >=? 0 then {[fd]} else ∅.
Definition owned_socket (fd : Z) : gset Z := if fd =? INVALID_SOCKET then ∅ else {[fd]}.

#[local] Instance linux_platform {K} `{Kernel K} : Platform K := {
  closed := Linux.none;
  setup := Linux.setupPlatformPrimitives;
  teardown := Linux.teardownPlatformPrimitives;
  fds_of m := owned (Linux.epollFd m) ∪ owned (Linux.wakeupFd m) ∪ owned (Linux.timerFd m);
}.

#[local] Instance mac_platform {K} `{Kernel K} : Platform K := {
  closed := Mac.none;
  setup := Mac.setupPlatformPrimitives;
  teardown := Mac.teardownPlatformPrimitives;
  fds_of m := owned (Mac.kqueueFd m) ∪ owned (Mac.wakeupPipe0 m) ∪ owned (Mac.wakeupPipe1 m);
}.

#[local] Instance windows_platform {K} `{Kernel K} : Platform K := {
  closed := Windows.none;
  setup := Windows.setupPlatformPrimitives;
  teardown := Windows.teardownPlatformPrimitives;
  fds_of m := owned_socket (Windows.wakeupPair0 m) ∪ owned_socket (Windows.wakeupPair1 m);
}.

Section life.
Context {Task H F K : Type} `{Platform K}.
Abbreviation R := (Reactor.t Task H F).

Definition start (s : Members * R) : st K (bool * (Members * R)) :=
  let '(m, r) := s in
  if Reactor.running r then ret (true, (m, r))
  else
    x <- setup m ;;
    let '(opened, m) := x in
    let '(started, r) := Reactor.start opened r in
    ret (started, (m, r)).

Definition stop (s : Members * R) : st K (Members * R) :=
  let '(m, r) := s in
  if negb (Reactor.running r) then ret (m, r)
  else
    m <- teardown m ;;
    ret (m, Reactor.stop_joined (Reactor.stop_request r)).

(** A sequence of [start()] ([true]) and [stop()]: what the starts return. *)
Fixpoint lives (ops : list bool) (s : Members * R) : st K (list bool * (Members * R)) :=
  match ops with
  | [] => ret ([], s)
  | true :: ops =>
      x <- start s ;;
      let '(started, s) := x in
      y <- lives ops s ;;
      let '(rs, s) := y in ret (started :: rs, s)
  | false :: ops => s <- stop s ;; lives ops s
  end.
End life.

(** ** What the documentation promises of the calls *)

Section promises.
Context {K : Type} (held : K -> gset Z).

(** A call that opens a descriptor nobody has, or fails with -1. *)
Definition may_open (call : K -> Z * K) : Prop := forall k,
  let '(fd, k') := call k in
  if fd <? 0 then fd = -1 /\ held k' = held k else (fd ∉ held k) /\ held k' = {[fd]} ∪ held k.

Definition opens_none {A} (call : K -> A * K) : Prop := forall k, held (call k).2 = held k.
End promises.

Class KernelLaws (K : Type) `{Kernel K} : Type := {
  held : K -> gset Z;
  law_epoll_create1 : may_open held k_epoll_create1;
  law_eventfd : may_open held k_eventfd;
  law_timerfd_create : may_open held k_timerfd_create;
  law_kqueue : may_open held k_kqueue;
  law_socket : may_open held k_socket;
  law_accept fd : may_open held (k_accept fd);
  law_pipe k : let '((r, (p0, p1)), k') := k_pipe k in
    if r =? 0
    then 0 <= p0 /\ 0 <= p1 /\ p0 <> p1 /\ (p0 ∉ held k) /\ (p1 ∉ held k) /\ held k' = {[p0; p1]} ∪ held k
    else held k' = held k;
  law_close fd k : held (k_close fd k) = held k ∖ {[fd]};
  law_epoll_ctl ep op fd events : opens_none held (k_epoll_ctl ep op fd events);
  law_getfl fd : opens_none held (k_getfl fd);
  law_setfl fd fl : opens_none held (k_setfl fd fl);
  law_setfd fd : opens_none held (k_setfd fd);
  law_kevent kq fd flt act v : opens_none held (k_kevent kq fd flt act v);
  law_bind fd a : opens_none held (k_bind fd a);
  law_getsockname fd : opens_none held (k_getsockname fd);
  law_listen fd n : opens_none held (k_listen fd n);
  law_connect fd a : opens_none held (k_connect fd a);
  law_ioctlsocket fd : opens_none held (k_ioctlsocket fd);
}.

(** ** Descriptors *)

Section descriptors.
Context {K : Type} `{KernelLaws K}.
Implicit Type k : K.

Lemma wp_opens {call : K -> Z * K} E (Q : Z -> K -> Prop) k :
  may_open held call ->
  (forall k', held k' = held k -> Q (-1) k') ->
  (forall fd k', 0 <= fd -> fd ∉ held k -> held k' = {[fd]} ∪ held k -> Q fd k') ->
  wp E (kcall call) Q k.
Proof.
  intros Hcall Hno Hyes. unfold wp, kcall. specialize (Hcall k). destruct (call k) as [fd k'].
  destruct (Z.ltb_spec fd 0); [destruct Hcall as [-> ?]; auto|destruct Hcall; auto].
Qed.

Lemma wp_quiet {A} {call : K -> A * K} E (Q : A -> K -> Prop) k :
  opens_none held call -> (forall a k', held k' = held k -> Q a k') -> wp E (kcall call) Q k.
Proof. intros Hcall HQ. unfold wp, kcall. specialize (Hcall k). destruct (call k) as [a k']. by apply HQ. Qed.

Lemma wp_closed E fd (Q : unit -> K -> Prop) k :
  (forall k', held k' = held k ∖ {[fd]} -> Q tt k') -> wp E (modify (k_close fd)) Q k.
Proof. intros HQ. apply wp_modify, HQ, law_close. Qed.

Lemma wp_close_fd E fd (Q : Z -> K -> Prop) k :
  (forall fd' k', fd' < 0 -> held k' = held k ∖ owned fd -> Q fd' k') -> wp E (Linux.close_fd fd) Q k.
Proof.
  intros HQ. unfold Linux.close_fd, owned in *. rewrite Z.geb_leb in *. destruct (Z.leb_spec 0 fd).
  - wp_step. apply wp_closed. intros k' Hk. apply wp_ret. apply HQ; [lia|done].
  - apply wp_ret. apply HQ; [lia|]. set_solver.
Qed.

Lemma wp_close_end E fd (Q : Z -> K -> Prop) k :
  (forall k', held k' = held k ∖ owned_socket fd -> Q INVALID_SOCKET k') -> wp E (Windows.close_end fd) Q k.
Proof.
  intros HQ. unfold Windows.close_end, owned_socket in *. destruct (Z.eqb_spec fd INVALID_SOCKET) as [->|]; cbn [negb].
  - apply wp_ret. apply HQ. set_solver.
  - wp_step. apply wp_closed. intros k' Hk. apply wp_ret. by apply HQ.
Qed.

Lemma owned_none fd : fd < 0 -> owned fd = ∅.
Proof. intros. unfold owned. rewrite Z.geb_leb. by destruct (Z.leb_spec 0 fd); [lia|]. Qed.
Lemma owned_some fd : 0 <= fd -> owned fd = {[fd]}.
Proof. intros. unfold owned. rewrite Z.geb_leb. by destruct (Z.leb_spec 0 fd); [|lia]. Qed.
Lemma owned_socket_some fd : 0 <= fd -> owned_socket fd = {[fd]}.
Proof. intros. unfold owned_socket, INVALID_SOCKET. by destruct (Z.eqb_spec fd (-1)); [lia|]. Qed.
End descriptors.

(** What a platform promises to the reactor: all its descriptors or none. *)
Class PlatformLaws (K : Type) `{KernelLaws K} `{!Platform K} : Prop := {
  fds_of_closed : fds_of closed = ∅;
  setup_spec E m k :
    fds_of m = ∅ ->
    wp E (setup m) (fun r k' =>
      held k' = held k ∪ fds_of r.2 /\ fds_of r.2 ## held k /\ (r.1 = true <-> fds_of r.2 <> ∅)) k;
  teardown_spec E m k :
    wp E (teardown m) (fun m' k' => held k' = held k ∖ fds_of m /\ fds_of m' = ∅) k;
}.

(** All the descriptors [fds] says a platform has, or none; [S] were held
    before. *)
Definition all_or_none {K M : Type} `{KernelLaws K} (fds : M -> gset Z) (S : gset Z) (r : bool * M) (k : K) : Prop :=
  held k = S ∪ fds r.2 /\ fds r.2 ## S /\ (r.1 = true <-> fds r.2 <> ∅).

Section platforms.
Context {K : Type} `{KernelLaws K}.
Implicit Type k : K.

Section abandon.
Context {M : Type} (fds : M -> gset Z).

Definition releases (td : M -> st K M) : Prop := forall E m (Q : M -> K -> Prop) k,
  (forall m' k', fds m' = ∅ -> held k' = held k ∖ fds m -> Q m' k') -> wp E (td m) Q k.

Lemma none_at_all S m k : fds m = ∅ -> held k = S -> all_or_none fds S (false, m) k.
Proof. intros Hm Hk. unfold all_or_none. cbn. rewrite Hm, Hk. split_and!; set_solver +. Qed.

Lemma all_of_them S m k : held k = S ∪ fds m -> fds m ## S -> fds m <> ∅ -> all_or_none fds S (true, m) k.
Proof. done. Qed.

Lemma wp_abandon_setup td E m k S :
  releases td -> held k = S ∪ fds m -> fds m ## S -> wp E (m <- td m ;; ret (false, m)) (all_or_none fds S) k.
Proof.
  intros Htd Hk Hd. wp_step. apply Htd. intros m' k' Hm' Hk'. apply wp_ret, none_at_all; [done|].
  rewrite Hk', Hk. set_solver +Hd.
Qed.
End abandon.

Abbreviation linux_fds := (fds_of (Platform := linux_platform)).
Abbreviation mac_fds := (fds_of (Platform := mac_platform)).
Abbreviation windows_fds := (fds_of (Platform := windows_platform)).

Lemma linux_releases : releases linux_fds Linux.teardownPlatformPrimitives.
Proof.
  intros E m Q k HQ. unfold Linux.teardownPlatformPrimitives. wp_step. apply wp_close_fd. intros t k1 Ht Hh1.
  wp_step. apply wp_close_fd. intros w k2 Hw Hh2. wp_step. apply wp_close_fd. intros e k3 He Hh3. apply wp_ret.
  apply HQ; cbn [fds_of linux_platform Linux.epollFd Linux.wakeupFd Linux.timerFd].
  - rewrite !owned_none by done. set_solver +.
  - rewrite Hh3, Hh2, Hh1. set_solver +.
Qed.

Lemma mac_releases : releases mac_fds Mac.teardownPlatformPrimitives.
Proof.
  intros E m Q k HQ. unfold Mac.teardownPlatformPrimitives. wp_step. apply wp_close_fd. intros t k1 Ht Hh1.
  wp_step. apply wp_close_fd. intros w k2 Hw Hh2. wp_step. apply wp_close_fd. intros e k3 He Hh3. apply wp_ret.
  apply HQ; cbn [fds_of mac_platform Mac.kqueueFd Mac.wakeupPipe0 Mac.wakeupPipe1].
  - rewrite !owned_none by done. set_solver +.
  - rewrite Hh3, Hh2, Hh1. set_solver +.
Qed.

Lemma windows_releases : releases windows_fds Windows.teardownPlatformPrimitives.
Proof.
  intros E m Q k HQ. unfold Windows.teardownPlatformPrimitives. wp_step. apply wp_close_end. intros k1 Hh1.
  wp_step. apply wp_close_end. intros k2 Hh2. apply wp_ret.
  apply HQ; cbn [fds_of windows_platform Windows.wakeupPair0 Windows.wakeupPair1]; [set_solver +|].
  rewrite Hh2, Hh1. set_solver +.
Qed.

Lemma empty_split (A B : gset Z) : A ∪ B = ∅ -> A = ∅ /\ B = ∅.
Proof. intros He. split; set_solver. Qed.

Lemma linux_setup E m k : linux_fds m = ∅ -> wp E (Linux.setupPlatformPrimitives m) (all_or_none linux_fds (held k)) k.
Proof.
  destruct m as [e w t]. intros [[He Hw]%empty_split Ht]%empty_split. cbn in Hw, Ht. unfold Linux.setupPlatformPrimitives.
  cbn [Linux.epollFd Linux.wakeupFd Linux.timerFd].
  wp_step. apply (wp_opens _ _ _ law_epoll_create1).
  { intros k1 Hh1. apply wp_ret, none_at_all; [|done]. cbn. rewrite Hw, Ht. set_solver +. }
  intros ep k1 Hep Hnew1 Hh1. destruct (Z.ltb_spec ep 0); [lia|]. wp_step. apply (wp_opens _ _ _ law_eventfd).
  { intros k2 Hh2. apply wp_abandon_setup; [apply linux_releases|..]; cbn; rewrite Ht, (owned_some ep) by done;
      [rewrite Hh2, Hh1; set_solver +|set_solver +Hnew1]. }
  intros wk k2 Hwk Hnew2 Hh2. destruct (Z.ltb_spec wk 0); [lia|]. wp_step. apply (wp_opens _ _ _ law_timerfd_create).
  { intros k3 Hh3. apply wp_abandon_setup; [apply linux_releases|..];
      cbn; rewrite (owned_some ep), (owned_some wk) by done;
      [rewrite Hh3, Hh2, Hh1; set_solver +|rewrite Hh1 in Hnew2; set_solver +Hnew1 Hnew2]. }
  intros tm k3 Htm Hnew3 Hh3. destruct (Z.ltb_spec tm 0); [lia|].
  assert (Hall : linux_fds (Linux.mk ep wk tm) = {[ep; wk; tm]}) by (cbn; by rewrite !owned_some by done).
  assert (Hheld : held k3 = held k ∪ {[ep; wk; tm]}) by (rewrite Hh3, Hh2, Hh1; set_solver +).
  assert (Hdis : {[ep; wk; tm]} ## held k) by (rewrite Hh2, Hh1 in Hnew3; rewrite Hh1 in Hnew2; set_solver +Hnew1 Hnew2 Hnew3).
  wp_step. apply (wp_quiet _ _ _ (law_epoll_ctl ep EPOLL_CTL_ADD wk _)). intros r k4 Hh4.
  case_match; [apply wp_abandon_setup; [apply linux_releases|rewrite Hall; congruence|by rewrite Hall]|].
  wp_step. apply (wp_quiet _ _ _ (law_epoll_ctl ep EPOLL_CTL_ADD tm _)). intros r' k5 Hh5.
  case_match; [apply wp_abandon_setup; [apply linux_releases|rewrite Hall; congruence|by rewrite Hall]|].
  apply wp_ret, all_of_them; rewrite Hall; [congruence|done|set_solver +].
Qed.

Lemma wp_set_flags E fd (Q : unit -> K -> Prop) k :
  (forall k', held k' = held k -> Q tt k') -> wp E (Mac.set_flags fd) Q k.
Proof.
  intros HQ. unfold Mac.set_flags. wp_step. apply (wp_quiet _ _ _ (law_getfl fd)). intros fl k1 Hh1.
  wp_step. apply (wp_quiet _ _ _ (law_setfl fd _)). intros r k2 Hh2. wp_step. apply (wp_quiet _ _ _ (law_setfd fd)).
  intros r' k3 Hh3. apply wp_ret, HQ. congruence.
Qed.

Lemma mac_setup E m k : mac_fds m = ∅ -> wp E (Mac.setupPlatformPrimitives m) (all_or_none mac_fds (held k)) k.
Proof.
  destruct m as [q a b]. intros [[Hq Ha]%empty_split Hb]%empty_split. cbn in Ha, Hb. unfold Mac.setupPlatformPrimitives.
  cbn [Mac.kqueueFd Mac.wakeupPipe0 Mac.wakeupPipe1].
  wp_step. apply (wp_opens _ _ _ law_kqueue).
  { intros k1 Hh1. apply wp_ret, none_at_all; [|done]. cbn. rewrite Ha, Hb. set_solver +. }
  intros kq k1 Hkq Hnew1 Hh1. destruct (Z.ltb_spec kq 0); [lia|]. wp_step. unfold wp at 1, kcall.
  pose proof (law_pipe k1) as Hl. destruct (k_pipe k1) as [[r [p0 p1]] k2]. case_match; cbn [negb].
  2: { apply wp_abandon_setup; [apply mac_releases|..]; cbn; rewrite Ha, Hb, (owned_some kq) by done;
       [rewrite Hl, Hh1; set_solver +|set_solver +Hnew1]. }
  destruct Hl as (Hp0 & Hp1 & Hne & Hnew2 & Hnew3 & Hh2).
  assert (Hall : mac_fds (Mac.mk kq p0 p1) = {[kq; p0; p1]}) by (cbn; by rewrite !owned_some by done).
  assert (Hheld : held k2 = held k ∪ {[kq; p0; p1]}) by (rewrite Hh2, Hh1; set_solver +).
  assert (Hdis : {[kq; p0; p1]} ## held k) by (rewrite Hh1 in Hnew2, Hnew3; set_solver +Hnew1 Hnew2 Hnew3).
  wp_step. apply wp_set_flags. intros k3 Hh3. wp_step. apply wp_set_flags. intros k4 Hh4.
  wp_step. apply (wp_quiet _ _ _ (law_kevent kq p0 EVFILT_READ EV_ENABLED 0)). intros r' k5 Hh5.
  case_match; [apply wp_abandon_setup; [apply mac_releases|rewrite Hall; congruence|by rewrite Hall]|].
  apply wp_ret, all_of_them; rewrite Hall; [congruence|done|set_solver +].
Qed.

(** A socket is closed, and a pair has not been created. *)
Lemma wp_abandon E fd (Q : option (Z * Z) -> K -> Prop) k :
  (forall k', held k' = held k ∖ {[fd]} -> Q None k') -> wp E (Windows.close_socket fd ;;; ret None) Q k.
Proof. intros HQ. wp_step. apply wp_closed. intros k' Hk. by apply wp_ret, HQ. Qed.

Definition pair_or_none (S : gset Z) (o : option (Z * Z)) k : Prop :=
  match o with
  | None => held k = S
  | Some (p0, p1) => 0 <= p0 /\ 0 <= p1 /\ (p0 ∉ S) /\ (p1 ∉ S) /\ held k = {[p0; p1]} ∪ S
  end.

Lemma wp_createSocketPair E k : wp E Windows.createSocketPair (pair_or_none (held k)) k.
Proof.
  unfold Windows.createSocketPair. wp_step. apply (wp_opens _ _ _ law_socket); [by intros; apply wp_ret|].
  intros l k1 Hl Hnew1 Hh1. destruct (Z.eqb_spec l INVALID_SOCKET); [unfold INVALID_SOCKET in *; lia|].
  assert (Hab : forall k', held k' = held k1 -> wp E (Windows.close_socket l ;;; ret None) (pair_or_none (held k)) k').
  { intros k' Hk. apply wp_abandon. intros k'' Hk'. cbn. rewrite Hk', Hk, Hh1. set_solver +Hnew1. }
  wp_step. apply (wp_quiet _ _ _ (law_bind l 0)). intros r2 k2 Hh2. case_match; [by apply Hab|].
  wp_step. apply (wp_quiet _ _ _ (law_getsockname l)). intros [r3 addr] k3 Hh3. case_match; [apply Hab; congruence|].
  wp_step. apply (wp_quiet _ _ _ (law_listen l 1)). intros r4 k4 Hh4. case_match; [apply Hab; congruence|].
  wp_step. apply (wp_opens _ _ _ law_socket); [intros k5 Hh5; apply Hab; congruence|].
  intros c k5 Hc Hnew5 Hh5. destruct (Z.eqb_spec c INVALID_SOCKET); [unfold INVALID_SOCKET in *; lia|].
  wp_step. apply (wp_quiet _ _ _ (law_connect c addr)). intros r6 k6 Hh6. case_match.
  { wp_step. apply wp_closed. intros k7 Hh7. apply wp_abandon. intros k8 Hh8. cbn.
    rewrite Hh8, Hh7, Hh6, Hh5, Hh4, Hh3, Hh2, Hh1. rewrite Hh4, Hh3, Hh2, Hh1 in Hnew5. set_solver +Hnew1 Hnew5. }
  wp_step. apply (wp_opens _ _ _ (law_accept l)).
  { intros k7 Hh7. wp_step. apply wp_closed. intros k8 Hh8. change (-1 =? INVALID_SOCKET) with true. cbv iota. apply wp_abandon. intros k9 Hh9. cbn.
    rewrite Hh9, Hh8, Hh7, Hh6, Hh5, Hh4, Hh3, Hh2, Hh1. rewrite Hh4, Hh3, Hh2, Hh1 in Hnew5. set_solver +Hnew1 Hnew5. }
  intros a k7 Ha Hnew7 Hh7. wp_step. apply wp_closed. intros k8 Hh8.
  destruct (Z.eqb_spec a INVALID_SOCKET); [unfold INVALID_SOCKET in *; lia|].
  wp_step. apply (wp_quiet _ _ _ (law_ioctlsocket c)). intros r9 k9 Hh9.
  wp_step. apply (wp_quiet _ _ _ (law_ioctlsocket a)). intros r10 k10 Hh10. apply wp_ret. cbn.
  rewrite Hh10, Hh9, Hh8, Hh7, Hh6, Hh5, Hh4, Hh3, Hh2, Hh1. rewrite Hh4, Hh3, Hh2, Hh1 in Hnew5.
  rewrite Hh6, Hh5, Hh4, Hh3, Hh2, Hh1 in Hnew7. split_and!; [done|done|set_solver +Hnew7|set_solver +Hnew5|].
  set_solver +Hnew1 Hnew5 Hnew7.
Qed.

Lemma windows_setup E m k :
  windows_fds m = ∅ -> wp E (Windows.setupPlatformPrimitives m) (all_or_none windows_fds (held k)) k.
Proof.
  intros _. unfold Windows.setupPlatformPrimitives. wp_step. eapply wp_mono; [apply wp_createSocketPair|].
  intros [[p0 p1]|] k' Hp; apply wp_ret; [|by apply none_at_all]. destruct Hp as (? & ? & Hp0 & Hp1 & Hk).
  assert (Hall : windows_fds (Windows.mk p0 p1) = {[p0; p1]}) by (cbn; by rewrite !owned_socket_some by done).
  apply all_of_them; rewrite Hall; [rewrite Hk; set_solver +|set_solver +Hp0 Hp1|set_solver +].
Qed.
End platforms.

#[export] Instance linux_laws {K} `{KernelLaws K} : PlatformLaws K (Platform0 := linux_platform).
Proof.
  split; [done| |]; intros E m k; [apply linux_setup|]. apply linux_releases. by intros m' k' ? ?.
Qed.
#[export] Instance mac_laws {K} `{KernelLaws K} : PlatformLaws K (Platform0 := mac_platform).
Proof.
  split; [done| |]; intros E m k; [apply mac_setup|]. apply mac_releases. by intros m' k' ? ?.
Qed.
#[export] Instance windows_laws {K} `{KernelLaws K} : PlatformLaws K (Platform0 := windows_platform).
Proof.
  split; [done| |]; intros E m k; [apply windows_setup|]. apply windows_releases. by intros m' k' ? ?.
Qed.

Section life_facts.
Context {Task H F K : Type} `{PlatformLaws K}.
Abbreviation R := (Reactor.t Task H F).

(** [S] were held when the reactor was made. *)
Definition life_ok (S : gset Z) (s : Members * R) (k : K) : Prop :=
  held k = S ∪ fds_of s.1 /\ fds_of s.1 ## S /\
  Reactor.ready s.2 = Reactor.running s.2 /\ (Reactor.running s.2 = true <-> fds_of s.1 <> ∅).

Lemma start_life E S s k : life_ok S s k -> wp E (start s) (fun r k' => life_ok S r.2 k' /\ r.1 = Reactor.running r.2.2) k.
Proof.
  destruct s as [m r]. intros (Hk & Hd & Hready & Hrun). cbn [fst snd] in *. unfold start.
  destruct (Reactor.running r) eqn:Hr; [apply wp_ret; unfold life_ok; cbn [fst snd]; rewrite Hr; by split_and!|].
  assert (Hm : fds_of m = ∅) by (apply dec_stable; intros Hne; by apply Hrun in Hne). rewrite Hm in Hk.
  wp_step. eapply wp_mono; [by apply setup_spec|]. intros [ok m'] k' (Hk' & Hd' & Hok). cbn [fst snd] in *.
  assert (HS : held k = S) by (rewrite Hk; set_solver +). rewrite HS in Hk', Hd'. unfold Reactor.start. rewrite Hr.
  destruct ok; cbn [negb]; apply wp_ret; unfold life_ok; cbn [fst snd]; [by split_and!|].
  rewrite Hr. split_and!; done.
Qed.

Lemma stop_life E S s k : life_ok S s k -> wp E (stop s) (fun s' k' => life_ok S s' k' /\ Reactor.running s'.2 = false) k.
Proof.
  destruct s as [m r]. intros (Hk & Hd & Hready & Hrun). cbn [fst snd] in *. unfold stop.
  destruct (Reactor.running r) eqn:Hr; cbn [negb]; [|apply wp_ret; unfold life_ok; cbn [fst snd]; rewrite Hr; by split_and!].
  wp_step. eapply wp_mono; [apply teardown_spec|]. intros m' k' [Hk' Hm']. apply wp_ret. unfold life_ok. cbn [fst snd].
  unfold Reactor.stop_request. rewrite Hr. unfold Reactor.wakeup. cbn [Reactor.ready Reactor.set_running]. rewrite Hready, Hm'.
  cbn. rewrite Hk', Hk. split; [|done]. split; [set_solver +Hd|]. split; [set_solver +|]. split; [done|]. by split.
Qed.

Lemma lives_ok E S ops s k :
  life_ok S s k -> wp E (lives ops s) (fun r k' => life_ok S r.2 k') k.
Proof.
  revert s k. induction ops as [|[] ops IH]; intros s k Hs; cbn [lives]; [by apply wp_ret| |]; wp_step.
  - eapply wp_mono; [by apply start_life|]. intros [b s'] k' [Hs' _]. cbn [snd] in Hs'. wp_step.
    eapply wp_mono; [by apply IH|]. intros [rs s''] k'' Hs''. by apply wp_ret.
  - eapply wp_mono; [by apply stop_life|]. intros s' k' [Hs' _]. by apply IH.
Qed.

(** C30: a reactor gives back its descriptors.  On each platform, and whichever
    of the system's calls fail, after any sequence of [start] and [stop] the
    process holds the descriptors it held before and, exactly when the reactor
    is running, those of the reactor, which nobody else had. *)
Theorem reactor_descriptors ops k :
  match lives ops (closed, Reactor.init : R) k with
  | Ok ((_, (m, r)), k') =>
      held k' = held k ∪ fds_of m /\ fds_of m ## held k /\ (Reactor.running r = true <-> fds_of m <> ∅) /\
      Reactor.ready r = Reactor.running r
  | Fault _ => False
  end.
Proof.
  assert (Hstart : life_ok (held k) (closed, Reactor.init : R) k).
  { unfold life_ok. cbn [fst snd]. rewrite fds_of_closed. split; [set_solver +|]. split; [set_solver +|]. by split. }
  pose proof (lives_ok no_fault _ ops _ _ Hstart) as Hl. unfold wp in Hl.
  destruct (lives ops (closed, Reactor.init) k) as [[[rs [m r]] k']|f]; [|done]. by destruct Hl as (? & ? & ? & ?).
Qed.
End life_facts.

(** A kernel to run it on: a process may have [limit] descriptors. *)
Section kernel.
Context (limit : nat).

Definition sim_open (k : gset N) : Z * gset N :=
  if (size k <? limit)%nat then let n := fresh k in (Z.of_N n, {[n]} ∪ k) else (-1, k).
Definition sim_pipe (k : gset N) : (Z * (Z * Z)) * gset N :=
  if (S (size k) <? limit)%nat
  then let a := fresh k in let b := fresh ({[a]} ∪ k) in ((0, (Z.of_N a, Z.of_N b)), {[a; b]} ∪ k)
  else ((-1, (0, 0)), k).

#[local] Instance sim_kernel : Kernel (gset N) := {
  k_epoll_create1 := sim_open;
  k_eventfd := sim_open;
  k_timerfd_create := sim_open;
  k_epoll_ctl _ _ _ _ k := (0, k);
  k_kqueue := sim_open;
  k_pipe := sim_pipe;
  k_getfl _ k := (0, k);
  k_setfl _ _ k := (0, k);
  k_setfd _ k := (0, k);
  k_kevent _ _ _ _ _ k := (0, k);
  k_close fd k := if fd <? 0 then k else k ∖ {[Z.to_N fd]};
  k_socket := sim_open;
  k_bind _ _ k := (0, k);
  k_getsockname _ k := ((0, 49152), k);
  k_listen _ _ k := (0, k);
  k_connect _ _ k := (0, k);
  k_accept _ := sim_open;
  k_ioctlsocket _ k := (0, k);
  k_O_NONBLOCK := 4;
}.

Definition sim_held (k : gset N) : gset Z := set_map Z.of_N k.

Lemma sim_held_in n k : Z.of_N n ∈ sim_held k <-> n ∈ k.
Proof. unfold sim_held. rewrite elem_of_map. split; [by intros (m & ->%N2Z.inj & ?)|eauto]. Qed.

Lemma sim_may_open : may_open sim_held sim_open.
Proof.
  intros k. unfold sim_open. destruct (_ <? _)%nat; [|done]. cbn. destruct (Z.ltb_spec (Z.of_N (fresh k)) 0); [lia|].
  rewrite sim_held_in. split; [apply is_fresh|]. unfold sim_held. by rewrite set_map_union_L, set_map_singleton_L.
Qed.

#[local] Instance sim_kernel_laws : KernelLaws (gset N).
Proof.
  refine {| held := sim_held |}; try apply sim_may_open; try (intros; apply sim_may_open); try by intros.
  - intros k. cbn. unfold sim_pipe. destruct (_ <? _)%nat; [|done]. cbn.
    set (a := fresh k). set (b := fresh ({[a]} ∪ k)).
    assert (Ha : a ∉ k) by apply is_fresh. assert (Hb : b ∉ {[a]} ∪ k) by apply is_fresh.
    rewrite !sim_held_in. split_and!; [lia|lia| |done|set_solver +Hb|].
    + intros Hab%N2Z.inj. set_solver +Hb Hab.
    + unfold sim_held. by rewrite !set_map_union_L, !set_map_singleton_L.
  - intros fd k. cbn. apply set_eq. intros z. destruct (Z.ltb_spec fd 0).
    + split; [|set_solver +]. intros Hz. unfold sim_held in *. rewrite elem_of_map in Hz. destruct Hz as (n & -> & Hn).
      rewrite elem_of_difference, elem_of_map, elem_of_singleton. split; [eauto|lia].
    + unfold sim_held. rewrite elem_of_difference, !elem_of_map, elem_of_singleton. split.
      * intros (n & -> & [Hn Hne]%elem_of_difference). split; [eauto|]. rewrite elem_of_singleton in Hne. lia.
      * intros [(n & -> & Hn) Hne]. exists n. split; [done|]. rewrite elem_of_difference, elem_of_singleton. split; [done|lia].
Defined.
End kernel.

(** With two descriptors to be had: macOS and Windows need three while they
    set up, Windows keeps two. *)
Definition limited_run (limit : nat) (p : Platform (gset N)) (ops : list bool) : option (list bool * nat) :=
  match @lives unit unit unit _ p ops (closed, Reactor.init) ∅ with
  | Ok ((rs, _), k) => Some (rs, size k)
  | Fault _ => None
  end.

Example limited_runs :
  let on limit p := limited_run limit (p (sim_kernel limit)) [true; true; false; true] in
  (on 2%nat (@linux_platform _), on 3%nat (@linux_platform _), on 2%nat (@mac_platform _),
   on 3%nat (@mac_platform _), on 2%nat (@windows_platform _), on 3%nat (@windows_platform _)) =
  (Some ([false; false; false], 0%nat), Some ([true; true; true], 3%nat), Some ([false; false; false], 0%nat),
   Some ([true; true; true], 3%nat), Some ([false; false; false], 0%nat), Some ([true; true; true], 2%nat)).
Proof. vm_compute. reflexivity. Qed.

(** ** Timers *)

Inductive Port : Type := LinuxPort | MacPort | WindowsPort.

Section timers.
Context {Task H F : Type} `{HeapOrder}.
Abbreviation R := (Reactor.t Task H F).
Implicit Types (r : R) (ts : list (TimerItem H)).

Definition port_arm (p : Port) : Z -> R -> R :=
  match p with LinuxPort => Reactor.armNextTimerLocked | MacPort => mac_arm | WindowsPort => windows_arm end.
Definition port_wait (p : Port) : Z -> R -> option Z :=
  match p with LinuxPort | MacPort => kernel_wait | WindowsPort => windows_wait end.

(** The methods of [Reactor.v] are those of Linux. *)
Lemma linux_timer_step op r : platform_step (port_arm LinuxPort) op r = timer_step op r.
Proof. by destruct op. Qed.

Lemma linux_timer_run ops r : platform_run (port_arm LinuxPort) ops r = timer_run ops r.
Proof. revert r. induction ops as [|op ops IH]; intros r; [done|]. cbn. rewrite linux_timer_step. destruct (timer_step op r). by rewrite IH. Qed.

(** The time Linux is given: normalised, and zero only to disarm. *)
Lemma it_value_exact now ts :
  let '(sec, nsec) := Linux.it_value now ts in
  0 <= nsec < 10 ^ 9 /\ 0 <= sec /\
  match ts with
  | [] => sec = 0 /\ nsec = 0
  | top :: _ => sec * 10 ^ 9 + nsec = Z.max (due top - now) MILLISECOND
  end.
Proof.
  unfold Linux.it_value, MILLISECOND. destruct ts as [|top ts]; [lia|]. change (1 * 1000000) with 1000000.
  destruct (Z.ltb_spec (due top - now) 1000000).
  - change (Z.quot 1000000 (10 ^ 9)) with 0. lia.
  - pose proof (Z.quot_pos (due top - now) (10 ^ 9)). pose proof (Z.quot_rem' (due top - now) (10 ^ 9)).
    pose proof (Z.rem_bound_pos (due top - now) (10 ^ 9)). lia.
Qed.

(** What does not depend on the platform. *)
Definition core r :=
  (Reactor.running r, Reactor.ready r, Reactor.tasks r, Reactor.timers r, Reactor.canceledTimers r, Reactor.nextTimerId r,
   Reactor.fdContexts r).

Lemma core_fields r r' : core r = core r' ->
  Reactor.running r = Reactor.running r' /\ Reactor.ready r = Reactor.ready r' /\ Reactor.timers r = Reactor.timers r' /\
  Reactor.canceledTimers r = Reactor.canceledTimers r' /\ Reactor.nextTimerId r = Reactor.nextTimerId r'.
Proof. unfold core. by intros [= -> -> _ -> -> -> _]. Qed.

Lemma core_set_timers ts c r r' : core r = core r' -> core (Reactor.set_timers ts c r) = core (Reactor.set_timers ts c r').
Proof. unfold core. cbn. by intros [= -> -> -> _ _ -> ->]. Qed.
Lemma core_set_next n r r' : core r = core r' -> core (Reactor.set_nextTimerId n r) = core (Reactor.set_nextTimerId n r').
Proof. unfold core. cbn. by intros [= -> -> -> -> -> _ ->]. Qed.

Lemma port_arm_core p now r : Reactor.ready r = true -> core (port_arm p now r) = core (purged r).
Proof.
  intros Hr. destruct p; cbn [port_arm]; unfold Reactor.armNextTimerLocked, mac_arm, windows_arm, purged; rewrite ?Hr;
    cbn [negb]; destruct (Reactor.purge (Reactor.timers r) (Reactor.canceledTimers r)) as [ts c].
  - by destruct ts.
  - done.
  - cbn. by rewrite Hr.
Qed.

Lemma core_purged r r' : core r = core r' -> core (purged r) = core (purged r').
Proof.
  intros Hc. pose proof (core_fields _ _ Hc) as (_ & _ & Ht & Hcn & _). unfold purged. rewrite Ht, Hcn.
  destruct (Reactor.purge _ _). by apply core_set_timers.
Qed.

Lemma purged_ready r : Reactor.ready (purged r) = Reactor.ready r.
Proof. unfold purged. by destruct (Reactor.purge _ _). Qed.

Lemma port_arm_agree p q now r r' :
  Reactor.ready r = true -> core r = core r' -> core (port_arm p now r) = core (port_arm q now r').
Proof.
  intros Hr Hc. pose proof (core_fields _ _ Hc) as (_ & Hr' & _). rewrite !port_arm_core by congruence. by apply core_purged.
Qed.

Lemma platform_step_agree p q op r r' :
  Reactor.ready r = true -> core r = core r' ->
  (platform_step (port_arm p) op r).1 = (platform_step (port_arm q) op r').1 /\
  core (platform_step (port_arm p) op r).2 = core (platform_step (port_arm q) op r').2 /\
  Reactor.ready (platform_step (port_arm p) op r).2 = true.
Proof.
  intros Hr Hc. pose proof (core_fields _ _ Hc) as (Hrun & Hr' & Ht & Hcn & Hn).
  assert (Harm : forall now s s', Reactor.ready s = true -> core s = core s' ->
    core (port_arm p now s) = core (port_arm q now s') /\ Reactor.ready (port_arm p now s) = true).
  { intros now s s' Hs Hss. split; [by apply port_arm_agree|].
    pose proof (core_fields _ _ (port_arm_core p now s Hs)) as (_ & -> & _). by rewrite purged_ready. }
  destruct op as [now ms h|now k|now]; cbn [platform_step].
  - unfold scheduleOnce. rewrite <- Hn. cbn [Reactor.running Reactor.set_nextTimerId]. rewrite <- Hrun.
    destruct (Reactor.running r) eqn:Hrn; cbn [negb fst snd].
    + split; [done|]. apply Harm; [done|]. cbn [Reactor.timers Reactor.canceledTimers Reactor.set_nextTimerId].
      rewrite Ht, Hcn. by apply core_set_timers, core_set_next.
    + split; [done|]. split; [by apply core_set_next|done].
  - unfold cancelTimer. rewrite <- Hcn. destruct (Reactor.canceledTimers r !! k); cbn [fst snd]; [|done].
    split; [done|]. apply Harm; [done|]. rewrite Ht. by apply core_set_timers.
  - unfold fireDueTimers. rewrite <- Ht, <- Hcn. destruct (Reactor.collect now _ _) as [[hs ts] c]. cbn [fst snd].
    split; [done|]. apply Harm; [done|]. by apply core_set_timers.
Qed.

(** ** Waiting *)

Definition top_live r : Prop :=
  match Reactor.timers r with [] => True | top :: _ => Reactor.canceledTimers r !! id top = Some false end.

(** Timeouts are [int]s of milliseconds. *)
Definition within_int now r : Prop := forall x, x ∈ Reactor.timers r -> due x <= now + (2 ^ 31 - 1) * MILLISECOND.

(** The wait is over at the first deadline or a millisecond from now, and less
    than a millisecond early. *)
Definition timely now (top : TimerItem H) (w : Z) : Prop :=
  w <= Z.max (due top) (now + MILLISECOND) /\ due top < w + MILLISECOND.

Definition top_in_time p now r : Prop :=
  match Reactor.timers r with
  | [] => port_wait p now r = None
  | top :: _ => exists w, port_wait p now r = Some w /\ timely now top w
  end.

Definition port_ok p now r : Prop :=
  top_live r /\ within_int now r /\ (p <> WindowsPort -> top_in_time p now r).

Lemma timely_later now now' top w : timely now top w -> now <= now' -> timely now' top w.
Proof. unfold timely. lia. Qed.

Lemma port_ok_later p now now' r : port_ok p now r -> now <= now' -> port_ok p now' r.
Proof.
  intros (Ht & Hb & Hw) Hn. split; [done|]. split; [intros x Hx; specialize (Hb x Hx); lia|].
  intros Hp. specialize (Hw Hp). unfold top_in_time in *. destruct (Reactor.timers r) as [|top ts]; [by destruct p|].
  destruct Hw as (w & Hw & Hin). exists w. split; [by destruct p|]. by eapply timely_later.
Qed.

(** Milliseconds are rounded towards zero. *)
Lemma millis_timely now (top : TimerItem H) :
  let ms := Z.quot (due top - now) MILLISECOND in timely now top (now + (if ms <? 1 then 1 else ms) * MILLISECOND).
Proof.
  cbv zeta. unfold timely, MILLISECOND. pose proof (Z.quot_rem' (due top - now) 1000000) as Hq.
  destruct (Z.le_gt_cases 0 (due top - now)).
  - pose proof (Z.rem_bound_pos (due top - now) 1000000). destruct (Z.ltb_spec (Z.quot (due top - now) 1000000) 1); lia.
  - pose proof (Z.rem_bound_pos_neg (due top - now) 1000000). destruct (Z.ltb_spec (Z.quot (due top - now) 1000000) 1); lia.
Qed.

Lemma windows_in_time now r :
  within_int now r -> (forall x, x ∈ Reactor.timers r -> now - due x < 2 ^ 31 * MILLISECOND) ->
  top_in_time WindowsPort now r.
Proof.
  unfold within_int. intros Hb Ho. unfold top_in_time. cbn [port_wait]. unfold windows_wait, Windows.select_timeout.
  destruct (Reactor.timers r) as [|top ts]; [done|]. specialize (Hb top (list_elem_of_here _ _)). specialize (Ho top (list_elem_of_here _ _)).
  pose proof (millis_timely now top) as Hm. cbv zeta in Hm.
  assert (Hms : - 2 ^ 31 <= Z.quot (due top - now) MILLISECOND < 2 ^ 31).
  { unfold MILLISECOND in *. pose proof (Z.quot_rem' (due top - now) 1000000).
    destruct (Z.le_gt_cases 0 (due top - now));
      [pose proof (Z.rem_bound_pos (due top - now) 1000000)|pose proof (Z.rem_bound_pos_neg (due top - now) 1000000)]; lia. }
  replace (i32 (Z.quot (due top - now) MILLISECOND)) with (Z.quot (due top - now) MILLISECOND)
    by (unfold i32; rewrite Z.mod_small by lia; lia).
  set (ms := if _ <? 1 then 1 else _) in *. exists (now + ms * MILLISECOND). split; [|done]. cbn. f_equal.
  unfold MILLISECOND. pose proof (Z.quot_rem' ms 1000). lia.
Qed.

Lemma arm_port_ok p now r :
  timers_ok r -> Reactor.ready r = true -> within_int now r -> port_ok p now (port_arm p now r).
Proof.
  intros Hok Hr Hb. destruct (Reactor.purge (Reactor.timers r) (Reactor.canceledTimers r)) as [ts c] eqn:Hp.
  pose proof (purge_spec _ _ _ _ Hp (tk_queue _ Hok)) as (_ & _ & Hlive).
  assert (Hpurged : purged r = Reactor.set_timers ts c r) by (unfold purged; by rewrite Hp).
  pose proof (core_fields _ _ (port_arm_core p now r Hr)) as (_ & _ & Hts & Hc & _). rewrite Hpurged in Hts, Hc. cbn in Hts, Hc.
  split; [|split].
  - unfold top_live. rewrite Hts, Hc. destruct ts; [done|]. apply Hlive.
  - intros x Hx. rewrite Hts in Hx. apply Hb. by eapply purge_incl.
  - intros Hne. unfold top_in_time. rewrite Hts. destruct p; [| |done]; cbn [port_wait port_arm]; unfold kernel_wait.
    + unfold Reactor.armNextTimerLocked. rewrite Hr, Hp. cbn [negb]. destruct ts as [|top ts]; [done|].
      eexists. split; [done|]. unfold timely, MILLISECOND. destruct (Z.ltb_spec (due top - now) 1000000); lia.
    + unfold mac_arm. rewrite Hr, Hpurged. cbn. destruct ts as [|top ts]; [done|].
      eexists. split; [done|]. apply millis_timely.
Qed.

Lemma core_timers_ok r r' : core r = core r' -> timers_ok r -> timers_ok r'.
Proof. intros (_ & _ & Ht & Hc & Hn)%core_fields []. by split; rewrite <- ?Ht, <- ?Hc, <- ?Hn. Qed.

Lemma core_pending r r' : core r = core r' -> pending r = pending r'.
Proof. intros (_ & _ & Ht & Hc & _)%core_fields. unfold pending. by rewrite Ht, Hc. Qed.


Definition int_timeout (op : timer_op (H := H)) : Prop :=
  match op with Schedule _ timeoutMs _ => timeoutMs < 2 ^ 31 | _ => True end.

Lemma platform_step_ok p op now0 r :
  timers_ok r -> Reactor.ready r = true -> Reactor.running r = true -> Reactor.nextTimerId r + 1 < 2 ^ 64 ->
  port_ok p now0 r -> now0 <= op_time op -> int_timeout op ->
  port_ok p (op_time op) (platform_step (port_arm p) op r).2.
Proof.
  intros Hok Hr Hrun Hn Hp Hnow Hint. pose proof (port_ok_later _ _ _ _ Hp Hnow) as Hp'.
  pose proof (proj1 (proj2 Hp')) as Hb. destruct op as [now ms h|now k|now]; cbn [platform_step op_time int_timeout] in *.
  - unfold scheduleOnce. cbn [Reactor.running Reactor.set_nextTimerId]. rewrite Hrun. cbn [negb fst snd].
    pose proof (tk_next _ Hok). replace (u64 (Reactor.nextTimerId r + 1)) with (Reactor.nextTimerId r + 1) by (symmetry; apply u64_small; lia).
    apply arm_port_ok; [exact (proj1 (schedule_queue _ _ _ Hok))|done|].
    intros x. cbn. rewrite heap_push_perm, elem_of_cons. intros [->|Hx]; [cbn; unfold MILLISECOND; lia|by apply Hb].
  - unfold cancelTimer. destruct (Reactor.canceledTimers r !! k) as [b|] eqn:Hk; cbn [snd]; [|done].
    apply arm_port_ok; [by eapply cancel_queue|done|done].
  - unfold fireDueTimers. destruct (Reactor.collect now _ _) as [[hs ts] c] eqn:Hc. cbn [snd].
    apply arm_port_ok; [by eapply collect_queue|done|]. intros x Hx. cbn in Hx. apply Hb. by eapply collect_incl.
Qed.

Lemma platform_run_ok p ops now0 r l :
  core r = core l -> working l -> armed now0 l -> port_ok p now0 r ->
  Sorted Z.le (now0 :: map op_time ops) -> Forall int_timeout ops -> Reactor.nextTimerId l + zlen ops < 2 ^ 64 ->
  (platform_run (port_arm p) ops r).1 = (timer_run ops l).1 /\
  core (platform_run (port_arm p) ops r).2 = core (timer_run ops l).2 /\
  working (timer_run ops l).2 /\ port_ok p (last_time now0 ops) (platform_run (port_arm p) ops r).2.
Proof.
  revert now0 r l. induction ops as [|op ops IH]; intros now0 r l Hc Hl Ha Hp Hs Hi Hn; [done|].
  rewrite zlen_cons in Hn. cbn [map] in Hs. apply Sorted_inv in Hs as [Hs Hd]. apply HdRel_inv in Hd. apply Forall_cons in Hi as [Hi His].
  pose proof (core_fields _ _ Hc) as (Hrun & Hready & _ & _ & Hnext). pose proof Hl as (Hok & Hlrun & Hlready).
  pose proof (zlen_nonneg ops).
  pose proof (timer_step_ok op now0 l Hl Ha Hd ltac:(lia)) as Hstep.
  destruct (platform_step_agree p LinuxPort op r l) as (Hout & Hc' & _); [congruence|done|]. rewrite linux_timer_step in Hout, Hc'.
  pose proof (platform_step_ok p op now0 r (core_timers_ok _ _ (eq_sym Hc) Hok) ltac:(congruence) ltac:(congruence) ltac:(lia) Hp Hd ltac:(done)) as Hp'.
  cbn [platform_run timer_run]. destruct (timer_step op l) as [out l']. destruct (platform_step (port_arm p) op r) as [out' r'].
  cbn [fst snd] in *. destruct Hstep as (Hl' & Ha' & Hn' & _).
  specialize (IH (op_time op) r' l' Hc' Hl' Ha' Hp' Hs ltac:(done) ltac:(lia)).
  destruct (timer_run ops l') as [outs l'']. destruct (platform_run (port_arm p) ops r') as [outs' r''].
  cbn [fst snd] in *. destruct IH as (-> & ? & ? & ?). by rewrite Hout.
Qed.

(** The wait of a platform against the pending timers; a timer overdue by more
    than 24 days does not fit the [long] of Windows. *)
Definition in_time p now r : Prop :=
  (forall k d h, pending r !! k = Some (d, h) -> exists w, port_wait p now r = Some w /\ w <= Z.max d (now + MILLISECOND)) /\
  (forall w, port_wait p now r = Some w -> exists k d h, pending r !! k = Some (d, h) /\ d < w + MILLISECOND).

Lemma port_in_time p now r :
  timers_ok r -> port_ok p now r -> (forall x, x ∈ Reactor.timers r -> now - due x < 2 ^ 31 * MILLISECOND) -> in_time p now r.
Proof.
  intros Hok (Hlive & Hb & Hw) Ho.
  assert (Ht : top_in_time p now r) by (destruct p; [by apply Hw|by apply Hw|by apply windows_in_time]).
  unfold top_in_time, top_live in *. unfold in_time.
  destruct (Reactor.timers r) as [|top ts] eqn:Hts.
  - split; [|congruence]. intros k d h [Hk _]%pending_lookup; [|done]. rewrite Hts in Hk. by apply elem_of_nil in Hk.
  - destruct Ht as (w & -> & Hw1 & Hw2). split.
    + intros k d h [Hk _]%pending_lookup; [|done]. exists w. split; [done|].
      pose proof (qo_sorted _ _ (tk_queue _ Hok)) as Hs. rewrite Hts in Hs, Hk. apply StronglySorted_inv in Hs as [_ Hs].
      apply elem_of_cons in Hk as [Hk|Hk]; [subst top; cbn in *; lia|]. rewrite Forall_forall in Hs. specialize (Hs _ Hk).
      unfold due_le in Hs. cbn in Hs. lia.
    + intros w' [= <-]. exists (id top), (due top), (handler top). split; [|done]. apply pending_lookup; [done|].
      split; [rewrite Hts; destruct top; apply list_elem_of_here|done].
Qed.
End timers.

(** C31: the three platforms keep the same timers.  For any operations on the
    timers of a started reactor, in the order of the clock, every platform
    returns the same identifiers and results, fires the same handlers in the
    same order and keeps the same timers; and each waits no longer than to the
    first pending deadline - or the millisecond it waits at least - and ends
    its wait less than a millisecond before one. *)
Theorem platforms_agree {Task H F} `{HeapOrder} (ops : list (timer_op (H := H))) now0 p :
  Sorted Z.le (now0 :: map op_time ops) -> Forall int_timeout ops -> zlen ops < 2 ^ 64 - 1 ->
  let started : Reactor.t Task H F := snd (Reactor.start true Reactor.init) in
  let '(outs, r) := platform_run (port_arm p) ops started in
  let '(outs_linux, linux) := timer_run ops started in
  outs = outs_linux /\ core r = core linux /\
  ((forall x, x ∈ Reactor.timers r -> last_time now0 ops - due x < 2 ^ 31 * MILLISECOND) ->
   in_time p (last_time now0 ops) r).
Proof.
  intros Hs Hi Hn. cbv zeta. set (started := snd (Reactor.start true Reactor.init)).
  assert (Hw : working started).
  { split; [|done]. split; cbn; [split; cbn; [constructor|constructor|]|by intros x Hx%elem_of_nil|lia].
    intros k. rewrite lookup_empty, elem_of_nil. split; [by intros []%is_Some_None|done]. }
  assert (Ha : armed now0 started) by (intros k d h; unfold pending; cbn; by rewrite lookup_empty).
  assert (Hp : port_ok p now0 started) by (split; [done|]; split; [by intros x Hx%elem_of_nil|]; by destruct p).
  pose proof (platform_run_ok p ops now0 started started eq_refl Hw Ha Hp Hs Hi) as Hrun.
  change (Reactor.nextTimerId started) with 1 in Hrun. specialize (Hrun ltac:(lia)).
  destruct (platform_run (port_arm p) ops started) as [outs r]. destruct (timer_run ops started) as [outs' l]. cbn [fst snd] in Hrun.
  destruct Hrun as (-> & Hc & Hl & Hp'). split; [done|]. split; [done|]. intros Ho. apply port_in_time; [|done|done].
  eapply core_timers_ok; [done|]. apply Hl.
Qed.

(** ** The wakeups of Windows

    [armNextTimerLocked] writes to the pair of sockets even when it is the loop
    that fires the timers, as it does on every turn: the wait of the next turn
    finds the pair readable, so the loop never sleeps. *)
Lemma windows_never_sleeps {Task H F} (now : Z) (r : Reactor.t Task H F) :
  Reactor.ready r = true -> Reactor.woken (snd (fireDueTimers windows_arm now r)) = true.
Proof.
  intros Hr. unfold fireDueTimers. destruct (Reactor.collect _ _ _) as [[hs ts] c]. unfold windows_arm. cbn [snd].
  rewrite purged_ready. change (Reactor.ready (Reactor.set_timers _ _ _)) with (Reactor.ready r). by rewrite Hr.
Qed.

(** On the others it does not. *)
Lemma others_may_sleep {Task H F} p (now : Z) (r : Reactor.t Task H F) :
  p <> WindowsPort -> Reactor.woken (snd (fireDueTimers (port_arm p) now r)) = Reactor.woken r.
Proof.
  intros Hp. unfold fireDueTimers. destruct (Reactor.collect _ _ _) as [[hs ts] c]. cbn [snd]. destruct p; [| |done]; cbn [port_arm].
  - pose proof (arm_rest now (Reactor.set_timers ts c r)) as Ha. unfold rest in Ha. by injection Ha.
  - unfold mac_arm. destruct (Reactor.ready _); [|done]. cbn [negb]. unfold purged. by destruct (Reactor.purge _ _).
Qed.

(** *** Runs to apply them to *)

Lemma platforms_agree_witness :
  let started : Reactor.t unit nat unit := snd (Reactor.start true Reactor.init) in
  let '(outs, r) := platform_run (port_arm WindowsPort) example_ops started in
  let '(outs_linux, linux) := timer_run example_ops started in
  outs = outs_linux /\ core r = core linux /\
  ((forall x, x ∈ Reactor.timers r -> last_time 0 example_ops - due x < 2 ^ 31 * MILLISECOND) ->
   in_time WindowsPort (last_time 0 example_ops) r).
Proof.
  apply (platforms_agree example_ops 0 WindowsPort).
  - repeat constructor; vm_compute; discriminate.
  - repeat constructor.
  - reflexivity.
Defined.

Lemma reactor_descriptors_witness :
  let kernel := sim_kernel 3 in let laws := sim_kernel_laws 3 in let platform := @linux_platform _ kernel in
  match @lives unit unit unit _ platform [true; true; false; true] (closed, Reactor.init) (∅ : gset N) with
  | Ok ((_, (m, r)), k') =>
      @held _ kernel laws k' = @held _ kernel laws ∅ ∪ fds_of m /\ fds_of m ## @held _ kernel laws ∅ /\
      (Reactor.running r = true <-> fds_of m <> ∅) /\ Reactor.ready r = Reactor.running r
  | Fault _ => False
  end.
Proof.
  apply (@reactor_descriptors unit unit unit _ (sim_kernel 3) (sim_kernel_laws 3) _ linux_laws [true; true; false; true] ∅).
Defined.
