(* ===== verification/CallbackDispatcher.v ===== *)
(** * The callback dispatcher

    [include/chttp2/callback_dispatcher.hpp] and
    [src/callback_dispatcher.cpp]: a queue of callbacks and the thread that
    runs them.  Every method is one step under the mutex. *)

From S2P Require Import Prelude Outcome.

Module CallbackDispatcher.
Section dispatcher.
Context {Task : Type}.

Record t := mk { running : bool; stopRequested : bool; tasks : list Task }.

Definition init : t := mk false false [].
Definition isRunning (d : t) : bool := running d.

Definition start (d : t) : bool * t :=
  if running d then (true, d) else (true, mk true false (tasks d)).

(** [stop], before and after the worker is joined. *)
Definition stop_request (d : t) : t := if running d then mk true true (tasks d) else d.
Definition stop_joined (d : t) : t := mk false (stopRequested d) [].

Definition post (task : option Task) (d : t) : bool * t :=
  match task with
  | None => (false, d)
  | Some task =>
      if negb (running d) || stopRequested d then (false, d)
      else (true, mk (running d) (stopRequested d) (tasks d ++ [task]))
  end.

(** One iteration of [runLoop]: the task to run; the loop ends when there is
    none and a stop is requested. *)
Definition take_task (d : t) : option Task * t :=
  match tasks d with
  | [] => (None, d)
  | task :: rest => (Some task, mk (running d) (stopRequested d) rest)
  end.
Definition loop_ends (d : t) : bool := stopRequested d && match tasks d with [] => true | _ => false end.
End dispatcher.
Arguments t : clear implicits.
End CallbackDispatcher.
