(* ===== verification/Endpoint.v ===== *)
(** * Endpoints

    [include/chttp2/endpoint.hpp]: the target of a connection, its custom
    equality and the hash the connection tables use. *)

From S2P Require Import Prelude Outcome Types.

(** Bytes and byte strings as keys. *)
#[export] Instance byte_countable : Countable byte.
Proof.
  apply (inj_countable' Byte.to_N (fun n => default x00 (Byte.of_N n))).
  intros b. by rewrite Byte.of_to_N.
Defined.

Inductive SocketType : Type := TCP | UNIX.

#[export] Instance SocketType_eq_dec : EqDecision SocketType.
Proof. solve_decision. Defined.

(** What identifies an endpoint. *)
Definition EndpointKey : Type := bytes + (bytes * Z * bool).

Module Endpoint.
Record t := mk {
  host : bytes;
  port : Z;
  useSSL : bool;
  certFile : bytes;
  ip : bytes;
  sockFile : bytes;
  type : SocketType;
}.

Definition is_empty (s : bytes) : bool := match s with [] => true | _ => false end.

Definition target (ep : t) : bytes :=
  match type ep with
  | UNIX => sockFile ep
  | TCP => if is_empty (host ep) then ip ep else host ep
  end.

(** [operator==] *)
Definition eqb (a b : t) : bool :=
  if negb (bool_decide (type a = type b)) then false
  else
    match type a with
    | UNIX => bool_decide (sockFile a = sockFile b)
    | TCP => bool_decide (target a = target b) && (port a =? port b) && Bool.eqb (useSSL a) (useSSL b)
    end.

(** The tables keyed by endpoints are keyed by this. *)
Definition key (ep : t) : EndpointKey :=
  match type ep with
  | UNIX => inl (sockFile ep)
  | TCP => inr (target ep, port ep, useSSL ep)
  end.

(** [EndpointHash], with the three instances of [std::hash] it uses;
    [std::size_t] has 64 bits. *)
Section hash.
Context (hash_string : bytes -> Z) (hash_u16 : Z -> Z) (hash_bool : bool -> Z).

Definition mix (h x : Z) : Z := Z.lxor h (u64 (x + 0x9e3779b9 + u64 (Z.shiftl h 6) + Z.shiftr h 2)).

Definition hash (ep : t) : Z :=
  let h := hash_string (target ep) in
  match type ep with
  | UNIX => h
  | TCP => mix (mix h (hash_u16 (port ep))) (hash_bool (useSSL ep))
  end.
End hash.

Lemma key_eqb a b : eqb a b = true <-> key a = key b.
Proof.
  unfold eqb, key. destruct (decide (type a = type b)) as [Ht|Ht].
  - rewrite bool_decide_true, <- Ht by done. cbn [negb]. destruct (type a).
    + rewrite !andb_true_iff, bool_decide_eq_true, Z.eqb_eq, Bool.eqb_true_iff. split.
      * by intros [[-> ->] ->].
      * by intros [= -> -> ->].
    + rewrite bool_decide_eq_true. split; [by intros ->|by intros [=]].
  - rewrite bool_decide_false by done. by destruct (type a), (type b).
Qed.
End Endpoint.

(** Endpoints are sound keys of a hash table.  The custom equality is an
    equivalence relation, it is exactly equality of keys, and equal endpoints
    hash alike whatever the standard hashes are: the tables of connections
    and of pending requests never keep one endpoint under two entries. *)
Theorem endpoint_key_sound :
  (forall a b, Endpoint.eqb a b = true <-> Endpoint.key a = Endpoint.key b) /\
  (forall hs hu hb a b, Endpoint.eqb a b = true -> Endpoint.hash hs hu hb a = Endpoint.hash hs hu hb b) /\
  Equivalence (fun a b => Endpoint.eqb a b = true).
Proof.
  split; [apply Endpoint.key_eqb|]. split.
  - intros hs hu hb a b Hab%Endpoint.key_eqb. revert Hab. unfold Endpoint.key, Endpoint.hash, Endpoint.target.
    destruct (Endpoint.type a), (Endpoint.type b); [by intros [= -> -> ->]|done|done|by intros [= ->]].
  - split.
    + intros a. by apply Endpoint.key_eqb.
    + intros a b. rewrite !Endpoint.key_eqb. by intros ->.
    + intros a b c. rewrite !Endpoint.key_eqb. by intros -> ->.
Qed.
