(* ===== verification/IHttpSession.v ===== *)
(** * The session interface

    [include/chttp2/ihttp_session.hpp]: what a [Connection] knows of its
    session, as a class, with the laws the connection layer relies on.
    [Http2Session] is the instance. *)

From S2P Require Import Prelude Outcome Types ProtocolEvent ProtocolState.
From S2P Require Import ProtocolInv ProtocolFacts ProtocolSafety ProtocolOps.
From S2P Require Import Std RequestContext Transport Session SessionFacts.

(** The virtual methods; [make] is what [new Http2Session(ep, config)]
    builds.  Methods that do I/O take the results of its calls. *)
Class IHttpSession (S : Type) : Type := {
  sess_make : ClientConfig.t -> S;
  sess_start : option Z -> bool -> st S bool;
  sess_close : st S (list SessionEvent);
  sess_isHealthy : S -> bool;
  sess_isGoingAway : S -> bool;
  sess_hasStreamCapacity : S -> bool;
  sess_activeStreamCount : S -> Z;
  sess_submit : Request.t -> RequestContextPtr -> st (S * Contexts) (list SessionEvent);
  sess_cancelRequest : RequestContextPtr -> st (S * Contexts) (list SessionEvent);
  sess_sendPing : st S (list SessionEvent);
  sess_pollFd : S -> Z;
  sess_wantsWrite : S -> bool;
  sess_onReadable : list (IOState * bytes) -> st S (list SessionEvent);
  sess_onWritable : list IOResult -> st S bytes;
}.

#[export] Instance http2_session `{IterOrder} `{!HashOrder Z} : IHttpSession Http2Session.t := {
  sess_make := Http2Session.make;
  sess_start := Http2Session.start;
  sess_close := Http2Session.close;
  sess_isHealthy := Http2Session.isHealthy;
  sess_isGoingAway := Http2Session.isGoingAway;
  sess_hasStreamCapacity := Http2Session.hasStreamCapacity;
  sess_activeStreamCount := Http2Session.activeStreamCount;
  sess_submit := Http2Session.submit;
  sess_cancelRequest := Http2Session.cancelRequest;
  sess_sendPing := Http2Session.sendPing;
  sess_pollFd := Http2Session.pollFd;
  sess_wantsWrite := Http2Session.wantsWrite;
  sess_onReadable := Http2Session.onReadable;
  sess_onWritable := Http2Session.onWritable;
}.

(** ** The laws *)

(** A context as its session leaves it: only the stream's id may change. *)
Definition same_request (c c' : RequestContext.t) : Prop :=
  exists sid, c' = RequestContext.setStreamId sid c.
Definition same_requests (h h' : Contexts) : Prop :=
  (forall p c, h !! p = Some c -> exists c', h' !! p = Some c' /\ same_request c c') /\
  (forall p, is_Some (h' !! p) -> is_Some (h !! p)).

#[export] Instance same_requests_preorder : PreOrder same_requests.
Proof.
  split.
  - intros h. split; [|done]. intros p c Hc. exists c. split; [done|]. exists (RequestContext.streamId c). by destruct c.
  - intros h1 h2 h3 [H12 H21] [H23 H32]. split; [|auto]. intros p c Hc.
    destruct (H12 p c Hc) as (c2 & Hc2 & sid & ->). destruct (H23 p _ Hc2) as (c3 & Hc3 & sid' & ->).
    exists (RequestContext.setStreamId sid' (RequestContext.setStreamId sid c)). split; [done|]. by exists sid'.
Qed.

(** Events that only complete requests; events of one request. *)
Definition completes_only (evs : list SessionEvent) : Prop :=
  Forall (fun ev => exists p r, ev = REQUEST_DONE p r) evs.
Definition completes_request (p : RequestContextPtr) (evs : list SessionEvent) : Prop :=
  Forall (fun ev => exists r, ev = REQUEST_DONE p r) evs.

(** [sess_ok k s]: the invariant, with [k] bytes still to be received;
    [sess_held s]: the contexts the session keeps. *)
Class SessionLaws (S : Type) `{IHttpSession S} : Type := {
  sess_ok : Z -> S -> Prop;
  sess_held : S -> list RequestContextPtr;
  sess_fault : fault -> Prop;
  law_mono k k' s : sess_ok k s -> 0 <= k' <= k -> sess_ok k' s;
  law_make config k :
    ClientConfig.wf config -> 0 <= k <= 2 ^ 31 -> sess_ok k (sess_make config) /\ sess_held (sess_make config) = [];
  law_start k s created inited :
    sess_ok k s -> 0 <= k -> sess_held s = [] ->
    wp sess_fault (sess_start created inited) (fun _ s' => sess_ok k s' /\ sess_held s' = []) s;
  law_close k s :
    sess_ok k s -> 0 <= k ->
    wp sess_fault sess_close
      (fun evs s' => sess_ok k s' /\ completes_only evs /\ done_contexts evs ++ sess_held s' ⊆ sess_held s) s;
  law_submit k s h request p :
    sess_ok k s -> 0 <= k -> request_fits request -> is_Some (h !! p) ->
    wp sess_fault (sess_submit request (Some p))
      (fun evs sh => sess_ok k (fst sh) /\ completes_request (Some p) evs /\
         sess_held (fst sh) ⊆ Some p :: sess_held s /\ same_requests h (snd sh)) (s, h);
  law_cancel k s h p :
    sess_ok k s -> 0 <= k -> is_Some (h !! p) ->
    wp sess_fault (sess_cancelRequest (Some p))
      (fun evs sh => sess_ok k (fst sh) /\ completes_only evs /\
         done_contexts evs ++ sess_held (fst sh) ⊆ sess_held s /\ same_requests h (snd sh)) (s, h);
  law_ping k s :
    sess_ok k s -> 0 <= k ->
    wp sess_fault sess_sendPing (fun evs s' => evs = [] /\ sess_ok k s' /\ sess_held s' = sess_held s) s;
  law_read k s reads :
    sess_ok (k + reads_bytes reads) s -> 0 <= k ->
    wp sess_fault (sess_onReadable reads)
      (fun evs s' => sess_ok k s' /\ done_contexts evs ++ sess_held s' ⊆ sess_held s) s;
  law_write k s writes :
    sess_ok k s -> 0 <= k -> writes_ok writes ->
    wp sess_fault (sess_onWritable writes) (fun _ s' => sess_ok k s' /\ sess_held s' ⊆ sess_held s) s;
}.
