(* ===== verification/SessionLaws.v ===== *)
(** * HTTP/2 sessions keep the interface's laws *)

From S2P Require Import Prelude Outcome ByteBuffer Types Flow Frame FrameFacts FrameCodec.
From S2P Require Import FrameParse HeaderRules Hpack ProtocolEvent Stream ProtocolState.
From S2P Require Import Protocol ProtocolHandlers ProtocolInv ProtocolFrame ProtocolFacts.
From S2P Require Import ProtocolSafety ProtocolOps ProtocolLedger ProtocolRuns.
From S2P Require Import Std RequestContext Transport Session SessionFacts SessionProps IHttpSession.
Import Http2Session.

(** ** The events of one stream *)

(** What submitting and cancelling report concerns their own stream. *)
Definition own_event (id : Z) (ev : ProtocolEvent) : Prop :=
  match ev with
  | streamOpened j | streamClosed j _ | responseCompleted j _ | responseFailed j _ => j = id
  | _ => False
  end.

(** Any fault, any value: for the calls whose outcome does not matter. *)
Definition anything : fault -> Prop := fun _ => True.

Lemma wp_anything {S A} (m : st S A) (Q : A -> S -> Prop) s : (forall a s', Q a s') -> wp anything m Q s.
Proof. intros HQ. unfold wp. by destruct (m s) as [[a s']|f]. Qed.

(** Skip a call. *)
Ltac skip := apply wp_bind, wp_anything; intros.

Definition own_events (id : Z) (r : StepResult.t) : Prop := Forall (own_event id) (StepResult.events r).

Lemma own_push id ev r : own_events id r -> own_event id ev -> own_events id (StepResult.push_event ev r).
Proof. intros Hr Hev. apply Forall_app_2; [done|]. by constructor. Qed.

Lemma emit_continuations_own fuel id span r p :
  own_events id r -> wp anything (emit_continuations fuel id span r) (fun r' _ => own_events id r') p.
Proof.
  revert span r p. induction fuel as [|fuel IH]; intros span r p Hr; cbn [emit_continuations]; [done|].
  case_if; [|by apply wp_ret]. do 3 skip. by apply IH.
Qed.

Lemma emitRequestHeaders_own id encoded r p :
  own_events id r -> wp anything (emitRequestHeaders id encoded r) (fun r' _ => own_events id r') p.
Proof.
  intros Hr. unfold emitRequestHeaders. do 3 skip. destruct a1 as [[header data] span]. skip.
  by apply emit_continuations_own.
Qed.

Lemma body_loop_own fuel id r p :
  own_events id r -> wp anything (body_loop fuel id r) (fun r' _ => own_events id r') p.
Proof.
  revert r p. induction fuel as [|fuel IH]; intros r p Hr; cbn [body_loop]; [done|].
  skip. case_if; [by apply wp_ret|]. skip. case_if; [by apply wp_ret|]. skip. destruct a1 as [conn out]. do 5 skip. by apply IH.
Qed.

Lemma emitPending_own id r p :
  own_events id r -> wp anything (emitPendingRequestBody id r) (fun r' _ => own_events id r') p.
Proof.
  intros Hr. unfold emitPendingRequestBody. skip. case_if; [by apply wp_ret|].
  wp_step. eapply wp_mono; [by apply body_loop_own|]. intros r1 p1 Hr1. skip. case_if; [|by apply wp_ret].
  case_if.
  - do 2 skip. apply wp_ret. by apply own_push.
  - skip. by apply wp_ret.
Qed.

Lemma submit_own request p r p' :
  submitRequest request p = Ok (r, p') ->
  refused r \/ StepResult.hasSubmittedStream r = true /\ own_events (StepResult.submittedStreamId r) r.
Proof.
  intros Hrun. destruct (submitRequest_cases request p r p' Hrun) as [[_ Href]|(_ & _ & _ & _ & Htail)]; [by left|right].
  set (id := Http2Protocol.nextStreamId p) in *.
  assert (Hw : wp anything (submit_tail request id)
    (fun r _ => StepResult.hasSubmittedStream r = true /\ StepResult.submittedStreamId r = id /\ own_events id r)
    (opened_state request p)).
  { unfold submit_tail. do 2 skip. destruct a0 as [encoded hp]. skip. wp_step.
    eapply wp_mono; [apply emitRequestHeaders_own; by apply own_push; [constructor|]|]. intros r1 p1 Hr1. do 2 skip.
    wp_step. eapply wp_mono; [by apply emitPending_own|]. intros r2 p2 Hr2. by apply wp_ret. }
  destruct (wp_inv _ _ _ _ _ _ Hw Htail) as (Hhas & Hid & Hown). rewrite Hid. done.
Qed.

Lemma cancel_own id code p r p' : cancelStream id code p = Ok (r, p') -> own_events id r.
Proof.
  intros Hrun. assert (Hw : wp anything (cancelStream id code) (fun r _ => own_events id r) p).
  { unfold cancelStream, failStream. skip. case_if; [constructor|]. skip. case_if; [constructor|]. do 6 skip. apply wp_ret.
    apply own_push; [|done]. apply own_push; [|done]. case_if; constructor. }
  by apply (wp_inv _ _ _ _ _ _ Hw Hrun).
Qed.

(** ** Translating them *)

Section laws.
Context `{IterOrder} `{!HashOrder Z}.

(** The stream is held for this context, or not at all. *)
Definition holds_only (id : Z) (c : RequestContextPtr) (s : t) : Prop :=
  streamContexts s !! id = Some c \/ streamContexts s !! id = None.

Lemma finish_only id c response s evs s' :
  finish_stream id response s = (evs, s') -> holds_only id c s -> completes_request c evs /\ holds_only id c s'.
Proof.
  unfold finish_stream, holds_only. destruct (streamContexts s !! id) as [c'|] eqn:Hc; intros [= <- <-] Hh.
  - destruct Hh as [[= ->]|]; [|done]. split; [constructor; [by eexists|constructor]|]. right. apply lookup_delete_eq.
  - split; [constructor|by right].
Qed.

Lemma translate_only id c es s evs s' :
  translateEvents es s = (evs, s') -> Forall (own_event id) es -> holds_only id c s ->
  completes_request c evs /\ holds_only id c s'.
Proof.
  intros Htr Hes. revert s evs Htr. induction Hes as [|ev es Hev Hes IH]; intros s evs; cbn [translateEvents].
  { intros [= <- <-] Hh. split; [constructor|done]. }
  destruct (translateEvent ev s) as [evs1 s1] eqn:H1, (translateEvents es s1) as [evs2 s2] eqn:H2. intros [= <- <-] Hh.
  assert (Hev1 : completes_request c evs1 /\ holds_only id c s1).
  { destruct ev; try done; cbn [own_event] in Hev; subst; cbn [translateEvent] in H1;
      try (by injection H1 as <- <-; split; [constructor|]); by eapply finish_only. }
  destruct Hev1 as [Hc1 Hh1]. destruct (IH s1 evs2 H2 Hh1) as [Hc2 Hh2]. split; [by apply Forall_app_2|done].
Qed.

(** [consumeStepResult] and [translateEvents] on the result of such a call. *)
Lemma translate_result_only id c r s evs s' :
  translate_result r s = Ok (evs, s') -> own_events id r -> holds_only id c s -> completes_request c evs /\ holds_only id c s'.
Proof.
  unfold translate_result, consumeStepResult. rewrite enqueue_all_eq. intros [= Htr] Hown Hh.
  by eapply translate_only.
Qed.

Lemma cancel_stream_only id c s evs s' :
  cancel_stream id s = Ok (evs, s') -> holds_only id c s -> completes_request c evs /\ holds_only id c s'.
Proof.
  unfold cancel_stream, bind, on_protocol. intros Hrun Hh.
  destruct (cancelStream id ErrorCode.CANCEL (protocol s)) as [[r p]|f] eqn:Hc; [|done].
  destruct (translate_result r (set_protocol p s)) as [[evs1 s1]|f] eqn:Ht; [|done].
  destruct (translate_result_only id c _ _ _ _ Ht (cancel_own _ _ _ _ _ Hc) Hh) as [Hc1 Hh1].
  unfold get, modify, ret in Hrun. destruct (finish_stream id _ s1) as [done s2] eqn:Hf. injection Hrun as <- <-.
  destruct (finish_only _ _ _ _ _ _ Hf Hh1) as [Hc2 Hh2]. split; [by apply Forall_app_2|done].
Qed.

Lemma submit_stream_only k request context canceled finished s r s' :
  session_ok k s -> submit_stream request context canceled finished s = Ok (r, s') -> completes_request context (fst r).
Proof.
  intros Hs. unfold submit_stream, bind at 1, get. destruct (isHealthy s); cbn [negb].
  2:{ intros [= <- <-]. constructor; [by eexists|constructor]. }
  unfold bind at 1, on_protocol. destruct (submitRequest request (protocol s)) as [[r0 p]|f] eqn:Hsub; [|done].
  destruct (submit_answers request _ _ _ _ (sk_protocol _ _ Hs) Hsub) as [(-> & Href)|(_ & Hhas & _)].
  - assert (Hno : StepResult.hasSubmittedStream r0 = false) by (destruct Href as [code ->]; done). rewrite Hno.
    unfold bind at 1, ret, bind. rewrite (translate_refused k s r0 Hs Href). cbn. intros [= <- <-]. constructor.
  - destruct (submit_own _ _ _ _ Hsub) as [[code ->]|[_ Hown]]; [done|]. rewrite Hhas. set (id := StepResult.submittedStreamId r0) in *.
    unfold bind at 1, modify, bind at 1. set (s1 := set_streamContexts _ _).
    assert (Hh : holds_only id context s1) by (left; cbn; apply lookup_insert_eq).
    destruct (translate_result r0 s1) as [[evs2 s2]|f] eqn:Ht; [|done].
    destruct (translate_result_only id context _ _ _ _ Ht Hown Hh) as [Hc2 Hh2].
    case_if; [|by intros [= <- <-]]. unfold bind, ret. destruct (cancel_stream id s2) as [[evs3 s3]|f] eqn:Hcs; [|done].
    intros [= <- <-]. destruct (cancel_stream_only _ _ _ _ _ Hcs Hh2) as [Hc3 _]. by apply Forall_app_2.
Qed.

(** ** The instance *)

Lemma perm_subseteq {A} (a b c : list A) : a ++ b ≡ₚ c -> a ++ b ⊆ c.
Proof. intros Hp x. by rewrite Hp. Qed.

Lemma submseteq_subseteq {A} (a b : list A) : a ⊆+ b -> a ⊆ b.
Proof. intros Hs x Hx. by eapply elem_of_submseteq. Qed.

Lemma failAll_completes response s : completes_only (fst (failAllStreams response s)).
Proof. apply Forall_map, Forall_true. intros kv. by eexists _, _. Qed.

Lemma close_completes s evs s' : close s = Ok (evs, s') -> completes_only evs.
Proof.
  unfold close, bind at 1, get. destruct (started s); cbn [negb]; [|by intros [= <- <-]; constructor].
  unfold bind at 1, modify, bind at 1, bind at 1, bind at 1, on_protocol.
  destruct (ProtocolHandlers.close _) as [[r p]|f]; [|done]. unfold bind, discard_result, modify, get, ret.
  intros [= <- <-]. apply failAll_completes.
Qed.

Lemma same_requests_stream h id c sid :
  h !! id = Some c -> same_requests h (<[id := RequestContext.setStreamId sid c]> h).
Proof.
  unfold same_requests in *. intros Hc. split.
  - intros p c' Hp. destruct (decide (p = id)) as [->|].
    + rewrite lookup_insert_eq. simplify_eq. eexists. split; [done|]. by eexists.
    + rewrite lookup_insert_ne by done. exists c'. split; [done|]. exists (RequestContext.streamId c'). by destruct c'.
  - intros p. destruct (decide (p = id)) as [->|]; [eauto|by rewrite lookup_insert_ne].
Qed.

Lemma submit_law k s h request p :
  session_ok k s -> 0 <= k -> request_fits request -> is_Some (h !! p) ->
  wp tolerated (submit request (Some p))
    (fun evs sh => session_ok k (fst sh) /\ completes_request (Some p) evs /\
       held_contexts (fst sh) ⊆ Some p :: held_contexts s /\ same_requests h (snd sh)) (s, h).
Proof.
  intros Hs Hk Hreq [c Hc].
  assert (Hgen : forall canceled finished upd, (forall r, same_requests h (upd r)) ->
    wp tolerated (fun _ => let! (r, s') := submit_stream request (Some p) canceled finished s in Ok (fst r, (s', upd r)))
      (fun evs sh => session_ok k (fst sh) /\ completes_request (Some p) evs /\
         held_contexts (fst sh) ⊆ Some p :: held_contexts s /\ same_requests h (snd sh)) (s, h)).
  { intros canceled finished upd Hupd. pose proof (submit_stream_spec k s request (Some p) canceled finished Hs Hreq Hk) as Hw.
    pose proof (submit_stream_only k request (Some p) canceled finished s) as Ho. unfold wp in *.
    destruct (submit_stream request (Some p) canceled finished s) as [[r s']|f]; [|done]. cbn [obind fst snd].
    destruct Hw as (Hs' & _ & _ & Hd). split_and!; [done|by eapply Ho| |apply Hupd].
    intros x Hx.
    destruct Hd as [Hd|(_ & _ & _ & ->)]; [|by apply elem_of_cons; right]. rewrite <- Hd. apply elem_of_app. by right. }
  unfold wp, submit. case_if.
  - exact (Hgen false false (fun _ => h) (fun _ => reflexivity h)).
  - unfold deref_context. rewrite Hc. cbn [of_option obind].
    pose proof (Hgen (RequestContext.isCanceled c) (RequestContext.isFinished c)
      (fun r => if snd r =? 0 then h else <[p := RequestContext.setStreamId (snd r) c]> h)) as Hw.
    unfold wp in Hw. destruct (submit_stream _ _ _ _ s) as [[[evs id] s']|f]; cbn [obind fst snd] in *; apply Hw;
      (intros r; case_if; [reflexivity|by apply same_requests_stream]).
Qed.

Lemma cancel_law k s h p :
  session_ok k s -> 0 <= k -> is_Some (h !! p) ->
  wp tolerated (cancelRequest (Some p))
    (fun evs sh => session_ok k (fst sh) /\ completes_only evs /\
       done_contexts evs ++ held_contexts (fst sh) ⊆ held_contexts s /\ same_requests h (snd sh)) (s, h).
Proof.
  intros Hs Hk [c Hc]. unfold wp, cancelRequest, deref_context. rewrite Hc. cbn [of_option obind].
  case_if; [by split_and!; [|constructor|..]|].
  destruct (streamContexts s !! _) as [q|] eqn:Hq; [|by split_and!; [|constructor|..]].
  pose proof (cancel_stream_spec k s (RequestContext.getStreamId c) Hs Hk) as Hw.
  pose proof (cancel_stream_only (RequestContext.getStreamId c) q s) as Ho. unfold wp in Hw.
  destruct (cancel_stream _ s) as [[evs s']|f]; [|done]. cbn [obind fst snd]. destruct Hw as (Hs' & Hd & _).
  destruct (Ho evs s' eq_refl (or_introl Hq)) as [Hcr _].
  split_and!; [done| |by apply perm_subseteq|done]. eapply Forall_impl; [exact Hcr|]. intros ev [r ->]. by eexists _, _.
Qed.

Lemma make_law config k :
  ClientConfig.wf config -> 0 <= k <= 2 ^ 31 -> session_ok k (make config) /\ held_contexts (make config) = [].
Proof. intros Hconf Hk. split; [by apply make_session_ok|done]. Qed.

Lemma start_law k s created inited :
  session_ok k s -> 0 <= k -> held_contexts s = [] ->
  wp tolerated (start created inited) (fun _ s' => session_ok k s' /\ held_contexts s' = []) s.
Proof.
  intros Hs Hk Hh. eapply wp_mono; [apply session_start_spec; [done|done|intros _; by apply idle_held]|].
  intros b s' (? & Hsc & _). split; [done|]. unfold held_contexts in *. by rewrite Hsc.
Qed.

Lemma close_law k s :
  session_ok k s -> 0 <= k ->
  wp tolerated close
    (fun evs s' => session_ok k s' /\ completes_only evs /\ done_contexts evs ++ held_contexts s' ⊆ held_contexts s) s.
Proof.
  intros Hs Hk. pose proof (close_spec k s Hs Hk) as Hw. unfold wp in *.
  destruct (close s) as [[evs s']|f] eqn:Hc; [|done]. destruct Hw as (? & Hd & _).
  split_and!; [done|by eapply close_completes|by apply perm_subseteq].
Qed.

Lemma ping_law k s :
  session_ok k s -> 0 <= k ->
  wp tolerated sendPing (fun evs s' => evs = [] /\ session_ok k s' /\ held_contexts s' = held_contexts s) s.
Proof.
  intros Hs Hk. eapply wp_mono; [by apply sendPing_spec|]. intros evs s' (-> & ? & Hsc & _).
  split_and!; [done|done|]. unfold held_contexts. by rewrite Hsc.
Qed.

Lemma read_law k s reads :
  session_ok (k + reads_bytes reads) s -> 0 <= k ->
  wp tolerated (onReadable reads)
    (fun evs s' => session_ok k s' /\ done_contexts evs ++ held_contexts s' ⊆ held_contexts s) s.
Proof.
  intros Hs Hk. eapply wp_mono; [by apply (onReadable_spec k)|]. intros evs s' (? & _ & Hsub & _).
  split; [done|]. by apply submseteq_subseteq.
Qed.

Lemma write_law k s writes :
  session_ok k s -> 0 <= k -> writes_ok writes ->
  wp tolerated (onWritable writes) (fun _ s' => session_ok k s' /\ held_contexts s' ⊆ held_contexts s) s.
Proof.
  intros Hs Hk Hw. eapply wp_mono; [by apply onWritable_spec|]. intros sent s' (? & _ & _ & Hsub & _).
  split; [done|]. by apply submseteq_subseteq.
Qed.

#[export] Instance http2_session_laws : SessionLaws Http2Session.t := {
  sess_ok := session_ok;
  sess_held := held_contexts;
  sess_fault := tolerated;
  law_mono := session_ok_mono;
  law_make := make_law;
  law_start := start_law;
  law_close := close_law;
  law_submit := submit_law;
  law_cancel := cancel_law;
  law_ping := ping_law;
  law_read := read_law;
  law_write := write_law;
}.
End laws.
