(* ===== verification/ManagerState.v ===== *)
(** * The state of a connection manager

    The data of [include/chttp2/connection.hpp] and
    [connection_manager.hpp], with the memory their pointers lead to.  A
    [Connection*] is the id of a connection in the store [connections],
    where destroyed ones are missing; a [RequestContextPtr] is the id of a
    context in [heap].  The closures the classes post are values of the types
    [Task], [TimerTask], [FdTask] and [Callback]. *)

From S2P Require Import Prelude Outcome Types Transport RequestContext Session.
From S2P Require Import Endpoint Reactor CallbackDispatcher IHttpSession.

(** ** Closures *)

(** What is posted to the reactor. *)
Inductive Task : Type :=
| drainSubmitQueueTask
| cancelTask (requestId : Z)
| closeTask
| establishedTask (ep : Endpoint.t) (conn : Z)
| failedTask (ep : Endpoint.t).

Inductive TimerTask : Type :=
| timeoutTimer (requestId : Z)
| pingTimer (conn : Z)
| pingTimeoutTimer (conn : Z).

#[export] Instance TimerTask_eq_dec : EqDecision TimerTask.
Proof. solve_decision. Defined.

Inductive FdTask : Type :=
| sessionReadable (conn : Z)
| sessionWritable (conn : Z).

(** A completion handler and its argument. *)
Definition Callback : Type := Z * Response.t.

(** ** Connections *)

Module Connection.
Record t {S : Type} : Type := mk {
  connId : Z;
  endpoint : Endpoint.t;
  pingIntervalSec : Z;
  pingTimeoutSec : Z;
  session : S;
  sessionFd : Z;
  connected : bool;
  pendingPing : bool;
  pingTimerId : Z;
  pingTimeoutTimerId : Z;
}.
Arguments t : clear implicits.

Section connection.
Context {S : Type}.
Implicit Type c : t S.

Definition set_session v c := mk S (connId c) (endpoint c) (pingIntervalSec c) (pingTimeoutSec c) v (sessionFd c) (connected c) (pendingPing c) (pingTimerId c) (pingTimeoutTimerId c).
Definition set_sessionFd v c := mk S (connId c) (endpoint c) (pingIntervalSec c) (pingTimeoutSec c) (session c) v (connected c) (pendingPing c) (pingTimerId c) (pingTimeoutTimerId c).
Definition set_connected v c := mk S (connId c) (endpoint c) (pingIntervalSec c) (pingTimeoutSec c) (session c) (sessionFd c) v (pendingPing c) (pingTimerId c) (pingTimeoutTimerId c).
Definition set_pendingPing v c := mk S (connId c) (endpoint c) (pingIntervalSec c) (pingTimeoutSec c) (session c) (sessionFd c) (connected c) v (pingTimerId c) (pingTimeoutTimerId c).
Definition set_pingTimerId v c := mk S (connId c) (endpoint c) (pingIntervalSec c) (pingTimeoutSec c) (session c) (sessionFd c) (connected c) (pendingPing c) v (pingTimeoutTimerId c).
Definition set_pingTimeoutTimerId v c := mk S (connId c) (endpoint c) (pingIntervalSec c) (pingTimeoutSec c) (session c) (sessionFd c) (connected c) (pendingPing c) (pingTimerId c) v.

(** [Connection(id, ep, config, ...)]. *)
Definition make `{IHttpSession S} (id : Z) (ep : Endpoint.t) (config : ClientConfig.t) : t S :=
  mk S id ep (ClientConfig.pingIntervalSec config) (ClientConfig.pingTimeoutSec config)
    (sess_make config) INVALID_SOCKET false false 0 0.

Definition canAcceptNewRequests `{IHttpSession S} c : bool :=
  connected c && sess_isHealthy (session c) && negb (sess_isGoingAway (session c)).
Definition hasStreamCapacity `{IHttpSession S} c : bool := sess_hasStreamCapacity (session c).
Definition activeStreamCount `{IHttpSession S} c : Z := sess_activeStreamCount (session c).
End connection.
End Connection.

(** ** The manager *)

Module PendingRequest.
Record t := mk { request : Request.t; endpoint : Endpoint.t; context : RequestContextPtr }.
End PendingRequest.

Module ConnectTask.
Record t := mk { endpoint : Endpoint.t; connId : Z }.
End ConnectTask.

(** Where a call of [sendAsync] stands, between its critical sections. *)
Inductive SendState : Type :=
| AtTimer (request : Request.t) (ep : Endpoint.t) (timeoutMs : Z)
| AtEnqueue (request : Request.t) (ep : Endpoint.t)
| AtPost.

(** Where a call of [cancel(requestId)] stands; [p] is the context it found. *)
Inductive CancelState : Type :=
| AtFind (requestId : Z)
| AtCheck (requestId p : Z)
| AtMark (requestId p : Z)
| AtPostCancel (requestId : Z)
| AtHandle (requestId : Z)
| Returned (found : bool).

(** Where [close] stands. *)
Inductive CloseState : Type :=
| NotClosing
| JoinConnector
| PostClose
| StopReactor
| JoinReactor
| StopDispatcher
| JoinDispatcher
| FailQueued
| FailContexts
| Closed.

Module World.
Section world.
Context {S : Type}.

(** [started]: the outcome of [startOnce]; [completions]: the completion
    handlers called so far. *)
Record t : Type := mk {
  config : ClientConfig.t;
  reactor : Reactor.t Task TimerTask FdTask;
  callbackDispatcher : CallbackDispatcher.t Callback;
  nextRequestId : Z;
  nextConnectionId : Z;
  pools : gmap EndpointKey (list Z);
  pendingByEndpoint : gmap EndpointKey (list PendingRequest.t);
  connectingEndpoints : gset EndpointKey;
  requestConnections : gmap Z Z;
  started : option bool;
  connectorThread : bool;
  connectorStop : bool;
  connectTasks : list ConnectTask.t;
  submitQueue : list PendingRequest.t;
  contexts : gmap Z RequestContextPtr;
  heap : Contexts;
  connections : gmap Z (Connection.t S);
  clock : Z;
  completions : list Callback;
  sending : gmap Z SendState;
  closing : CloseState;
  canceling : list CancelState;
}.

Definition set_config v w := mk v (reactor w) (callbackDispatcher w) (nextRequestId w) (nextConnectionId w) (pools w) (pendingByEndpoint w) (connectingEndpoints w) (requestConnections w) (started w) (connectorThread w) (connectorStop w) (connectTasks w) (submitQueue w) (contexts w) (heap w) (connections w) (clock w) (completions w) (sending w) (closing w) (canceling w).
Definition set_reactor v w := mk (config w) v (callbackDispatcher w) (nextRequestId w) (nextConnectionId w) (pools w) (pendingByEndpoint w) (connectingEndpoints w) (requestConnections w) (started w) (connectorThread w) (connectorStop w) (connectTasks w) (submitQueue w) (contexts w) (heap w) (connections w) (clock w) (completions w) (sending w) (closing w) (canceling w).
Definition set_callbackDispatcher v w := mk (config w) (reactor w) v (nextRequestId w) (nextConnectionId w) (pools w) (pendingByEndpoint w) (connectingEndpoints w) (requestConnections w) (started w) (connectorThread w) (connectorStop w) (connectTasks w) (submitQueue w) (contexts w) (heap w) (connections w) (clock w) (completions w) (sending w) (closing w) (canceling w).
Definition set_nextRequestId v w := mk (config w) (reactor w) (callbackDispatcher w) v (nextConnectionId w) (pools w) (pendingByEndpoint w) (connectingEndpoints w) (requestConnections w) (started w) (connectorThread w) (connectorStop w) (connectTasks w) (submitQueue w) (contexts w) (heap w) (connections w) (clock w) (completions w) (sending w) (closing w) (canceling w).
Definition set_nextConnectionId v w := mk (config w) (reactor w) (callbackDispatcher w) (nextRequestId w) v (pools w) (pendingByEndpoint w) (connectingEndpoints w) (requestConnections w) (started w) (connectorThread w) (connectorStop w) (connectTasks w) (submitQueue w) (contexts w) (heap w) (connections w) (clock w) (completions w) (sending w) (closing w) (canceling w).
Definition set_pools v w := mk (config w) (reactor w) (callbackDispatcher w) (nextRequestId w) (nextConnectionId w) v (pendingByEndpoint w) (connectingEndpoints w) (requestConnections w) (started w) (connectorThread w) (connectorStop w) (connectTasks w) (submitQueue w) (contexts w) (heap w) (connections w) (clock w) (completions w) (sending w) (closing w) (canceling w).
Definition set_pendingByEndpoint v w := mk (config w) (reactor w) (callbackDispatcher w) (nextRequestId w) (nextConnectionId w) (pools w) v (connectingEndpoints w) (requestConnections w) (started w) (connectorThread w) (connectorStop w) (connectTasks w) (submitQueue w) (contexts w) (heap w) (connections w) (clock w) (completions w) (sending w) (closing w) (canceling w).
Definition set_connectingEndpoints v w := mk (config w) (reactor w) (callbackDispatcher w) (nextRequestId w) (nextConnectionId w) (pools w) (pendingByEndpoint w) v (requestConnections w) (started w) (connectorThread w) (connectorStop w) (connectTasks w) (submitQueue w) (contexts w) (heap w) (connections w) (clock w) (completions w) (sending w) (closing w) (canceling w).
Definition set_requestConnections v w := mk (config w) (reactor w) (callbackDispatcher w) (nextRequestId w) (nextConnectionId w) (pools w) (pendingByEndpoint w) (connectingEndpoints w) v (started w) (connectorThread w) (connectorStop w) (connectTasks w) (submitQueue w) (contexts w) (heap w) (connections w) (clock w) (completions w) (sending w) (closing w) (canceling w).
Definition set_started v w := mk (config w) (reactor w) (callbackDispatcher w) (nextRequestId w) (nextConnectionId w) (pools w) (pendingByEndpoint w) (connectingEndpoints w) (requestConnections w) v (connectorThread w) (connectorStop w) (connectTasks w) (submitQueue w) (contexts w) (heap w) (connections w) (clock w) (completions w) (sending w) (closing w) (canceling w).
Definition set_connectorThread v w := mk (config w) (reactor w) (callbackDispatcher w) (nextRequestId w) (nextConnectionId w) (pools w) (pendingByEndpoint w) (connectingEndpoints w) (requestConnections w) (started w) v (connectorStop w) (connectTasks w) (submitQueue w) (contexts w) (heap w) (connections w) (clock w) (completions w) (sending w) (closing w) (canceling w).
Definition set_connectorStop v w := mk (config w) (reactor w) (callbackDispatcher w) (nextRequestId w) (nextConnectionId w) (pools w) (pendingByEndpoint w) (connectingEndpoints w) (requestConnections w) (started w) (connectorThread w) v (connectTasks w) (submitQueue w) (contexts w) (heap w) (connections w) (clock w) (completions w) (sending w) (closing w) (canceling w).
Definition set_connectTasks v w := mk (config w) (reactor w) (callbackDispatcher w) (nextRequestId w) (nextConnectionId w) (pools w) (pendingByEndpoint w) (connectingEndpoints w) (requestConnections w) (started w) (connectorThread w) (connectorStop w) v (submitQueue w) (contexts w) (heap w) (connections w) (clock w) (completions w) (sending w) (closing w) (canceling w).
Definition set_submitQueue v w := mk (config w) (reactor w) (callbackDispatcher w) (nextRequestId w) (nextConnectionId w) (pools w) (pendingByEndpoint w) (connectingEndpoints w) (requestConnections w) (started w) (connectorThread w) (connectorStop w) (connectTasks w) v (contexts w) (heap w) (connections w) (clock w) (completions w) (sending w) (closing w) (canceling w).
Definition set_contexts v w := mk (config w) (reactor w) (callbackDispatcher w) (nextRequestId w) (nextConnectionId w) (pools w) (pendingByEndpoint w) (connectingEndpoints w) (requestConnections w) (started w) (connectorThread w) (connectorStop w) (connectTasks w) (submitQueue w) v (heap w) (connections w) (clock w) (completions w) (sending w) (closing w) (canceling w).
Definition set_heap v w := mk (config w) (reactor w) (callbackDispatcher w) (nextRequestId w) (nextConnectionId w) (pools w) (pendingByEndpoint w) (connectingEndpoints w) (requestConnections w) (started w) (connectorThread w) (connectorStop w) (connectTasks w) (submitQueue w) (contexts w) v (connections w) (clock w) (completions w) (sending w) (closing w) (canceling w).
Definition set_connections v w := mk (config w) (reactor w) (callbackDispatcher w) (nextRequestId w) (nextConnectionId w) (pools w) (pendingByEndpoint w) (connectingEndpoints w) (requestConnections w) (started w) (connectorThread w) (connectorStop w) (connectTasks w) (submitQueue w) (contexts w) (heap w) v (clock w) (completions w) (sending w) (closing w) (canceling w).
Definition set_clock v w := mk (config w) (reactor w) (callbackDispatcher w) (nextRequestId w) (nextConnectionId w) (pools w) (pendingByEndpoint w) (connectingEndpoints w) (requestConnections w) (started w) (connectorThread w) (connectorStop w) (connectTasks w) (submitQueue w) (contexts w) (heap w) (connections w) v (completions w) (sending w) (closing w) (canceling w).
Definition set_completions v w := mk (config w) (reactor w) (callbackDispatcher w) (nextRequestId w) (nextConnectionId w) (pools w) (pendingByEndpoint w) (connectingEndpoints w) (requestConnections w) (started w) (connectorThread w) (connectorStop w) (connectTasks w) (submitQueue w) (contexts w) (heap w) (connections w) (clock w) v (sending w) (closing w) (canceling w).
Definition set_sending v w := mk (config w) (reactor w) (callbackDispatcher w) (nextRequestId w) (nextConnectionId w) (pools w) (pendingByEndpoint w) (connectingEndpoints w) (requestConnections w) (started w) (connectorThread w) (connectorStop w) (connectTasks w) (submitQueue w) (contexts w) (heap w) (connections w) (clock w) (completions w) v (closing w) (canceling w).
Definition set_closing v w := mk (config w) (reactor w) (callbackDispatcher w) (nextRequestId w) (nextConnectionId w) (pools w) (pendingByEndpoint w) (connectingEndpoints w) (requestConnections w) (started w) (connectorThread w) (connectorStop w) (connectTasks w) (submitQueue w) (contexts w) (heap w) (connections w) (clock w) (completions w) (sending w) v (canceling w).
Definition set_canceling v w := mk (config w) (reactor w) (callbackDispatcher w) (nextRequestId w) (nextConnectionId w) (pools w) (pendingByEndpoint w) (connectingEndpoints w) (requestConnections w) (started w) (connectorThread w) (connectorStop w) (connectTasks w) (submitQueue w) (contexts w) (heap w) (connections w) (clock w) (completions w) (sending w) (closing w) v.

(** [ConnectionManager(cfg)]. *)
Definition init (cfg : ClientConfig.t) : t :=
  mk cfg Reactor.init CallbackDispatcher.init 1 1 ∅ ∅ ∅ ∅ None false false [] [] ∅ ∅ ∅ 0 [] ∅ NotClosing [].
End world.
Arguments t : clear implicits.
End World.
