(* ===== verification/Connection.v ===== *)
(** * Connections

    [src/connection.cpp]: the methods of a connection, on the reactor's
    thread.  A connection is reached through its pointer [c]; using it after
    it has been destroyed is a fault.  Its handlers are the manager's, hence
    arguments; [session] is set by the constructor and never null. *)

From S2P Require Import Prelude Outcome Types Flow Transport RequestContext Session.
From S2P Require Import Endpoint Reactor CallbackDispatcher IHttpSession ManagerState.

(** ** Threads

    The methods of connections run on the reactor's thread; only a call of
    [cancel] whose task the reactor refuses may bring them to another one. *)

Inductive Thread := reactorThread | otherThread.

(** The thread a method runs on. *)
Class RunsOn := { current : Thread }.
#[export] Instance on_reactor_thread : RunsOn | 100 := {| current := reactorThread |}.
Definition on_other_thread : RunsOn := {| current := otherThread |}.

(** What is checked: assertions, as in a build without [NDEBUG]; data races,
    which the code does not see. *)
Class Checks := { asserts : bool; races : bool }.

Definition not_reactor_thread : fault := Undefined "assertion failed: not on the reactor's thread".
Definition data_race : fault := Undefined "data race".

(** ** Pointers and members *)

Section access.
Context {S : Type} `{HeapOrder}.
Abbreviation M := (st (World.t S)).

(** [c->]. *)
Definition connection (c : Z) : M (Connection.t S) := fun w =>
  match World.connections w !! c with
  | Some conn => Ok (conn, w)
  | None => undef "dangling Connection*"
  end.

Definition update_connection (c : Z) (f : Connection.t S -> Connection.t S) : M unit :=
  conn <- connection c ;;
  modify (fun w => World.set_connections (<[c := f conn]> (World.connections w)) w).

(** [session->]. *)
Definition on_session {A} (c : Z) (m : st S A) : M A :=
  conn <- connection c ;;
  fun w =>
    let! (a, s) := m (Connection.session conn) in
    Ok (a, World.set_connections (<[c := Connection.set_session s conn]> (World.connections w)) w).

Definition on_session_contexts {A} (c : Z) (m : st (S * Contexts) A) : M A :=
  conn <- connection c ;;
  fun w =>
    let! (a, (s, h)) := m (Connection.session conn, World.heap w) in
    Ok (a, World.set_heap h (World.set_connections (<[c := Connection.set_session s conn]> (World.connections w)) w)).

(** [reactor.], at the current time. *)
Definition on_reactor {A} (f : Z -> Reactor.t Task TimerTask FdTask -> A * Reactor.t Task TimerTask FdTask) : M A :=
  fun w => let '(a, r) := f (World.clock w) (World.reactor w) in Ok (a, World.set_reactor r w).

(** The counters of identifiers have 64 bits.  They wrap around after 2^64-1
    of them; the model ends there, with a fault of its own. *)
Definition ids_exhausted : fault := Undefined "identifiers exhausted".
Definition fetch_add (counter : World.t S -> Z) (set : Z -> World.t S -> World.t S) : M Z :=
  w <- get ;;
  if counter w + 1 <? 2 ^ 64 then modify (set (u64 (counter w + 1))) ;;; ret (counter w)
  else fail_with ids_exhausted.

(** [reactor.scheduleOnce]. *)
Definition schedule (timeoutMs : Z) (handler : TimerTask) : M Z :=
  w <- get ;;
  if Reactor.nextTimerId (World.reactor w) + 1 <? 2 ^ 64 then
    on_reactor (fun now => Reactor.scheduleOnce now timeoutMs (Some handler))
  else fail_with ids_exhausted.
End access.

Module ConnectionMethods.
Section connection.
Context {S : Type} `{IHttpSession S} `{HeapOrder} {thread : RunsOn} {checks : Checks}.
Abbreviation M := (st (World.t S)).
Context (requestDoneHandler : RequestContextPtr -> Response.t -> M unit).
Context (connectionLostHandler : Z -> M unit).

(** [CHTTP2_ASSERT_REACTOR_THREAD()]. *)
Definition assert_reactor_thread : M unit :=
  match current with
  | reactorThread => ret tt
  | otherThread => if asserts then fail_with not_reactor_thread else ret tt
  end.

(** ** Keep-alive timers *)

Definition schedulePingTimer (c : Z) : M unit :=
  conn <- connection c ;;
  if (Connection.pingIntervalSec conn <=? 0) || negb (Connection.connected conn) then ret tt
  else
    ms <- lift (checked_i32 (Connection.pingIntervalSec conn * 1000)) ;;
    timerId <- schedule ms (pingTimer c) ;;
    update_connection c (Connection.set_pingTimerId timerId).

Definition cancelPingTimers (c : Z) : M unit :=
  conn <- connection c ;;
  (if Connection.pingTimerId conn =? 0 then ret tt
   else
     on_reactor (fun now => Reactor.cancelTimer now (Connection.pingTimerId conn)) ;;;
     update_connection c (Connection.set_pingTimerId 0)) ;;;
  conn <- connection c ;;
  (if Connection.pingTimeoutTimerId conn =? 0 then ret tt
   else
     on_reactor (fun now => Reactor.cancelTimer now (Connection.pingTimeoutTimerId conn)) ;;;
     update_connection c (Connection.set_pingTimeoutTimerId 0)) ;;;
  update_connection c (Connection.set_pendingPing false).

(** ** Session events *)

Definition updateWriteInterest (c : Z) : M unit :=
  conn <- connection c ;;
  if Connection.sessionFd conn =? INVALID_SOCKET then ret tt
  else
    on_reactor (fun _ => Reactor.enableWrite (Connection.sessionFd conn)
                           (sess_wantsWrite (Connection.session conn)) true) ;;;
    ret tt.

(** Leaving the reactor's table of descriptors. *)
Definition unregister (c : Z) : M unit :=
  conn <- connection c ;;
  if Connection.sessionFd conn =? INVALID_SOCKET then ret tt
  else
    on_reactor (fun _ => Reactor.unregisterFd (Connection.sessionFd conn)) ;;;
    update_connection c (Connection.set_sessionFd INVALID_SOCKET).

Definition processSessionEvent (c : Z) (event : SessionEvent) : M unit :=
  match event with
  | REQUEST_DONE context response => requestDoneHandler context response
  | SESSION_CLOSING => ret tt
  | SESSION_DEAD =>
      update_connection c (Connection.set_connected false) ;;;
      cancelPingTimers c ;;;
      unregister c ;;;
      connectionLostHandler c
  | PING_ACK =>
      conn <- connection c ;;
      if Connection.pendingPing conn then
        update_connection c (Connection.set_pendingPing false) ;;;
        (if Connection.pingTimeoutTimerId conn =? 0 then ret tt
         else
           on_reactor (fun now => Reactor.cancelTimer now (Connection.pingTimeoutTimerId conn)) ;;;
           update_connection c (Connection.set_pingTimeoutTimerId 0)) ;;;
        schedulePingTimer c
      else ret tt
  end.

Fixpoint processSessionEvents (c : Z) (events : list SessionEvent) : M unit :=
  match events with
  | [] => ret tt
  | event :: events' => processSessionEvent c event ;;; processSessionEvents c events'
  end.

(** ** Methods *)

Definition connect (c : Z) (created : option Z) (inited : bool) : M bool :=
  ok <- on_session c (sess_start created inited) ;;
  if negb ok then ret false
  else
    conn <- connection c ;;
    update_connection c (Connection.set_sessionFd (sess_pollFd (Connection.session conn))) ;;;
    if sess_pollFd (Connection.session conn) =? INVALID_SOCKET then
      on_session c sess_close ;;;
      ret false
    else
      update_connection c (Connection.set_connected true) ;;;
      ret true.

Definition registerWithReactor (c : Z) (added : bool) : M bool :=
  conn <- connection c ;;
  if negb (Connection.connected conn) || (Connection.sessionFd conn =? INVALID_SOCKET) then ret false
  else
    registered <- on_reactor (fun _ => Reactor.registerFd (Connection.sessionFd conn)
                                         (Some (sessionReadable c)) (Some (sessionWritable c)) added) ;;
    if negb registered then
      update_connection c (Connection.set_connected false) ;;;
      on_session c sess_close ;;;
      ret false
    else
      on_reactor (fun _ => Reactor.enableWrite (Connection.sessionFd conn)
                             (sess_wantsWrite (Connection.session conn)) true) ;;;
      schedulePingTimer c ;;;
      ret true.

Definition closeOnReactor (c : Z) : M unit :=
  assert_reactor_thread ;;;
  conn <- connection c ;;
  if negb (Connection.connected conn) then ret tt
  else
    update_connection c (Connection.set_connected false) ;;;
    cancelPingTimers c ;;;
    unregister c ;;;
    events <- on_session c sess_close ;;
    processSessionEvents c events.

Definition submitOnReactor (c : Z) (request : Request.t) (context : RequestContextPtr) : M bool :=
  assert_reactor_thread ;;;
  conn <- connection c ;;
  if negb (Connection.connected conn) then ret false
  else
    events <- on_session_contexts c (sess_submit request context) ;;
    processSessionEvents c events ;;;
    updateWriteInterest c ;;;
    ret true.

Definition cancelRequestOnReactor (c : Z) (context : RequestContextPtr) : M unit :=
  assert_reactor_thread ;;;
  events <- on_session_contexts c (sess_cancelRequest context) ;;
  processSessionEvents c events ;;;
  updateWriteInterest c.

Definition onSessionReadable (c : Z) (reads : list (IOState * bytes)) : M unit :=
  assert_reactor_thread ;;;
  conn <- connection c ;;
  if negb (Connection.connected conn) then ret tt
  else
    events <- on_session c (sess_onReadable reads) ;;
    processSessionEvents c events ;;;
    updateWriteInterest c.

Definition onSessionWritable (c : Z) (writes : list IOResult) : M unit :=
  assert_reactor_thread ;;;
  conn <- connection c ;;
  if negb (Connection.connected conn) then ret tt
  else
    on_session c (sess_onWritable writes) ;;;
    updateWriteInterest c.

Definition onPingTimer (c : Z) : M unit :=
  update_connection c (Connection.set_pingTimerId 0) ;;;
  conn <- connection c ;;
  if negb (Connection.connected conn) then ret tt
  else if Connection.activeStreamCount conn >? 0 then schedulePingTimer c
  else if Connection.pendingPing conn then ret tt
  else
    events <- on_session c sess_sendPing ;;
    processSessionEvents c events ;;;
    updateWriteInterest c ;;;
    update_connection c (Connection.set_pendingPing true) ;;;
    conn <- connection c ;;
    if Connection.pingTimeoutSec conn >? 0 then
      ms <- lift (checked_i32 (Connection.pingTimeoutSec conn * 1000)) ;;
      timerId <- schedule ms (pingTimeoutTimer c) ;;
      update_connection c (Connection.set_pingTimeoutTimerId timerId)
    else ret tt.

Definition onPingTimeout (c : Z) : M unit :=
  update_connection c (Connection.set_pingTimeoutTimerId 0) ;;;
  conn <- connection c ;;
  if negb (Connection.pendingPing conn) || negb (Connection.connected conn) then ret tt
  else
    update_connection c (Connection.set_pendingPing false) ;;;
    closeOnReactor c ;;;
    connectionLostHandler c.
End connection.
End ConnectionMethods.
