(* ===== verification/ConnectionManager.v ===== *)
(** * The connection manager

    [src/connection_manager.cpp].  The parts that run on the reactor's thread
    are whole methods; the calls of user threads and [close] are cut where
    they release a lock or join a thread ([ManagerSteps]). *)

From S2P Require Import Prelude Outcome Types Transport RequestContext Std Session.
From S2P Require Import Endpoint Reactor CallbackDispatcher IHttpSession ManagerState Connection.
Import World ConnectionMethods.

Module ConnectionManager.
Section manager.
Context {S : Type} `{IHttpSession S} `{HeapOrder} `{!HashOrder EndpointKey} `{!HashOrder Z}.
Context {thread : RunsOn} {checks : Checks}.
Abbreviation M := (st (World.t S)).

(** ** Contexts *)

(** [context->] of a pointer that is not null. *)
Definition deref_request (p : Z) : M RequestContext.t := fun w =>
  match heap w !! p with
  | Some c => Ok (c, w)
  | None => undef "dangling RequestContext*"
  end.

Definition update_request (p : Z) (f : RequestContext.t -> RequestContext.t) : M unit :=
  c <- deref_request p ;;
  modify (fun w => set_heap (<[p := f c]> (heap w)) w).

(** [findContext]; a null pointer is in no table. *)
Definition findContext (requestId : Z) (w : World.t S) : RequestContextPtr :=
  default None (contexts w !! requestId).

(** Calling the completion handler of a request. *)
Definition invokeCompletion (cb : Callback) : M unit := modify (fun w => set_completions (completions w ++ [cb]) w).

Definition completeRequest (context : RequestContextPtr) (response : Response.t) : M unit :=
  match context with
  | None => ret tt
  | Some p =>
      c <- deref_request p ;;
      let '(won, c) := RequestContext.tryFinish c in
      if negb won then ret tt
      else
        modify (fun w => set_heap (<[p := c]> (heap w)) w) ;;;
        let timerId := RequestContext.getTimerId c in
        (if timerId =? 0 then ret tt
         else
           on_reactor (fun now => Reactor.cancelTimer now timerId) ;;;
           update_request p (RequestContext.setTimerId 0)) ;;;
        modify (fun w => set_contexts (delete (RequestContext.REQUEST_ID c) (contexts w)) w) ;;;
        w <- get ;;
        if CallbackDispatcher.isRunning (callbackDispatcher w) then
          let '(posted, d) := CallbackDispatcher.post (Some (p, response)) (callbackDispatcher w) in
          modify (set_callbackDispatcher d) ;;;
          if posted then ret tt else invokeCompletion (p, response)
        else invokeCompletion (p, response)
  end.

Fixpoint complete_each (prs : list PendingRequest.t) (response : Response.t) : M unit :=
  match prs with
  | [] => ret tt
  | pr :: prs' => completeRequest (PendingRequest.context pr) response ;;; complete_each prs' response
  end.

(** The request of [pr] has this id. *)
Definition is_request (w : World.t S) (requestId : Z) (pr : PendingRequest.t) : bool :=
  match PendingRequest.context pr with
  | None => false
  | Some p =>
      match heap w !! p with
      | Some c => RequestContext.REQUEST_ID c =? requestId
      | None => false
      end
  end.

(** The first element that satisfies [P], and the list without it. *)
Fixpoint take_first {A} (P : A -> bool) (l : list A) : option (A * list A) :=
  match l with
  | [] => None
  | a :: l' =>
      if P a then Some (a, l')
      else match take_first P l' with Some (b, l') => Some (b, a :: l') | None => None end
  end.

Definition removeFromSubmitQueue (requestId : Z) : M (option RequestContextPtr) := fun w =>
  match take_first (is_request w requestId) (submitQueue w) with
  | Some (pr, rest) => Ok (Some (PendingRequest.context pr), set_submitQueue rest w)
  | None => Ok (None, w)
  end.

(** ** Connections *)

Definition onConnectionLost (conn : Z) : M unit :=
  connection conn ;;;
  modify (fun w => set_requestConnections (filter (fun kv => kv.2 <> conn) (requestConnections w)) w).

Definition SIZE_MAX : Z := 2 ^ 64 - 1.

(** The loop of [pickConnectionOnReactor]. *)
Fixpoint pick (conns : list Z) (best : option Z) (bestLoad : Z) : M (option Z) :=
  match conns with
  | [] => ret best
  | c :: conns' =>
      conn <- connection c ;;
      if Connection.canAcceptNewRequests conn && (Connection.activeStreamCount conn <? bestLoad)
      then pick conns' (Some c) (Connection.activeStreamCount conn)
      else pick conns' best bestLoad
  end.

Definition pickConnectionOnReactor (ep : Endpoint.t) : M (option Z) :=
  w <- get ;;
  match pools w !! Endpoint.key ep with
  | None => ret None
  | Some conns => pick conns None SIZE_MAX
  end.

(** The end of life of connections. *)
Definition destroy_all (conns : list Z) : M unit :=
  modify (fun w => set_connections (foldr delete (connections w) conns) w).

(** [pendingByEndpoint[ep].push_back(pr)]. *)
Definition push_pending (k : EndpointKey) (pr : PendingRequest.t) : M unit :=
  modify (fun w => set_pendingByEndpoint
                     (<[k := default [] (pendingByEndpoint w !! k) ++ [pr]]> (pendingByEndpoint w)) w).

(** Moving the queue of an endpoint out of the table. *)
Definition take_pending (k : EndpointKey) : M (list PendingRequest.t) := fun w =>
  match pendingByEndpoint w !! k with
  | None => Ok ([], w)
  | Some prs => Ok (prs, set_pendingByEndpoint (delete k (pendingByEndpoint w)) w)
  end.

(** ** Submitting *)

Section submitting.
Context (requestDone : RequestContextPtr -> Response.t -> M unit).

(** Submitting to a connection and recording where the request went. *)
Definition submit_to (c : Z) (pr : PendingRequest.t) (p : Z) : M unit :=
  ok <- submitOnReactor requestDone onConnectionLost c (PendingRequest.request pr) (Some p) ;;
  ctx <- deref_request p ;;
  if ok then
    modify (fun w => set_requestConnections (<[RequestContext.REQUEST_ID ctx := c]> (requestConnections w)) w)
  else if negb (RequestContext.isFinished ctx) then
    completeRequest (Some p) (Response.failConnectionError (bs "Submit failed"))
  else ret tt.

(** [!pr.context || pr.context->isCanceled()], with the pointer otherwise. *)
Definition not_canceled (pr : PendingRequest.t) : M (option Z) :=
  match PendingRequest.context pr with
  | None => ret None
  | Some p =>
      ctx <- deref_request p ;;
      ret (if RequestContext.isCanceled ctx then None else Some p)
  end.

(** The loop of [trySubmitPending], over a reference to the endpoint's queue
    in the table. *)
Fixpoint submit_loop (n : nat) (k : EndpointKey) (c : Z) : M unit :=
  match n with
  | O => fail_with Hangs
  | Datatypes.S n' =>
      w <- get ;;
      queue <- lift (of_option (Undefined "dangling reference to a queue") (pendingByEndpoint w !! k)) ;;
      match queue with
      | [] => ret tt
      | pr :: rest =>
          conn <- connection c ;;
          if negb (Connection.hasStreamCapacity conn) then ret tt
          else
            modify (fun w => set_pendingByEndpoint (<[k := rest]> (pendingByEndpoint w)) w) ;;;
            p <- not_canceled pr ;;
            (match p with
             | None => completeRequest (PendingRequest.context pr) (Response.customError (bs "Request canceled"))
             | Some p => submit_to c pr p
             end) ;;;
            submit_loop n' k c
      end
  end.

Definition trySubmitPending_with (ep : Endpoint.t) : M unit :=
  w <- get ;;
  match pendingByEndpoint w !! Endpoint.key ep with
  | None | Some [] => ret tt
  | Some queue =>
      conn <- pickConnectionOnReactor ep ;;
      match conn with
      | None => ret tt
      | Some c =>
          submit_loop (Datatypes.S (length queue)) (Endpoint.key ep) c ;;;
          w <- get ;;
          queue <- lift (of_option (Undefined "dangling iterator") (pendingByEndpoint w !! Endpoint.key ep)) ;;
          match queue with
          | [] => modify (set_pendingByEndpoint (delete (Endpoint.key ep) (pendingByEndpoint w)))
          | _ => ret tt
          end
      end
  end.
End submitting.

(** [onRequestDone] and [trySubmitPending] call each other through the
    session's events; each nested call has taken an entry out of
    [requestConnections]. *)
Fixpoint onRequestDone_rec (fuel : nat) (context : RequestContextPtr) (response : Response.t) : M unit :=
  match fuel with
  | O => fail_with Hangs
  | Datatypes.S fuel' =>
      conn <- (match context with
               | None => ret None
               | Some p =>
                   ctx <- deref_request p ;;
                   w <- get ;;
                   match requestConnections w !! RequestContext.REQUEST_ID ctx with
                   | None => ret None
                   | Some c =>
                       modify (set_requestConnections (delete (RequestContext.REQUEST_ID ctx) (requestConnections w))) ;;;
                       ret (Some c)
                   end
               end) ;;
      completeRequest context response ;;;
      match conn with
      | None => ret tt
      | Some c =>
          conn <- connection c ;;
          trySubmitPending_with (onRequestDone_rec fuel') (Connection.endpoint conn)
      end
  end.

Definition onRequestDone (context : RequestContextPtr) (response : Response.t) : M unit := fun w =>
  onRequestDone_rec (Datatypes.S (Datatypes.S (size (requestConnections w)))) context response w.

(** ** Queues *)

Definition drainPendingForEndpoint (ep : Endpoint.t) : M unit :=
  prs <- take_pending (Endpoint.key ep) ;;
  complete_each prs (Response.failConnectionError (bs "Connection failed")).

Definition enqueueConnectTask (ep : Endpoint.t) : M unit :=
  w <- get ;;
  if bool_decide (Endpoint.key ep ∈ connectingEndpoints w) then ret tt
  else
    conn <- pickConnectionOnReactor ep ;;
    match conn with
    | Some _ => ret tt
    | None =>
        modify (fun w => set_connectingEndpoints ({[Endpoint.key ep]} ∪ connectingEndpoints w) w) ;;;
        connId <- fetch_add nextConnectionId set_nextConnectionId ;;
        modify (fun w => set_connectTasks (connectTasks w ++ [ConnectTask.mk ep connId]) w)
    end.

(** Connections that are no longer connected leave the pools. *)
Definition prune : M unit := fun w =>
  let connected c := match connections w !! c with Some conn => Connection.connected conn | None => true end in
  let dead := concat (map (fun kv => filter (fun c => connected c = false) kv.2) (map_to_list (pools w))) in
  Ok (tt, set_connections (foldr delete (connections w) dead)
            (set_pools (filter (fun c => connected c = true) <$> pools w) w)).

Definition drain_one (pr : PendingRequest.t) : M unit :=
  match PendingRequest.context pr with
  | None => ret tt
  | Some p =>
      ctx <- deref_request p ;;
      if RequestContext.isCanceled ctx then
        completeRequest (Some p) (Response.customError (bs "Request canceled"))
      else
        picked <- pickConnectionOnReactor (PendingRequest.endpoint pr) ;;
        match picked with
        | Some c =>
            conn <- connection c ;;
            if Connection.hasStreamCapacity conn then submit_to onRequestDone c pr p
            else push_pending (Endpoint.key (PendingRequest.endpoint pr)) pr
        | None =>
            push_pending (Endpoint.key (PendingRequest.endpoint pr)) pr ;;;
            enqueueConnectTask (PendingRequest.endpoint pr)
        end
  end.

Fixpoint drain_each (prs : list PendingRequest.t) : M unit :=
  match prs with
  | [] => ret tt
  | pr :: prs' => drain_one pr ;;; drain_each prs'
  end.

Definition drainSubmitQueue : M unit :=
  prune ;;;
  w <- get ;;
  modify (set_submitQueue []) ;;;
  drain_each (submitQueue w).

(** ** Connections coming and going *)

Definition establish_one (ep : Endpoint.t) (c : Z) (pr : PendingRequest.t) : M unit :=
  p <- not_canceled pr ;;
  match p with
  | None => completeRequest (PendingRequest.context pr) (Response.customError (bs "Request canceled"))
  | Some p =>
      conn <- connection c ;;
      if Connection.hasStreamCapacity conn then submit_to onRequestDone c pr p
      else push_pending (Endpoint.key ep) pr
  end.

Fixpoint establish_each (ep : Endpoint.t) (c : Z) (prs : list PendingRequest.t) : M unit :=
  match prs with
  | [] => ret tt
  | pr :: prs' => establish_one ep c pr ;;; establish_each ep c prs'
  end.

Definition onConnectionEstablished (ep : Endpoint.t) (c : Z) (added : bool) : M unit :=
  modify (fun w => set_connectingEndpoints (connectingEndpoints w ∖ {[Endpoint.key ep]}) w) ;;;
  registered <- registerWithReactor c added ;;
  if negb registered then
    drainPendingForEndpoint ep ;;;
    destroy_all [c]
  else
    modify (fun w => set_pools (<[Endpoint.key ep := default [] (pools w !! Endpoint.key ep) ++ [c]]> (pools w)) w) ;;;
    prs <- take_pending (Endpoint.key ep) ;;
    establish_each ep c prs.

Definition onConnectionFailed (ep : Endpoint.t) : M unit :=
  modify (fun w => set_connectingEndpoints (connectingEndpoints w ∖ {[Endpoint.key ep]}) w) ;;;
  drainPendingForEndpoint ep.

(** ** Cancellation and timeouts *)

(** The first endpoint whose queue holds the request. *)
Fixpoint find_pending (w : World.t S) (requestId : Z) (queues : list (EndpointKey * list PendingRequest.t))
  : option (EndpointKey * PendingRequest.t * list PendingRequest.t) :=
  match queues with
  | [] => None
  | (k, deq) :: queues' =>
      match take_first (is_request w requestId) deq with
      | Some (pr, rest) => Some (k, pr, rest)
      | None => find_pending w requestId queues'
      end
  end.

(** [pendingByEndpoint] and [requestConnections] are the reactor's, and no
    lock guards them: another thread that reads them races with the reactor's
    thread until that has been joined, and with the other calls of [cancel]
    that handle a request themselves if there is something in the tables. *)
Definition at_handle (s : CancelState) : bool := match s with AtHandle _ => true | _ => false end.
Definition racy (w : World.t S) : bool :=
  Reactor.ready (reactor w)
  || (2 <=? length (List.filter at_handle (canceling w)))%nat
     && negb (bool_decide (pendingByEndpoint w = ∅) && bool_decide (requestConnections w = ∅)).
Definition reactor_tables : M unit :=
  w <- get ;;
  match current with
  | reactorThread => ret tt
  | otherThread => if races && racy w then fail_with data_race else ret tt
  end.

(** The part [handleCancelOnReactor] and [handleTimeoutOnReactor] share:
    [response] is "Request canceled" in one, "Request timeout" in the other. *)
Definition abort_request (requestId : Z) (response : Response.t) : M unit :=
  w <- get ;;
  match findContext requestId w with
  | None => ret tt
  | Some p =>
      ctx <- deref_request p ;;
      if RequestContext.isFinished ctx then ret tt
      else
        update_request p (fun c => snd (RequestContext.markCanceled c)) ;;;
        queued <- removeFromSubmitQueue requestId ;;
        match queued with
        | Some queuedContext =>
            completeRequest (match queuedContext with Some _ => queuedContext | None => Some p end) response
        | None =>
            reactor_tables ;;;
            w <- get ;;
            match find_pending w requestId (hash_order (pendingByEndpoint w)) with
            | Some (k, pr, rest) =>
                completeRequest (PendingRequest.context pr) response ;;;
                modify (fun w => set_pendingByEndpoint (<[k := rest]> (pendingByEndpoint w)) w)
            | None =>
                (match requestConnections w !! requestId with
                 | None => ret tt
                 | Some c =>
                     conn <- connection c ;;
                     if Connection.connected conn
                     then cancelRequestOnReactor onRequestDone onConnectionLost c (Some p)
                     else ret tt
                 end) ;;;
                ctx <- deref_request p ;;
                if negb (RequestContext.isFinished ctx) then completeRequest (Some p) response else ret tt
            end
        end
  end.

Definition handleCancelOnReactor (requestId : Z) : M unit :=
  abort_request requestId (Response.customError (bs "Request canceled")).
Definition handleTimeoutOnReactor (requestId : Z) : M unit :=
  abort_request requestId (Response.customError (bs "Request timeout")).

(** ** Closing *)

Fixpoint close_each (conns : list Z) : M unit :=
  match conns with
  | [] => ret tt
  | c :: conns' =>
      conn <- connection c ;;
      (if Connection.connected conn then ConnectionMethods.closeOnReactor onRequestDone onConnectionLost c else ret tt) ;;;
      close_each conns'
  end.

Definition closeOnReactor : M unit :=
  w <- get ;;
  complete_each (concat (map snd (hash_order (pendingByEndpoint w))))
    (Response.failConnectionError (bs "Connection closed")) ;;;
  modify (set_pendingByEndpoint ∅) ;;;
  modify (set_connectingEndpoints ∅) ;;;
  w <- get ;;
  let local := concat (map snd (hash_order (pools w))) in
  modify (set_pools ∅) ;;;
  close_each local ;;;
  modify (set_requestConnections ∅) ;;;
  destroy_all local.

Definition failQueuedRequests (response : Response.t) : M unit :=
  w <- get ;;
  modify (set_submitQueue []) ;;;
  complete_each (submitQueue w) response.

Fixpoint complete_contexts (ptrs : list RequestContextPtr) (response : Response.t) : M unit :=
  match ptrs with
  | [] => ret tt
  | p :: ptrs' => completeRequest p response ;;; complete_contexts ptrs' response
  end.

Definition failAllContexts (response : Response.t) : M unit :=
  w <- get ;;
  complete_contexts (map snd (hash_order (contexts w))) response.
End manager.
End ConnectionManager.
