(* ===== verification/ManagerSteps.v ===== *)
(** * The threads of a connection manager

    User threads call [sendAsync], [cancel] and [close]; the connector thread
    runs [connectorLoop], the reactor's thread its loop, the dispatcher's
    thread the callbacks.  A label is one step of one of them; a run is any
    sequence of enabled steps.  The environment chooses the results of system
    calls and what the peers send.

    Steps are of two grains.  A call of [cancel] is cut at every access to
    what the threads share, a critical section or an operation on an atomic
    (the test, the mark and the fetching of the handler by which
    [RequestContext::cancel] leads to it are one step before); a call of
    [sendAsync] into four: up to the registration of the context, the timeout
    ([scheduleOnce] and [setTimerId]), the queue of submissions, the post.  The
    work of the other threads is coarser: a posted task, a turn on
    timers, the events of one descriptor, a connection attempt, a callback,
    and each part of [close] between two points where it waits, is one step,
    though it takes several locks. *)

From S2P Require Import Prelude Outcome Types Transport RequestContext Std Session.
From S2P Require Import Endpoint Reactor CallbackDispatcher IHttpSession ManagerState Connection.
From S2P Require Import ConnectionManager.
Import World ConnectionManager.

(** ** Labels *)

Inductive label : Type :=
| LSend (request : Request.t) (ep : Endpoint.t) (timeoutMs : Z) (opened : bool)
| LSendTimer (requestId : Z)
| LSendEnqueue (requestId : Z)
| LSendPost (requestId : Z)
| LCancel (p : Z)
| LCancelStep (n : nat)
| LConnector (created : option Z) (inited : bool)
| LConnectorExit
| LTask (added : bool)
| LTimers
| LFd (fd : Z) (readable writable error : bool) (reads : list (IOState * bytes)) (writes : list IOResult)
| LCallback
| LTick (elapsed : Z)
| LClose.

Module ManagerSteps.
Section steps.
Context {S : Type} `{IHttpSession S} `{HeapOrder} `{!HashOrder EndpointKey} `{!HashOrder Z} {checks : Checks}.
Abbreviation M := (st (World.t S)).

Definition on_dispatcher {A} (f : CallbackDispatcher.t Callback -> A * CallbackDispatcher.t Callback) : M A :=
  fun w => let '(a, d) := f (callbackDispatcher w) in Ok (a, set_callbackDispatcher d w).

(** ** User threads *)

(** [opened]: whether the reactor gets its descriptors. *)
Definition startThreadsIfNeeded (opened : bool) : M bool :=
  w <- get ;;
  match started w with
  | Some result => ret result
  | None =>
      on_dispatcher CallbackDispatcher.start ;;;
      ok <- on_reactor (fun _ => Reactor.start opened) ;;
      if negb ok then
        on_dispatcher (fun d => (tt, CallbackDispatcher.stop_joined (CallbackDispatcher.stop_request d))) ;;;
        modify (set_started (Some false)) ;;;
        ret false
      else
        modify (set_connectorStop false) ;;;
        modify (set_connectorThread true) ;;;
        modify (set_started (Some true)) ;;;
        ret true
  end.

Definition set_state (requestId : Z) (s : option SendState) : M unit :=
  modify (fun w => set_sending (match s with
                                | Some s => <[requestId := s]> (sending w)
                                | None => delete requestId (sending w)
                                end) w).

(** [sendAsync], up to the registration of the context. *)
Definition send_begin (request : Request.t) (ep : Endpoint.t) (timeoutMs : Z) (opened : bool) : M unit :=
  requestId <- fetch_add nextRequestId set_nextRequestId ;;
  modify (fun w => set_heap (<[requestId := RequestContext.setCancelHandler (RequestContext.init requestId timeoutMs)]> (heap w)) w) ;;;
  ok <- startThreadsIfNeeded opened ;;
  if negb ok then
    completeRequest (Some requestId) (Response.failConnectionError (bs "Connection manager failed to start"))
  else
    modify (fun w => set_contexts (<[requestId := Some requestId]> (contexts w)) w) ;;;
    set_state requestId (Some (AtTimer request ep timeoutMs)).

Definition send_timer (requestId : Z) (request : Request.t) (ep : Endpoint.t) (timeoutMs : Z) : M unit :=
  if timeoutMs >=? 0 then
    timerId <- schedule timeoutMs (timeoutTimer requestId) ;;
    if timerId =? 0 then
      completeRequest (Some requestId) (Response.failConnectionError (bs "Failed to schedule timeout")) ;;;
      set_state requestId None
    else
      update_request requestId (RequestContext.setTimerId timerId) ;;;
      set_state requestId (Some (AtEnqueue request ep))
  else set_state requestId (Some (AtEnqueue request ep)).

Definition send_enqueue (requestId : Z) (request : Request.t) (ep : Endpoint.t) : M unit :=
  modify (fun w => set_submitQueue (submitQueue w ++ [PendingRequest.mk request ep (Some requestId)]) w) ;;;
  set_state requestId (Some AtPost).

Definition send_post (requestId : Z) : M unit :=
  posted <- on_reactor (fun _ => Reactor.post (Some drainSubmitQueueTask)) ;;
  (if posted then ret tt
   else
     removeFromSubmitQueue requestId ;;;
     completeRequest (Some requestId) (Response.failConnectionError (bs "Reactor is not running"))) ;;;
  set_state requestId None.

(** [RequestContext::cancel], up to the call of its handler, which is
    [cancel(requestId)]. *)
Definition cancel_operation (p : Z) : M bool :=
  ctx <- deref_request p ;;
  let '(done, handled, ctx) := RequestContext.cancel ctx in
  modify (fun w => set_heap (<[p := ctx]> (heap w)) w) ;;;
  (if handled
   then modify (fun w => set_canceling (canceling w ++ [AtFind (RequestContext.REQUEST_ID ctx)]) w)
   else ret tt) ;;;
  ret done.

(** [cancel(requestId)], call [n], from one access to what the threads share
    to the next.  When the task is refused, this thread runs
    [handleCancelOnReactor] itself. *)
Definition cancel_step (n : nat) : M unit :=
  w <- get ;;
  let next s := modify (fun w => set_canceling (<[n := s]> (canceling w)) w) in
  match canceling w !! n with
  | Some (AtFind requestId) =>
      next (match findContext requestId w with None => Returned false | Some p => AtCheck requestId p end)
  | Some (AtCheck requestId p) =>
      ctx <- deref_request p ;;
      next (if RequestContext.isFinished ctx then Returned false else AtMark requestId p)
  | Some (AtMark requestId p) =>
      update_request p (fun c => snd (RequestContext.markCanceled c)) ;;;
      next (AtPostCancel requestId)
  | Some (AtPostCancel requestId) =>
      posted <- on_reactor (fun _ => Reactor.post (Some (cancelTask requestId))) ;;
      next (if posted then Returned true else AtHandle requestId)
  | Some (AtHandle requestId) =>
      handleCancelOnReactor (thread := on_other_thread) requestId ;;;
      next (Returned true)
  | Some (Returned _) | None => ret tt
  end.

(** ** The connector thread *)

(** One iteration of [connectorLoop] with a task. *)
Definition connector_step (task : ConnectTask.t) (created : option Z) (inited : bool) : M unit :=
  let c := ConnectTask.connId task in
  let ep := ConnectTask.endpoint task in
  modify (fun w => set_connections (<[c := Connection.make c ep (config w)]> (connections w)) w) ;;;
  ok <- ConnectionMethods.connect c created inited ;;
  if ok then
    posted <- on_reactor (fun _ => Reactor.post (Some (establishedTask ep c))) ;;
    if posted then ret tt else destroy_all [c]
  else
    destroy_all [c] ;;;
    on_reactor (fun _ => Reactor.post (Some (failedTask ep))) ;;;
    ret tt.

(** ** The reactor's thread *)

Definition run_task (task : Task) (added : bool) : M unit :=
  match task with
  | drainSubmitQueueTask => drainSubmitQueue
  | cancelTask requestId => handleCancelOnReactor requestId
  | closeTask => closeOnReactor
  | establishedTask ep c => onConnectionEstablished ep c added
  | failedTask ep => onConnectionFailed ep
  end.

Definition run_timer (handler : TimerTask) : M unit :=
  match handler with
  | timeoutTimer requestId => handleTimeoutOnReactor requestId
  | pingTimer c => ConnectionMethods.onPingTimer onRequestDone onConnectionLost c
  | pingTimeoutTimer c => ConnectionMethods.onPingTimeout onRequestDone onConnectionLost c
  end.

Fixpoint run_timers (handlers : list TimerTask) : M unit :=
  match handlers with
  | [] => ret tt
  | handler :: handlers' => run_timer handler ;;; run_timers handlers'
  end.

Definition run_fd (reads : list (IOState * bytes)) (writes : list IOResult) (handler : FdTask) : M unit :=
  match handler with
  | sessionReadable c => ConnectionMethods.onSessionReadable onRequestDone onConnectionLost c reads
  | sessionWritable c => ConnectionMethods.onSessionWritable c writes
  end.

Fixpoint run_fds (reads : list (IOState * bytes)) (writes : list IOResult) (handlers : list FdTask) : M unit :=
  match handlers with
  | [] => ret tt
  | handler :: handlers' => run_fd reads writes handler ;;; run_fds reads writes handlers'
  end.

(** ** Closing *)

(** [close], from one blocking point to the next. *)
Definition close_step : M unit :=
  w <- get ;;
  match closing w with
  | NotClosing | Closed =>
      modify (set_connectorStop true) ;;; modify (set_closing JoinConnector)
  | JoinConnector => modify (set_closing PostClose)
  | PostClose =>
      (if Reactor.isRunning (reactor w)
       then on_reactor (fun _ => Reactor.post (Some closeTask)) ;;; ret tt
       else ret tt) ;;;
      modify (set_closing StopReactor)
  | StopReactor =>
      if Reactor.isRunning (reactor w) then
        on_reactor (fun _ r => (tt, Reactor.stop_request r)) ;;;
        modify (set_closing JoinReactor)
      else modify (set_closing StopDispatcher)
  | JoinReactor =>
      on_reactor (fun _ r => (tt, Reactor.stop_joined r)) ;;;
      modify (set_closing StopDispatcher)
  | StopDispatcher =>
      if CallbackDispatcher.isRunning (callbackDispatcher w) then
        on_dispatcher (fun d => (tt, CallbackDispatcher.stop_request d)) ;;;
        modify (set_closing JoinDispatcher)
      else modify (set_closing FailQueued)
  | JoinDispatcher =>
      on_dispatcher (fun d => (tt, CallbackDispatcher.stop_joined d)) ;;;
      modify (set_closing FailQueued)
  | FailQueued =>
      failQueuedRequests (Response.failConnectionError (bs "Connection closed")) ;;;
      modify (set_closing FailContexts)
  | FailContexts =>
      failAllContexts (Response.failConnectionError (bs "Connection closed")) ;;;
      modify (set_closing Closed)
  end.

(** [close] waits for the connector to have done its tasks and left its loop,
    for the reactor's loop to have run what was posted, for the dispatcher to
    have run what was queued. *)
Definition close_enabled (w : World.t S) : bool :=
  match closing w with
  | JoinConnector => negb (connectorThread w)
  | JoinReactor => match Reactor.tasks (reactor w) with [] => true | _ => false end
  | JoinDispatcher => CallbackDispatcher.loop_ends (callbackDispatcher w)
  | _ => true
  end.

(** ** Steps *)

Definition enabled (l : label) (w : World.t S) : bool :=
  match l with
  | LSend _ _ _ _ => true
  | LSendTimer id => match sending w !! id with Some (AtTimer _ _ _) => true | _ => false end
  | LSendEnqueue id => match sending w !! id with Some (AtEnqueue _ _) => true | _ => false end
  | LSendPost id => match sending w !! id with Some AtPost => true | _ => false end
  | LCancel p => match heap w !! p with Some _ => true | None => false end
  | LCancelStep n => match canceling w !! n with Some (Returned _) | None => false | Some _ => true end
  | LConnector _ _ => connectorThread w && match connectTasks w with [] => false | _ => true end
  | LConnectorExit => connectorThread w && connectorStop w && match connectTasks w with [] => true | _ => false end
  | LTask _ => Reactor.ready (reactor w) && match Reactor.tasks (reactor w) with [] => false | _ => true end
  | LTimers | LFd _ _ _ _ _ _ => Reactor.ready (reactor w)
  | LCallback =>
      CallbackDispatcher.running (callbackDispatcher w) &&
      match CallbackDispatcher.tasks (callbackDispatcher w) with [] => false | _ => true end
  | LTick elapsed => elapsed >=? 0
  | LClose => close_enabled w
  end.

Definition step (l : label) : M unit :=
  w <- get ;;
  match l with
  | LSend request ep timeoutMs opened => send_begin request ep timeoutMs opened
  | LSendTimer id =>
      match sending w !! id with Some (AtTimer request ep timeoutMs) => send_timer id request ep timeoutMs | _ => ret tt end
  | LSendEnqueue id =>
      match sending w !! id with Some (AtEnqueue request ep) => send_enqueue id request ep | _ => ret tt end
  | LSendPost id => send_post id
  | LCancel p => cancel_operation p ;;; ret tt
  | LCancelStep n => cancel_step n
  | LConnector created inited =>
      match connectTasks w with
      | [] => ret tt
      | task :: rest => modify (set_connectTasks rest) ;;; connector_step task created inited
      end
  | LConnectorExit => modify (set_connectorThread false)
  | LTask added =>
      task <- on_reactor (fun _ => Reactor.take_task) ;;
      match task with Some task => run_task task added | None => ret tt end
  | LTimers => handlers <- on_reactor Reactor.fireDueTimers ;; run_timers handlers
  | LFd fd readable writable error reads writes =>
      run_fds reads writes (Reactor.handleFdEvent fd readable writable error (reactor w))
  | LCallback =>
      cb <- on_dispatcher CallbackDispatcher.take_task ;;
      match cb with Some cb => invokeCompletion cb | None => ret tt end
  | LTick elapsed => modify (set_clock (clock w + elapsed))
  | LClose => close_step
  end.

(** A run: only enabled steps are taken. *)
Fixpoint run (ls : list label) : M unit :=
  match ls with
  | [] => ret tt
  | l :: ls' =>
      w <- get ;;
      (if enabled l w then step l else ret tt) ;;;
      run ls'
  end.
End steps.
End ManagerSteps.
