(* ===== verification/ManagerInv.v ===== *)
(** * The invariant of a connection manager

    What holds between the steps of the threads, and inside the reactor's
    tasks relative to what is in hand: requests taken out of their queue,
    connections out of their pool or their task, timers out of the reactor. *)

From S2P Require Import Prelude Outcome Types Transport RequestContext Std Session SessionFacts.
From S2P Require Import ProtocolSafety Endpoint Reactor ReactorFacts CallbackDispatcher IHttpSession.
From S2P Require Import ManagerState Connection ConnectionManager ManagerSteps.
Import World ConnectionManager.

(** ** All the elements of a table of queues *)

Definition all_values {K A} `{Countable K} (m : gmap K (list A)) : list A := concat (map snd (map_to_list m)).

Section values.
Context {K A : Type} `{Countable K}.
Implicit Type m : gmap K (list A).

Lemma all_values_lookup m k l : m !! k = Some l -> all_values m ≡ₚ l ++ all_values (delete k m).
Proof. intros Hk. unfold all_values. by rewrite <- (map_to_list_delete m k l Hk). Qed.

Lemma all_values_insert m k l : all_values (<[k := l]> m) ≡ₚ l ++ all_values (delete k m).
Proof. rewrite (all_values_lookup _ k l) by apply lookup_insert_eq. by rewrite delete_insert_eq. Qed.

Lemma all_values_empty : all_values (∅ : gmap K (list A)) = [].
Proof. unfold all_values. by rewrite map_to_list_empty. Qed.

Lemma all_values_hash `{!HashOrder K} m : concat (map snd (hash_order m)) ≡ₚ all_values m.
Proof. unfold all_values. by rewrite hash_order_perm. Qed.

Lemma all_values_default m k : all_values m ≡ₚ default [] (m !! k) ++ all_values (delete k m).
Proof.
  destruct (m !! k) as [l|] eqn:Hk; [by apply all_values_lookup|]. cbn. by rewrite delete_id.
Qed.

Lemma all_values_push m k a : all_values (<[k := default [] (m !! k) ++ [a]]> m) ≡ₚ a :: all_values m.
Proof.
  rewrite all_values_insert, (all_values_default m k). by rewrite <- app_assoc, (Permutation_app_comm [a]), app_assoc, <- Permutation_cons_append.
Qed.
End values.

(** ** What the invariant talks about *)

(** A connection without its session. *)
Record Link := mk_link { l_connected : bool; l_fd : Z; l_pinging : bool; l_ping : Z; l_timeout : Z }.
Definition link_of {S} (c : Connection.t S) : Link :=
  mk_link (Connection.connected c) (Connection.sessionFd c) (Connection.pendingPing c)
    (Connection.pingTimerId c) (Connection.pingTimeoutTimerId c).
Definition links {S} (w : World.t S) : gmap Z Link := link_of <$> connections w.

(** The handlers of the watched descriptors; the pending timers. *)
Definition handlers_of (c : FdContext FdTask) : FdTask * option FdTask := (readHandler c, writeHandler c).
Definition fd_handlers {S} (w : World.t S) : gmap Z (FdTask * option FdTask) := handlers_of <$> Reactor.fdContexts (reactor w).
Definition pend {S} (w : World.t S) : gmap Z (Z * TimerTask) := pending (reactor w).

Definition queued {S} (w : World.t S) : list PendingRequest.t := submitQueue w ++ all_values (pendingByEndpoint w).
Definition pooled {S} (w : World.t S) : list Z := all_values (pools w).
Definition established (tasks : list Task) : list Z :=
  omap (fun t => match t with establishedTask _ c => Some c | _ => None end) tasks.
Definition connecting {S} (w : World.t S) : list Z := map ConnectTask.connId (connectTasks w).
Definition done_ids (comps : list Callback) (d : CallbackDispatcher.t Callback) : list Z :=
  map fst comps ++ map fst (CallbackDispatcher.tasks d).

(** The member that remembers a timer. *)
Definition timer_owner (h : Contexts) (ls : gmap Z Link) (t : TimerTask) : option Z :=
  match t with
  | timeoutTimer p => RequestContext.timerId <$> h !! p
  | pingTimer c => l_ping <$> ls !! c
  | pingTimeoutTimer c => l_timeout <$> ls !! c
  end.
Definition timer_live (ls : gmap Z Link) (t : TimerTask) : Prop :=
  match t with
  | timeoutTimer _ => True
  | pingTimer c | pingTimeoutTimer c => exists l, ls !! c = Some l /\ l_connected l = true
  end.

(** ** Its parts *)

(** Requests: [news] are being created. *)
Record requests_ok (news : list Z) (h : Contexts) (ctxs : gmap Z RequestContextPtr) (next : Z)
  (d : CallbackDispatcher.t Callback) (comps : list Callback) : Prop := {
  rq_ids p c : h !! p = Some c -> RequestContext.REQUEST_ID c = p /\ 1 <= p < next;
  rq_all p : 1 <= p < next -> is_Some (h !! p);
  rq_next : 1 <= next;
  rq_registered p c : h !! p = Some c -> RequestContext.finished c = false -> p ∉ news -> ctxs !! p = Some (Some p);
  rq_contexts i q : ctxs !! i = Some q -> q = Some i /\ is_Some (h !! i);
  rq_nodup : NoDup (done_ids comps d);
  rq_done p : p ∈ done_ids comps d <-> exists c, h !! p = Some c /\ RequestContext.finished c = true;
  rq_dispatcher : CallbackDispatcher.running d = false -> CallbackDispatcher.tasks d = [];
}.

(** Queues: each request waits in at most one place. *)
Definition pending_ok (h : Contexts) (rc : gmap Z Z) (pr : PendingRequest.t) : Prop :=
  request_fits (PendingRequest.request pr) /\
  exists p, PendingRequest.context pr = Some p /\ is_Some (h !! p) /\ rc !! p = None.
Record queues_ok (h : Contexts) (q : list PendingRequest.t) (rc : gmap Z Z) (sends : gmap Z SendState) : Prop := {
  qu_queued pr : pr ∈ q -> pending_ok h rc pr;
  qu_nodup : NoDup (map PendingRequest.context q);
  qu_submitted i c : rc !! i = Some c -> is_Some (h !! i);
  qu_sending p s : sends !! p = Some s ->
    is_Some (h !! p) /\
    match s with
    | AtTimer r _ _ | AtEnqueue r _ => request_fits r /\ rc !! p = None /\ Some p ∉ map PendingRequest.context q
    | AtPost => True
    end;
}.

(** Connections: owned by one pool, one posted task or one connect task. *)
Record connections_ok (ls : gmap Z Link) (pool est tids : list Z) (next : Z) : Prop := {
  co_nodup : NoDup (pool ++ est ++ tids);
  co_live c : c ∈ pool \/ c ∈ est -> is_Some (ls !! c);
  co_new c : c ∈ tids -> ls !! c = None /\ c < next;
  co_next c : is_Some (ls !! c) -> c < next;
  co_pos : 1 <= next;
}.

(** Pointers to connections: [X] have been disconnected but not yet lost;
    [est] have not been registered yet. *)
Record pointers_ok (X : gset Z) (T : list TimerTask) (ls : gmap Z Link) (fds : gmap Z (FdTask * option FdTask))
  (rc : gmap Z Z) (est : list Z) : Prop := {
  pt_fd fd rh wh : fds !! fd = Some (rh, wh) ->
    exists c l, rh = sessionReadable c /\ wh = Some (sessionWritable c) /\
      ls !! c = Some l /\ l_connected l = true /\ l_fd l = fd /\ (c ∉ est) /\ fd <> INVALID_SOCKET;
  pt_submitted i c : rc !! i = Some c ->
    exists l, ls !! c = Some l /\ (l_connected l = true \/ c ∈ X) /\ c ∉ est;
  pt_ping c l : ls !! c = Some l ->
    (l_pinging l = true -> l_ping l = 0) /\ (l_pinging l = false -> l_timeout l = 0);
  pt_established c l : c ∈ est -> ls !! c = Some l -> l_pinging l = false /\ l_ping l = 0;
  pt_fired_ping c : pingTimer c ∈ T ->
    (c ∉ est) /\ (pingTimeoutTimer c ∉ T) /\ forall l, ls !! c = Some l -> l_pinging l = false;
  pt_fired_timeout c : pingTimeoutTimer c ∈ T -> c ∉ est;
}.

(** Timers: [T] have fired and wait for their turn. *)
Record timers_inv (T : list TimerTask) (h : Contexts) (ls : gmap Z Link) (r : Reactor.t Task TimerTask FdTask) : Prop := {
  tm_ok : timers_ok r;
  tm_ready : Reactor.ready r = false -> Reactor.timers r = [] /\ Reactor.canceledTimers r = ∅;
  tm_running : Reactor.running r = true -> Reactor.ready r = true;
  tm_owner k d t : pending r !! k = Some (d, t) -> timer_owner h ls t = Some k /\ timer_live ls t;
  tm_unique k d t t' : pending r !! k = Some (d, t) -> timer_owner h ls t' = Some k -> t' = t;
  tm_fresh t k : timer_owner h ls t = Some k -> 0 <= k < Reactor.nextTimerId r;
  tm_hand : NoDup T;
  tm_fired t : t ∈ T -> is_Some (timer_owner h ls t) /\ forall k d, pending r !! k <> Some (d, t);
}.

(** Deadlines: a request with a timeout has a timer until it is finished,
    due at [B] at the latest. *)
Definition timer_due (B : Z -> Z) (now : Z) (p : Z) (c : RequestContext.t) (r : Reactor.t Task TimerTask FdTask) : Prop :=
  exists k d, pending r !! k = Some (d, timeoutTimer p) /\ d <= B p /\ B p <= now + RequestContext.TIMEOUT_MS c * MILLISECOND.
Definition deadlines_ok (B : Z -> Z) (news : list Z) (T : list TimerTask) (h : Contexts) (sends : gmap Z SendState)
  (now : Z) (r : Reactor.t Task TimerTask FdTask) : Prop :=
  Reactor.ready r = true ->
  forall p c, h !! p = Some c -> RequestContext.finished c = false -> 0 <= RequestContext.TIMEOUT_MS c ->
    p ∈ news \/ (exists rq ep ms, sends !! p = Some (AtTimer rq ep ms)) \/ timeoutTimer p ∈ T \/ timer_due B now p c r.

Section inv.
Context {S : Type} `{SessionLaws S}.

(** Sessions: [k] bytes may still be received in all. *)
Definition sessions_ok (k : Z) (h : Contexts) (conns : gmap Z (Connection.t S)) : Prop :=
  0 <= k /\
  forall c conn, conns !! c = Some conn ->
    sess_ok k (Connection.session conn) /\
    (forall q, q ∈ sess_held (Connection.session conn) -> exists p, q = Some p /\ is_Some (h !! p)) /\
    Connection.pingIntervalSec conn * 1000 < 2 ^ 31 /\ Connection.pingTimeoutSec conn * 1000 < 2 ^ 31.

(** What is in hand. *)
Record Hand := mk_hand {
  bytes_left : Z;
  creating : list Z;
  requests : list PendingRequest.t;
  conns : list Z;
  taken : list Z;
  lost : gset Z;
  fired : list TimerTask;
  due_by : Z -> Z;
}.
Definition nothing (k : Z) (B : Z -> Z) : Hand := mk_hand k [] [] [] [] ∅ [] B.

(** Connections that are not in use yet. *)
Definition unregistered (g : Hand) (w : World.t S) : list Z := taken g ++ established (Reactor.tasks (reactor w)).

Record winv (g : Hand) (w : World.t S) : Prop := {
  w_requests : requests_ok (creating g) (heap w) (contexts w) (nextRequestId w) (callbackDispatcher w) (completions w);
  w_queues : queues_ok (heap w) (requests g ++ queued w) (requestConnections w) (sending w);
  w_connections : connections_ok (links w) (conns g ++ pooled w) (unregistered g w)
                    (connecting w) (nextConnectionId w);
  w_pointers : pointers_ok (lost g) (fired g) (links w) (fd_handlers w) (requestConnections w) (unregistered g w);
  w_timers : timers_inv (fired g) (heap w) (links w) (reactor w);
  w_deadlines : deadlines_ok (due_by g) (creating g) (fired g) (heap w) (sending w) (clock w) (reactor w);
  w_sessions : sessions_ok (bytes_left g) (heap w) (connections w);
  w_config : ClientConfig.wf (config w) /\ ClientConfig.pings_fit (config w) /\ bytes_left g <= 2 ^ 31;
}.
End inv.
