(* ===== verification/ManagerTimers.v ===== *)
(** * Timers and what they stand for

    The invariant of the manager's timers is kept when one timer is
    cancelled, scheduled or fired and its owner updated. *)

From S2P Require Import Prelude Outcome Types ProtocolSafety Std RequestContext Transport.
From S2P Require Import Session SessionFacts Reactor ReactorFacts CallbackDispatcher.
From S2P Require Import Endpoint IHttpSession ManagerState Connection ConnectionManager.
From S2P Require Import ManagerSteps ManagerInv.
Import World ConnectionManager.

(** ** What the manager's operations leave alone

    Relations between the states before and after an operation, and the
    operations on the reactor's timers seen through the invariant. *)

(** *** Contexts *)

(** Contexts are never freed, and what has been finished or cancelled stays so. *)
Record context_after (c c' : RequestContext.t) : Prop := {
  ca_id : RequestContext.REQUEST_ID c' = RequestContext.REQUEST_ID c;
  ca_timeout : RequestContext.TIMEOUT_MS c' = RequestContext.TIMEOUT_MS c;
  ca_finished : RequestContext.finished c = true -> RequestContext.finished c' = true;
  ca_canceled : RequestContext.canceled c = true -> RequestContext.canceled c' = true;
  ca_timer : RequestContext.timerId c = 0 -> RequestContext.timerId c' = 0;
}.
Definition heap_after (h h' : Contexts) : Prop :=
  (forall p c, h !! p = Some c -> exists c', h' !! p = Some c' /\ context_after c c') /\
  (forall p, is_Some (h' !! p) -> is_Some (h !! p)).

#[export] Instance context_after_preorder : PreOrder context_after.
Proof. split; [by intros c; split|]. intros a b c [] []. split; try congruence; auto. Qed.

#[export] Instance heap_after_preorder : PreOrder heap_after.
Proof.
  split.
  - intros h. split; [|done]. intros p c Hc. exists c. by split.
  - intros h1 h2 h3 [H12 H21] [H23 H32]. split; [|auto]. intros p c Hc.
    destruct (H12 p c Hc) as (c2 & Hc2 & ?). destruct (H23 p _ Hc2) as (c3 & Hc3 & ?). exists c3. split; [done|by etrans].
Qed.

Lemma heap_after_is_Some h h' p : heap_after h h' -> is_Some (h' !! p) <-> is_Some (h !! p).
Proof. intros [H1 H2]. split; [apply H2|]. intros [c Hc]. destruct (H1 p c Hc) as (c' & Hc' & _). eauto. Qed.

Lemma heap_after_insert h p c c' :
  h !! p = Some c -> context_after c c' -> heap_after h (<[p := c']> h).
Proof.
  unfold heap_after in *. intros Hc Ha. split.
  - intros q d Hd. destruct (decide (q = p)) as [->|].
    + rewrite lookup_insert_eq. simplify_eq. eauto.
    + rewrite lookup_insert_ne by done. exists d. by split.
  - intros q. destruct (decide (q = p)) as [->|]; [eauto|by rewrite lookup_insert_ne].
Qed.

Lemma same_requests_after h h' : same_requests h h' -> heap_after h h'.
Proof. intros [H1 H2]. split; [|done]. intros p c Hc. destruct (H1 p c Hc) as (c' & Hc' & sid & ->). eauto using Build_context_after. Qed.

(** *** States *)

(** Connections neither appear nor reconnect. *)
Definition links_after (ls ls' : gmap Z Link) : Prop :=
  (forall c, is_Some (ls !! c) -> is_Some (ls' !! c)) /\
  (forall c l', ls' !! c = Some l' -> exists l, ls !! c = Some l /\ (l_connected l' = true -> l_connected l = true)).

#[export] Instance links_after_preorder : PreOrder links_after.
Proof.
  split; [split; eauto|]. intros a b c [H1 H2] [H3 H4]. split; [auto|]. intros i l Hl.
  destruct (H4 i l Hl) as (l1 & Hl1 & ?). destruct (H2 i l1 Hl1) as (l0 & ? & ?). exists l0. split; [done|auto].
Qed.

Section frame.
Context {S : Type}.
Implicit Type w : World.t S.

(** What only the steps of the threads change. *)
Definition static w :=
  (config w, started w, connectorThread w, connectorStop w, clock w, closing w, sending w, nextRequestId w,
   Reactor.running (reactor w), Reactor.ready (reactor w), Reactor.tasks (reactor w), canceling w).

Record frame w w' : Prop := {
  fr_static : static w' = static w;
  fr_heap : heap_after (heap w) (heap w');
  fr_links : links_after (links w) (links w');
}.

(** ... and the connections and the queues of submissions stay. *)
Record steady w w' : Prop := {
  sd_frame : frame w w';
  sd_links : links w' = links w;
  sd_pools : pools w' = pools w;
  sd_submit : submitQueue w' = submitQueue w;
}.

Record calm w w' : Prop := {
  cl_steady : steady w w';
  cl_pending : pendingByEndpoint w' = pendingByEndpoint w;
}.

#[export] Instance frame_preorder : PreOrder frame.
Proof. split; [by intros w; split|]. intros a b c [] []. split; [congruence|by etrans|by etrans]. Qed.
#[export] Instance steady_preorder : PreOrder steady.
Proof. split; [by intros w; split|]. intros a b c [] []. split; [by etrans|congruence..]. Qed.
#[export] Instance calm_preorder : PreOrder calm.
Proof. split; [by intros w; split|]. intros a b c [] []. split; [by etrans|congruence]. Qed.
End frame.

(** *** Timers *)

Section timers.
Implicit Type r : Reactor.t Task TimerTask FdTask.

(** A stopped reactor has no timers. *)
Definition idle_timers r : Prop := Reactor.ready r = false -> Reactor.timers r = [] /\ Reactor.canceledTimers r = ∅.

Lemma cancel_any now k r :
  timers_ok r -> idle_timers r ->
  let r' := snd (Reactor.cancelTimer now k r) in
  timers_ok r' /\ pending r' = delete k (pending r) /\ idle_timers r' /\ rest r' = rest r.
Proof.
  intros Hok Hidle. pose proof (cancel_rest now k r) as Hr. cbn zeta. destruct (Reactor.ready r) eqn:Hready.
  - pose proof (cancel_pending now k r Hok Hready) as Hc. destruct (Reactor.cancelTimer now k r) as [found r'].
    cbn [snd] in *. destruct Hc as (? & ? & _). split_and!; [done|done| |done].
    intros Hr'. injection Hr as _ Hrd _ _ _ _. congruence.
  - destruct (Hidle Hready) as [Ht Hc]. unfold Reactor.cancelTimer in *. rewrite Hc, lookup_empty in *. cbn [snd].
    split_and!; [done| |done|done]. symmetry. apply delete_id. unfold pending. by rewrite Ht.
Qed.
End timers.

Section timers.
Context `{HeapOrder}.
Implicit Type r : Reactor.t Task TimerTask FdTask.
Implicit Types (h : Contexts) (ls : gmap Z Link) (t : TimerTask).

Lemma rest_same r r' : rest r' = rest r ->
  Reactor.running r' = Reactor.running r /\ Reactor.ready r' = Reactor.ready r /\ Reactor.tasks r' = Reactor.tasks r /\
  Reactor.nextTimerId r' = Reactor.nextTimerId r /\ Reactor.fdContexts r' = Reactor.fdContexts r.
Proof. unfold rest. intros Hr. by injection Hr as -> -> -> -> -> _. Qed.

Lemma pending_positive r k d t : timers_ok r -> pending r !! k = Some (d, t) -> 1 <= k < Reactor.nextTimerId r.
Proof. intros Hok Hk. apply pending_lookup in Hk as [Hin _]; [|done]. by apply (tk_ids _ Hok) in Hin. Qed.

Lemma owner_ping h ls c l : ls !! c = Some l -> timer_owner h ls (pingTimer c) = Some (l_ping l).
Proof. cbn. by intros ->. Qed.
Lemma owner_timeout h ls c l : ls !! c = Some l -> timer_owner h ls (pingTimeoutTimer c) = Some (l_timeout l).
Proof. cbn. by intros ->. Qed.

(** No timer of [t] is pending. *)
Definition no_timer r t : Prop := forall k d, pending r !! k <> Some (d, t).

Lemma owner_zero T h ls r t : timers_inv T h ls r -> timer_owner h ls t = Some 0 -> no_timer r t.
Proof.
  intros Ht Ho k d Hk. destruct (tm_owner _ _ _ _ Ht _ _ _ Hk) as [Ho' _].
  pose proof (pending_positive _ _ _ _ (tm_ok _ _ _ _ Ht) Hk). simplify_eq. lia.
Qed.

(** Cancelling a timer one remembers, 0 standing for none. *)
Definition cancel_if (now k : Z) r : Reactor.t Task TimerTask FdTask :=
  if k =? 0 then r else snd (Reactor.cancelTimer now k r).

Lemma cancel_if_spec now k r :
  timers_ok r -> idle_timers r ->
  let r' := cancel_if now k r in
  timers_ok r' /\ pending r' = delete k (pending r) /\ idle_timers r' /\ rest r' = rest r.
Proof.
  intros Hok Hidle. unfold cancel_if. destruct (k =? 0) eqn:Hz; bool_to_prop; [|by apply cancel_any].
  split_and!; [done| |done|done]. symmetry. apply delete_id, eq_None_not_Some. intros [[d t] Hk].
  pose proof (pending_positive _ _ _ _ Hok Hk). lia.
Qed.

(** Owners and live connections may change where no timer is pending. *)
Lemma timers_keep T h ls h' ls' r :
  timers_inv T h ls r -> (forall t, timer_owner h' ls' t = timer_owner h ls t) ->
  (forall t k d, pending r !! k = Some (d, t) -> timer_live ls t -> timer_live ls' t) -> timers_inv T h' ls' r.
Proof.
  intros [Hok Hready Hrun Hown Huniq Hfresh Hhand Hfired] Ho Hl. split; try done.
  - intros k d t Hk. rewrite Ho. destruct (Hown k d t Hk). eauto.
  - intros k d t t'. rewrite Ho. eauto.
  - intros t k. rewrite Ho. eauto.
  - intros t. rewrite Ho. eauto.
Qed.

(** The reactor may change but for its timers. *)
Definition timer_state r :=
  (Reactor.running r, Reactor.ready r, Reactor.timers r, Reactor.canceledTimers r, Reactor.nextTimerId r).

Lemma pending_same r r' : timer_state r' = timer_state r -> pending r' = pending r.
Proof. unfold timer_state, pending. intros Hr. by injection Hr as _ _ -> -> _. Qed.

Lemma timers_state T h ls r r' : timers_inv T h ls r -> timer_state r' = timer_state r -> timers_inv T h ls r'.
Proof.
  intros [[Hq Hids Hn] Hready Hrun Hown Huniq Hfresh Hhand Hfired] Hs. pose proof (pending_same _ _ Hs) as Hp.
  unfold timer_state in Hs. injection Hs as Hs1 Hs2 Hs3 Hs4 Hs5.
  split; rewrite ?Hp; rewrite ?Hs1, ?Hs2, ?Hs3, ?Hs4, ?Hs5; try done.
  split; by rewrite ?Hs3, ?Hs4, ?Hs5.
Qed.

(** The owner of [t] forgets it, and its timer is cancelled. *)
Lemma timers_reset T h ls h' ls' r r' t k :
  timers_inv T h ls r -> timer_owner h ls t = Some k -> timer_owner h' ls' t = Some 0 ->
  (forall t', t' <> t -> timer_owner h' ls' t' = timer_owner h ls t') ->
  (forall t', t' <> t -> timer_live ls t' -> timer_live ls' t') ->
  timers_ok r' -> pending r' = delete k (pending r) -> idle_timers r' -> rest r' = rest r ->
  timers_inv T h' ls' r'.
Proof.
  intros [Hok Hready Hrun Hown Huniq Hfresh Hhand Hfired] Hk Hz Ho Hl Hok' Hpend Hidle Hrest.
  destruct (rest_same _ _ Hrest) as (Hr1 & Hr2 & _ & Hr3 & _).
  assert (Hother : forall k d t', pending r' !! k = Some (d, t') -> pending r !! k = Some (d, t') /\ t' <> t).
  { intros i d t'. rewrite Hpend, lookup_delete_Some. intros [Hi Hp]. split; [done|]. intros ->.
    destruct (Hown _ _ _ Hp). congruence. }
  split; try done.
  - rewrite Hr1, Hr2. done.
  - intros i d t' Hi. destruct (Hother i d t' Hi) as [Hi' Hne]. rewrite Ho by done. destruct (Hown _ _ _ Hi'). eauto.
  - intros i d t1 t2 Hi Ho2. destruct (Hother i d t1 Hi) as [Hi' Hne]. destruct (decide (t2 = t)) as [->|Hne2].
    + rewrite Hz in Ho2. injection Ho2 as <-. pose proof (pending_positive _ _ _ _ Hok Hi'). lia.
    + rewrite Ho in Ho2 by done. eauto.
  - intros t' i Hi. rewrite Hr3. destruct (decide (t' = t)) as [->|Hne].
    + rewrite Hz in Hi. injection Hi as <-. pose proof (tk_next _ Hok). lia.
    + rewrite Ho in Hi by done. eauto.
  - intros t' Ht'. destruct (Hfired t' Ht') as [Hs Hnp]. split.
    + destruct (decide (t' = t)) as [->|Hne]; [rewrite Hz; eauto|by rewrite Ho].
    + intros i d Hi. destruct (Hother i d t' Hi) as [Hi' _]. by eapply Hnp.
Qed.

(** The owner of [t] remembers a new timer. *)
Lemma timers_arm T h ls h' ls' r now ms t :
  timers_inv T h ls r -> Reactor.nextTimerId r + 1 < 2 ^ 64 -> t ∉ T -> no_timer r t ->
  let '(k, r') := Reactor.scheduleOnce now ms (Some t) r in
  timer_owner h' ls' t = Some k -> timer_live ls' t ->
  (forall t', t' <> t -> timer_owner h' ls' t' = timer_owner h ls t') -> (forall t', timer_live ls t' -> timer_live ls' t') ->
  timers_inv T h' ls' r' /\
  pending r' = if Reactor.running r then <[k := (now + Z.max ms 0 * MILLISECOND, t)]> (pending r) else pending r.
Proof.
  intros Ht Hnext Hfresh Hno. pose proof Ht as [Hok Hready Hrun Hown Huniq Hfr Hhand Hfired].
  pose proof (schedule_rest now ms t r) as Hrest. destruct (Reactor.running r) eqn:Hr.
  - pose proof (schedule_spec now ms t r) as Hs. destruct (Reactor.scheduleOnce now ms (Some t) r) as [k r'].
    destruct Hrest as (-> & Hr1 & Hr2 & _). destruct Hs as ((Hok' & _ & Hrd) & _ & Hn & _ & Hkn & Hp); [by split_and!; auto|done|].
    intros Ho Hlive Hothers Hlives. split; [|done]. split.
    + done.
    + congruence.
    + done.
    + intros i d t'. rewrite Hp. intros [[<- [= <- <-]]|[Hi Hi']]%lookup_insert_Some; [done|].
      assert (Hne : t' <> t) by (intros ->; by eapply Hno). rewrite Hothers by done. destruct (Hown _ _ _ Hi'). eauto.
    + intros i d t1 t2. rewrite Hp. intros [[<- [= <- <-]]|[Hi Hi']]%lookup_insert_Some Ho2.
      * destruct (decide (t2 = t)) as [|Hne]; [done|]. rewrite Hothers in Ho2 by done. specialize (Hfr _ _ Ho2). lia.
      * destruct (decide (t2 = t)) as [->|Hne]; [congruence|]. rewrite Hothers in Ho2 by done. eauto.
    + intros t' i Hi. rewrite Hn. destruct (decide (t' = t)) as [->|Hne].
      * simplify_eq. pose proof (tk_next _ Hok). lia.
      * rewrite Hothers in Hi by done. specialize (Hfr _ _ Hi). lia.
    + done.
    + intros t' Ht'. destruct (Hfired t' Ht') as [Hs Hnp]. assert (Hne : t' <> t) by congruence. rewrite Hothers by done.
      split; [done|]. intros i d. rewrite Hp. intros [[<- [= <- <-]]|[Hi Hi']]%lookup_insert_Some; [done|by eapply Hnp].
  - unfold Reactor.scheduleOnce in *. cbv zeta in *. change (Reactor.running (Reactor.set_nextTimerId _ r)) with (Reactor.running r) in *.
    rewrite Hr in *. cbn [negb] in *. intros Ho Hlive Hothers Hlives. split; [|done].
    assert (Hu : u64 (Reactor.nextTimerId r + 1) = Reactor.nextTimerId r + 1) by (pose proof (tk_next _ Hok); apply u64_small; lia).
    split; try done.
    + split; [apply Hok| |cbn; rewrite Hu; pose proof (tk_next _ Hok); lia].
      intros x Hx. apply (tk_ids _ Hok) in Hx. cbn. lia.
    + cbn. congruence.
    + intros i d t' Hi. change (pending r !! i = Some (d, t')) in Hi. assert (Hne : t' <> t) by (intros ->; by eapply Hno).
      rewrite Hothers by done. destruct (Hown _ _ _ Hi). eauto.
    + intros i d t1 t2 Hi Ho2. change (pending r !! i = Some (d, t1)) in Hi. destruct (decide (t2 = t)) as [->|Hne].
      * simplify_eq. pose proof (pending_positive _ _ _ _ Hok Hi). lia.
      * rewrite Hothers in Ho2 by done. eauto.
    + intros t' i Hi. cbn. rewrite Hu. destruct (decide (t' = t)) as [->|Hne].
      * simplify_eq. pose proof (tk_next _ Hok). lia.
      * rewrite Hothers in Hi by done. specialize (Hfr _ _ Hi). lia.
    + intros t' Ht'. destruct (Hfired t' Ht') as [Hs Hnp]. assert (Hne : t' <> t) by congruence. rewrite Hothers by done. done.
Qed.

(** Timers that are due come to one's hand, in the order of their deadlines. *)
Lemma timers_fire h ls r now :
  timers_inv [] h ls r -> Reactor.ready r = true ->
  let '(T, r') := Reactor.fireDueTimers now r in
  timers_inv T h ls r' /\ rest r' = rest r /\ pending r' = filter (fun kv => now < kv.2.1) (pending r) /\
  (forall t, t ∈ T <-> exists k d, pending r !! k = Some (d, t) /\ d <= now).
Proof.
  intros [Hok Hready Hrun Hown Huniq Hfr Hhand Hfired] Hrd. pose proof (fire_pending now r Hok Hrd) as Hf.
  destruct (Reactor.fireDueTimers now r) as [T r']. destruct Hf as (Hok' & _ & Hrest & fired & -> & _ & Hnd & Hin & Hp).
  destruct (rest_same _ _ Hrest) as (Hr1 & Hr2 & _ & Hr3 & _).
  assert (Hsub : forall k d t, pending r' !! k = Some (d, t) -> pending r !! k = Some (d, t) /\ now < d).
  { intros k d t. rewrite Hp, map_lookup_filter_Some. done. }
  assert (Hmem : forall t, t ∈ map (handler (H := TimerTask)) fired <-> exists k d, pending r !! k = Some (d, t) /\ d <= now).
  { intros t. rewrite list_elem_of_fmap. split.
    - intros (x & -> & Hx). apply Hin in Hx as [? ?]. eauto.
    - intros (k & d & Hk & Hd). exists (mk_timer d k t). split; [done|]. by apply Hin. }
  split_and!; [|done|done|done]. split; try done.
  - congruence.
  - by rewrite Hr1, Hr2.
  - intros k d t Hk. apply Hsub in Hk as [Hk _]. eauto.
  - intros k d t t' Hk. apply Hsub in Hk as [Hk _]. eauto.
  - intros t k. rewrite Hr3. eauto.
  - clear Hmem. assert (Hown' : forall x, x ∈ fired -> timer_owner h ls (handler x) = Some (id x)).
    { intros x Hx. apply Hin in Hx as [Hx _]. by destruct (Hown _ _ _ Hx). }
    clear Hin Hp Hsub. induction fired as [|x fired IH]; cbn; [constructor|]. apply NoDup_cons in Hnd as [Hx Hnd]. constructor.
    + intros (y & Hy & Hyin)%list_elem_of_fmap. apply Hx. apply list_elem_of_fmap. exists y. split; [|done].
      assert (Hox : timer_owner h ls (handler x) = Some (id x)) by (apply Hown'; by apply elem_of_cons; left).
      assert (Hoy : timer_owner h ls (handler y) = Some (id y)) by (apply Hown'; by apply elem_of_cons; right). congruence.
    + apply IH; [done|]. intros y Hy. apply Hown'. by apply elem_of_cons; right.
  - intros t Ht. apply Hmem in Ht as (k & d & Hk & Hd). destruct (Hown _ _ _ Hk) as [Ho _]. split; [by rewrite Ho|].
    intros k' d' Hk'. apply Hsub in Hk' as [Hk' Hlt]. destruct (Hown _ _ _ Hk') as [Ho' _]. assert (k' = k) as -> by congruence.
    simplify_eq. lia.
Qed.
End timers.
