(* ===== verification/ManagerRequests.v ===== *)
(** * Completing requests

    The first operations on a manager's state that keep its invariant: those
    on requests and on their queues. *)

From S2P Require Import Prelude Outcome Types Transport RequestContext Std Session SessionFacts.
From S2P Require Import ProtocolSafety Endpoint Reactor ReactorFacts CallbackDispatcher IHttpSession.
From S2P Require Import ManagerState Connection ConnectionManager ManagerSteps ManagerInv ManagerTimers.
Import World ConnectionManager.

(** A context once it is finished. *)
Definition finish (c : RequestContext.t) : RequestContext.t :=
  RequestContext.setTimerId 0 (snd (RequestContext.tryFinish c)).

Section requests.
Context {S : Type} `{SessionLaws S} `{HeapOrder} `{!HashOrder EndpointKey} `{!HashOrder Z} {thread : RunsOn} {checks : Checks}.
Implicit Type w : World.t S.
Implicit Type r : Reactor.t Task TimerTask FdTask.

(** The state after a completion. *)
Definition completed (p : Z) (c : RequestContext.t) (r : Reactor.t Task TimerTask FdTask)
  (d : CallbackDispatcher.t Callback) (comps : list Callback) w : World.t S :=
  set_heap (<[p := finish c]> (heap w)) (set_reactor r (set_contexts (delete (RequestContext.REQUEST_ID c) (contexts w))
    (set_callbackDispatcher d (set_completions comps w)))).

Lemma finish_first (c : RequestContext.t) :
  RequestContext.finished c = false ->
  RequestContext.tryFinish c = (true, snd (RequestContext.tryFinish c)) /\
  RequestContext.timerId (snd (RequestContext.tryFinish c)) = RequestContext.timerId c /\
  RequestContext.REQUEST_ID (snd (RequestContext.tryFinish c)) = RequestContext.REQUEST_ID c.
Proof. unfold RequestContext.tryFinish. by intros ->. Qed.

Lemma finish_after c : RequestContext.finished c = false -> context_after c (finish c) /\ RequestContext.finished (finish c) = true.
Proof. unfold finish, RequestContext.tryFinish. intros Hc. rewrite Hc. split; [split|]; done. Qed.

(** Handing the result to the dispatcher, or calling the handler here. *)
Definition deliver (cb : Callback) : st (World.t S) unit :=
  w <- get ;;
  if CallbackDispatcher.isRunning (callbackDispatcher w) then
    let '(posted, d) := CallbackDispatcher.post (Some cb) (callbackDispatcher w) in
    modify (set_callbackDispatcher d) ;;;
    if posted then ret tt else invokeCompletion cb
  else invokeCompletion cb.

Lemma deliver_run cb w :
  exists d comps, deliver cb w = Ok (tt, set_callbackDispatcher d (set_completions comps w)) /\
    done_ids comps d ≡ₚ fst cb :: done_ids (completions w) (callbackDispatcher w) /\
    CallbackDispatcher.running d = CallbackDispatcher.running (callbackDispatcher w) /\
    (CallbackDispatcher.running d = false -> CallbackDispatcher.tasks d = CallbackDispatcher.tasks (callbackDispatcher w)).
Proof.
  unfold deliver, bind at 1, get, invokeCompletion, modify, CallbackDispatcher.isRunning, CallbackDispatcher.post.
  assert (Hinline : done_ids (completions w ++ [cb]) (callbackDispatcher w) ≡ₚ fst cb :: done_ids (completions w) (callbackDispatcher w)).
  { unfold done_ids. rewrite map_app, <- app_assoc. cbn. by rewrite <- Permutation_middle. }
  destruct (CallbackDispatcher.running (callbackDispatcher w)) eqn:Hr; cbn [negb orb].
  - destruct (CallbackDispatcher.stopRequested (callbackDispatcher w)) eqn:Hs; unfold bind, ret.
    + exists (callbackDispatcher w), (completions w ++ [cb]). split_and!; [done|done|done|done].
    + eexists _, (completions w). split; [destruct w; done|]. split_and!; [|done|cbn; congruence].
      unfold done_ids. cbn. rewrite map_app. cbn. by rewrite app_assoc, <- Permutation_cons_append.
  - exists (callbackDispatcher w), (completions w ++ [cb]). split_and!; [by destruct w|done|done|done].
Qed.

Lemma completeRequest_run p response w c :
  heap w !! p = Some c -> RequestContext.finished c = false ->
  exists d comps,
    completeRequest (Some p) response w =
      Ok (tt, completed p c (cancel_if (clock w) (RequestContext.timerId c) (reactor w)) d comps w) /\
    done_ids comps d ≡ₚ p :: done_ids (completions w) (callbackDispatcher w) /\
    CallbackDispatcher.running d = CallbackDispatcher.running (callbackDispatcher w) /\
    (CallbackDispatcher.running d = false -> CallbackDispatcher.tasks d = CallbackDispatcher.tasks (callbackDispatcher w)).
Proof.
  intros Hc Hf. destruct (finish_first c Hf) as (Htry & Htimer & Hid). unfold completeRequest.
  unfold bind at 1, deref_request. rewrite Hc, Htry. cbn [negb]. unfold RequestContext.getTimerId. rewrite Htimer, Hid.
  unfold bind at 1, modify at 1. set (c1 := snd (RequestContext.tryFinish c)). set (w1 := set_heap (<[p := c1]> (heap w)) w).
  set (w2 := completed p c (cancel_if (clock w) (RequestContext.timerId c) (reactor w)) (callbackDispatcher w) (completions w) w).
  destruct (deliver_run (p, response) w2) as (d & comps & Hdel & Hperm & Hrun & Htasks).
  exists d, comps. split; [|done]. change (Ok (tt, _)) with (Ok (tt, set_callbackDispatcher d (set_completions comps w2))). rewrite <- Hdel.
  unfold w2, completed, finish, cancel_if. fold c1. destruct (RequestContext.timerId c =? 0) eqn:Hz.
  - unfold bind at 1, ret at 1. unfold bind at 1, modify at 1.
    bool_to_prop. replace (RequestContext.setTimerId 0 c1) with c1 by (destruct c as [i t f x s tm hh]; unfold c1, RequestContext.tryFinish; cbn in *; subst; done).
    by destruct w.
  - unfold bind at 1, bind at 1, on_reactor. change (clock w1) with (clock w). change (reactor w1) with (reactor w).
    destruct (Reactor.cancelTimer (clock w) (RequestContext.timerId c) (reactor w)) as [b r]. cbn [snd].
    unfold update_request, bind at 1, deref_request. change (heap (set_reactor r w1)) with (<[p := c1]> (heap w)).
    rewrite lookup_insert_eq. unfold modify at 1, bind at 1, modify at 1.
    change (heap (set_reactor r w1)) with (<[p := c1]> (heap w)). rewrite insert_insert_eq. by destruct w.
Qed.

(** *** Finishing keeps the invariant *)

Lemma requests_complete news h ctxs next d d' comps comps' p c :
  requests_ok news h ctxs next d comps -> h !! p = Some c -> RequestContext.finished c = false ->
  done_ids comps' d' ≡ₚ p :: done_ids comps d ->
  CallbackDispatcher.running d' = CallbackDispatcher.running d ->
  (CallbackDispatcher.running d' = false -> CallbackDispatcher.tasks d' = CallbackDispatcher.tasks d) ->
  requests_ok news (<[p := finish c]> h) (delete (RequestContext.REQUEST_ID c) ctxs) next d' comps'.
Proof.
  intros [Hids Hall Hnext Hreg Hctx Hnd Hdone Hdisp] Hc Hf Hperm Hrun Htasks.
  destruct (Hids p c Hc) as [Hid Hp]. rewrite Hid. destruct (finish_after c Hf) as [Ha Hfin].
  split.
  - intros q e Hq. destruct (decide (q = p)) as [->|Hne].
    + rewrite lookup_insert_eq in Hq. injection Hq as <-. by rewrite (ca_id _ _ Ha).
    + rewrite lookup_insert_ne in Hq by done. eauto.
  - intros q Hq. destruct (decide (q = p)) as [->|]; [rewrite lookup_insert_eq; eauto|rewrite lookup_insert_ne by done; auto].
  - done.
  - intros q e Hq Hfe Hnews. destruct (decide (q = p)) as [->|Hne].
    + rewrite lookup_insert_eq in Hq. injection Hq as <-. congruence.
    + rewrite lookup_insert_ne in Hq by done. rewrite lookup_delete_ne by done. eauto.
  - intros i q Hi. rewrite lookup_delete_Some in Hi. destruct Hi as [Hne Hi]. destruct (Hctx i q Hi) as [-> Hs].
    split; [done|]. rewrite lookup_insert_ne by done. done.
  - rewrite Hperm. apply NoDup_cons. split; [|done]. rewrite Hdone. intros (e & He & Hfe). simplify_eq. congruence.
  - intros q. rewrite Hperm, elem_of_cons, Hdone. destruct (decide (q = p)) as [->|Hne].
    + rewrite lookup_insert_eq. split; [eauto|by left].
    + rewrite lookup_insert_ne by done. split; [by intros [?|?]|by right].
  - intros Hr. rewrite Htasks by done. apply Hdisp. congruence.
Qed.

Lemma pending_ok_heap h h' rc pr : (forall p, is_Some (h !! p) -> is_Some (h' !! p)) -> pending_ok h rc pr -> pending_ok h' rc pr.
Proof. intros Hh (? & p & ? & ? & ?). split; [done|]. exists p. auto. Qed.

Lemma queues_heap h h' q rc sends :
  (forall p, is_Some (h !! p) -> is_Some (h' !! p)) -> queues_ok h q rc sends -> queues_ok h' q rc sends.
Proof.
  intros Hh [Hq Hn Hs Hsend]. split; [|done|eauto|].
  - intros pr Hpr. eapply pending_ok_heap; eauto.
  - intros p s Hp. destruct (Hsend p s Hp). split; auto.
Qed.

Lemma sessions_heap k h h' conns :
  (forall p, is_Some (h !! p) -> is_Some (h' !! p)) -> sessions_ok k h conns -> sessions_ok (S := S) k h' conns.
Proof.
  intros Hh [Hk Hs]. split; [done|]. intros c conn Hc. destruct (Hs c conn Hc) as (? & Hheld & ?). split_and!; [done| |tauto..].
  intros q Hq. destruct (Hheld q Hq) as (p & -> & ?). eauto.
Qed.

Lemma owner_finish h ls p c t :
  t <> timeoutTimer p -> timer_owner (<[p := finish c]> h) ls t = timer_owner h ls t.
Proof.
  intros Ht. destruct t as [q| |]; [|done|done]. cbn. rewrite lookup_insert_ne; [done|congruence].
Qed.

Lemma owner_finished h ls p c : timer_owner (<[p := finish c]> h) ls (timeoutTimer p) = Some 0.
Proof. cbn. by rewrite lookup_insert_eq. Qed.

Lemma timers_complete T h ls r r' p c :
  timers_inv T h ls r -> h !! p = Some c ->
  timers_ok r' -> pending r' = delete (RequestContext.timerId c) (pending r) -> idle_timers r' -> rest r' = rest r ->
  timers_inv T (<[p := finish c]> h) ls r'.
Proof.
  intros Ht Hc Hok Hpend Hidle Hrest. eapply (timers_reset _ _ _ _ _ _ _ (timeoutTimer p)); [exact Ht|by cbn; rewrite Hc| |..]; try done.
  - apply owner_finished.
  - intros t' Hne. by apply owner_finish.
Qed.

Lemma deadlines_complete B news T h ls sends now r r' p c :
  timers_inv T h ls r -> deadlines_ok B news T h sends now r -> h !! p = Some c -> RequestContext.finished c = false ->
  pending r' = delete (RequestContext.timerId c) (pending r) -> rest r' = rest r ->
  deadlines_ok B news T (<[p := finish c]> h) sends now r'.
Proof.
  intros Ht Hd Hc Hf Hpend Hrest Hready q e Hq Hfe Hto. destruct (rest_same _ _ Hrest) as (_ & Hr2 & _).
  rewrite Hr2 in Hready. destruct (finish_after c Hf) as [_ Hfin]. destruct (decide (q = p)) as [->|Hne].
  { rewrite lookup_insert_eq in Hq. injection Hq as <-. congruence. }
  rewrite lookup_insert_ne in Hq by done.
  destruct (Hd Hready q e Hq Hfe Hto) as [?|[?|[?|(k & due & Hk & Hdue)]]]; [tauto..|]. do 3 right.
  exists k, due. split; [|done]. rewrite Hpend, lookup_delete_ne; [done|]. intros <-.
  assert (timeoutTimer p = timeoutTimer q); [|congruence]. eapply (tm_unique _ _ _ _ Ht); [exact Hk|]. cbn. by rewrite Hc.
Qed.

(** ** The specification *)

(** Off the reactor's thread an assertion may fail. *)
Definition tolerates (f : fault) : Prop :=
  sess_fault f \/ f = ids_exhausted \/ (current = otherThread /\ asserts = true /\ f = not_reactor_thread).

Lemma assert_spec (Q : unit -> World.t S -> Prop) w :
  Q tt w -> wp tolerates ConnectionMethods.assert_reactor_thread Q w.
Proof.
  intros HQ. unfold ConnectionMethods.assert_reactor_thread. destruct current eqn:Hc; [done|].
  destruct asserts eqn:Ha; [|done]. apply wp_fail. by do 2 right.
Qed.

Definition is_finished w p : Prop := exists c, heap w !! p = Some c /\ RequestContext.finished c = true.

Lemma completeRequest_spec g p response w :
  winv g w -> is_Some (heap w !! p) ->
  wp tolerates (completeRequest (Some p) response)
    (fun _ w' => winv g w' /\ calm w w' /\ requestConnections w' = requestConnections w /\
       connections w' = connections w /\ is_finished w' p) w.
Proof.
  intros Hw [c Hc]. destruct (RequestContext.finished c) eqn:Hf.
  { unfold wp, completeRequest, bind, deref_request, RequestContext.tryFinish. rewrite Hc, Hf. cbn.
    split_and!; [done|reflexivity|done|done|]. by exists c. }
  destruct (completeRequest_run p response w c Hc Hf) as (d & comps & Hrun & Hperm & Hdr & Hdt).
  eapply wp_of_run; [exact Hrun|]. pose proof (w_timers _ _ Hw) as Htm.
  destruct (cancel_if_spec (clock w) (RequestContext.timerId c) (reactor w) (tm_ok _ _ _ _ Htm) (tm_ready _ _ _ _ Htm))
    as (Hok & Hpend & Hidle & Hrest).
  set (r' := cancel_if _ _ _) in *. set (w' := completed p c r' d comps w).
  destruct (rest_same _ _ Hrest) as (Hr1 & Hr2 & Hr3 & Hr4 & Hr5).
  assert (Hafter : heap_after (heap w) (heap w')) by (apply (heap_after_insert _ _ c); [done|by apply finish_after]).
  assert (Hsome : forall q, is_Some (heap w !! q) -> is_Some (heap w' !! q)) by (intros q; apply (heap_after_is_Some _ _ q Hafter)).
  assert (Hfds : fd_handlers w' = fd_handlers w) by (unfold fd_handlers; cbn; by rewrite Hr5).
  split; [|split; [|split_and!; [done|done|]]].
  - split; cbn [w' completed].
    + eapply requests_complete; [apply Hw|done..].
    + eapply queues_heap; [exact Hsome|apply Hw].
    + unfold unregistered. change (reactor w') with r'. rewrite Hr3. apply Hw.
    + rewrite Hfds. unfold unregistered. change (reactor w') with r'. rewrite Hr3. apply Hw.
    + by eapply timers_complete; [apply Hw|..].
    + by eapply deadlines_complete; [apply Hw|apply Hw|..].
    + eapply sessions_heap; [exact Hsome|apply Hw].
    + apply Hw.
  - split; [split|done]; [split|..]; try done.
    unfold static. cbn. by rewrite Hr1, Hr2, Hr3.
  - exists (finish c). split; [|by apply finish_after]. change (heap w') with (<[p := finish c]> (heap w)).
    apply lookup_insert_eq.
Qed.
End requests.
