(* ===== verification/ManagerQueues.v ===== *)
(** * Queues of requests

    Moving requests between the queues and one's hand, completing whole
    queues, and changes of contexts that the invariant does not see. *)

From S2P Require Import Prelude Outcome Types Transport RequestContext Std Session SessionFacts.
From S2P Require Import ProtocolSafety Endpoint Reactor ReactorFacts CallbackDispatcher IHttpSession.
From S2P Require Import ManagerState Connection ConnectionManager ManagerSteps ManagerInv ManagerTimers ManagerRequests.
Import World ConnectionManager.

(** Contexts up to their flag of cancellation and their stream. *)
Record same_context (c c' : RequestContext.t) : Prop := {
  sc_id : RequestContext.REQUEST_ID c' = RequestContext.REQUEST_ID c;
  sc_timeout : RequestContext.TIMEOUT_MS c' = RequestContext.TIMEOUT_MS c;
  sc_finished : RequestContext.finished c' = RequestContext.finished c;
  sc_timer : RequestContext.timerId c' = RequestContext.timerId c;
  sc_canceled : RequestContext.canceled c = true -> RequestContext.canceled c' = true;
}.
Definition same_heap (h h' : Contexts) : Prop :=
  forall p, match h !! p, h' !! p with
            | Some c, Some c' => same_context c c'
            | None, None => True
            | _, _ => False
            end.

Lemma same_heap_inv h h' p c' : same_heap h h' -> h' !! p = Some c' -> exists c, h !! p = Some c /\ same_context c c'.
Proof. intros Hs Hp. specialize (Hs p). rewrite Hp in Hs. destruct (h !! p) as [c|]; [by exists c|done]. Qed.

Lemma same_heap_some h h' p : same_heap h h' -> is_Some (h !! p) <-> is_Some (h' !! p).
Proof. intros Hs. specialize (Hs p). by destruct (h !! p), (h' !! p). Qed.

Lemma same_heap_after h h' : same_heap h h' -> heap_after h h'.
Proof.
  intros Hs. split.
  - intros p c Hc. specialize (Hs p). rewrite Hc in Hs. destruct (h' !! p) as [c'|]; [|done].
    exists c'. split; [done|]. destruct Hs. split; [done|done|congruence|done|congruence].
  - intros p. by destruct (same_heap_some _ _ p Hs).
Qed.

Lemma same_heap_insert h p c c' : h !! p = Some c -> same_context c c' -> same_heap h (<[p := c']> h).
Proof.
  intros Hc Hs q. destruct (decide (q = p)) as [->|].
  - by rewrite lookup_insert_eq, Hc.
  - rewrite lookup_insert_ne by done. by destruct (h !! q).
Qed.

Lemma same_requests_heap h h' : same_requests h h' -> same_heap h h'.
Proof.
  intros [H1 H2] p. destruct (h !! p) as [c|] eqn:Hc.
  - destruct (H1 p c Hc) as (c' & -> & sid & ->). by split.
  - destruct (h' !! p) eqn:Hc'; [|done]. destruct (H2 p) as [? ?]; [eauto|congruence].
Qed.

Lemma same_heap_owner h h' ls t : same_heap h h' -> timer_owner h' ls t = timer_owner h ls t.
Proof.
  intros Hs. destruct t as [p| |]; [|done|done]. cbn. specialize (Hs p).
  destruct (h !! p), (h' !! p); try done. cbn. f_equal. apply Hs.
Qed.

Section queues.
Context {S : Type} `{SessionLaws S} `{HeapOrder} `{!HashOrder EndpointKey} `{!HashOrder Z} {thread : RunsOn} {checks : Checks}.
Implicit Type w : World.t S.

Lemma wp_deref_request E p c (Q : RequestContext.t -> World.t S -> Prop) w :
  heap w !! p = Some c -> Q c w -> wp E (deref_request p) Q w.
Proof. unfold wp, deref_request. by intros ->. Qed.

Lemma wp_connection E c conn (Q : Connection.t S -> World.t S -> Prop) w :
  connections w !! c = Some conn -> Q conn w -> wp E (connection c) Q w.
Proof. unfold wp, connection. by intros ->. Qed.

Lemma links_lookup w c : links w !! c = link_of <$> connections w !! c.
Proof. unfold links. apply lookup_fmap. Qed.

Lemma links_some w c l : links w !! c = Some l -> exists conn, connections w !! c = Some conn /\ l = link_of conn.
Proof. rewrite links_lookup. destruct (connections w !! c) as [conn|]; [|done]. intros [= <-]. eauto. Qed.

Lemma connection_link w c conn : connections w !! c = Some conn -> links w !! c = Some (link_of conn).
Proof. rewrite links_lookup. by intros ->. Qed.

(** *** Changing contexts *)

Lemma winv_heap g w h' : winv g w -> same_heap (heap w) h' -> winv g (set_heap h' w).
Proof.
  intros [Hrq Hqu Hco Hpt Htm Hdl Hss Hcf] Hs.
  assert (Hsome : forall p, is_Some (heap w !! p) -> is_Some (h' !! p)) by (intros p; by destruct (same_heap_some _ _ p Hs)).
  assert (Hback : forall p, is_Some (h' !! p) -> is_Some (heap w !! p)) by (intros p; by destruct (same_heap_some _ _ p Hs)).
  split; cbn; try done.
  - destruct Hrq as [Hids Hall Hnext Hreg Hctx Hnd Hdone Hdisp]. split; try done.
    + intros p c' Hp. destruct (same_heap_inv _ _ _ _ Hs Hp) as (c & Hc & []). destruct (Hids p c Hc). by rewrite sc_id0.
    + auto.
    + intros p c' Hp Hf. destruct (same_heap_inv _ _ _ _ Hs Hp) as (c & Hc & []). apply (Hreg p c Hc). congruence.
    + intros i q Hi. destruct (Hctx i q Hi). auto.
    + intros p. rewrite Hdone. split.
      * intros (c & Hc & Hf). specialize (Hs p). rewrite Hc in Hs. destruct (h' !! p) as [c'|]; [|done].
        exists c'. split; [done|]. destruct Hs. congruence.
      * intros (c' & Hc' & Hf). destruct (same_heap_inv _ _ _ _ Hs Hc') as (c & Hc & []). exists c. split; [done|congruence].
  - by eapply queues_heap.
  - destruct Htm as [? ? ? Hown Huniq Hfresh ? Hfired].
    assert (Hso : forall ls t, timer_owner h' ls t = timer_owner (heap w) ls t) by (intros; by apply same_heap_owner).
    split; try done.
    + intros k d t Hk. rewrite Hso. eauto.
    + intros k d t t'. rewrite Hso. eauto.
    + intros t k. rewrite Hso. eauto.
    + intros t Ht. rewrite Hso. auto.
  - intros Hready p c' Hp Hf Hto. destruct (same_heap_inv _ _ _ _ Hs Hp) as (c & Hc & []).
    unfold timer_due. rewrite sc_timeout0 in *. apply (Hdl Hready p c Hc); [congruence|done].
  - by eapply sessions_heap.
Qed.

Lemma update_request_spec g p f w :
  winv g w -> is_Some (heap w !! p) -> (forall c, same_context c (f c)) ->
  wp tolerates (update_request p f)
    (fun _ w' => winv g w' /\ calm w w' /\ requestConnections w' = requestConnections w /\ connections w' = connections w) w.
Proof.
  intros Hw [c Hc] Hf. unfold update_request. wp_step. eapply wp_deref_request; [done|]. apply wp_modify.
  assert (Hs : same_heap (heap w) (<[p := f c]> (heap w))) by (by eapply same_heap_insert).
  split; [by apply winv_heap|]. split; [|done]. split; [split|done]; [split|..]; try done. by apply same_heap_after.
Qed.

Lemma mark_same c : same_context c (snd (RequestContext.markCanceled c)).
Proof. unfold RequestContext.markCanceled. by destruct (RequestContext.canceled c) eqn:Hc; split; cbn. Qed.

(** *** Requests in hand *)

Lemma queues_perm h q q' rc sends : q ≡ₚ q' -> queues_ok h q rc sends -> queues_ok h q' rc sends.
Proof.
  intros Hp [Hq Hn Hs Hsend]. split.
  - intros pr. rewrite <- Hp. auto.
  - by rewrite <- Hp.
  - done.
  - intros p s Hps. destruct (Hsend p s Hps) as [? Hst]. split; [done|]. destruct s; [..|done]; rewrite <- Hp; done.
Qed.

Lemma queues_drop h pr q rc sends : queues_ok h (pr :: q) rc sends -> queues_ok h q rc sends.
Proof.
  intros [Hq Hn Hs Hsend]. cbn in Hn. apply NoDup_cons in Hn as [_ Hn]. split; [|done|done|].
  - intros x Hx. apply Hq. by apply elem_of_cons; right.
  - intros p s Hps. destruct (Hsend p s Hps) as [? Hst]. split; [done|]. destruct s; [..|done];
      (destruct Hst as (? & ? & Hst); split_and!; [done|done|]; intros Hin; apply Hst; by apply elem_of_cons; right).
Qed.

Lemma winv_requests k N L L' P E X T B w :
  winv (mk_hand k N L P E X T B) w -> queues_ok (heap w) (L' ++ queued w) (requestConnections w) (sending w) ->
  winv (mk_hand k N L' P E X T B) w.
Proof. intros [] Hq. by split. Qed.

Lemma drop_request k N pr L P E X T B w : winv (mk_hand k N (pr :: L) P E X T B) w -> winv (mk_hand k N L P E X T B) w.
Proof. intros Hw. eapply winv_requests; [done|]. eapply queues_drop. apply (w_queues _ _ Hw). Qed.

Lemma hand_pending k N pr L P E X T B w :
  winv (mk_hand k N (pr :: L) P E X T B) w -> pending_ok (heap w) (requestConnections w) pr.
Proof. intros Hw. apply (qu_queued _ _ _ _ (w_queues _ _ Hw)). by apply elem_of_cons; left. Qed.

Lemma complete_each_spec k N prs L P E X T B response w :
  winv (mk_hand k N (prs ++ L) P E X T B) w ->
  wp tolerates (complete_each prs response)
    (fun _ w' => winv (mk_hand k N L P E X T B) w' /\ calm w w' /\ requestConnections w' = requestConnections w /\
       connections w' = connections w) w.
Proof.
  revert w. induction prs as [|pr prs IH]; intros w Hw; cbn [complete_each].
  { apply wp_ret. by split_and!. }
  destruct (hand_pending _ _ _ _ _ _ _ _ _ _ Hw) as (_ & p & Hp & Hs & _). rewrite Hp. wp_step.
  eapply wp_mono; [by apply completeRequest_spec|]. intros _ w1 (Hw1 & Hc1 & Hr1 & Hn1 & _).
  eapply wp_mono; [apply IH; by eapply drop_request|]. intros _ w2 (? & ? & ? & ?). split_and!; [done|by etrans|congruence..].
Qed.

(** Changing the queues only. *)
Lemma winv_queues k N L L' P E X T B w sq pe :
  winv (mk_hand k N L P E X T B) w ->
  L' ++ sq ++ all_values pe ≡ₚ L ++ queued w ->
  winv (mk_hand k N L' P E X T B) (set_submitQueue sq (set_pendingByEndpoint pe w)).
Proof.
  intros [Hrq Hqu Hco Hpt Htm Hdl Hss Hcf] Hp. split; try done. eapply queues_perm; [|exact Hqu]. by rewrite <- Hp.
Qed.

Lemma winv_pending k N L L' P E X T B w pe :
  winv (mk_hand k N L P E X T B) w -> L' ++ all_values pe ≡ₚ L ++ all_values (pendingByEndpoint w) ->
  winv (mk_hand k N L' P E X T B) (set_pendingByEndpoint pe w).
Proof.
  intros Hw Hp. replace (set_pendingByEndpoint pe w) with (set_submitQueue (submitQueue w) (set_pendingByEndpoint pe w)) by (by destruct w).
  eapply winv_queues; [exact Hw|]. unfold queued.
  rewrite (Permutation_app_swap_app L'), (Permutation_app_swap_app L). by rewrite Hp.
Qed.

Lemma winv_submit k N L L' P E X T B w sq :
  winv (mk_hand k N L P E X T B) w -> L' ++ sq ≡ₚ L ++ submitQueue w ->
  winv (mk_hand k N L' P E X T B) (set_submitQueue sq w).
Proof.
  intros Hw Hp. replace (set_submitQueue sq w) with (set_submitQueue sq (set_pendingByEndpoint (pendingByEndpoint w) w)) by (by destruct w).
  eapply winv_queues; [exact Hw|]. unfold queued. by rewrite !app_assoc, Hp.
Qed.

Lemma push_pending_spec k N pr L P E X T B key w :
  winv (mk_hand k N (pr :: L) P E X T B) w ->
  wp tolerates (push_pending key pr) (fun _ w' => winv (mk_hand k N L P E X T B) w' /\ steady w w') w.
Proof.
  intros Hw. unfold push_pending. apply wp_modify. split; [|by split]. eapply winv_pending; [exact Hw|].
  rewrite all_values_push. symmetry. apply Permutation_middle.
Qed.

Lemma take_pending_spec k N L P E X T B key w :
  winv (mk_hand k N L P E X T B) w ->
  wp tolerates (take_pending key) (fun prs w' => winv (mk_hand k N (prs ++ L) P E X T B) w' /\ steady w w') w.
Proof.
  intros Hw. unfold wp, take_pending. destruct (pendingByEndpoint w !! key) as [prs|] eqn:Hk; [|by split].
  split; [|by split]. eapply winv_pending; [exact Hw|]. rewrite (all_values_lookup _ key prs Hk).
  rewrite <- app_assoc. apply Permutation_app_swap_app.
Qed.

Lemma take_first_some {A} (Pb : A -> bool) l a rest :
  take_first Pb l = Some (a, rest) -> l ≡ₚ a :: rest /\ Pb a = true.
Proof.
  revert rest. induction l as [|x l IH]; intros rest; cbn [take_first]; [done|].
  destruct (Pb x) eqn:Hx; [by intros [= -> ->]|]. destruct (take_first Pb l) as [[b l']|] eqn:Hl; [|done].
  intros [= -> <-]. destruct (IH l' eq_refl) as [Hp ?]. split; [by rewrite Hp, Permutation_swap|done].
Qed.

Lemma removeFromSubmitQueue_spec k N L P E X T B id w :
  winv (mk_hand k N L P E X T B) w ->
  wp tolerates (removeFromSubmitQueue id)
    (fun q w' => match q with
       | Some c => exists pr, PendingRequest.context pr = c /\ is_request w id pr = true /\ winv (mk_hand k N (pr :: L) P E X T B) w'
       | None => winv (mk_hand k N L P E X T B) w'
       end /\ frame w w' /\ heap w' = heap w /\ requestConnections w' = requestConnections w /\ connections w' = connections w /\
       pools w' = pools w /\ pendingByEndpoint w' = pendingByEndpoint w) w.
Proof.
  intros Hw. unfold wp, removeFromSubmitQueue. destruct (take_first _ (submitQueue w)) as [[pr rest]|] eqn:Ht; [|by split_and!].
  destruct (take_first_some _ _ _ _ Ht) as [Hp Hm]. split; [|by split_and!]. exists pr. split_and!; [done|done|].
  eapply winv_submit; [exact Hw|]. rewrite Hp. apply Permutation_middle.
Qed.
End queues.
