(* ===== verification/ManagerLinks.v ===== *)
(** * Connections and the reactor

    What the methods of a connection do to the manager's invariant when they
    touch the reactor: keep-alive timers, descriptors, disconnection. *)

From S2P Require Import Prelude Outcome Types Transport RequestContext Std Session SessionFacts.
From S2P Require Import ProtocolSafety Endpoint Reactor ReactorFacts CallbackDispatcher IHttpSession.
From S2P Require Import ManagerState Connection ConnectionManager ManagerSteps ManagerInv ManagerTimers.
From S2P Require Import ManagerRequests ManagerQueues.
Import World ConnectionMethods ConnectionManager.

Section links.
Context {S : Type} `{SessionLaws S} `{HeapOrder} `{!HashOrder EndpointKey} `{!HashOrder Z} {thread : RunsOn} {checks : Checks}.
Implicit Type w : World.t S.
Implicit Type r : Reactor.t Task TimerTask FdTask.

(** Changing one connection and the reactor. *)
Definition with_connection (c : Z) (conn : Connection.t S) r w : World.t S :=
  set_reactor r (set_connections (<[c := conn]> (connections w)) w).

Lemma links_with c conn r w : links (with_connection c conn r w) = <[c := link_of conn]> (links w).
Proof. unfold links. cbn. apply fmap_insert. Qed.

Record same_session (conn conn' : Connection.t S) : Prop := {
  ss_session : Connection.session conn' = Connection.session conn;
  ss_interval : Connection.pingIntervalSec conn' = Connection.pingIntervalSec conn;
  ss_timeout : Connection.pingTimeoutSec conn' = Connection.pingTimeoutSec conn;
}.

Lemma connections_keep ls ls' pool est tids next :
  (forall c, is_Some (ls' !! c) <-> is_Some (ls !! c)) -> connections_ok ls pool est tids next -> connections_ok ls' pool est tids next.
Proof.
  intros Hd [Hn Hl Hnew Hnext Hpos]. split; [done| | |by intros c ?%Hd; eauto|done].
  - intros c Hc. apply Hd. auto.
  - intros c Hc. destruct (Hnew c Hc) as [Hnone ?]. split; [|done]. apply eq_None_not_Some. rewrite Hd. rewrite Hnone. by intros []%is_Some_None.
Qed.

Lemma insert_some {A} (m : gmap Z A) c a a' i : m !! c = Some a -> is_Some (<[c := a']> m !! i) <-> is_Some (m !! i).
Proof. intros Hc. destruct (decide (i = c)) as [->|]; [rewrite lookup_insert_eq, Hc|rewrite lookup_insert_ne by done]; split; eauto. Qed.

Lemma winv_connection g X T w c conn conn' r :
  winv g w -> connections w !! c = Some conn -> same_session conn conn' ->
  Reactor.tasks r = Reactor.tasks (reactor w) -> Reactor.ready r = Reactor.ready (reactor w) ->
  (forall k d p, pending (reactor w) !! k = Some (d, timeoutTimer p) -> pending r !! k = Some (d, timeoutTimer p)) ->
  (forall p, timeoutTimer p ∈ fired g -> timeoutTimer p ∈ T) ->
  let w' := with_connection c conn' r w in
  pointers_ok X T (links w') (fd_handlers w') (requestConnections w) (unregistered g w) ->
  timers_inv T (heap w) (links w') r ->
  winv (mk_hand (bytes_left g) (creating g) (requests g) (conns g) (taken g) X T (due_by g)) w'.
Proof.
  intros [Hrq Hqu Hco Hpt Htm Hdl [Hk Hss] Hcf] Hc [Hs1 Hs2 Hs3] Htasks Hready Hpend HT w' Hpt' Htm'.
  set (g' := mk_hand _ _ _ _ _ _ _ _).
  assert (Hun : unregistered g' w' = unregistered g w) by (unfold unregistered; cbn; by rewrite Htasks).
  split; rewrite ?Hun; cbn [g' bytes_left creating requests conns taken lost fired due_by]; try done.
  - eapply connections_keep; [|exact Hco]. intros i. unfold w'. rewrite links_with.
    eapply insert_some. by apply connection_link.
  - intros Hrd p e Hp Hf Hto. change (Reactor.ready r = true) in Hrd. rewrite Hready in Hrd.
    destruct (Hdl Hrd p e Hp Hf Hto) as [?|[?|[?|(k & d & ? & ?)]]]; [by left|by right; left| |].
    + do 2 right. left. auto.
    + do 3 right. exists k, d. auto.
  - split; [done|]. intros i e Hi. change (<[c := conn']> (connections w) !! i = Some e) in Hi.
    apply lookup_insert_Some in Hi as [[<- <-]|[Hne Hi]]; [|eauto]. rewrite Hs1, Hs2, Hs3. eauto.
Qed.

(** ** What changes connections and the reactor only *)

Definition touches w w' : Prop :=
  frame w w' /\ exists r m, w' = set_reactor r (set_connections m w).

#[export] Instance touches_preorder : PreOrder touches.
Proof.
  split.
  - intros w. split; [done|]. exists (reactor w), (connections w). by destruct w.
  - intros w1 w2 w3 [H12 (r1 & m1 & ->)] [H23 (r2 & m2 & ->)]. split; [by etrans|]. by exists r2, m2.
Qed.

Lemma with_touches c conn conn' r w :
  connections w !! c = Some conn -> (Connection.connected conn' = true -> Connection.connected conn = true) ->
  Reactor.tasks r = Reactor.tasks (reactor w) -> Reactor.ready r = Reactor.ready (reactor w) ->
  Reactor.running r = Reactor.running (reactor w) -> touches w (with_connection c conn' r w).
Proof.
  intros Hc Hcon Ht Hrd Hrun. split; [|by exists r, (<[c := conn']> (connections w))]. split.
  - unfold static. cbn. by rewrite Ht, Hrd, Hrun.
  - done.
  - rewrite links_with. pose proof (connection_link _ _ _ Hc) as Hl. split.
    + intros i. by eapply insert_some.
    + intros i l'. intros [[<- <-]|[Hne Hi]]%lookup_insert_Some; eauto.
Qed.

(** ** Descriptors *)

Definition drop_fd (fd : Z) r : Reactor.t Task TimerTask FdTask :=
  if fd =? INVALID_SOCKET then r else snd (Reactor.unregisterFd fd r).

Lemma drop_fd_spec fd r :
  let r' := drop_fd fd r in
  timer_state r' = timer_state r /\ Reactor.tasks r' = Reactor.tasks r /\
  Reactor.fdContexts r' = (if fd =? INVALID_SOCKET then Reactor.fdContexts r else delete fd (Reactor.fdContexts r)).
Proof.
  unfold drop_fd, Reactor.unregisterFd. destruct (fd =? INVALID_SOCKET); [done|].
  destruct (Reactor.fdContexts r !! fd) eqn:Hfd; [done|]. split_and!; [done|done|]. symmetry. by apply delete_id.
Qed.

Lemma enableWrite_spec fd enable modified r :
  let r' := snd (Reactor.enableWrite fd enable modified r) in
  timer_state r' = timer_state r /\ Reactor.tasks r' = Reactor.tasks r /\
  handlers_of <$> Reactor.fdContexts r' = handlers_of <$> Reactor.fdContexts r.
Proof.
  unfold Reactor.enableWrite. destruct (Reactor.fdContexts r !! fd) as [x|] eqn:Hfd; [|done]. split_and!; [done..|].
  cbn. rewrite fmap_insert. apply insert_id. by rewrite lookup_fmap, Hfd.
Qed.

Lemma timer_state_same r r' : timer_state r' = timer_state r ->
  Reactor.running r' = Reactor.running r /\ Reactor.ready r' = Reactor.ready r /\
  Reactor.nextTimerId r' = Reactor.nextTimerId r.
Proof. unfold timer_state. intros Hr. by injection Hr as -> -> _ _ ->. Qed.

(** Changing the reactor but for its timers and its tables. *)
Lemma winv_reactor g w r :
  winv g w -> timer_state r = timer_state (reactor w) -> Reactor.tasks r = Reactor.tasks (reactor w) ->
  handlers_of <$> Reactor.fdContexts r = fd_handlers w -> winv g (set_reactor r w).
Proof.
  intros [Hrq Hqu Hco Hpt Htm Hdl Hss Hcf] Ht Htasks Hfd. destruct (timer_state_same _ _ Ht) as (_ & Hrd & _).
  split; cbn; try done; unfold unregistered; cbn; rewrite ?Htasks; try done.
  - unfold fd_handlers. cbn. rewrite Hfd. done.
  - by eapply timers_state.
  - intros Hready. rewrite Hrd in Hready. unfold timer_due. rewrite (pending_same _ _ Ht). by apply Hdl.
Qed.

Lemma set_reactor_touches w r :
  timer_state r = timer_state (reactor w) -> Reactor.tasks r = Reactor.tasks (reactor w) -> touches w (set_reactor r w).
Proof.
  intros Ht Htasks. destruct (timer_state_same _ _ Ht) as (Hrun & Hrd & _). split; [|exists r, (connections w); by destruct w]. split; [|done|done].
  unfold static. cbn. by rewrite Hrun, Hrd, Htasks.
Qed.

Lemma updateWriteInterest_spec g c w :
  winv g w -> is_Some (links w !! c) ->
  wp tolerates (updateWriteInterest c) (fun _ w' => winv g w' /\ touches w w' /\ links w' = links w) w.
Proof.
  intros Hw [l Hl]. destruct (links_some _ _ _ Hl) as (conn & Hc & _). unfold updateWriteInterest.
  wp_step. eapply wp_connection; [done|]. apply wp_if; intros _; [by wp_step|].
  unfold wp, bind, on_reactor, ret. pose proof (enableWrite_spec (Connection.sessionFd conn) (sess_wantsWrite (Connection.session conn)) true (reactor w)) as He.
  destruct (Reactor.enableWrite _ _ _ _) as [b r]. cbn [snd] in He. destruct He as (? & ? & ?).
  split_and!; [by apply winv_reactor|by apply set_reactor_touches|done].
Qed.

(** ** Forgetting timers *)

Definition forget_timers (conn : Connection.t S) : Connection.t S :=
  Connection.set_pendingPing false (Connection.set_pingTimeoutTimerId 0 (Connection.set_pingTimerId 0 conn)).

Lemma update_connection_run c f w conn :
  connections w !! c = Some conn -> update_connection c f w = Ok (tt, with_connection c (f conn) (reactor w) w).
Proof. intros Hc. unfold update_connection, bind, connection, modify. rewrite Hc. by destruct w. Qed.

Lemma with_with c conn conn' r r' w : with_connection c conn' r' (with_connection c conn r w) = with_connection c conn' r' w.
Proof. unfold with_connection. destruct w. cbn. by rewrite insert_insert_eq. Qed.

Lemma with_lookup c conn r w : connections (with_connection c conn r w) !! c = Some conn.
Proof. apply lookup_insert_eq. Qed.

Lemma with_id c conn w : connections w !! c = Some conn -> with_connection c conn (reactor w) w = w.
Proof. intros Hc. unfold with_connection. destruct w. cbn in *. by rewrite insert_id. Qed.

Lemma cancel_timer_run c k (f : Connection.t S -> Connection.t S) w conn :
  connections w !! c = Some conn -> (k = 0 -> f conn = conn) ->
  (if k =? 0 then ret tt
   else on_reactor (fun now => Reactor.cancelTimer now k) ;;; update_connection c f) w =
  Ok (tt, with_connection c (f conn) (cancel_if (clock w) k (reactor w)) w).
Proof.
  intros Hc Hf. unfold cancel_if. destruct (k =? 0) eqn:Hk; bool_to_prop.
  - rewrite Hf by done. by rewrite with_id.
  - unfold bind, on_reactor. destruct (Reactor.cancelTimer (clock w) k (reactor w)) as [b r]. cbn [snd].
    rewrite (update_connection_run _ _ _ conn); [|done]. by destruct w.
Qed.

Lemma cancelPingTimers_run c w conn :
  connections w !! c = Some conn ->
  cancelPingTimers c w = Ok (tt, with_connection c (forget_timers conn)
    (cancel_if (clock w) (Connection.pingTimeoutTimerId conn) (cancel_if (clock w) (Connection.pingTimerId conn) (reactor w))) w).
Proof.
  intros Hc. unfold cancelPingTimers. unfold bind at 1, connection at 1. rewrite Hc. unfold bind at 1.
  rewrite (cancel_timer_run _ _ _ _ conn Hc) by (intros Hz; destruct conn; cbn in *; by subst).
  unfold bind at 1, connection at 1. rewrite with_lookup. unfold bind at 1.
  rewrite (cancel_timer_run _ _ _ _ _ (with_lookup _ _ _ _)) by (intros Hz; destruct conn; cbn in *; by subst).
  rewrite (update_connection_run _ _ _ _ (with_lookup _ _ _ _)). rewrite !with_with. done.
Qed.

Lemma unregister_run c w conn :
  connections w !! c = Some conn ->
  unregister c w = Ok (tt, with_connection c (Connection.set_sessionFd INVALID_SOCKET conn) (drop_fd (Connection.sessionFd conn) (reactor w)) w).
Proof.
  intros Hc. unfold unregister, bind at 1, connection at 1. rewrite Hc. unfold drop_fd.
  destruct (Connection.sessionFd conn =? INVALID_SOCKET) eqn:Hfd; bool_to_prop.
  - assert (Connection.set_sessionFd INVALID_SOCKET conn = conn) as -> by (destruct conn; cbn in *; by subst). by rewrite with_id.
  - unfold bind, on_reactor. destruct (Reactor.unregisterFd _ (reactor w)) as [b r]. cbn [snd].
    rewrite (update_connection_run _ _ _ conn); [|done]. by destruct w.
Qed.

Definition closed_connection (conn : Connection.t S) : Connection.t S :=
  Connection.set_sessionFd INVALID_SOCKET (forget_timers (Connection.set_connected false conn)).
Definition closed_link : Link := mk_link false INVALID_SOCKET false 0 0.

(** The reactor after [disconnect]. *)
Definition without_connection (now : Z) (conn : Connection.t S) r : Reactor.t Task TimerTask FdTask :=
  drop_fd (Connection.sessionFd conn)
    (cancel_if now (Connection.pingTimeoutTimerId conn) (cancel_if now (Connection.pingTimerId conn) r)).

Definition disconnect (c : Z) : st (World.t S) unit :=
  update_connection c (Connection.set_connected false) ;;; cancelPingTimers c ;;; unregister c.

Lemma disconnect_run c w conn :
  connections w !! c = Some conn ->
  disconnect c w = Ok (tt, with_connection c (closed_connection conn) (without_connection (clock w) conn (reactor w)) w).
Proof.
  intros Hc. unfold disconnect, bind at 1. rewrite (update_connection_run _ _ _ _ Hc). unfold bind.
  rewrite (cancelPingTimers_run _ _ _ (with_lookup _ _ _ _)). rewrite (unregister_run _ _ _ (with_lookup _ _ _ _)).
  by rewrite !with_with.
Qed.

(** *** Timers of a connection *)

Lemma ping_owner_ne h ls c l t :
  t <> pingTimer c -> t <> pingTimeoutTimer c -> timer_owner h (<[c := l]> ls) t = timer_owner h ls t.
Proof. destruct t as [p|i|i]; [done| |]; intros; cbn; rewrite lookup_insert_ne; congruence. Qed.

Lemma owners_same h ls c l l' t :
  ls !! c = Some l -> l_ping l' = l_ping l -> l_timeout l' = l_timeout l -> timer_owner h (<[c := l']> ls) t = timer_owner h ls t.
Proof.
  intros Hl Hp Ht. destruct t as [p|i|i]; [done| |]; cbn; (destruct (decide (i = c)) as [->|];
    [rewrite lookup_insert_eq, Hl; cbn; congruence|by rewrite lookup_insert_ne]).
Qed.

Lemma live_connected ls c l l' t : ls !! c = Some l -> (l_connected l = true -> l_connected l' = true) ->
  timer_live ls t -> timer_live (<[c := l']> ls) t.
Proof.
  intros Hc Hl. destruct t as [p|i|i]; [done| |]; intros (l0 & Hi & Hcon); cbn;
    (destruct (decide (i = c)) as [->|Hne]; [rewrite lookup_insert_eq|rewrite lookup_insert_ne by done]);
    simplify_eq; eauto.
Qed.

(** Forgetting both timers. *)
Lemma timers_forget T h ls c l now r :
  timers_inv T h ls r -> ls !! c = Some l ->
  let r' := cancel_if now (l_timeout l) (cancel_if now (l_ping l) r) in
  let ls' := <[c := mk_link (l_connected l) (l_fd l) false 0 0]> ls in
  timers_inv T h ls' r' /\ rest r' = rest r /\ pending r' = delete (l_timeout l) (delete (l_ping l) (pending r)).
Proof.
  intros Ht Hl r' ls'.
  destruct (cancel_if_spec now (l_ping l) r (tm_ok _ _ _ _ Ht) (tm_ready _ _ _ _ Ht)) as (Hok1 & Hp1 & Hi1 & Hr1).
  set (r1 := cancel_if now (l_ping l) r) in *.
  set (ls1 := <[c := mk_link (l_connected l) (l_fd l) (l_pinging l) 0 (l_timeout l)]> ls).
  assert (Hl1 : ls1 !! c = Some (mk_link (l_connected l) (l_fd l) (l_pinging l) 0 (l_timeout l))) by apply lookup_insert_eq.
  assert (Hl' : ls' !! c = Some (mk_link (l_connected l) (l_fd l) false 0 0)) by apply lookup_insert_eq.
  assert (Ht1 : timers_inv T h ls1 r1).
  { eapply (timers_reset _ _ _ _ _ _ _ (pingTimer c)); [exact Ht|by cbn; rewrite Hl|by cbn; rewrite Hl1| | |done..].
    - intros t Hne. destruct (decide (t = pingTimeoutTimer c)) as [->|]; [cbn; by rewrite Hl1, Hl|by apply ping_owner_ne].
    - intros t _. by apply live_connected with l. }
  destruct (cancel_if_spec now (l_timeout l) r1 Hok1 Hi1) as (Hok2 & Hp2 & Hi2 & Hr2). fold r' in Hok2, Hp2, Hi2, Hr2.
  split_and!; [|congruence|congruence].
  eapply (timers_reset _ _ _ _ _ _ _ (pingTimeoutTimer c)); [exact Ht1|by cbn; rewrite Hl1|by cbn; rewrite Hl'| | |done..].
  - intros t Hne. destruct (decide (t = pingTimer c)) as [->|]; [cbn; by rewrite Hl', Hl1|].
    unfold ls', ls1. by rewrite !ping_owner_ne.
  - intros t _. replace ls' with (<[c := mk_link (l_connected l) (l_fd l) false 0 0]> ls1) by (apply insert_insert_eq).
    by eapply live_connected.
Qed.

(** The timers of requests are not concerned. *)
Lemma forget_other T h ls c l r k d p :
  timers_inv T h ls r -> ls !! c = Some l -> pending r !! k = Some (d, timeoutTimer p) ->
  delete (l_timeout l) (delete (l_ping l) (pending r)) !! k = Some (d, timeoutTimer p).
Proof.
  intros Ht Hl Hk. rewrite !lookup_delete_ne; [done|intros <-..].
  - assert (pingTimer c = timeoutTimer p); [|done]. eapply (tm_unique _ _ _ _ Ht); [exact Hk|cbn; by rewrite Hl].
  - assert (pingTimeoutTimer c = timeoutTimer p); [|done]. eapply (tm_unique _ _ _ _ Ht); [exact Hk|cbn; by rewrite Hl].
Qed.
End links.
