(* ===== verification/ManagerConnections.v ===== *)
(** * Connections coming, pinging and going

    The specifications of what a connection does with the reactor and with
    its session. *)

From S2P Require Import Prelude Outcome Types Transport RequestContext Std Session SessionFacts.
From S2P Require Import ProtocolSafety Endpoint Reactor ReactorFacts CallbackDispatcher IHttpSession Flow.
From S2P Require Import ManagerState Connection ConnectionManager ManagerSteps ManagerInv ManagerTimers.
From S2P Require Import ManagerRequests ManagerQueues ManagerLinks.
Import World ConnectionMethods ConnectionManager.

(** The same hand, but for the connections lost or the bytes left. *)
Definition with_lost (X : gset Z) (g : Hand) : Hand :=
  mk_hand (bytes_left g) (creating g) (requests g) (conns g) (taken g) X (fired g) (due_by g).
Definition with_bytes (k : Z) (g : Hand) : Hand :=
  mk_hand k (creating g) (requests g) (conns g) (taken g) (lost g) (fired g) (due_by g).

Lemma hand_eta g :
  mk_hand (bytes_left g) (creating g) (requests g) (conns g) (taken g) (lost g) (fired g) (due_by g) = g.
Proof. by destruct g. Qed.

Section connections.
Context {S : Type} `{SessionLaws S} `{HeapOrder} `{!HashOrder EndpointKey} `{!HashOrder Z} {thread : RunsOn} {checks : Checks}.
Implicit Type w : World.t S.

(** ** Disconnecting *)

Lemma disconnect_spec g c conn w :
  winv g w -> connections w !! c = Some conn ->
  wp tolerates (disconnect c)
    (fun _ w' => winv (with_lost ({[c]} ∪ lost g) g) w' /\ touches w w' /\ links w' = <[c := closed_link]> (links w) /\
       exists conn', connections w' !! c = Some conn' /\ Connection.session conn' = Connection.session conn) w.
Proof.
  intros Hw Hc. eapply wp_of_run; [by apply disconnect_run|].
  set (r' := without_connection _ _ _). set (w' := with_connection _ _ _ _).
  pose proof (connection_link _ _ _ Hc) as Hl. pose proof (w_timers _ _ Hw) as Htm.
  destruct (timers_forget _ _ _ _ _ (clock w) _ Htm Hl) as (Ht1 & Hr1 & Hp1).
  destruct (rest_same _ _ Hr1) as (Hrun & Hrd & Htasks & Hnext & Hfds).
  set (r1 := cancel_if _ _ (cancel_if _ _ _)) in Ht1, Hr1, Hp1, Hrun, Hrd, Htasks, Hnext, Hfds. set (ls1 := <[c := _]> (links w)) in Ht1.
  destruct (drop_fd_spec (Connection.sessionFd conn) r1) as (Hts & Htasks' & Hfd).
  change (drop_fd (Connection.sessionFd conn) r1) with r' in Hts, Htasks', Hfd.
  destruct (timer_state_same _ _ Hts) as (Hrun' & Hrd' & _).
  assert (Hl' : links w' = <[c := closed_link]> (links w)) by apply links_with.
  assert (Hls : <[c := closed_link]> ls1 = <[c := closed_link]> (links w)) by apply insert_insert_eq.
  split; [|split_and!].
  - apply winv_connection with conn; [done|done|done|by rewrite Htasks'|by rewrite Hrd'| |done| |].
    + intros k d p Hk. rewrite (pending_same _ _ Hts), Hp1. by eapply forget_other.
    + fold w'. rewrite Hl'. destruct (w_pointers _ _ Hw) as [Hpfd Hsub Hping Hest Hfp Hft]. split.
      * intros fd rh wh. unfold fd_handlers, w'. cbn. rewrite Hfd, Hfds. intros Hin.
        assert (Hold : fd_handlers w !! fd = Some (rh, wh) /\ (fd <> Connection.sessionFd conn \/ Connection.sessionFd conn = INVALID_SOCKET)).
        { unfold fd_handlers. destruct (Connection.sessionFd conn =? INVALID_SOCKET) eqn:Hi; bool_to_prop; [tauto|].
          rewrite fmap_delete in Hin. apply lookup_delete_Some in Hin as [? ?]. split; [done|]. left. congruence. }
        destruct Hold as [Hold Hne]. destruct (Hpfd _ _ _ Hold) as (i & l & -> & -> & Hi & ? & Hfdl & ? & ?).
        exists i, l. split_and!; try done. rewrite lookup_insert_ne; [done|]. intros <-. simplify_eq. cbn in *. tauto.
      * intros i c' Hi. destruct (Hsub i c' Hi) as (l & Hc' & Hor & Hne). destruct (decide (c' = c)) as [->|Hcc].
        -- exists closed_link. rewrite lookup_insert_eq. split_and!; [done| |done]. right. apply elem_of_union. left. by apply elem_of_singleton.
        -- exists l. rewrite lookup_insert_ne by done. split_and!; [done| |done].
           destruct Hor; [by left|]. right. apply elem_of_union. by right.
      * intros i l [[<- <-]|[Hne Hi]]%lookup_insert_Some; [done|eauto].
      * intros i l Hin [[<- <-]|[Hne Hi]]%lookup_insert_Some; [done|eauto].
      * intros i Hin. destruct (Hfp i Hin) as (? & ? & Hpi). split_and!; [done..|].
        intros l [[<- <-]|[Hne Hi]]%lookup_insert_Some; [done|eauto].
      * done.
    + fold w'. rewrite Hl', <- Hls. apply timers_state with r1; [|done]. eapply timers_keep; [exact Ht1| |].
      * intros t. destruct t as [p|i|i]; [done| |]; cbn; destruct (decide (i = c)) as [->|];
          [unfold ls1; by rewrite !lookup_insert_eq|by rewrite lookup_insert_ne|unfold ls1; by rewrite !lookup_insert_eq|by rewrite lookup_insert_ne].
      * intros t k d Hk. assert (Hno : forall t', timer_owner (heap w) ls1 t' = Some 0 -> t <> t').
        { intros t' Ho ->. by eapply owner_zero; [exact Ht1|exact Ho|exact Hk]. }
        assert (Hc1 : ls1 !! c = Some (mk_link (Connection.connected conn) (Connection.sessionFd conn) false 0 0)) by apply lookup_insert_eq.
        destruct t as [p|i|i]; [done| |]; intros (l & Hi & ?); exists l; rewrite lookup_insert_ne;
          [done| |done|]; intros <-; [apply (Hno (pingTimer c))|apply (Hno (pingTimeoutTimer c))]; try done; cbn; by rewrite Hc1.
  - apply with_touches with conn; [done|done|by rewrite Htasks'|by rewrite Hrd'|by rewrite Hrun'].
  - done.
  - eexists. split; [apply with_lookup|done].
Qed.

Lemma wp_disconnect {A} c (m : st (World.t S) A) Q w :
  wp tolerates (disconnect c ;;; m) Q w ->
  wp tolerates (update_connection c (Connection.set_connected false) ;;; cancelPingTimers c ;;; unregister c ;;; m) Q w.
Proof.
  unfold wp, disconnect, bind. destruct (update_connection c _ w) as [[? w1]|]; [|done].
  destruct (cancelPingTimers c w1) as [[? w2]|]; [|done]. by destruct (unregister c w2) as [[? w3]|].
Qed.

(** ** Keep-alive timers *)

Lemma pointers_relink X T ls fds rc est c l l' :
  pointers_ok X T ls fds rc est -> ls !! c = Some l ->
  l_connected l' = l_connected l -> l_fd l' = l_fd l ->
  (l_pinging l' = true -> l_ping l' = 0) -> (l_pinging l' = false -> l_timeout l' = 0) ->
  (c ∈ est -> l_pinging l' = false /\ l_ping l' = 0) -> (pingTimer c ∈ T -> l_pinging l' = false) ->
  pointers_ok X T (<[c := l']> ls) fds rc est.
Proof.
  intros [Hpfd Hsub Hping Hest Hfp Hft] Hl Hcon Hfd Hp1 Hp2 Hp3 Hp4.
  assert (Hlook : forall i e, ls !! i = Some e -> exists e', <[c := l']> ls !! i = Some e' /\ l_connected e' = l_connected e /\ l_fd e' = l_fd e).
  { intros i e Hi. destruct (decide (i = c)) as [->|]; [rewrite lookup_insert_eq|rewrite lookup_insert_ne by done]; simplify_eq; eauto. }
  split.
  - intros fd rh wh Hin. destruct (Hpfd _ _ _ Hin) as (i & e & -> & -> & Hi & ? & ? & ?).
    destruct (Hlook i e Hi) as (e' & ? & ? & ?). exists i, e'. split_and!; try done; congruence || tauto.
  - intros i c' Hi. destruct (Hsub i c' Hi) as (e & Hc' & Hor & Hne). destruct (Hlook c' e Hc') as (e' & ? & He & _).
    exists e'. rewrite He. done.
  - intros i e [[<- <-]|[Hne Hi]]%lookup_insert_Some; eauto.
  - intros i e Hin [[<- <-]|[Hne Hi]]%lookup_insert_Some; eauto.
  - intros i Hin. destruct (Hfp i Hin) as (? & ? & Hpi). split_and!; [done..|].
    intros e [[<- <-]|[Hne Hi]]%lookup_insert_Some; eauto.
  - done.
Qed.

(** The same connections are connected. *)
Definition plugged w w' : Prop := l_connected <$> links w' = l_connected <$> links w.

Lemma with_plugged c conn conn' r w :
  connections w !! c = Some conn -> Connection.connected conn' = Connection.connected conn ->
  plugged w (with_connection c conn' r w).
Proof.
  intros Hc Hcon. unfold plugged. rewrite links_with, fmap_insert. apply insert_id.
  rewrite lookup_fmap, (connection_link _ _ _ Hc). cbn. by rewrite Hcon.
Qed.

Lemma plugged_link w w' c : plugged w w' -> l_connected <$> links w' !! c = l_connected <$> links w !! c.
Proof. intros Hp. by rewrite <- !lookup_fmap, Hp. Qed.

(** Scheduling a timer for a connection, which [f] remembers. *)
Lemma schedule_link g w c conn t ms (f : Z -> Connection.t S -> Connection.t S) :
  winv g w -> connections w !! c = Some conn -> Connection.connected conn = true ->
  t ∉ fired g -> timer_owner (heap w) (links w) t = Some 0 -> (t = pingTimer c \/ t = pingTimeoutTimer c) ->
  (forall k, same_session conn (f k conn) /\ Connection.connected (f k conn) = Connection.connected conn /\
     timer_owner (heap w) (<[c := link_of (f k conn)]> (links w)) t = Some k /\
     forall t', t' <> t -> timer_owner (heap w) (<[c := link_of (f k conn)]> (links w)) t' = timer_owner (heap w) (links w) t') ->
  (forall k, pointers_ok (lost g) (fired g) (<[c := link_of (f k conn)]> (links w)) (fd_handlers w) (requestConnections w) (unregistered g w)) ->
  wp tolerates (timerId <- schedule ms t ;; update_connection c (f timerId))
    (fun _ w' => winv g w' /\ touches w w' /\ plugged w w') w.
Proof.
  intros Hw Hc Hcon Hfired Howner Ht Hf Hpt. pose proof (connection_link _ _ _ Hc) as Hl.
  pose proof (w_timers _ _ Hw) as Htm. unfold schedule. do 3 wp_step.
  destruct (Reactor.nextTimerId (reactor w) + 1 <? 2 ^ 64) eqn:Hn; [|apply wp_fail; by right; left]. bool_to_prop.
  pose proof (schedule_rest (clock w) ms t (reactor w)) as Hrest.
  pose proof (fun ls' => timers_arm _ _ _ (heap w) ls' _ (clock w) ms t Htm Hn Hfired (owner_zero _ _ _ _ _ Htm Howner)) as Harm.
  unfold wp at 1, on_reactor. destruct (Reactor.scheduleOnce (clock w) ms (Some t) (reactor w)) as [k r'].
  destruct Hrest as (Hk & Hrun & Hrd & Htasks & Hfds). destruct (Hf k) as (Hss & Hconn & Hown & Hoth).
  eapply wp_of_run; [by apply update_connection_run|].
  replace (with_connection c (f k conn) _ (set_reactor r' w)) with (with_connection c (f k conn) r' w) by (by destruct w).
  destruct (Harm (<[c := link_of (f k conn)]> (links w))) as [Ht1 Hp1]; [done| |done| |].
  { destruct Ht as [-> | ->]; exists (link_of (f k conn)); (split; [apply lookup_insert_eq|cbn; congruence]). }
  { intros t' Hlive. eapply live_connected; [exact Hl|cbn; congruence|done]. }
  split; [|split; [apply with_touches with conn; congruence|by apply with_plugged with conn]].
  rewrite <- (hand_eta g) at 1. apply winv_connection with conn; try done.
  - intros i d p Hi. rewrite Hp1. destruct (Reactor.running (reactor w)) eqn:Hr; [|done].
    rewrite lookup_insert_ne; [done|]. pose proof (pending_positive _ _ _ _ (tm_ok _ _ _ _ Htm) Hi). lia.
  - rewrite links_with. unfold fd_handlers. cbn. rewrite Hfds. apply Hpt.
  - by rewrite links_with.
Qed.

Lemma schedulePingTimer_spec g c conn w :
  winv g w -> connections w !! c = Some conn ->
  Connection.pendingPing conn = false -> Connection.pingTimerId conn = 0 ->
  c ∉ unregistered g w -> pingTimer c ∉ fired g ->
  wp tolerates (schedulePingTimer c) (fun _ w' => winv g w' /\ touches w w' /\ plugged w w') w.
Proof.
  intros Hw Hc Hping Hid Hest Hfired. unfold schedulePingTimer. wp_step. eapply wp_connection; [done|]. cbv beta.
  pose proof (connection_link _ _ _ Hc) as Hl.
  destruct (Connection.pingIntervalSec conn <=? 0) eqn:Hi; cbn [orb]; [by wp_step|].
  destruct (Connection.connected conn) eqn:Hcon; cbn [negb]; [|by wp_step]. bool_to_prop.
  destruct (w_sessions _ _ Hw) as [_ Hss]. destruct (Hss _ _ Hc) as (_ & _ & Hms & _).
  wp_step. eapply wp_lift; [apply checked_i32_ok; unfold INT32_MIN, INT32_MAX; lia|]. cbv beta.
  eapply (schedule_link g w c conn (pingTimer c) _ Connection.set_pingTimerId); try done.
  - cbn. rewrite Hl. cbn. by rewrite Hid.
  - by left.
  - intros k. split; [by split|]. split; [done|]. split; [cbn; by rewrite lookup_insert_eq|].
    intros t' Hne. destruct (decide (t' = pingTimeoutTimer c)) as [->|]; [cbn; by rewrite lookup_insert_eq, Hl|by apply ping_owner_ne].
  - intros k. eapply pointers_relink; [apply Hw|done|done|done|cbn; congruence| |done|done].
    cbn. intros _. by apply (pt_ping _ _ _ _ _ _ (w_pointers _ _ Hw) _ _ Hl).
Qed.
(** Acknowledged: the timeout is cancelled and the next ping scheduled. *)
Definition acknowledge (c : Z) : st (World.t S) unit :=
  conn <- connection c ;;
  if Connection.pendingPing conn then
    update_connection c (Connection.set_pendingPing false) ;;;
    (if Connection.pingTimeoutTimerId conn =? 0 then ret tt
     else
       on_reactor (fun now => Reactor.cancelTimer now (Connection.pingTimeoutTimerId conn)) ;;;
       update_connection c (Connection.set_pingTimeoutTimerId 0)) ;;;
    schedulePingTimer c
  else ret tt.

(** A connection that no longer waits for an acknowledgement. *)
Definition acknowledged (conn : Connection.t S) : Connection.t S :=
  Connection.set_pingTimeoutTimerId 0 (Connection.set_pendingPing false conn).

Lemma acknowledged_inv g c conn r w :
  winv g w -> connections w !! c = Some conn -> r = cancel_if (clock w) (Connection.pingTimeoutTimerId conn) (reactor w) ->
  Connection.pendingPing conn = true ->
  let w' := with_connection c (acknowledged conn) r w in winv g w' /\ touches w w'.
Proof.
  intros Hw Hc -> Hping w'. pose proof (connection_link _ _ _ Hc) as Hl. pose proof (w_timers _ _ Hw) as Htm.
  destruct (cancel_if_spec (clock w) (Connection.pingTimeoutTimerId conn) (reactor w) (tm_ok _ _ _ _ Htm) (tm_ready _ _ _ _ Htm))
    as (Hok & Hp & Hidle & Hrest). destruct (rest_same _ _ Hrest) as (Hrun & Hrd & Htasks & Hnext & Hfds).
  set (r' := cancel_if _ _ _) in *. split; [|by apply with_touches with conn].
  rewrite <- (hand_eta g) at 1. apply winv_connection with conn; try done.
  - intros k d p Hk. rewrite Hp, lookup_delete_ne; [done|]. intros <-.
    assert (pingTimeoutTimer c = timeoutTimer p); [|done]. eapply (tm_unique _ _ _ _ Htm); [exact Hk|cbn; by rewrite Hl].
  - rewrite links_with. unfold fd_handlers. cbn. rewrite Hfds. eapply pointers_relink; [apply Hw|done|done|done| |done| |done].
    + done.
    + intros Hin. pose proof (pt_established _ _ _ _ _ _ (w_pointers _ _ Hw) _ _ Hin Hl) as []. cbn in *. congruence.
  - rewrite links_with. eapply (timers_reset _ _ _ _ _ _ _ (pingTimeoutTimer c)); [exact Htm|by cbn; rewrite Hl| | | |done..].
    + cbn. by rewrite lookup_insert_eq.
    + intros t Hne. destruct (decide (t = pingTimer c)) as [->|]; [cbn; by rewrite lookup_insert_eq, Hl|by apply ping_owner_ne].
    + intros t _. by apply live_connected with (link_of conn).
Qed.

Lemma acknowledge_spec g c w :
  winv g w -> is_Some (links w !! c) -> c ∉ unregistered g w -> pingTimer c ∉ fired g ->
  wp tolerates (acknowledge c) (fun _ w' => winv g w' /\ touches w w') w.
Proof.
  intros Hw [l Hl] Hest Hfired. destruct (links_some _ _ _ Hl) as (conn & Hc & ->). unfold acknowledge.
  wp_step. eapply wp_connection; [done|]. cbv beta. destruct (Connection.pendingPing conn) eqn:Hping; [|by wp_step].
  destruct (acknowledged_inv g c conn _ w Hw Hc eq_refl Hping) as [Hw1 Ht1].
  set (w1 := with_connection _ _ _ _) in *.
  wp_step. eapply wp_of_run; [by apply update_connection_run|]. cbv beta. wp_step.
  eapply wp_of_run; [apply cancel_timer_run; [apply with_lookup|]|].
  { intros Hz. destruct conn. cbn in *. by subst. }
  cbv beta. rewrite with_with. change (wp tolerates (schedulePingTimer c) (fun _ w' => winv g w' /\ touches w w') w1).
  eapply wp_mono; [eapply (schedulePingTimer_spec g c (acknowledged conn)); try done|].
  - apply with_lookup.
  - apply (pt_ping _ _ _ _ _ _ (w_pointers _ _ Hw) _ _ Hl). exact Hping.
  - destruct Ht1 as [Hfr _]. pose proof (fr_static _ _ Hfr) as Hst. unfold static in Hst.
    assert (Htasks : Reactor.tasks (reactor w1) = Reactor.tasks (reactor w)) by congruence.
    unfold unregistered in *. by rewrite Htasks.
  - intros _ w' (? & ? & _). split; [done|by etrans].
Qed.

(** ** Sessions *)

Lemma wp_through_session {A} c (m : st S A) Q (R : A -> World.t S -> Prop) w conn :
  connections w !! c = Some conn -> wp sess_fault m Q (Connection.session conn) ->
  (forall a s, Q a s -> R a (with_connection c (Connection.set_session s conn) (reactor w) w)) ->
  wp tolerates (on_session c m) R w.
Proof.
  intros Hc Hm HR. unfold wp, on_session, bind, connection in *. rewrite Hc. destruct (m (Connection.session conn)) as [[a s]|f]; [|by left].
  specialize (HR a s Hm). unfold with_connection in HR. by destruct w.
Qed.

Lemma wp_through_session_contexts {A} c (m : st (S * Contexts) A) Q (R : A -> World.t S -> Prop) w conn :
  connections w !! c = Some conn -> wp sess_fault m Q (Connection.session conn, heap w) ->
  (forall a s h, Q a (s, h) -> R a (set_heap h (with_connection c (Connection.set_session s conn) (reactor w) w))) ->
  wp tolerates (on_session_contexts c m) R w.
Proof.
  intros Hc Hm HR. unfold wp, on_session_contexts, bind, connection in *. rewrite Hc.
  destruct (m (Connection.session conn, heap w)) as [[a [s h]]|f]; [|by left].
  specialize (HR a s h Hm). unfold with_connection in HR. by destruct w.
Qed.

(** The contexts [q] are those of requests. *)
Definition known w (q : list RequestContextPtr) : Prop := forall x, x ∈ q -> exists p, x = Some p /\ is_Some (heap w !! p).

Lemma known_subset w q q' : q' ⊆ q -> known w q -> known w q'.
Proof. intros Hs Hk x Hx. apply Hk, Hs, Hx. Qed.

Lemma known_frame w w' q : frame w w' -> known w q -> known w' q.
Proof. intros Hf Hk x Hx. destruct (Hk x Hx) as (p & -> & Hp). exists p. split; [done|]. by rewrite (heap_after_is_Some _ _ _ (fr_heap _ _ Hf)). Qed.

Lemma winv_session g w c conn s k :
  winv g w -> connections w !! c = Some conn -> 0 <= k <= bytes_left g -> sess_ok k s -> known w (sess_held s) ->
  let w' := with_connection c (Connection.set_session s conn) (reactor w) w in
  winv (with_bytes k g) w' /\ touches w w' /\ links w' = links w.
Proof.
  intros Hw Hc Hk Hs Hheld w'. assert (Hl : links w' = links w).
  { unfold w'. rewrite links_with. apply insert_id. exact (connection_link _ _ _ Hc). }
  split; [|split; [by apply with_touches with conn|done]].
  destruct Hw as [Hrq Hqu Hco Hpt Htm Hdl [_ Hss] (? & ? & ?)]. split; rewrite ?Hl; try done.
  - split; [apply Hk|]. intros i e Hi. change (<[c := Connection.set_session s conn]> (connections w) !! i = Some e) in Hi.
    apply lookup_insert_Some in Hi as [[<- <-]|[Hne Hi]].
    + destruct (Hss c conn Hc) as (_ & _ & ?). done.
    + destruct (Hss i e Hi) as (Hok & Hh & ?). split; [|done]. eapply law_mono; [exact Hok|done].
  - split_and!; [done..|cbn; lia].
Qed.

Lemma session_of g w c conn : winv g w -> connections w !! c = Some conn ->
  0 <= bytes_left g /\ sess_ok (bytes_left g) (Connection.session conn) /\ known w (sess_held (Connection.session conn)).
Proof. intros Hw Hc. destruct (w_sessions _ _ Hw) as [? Hss]. destruct (Hss c conn Hc) as (? & ? & _). done. Qed.

Lemma with_bytes_id g : with_bytes (bytes_left g) g = g.
Proof. by destruct g. Qed.

(** A call of the session that only hands contexts back. *)
Lemma session_spec {A} g c conn w (m : st S A) (R : A -> World.t S -> Prop) (done : A -> list RequestContextPtr) Q :
  winv g w -> connections w !! c = Some conn ->
  wp sess_fault m (fun a s => Q a /\ sess_ok (bytes_left g) s /\ done a ++ sess_held s ⊆ sess_held (Connection.session conn))
    (Connection.session conn) ->
  (forall a w', Q a -> winv g w' -> touches w w' -> links w' = links w -> known w' (done a) -> R a w') ->
  wp tolerates (on_session c m) R w.
Proof.
  intros Hw Hc Hm HR. destruct (session_of _ _ _ _ Hw Hc) as (Hk & _ & Hheld).
  eapply wp_through_session; [done|exact Hm|]. intros a s (HQ & Hs & Hsub).
  assert (Hall : known w (done a ++ sess_held s)) by (by eapply known_subset).
  destruct (winv_session g w c conn s (bytes_left g) Hw Hc) as (Hw' & Ht & Hl); [lia|done| |].
  { intros x Hx. apply Hall. apply elem_of_app. by right. }
  rewrite with_bytes_id in Hw'. apply HR; try done. intros x Hx. apply Hall. apply elem_of_app. by left.
Qed.

(** ** A connection that is lost *)

Lemma winv_submitted g g' w rc :
  winv g w -> rc ⊆ requestConnections w ->
  pointers_ok (lost g') (fired g) (links w) (fd_handlers w) rc (unregistered g w) ->
  g' = with_lost (lost g') g -> winv g' (set_requestConnections rc w).
Proof.
  intros [Hrq [Hq Hn Hs Hsend] Hco Hpt Htm Hdl Hss Hcf] Hrc Hpt' ->.
  assert (Hnone : forall p, requestConnections w !! p = None -> rc !! p = None).
  { intros p Hp. apply eq_None_not_Some. intros [c Hc]. eapply lookup_weaken in Hc; [|exact Hrc]. congruence. }
  split; try done. split; [|done| |].
  - intros pr Hpr. destruct (Hq pr Hpr) as (? & p & ? & ? & ?). split; [done|]. exists p. auto.
  - intros i c Hi. eapply Hs. by eapply lookup_weaken.
  - intros p s Hps. destruct (Hsend p s Hps) as [? Hst]. split; [done|]. destruct s; [..|done];
      destruct Hst as (? & ? & ?); split_and!; auto.
Qed.

Lemma onConnectionLost_spec g X c w :
  winv (with_lost ({[c]} ∪ X) g) w -> is_Some (links w !! c) ->
  wp tolerates (onConnectionLost c) (fun _ w' => winv (with_lost X g) w' /\ frame w w' /\ links w' = links w) w.
Proof.
  intros Hw [l Hl]. destruct (links_some _ _ _ Hl) as (conn & Hc & _). unfold onConnectionLost. wp_step. eapply wp_connection; [done|].
  cbv beta. apply wp_modify. set (rc := filter _ _). split; [|done].
  assert (Hrc : rc ⊆ requestConnections w) by apply map_filter_subseteq.
  apply winv_submitted with (with_lost ({[c]} ∪ X) g); [done|done| |done].
  destruct (w_pointers _ _ Hw) as [Hpfd Hsub Hping Hest Hfp Hft]. split; try done.
  intros i c' Hi. apply map_lookup_filter_Some in Hi as [Hi Hne]. cbn in Hne.
  destruct (Hsub i c' Hi) as (l' & ? & Hor & ?). exists l'. split_and!; [done| |done].
  destruct Hor as [|[Hin%elem_of_singleton|]%elem_of_union]; [by left|done|by right].
Qed.
End connections.
