(* ===== verification/ManagerSubmit.v ===== *)
(** * Submitting requests

    Choosing a connection, submitting to it, and what follows when a request
    is done: the mutual recursion of [onRequestDone] and [trySubmitPending]
    is at most two calls deep. *)

From S2P Require Import Prelude Outcome Types Transport RequestContext Std Session SessionFacts.
From S2P Require Import ProtocolSafety Endpoint Reactor ReactorFacts CallbackDispatcher IHttpSession.
From S2P Require Import ManagerState Connection ConnectionManager ManagerSteps ManagerInv ManagerTimers.
From S2P Require Import ManagerRequests ManagerQueues ManagerLinks ManagerConnections.
Import World ConnectionMethods ConnectionManager.

Section submit.
Context {S : Type} `{SessionLaws S} `{HeapOrder} `{!HashOrder EndpointKey} `{!HashOrder Z} {thread : RunsOn} {checks : Checks}.
Implicit Type w : World.t S.

Lemma touches_calm w w' : touches w w' -> links w' = links w -> calm w w'.
Proof. intros [Hf (r & m & ->)] Hl. by split; [split|]. Qed.

Lemma calm_frame w w' : calm w w' -> frame w w'.
Proof. intros [[]]. done. Qed.

Lemma static_tasks w w' : frame w w' -> Reactor.tasks (reactor w') = Reactor.tasks (reactor w).
Proof. intros [Hs _ _]. unfold static in Hs. congruence. Qed.

Lemma unregistered_frame g w w' : frame w w' -> unregistered g w' = unregistered g w.
Proof. intros Hf. unfold unregistered. by rewrite (static_tasks _ _ Hf). Qed.

Lemma frame_some w w' p : frame w w' -> is_Some (heap w !! p) -> is_Some (heap w' !! p).
Proof. intros Hf. by rewrite (heap_after_is_Some _ _ _ (fr_heap _ _ Hf)). Qed.

(** A connection of a pool that may be used. *)
Record usable w (c : Z) : Prop := {
  us_link : exists l, links w !! c = Some l /\ l_connected l = true;
  us_pooled : c ∈ pooled w;
}.

Lemma usable_steady w w' c : steady w w' -> usable w c -> usable w' c.
Proof. intros [Hf Hl Hp _] [(l & ? & ?) Hin]. unfold pooled in *. split; [rewrite Hl; eauto|unfold pooled; by rewrite Hp]. Qed.

Lemma usable_connection w c : usable w c -> exists conn, connections w !! c = Some conn /\ Connection.connected conn = true.
Proof. intros [(l & Hl & Hcon) _]. destruct (links_some _ _ _ Hl) as (conn & Hc & ->). eauto. Qed.

Lemma pool_registered g w c : winv g w -> c ∈ conns g ++ pooled w -> c ∉ unregistered g w.
Proof.
  intros Hw Hin Hun. pose proof (co_nodup _ _ _ _ _ (w_connections _ _ Hw)) as Hn.
  apply NoDup_app in Hn as (_ & Hdis & _). apply (Hdis c); [done|]. apply elem_of_app. by left.
Qed.

Lemma usable_registered g w c : winv g w -> usable w c -> c ∉ unregistered g w.
Proof. intros Hw [_ Hin]. eapply pool_registered; [done|]. apply elem_of_app. by right. Qed.

(** ** Choosing *)

Lemma pick_spec conns best load w :
  (forall c, c ∈ conns -> is_Some (links w !! c)) ->
  wp tolerates (pick conns best load)
    (fun b w' => w' = w /\ forall c, b = Some c -> best = Some c \/ (c ∈ conns /\ exists l, links w !! c = Some l /\ l_connected l = true)) w.
Proof.
  revert best load. induction conns as [|c conns IH]; intros best load Hlive; cbn [pick].
  { wp_step. split; [done|]. intros c ->. by left. }
  destruct (Hlive c) as [l Hl]; [by apply elem_of_cons; left|]. destruct (links_some _ _ _ Hl) as (conn & Hc & ->).
  wp_step. eapply wp_connection; [done|]. cbv beta.
  assert (Hlive' : forall i, i ∈ conns -> is_Some (links w !! i)) by (intros i Hi; apply Hlive; by apply elem_of_cons; right).
  apply wp_if; intros Hb; (eapply wp_mono; [by apply IH|]); intros b w' [-> Hbest]; (split; [done|]); intros i ->;
    destruct (Hbest i eq_refl) as [Hi|(Hi & Hli)]; [|right; split; [by apply elem_of_cons; right|done]|by left|right; split; [by apply elem_of_cons; right|done]].
  injection Hi as <-. right. split; [by apply elem_of_cons; left|]. exists (link_of conn). split; [done|].
  apply andb_true_iff in Hb as [Hb _]. unfold Connection.canAcceptNewRequests in Hb. apply andb_true_iff in Hb as [Hb _].
  by apply andb_true_iff in Hb as [Hb _].
Qed.

Lemma pickConnectionOnReactor_spec g ep w :
  winv g w ->
  wp tolerates (pickConnectionOnReactor ep) (fun b w' => w' = w /\ forall c, b = Some c -> usable w c) w.
Proof.
  intros Hw. unfold pickConnectionOnReactor. do 2 wp_step. destruct (pools w !! Endpoint.key ep) as [conns|] eqn:Hp; [|by wp_step].
  assert (Hin : forall c, c ∈ conns -> c ∈ pooled w).
  { intros c Hc. unfold pooled. rewrite (all_values_lookup _ _ _ Hp). apply elem_of_app. by left. }
  eapply wp_mono; [apply pick_spec|].
  - intros c Hc. apply (co_live _ _ _ _ _ (w_connections _ _ Hw)). left. apply elem_of_app. right. auto.
  - intros b w' [-> Hb]. split; [done|]. intros c ->. destruct (Hb c eq_refl) as [|[Hc Hl]]; [done|]. split; [done|auto].
Qed.

(** ** Submitting *)

(** What [submitOnReactor] needs of the handler: done with a request that no
    connection has been recorded for, it only completes it. *)
Definition completes_fresh (requestDone : RequestContextPtr -> Response.t -> st (World.t S) unit) : Prop :=
  forall g p r w, winv g w -> is_Some (heap w !! p) -> requestConnections w !! p = None ->
    wp tolerates (requestDone (Some p) r)
      (fun _ w' => winv g w' /\ calm w w' /\ requestConnections w' = requestConnections w) w.

Section handler.
Context (requestDone : RequestContextPtr -> Response.t -> st (World.t S) unit).
Context (Hdone : completes_fresh requestDone).

Lemma submit_events_spec g c p evs w :
  completes_request (Some p) evs -> winv g w -> is_Some (heap w !! p) -> requestConnections w !! p = None ->
  wp tolerates (processSessionEvents requestDone onConnectionLost c evs)
    (fun _ w' => winv g w' /\ calm w w' /\ requestConnections w' = requestConnections w) w.
Proof.
  intros Hevs. revert w. induction Hevs as [|ev evs [r ->] _ IH]; intros w Hw Hp Hrc; cbn [processSessionEvents]; [by wp_step|].
  wp_step. cbn [processSessionEvent]. eapply wp_mono; [by apply Hdone|]. intros _ w1 (Hw1 & Hc1 & Hr1).
  eapply wp_mono; [apply IH; [done| |congruence]|].
  - eapply frame_some; [by apply calm_frame|done].
  - intros _ w2 (? & ? & ?). split_and!; [done|by etrans|congruence].
Qed.

Lemma submitOnReactor_spec g c request p w :
  winv g w -> usable w c -> request_fits request -> is_Some (heap w !! p) -> requestConnections w !! p = None ->
  wp tolerates (submitOnReactor requestDone onConnectionLost c request (Some p))
    (fun ok w' => ok = true /\ winv g w' /\ calm w w' /\ requestConnections w' = requestConnections w) w.
Proof.
  intros Hw Hus Hfits Hp Hrc. destruct (usable_connection _ _ Hus) as (conn & Hc & Hcon). destruct (session_of _ _ _ _ Hw Hc) as (Hk & Hok & Hheld).
  unfold submitOnReactor. wp_step. apply assert_spec. wp_step. eapply wp_connection; [done|]. cbv beta. rewrite Hcon. cbn [negb]. wp_step.
  eapply wp_through_session_contexts; [done|by eapply law_submit|]. cbn. intros evs s h (Hs & Hevs & Hsub & Hreq).
  destruct (winv_session g w c conn s (bytes_left g) Hw Hc) as (Hw1 & Ht1 & Hl1); [lia|done| |].
  { intros x Hx. apply Hsub in Hx. apply elem_of_cons in Hx as [->|Hx]; [by exists p|by apply Hheld]. }
  rewrite with_bytes_id in Hw1. set (w1 := with_connection _ _ _ _) in *. apply same_requests_heap in Hreq.
  assert (Hw2 : winv g (set_heap h w1)) by (by apply winv_heap).
  assert (Hc2 : calm w (set_heap h w1)).
  { etrans; [by apply touches_calm|]. split; [split|done]; [split|..]; try done. by apply same_heap_after. }
  assert (Hp2 : is_Some (h !! p)) by (by destruct (same_heap_some _ _ p Hreq); auto).
  wp_step. eapply wp_mono; [by apply (submit_events_spec g c p evs (set_heap h w1))|]. intros _ w3 (Hw3 & Hc3 & Hr3).
  assert (Hc13 : calm w w3) by (by etrans). wp_step.
  assert (Hl3 : is_Some (links w3 !! c)).
  { rewrite (sd_links _ _ (cl_steady _ _ Hc13)). destruct (us_link _ _ Hus) as (l & -> & _). eauto. }
  eapply wp_mono; [by apply updateWriteInterest_spec|]. intros _ w4 (Hw4 & Ht4 & Hl4). wp_step.
  split_and!; [done|done|etrans; [exact Hc13|by apply touches_calm]|].
  destruct Ht4 as [_ (r4 & m4 & ->)]. cbn. by rewrite Hr3.
Qed.

(** Recording where a request went. *)
Lemma submitted_inv k N pr L P E X T B c p w :
  winv (mk_hand k N (pr :: L) P E X T B) w -> PendingRequest.context pr = Some p -> usable w c ->
  winv (mk_hand k N L P E X T B) (set_requestConnections (<[p := c]> (requestConnections w)) w).
Proof.
  intros Hw Hpr Hus. pose proof (usable_registered _ _ _ Hw Hus) as Hreg.
  destruct Hw as [Hrq [Hq Hn Hs Hsend] Hco [Hpfd Hsub Hping Hest Hfp Hft] Htm Hdl Hss Hcf].
  cbn [map] in Hn. apply NoDup_cons in Hn as [Hnotin Hn]. cbn in Hq, Hnotin, Hn, Hsend.
  assert (Hne : forall q, Some q ∈ map PendingRequest.context (L ++ queued w) -> q <> p) by (intros q Hin ->; rewrite <- Hpr in Hin; done).
  split; try done.
  - split; [|done| |].
    + intros x Hx. destruct (Hq x) as (? & q & Hxq & ? & ?); [by apply elem_of_cons; right|]. split; [done|]. exists q. split_and!; [done..|].
      cbn. rewrite lookup_insert_ne; [done|]. intros <-. apply (Hne p); [|done]. rewrite <- Hxq. by apply list_elem_of_fmap_2.
    + cbn. intros i d [[<- <-]|[Hi Hid]]%lookup_insert_Some; [|eauto].
      destruct (Hq pr) as (_ & q & Hq' & ? & _); [by apply elem_of_cons; left|]. congruence.
    + intros i s Hi. destruct (Hsend i s Hi) as [? Hst]. split; [done|]. destruct s; [..|done];
        (destruct Hst as (? & ? & Hno); rewrite Hpr in Hno; apply not_elem_of_cons in Hno as [? Hno]; split_and!; [done| |done];
         cbn; rewrite lookup_insert_ne; congruence).
  - split; try done. cbn. intros i d [[<- <-]|[Hi Hid]]%lookup_insert_Some; [|eauto].
    destruct (us_link _ _ Hus) as (l & ? & ?). exists l. split_and!; auto.
Qed.

Lemma submit_to_spec k N pr L P E X T B c p w :
  winv (mk_hand k N (pr :: L) P E X T B) w -> PendingRequest.context pr = Some p -> usable w c ->
  wp tolerates (submit_to requestDone c pr p) (fun _ w' => winv (mk_hand k N L P E X T B) w' /\ calm w w') w.
Proof.
  intros Hw Hpr Hus. destruct (hand_pending _ _ _ _ _ _ _ _ _ _ Hw) as (Hfits & q & Hq & Hp & Hrc).
  assert (q = p) as -> by congruence. unfold submit_to. wp_step.
  eapply wp_mono; [by eapply submitOnReactor_spec|]. intros ok w1 (-> & Hw1 & Hc1 & Hr1).
  destruct (frame_some _ _ p (calm_frame _ _ Hc1) Hp) as [ctx Hctx]. wp_step. eapply wp_deref_request; [done|]. cbv beta.
  apply wp_modify. destruct (rq_ids _ _ _ _ _ _ (w_requests _ _ Hw1) _ _ Hctx) as [-> _].
  assert (Hus1 : usable w1 c) by (eapply usable_steady; [apply Hc1|done]).
  split; [by eapply submitted_inv|]. etrans; [exact Hc1|]. by split; [split|].
Qed.

Lemma not_canceled_spec g pr w :
  winv g w -> pending_ok (heap w) (requestConnections w) pr ->
  wp tolerates (not_canceled pr) (fun q w' => w' = w /\ forall p, q = Some p -> PendingRequest.context pr = Some p) w.
Proof.
  intros Hw (_ & p & Hp & [ctx Hctx] & _). unfold not_canceled. rewrite Hp. wp_step. eapply wp_deref_request; [done|]. cbv beta. wp_step.
  split; [done|]. destruct (RequestContext.isCanceled ctx); [done|]. by intros q [= ->].
Qed.

(** A request is completed or submitted, and leaves the hand. *)
Lemma submit_or_cancel_spec k N pr L P E X T B c q response w :
  winv (mk_hand k N (pr :: L) P E X T B) w -> (forall p, q = Some p -> PendingRequest.context pr = Some p) -> usable w c ->
  wp tolerates (match q with
                | None => completeRequest (PendingRequest.context pr) response
                | Some p => submit_to requestDone c pr p
                end) (fun _ w' => winv (mk_hand k N L P E X T B) w' /\ calm w w') w.
Proof.
  intros Hw Hq Hus. destruct q as [p|].
  - apply submit_to_spec; auto.
  - destruct (hand_pending _ _ _ _ _ _ _ _ _ _ Hw) as (_ & p & -> & Hp & _). eapply wp_mono; [by apply completeRequest_spec|].
    intros _ w' (? & ? & _). split; [by eapply drop_request|done].
Qed.

Lemma submit_loop_spec k N L P E X T B n key c queue w :
  winv (mk_hand k N L P E X T B) w -> pendingByEndpoint w !! key = Some queue -> (length queue < n)%nat -> usable w c ->
  wp tolerates (submit_loop requestDone n key c)
    (fun _ w' => winv (mk_hand k N L P E X T B) w' /\ steady w w' /\ is_Some (pendingByEndpoint w' !! key)) w.
Proof.
  revert queue w. induction n as [|n IH]; intros queue w Hw Hq Hn Hus; [lia|]. cbn [submit_loop]. do 2 wp_step. wp_step.
  eapply wp_lift; [by rewrite Hq|]. cbv beta. destruct queue as [|pr queue]; [wp_step; by split_and!; eauto|].
  destruct (usable_connection _ _ Hus) as (conn & Hc & Hcon). wp_step. eapply wp_connection; [done|]. cbv beta.
  apply wp_if; intros _; [wp_step; by split_and!; eauto|]. do 2 wp_step.
  set (w1 := set_pendingByEndpoint _ w).
  assert (Hw1 : winv (mk_hand k N (pr :: L) P E X T B) w1).
  { eapply winv_pending; [exact Hw|]. rewrite all_values_insert, (all_values_lookup _ _ _ Hq). cbn. apply Permutation_middle. }
  assert (Hs1 : steady w w1) by (by split).
  wp_step. eapply wp_mono; [eapply not_canceled_spec; [exact Hw1|by eapply hand_pending]|]. intros q w2 [-> Hq2]. wp_step.
  eapply wp_mono; [eapply submit_or_cancel_spec; [exact Hw1|done|by eapply usable_steady]|]. intros _ w3 [Hw3 Hc3].
  assert (Hs3 : steady w w3) by (etrans; [exact Hs1|apply Hc3]).
  eapply wp_mono; [apply (IH queue); [done| |cbn in Hn; lia|by eapply usable_steady]|].
  - rewrite (cl_pending _ _ Hc3). apply lookup_insert_eq.
  - intros _ w4 (? & ? & ?). split_and!; [done|by etrans|done].
Qed.

Lemma trySubmitPending_spec g ep w :
  winv g w -> wp tolerates (trySubmitPending_with requestDone ep) (fun _ w' => winv g w' /\ steady w w') w.
Proof.
  intros Hw. destruct g as [k N L P E X T B]. unfold trySubmitPending_with. do 2 wp_step.
  destruct (pendingByEndpoint w !! Endpoint.key ep) as [[|pr queue]|] eqn:Hq; [by wp_step| |by wp_step].
  wp_step. eapply wp_mono; [by eapply pickConnectionOnReactor_spec|]. intros b w1 [-> Hb]. destruct b as [c|]; [|by wp_step].
  wp_step. eapply wp_mono; [eapply submit_loop_spec; [exact Hw|exact Hq|lia|by apply Hb]|]. intros _ w2 (Hw2 & Hs2 & [queue2 Hq2]).
  do 2 wp_step. wp_step. eapply wp_lift; [by rewrite Hq2|]. cbv beta. destruct queue2 as [|x queue2]; [|by wp_step].
  apply wp_modify. split; [|etrans; [exact Hs2|by split]]. eapply winv_pending; [exact Hw2|].
  by rewrite (all_values_lookup _ _ _ Hq2).
Qed.
End handler.

(** ** Done with a request *)

Lemma done_fresh_spec n : completes_fresh (onRequestDone_rec (Datatypes.S n)).
Proof.
  intros g p r w Hw [ctx Hctx] Hrc. cbn [onRequestDone_rec]. wp_step. wp_step. eapply wp_deref_request; [done|]. cbv beta.
  destruct (rq_ids _ _ _ _ _ _ (w_requests _ _ Hw) _ _ Hctx) as [-> _]. do 2 wp_step. rewrite Hrc. do 2 wp_step.
  eapply wp_mono; [apply completeRequest_spec; eauto|]. intros _ w' (? & ? & ? & _). wp_step. done.
Qed.

Lemma deleted_inv g i w : winv g w -> winv g (set_requestConnections (delete i (requestConnections w)) w).
Proof.
  intros Hw. apply winv_submitted with g; [done|apply delete_subseteq| |by destruct g].
  destruct (w_pointers _ _ Hw) as [Hpfd Hsub Hping Hest Hfp Hft]. split; try done.
  intros i' c' [_ Hi]%lookup_delete_Some. eauto.
Qed.

Lemma done_spec n g p r w :
  winv g w -> is_Some (heap w !! p) ->
  wp tolerates (onRequestDone_rec (Datatypes.S (Datatypes.S n)) (Some p) r) (fun _ w' => winv g w' /\ steady w w') w.
Proof.
  intros Hw Hp. destruct (requestConnections w !! p) as [c|] eqn:Hrc.
  2: { eapply wp_mono; [by apply done_fresh_spec|]. intros _ w' (? & ? & _). split; [done|]. by apply cl_steady. }
  destruct Hp as [ctx Hctx]. remember (Datatypes.S n) as m eqn:Hm. cbn [onRequestDone_rec]. wp_step. wp_step. eapply wp_deref_request; [done|]. cbv beta.
  destruct (rq_ids _ _ _ _ _ _ (w_requests _ _ Hw) _ _ Hctx) as [-> _]. do 2 wp_step. rewrite Hrc. do 3 wp_step. wp_step.
  set (w1 := set_requestConnections _ w). assert (Hw1 : winv g w1) by (by apply deleted_inv).
  eapply wp_mono; [apply completeRequest_spec; [done|by exists ctx]|]. intros _ w2 (Hw2 & Hc2 & _).
  assert (Hs2 : steady w w2) by (etrans; [|apply (cl_steady _ _ Hc2)]; by split).
  destruct (pt_submitted _ _ _ _ _ _ (w_pointers _ _ Hw) _ _ Hrc) as (l & Hl & _).
  rewrite <- (sd_links _ _ Hs2) in Hl. destruct (links_some _ _ _ Hl) as (conn & Hc & _).
  wp_step. eapply wp_connection; [done|]. cbv beta. subst m.
  eapply wp_mono; [apply trySubmitPending_spec; [apply done_fresh_spec|done]|]. intros _ w3 [? ?]. split; [done|by etrans].
Qed.

Lemma onRequestDone_spec g p r w :
  winv g w -> is_Some (heap w !! p) ->
  wp tolerates (onRequestDone (Some p) r) (fun _ w' => winv g w' /\ steady w w') w.
Proof.
  intros Hw Hp. pose proof (done_spec (size (requestConnections w)) g p r w Hw Hp) as Hd.
  unfold wp in *. unfold onRequestDone. exact Hd.
Qed.

Lemma onRequestDone_fresh : completes_fresh onRequestDone.
Proof.
  intros g p r w Hw Hp Hrc. pose proof (done_fresh_spec (Datatypes.S (size (requestConnections w))) g p r w Hw Hp Hrc) as Hd.
  unfold wp in *. unfold onRequestDone. exact Hd.
Qed.
End submit.
