(* ===== verification/ManagerEvents.v ===== *)
(** * What a session's events do to the manager

    The methods of a connection that the reactor or the manager calls: each
    keeps the invariant, and the connection and its requests stay reachable
    while the events are processed. *)

From S2P Require Import Prelude Outcome Types Flow ProtocolSafety Std RequestContext.
From S2P Require Import Transport Session SessionFacts Reactor ReactorFacts.
From S2P Require Import CallbackDispatcher Endpoint IHttpSession ManagerState Connection.
From S2P Require Import ConnectionManager ManagerSteps ManagerInv ManagerTimers.
From S2P Require Import ManagerRequests ManagerQueues ManagerLinks ManagerConnections.
From S2P Require Import ManagerSubmit.
Import World ConnectionMethods ConnectionManager.

Section events.
Context {S : Type} `{SessionLaws S} `{HeapOrder} `{!HashOrder EndpointKey} `{!HashOrder Z} {thread : RunsOn} {checks : Checks}.
Implicit Type w : World.t S.

Abbreviation process := (processSessionEvents onRequestDone onConnectionLost).

Lemma steady_frame w w' : steady w w' -> frame w w'.
Proof. by intros []. Qed.

Lemma touches_frame w w' : touches w w' -> frame w w'.
Proof. by intros []. Qed.

Lemma frame_link w w' c : frame w w' -> is_Some (links w !! c) -> is_Some (links w' !! c).
Proof. intros [_ _ [Hl _]]. apply Hl. Qed.

Lemma known_cons w q qs : known w (q :: qs) -> (exists p, q = Some p /\ is_Some (heap w !! p)) /\ known w qs.
Proof. intros Hk. split; [apply Hk; by apply elem_of_cons; left|]. intros x Hx. apply Hk. by apply elem_of_cons; right. Qed.

(** ** Processing events *)

Lemma completions_spec g c evs w :
  winv g w -> completes_only evs -> known w (done_contexts evs) ->
  wp tolerates (process c evs) (fun _ w' => winv g w' /\ steady w w') w.
Proof.
  intros Hw Hevs. revert w Hw. induction Hevs as [|ev evs (q & r & ->) _ IH]; intros w Hw Hk; cbn [processSessionEvents]; [by wp_step|].
  apply known_cons in Hk as [(p & -> & Hp) Hk]. wp_step. cbn [processSessionEvent].
  eapply wp_mono; [by apply onRequestDone_spec|]. intros _ w1 [Hw1 Hs1].
  eapply wp_mono; [apply IH; [done|by eapply known_frame; [apply steady_frame|]]|]. intros _ w2 [? ?]. split; [done|by etrans].
Qed.

Lemma event_spec g c ev w :
  winv g w -> fired g = [] -> is_Some (links w !! c) -> c ∉ unregistered g w -> known w (done_contexts [ev]) ->
  wp tolerates (processSessionEvent onRequestDone onConnectionLost c ev) (fun _ w' => winv g w' /\ frame w w') w.
Proof.
  intros Hw Hg Hl Hc Hk. destruct ev as [q r| | |]; cbn [processSessionEvent].
  - apply known_cons in Hk as [(p & -> & Hp) _]. eapply wp_mono; [by apply onRequestDone_spec|].
    intros _ w' [? ?]. split; [done|by apply steady_frame].
  - by wp_step.
  - destruct Hl as [l Hl]. destruct (links_some _ _ _ Hl) as (conn & Hcon & _). apply wp_disconnect. wp_step.
    eapply wp_mono; [by eapply disconnect_spec|]. intros _ w1 (Hw1 & Ht1 & Hl1 & _).
    eapply wp_mono; [apply (onConnectionLost_spec g (lost g)); [done|]|].
    + rewrite Hl1, lookup_insert_eq. eauto.
    + intros _ w2 (Hw2 & Hf2 & _). unfold with_lost in Hw2. rewrite hand_eta in Hw2. split; [done|]. etrans; [by apply touches_frame|done].
  - eapply wp_mono; [apply (acknowledge_spec g c w); [done|done|done|rewrite Hg; by apply not_elem_of_nil]|].
    intros _ w' [? ?]. split; [done|by apply touches_frame].
Qed.

Lemma events_spec g c evs w :
  winv g w -> fired g = [] -> is_Some (links w !! c) -> c ∉ unregistered g w -> known w (done_contexts evs) ->
  wp tolerates (process c evs) (fun _ w' => winv g w' /\ frame w w') w.
Proof.
  intros Hw Hg. revert w Hw. induction evs as [|ev evs IH]; intros w Hw Hl Hc Hk; cbn [processSessionEvents]; [by wp_step|].
  assert (Hsplit : done_contexts (ev :: evs) = done_contexts [ev] ++ done_contexts evs) by apply (done_app [ev] evs).
  assert (Hk1 : known w (done_contexts [ev])) by (intros x Hx; apply Hk; rewrite Hsplit; apply elem_of_app; by left).
  assert (Hk2 : known w (done_contexts evs)) by (intros x Hx; apply Hk; rewrite Hsplit; apply elem_of_app; by right).
  wp_step. eapply wp_mono; [by apply event_spec|]. intros _ w1 [Hw1 Hf1].
  eapply wp_mono; [apply IH; [done|by eapply frame_link|by rewrite (unregistered_frame _ _ _ Hf1)|by eapply known_frame]|].
  intros _ w2 [? ?]. split; [done|by etrans].
Qed.

(** ** Methods *)

Lemma winv_bytes g k w : winv g w -> 0 <= k <= bytes_left g -> winv (with_bytes k g) w.
Proof.
  intros [Hrq Hqu Hco Hpt Htm Hdl [_ Hss] (? & ? & ?)] Hk. split; try done.
  - split; [apply Hk|]. intros c conn Hc. destruct (Hss c conn Hc) as (Hok & ? & ?). split; [by eapply law_mono|done].
  - split_and!; [done..|cbn; lia].
Qed.

Lemma cancelRequest_spec g c p w :
  winv g w -> is_Some (links w !! c) -> is_Some (heap w !! p) ->
  wp tolerates (cancelRequestOnReactor onRequestDone onConnectionLost c (Some p)) (fun _ w' => winv g w' /\ frame w w') w.
Proof.
  intros Hw [l Hl] Hp. destruct (links_some _ _ _ Hl) as (conn & Hc & _). destruct (session_of _ _ _ _ Hw Hc) as (Hk & Hok & Hheld).
  unfold cancelRequestOnReactor. wp_step. apply assert_spec. wp_step. eapply wp_through_session_contexts; [done|by eapply law_cancel|].
  cbn. intros evs s h (Hs & Hevs & Hsub & Hreq).
  assert (Hall : known w (done_contexts evs ++ sess_held s)) by (by eapply known_subset).
  destruct (winv_session g w c conn s (bytes_left g) Hw Hc) as (Hw1 & Ht1 & Hl1); [lia|done| |].
  { intros x Hx. apply Hall. apply elem_of_app. by right. }
  rewrite with_bytes_id in Hw1. set (w1 := with_connection _ _ _ _) in *. apply same_requests_heap in Hreq.
  assert (Hw2 : winv g (set_heap h w1)) by (by apply winv_heap).
  assert (Hf2 : frame w (set_heap h w1)).
  { etrans; [by apply touches_frame|]. split; [done|by apply same_heap_after|done]. }
  wp_step. eapply wp_mono; [apply (completions_spec g c evs (set_heap h w1)); [done|done|]|].
  { eapply known_frame; [exact Hf2|]. intros x Hx. apply Hall. apply elem_of_app. by left. }
  intros _ w3 (Hw3 & Hs3). assert (Hf3 : frame w w3) by (etrans; [exact Hf2|by apply steady_frame]).
  eapply wp_mono; [apply (updateWriteInterest_spec g c w3); [done|by eapply frame_link; eauto]|].
  intros _ w4 (? & ? & _). split; [done|]. etrans; [exact Hf3|by apply touches_frame].
Qed.

Lemma closeOnReactor_spec g c w :
  winv g w -> is_Some (links w !! c) ->
  wp tolerates (ConnectionMethods.closeOnReactor onRequestDone onConnectionLost c)
    (fun _ w' => winv (with_lost ({[c]} ∪ lost g) g) w' /\ frame w w' /\ pools w' = pools w /\
       forall l, links w' !! c = Some l -> l_connected l = false) w.
Proof.
  intros Hw [l Hl]. destruct (links_some _ _ _ Hl) as (conn & Hc & ->). unfold ConnectionMethods.closeOnReactor. wp_step. apply assert_spec.
  wp_step. eapply wp_connection; [done|]. cbv beta. destruct (Connection.connected conn) eqn:Hcon; cbn [negb].
  2: { wp_step. split_and!; [|done|done|intros l; rewrite Hl; by intros [= <-]]. rewrite <- (hand_eta g) in Hw. destruct Hw as [Hrq Hqu Hco Hpt Htm Hdl Hss Hcf].
    split; try done. destruct Hpt as [Hpfd Hsub Hping Hest Hfp Hft]. split; try done. intros i c' Hi.
    destruct (Hsub i c' Hi) as (l' & ? & Hor & ?). exists l'. split_and!; [done| |done]. destruct Hor; [by left|].
    right. apply elem_of_union. by right. }
  apply wp_disconnect. wp_step. eapply wp_mono; [by eapply disconnect_spec|]. intros _ w1 (Hw1 & Ht1 & Hl1 & conn1 & Hc1 & _).
  wp_step. eapply (session_spec _ c conn1 w1 sess_close _ done_contexts completes_only); [done|done| |].
  { destruct (session_of _ _ _ _ Hw1 Hc1) as (Hk & Hok & _). eapply wp_mono; [by eapply law_close|]. by intros evs s (? & ? & ?). }
  intros evs w2 Hevs Hw2 Ht2 Hl2 Hk2. eapply wp_mono; [by apply completions_spec|]. intros _ w3 [Hw3 Hs3].
  assert (Hf3 : frame w w3) by (do 2 (etrans; [by apply touches_frame|]); by apply steady_frame).
  split_and!; [done|done| |].
  - rewrite (sd_pools _ _ Hs3). destruct Ht1 as [_ (? & ? & ->)], Ht2 as [_ (? & ? & ->)]. done.
  - intros l'. rewrite (sd_links _ _ Hs3), Hl2, Hl1, lookup_insert_eq. by intros [= <-].
Qed.

Lemma onSessionReadable_spec g k c reads w :
  winv g w -> fired g = [] -> bytes_left g = k + reads_bytes reads -> 0 <= k -> is_Some (links w !! c) -> c ∉ unregistered g w ->
  wp tolerates (onSessionReadable onRequestDone onConnectionLost c reads)
    (fun _ w' => winv (with_bytes k g) w' /\ frame w w') w.
Proof.
  intros Hw Hg Hbytes Hk [l Hl] Hreg. destruct (links_some _ _ _ Hl) as (conn & Hc & ->). pose proof (reads_bytes_nonneg reads).
  unfold onSessionReadable. wp_step. apply assert_spec. wp_step. eapply wp_connection; [done|]. cbv beta.
  destruct (Connection.connected conn); cbn [negb]; [|wp_step; split; [by apply winv_bytes; [|lia]|done]].
  destruct (session_of _ _ _ _ Hw Hc) as (_ & Hok & Hheld). rewrite Hbytes in Hok.
  wp_step. eapply wp_through_session; [done|by eapply law_read|]. cbn. intros evs s (Hs & Hsub).
  assert (Hall : known w (done_contexts evs ++ sess_held s)) by (by eapply known_subset).
  destruct (winv_session g w c conn s k Hw Hc) as (Hw1 & Ht1 & Hl1); [lia|done| |].
  { intros x Hx. apply Hall. apply elem_of_app. by right. }
  set (w1 := with_connection _ _ _ _) in *. pose proof (touches_frame _ _ Ht1) as Hf1.
  wp_step. eapply wp_mono; [apply (events_spec (with_bytes k g) c evs w1); [done|done|by rewrite Hl1; eauto| |]|].
  { by rewrite (unregistered_frame _ _ _ Hf1). }
  { eapply known_frame; [exact Hf1|]. intros x Hx. apply Hall. apply elem_of_app. by left. }
  intros _ w2 [Hw2 Hf2]. assert (Hf12 : frame w w2) by (by etrans).
  eapply wp_mono; [apply (updateWriteInterest_spec (with_bytes k g) c w2); [done|by eapply frame_link; eauto]|].
  intros _ w3 (? & ? & _). split; [done|]. etrans; [exact Hf12|by apply touches_frame].
Qed.

Lemma onSessionWritable_spec g c writes w :
  winv g w -> writes_ok writes -> is_Some (links w !! c) ->
  wp tolerates (onSessionWritable c writes) (fun _ w' => winv g w' /\ frame w w') w.
Proof.
  intros Hw Hwrites [l Hl]. destruct (links_some _ _ _ Hl) as (conn & Hc & ->).
  unfold onSessionWritable. wp_step. apply assert_spec. wp_step. eapply wp_connection; [done|]. cbv beta.
  destruct (Connection.connected conn); cbn [negb]; [|by wp_step].
  wp_step. eapply (session_spec g c conn w _ _ (fun _ => []) (fun _ => True)); [done|done| |].
  { destruct (session_of _ _ _ _ Hw Hc) as (Hk & Hok & _). eapply wp_mono; [by eapply law_write|]. by intros a s [? ?]. }
  intros _ w1 _ Hw1 Ht1 Hl1 _. eapply wp_mono; [apply (updateWriteInterest_spec g c w1); [done|by rewrite Hl1; eauto]|].
  intros _ w2 (? & ? & _). split; [done|]. by etrans; apply touches_frame.
Qed.
End events.

(** ** Pings, registration, the end of connections

    The handlers of the keep-alive timers, once they have fired; a connection
    entering the reactor; connections being destroyed. *)

Section pings.
Context {S : Type} `{SessionLaws S} `{HeapOrder} `{!HashOrder EndpointKey} `{!HashOrder Z} {thread : RunsOn} {checks : Checks}.
Implicit Type w : World.t S.

(** *** Fired timers *)

Lemma timers_drop T h ls r t : timers_inv (t :: T) h ls r -> timers_inv T h ls r.
Proof.
  intros [Hok Hready Hrun Hown Huniq Hfresh Hhand Hfired]. apply NoDup_cons in Hhand as [_ Hhand]. split; try done.
  intros t' Ht'. apply Hfired. by apply elem_of_cons; right.
Qed.

Lemma pointers_drop X T ls fds rc est t : pointers_ok X (t :: T) ls fds rc est -> pointers_ok X T ls fds rc est.
Proof.
  intros [Hpfd Hsub Hping Hest Hfp Hft]. split; try done.
  - intros c Hc. destruct (Hfp c) as (? & Hno & ?); [by apply elem_of_cons; right|]. split_and!; [done| |done].
    intros Hin. apply Hno. by apply elem_of_cons; right.
  - intros c Hc. apply Hft. by apply elem_of_cons; right.
Qed.

(** The owner of a timer that has fired forgets it. *)
Lemma timers_fired T h ls h' ls' r t :
  timers_inv (t :: T) h ls r -> timer_owner h' ls' t = Some 0 ->
  (forall t', t' <> t -> timer_owner h' ls' t' = timer_owner h ls t') ->
  (forall t', t' <> t -> timer_live ls t' -> timer_live ls' t') -> timers_inv T h' ls' r.
Proof.
  intros Ht Hz Ho Hl. pose proof (tm_fired _ _ _ _ Ht t ltac:(by apply elem_of_cons; left)) as [[k Hk] Hno].
  apply timers_drop in Ht. eapply (timers_reset _ _ _ _ _ _ _ t); [exact Ht|exact Hk|done..|by apply Ht| |exact (tm_ready _ _ _ _ Ht)|done].
  symmetry. apply delete_id, eq_None_not_Some. intros [[d t1] Hk1]. pose proof (tm_unique _ _ _ _ Ht _ _ _ _ Hk1 Hk) as ->.
  by eapply Hno.
Qed.

(** A connection takes note of a timer of its own that has fired. *)
Lemma fired_inv k N L P E X T B t c conn conn' w :
  winv (mk_hand k N L P E X (t :: T) B) w -> t = pingTimer c \/ t = pingTimeoutTimer c ->
  connections w !! c = Some conn -> same_session conn conn' ->
  Connection.connected conn' = Connection.connected conn -> Connection.sessionFd conn' = Connection.sessionFd conn ->
  Connection.pendingPing conn' = Connection.pendingPing conn ->
  timer_owner (heap w) (<[c := link_of conn']> (links w)) t = Some 0 ->
  (forall t', t' <> t -> timer_owner (heap w) (<[c := link_of conn']> (links w)) t' = timer_owner (heap w) (links w) t') ->
  (Connection.pendingPing conn = true -> Connection.pingTimerId conn' = 0) ->
  (Connection.pendingPing conn = false -> Connection.pingTimeoutTimerId conn' = 0) ->
  let w' := with_connection c conn' (reactor w) w in
  winv (mk_hand k N L P E X T B) w' /\ touches w w' /\ c ∉ unregistered (mk_hand k N L P E X T B) w'.
Proof.
  intros Hw Ht Hc Hss Hcon Hfd Hpp Hz Ho Hp1 Hp2 w'. pose proof (connection_link _ _ _ Hc) as Hl. set (g := mk_hand k N L P E X (t :: T) B) in Hw.
  assert (Hreg : c ∉ unregistered g w).
  { destruct Ht as [-> | ->]; [apply (pt_fired_ping _ _ _ _ _ _ (w_pointers _ _ Hw))|apply (pt_fired_timeout _ _ _ _ _ _ (w_pointers _ _ Hw))];
      by apply elem_of_cons; left. }
  split; [|split; [apply with_touches with conn; [done|congruence|done..]|exact Hreg]].
  apply (winv_connection g X T w c conn conn' (reactor w)); try done.
  - intros p Hp. apply elem_of_cons in Hp as [Hp|Hp]; [destruct Ht as [-> | ->]; done|done].
  - rewrite links_with. apply pointers_relink with (link_of conn); [eapply pointers_drop; apply (w_pointers _ _ Hw)|done|done|done| | | |].
    + cbn. by rewrite Hpp.
    + cbn. by rewrite Hpp.
    + done.
    + intros Hin. cbn. rewrite Hpp.
      destruct (pt_fired_ping _ _ _ _ _ _ (w_pointers _ _ Hw) c) as (_ & _ & Hf); [by apply elem_of_cons; right|]. exact (Hf _ Hl).
  - rewrite links_with. eapply timers_fired; [apply (w_timers _ _ Hw)|done|done|].
    intros t' _. apply live_connected with (link_of conn); [done|cbn; congruence].
Qed.

Lemma onPingTimer_spec k N L P E X T B c w :
  winv (mk_hand k N L P E X (pingTimer c :: T) B) w ->
  wp tolerates (onPingTimer onRequestDone onConnectionLost c)
    (fun _ w' => winv (mk_hand k N L P E X T B) w' /\ frame w w') w.
Proof.
  intros Hw. set (g := mk_hand k N L P E X T B).
  assert (Hfirst : pingTimer c ∈ pingTimer c :: T) by (by apply elem_of_cons; left).
  destruct (tm_fired _ _ _ _ (w_timers _ _ Hw) _ Hfirst) as [Hsome Hno]. cbn in Hsome. rewrite fmap_is_Some in Hsome.
  destruct Hsome as [l Hl]. destruct (links_some _ _ _ Hl) as (conn & Hc & ->).
  destruct (pt_fired_ping _ _ _ _ _ _ (w_pointers _ _ Hw) c Hfirst) as (_ & Hnt & Hpp). specialize (Hpp _ Hl). cbn in Hpp, Hnt.
  pose proof (tm_hand _ _ _ _ (w_timers _ _ Hw)) as Hnd. apply NoDup_cons in Hnd as [Hnp _].
  destruct (fired_inv k N L P E X T B (pingTimer c) c conn (Connection.set_pingTimerId 0 conn) w Hw) as (Hw1 & Ht1 & Hreg1);
    [by left|done|by split|done|done|done| | |done| |].
  { cbn. by rewrite lookup_insert_eq. }
  { intros t Hne. destruct (decide (t = pingTimeoutTimer c)) as [->|]; [cbn; by rewrite lookup_insert_eq, Hl|by apply ping_owner_ne]. }
  { intros _. apply (pt_ping _ _ _ _ _ _ (w_pointers _ _ Hw) _ _ Hl). done. }
  unfold onPingTimer. wp_step. eapply wp_of_run; [by apply update_connection_run|]. cbv beta.
  set (conn1 := Connection.set_pingTimerId 0 conn) in *. set (w1 := with_connection c conn1 (reactor w) w) in *.
  assert (Hc1 : connections w1 !! c = Some conn1) by apply with_lookup. fold g in Hw1, Hreg1.
  wp_step. eapply wp_connection; [done|]. cbv beta. pose proof (touches_frame _ _ Ht1) as Hf1.
  destruct (Connection.connected conn1) eqn:Hcon; cbn [negb]; [|by wp_step].
  apply wp_if; intros _.
  { eapply wp_mono; [apply (schedulePingTimer_spec g c conn1); [done|done|done|done|done|]|].
    - cbn. intros Hin. apply Hnp. done.
    - intros _ w2 (? & ? & _). split; [done|]. etrans; [exact Hf1|by apply touches_frame]. }
  change (Connection.pendingPing conn1) with (Connection.pendingPing conn). rewrite Hpp. wp_step.
  eapply (session_spec g c conn1 w1 _ _ (fun _ => []) (fun evs => evs = [])); [done|done| |].
  { destruct (session_of _ _ _ _ Hw1 Hc1) as (Hk & Hok & _). eapply wp_mono; [by eapply law_ping|].
    intros evs s (-> & ? & ->). done. }
  intros evs w2 -> Hw2 Ht2 Hl2 _. wp_step. cbn [processSessionEvents]. wp_step. wp_step.
  pose proof (connection_link _ _ _ Hc1) as Hlk1.
  eapply wp_mono; [apply (updateWriteInterest_spec g c w2); [done|rewrite Hl2; eauto]|]. intros _ w3 (Hw3 & Ht3 & Hl3).
  assert (Hlk3 : links w3 !! c = Some (link_of conn1)) by congruence.
  destruct (links_some _ _ _ Hlk3) as (conn3 & Hc3 & Heq3).
  assert (Hf3 : frame w w3) by (etrans; [exact Hf1|]; etrans; [exact (touches_frame _ _ Ht2)|exact (touches_frame _ _ Ht3)]).
  assert (Hreg3 : c ∉ unregistered g w3) by (rewrite (unregistered_frame _ _ _ Hf3), <- (unregistered_frame _ _ _ Hf1); done).
  unfold link_of in Heq3. injection Heq3 as Hcon3 Hfd3 Hpp3 Hpt3 Hto3.
  wp_step. eapply wp_of_run; [by apply update_connection_run|]. cbv beta.
  set (conn4 := Connection.set_pendingPing true conn3). set (w4 := with_connection c conn4 (reactor w3) w3).
  assert (Hc4 : connections w4 !! c = Some conn4) by apply with_lookup.
  assert (Hw4 : winv g w4).
  { rewrite <- (hand_eta g). apply winv_connection with conn3; try done.
    - rewrite links_with. eapply pointers_relink; [apply (w_pointers _ _ Hw3)|done|done|done|by intros _|done|done|].
      intros Hin. exfalso. apply Hnp. done.
    - rewrite links_with. eapply timers_keep; [apply (w_timers _ _ Hw3)| |].
      + intros t. apply owners_same with (link_of conn1); [done|cbn; congruence..].
      + intros t i d _. apply live_connected with (link_of conn1); [done|cbn; congruence]. }
  assert (Hf4 : frame w w4).
  { etrans; [exact Hf3|]. apply touches_frame. apply with_touches with conn3; [done|cbn; congruence|done..]. }
  assert (Hl4 : links w4 !! c = Some (link_of conn4)) by (by apply connection_link).
  wp_step. eapply wp_connection; [done|]. cbv beta.
  destruct (Connection.pingTimeoutSec conn4 >? 0) eqn:Hpos; [|by wp_step]. bool_to_prop. apply Z.ltb_lt in Hpos.
  destruct (w_sessions _ _ Hw4) as [_ Hss]. destruct (Hss _ _ Hc4) as (_ & _ & _ & Hms).
  wp_step. eapply wp_lift; [apply checked_i32_ok; unfold INT32_MIN, INT32_MAX; lia|]. cbv beta.
  eapply wp_mono; [eapply (schedule_link g w4 c conn4 (pingTimeoutTimer c) _ Connection.set_pingTimeoutTimerId); try done|].
  - change (Connection.connected conn3 = true). rewrite <- Hcon3. exact Hcon.
  - cbn. intros Hin. apply Hnt. by apply elem_of_cons; right.
  - rewrite (owner_timeout _ _ _ _ Hl4). cbn. rewrite <- Hto3. f_equal. apply (pt_ping _ _ _ _ _ _ (w_pointers _ _ Hw) _ _ Hl). done.
  - by right.
  - intros i. split; [by split|]. split; [done|]. split; [cbn; by rewrite lookup_insert_eq|].
    intros t' Hne. destruct (decide (t' = pingTimer c)) as [->|]; [|by apply ping_owner_ne].
    rewrite (owner_ping _ _ _ _ Hl4). by rewrite (owner_ping _ _ _ _ (lookup_insert_eq _ _ _)).
  - intros i. eapply pointers_relink; [apply (w_pointers _ _ Hw4)|done|done|done| |done| |].
    + intros _. cbn. congruence.
    + intros Hin. exfalso. rewrite (unregistered_frame _ _ _ Hf4), <- (unregistered_frame _ _ _ Hf1) in Hin. done.
    + intros Hin. exfalso. apply Hnp. done.
  - intros _ w5 (? & ? & _). split; [done|]. etrans; [exact Hf4|by apply touches_frame].
Qed.

Lemma onPingTimeout_spec k N L P E X T B c w :
  winv (mk_hand k N L P E X (pingTimeoutTimer c :: T) B) w ->
  wp tolerates (onPingTimeout onRequestDone onConnectionLost c)
    (fun _ w' => winv (mk_hand k N L P E X T B) w' /\ frame w w') w.
Proof.
  intros Hw. set (g := mk_hand k N L P E X T B).
  assert (Hfirst : pingTimeoutTimer c ∈ pingTimeoutTimer c :: T) by (by apply elem_of_cons; left).
  destruct (tm_fired _ _ _ _ (w_timers _ _ Hw) _ Hfirst) as [Hsome Hno]. cbn in Hsome. rewrite fmap_is_Some in Hsome.
  destruct Hsome as [l Hl]. destruct (links_some _ _ _ Hl) as (conn & Hc & ->).
  pose proof (pt_ping _ _ _ _ _ _ (w_pointers _ _ Hw) _ _ Hl) as [Hp1 Hp2]. cbn in Hp1, Hp2.
  destruct (fired_inv k N L P E X T B (pingTimeoutTimer c) c conn (Connection.set_pingTimeoutTimerId 0 conn) w Hw) as (Hw1 & Ht1 & Hreg1);
    [by right|done|by split|done|done|done| | |done|done|].
  { cbn. by rewrite lookup_insert_eq. }
  { intros t Hne. destruct (decide (t = pingTimer c)) as [->|]; [cbn; by rewrite lookup_insert_eq, Hl|by apply ping_owner_ne]. }
  unfold onPingTimeout. wp_step. eapply wp_of_run; [by apply update_connection_run|]. cbv beta.
  set (conn1 := Connection.set_pingTimeoutTimerId 0 conn) in *. set (w1 := with_connection c conn1 (reactor w) w) in *.
  assert (Hc1 : connections w1 !! c = Some conn1) by apply with_lookup. fold g in Hw1, Hreg1.
  pose proof (touches_frame _ _ Ht1) as Hf1. pose proof (connection_link _ _ _ Hc1) as Hl1.
  wp_step. eapply wp_connection; [done|]. cbv beta. apply wp_if; [intros _; by wp_step|].
  intros Hb. apply orb_false_iff in Hb as [Hb _]. apply negb_false_iff in Hb. change (Connection.pendingPing conn = true) in Hb.
  wp_step. eapply wp_of_run; [by apply update_connection_run|]. cbv beta.
  set (conn2 := Connection.set_pendingPing false conn1). set (w2 := with_connection c conn2 (reactor w1) w1).
  assert (Hw2 : winv g w2).
  { rewrite <- (hand_eta g). apply winv_connection with conn1; try done.
    - rewrite links_with. eapply pointers_relink; [apply (w_pointers _ _ Hw1)|done|done|done|done|done| |done].
      intros Hin. done.
    - rewrite links_with. eapply timers_keep; [apply (w_timers _ _ Hw1)| |].
      + intros t. by apply owners_same with (link_of conn1).
      + intros t i d _. by apply live_connected with (link_of conn1). }
  assert (Hf2 : frame w w2).
  { etrans; [exact Hf1|]. apply touches_frame. by apply with_touches with conn1. }
  wp_step. eapply wp_mono; [apply (closeOnReactor_spec g c w2); [done|]|].
  { apply (frame_link w); [done|by eexists]. }
  intros _ w3 (Hw3 & Hf3 & _). eapply wp_mono; [apply (onConnectionLost_spec g (lost g)); [done|]|].
  { apply (frame_link w); [by etrans|by eexists]. }
  intros _ w4 (Hw4 & Hf4 & _). unfold with_lost in Hw4. rewrite hand_eta in Hw4. split; [done|]. etrans; [|done]. by etrans.
Qed.
End pings.
