(* ===== verification/ManagerPools.v ===== *)
(** * Connections entering and leaving the pools

    A connection comes from the connector in a posted task, is registered
    with the reactor, sits in a pool, and is destroyed once nothing points to
    it: no descriptor, no timer, no request. *)

From S2P Require Import Prelude Outcome Types Transport RequestContext Std Session SessionFacts.
From S2P Require Import ProtocolSafety Endpoint Reactor ReactorFacts CallbackDispatcher IHttpSession Flow.
From S2P Require Import ManagerState Connection ConnectionManager ManagerSteps ManagerInv ManagerTimers.
From S2P Require Import ManagerRequests ManagerQueues ManagerLinks ManagerConnections ManagerSubmit ManagerEvents.
Import World ConnectionMethods ConnectionManager.

Section pools.
Context {S : Type} `{SessionLaws S} `{HeapOrder} `{!HashOrder EndpointKey} `{!HashOrder Z} {thread : RunsOn} {checks : Checks}.
Implicit Type w : World.t S.

(** ** Pools *)

Lemma connections_perm ls pool pool' est est' tids next :
  pool ++ est ≡ₚ pool' ++ est' -> connections_ok ls pool est tids next -> connections_ok ls pool' est' tids next.
Proof.
  intros Hp [Hn Hl Hnew Hnext Hpos]. split; try done.
  - rewrite app_assoc, <- Hp, <- app_assoc. done.
  - intros c Hc. assert (Hin : c ∈ pool ++ est) by (rewrite Hp; by apply elem_of_app). apply elem_of_app in Hin. auto.
Qed.

Lemma winv_pools k N L P P' E X T B w ps :
  winv (mk_hand k N L P E X T B) w -> P' ++ all_values ps ≡ₚ P ++ pooled w -> winv (mk_hand k N L P' E X T B) (set_pools ps w).
Proof.
  intros [Hrq Hqu Hco Hpt Htm Hdl Hss Hcf] Hp. split; try done. eapply connections_perm; [|exact Hco].
  change (pooled (set_pools ps w)) with (all_values ps). cbn [conns]. by rewrite Hp.
Qed.

(** ** Registering *)

(** A connection that is not in use has no timer. *)
Lemma unregistered_idle g w c l :
  winv g w -> c ∈ unregistered g w -> links w !! c = Some l -> l_pinging l = false /\ l_ping l = 0 /\ l_timeout l = 0.
Proof.
  intros Hw Hin Hl. destruct (pt_established _ _ _ _ _ _ (w_pointers _ _ Hw) _ _ Hin Hl) as [Hp ?].
  split_and!; [done|done|]. by apply (pt_ping _ _ _ _ _ _ (w_pointers _ _ Hw) _ _ Hl).
Qed.

Lemma idle_no_timer g w c l :
  winv g w -> links w !! c = Some l -> l_ping l = 0 -> l_timeout l = 0 ->
  no_timer (reactor w) (pingTimer c) /\ no_timer (reactor w) (pingTimeoutTimer c).
Proof.
  intros Hw Hl Hp Ht. split; (eapply owner_zero; [apply (w_timers _ _ Hw)|]).
  - rewrite (owner_ping _ _ _ _ Hl). by rewrite Hp.
  - rewrite (owner_timeout _ _ _ _ Hl). by rewrite Ht.
Qed.

(** Giving up a connection that has not been used. *)
Lemma give_up_inv g c conn conn' w :
  winv g w -> c ∈ unregistered g w -> connections w !! c = Some conn -> same_session conn conn' ->
  Connection.pendingPing conn' = Connection.pendingPing conn -> Connection.pingTimerId conn' = Connection.pingTimerId conn ->
  Connection.pingTimeoutTimerId conn' = Connection.pingTimeoutTimerId conn ->
  let w' := with_connection c conn' (reactor w) w in winv g w' /\ unregistered g w' = unregistered g w.
Proof.
  intros Hw Hin Hc Hss Hp1 Hp2 Hp3 w'. pose proof (connection_link _ _ _ Hc) as Hl.
  destruct (unregistered_idle _ _ _ _ Hw Hin Hl) as (_ & Hz1 & Hz2). destruct (idle_no_timer _ _ _ _ Hw Hl Hz1 Hz2) as [Hn1 Hn2].
  split; [|done]. rewrite <- (hand_eta g). apply winv_connection with conn; try done.
  - rewrite links_with. destruct (w_pointers _ _ Hw) as [Hpfd Hsub Hping Hest Hfp Hft].
    assert (Heq : l_pinging (link_of conn') = l_pinging (link_of conn) /\ l_ping (link_of conn') = l_ping (link_of conn) /\
      l_timeout (link_of conn') = l_timeout (link_of conn)) by done. destruct Heq as (Hq1 & Hq2 & Hq3). split.
    + intros fd rh wh Hfd. destruct (Hpfd fd rh wh Hfd) as (i & l & ? & ? & Hi & Hrest). exists i, l.
      destruct (decide (i = c)) as [->|]; [tauto|]. by rewrite lookup_insert_ne.
    + intros i d Hd. destruct (Hsub i d Hd) as (l & Hi & Hor & Hno). exists l.
      destruct (decide (d = c)) as [->|]; [done|]. by rewrite lookup_insert_ne.
    + intros i l [[<- <-]|[Hne Hi]]%lookup_insert_Some; [rewrite Hq1, Hq2, Hq3; eauto|eauto].
    + intros i l Hini [[<- <-]|[Hne Hi]]%lookup_insert_Some; [rewrite Hq1, Hq2; eauto|eauto].
    + intros i Hini. destruct (Hfp i Hini) as (? & ? & Hpi). split_and!; [done..|].
      intros l [[<- <-]|[Hne Hi]]%lookup_insert_Some; [rewrite Hq1; eauto|eauto].
    + done.
  - rewrite links_with. eapply timers_keep; [apply (w_timers _ _ Hw)| |].
    + intros t. by apply owners_same with (link_of conn).
    + intros t i d Hi. destruct t as [p|j|j]; [done| |]; intros (l & Hj & ?); exists l; rewrite lookup_insert_ne;
        [done| |done|]; intros <-; [by eapply Hn1|by eapply Hn2].
Qed.

Lemma registered_inv k N L P c E X B fd conn w :
  winv (mk_hand k N L P (c :: E) X [] B) w -> connections w !! c = Some conn -> Connection.connected conn = true ->
  Connection.sessionFd conn = fd -> fd <> INVALID_SOCKET -> Reactor.fdContexts (reactor w) !! fd = None ->
  winv (mk_hand k N L (c :: P) E X [] B)
    (set_reactor (Reactor.set_fdContexts (<[fd := mk_fd (sessionReadable c) (Some (sessionWritable c)) false]>
                                            (Reactor.fdContexts (reactor w))) (reactor w)) w).
Proof.
  intros Hw Hc Hcon Hfd Hvalid Hnone. pose proof (connection_link _ _ _ Hc) as Hl.
  destruct Hw as [Hrq Hqu Hco Hpt Htm Hdl Hss Hcf].
  assert (Hnot : c ∉ E ++ established (Reactor.tasks (reactor w))).
  { pose proof (co_nodup _ _ _ _ _ Hco) as Hn. rewrite app_assoc in Hn. apply NoDup_app in Hn as [Hn _].
    apply NoDup_app in Hn as (_ & _ & Hn). by apply NoDup_cons in Hn as [? _]. }
  split; try done.
  - eapply connections_perm; [|exact Hco]. unfold unregistered. cbn. symmetry. apply Permutation_middle.
  - unfold unregistered in *. cbn in *. destruct Hpt as [Hpfd Hsub Hping Hest Hfp Hft]. split.
    + intros fd' rh wh. unfold fd_handlers. cbn. rewrite fmap_insert. intros [[<- [= <- <-]]|[Hne Hi]]%lookup_insert_Some.
      * exists c, (link_of conn). split_and!; try done.
      * destruct (Hpfd fd' rh wh Hi) as (i & l & ? & ? & ? & ? & ? & Hno & ?). exists i, l. split_and!; try done.
        intros Hin. apply Hno. by apply elem_of_cons; right.
    + intros i d Hd. destruct (Hsub i d Hd) as (l & ? & ? & Hno). exists l. split_and!; [done..|].
      intros Hin. apply Hno. by apply elem_of_cons; right.
    + done.
    + intros i l Hin. apply Hest. by apply elem_of_cons; right.
    + by intros i Hin%elem_of_nil.
    + by intros i Hin%elem_of_nil.
  - by apply timers_state with (reactor w).
Qed.

Lemma registerWithReactor_spec k N L P c E X B added w :
  winv (mk_hand k N L P (c :: E) X [] B) w ->
  wp tolerates (registerWithReactor c added)
    (fun ok w' => frame w w' /\ pools w' = pools w /\
       if ok then winv (mk_hand k N L (c :: P) E X [] B) w' /\ exists l, links w' !! c = Some l /\ l_connected l = true
       else winv (mk_hand k N L P (c :: E) X [] B) w') w.
Proof.
  intros Hw. set (g := mk_hand k N L P (c :: E) X [] B) in *. set (g' := mk_hand k N L (c :: P) E X [] B).
  assert (Hin : c ∈ unregistered g w) by (by apply elem_of_cons; left).
  destruct (co_live _ _ _ _ _ (w_connections _ _ Hw) c) as [l Hl]; [by right|]. destruct (links_some _ _ _ Hl) as (conn & Hc & ->).
  destruct (unregistered_idle _ _ _ _ Hw Hin Hl) as (Hping & Hz1 & _). cbn in Hping, Hz1.
  unfold registerWithReactor. wp_step. eapply wp_connection; [done|]. cbv beta.
  apply wp_if; [by intros _; wp_step|]. intros Hb. apply orb_false_iff in Hb as [Hcon Hvalid]. bool_to_prop.
  wp_step. unfold wp at 1, on_reactor, Reactor.registerFd.
  set (fd := Connection.sessionFd conn) in *. apply Z.eqb_neq in Hvalid as Hv. rewrite Hv. cbn [orb].
  assert (Hfail : wp tolerates (update_connection c (Connection.set_connected false) ;;; on_session c sess_close ;;; ret false)
    (fun ok w' => frame w w' /\ pools w' = pools w /\
       if ok then winv g' w' /\ exists l, links w' !! c = Some l /\ l_connected l = true else winv g w') w).
  { wp_step. eapply wp_of_run; [by apply update_connection_run|]. cbv beta.
    set (conn1 := Connection.set_connected false conn). destruct (give_up_inv g c conn conn1 w Hw Hin Hc) as [Hw1 _]; [by split|done..|].
    set (w1 := with_connection _ _ _ _) in *. assert (Ht1 : touches w w1) by (by apply with_touches with conn).
    wp_step. eapply (session_spec g c conn1 w1 _ _ (fun _ => []) (fun _ => True)); [done|apply with_lookup| |].
    - destruct (session_of _ _ _ _ Hw1 (with_lookup _ _ _ _)) as (Hk & Hok & _). eapply wp_mono; [by eapply law_close|].
      intros evs s (? & _ & Hsub). split_and!; [done|done|]. intros x Hx. apply Hsub. apply elem_of_app. by right.
    - intros evs w2 _ Hw2 Ht2 _ _. wp_step. pose proof (transitivity Ht1 Ht2) as [? (? & ? & ->)]. done. }
  destruct (Reactor.running (reactor w)) eqn:Hrun; cbn [negb].
  2: { replace (set_reactor (reactor w) w) with w by (by destruct w). exact Hfail. }
  destruct (Reactor.fdContexts (reactor w) !! fd) as [x|] eqn:Hfd.
  { replace (set_reactor (reactor w) w) with w by (by destruct w). exact Hfail. }
  destruct added; cbn [negb].
  2: { replace (set_reactor (reactor w) w) with w by (by destruct w). exact Hfail. }
  set (r1 := Reactor.set_fdContexts _ _). set (w1 := set_reactor r1 w).
  assert (Hw1 : winv g' w1) by (by apply registered_inv with conn).
  assert (Ht1 : touches w w1) by (by apply set_reactor_touches).
  assert (Hreg : c ∉ unregistered g' w1) by (eapply pool_registered; [exact Hw1|by apply elem_of_cons; left]).
  wp_step. unfold wp at 1, on_reactor.
  pose proof (enableWrite_spec fd (sess_wantsWrite (Connection.session conn)) true r1) as He. change (reactor w1) with r1.
  destruct (Reactor.enableWrite _ _ _ r1) as [b r2]. cbn [snd] in He. destruct He as (He1 & He2 & He3).
  set (w2 := set_reactor r2 w1). assert (Hw2 : winv g' w2) by (by apply winv_reactor).
  assert (Ht2 : touches w w2) by (etrans; [exact Ht1|by apply set_reactor_touches]).
  wp_step. eapply wp_mono; [eapply (schedulePingTimer_spec g' c conn w2); try done|].
  - by rewrite (unregistered_frame _ _ _ (touches_frame _ _ Ht2)), <- (unregistered_frame _ _ _ (touches_frame _ _ Ht1)).
  - by apply not_elem_of_nil.
  - intros _ w3 (Hw3 & Ht3 & Hpl). wp_step. pose proof (transitivity Ht2 Ht3) as [Hf Hex]. split; [done|].
    split; [by destruct Hex as (? & ? & ->)|]. split; [done|]. pose proof (plugged_link _ _ c Hpl) as Hp.
    change (links w2) with (links w) in Hp. rewrite Hl in Hp. destruct (links w3 !! c) as [l|]; [|done].
    exists l. split; [done|]. cbn in Hp. congruence.
Qed.
(** ** Destroying *)

Lemma lookup_delete_all {A} (m : gmap Z A) D i : foldr delete m D !! i = if decide (i ∈ D) then None else m !! i.
Proof.
  induction D as [|d D IH]; cbn.
  - destruct (decide (i ∈ [])) as [Hi|]; [by apply elem_of_nil in Hi|done].
  - destruct (decide (i = d)) as [->|Hne].
    + rewrite lookup_delete_eq. destruct (decide (d ∈ d :: D)) as [|Hno]; [done|]. destruct Hno. by apply elem_of_cons; left.
    + rewrite lookup_delete_ne by done. rewrite IH. destruct (decide (i ∈ D)) as [Hi|Hi], (decide (i ∈ d :: D)) as [Hj|Hj]; try done.
      * destruct Hj. by apply elem_of_cons; right.
      * apply elem_of_cons in Hj as [|]; done.
Qed.

Lemma links_destroyed D w : links (set_connections (foldr delete (connections w) D) w) = foldr delete (links w) D.
Proof.
  apply map_eq. intros i. rewrite links_lookup, lookup_delete_all. cbn. rewrite lookup_delete_all, links_lookup.
  by destruct (decide (i ∈ D)).
Qed.

Lemma owner_destroyed h ls D t :
  (forall c, c ∈ D -> t <> pingTimer c /\ t <> pingTimeoutTimer c) ->
  timer_owner h (foldr delete ls D) t = timer_owner h ls t /\ (timer_live ls t -> timer_live (foldr delete ls D) t).
Proof.
  intros Hno. destruct t as [p|c|c]; [done| |]; (assert (Hc : c ∉ D) by (intros Hc; by destruct (Hno c Hc)));
    cbn; rewrite lookup_delete_all; (destruct (decide (c ∈ D)); [done|]); done.
Qed.

Lemma owner_destroyed_some h ls D t k :
  timer_owner h (foldr delete ls D) t = Some k -> timer_owner h ls t = Some k.
Proof.
  destruct t as [p|c|c]; [done| |]; cbn; rewrite lookup_delete_all; by destruct (decide (c ∈ D)).
Qed.

(** [D1] have left their pools disconnected, [D2] have never been registered. *)
Lemma destroyed_inv k N L P E X B D1 P' D2 E' w :
  winv (mk_hand k N L P E X [] B) w -> P ++ pooled w ≡ₚ D1 ++ P' ++ pooled w -> E = D2 ++ E' ->
  (forall c l, c ∈ D1 -> links w !! c = Some l -> l_connected l = false) ->
  (forall i c, requestConnections w !! i = Some c -> c ∉ D1) ->
  winv (mk_hand k N L P' E' X [] B) (set_connections (foldr delete (connections w) (D1 ++ D2)) w).
Proof.
  intros Hw HP -> HD1 Hrc. set (g := mk_hand k N L P (D2 ++ E') X [] B) in *. set (D := D1 ++ D2).
  set (w' := set_connections _ w). assert (Hl : links w' = foldr delete (links w) D) by apply links_destroyed.
  assert (Hold : forall c l, links w' !! c = Some l -> links w !! c = Some l /\ c ∉ D).
  { intros c l. rewrite Hl, lookup_delete_all. by destruct (decide (c ∈ D)). }
  assert (Hkeep : forall c, c ∉ D -> links w' !! c = links w !! c).
  { intros c Hc. rewrite Hl, lookup_delete_all. by destruct (decide (c ∈ D)). }
  assert (Hun2 : forall c, c ∈ D2 -> c ∈ unregistered g w).
  { intros c Hc. unfold unregistered. cbn. rewrite <- app_assoc. apply elem_of_app. by left. }
  assert (Hsub : forall c, c ∈ unregistered (mk_hand k N L P' E' X [] B) w' -> c ∈ unregistered g w).
  { intros c. unfold unregistered. cbn. rewrite <- app_assoc. intros Hc. apply elem_of_app. by right. }
  assert (Hcut : forall c, c ∈ D -> forall t, t = pingTimer c \/ t = pingTimeoutTimer c -> no_timer (reactor w) t).
  { intros c Hc t Ht i d Hi. destruct (tm_owner _ _ _ _ (w_timers _ _ Hw) _ _ _ Hi) as [Ho Hlive].
    assert (exists l, links w !! c = Some l /\ l_connected l = true) as (l & Hcl & Hcon) by (destruct Ht as [-> | ->]; exact Hlive).
    apply elem_of_app in Hc as [Hc|Hc]; [by rewrite (HD1 c l Hc Hcl) in Hcon|].
    destruct (unregistered_idle _ _ _ _ Hw (Hun2 c Hc) Hcl) as (_ & Hz1 & Hz2).
    destruct (idle_no_timer _ _ _ _ Hw Hcl Hz1 Hz2) as [Hn1 Hn2]. destruct Ht as [-> | ->]; [by eapply Hn1|by eapply Hn2]. }
  destruct Hw as [Hrq Hqu Hco Hpt Htm Hdl [Hk Hss] Hcf]. split; rewrite ?Hl; try done.
  - assert (Hperm : (P ++ pooled w) ++ unregistered g w ≡ₚ D ++ (P' ++ pooled w) ++ unregistered (mk_hand k N L P' E' X [] B) w').
    { unfold unregistered. cbn. rewrite HP. unfold D. rewrite <- !app_assoc. apply Permutation_app_head.
      rewrite (app_assoc P' (pooled w) (D2 ++ _)), (app_assoc P' (pooled w) (E' ++ _)). apply Permutation_app_swap_app. }
    destruct Hco as [Hn Hlv Hnew Hnext Hpos]. change (conns g) with P in *. rewrite app_assoc, Hperm in Hn.
    split; [| | | |done].
    + rewrite app_assoc. rewrite <- !app_assoc in Hn. apply NoDup_app in Hn as (_ & _ & Hn). by rewrite <- !app_assoc.
    + intros c Hc. assert (Hin : c ∈ (P' ++ pooled w) ++ unregistered (mk_hand k N L P' E' X [] B) w') by (apply elem_of_app; done).
      rewrite <- Hl, Hkeep.
      * apply Hlv. apply elem_of_app. rewrite Hperm. apply elem_of_app. by right.
      * intros Hd. rewrite <- app_assoc in Hn. apply NoDup_app in Hn as (_ & Hdis & _). apply (Hdis c Hd).
        apply elem_of_app. by left.
    + intros c Hc. destruct (Hnew c Hc) as [Hnone ?]. split; [|done]. rewrite lookup_delete_all. by destruct (decide (c ∈ D)).
    + intros c [l Hc]. rewrite <- Hl in Hc. apply Hold in Hc as [Hc _]. eauto.
  - destruct Hpt as [Hpfd Hsubm Hping Hest Hfp Hft]. cbn [lost fired] in *. rewrite <- Hl. split.
    + intros fd rh wh Hfd. destruct (Hpfd fd rh wh Hfd) as (c & l & ? & ? & Hc & Hcon & ? & Hno & ?). exists c, l.
      split_and!; try done; [rewrite Hkeep; [done|]|intros Hin; by apply Hno, Hsub].
      intros [Hd|Hd]%elem_of_app; [by rewrite (HD1 c l Hd Hc) in Hcon|by apply Hno, Hun2].
    + intros i c Hi. destruct (Hsubm i c Hi) as (l & Hc & Hor & Hno). exists l.
      split_and!; [rewrite Hkeep; [done|]|done|intros Hin; by apply Hno, Hsub].
      intros [Hd|Hd]%elem_of_app; [by eapply Hrc|by apply Hno, Hun2].
    + intros c l Hc. apply Hold in Hc as [Hc _]. eauto.
    + intros c l Hin Hc. apply Hold in Hc as [Hc _]. eauto.
    + by intros c Hc%elem_of_nil.
    + by intros c Hc%elem_of_nil.
  - destruct Htm as [Hok Hready Hrun Hown Huniq Hfresh Hhand Hfired]. cbn [fired] in *. split; try done.
    + intros i d t Hi. destruct (Hown i d t Hi) as [Ho Hlv]. destruct (owner_destroyed (heap w) (links w) D t) as [Ho' Hlv'].
      { intros c Hc. split; intros ->; (eapply (Hcut c Hc); [|exact Hi]); [by left|by right]. }
      change (heap w') with (heap w). rewrite Ho'. auto.
    + intros i d t t' Hi Ho. apply owner_destroyed_some in Ho. eauto.
    + intros t i Ho. apply owner_destroyed_some in Ho. eauto.
    + by intros t Ht%elem_of_nil.
  - split; [done|]. intros c conn Hc. cbn in Hc. rewrite lookup_delete_all in Hc. destruct (decide (c ∈ D)); [done|]. eauto.
Qed.

(** ** Pruning the pools *)

Lemma filter_split {A} (Q1 Q2 : A -> Prop) `{!forall x, Decision (Q1 x)} `{!forall x, Decision (Q2 x)} (l : list A) :
  (forall x, Q1 x <-> ~ Q2 x) -> l ≡ₚ filter Q1 l ++ filter Q2 l.
Proof.
  intros HQ. induction l as [|x l IH]; [done|]. rewrite !filter_cons. specialize (HQ x).
  destruct (decide (Q1 x)), (decide (Q2 x)); try tauto; [by cbn; f_equiv|]. rewrite <- Permutation_middle. by f_equiv.
Qed.

Lemma values_filter {K A} `{Countable K} (Q1 Q2 : A -> Prop) `{!forall x, Decision (Q1 x)} `{!forall x, Decision (Q2 x)} (m : gmap K (list A)) :
  (forall x, Q1 x <-> ~ Q2 x) ->
  all_values m ≡ₚ concat (map (fun kv => filter Q1 kv.2) (map_to_list m)) ++ all_values (filter Q2 <$> m).
Proof.
  intros HQ. unfold all_values. rewrite map_to_list_fmap.
  induction (map_to_list m) as [|[k l] kvs IH]; [done|]. cbn. rewrite IH, (filter_split Q1 Q2 l HQ) at 1.
  rewrite <- !app_assoc. apply Permutation_app_head. apply Permutation_app_swap_app.
Qed.
End pools.
