(* ===== verification/ManagerTasks.v ===== *)
(** * The tasks of the reactor's thread

    What the manager runs on that thread - draining the queues, connections
    coming and failing, cancellations and timeouts, closing - keeps the
    invariant. *)

From S2P Require Import Prelude Outcome Types Transport RequestContext Std Session SessionFacts.
From S2P Require Import ProtocolSafety Endpoint Reactor ReactorFacts CallbackDispatcher IHttpSession Flow.
From S2P Require Import ManagerState Connection ConnectionManager ManagerSteps ManagerInv ManagerTimers.
From S2P Require Import ManagerRequests ManagerQueues ManagerLinks ManagerConnections ManagerSubmit ManagerEvents ManagerPools.
Import World ConnectionMethods ConnectionManager.

Section tasks.
Context {S : Type} `{SessionLaws S} `{HeapOrder} `{!HashOrder EndpointKey} `{!HashOrder Z} {thread : RunsOn} {checks : Checks}.
Implicit Type w : World.t S.

Lemma winv_connecting g v w : winv g w -> winv g (set_connectingEndpoints v w).
Proof. intros []. by split. Qed.

(** ** The submit queue *)

Lemma prune_spec k N L P E B w :
  winv (mk_hand k N L P E ∅ [] B) w ->
  wp tolerates prune (fun _ w' => winv (mk_hand k N L P E ∅ [] B) w' /\ heap w' = heap w /\ submitQueue w' = submitQueue w /\
    static w' = static w) w.
Proof.
  intros Hw. unfold wp, prune.
  set (alive := fun c => match connections w !! c with Some conn => Connection.connected conn | None => true end).
  set (dead := concat _). set (ps := _ <$> pools w). split; [|done].
  assert (Hperm : pooled w ≡ₚ dead ++ all_values ps).
  { apply (values_filter (fun c => alive c = false) (fun c => alive c = true)). intros c. by destruct (alive c). }
  assert (Hdead : forall c, c ∈ dead -> alive c = false).
  { intros c. unfold dead. rewrite list_elem_of_In, in_concat. intros (l & Hl & Hc). apply list_elem_of_In in Hl, Hc.
    apply list_elem_of_fmap in Hl as ([key conns] & -> & _). by apply list_elem_of_filter in Hc as [? _]. }
  assert (Hw1 : winv (mk_hand k N L (dead ++ P) E ∅ [] B) (set_pools ps w)).
  { eapply winv_pools; [exact Hw|]. rewrite Hperm, <- app_assoc. apply Permutation_app_swap_app. }
  replace (set_connections (foldr delete (connections w) dead) (set_pools ps w))
    with (set_connections (foldr delete (connections (set_pools ps w)) (dead ++ [])) (set_pools ps w)) by (by rewrite app_nil_r).
  eapply destroyed_inv; [exact Hw1| |done| |].
  - by rewrite <- app_assoc.
  - intros c l Hc Hl. destruct (links_some _ _ _ Hl) as (conn & Hcon & ->). specialize (Hdead c Hc).
    unfold alive in Hdead. change (connections (set_pools ps w)) with (connections w) in Hcon. by rewrite Hcon in Hdead.
  - intros i c Hi Hc. destruct (pt_submitted _ _ _ _ _ _ (w_pointers _ _ Hw) i c Hi) as (l & Hl & Hor & _).
    destruct (links_some _ _ _ Hl) as (conn & Hcon & ->). specialize (Hdead c Hc). unfold alive in Hdead. rewrite Hcon in Hdead.
    destruct Hor as [Hor|Hor]; [cbn in Hor; congruence|by apply elem_of_empty in Hor].
Qed.

Lemma connections_new ls pool est tids next :
  connections_ok ls pool est tids next -> connections_ok ls pool est (tids ++ [next]) (next + 1).
Proof.
  intros [Hn Hl Hnew Hnext Hpos]. split.
  - rewrite !app_assoc. rewrite !app_assoc in Hn. apply NoDup_app. split_and!; [done| |by apply NoDup_singleton].
    intros c Hc ->%list_elem_of_singleton. apply elem_of_app in Hc as [Hc|Hc].
    + apply elem_of_app in Hc. specialize (Hl next Hc). specialize (Hnext _ Hl). lia.
    + specialize (Hnew _ Hc). lia.
  - done.
  - intros c [Hc| ->%list_elem_of_singleton]%elem_of_app.
    + specialize (Hnew _ Hc). split; [tauto|lia].
    + split; [|lia]. apply eq_None_not_Some. intros Hc%Hnext. lia.
  - intros c Hc%Hnext. lia.
  - lia.
Qed.

Lemma enqueueConnectTask_spec g ep w :
  winv g w -> wp tolerates (enqueueConnectTask ep) (fun _ w' => winv g w' /\ frame w w') w.
Proof.
  intros Hw. unfold enqueueConnectTask. do 2 wp_step. apply wp_if; intros _; [by wp_step|].
  wp_step. eapply wp_mono; [by eapply pickConnectionOnReactor_spec|]. intros b w1 [-> _]. destruct b as [c|]; [by wp_step|].
  wp_step. wp_step. pose proof (winv_connecting g ({[Endpoint.key ep]} ∪ connectingEndpoints w) w Hw) as Hw1.
  set (w1 := set_connectingEndpoints _ w) in *. assert (Hf1 : frame w w1) by (by split).
  unfold fetch_add. do 3 wp_step. destruct (nextConnectionId w1 + 1 <? 2 ^ 64) eqn:Hn; [|apply wp_fail; by right; left]. bool_to_prop.
  wp_step. wp_step. wp_step. apply wp_modify. split; [|etrans; [exact Hf1|by split]].
  pose proof (co_pos _ _ _ _ _ (w_connections _ _ Hw1)) as Hpos.
  destruct Hw1 as [Hrq Hqu Hco Hpt Htm Hdl Hss Hcf]. split; try done.
  change (nextConnectionId w1) with (nextConnectionId w) in *.
  unfold connecting. cbn. rewrite map_app, u64_small by lia. by apply connections_new.
Qed.

Lemma drain_one_spec k N pr L P E X T B w :
  winv (mk_hand k N (pr :: L) P E X T B) w ->
  wp tolerates (drain_one pr) (fun _ w' => winv (mk_hand k N L P E X T B) w' /\ frame w w') w.
Proof.
  intros Hw. destruct (hand_pending _ _ _ _ _ _ _ _ _ _ Hw) as (_ & p & Hp & [ctx Hctx] & _).
  unfold drain_one. rewrite Hp. wp_step. eapply wp_deref_request; [done|]. cbv beta. apply wp_if; intros _.
  { eapply wp_mono; [apply completeRequest_spec; [done|by exists ctx]|]. intros _ w' (? & ? & _).
    split; [by eapply drop_request|by apply calm_frame]. }
  wp_step. eapply wp_mono; [by eapply pickConnectionOnReactor_spec|]. intros b w1 [-> Hb]. destruct b as [c|].
  - destruct (usable_connection _ _ (Hb c eq_refl)) as (conn & Hc & _). wp_step. eapply wp_connection; [done|]. cbv beta. apply wp_if; intros _.
    + eapply wp_mono; [eapply submit_to_spec; [apply onRequestDone_fresh|exact Hw|exact Hp|by apply Hb]|].
      intros _ w' [? ?]. split; [done|by apply calm_frame].
    + eapply wp_mono; [by eapply push_pending_spec|]. intros _ w' [? ?]. split; [done|by apply steady_frame].
  - wp_step. eapply wp_mono; [by eapply push_pending_spec|]. intros _ w1 [Hw1 Hs1].
    eapply wp_mono; [by apply enqueueConnectTask_spec|]. intros _ w2 [? ?]. split; [done|]. etrans; [by apply steady_frame|done].
Qed.

Lemma drain_each_spec k N prs L P E X T B w :
  winv (mk_hand k N (prs ++ L) P E X T B) w ->
  wp tolerates (drain_each prs) (fun _ w' => winv (mk_hand k N L P E X T B) w' /\ frame w w') w.
Proof.
  revert w. induction prs as [|pr prs IH]; intros w Hw; cbn [drain_each]; [by wp_step|].
  wp_step. eapply wp_mono; [by eapply drain_one_spec|]. intros _ w1 [Hw1 Hf1].
  eapply wp_mono; [by apply IH|]. intros _ w2 [? ?]. split; [done|by etrans].
Qed.

(** What the steps of the threads need: they leave the calls in progress
    alone, and nothing that was finished is undone. *)
Definition calls w :=
  (config w, started w, connectorThread w, connectorStop w, clock w, closing w, sending w, nextRequestId w,
   Reactor.running (reactor w), Reactor.ready (reactor w), canceling w).

Lemma static_calls w w' : static w' = static w -> calls w' = calls w.
Proof. unfold static, calls. congruence. Qed.

Record progress w w' : Prop := {
  pg_calls : calls w' = calls w;
  pg_heap : heap_after (heap w) (heap w');
}.
#[export] Instance progress_preorder : PreOrder progress.
Proof. split; [by intros w; split|]. intros a b c [] []. split; [congruence|by etrans]. Qed.

Lemma frame_progress w w' : frame w w' -> progress w w'.
Proof. intros []. split; [by apply static_calls|done]. Qed.

Lemma drainSubmitQueue_spec k B w :
  winv (nothing k B) w -> wp tolerates drainSubmitQueue (fun _ w' => winv (nothing k B) w' /\ progress w w') w.
Proof.
  intros Hw. unfold drainSubmitQueue. wp_step. eapply wp_mono; [by apply prune_spec|]. intros _ w1 (Hw1 & Hh1 & Hq1 & Hs1).
  do 4 wp_step. set (w2 := set_submitQueue [] w1).
  assert (Hw2 : winv (mk_hand k [] (submitQueue w1 ++ []) [] [] ∅ [] B) w2).
  { eapply winv_submit; [exact Hw1|]. cbn. by rewrite !app_nil_r. }
  eapply wp_mono; [by apply drain_each_spec|]. intros _ w3 [? Hf]. split; [done|].
  etrans; [|by apply frame_progress]. split; [by apply static_calls|]. cbn. by rewrite Hh1.
Qed.

(** ** Connections coming and going *)

Lemma establish_one_spec k N pr L P E X T B ep c w :
  winv (mk_hand k N (pr :: L) P E X T B) w -> usable w c ->
  wp tolerates (establish_one ep c pr) (fun _ w' => winv (mk_hand k N L P E X T B) w' /\ steady w w') w.
Proof.
  intros Hw Hus. pose proof (hand_pending _ _ _ _ _ _ _ _ _ _ Hw) as Hpr. unfold establish_one. wp_step.
  eapply wp_mono; [by eapply not_canceled_spec|]. intros q w1 [-> Hq]. destruct q as [p|].
  - destruct (usable_connection _ _ Hus) as (conn & Hc & _). wp_step. eapply wp_connection; [done|]. cbv beta. apply wp_if; intros _.
    + eapply wp_mono; [eapply submit_to_spec; [apply onRequestDone_fresh|exact Hw|by apply Hq|done]|].
      intros _ w' [? ?]. split; [done|by apply cl_steady].
    + eapply wp_mono; [by eapply push_pending_spec|]. intros _ w' [? ?]. done.
  - destruct Hpr as (_ & p & -> & Hp & _). eapply wp_mono; [by apply completeRequest_spec|]. intros _ w' (? & ? & _).
    split; [by eapply drop_request|by apply cl_steady].
Qed.

Lemma establish_each_spec k N prs L P E X T B ep c w :
  winv (mk_hand k N (prs ++ L) P E X T B) w -> usable w c ->
  wp tolerates (establish_each ep c prs) (fun _ w' => winv (mk_hand k N L P E X T B) w' /\ steady w w') w.
Proof.
  revert w. induction prs as [|pr prs IH]; intros w Hw Hus; cbn [establish_each]; [by wp_step|].
  wp_step. eapply wp_mono; [by eapply establish_one_spec|]. intros _ w1 [Hw1 Hf1].
  eapply wp_mono; [apply IH; [done|by eapply usable_steady]|]. intros _ w2 [? ?]. split; [done|by etrans].
Qed.

Lemma drainPending_spec k N P E X T B ep w :
  winv (mk_hand k N [] P E X T B) w ->
  wp tolerates (drainPendingForEndpoint ep) (fun _ w' => winv (mk_hand k N [] P E X T B) w' /\ steady w w') w.
Proof.
  intros Hw. unfold drainPendingForEndpoint. wp_step. eapply wp_mono; [by eapply take_pending_spec|].
  intros prs w1 [Hw1 Hs1]. eapply wp_mono; [by apply complete_each_spec|]. intros _ w2 (? & ? & _).
  split; [done|]. etrans; [exact Hs1|by apply cl_steady].
Qed.

Lemma onConnectionEstablished_spec k B ep c added w :
  winv (mk_hand k [] [] [] [c] ∅ [] B) w ->
  wp tolerates (onConnectionEstablished ep c added) (fun _ w' => winv (nothing k B) w' /\ progress w w') w.
Proof.
  intros Hw. unfold onConnectionEstablished. do 2 wp_step. set (w1 := set_connectingEndpoints _ w).
  assert (Hw1 : winv (mk_hand k [] [] [] [c] ∅ [] B) w1) by (by apply winv_connecting).
  assert (Hf1 : frame w w1) by (by split).
  wp_step. eapply wp_mono; [by apply registerWithReactor_spec|]. intros ok w2 (Hf2 & Hp2 & Hok).
  assert (Hf : frame w w2) by (by etrans). destruct ok; cbn [negb].
  - destruct Hok as [Hw2 (l & Hl & Hcon)]. do 2 wp_step. set (w3 := set_pools _ w2).
    assert (Hw3 : winv (nothing k B) w3).
    { eapply winv_pools; [exact Hw2|]. cbn. by rewrite all_values_push. }
    assert (Hus : usable w3 c).
    { split; [by exists l|]. unfold pooled. cbn. rewrite all_values_push. by apply elem_of_cons; left. }
    wp_step. eapply wp_mono; [eapply take_pending_spec; exact Hw3|]. intros prs w4 [Hw4 Hs4].
    eapply wp_mono; [apply establish_each_spec; [exact Hw4|by eapply usable_steady]|]. intros _ w5 [? ?]. split; [done|].
    apply frame_progress. etrans; [exact Hf|]. etrans; [|by apply steady_frame]. etrans; [|by apply steady_frame]. by split.
  - wp_step. eapply wp_mono; [by apply drainPending_spec|]. intros _ w3 [Hw3 Hs3]. apply wp_modify. split.
    + apply (destroyed_inv k [] [] [] [c] ∅ B [] [] [c] [] w3 Hw3); try done.
      * by intros i l Hi%elem_of_nil.
      * intros i d _. apply not_elem_of_nil.
    + etrans; [apply frame_progress; etrans; [exact Hf|by apply steady_frame]|]. by split.
Qed.

Lemma onConnectionFailed_spec k B ep w :
  winv (nothing k B) w -> wp tolerates (onConnectionFailed ep) (fun _ w' => winv (nothing k B) w' /\ progress w w') w.
Proof.
  intros Hw. unfold onConnectionFailed. do 2 wp_step. eapply wp_mono; [apply drainPending_spec; by apply winv_connecting|].
  intros _ w' [? Hs]. split; [done|]. apply frame_progress. etrans; [|by apply steady_frame]. by split.
Qed.
End tasks.
