(* ===== verification/ManagerClosing.v ===== *)
(** * Cancellation, timeouts and closing

    A request that is cancelled or times out is finished wherever it waits;
    closing finishes all of them. *)

From S2P Require Import Prelude Outcome Types Transport RequestContext Std Session SessionFacts.
From S2P Require Import ProtocolSafety Endpoint Reactor ReactorFacts CallbackDispatcher IHttpSession Flow.
From S2P Require Import ManagerState Connection ConnectionManager ManagerSteps ManagerInv ManagerTimers.
From S2P Require Import ManagerRequests ManagerQueues ManagerLinks ManagerConnections ManagerSubmit ManagerEvents ManagerPools ManagerTasks.
Import World ConnectionMethods ConnectionManager ManagerSteps.

Section closing.
Context {S : Type} `{SessionLaws S} `{HeapOrder} `{!HashOrder EndpointKey} `{!HashOrder Z} {thread : RunsOn} {checks : Checks}.
Implicit Type w : World.t S.

(** ** Aborting one request *)

Lemma is_finished_after w w' p : heap_after (heap w) (heap w') -> is_finished w p -> is_finished w' p.
Proof. intros [Ha _] (c & Hc & Hf). destruct (Ha p c Hc) as (c' & Hc' & Hca). exists c'. split; [done|]. by apply (ca_finished _ _ Hca). Qed.

Lemma is_request_spec g w id pr :
  winv g w -> is_request w id pr = true -> PendingRequest.context pr = Some id.
Proof.
  intros Hw. unfold is_request. destruct (PendingRequest.context pr) as [p|]; [|done]. destruct (heap w !! p) as [c|] eqn:Hc; [|done].
  intros Hid. bool_to_prop. destruct (rq_ids _ _ _ _ _ _ (w_requests _ _ Hw) _ _ Hc) as [Hp _]. congruence.
Qed.

Lemma find_pending_some w id queues k pr rest :
  find_pending w id queues = Some (k, pr, rest) ->
  exists deq, (k, deq) ∈ queues /\ deq ≡ₚ pr :: rest /\ is_request w id pr = true.
Proof.
  induction queues as [|[k0 deq] queues IH]; cbn [find_pending]; [done|].
  destruct (take_first (is_request w id) deq) as [[pr0 rest0]|] eqn:Ht.
  - intros [= -> -> ->]. destruct (take_first_some _ _ _ _ Ht) as [? ?]. exists deq. split_and!; [by apply elem_of_cons; left|done|done].
  - intros Hf. destruct (IH Hf) as (d & ? & ? & ?). exists d. split_and!; [by apply elem_of_cons; right|done|done].
Qed.

(** Off the reactor's thread, reading its tables may be a race. *)
Definition raced w (f : fault) : Prop := f = data_race /\ current = otherThread /\ races = true /\ racy w = true.
Definition aborts w (f : fault) : Prop := tolerates f \/ raced w f.

Lemma wp_aborts {A} w (m : st (World.t S) A) (Q Q' : A -> World.t S -> Prop) w' :
  wp tolerates m Q w' -> (forall a w1, Q a w1 -> Q' a w1) -> wp (aborts w) m Q' w'.
Proof. intros Hm HQ. eapply wp_mono; [|exact HQ]. eapply wp_weaken; [|exact Hm]. by left. Qed.

Lemma abort_request_spec g p response w :
  winv g w ->
  wp (aborts w) (abort_request p response)
    (fun _ w' => winv g w' /\ frame w w' /\ (is_Some (heap w !! p) -> p ∉ creating g -> is_finished w' p)) w.
Proof.
  intros Hw. unfold abort_request. do 2 wp_step. unfold findContext.
  destruct (contexts w !! p) as [q|] eqn:Hctx; cbn [default from_option]; [|wp_step; split_and!; [done|done|]].
  2: { intros [c Hc] Hn. exists c. split; [done|]. destruct (RequestContext.finished c) eqn:Hf; [done|].
    pose proof (rq_registered _ _ _ _ _ _ (w_requests _ _ Hw) _ _ Hc Hf Hn). congruence. }
  destruct (rq_contexts _ _ _ _ _ _ (w_requests _ _ Hw) _ _ Hctx) as [-> [c Hc]]. cbn [Datatypes.id].
  wp_step. eapply wp_deref_request; [done|]. cbv beta. apply wp_if; intros Hfin; [wp_step; split_and!; [done|done|by exists c]|].
  wp_step. eapply wp_aborts; [apply update_request_spec; [done|by exists c|apply mark_same]|]. intros _ w1 (Hw1 & Hc1 & Hr1 & _).
  pose proof (calm_frame _ _ Hc1) as Hf1. destruct g as [k N L P E X T B].
  wp_step. eapply wp_aborts; [by apply removeFromSubmitQueue_spec|]. intros queued w2 (Hq & Hf2 & Hh2 & Hr2 & _ & _ & Hp2).
  assert (Hf12 : frame w w2) by (by etrans). assert (Hs2 : is_Some (heap w2 !! p)) by (apply (frame_some w); [done|by exists c]).
  destruct queued as [q|].
  { destruct Hq as (pr & <- & Hm & Hw2). apply (is_request_spec _ _ _ _ Hw1) in Hm. rewrite Hm.
    eapply wp_aborts; [by apply completeRequest_spec|]. intros _ w3 (Hw3 & Hc3 & _ & _ & Hfin3).
    split_and!; [by eapply drop_request|etrans; [done|by apply calm_frame]|done]. }
  wp_step. assert (Hracy : racy w2 = racy w).
  { unfold racy. rewrite Hp2, Hr2, Hr1, (cl_pending _ _ Hc1). destruct Hf12 as [Hst _ _]. unfold static in Hst.
    injection Hst as _ _ _ _ _ _ _ _ _ -> _ ->. done. }
  unfold reactor_tables. do 2 wp_step.
  apply wp_mono with (Q := fun _ w' => w' = w2).
  { destruct current eqn:Hcur; [by wp_step|]. apply wp_if; [|by intros _; wp_step]. rewrite Hracy.
    intros [Hrc Hry]%andb_true_iff. apply wp_fail. by right. }
  intros _ w2' ->. do 2 wp_step. destruct (find_pending w2 p (hash_order (pendingByEndpoint w2))) as [[[key pr] rest]|] eqn:Hfind.
  { destruct (find_pending_some _ _ _ _ _ _ Hfind) as (deq & Hin & Hperm & Hm). apply (is_request_spec _ _ _ _ Hq) in Hm.
    assert (Hlook : pendingByEndpoint w2 !! key = Some deq) by (apply elem_of_map_to_list; by rewrite <- hash_order_perm).
    wp_step. rewrite Hm. eapply wp_aborts; [by apply completeRequest_spec|]. intros _ w3 (Hw3 & Hc3 & _ & _ & Hfin3).
    apply wp_modify. split_and!; [|etrans; [exact Hf12|]; etrans; [by apply calm_frame|by split]|done].
    eapply (drop_request k N pr). eapply winv_pending; [exact Hw3|].
    rewrite (cl_pending _ _ Hc3), all_values_insert, (all_values_lookup _ _ _ Hlook), Hperm. cbn. apply Permutation_middle. }
  wp_step. assert (Hcancel : wp tolerates
    (match requestConnections w2 !! p with
     | None => ret tt
     | Some c =>
         conn <- connection c ;;
         if Connection.connected conn then cancelRequestOnReactor onRequestDone onConnectionLost c (Some p) else ret tt
     end) (fun _ w' => winv (mk_hand k N L P E X T B) w' /\ frame w2 w') w2).
  { destruct (requestConnections w2 !! p) as [i|] eqn:Hrc; [|by wp_step].
    destruct (pt_submitted _ _ _ _ _ _ (w_pointers _ _ Hq) _ _ Hrc) as (l & Hl & _). destruct (links_some _ _ _ Hl) as (conn & Hi & _).
    wp_step. eapply wp_connection; [done|]. cbv beta. apply wp_if; intros _; [|by wp_step]. apply cancelRequest_spec; [done|by exists l|done]. }
  eapply wp_aborts; [exact Hcancel|]. intros _ w3 [Hw3 Hf3]. assert (Hf13 : frame w w3) by (by etrans).
  destruct (frame_some w w3 p Hf13) as [c3 Hc3]; [by exists c|]. wp_step. eapply wp_deref_request; [done|]. cbv beta.
  destruct (RequestContext.isFinished c3) eqn:Hfin3; cbn [negb]; [wp_step; split_and!; [done|done|by exists c3]|].
  eapply wp_aborts; [apply completeRequest_spec; [done|by exists c3]|]. intros _ w4 (? & ? & _ & _ & ?).
  split_and!; [done|etrans; [exact Hf13|by apply calm_frame]|done].
Qed.

(** ** Completing many *)

Lemma complete_known_spec g prs response w :
  winv g w -> (forall pr, pr ∈ prs -> exists p, PendingRequest.context pr = Some p /\ is_Some (heap w !! p)) ->
  wp tolerates (complete_each prs response) (fun _ w' => winv g w' /\ calm w w') w.
Proof.
  revert w. induction prs as [|pr prs IH]; intros w Hw Hk; cbn [complete_each]; [by wp_step|].
  destruct (Hk pr) as (p & -> & Hp); [by apply elem_of_cons; left|]. wp_step.
  eapply wp_mono; [by apply completeRequest_spec|]. intros _ w1 (Hw1 & Hc1 & _).
  eapply wp_mono; [apply IH; [done|]|].
  - intros x Hx. destruct (Hk x) as (q & ? & ?); [by apply elem_of_cons; right|]. exists q. split; [done|]. eapply frame_some; [by apply calm_frame|done].
  - intros _ w2 [? ?]. split; [done|by etrans].
Qed.

Lemma drop_requests k N prs L P E X T B w : winv (mk_hand k N (prs ++ L) P E X T B) w -> winv (mk_hand k N L P E X T B) w.
Proof. induction prs as [|pr prs IH]; [done|]. intros Hw. apply IH. by eapply drop_request. Qed.

Lemma complete_contexts_spec g ptrs response w :
  winv g w -> known w ptrs ->
  wp tolerates (complete_contexts ptrs response)
    (fun _ w' => winv g w' /\ calm w w' /\ forall p, Some p ∈ ptrs -> is_finished w' p) w.
Proof.
  revert w. induction ptrs as [|q ptrs IH]; intros w Hw Hk; cbn [complete_contexts].
  { wp_step. split_and!; [done|done|]. by intros p Hp%elem_of_nil. }
  apply known_cons in Hk as [(p & -> & Hp) Hk]. wp_step.
  eapply wp_mono; [by apply completeRequest_spec|]. intros _ w1 (Hw1 & Hc1 & _ & _ & Hfin).
  eapply wp_mono; [apply IH; [done|by eapply known_frame; [apply calm_frame|]]|]. intros _ w2 (Hw2 & Hc2 & Hall).
  split_and!; [done|by etrans|]. intros i [[= ->]|Hi]%elem_of_cons; [|auto].
  eapply is_finished_after; [|exact Hfin]. apply (fr_heap _ _ (calm_frame _ _ Hc2)).
Qed.

Lemma failAllContexts_spec k B response w :
  winv (nothing k B) w ->
  wp tolerates (failAllContexts response)
    (fun _ w' => winv (nothing k B) w' /\ progress w w' /\ forall p, is_Some (heap w !! p) -> is_finished w' p) w.
Proof.
  intros Hw. unfold failAllContexts. do 2 wp_step.
  assert (Hin : forall i q, contexts w !! i = Some q -> q ∈ map snd (hash_order (contexts w))).
  { intros i q Hi. apply list_elem_of_fmap. exists (i, q). split; [done|]. rewrite hash_order_perm. by apply elem_of_map_to_list. }
  eapply wp_mono; [apply complete_contexts_spec; [exact Hw|]|].
  - intros q Hq. apply list_elem_of_fmap in Hq as ([i q0] & -> & Hq). rewrite hash_order_perm in Hq. apply elem_of_map_to_list in Hq.
    destruct (rq_contexts _ _ _ _ _ _ (w_requests _ _ Hw) _ _ Hq) as [-> ?]. by exists i.
  - intros _ w' (Hw' & Hc' & Hall). pose proof (calm_frame _ _ Hc') as Hf. split_and!; [done|by apply frame_progress|].
    intros p [c Hc]. destruct (RequestContext.finished c) eqn:Hfin.
    + eapply is_finished_after; [apply (fr_heap _ _ Hf)|]. by exists c.
    + apply Hall. eapply Hin. apply (rq_registered _ _ _ _ _ _ (w_requests _ _ Hw) _ _ Hc Hfin). apply not_elem_of_nil.
Qed.

Lemma failQueuedRequests_spec k B response w :
  winv (nothing k B) w ->
  wp tolerates (failQueuedRequests response) (fun _ w' => winv (nothing k B) w' /\ progress w w') w.
Proof.
  intros Hw. unfold failQueuedRequests. do 4 wp_step. set (w1 := set_submitQueue [] w).
  assert (Hw1 : winv (mk_hand k [] (submitQueue w ++ []) [] [] ∅ [] B) w1).
  { eapply winv_submit; [exact Hw|]. cbn. by rewrite !app_nil_r. }
  eapply wp_mono; [by apply complete_each_spec|]. intros _ w2 (? & Hc & _). split; [done|].
  apply frame_progress. etrans; [|by apply calm_frame]. by split.
Qed.

(** ** Closing on the reactor *)

Lemma close_each_spec k P E B D X w :
  winv (mk_hand k [] [] P E X [] B) w -> (forall c, c ∈ D -> is_Some (links w !! c)) ->
  wp tolerates (close_each D)
    (fun _ w' => frame w w' /\ pools w' = pools w /\ (exists X', winv (mk_hand k [] [] P E X' [] B) w') /\
       forall c l, c ∈ D -> links w' !! c = Some l -> l_connected l = false) w.
Proof.
  revert X w. induction D as [|d D IH]; intros X w Hw Hlive; cbn [close_each].
  { wp_step. split_and!; [done|done|by exists X|]. by intros c l Hc%elem_of_nil. }
  assert (Hd : is_Some (links w !! d)) by (apply Hlive; by apply elem_of_cons; left).
  destruct Hd as [l0 Hd]. destruct (links_some _ _ _ Hd) as (conn & Hc & ->). wp_step. eapply wp_connection; [done|]. cbv beta. wp_step.
  assert (Hone : wp tolerates (if Connection.connected conn then ConnectionMethods.closeOnReactor onRequestDone onConnectionLost d else ret tt)
    (fun _ w' => frame w w' /\ pools w' = pools w /\ (exists X', winv (mk_hand k [] [] P E X' [] B) w') /\
       forall l, links w' !! d = Some l -> l_connected l = false) w).
  { apply wp_if; intros Hcon.
    - eapply wp_mono; [by eapply closeOnReactor_spec; [exact Hw|by eexists]|]. intros _ w' (? & ? & ? & ?). split_and!; [done|done| |done].
      by eexists.
    - wp_step. split_and!; [done|done|by exists X|]. intros l. rewrite Hd. by intros [= <-]. }
  eapply wp_mono; [exact Hone|]. intros _ w1 (Hf1 & Hp1 & [X1 Hw1] & Hdis).
  eapply wp_mono; [eapply IH; [exact Hw1|]|].
  - intros c Hc'. eapply frame_link; [exact Hf1|]. apply Hlive. by apply elem_of_cons; right.
  - intros _ w2 (Hf2 & Hp2 & Hex & Hall). split_and!; [by etrans|congruence|done|].
    intros c l [->|Hin]%elem_of_cons Hl2; [|by eapply Hall]. destruct (fr_links _ _ Hf2) as [_ Hback].
    destruct (Hback d l Hl2) as (l1 & Hl1 & Hcon). specialize (Hdis l1 Hl1). destruct (l_connected l); [|done]. rewrite Hcon in Hdis; done.
Qed.

Lemma managerClose_spec k B w :
  winv (nothing k B) w -> wp tolerates closeOnReactor (fun _ w' => winv (nothing k B) w' /\ progress w w') w.
Proof.
  intros Hw. unfold closeOnReactor. do 2 wp_step. wp_step.
  eapply wp_mono; [apply complete_known_spec; [exact Hw|]|].
  { intros pr. rewrite all_values_hash. intros Hpr.
    destruct (qu_queued _ _ _ _ (w_queues _ _ Hw) pr) as (_ & p & ? & ? & _); [|by exists p].
    cbn. unfold queued. apply elem_of_app. by right. }
  intros _ w1 [Hw1 Hc1]. do 6 wp_step. set (w2 := set_connectingEndpoints ∅ (set_pendingByEndpoint ∅ w1)).
  assert (Hw2 : winv (nothing k B) w2).
  { apply winv_connecting. apply (drop_requests k [] (all_values (pendingByEndpoint w1)) []). eapply winv_pending; [exact Hw1|].
    rewrite all_values_empty, !app_nil_r. done. }
  assert (Hf2 : frame w w2) by (etrans; [by apply calm_frame|by split]).
  cbv zeta. set (local := concat (map snd (hash_order (pools w2)))). do 2 wp_step. set (w3 := set_pools ∅ w2).
  assert (Hlocal : local ≡ₚ pooled w2) by apply all_values_hash.
  assert (Hw3 : winv (mk_hand k [] [] local [] ∅ [] B) w3).
  { eapply winv_pools; [exact Hw2|]. rewrite all_values_empty, app_nil_r. cbn. done. }
  wp_step. eapply wp_mono; [eapply close_each_spec; [exact Hw3|]|].
  { intros c Hc. apply (co_live _ _ _ _ _ (w_connections _ _ Hw3)). left. apply elem_of_app. by left. }
  intros _ w4 (Hf4 & Hp4 & [X Hw4] & Hdis). do 2 wp_step.
  assert (Hw5 : winv (mk_hand k [] [] local [] ∅ [] B) (set_requestConnections ∅ w4)).
  { apply (winv_submitted (mk_hand k [] [] local [] X [] B)); [done|apply map_empty_subseteq| |done].
    destruct (w_pointers _ _ Hw4) as [Hpfd Hsub Hping Hest Hfp Hft]. split; done. }
  apply wp_modify. split.
  - rewrite <- (app_nil_r local) at 1. eapply destroyed_inv; [exact Hw5|done|done| |].
    + intros c l Hc Hl. by eapply Hdis.
    + intros i c Hi. change ((∅ : gmap Z Z) !! i = Some c) in Hi. by rewrite lookup_empty in Hi.
  - etrans; [apply frame_progress; etrans; [exact Hf2|]; etrans; [|exact Hf4]; by split|]. by split.
Qed.

End closing.

(** ** The handlers of timers and descriptors *)

Section handlers.
Context {S : Type} `{SessionLaws S} `{HeapOrder} `{!HashOrder EndpointKey} `{!HashOrder Z} {checks : Checks}.
Implicit Type w : World.t S.

(** On the reactor's thread there is no race. *)
Lemma abort_on_reactor_spec g p response w :
  winv g w ->
  wp tolerates (abort_request p response)
    (fun _ w' => winv g w' /\ frame w w' /\ (is_Some (heap w !! p) -> p ∉ creating g -> is_finished w' p)) w.
Proof.
  intros Hw. eapply wp_weaken; [|by apply abort_request_spec]. intros f [?|(_ & Hcur & _)]; [done|discriminate Hcur].
Qed.

Lemma drop_fired k N L P E X t T B w :
  winv (mk_hand k N L P E X (t :: T) B) w -> (forall p, t = timeoutTimer p -> is_Some (heap w !! p) -> is_finished w p) ->
  winv (mk_hand k N L P E X T B) w.
Proof.
  intros [Hrq Hqu Hco Hpt Htm Hdl Hss Hcf] Hfin. split; try done; cbn in *.
  - by eapply pointers_drop.
  - by eapply timers_drop.
  - intros Hready p c Hp Hf Hto. destruct (Hdl Hready p c Hp Hf Hto) as [?|[?|[[Heq|?]%elem_of_cons|?]]]; [tauto|tauto| |tauto|tauto].
    destruct (Hfin p) as (c' & Hc' & Hf'); [done|by exists c|]. congruence.
Qed.

Lemma run_timers_spec k N L P E X T B w :
  winv (mk_hand k N L P E X T B) w -> N = [] ->
  wp tolerates (run_timers T) (fun _ w' => winv (mk_hand k N L P E X [] B) w' /\ frame w w' /\
    forall p, timeoutTimer p ∈ T -> is_finished w' p) w.
Proof.
  intros Hw ->. revert w Hw. induction T as [|t T IH]; intros w Hw; cbn [run_timers].
  { wp_step. split_and!; [done|done|]. by intros p Hp%elem_of_nil. }
  assert (Hone : wp tolerates (run_timer t) (fun _ w' => winv (mk_hand k [] L P E X T B) w' /\ frame w w' /\
    forall p, t = timeoutTimer p -> is_finished w' p) w).
  { destruct t as [p|c|c]; cbn [run_timer].
    - assert (Hp : is_Some (heap w !! p)).
      { destruct (tm_fired _ _ _ _ (w_timers _ _ Hw) (timeoutTimer p)) as [Hs _]; [by apply elem_of_cons; left|].
        cbn in Hs. by rewrite fmap_is_Some in Hs. }
      eapply wp_mono; [by apply abort_on_reactor_spec|]. intros _ w' (Hw' & Hf' & Hfin).
      assert (Hp' : is_finished w' p) by (apply Hfin; [done|apply not_elem_of_nil]).
      split_and!; [|done|by intros q [= <-]]. eapply drop_fired; [exact Hw'|]. by intros q [= <-].
    - eapply wp_mono; [by apply onPingTimer_spec|]. by intros _ w' [? ?].
    - eapply wp_mono; [by apply onPingTimeout_spec|]. by intros _ w' [? ?]. }
  wp_step. eapply wp_mono; [exact Hone|]. intros _ w1 (Hw1 & Hf1 & Hfin1).
  eapply wp_mono; [by apply IH|]. intros _ w2 (Hw2 & Hf2 & Hfin2). split_and!; [done|by etrans|].
  intros p [Heq|Hin]%elem_of_cons; [|auto]. eapply is_finished_after; [apply (fr_heap _ _ Hf2)|by apply Hfin1].
Qed.

Lemma run_fds_spec k B fd readable writable error reads writes w :
  winv (nothing (k + reads_bytes reads) B) w -> 0 <= k -> writes_ok writes ->
  wp tolerates (run_fds reads writes (Reactor.handleFdEvent fd readable writable error (reactor w)))
    (fun _ w' => winv (nothing k B) w' /\ frame w w') w.
Proof.
  intros Hw Hk Hwrites. pose proof (reads_bytes_nonneg reads) as Hreads.
  assert (Hless : winv (nothing k B) w) by (apply (winv_bytes _ k) in Hw; [exact Hw|cbn; lia]).
  unfold Reactor.handleFdEvent. destruct (Reactor.fdContexts (reactor w) !! fd) as [x|] eqn:Hfd; [|by cbn [run_fds]; wp_step].
  destruct (pt_fd _ _ _ _ _ _ (w_pointers _ _ Hw) fd (readHandler x) (writeHandler x)) as (c & l & Hr & Hwh & Hl & _ & _ & Hreg & _).
  { unfold fd_handlers. by rewrite lookup_fmap, Hfd. }
  rewrite Hr, Hwh.
  assert (Hread : wp tolerates (onSessionReadable onRequestDone onConnectionLost c reads) (fun _ w' => winv (nothing k B) w' /\ frame w w') w).
  { apply (onSessionReadable_spec (nothing (k + reads_bytes reads) B)); done. }
  assert (Hwrite : forall w1, winv (nothing k B) w1 -> frame w w1 ->
    wp tolerates (onSessionWritable c writes) (fun _ w' => winv (nothing k B) w' /\ frame w w') w1).
  { intros w1 Hw1 Hf1. eapply wp_mono; [apply onSessionWritable_spec; [exact Hw1|done|by eapply frame_link; eauto]|].
    intros _ w2 [? ?]. split; [done|by etrans]. }
  assert (Hseq : forall hs, (hs = [] \/ hs = [sessionWritable c]) -> forall w1, winv (nothing k B) w1 -> frame w w1 ->
    wp tolerates (run_fds reads writes hs) (fun _ w' => winv (nothing k B) w' /\ frame w w') w1).
  { intros hs [-> | ->] w1 Hw1 Hf1; cbn [run_fds run_fd]; [by wp_step|]. wp_step. eapply wp_mono; [by apply Hwrite|]. intros u w2 ?. by wp_step. }
  destruct error; [cbn [run_fds run_fd]; wp_step; eapply wp_mono; [exact Hread|]; intros u w2 ?; by wp_step|].
  set (ws := if writable && writeEnabled x then _ else _).
  assert (Hws : ws = [] \/ ws = [sessionWritable c]) by (unfold ws; destruct (writable && writeEnabled x); [by right|by left]).
  destruct readable; cbn [app run_fds run_fd]; [|by apply Hseq].
  wp_step. eapply wp_mono; [exact Hread|]. intros _ w2 [? ?]. by apply Hseq.
Qed.
End handlers.
