(* ===== verification/ManagerSends.v ===== *)
(** * The steps of [sendAsync]

    A request between its creation and its place in the submit queue, on the
    thread of its user. *)

From S2P Require Import Prelude Outcome Types Transport RequestContext Std Session SessionFacts.
From S2P Require Import ProtocolSafety Endpoint Reactor ReactorFacts CallbackDispatcher IHttpSession Flow.
From S2P Require Import ManagerState Connection ConnectionManager ManagerSteps ManagerInv ManagerTimers.
From S2P Require Import ManagerRequests ManagerQueues ManagerLinks ManagerConnections ManagerSubmit ManagerEvents ManagerTasks.
Import World ConnectionManager ManagerSteps.

Section sends.
Context {S : Type} `{SessionLaws S} `{HeapOrder} `{!HashOrder EndpointKey} `{!HashOrder Z} {thread : RunsOn} {checks : Checks}.
Implicit Type w : World.t S.

(** ** A new request *)

Definition new_context (p ms : Z) : RequestContext.t := RequestContext.setCancelHandler (RequestContext.init p ms).

Definition creating_only (k : Z) (p : Z) (B : Z -> Z) : Hand := mk_hand k [p] [] [] [] ∅ [] B.

Lemma new_none g w : winv g w -> heap w !! nextRequestId w = None.
Proof.
  intros Hw. apply eq_None_not_Some. intros [c Hc]. destruct (rq_ids _ _ _ _ _ _ (w_requests _ _ Hw) _ _ Hc). lia.
Qed.

Lemma insert_keeps {A} (m : gmap Z A) p c i : is_Some (m !! i) -> is_Some (<[p := c]> m !! i).
Proof. intros Hi. destruct (decide (i = p)) as [->|]; [rewrite lookup_insert_eq; eauto|by rewrite lookup_insert_ne]. Qed.

Lemma new_request_inv k B ms w :
  winv (nothing k B) w ->
  let p := nextRequestId w in
  winv (creating_only k p B) (set_heap (<[p := new_context p ms]> (heap w)) (set_nextRequestId (p + 1) w)).
Proof.
  intros Hw p. pose proof (new_none _ _ Hw) as Hnone. fold p in Hnone. assert (Hp : p = nextRequestId w) by done. clearbody p.
  destruct Hw as [Hrq Hqu Hco Hpt Htm Hdl Hss Hcf].
  assert (Hkeep : forall i, is_Some (heap w !! i) -> is_Some (<[p := new_context p ms]> (heap w) !! i)) by (intros i; apply insert_keeps).
  split; cbn; try done.
  - destruct Hrq as [Hids Hall Hnext Hreg Hctx Hnd Hdone Hdisp]. rewrite <- Hp in *. split; try done.
    + intros i c [[<- <-]|[Hne Hi]]%lookup_insert_Some; [split; [done|lia]|]. destruct (Hids i c Hi). split; [done|lia].
    + intros i Hi. destruct (decide (i = p)) as [->|Hne]; [rewrite lookup_insert_eq; eauto|]. apply Hkeep, Hall. lia.
    + lia.
    + intros i c [[<- <-]|[Hne Hi]]%lookup_insert_Some Hf Hn; [destruct Hn; by apply elem_of_cons; left|].
      apply (Hreg i c Hi Hf). apply not_elem_of_nil.
    + intros i q Hi. destruct (Hctx i q Hi). auto.
    + intros i. rewrite Hdone. split; intros (c & Hc & Hf).
      * exists c. rewrite lookup_insert_ne; [done|]. intros <-. congruence.
      * apply lookup_insert_Some in Hc as [[<- <-]|[Hne Hc]]; [done|eauto].
  - by eapply queues_heap.
  - destruct Htm as [Hok Hready Hrun Hown Huniq Hfresh Hhand Hfired].
    assert (Ho : forall t, t <> timeoutTimer p -> timer_owner (<[p := new_context p ms]> (heap w)) (links w) t = timer_owner (heap w) (links w) t).
    { intros t Ht. destruct t as [i| |]; [|done|done]. cbn. rewrite lookup_insert_ne; [done|congruence]. }
    assert (Hz : timer_owner (<[p := new_context p ms]> (heap w)) (links w) (timeoutTimer p) = Some 0) by (cbn; by rewrite lookup_insert_eq).
    assert (Hne : forall i d t, pending (reactor w) !! i = Some (d, t) -> t <> timeoutTimer p).
    { intros i d t Hi ->. destruct (Hown i d _ Hi) as [Ho' _]. cbn in Ho'. by rewrite Hnone in Ho'. }
    change (timers_inv [] (<[p := new_context p ms]> (heap w)) (links w) (reactor w)). split; try done.
    + intros i d t Hi. rewrite Ho by (by eapply Hne). eauto.
    + intros i d t t' Hi Ho'. destruct (decide (t' = timeoutTimer p)) as [->|Hne'].
      * rewrite Hz in Ho'. injection Ho' as <-. pose proof (pending_positive _ _ _ _ Hok Hi). lia.
      * rewrite Ho in Ho' by done. eauto.
    + intros t i Ho'. destruct (decide (t = timeoutTimer p)) as [->|Hne'].
      * rewrite Hz in Ho'. injection Ho' as <-. pose proof (tk_next _ Hok). lia.
      * rewrite Ho in Ho' by done. eauto.
    + by intros t Ht%elem_of_nil.
  - intros Hready i c. intros [[<- <-]|[Hne Hi]]%lookup_insert_Some Hf Hto; [left; by apply elem_of_cons; left|].
    right. destruct (Hdl Hready i c Hi Hf Hto) as [Hn|?]; [by apply elem_of_nil in Hn|done].
  - by eapply sessions_heap.
Qed.

(** The first call starts the threads. *)
Lemma start_timer_spec k p B opened w :
  winv (creating_only k p B) w ->
  (started w = None -> (forall i, is_Some (heap w !! i) -> i = p) /\ Reactor.running (reactor w) = false /\
     CallbackDispatcher.tasks (callbackDispatcher w) = []) ->
  wp tolerates (startThreadsIfNeeded opened)
    (fun ok w' => winv (creating_only k p B) w' /\ heap w' = heap w /\ contexts w' = contexts w /\ sending w' = sending w /\
       clock w' = clock w /\ closing w' = closing w /\ requestConnections w' = requestConnections w /\ queued w' = queued w /\
       canceling w' = canceling w /\ is_Some (started w') /\ (started w = None -> Reactor.running (reactor w') = ok) /\
       (is_Some (started w) -> reactor w' = reactor w)) w.
Proof.
  intros Hw Hstart. unfold startThreadsIfNeeded. do 2 wp_step. destruct (started w) as [res|] eqn:Hs.
  { wp_step. rewrite Hs. by split_and!. }
  destruct (Hstart eq_refl) as (Hheap & Hrun & Htasks). wp_step. unfold wp at 1, on_dispatcher.
  destruct (CallbackDispatcher.start (callbackDispatcher w)) as [b d] eqn:Hd.
  assert (Hdt : CallbackDispatcher.tasks d = [] /\ (CallbackDispatcher.running d = true)).
  { unfold CallbackDispatcher.start in Hd. destruct (CallbackDispatcher.running (callbackDispatcher w)) eqn:Hr;
      injection Hd as _ <-; split; cbn; done. }
  destruct Hdt as [Hdt Hdr].
  assert (Hdone : forall d', CallbackDispatcher.tasks d' = [] -> done_ids (completions w) d' = done_ids (completions w) (callbackDispatcher w)).
  { intros d' Hd'. unfold done_ids. by rewrite Hd', Htasks. }
  assert (Hrq : forall d', CallbackDispatcher.tasks d' = [] ->
    requests_ok [p] (heap w) (contexts w) (nextRequestId w) d' (completions w)).
  { intros d' Hd'. destruct (w_requests _ _ Hw) as [Hids Hall Hnext Hreg Hctx Hnd Hdn Hdisp]. split; try done; rewrite (Hdone _ Hd'); done. }
  wp_step. unfold wp at 1, on_reactor, Reactor.start. cbn [reactor set_callbackDispatcher]. rewrite Hrun.
  destruct opened; cbn [negb].
  - do 2 wp_step. do 2 wp_step. do 2 wp_step. do 1 wp_step.
    destruct Hw as [_ Hqu Hco Hpt Htm Hdl Hss Hcf]. split; [|by split_and!].
    split; cbn; try done.
    + by apply Hrq.
    + destruct Htm as [[] Hready Hr Hown Huniq Hfresh Hhand Hfired]. split; done.
    + intros _ i c Hi _ _. left. rewrite (Hheap i) by eauto. by apply elem_of_cons; left.
  - wp_step. unfold wp at 1, on_dispatcher. do 3 wp_step. cbn [callbackDispatcher set_callbackDispatcher set_reactor].
    destruct Hw as [_ Hqu Hco Hpt Htm Hdl Hss Hcf]. split; [|by split_and!]. split; cbn; try done. by apply Hrq.
Qed.

(** The new request is finished, or registered and on its way. *)
Lemma created_inv k p B w :
  winv (creating_only k p B) w -> is_finished w p -> winv (nothing k B) w.
Proof.
  intros [Hrq Hqu Hco Hpt Htm Hdl Hss Hcf] (c0 & Hc0 & Hf0). split; try done; cbn in *.
  - destruct Hrq as [Hids Hall Hnext Hreg Hctx Hnd Hdone Hdisp]. split; try done. intros i c Hi Hf _. apply (Hreg i c Hi Hf).
    intros ->%list_elem_of_singleton. congruence.
  - intros Hready i c Hi Hf Hto. destruct (Hdl Hready i c Hi Hf Hto) as [->%list_elem_of_singleton|?]; [congruence|by right].
Qed.

Lemma route_registered_inv k p B c rq ep ms w :
  winv (creating_only k p B) w -> heap w !! p = Some c -> request_fits rq ->
  requestConnections w !! p = None -> Some p ∉ map PendingRequest.context (queued w) ->
  winv (nothing k B) (set_sending (<[p := AtTimer rq ep ms]> (sending w)) (set_contexts (<[p := Some p]> (contexts w)) w)).
Proof.
  intros [Hrq Hqu Hco Hpt Htm Hdl Hss Hcf] Hc Hfits Hrc Hqueued. split; cbn in *; try done.
  - destruct Hrq as [Hids Hall Hnext Hreg Hctx Hnd Hdone Hdisp]. split; try done.
    + intros i e Hi Hf _. destruct (decide (i = p)) as [->|Hne]; [by rewrite lookup_insert_eq|].
      rewrite lookup_insert_ne by done. apply (Hreg i e Hi Hf). by intros ->%list_elem_of_singleton.
    + intros i q [[<- <-]|[Hne Hi]]%lookup_insert_Some; [eauto|eauto].
  - destruct Hqu as [Hq Hn Hs Hsend]. split; try done. intros i s [[<- <-]|[Hne Hi]]%lookup_insert_Some; [|eauto].
    split; [eauto|]. by split_and!.
  - intros Hready i e Hi Hf Hto. right. destruct (decide (i = p)) as [->|Hne]; [left; rewrite lookup_insert_eq; eauto|].
    destruct (Hdl Hready i e Hi Hf Hto) as [->%list_elem_of_singleton|[(r' & ep' & ms' & Hat)|?]]; [done| |by right].
    left. rewrite lookup_insert_ne by done. eauto.
Qed.

(** ** The timeout *)

Definition at_timer w (p : Z) : Prop := exists rq ep ms, sending w !! p = Some (AtTimer rq ep ms).

(** A new bound for one request. *)
Definition bound_at (B : Z -> Z) (p d : Z) : Z -> Z := fun i => if decide (i = p) then d else B i.

(** Moving on changes what [sendAsync] still has to do. *)
Lemma sending_inv k N L P E X T B p s w :
  winv (mk_hand k N L P E X T B) w -> is_Some (heap w !! p) ->
  match s with
  | Some (AtTimer r _ _) | Some (AtEnqueue r _) =>
      request_fits r /\ requestConnections w !! p = None /\ Some p ∉ map PendingRequest.context (L ++ queued w)
  | _ => True
  end ->
  (forall c, heap w !! p = Some c -> RequestContext.finished c = false -> 0 <= RequestContext.TIMEOUT_MS c -> Reactor.ready (reactor w) = true ->
     ~ at_timer w p \/ p ∈ N \/ timeoutTimer p ∈ T \/ timer_due B (clock w) p c (reactor w)) ->
  winv (mk_hand k N L P E X T B)
    (set_sending (match s with Some s => <[p := s]> (sending w) | None => delete p (sending w) end) w).
Proof.
  intros [Hrq [Hq Hn Hs Hsend] Hco Hpt Htm Hdl Hss Hcf] Hp Hst Htimer. split; cbn in *; try done.
  - split; try done. intros i x Hi. destruct s as [s|].
    + apply lookup_insert_Some in Hi as [[<- <-]|[Hne Hi]]; [|eauto]. split; [done|]. by destruct s.
    + apply lookup_delete_Some in Hi as [Hne Hi]. eauto.
  - intros Hready i c Hi Hf Hto. destruct (decide (i = p)) as [->|Hne].
    + destruct (Hdl Hready p c Hi Hf Hto) as [?|[Hat|?]]; [by left| |by do 2 right].
      destruct (Htimer c Hi Hf Hto Hready) as [?|[?|?]]; [done|by left|by do 2 right].
    + destruct (Hdl Hready i c Hi Hf Hto) as [?|[(r' & ep' & ms' & Hat)|?]]; [by left| |by do 2 right].
      right. left. exists r', ep', ms'. destruct s; [by rewrite lookup_insert_ne|by rewrite lookup_delete_ne].
Qed.

(** The timer of a request is scheduled, and its context remembers it. *)
Lemma schedule_timeout_inv k B p c ms w :
  winv (nothing k B) w -> heap w !! p = Some c -> RequestContext.timerId c = 0 ->
  RequestContext.TIMEOUT_MS c = ms -> 0 <= ms -> Reactor.nextTimerId (reactor w) + 1 < 2 ^ 64 -> at_timer w p ->
  let '(i, r) := Reactor.scheduleOnce (clock w) ms (Some (timeoutTimer p)) (reactor w) in
  let B' := bound_at B p (clock w + ms * MILLISECOND) in
  let w' := set_heap (<[p := RequestContext.setTimerId i c]> (heap w)) (set_reactor r w) in
  winv (nothing k B') w' /\ (i = 0 <-> Reactor.running (reactor w) = false) /\
  Reactor.running r = Reactor.running (reactor w) /\
  (Reactor.running (reactor w) = true -> timer_due B' (clock w) p (RequestContext.setTimerId i c) r).
Proof.
  intros Hw Hc Hz Hms Hpos Hnext Hat. pose proof (w_timers _ _ Hw) as Htm.
  assert (Hown : timer_owner (heap w) (links w) (timeoutTimer p) = Some 0) by (cbn; rewrite Hc; cbn; by rewrite Hz).
  pose proof (schedule_rest (clock w) ms (timeoutTimer p) (reactor w)) as Hrest.
  pose proof (fun h' => timers_arm [] (heap w) (links w) h' (links w) (reactor w) (clock w) ms (timeoutTimer p) Htm Hnext
    (not_elem_of_nil _) (owner_zero _ _ _ _ _ Htm Hown)) as Harm.
  destruct (Reactor.scheduleOnce _ _ _ _) as [i r]. destruct Hrest as (Hi & Hrun & Hrd & Htasks & Hfds).
  set (c' := RequestContext.setTimerId i c). set (B' := bound_at _ _ _). cbv zeta.
  destruct (Harm (<[p := c']> (heap w))) as [Htm' Hpend]; [cbn; by rewrite lookup_insert_eq|done| |done|].
  { intros t Hne. destruct t as [j| |]; [|done|done]. cbn. rewrite lookup_insert_ne; [done|congruence]. }
  pose proof (tk_next _ (tm_ok _ _ _ _ Htm)) as Hnp.
  assert (Hpi : Reactor.running (reactor w) = true -> timer_due B' (clock w) p c' r).
  { intros Hr. rewrite Hr in Hpend. exists i, (clock w + Z.max ms 0 * MILLISECOND). rewrite Hpend, lookup_insert_eq. split; [done|].
    unfold B', bound_at. destruct (decide (p = p)); [|done]. cbn. rewrite Hms, Z.max_l by lia. lia. }
  split; [|split; [destruct (Reactor.running (reactor w)); split; intros; (done || lia)|done]].
  assert (Hin : forall j, is_Some (heap w !! j) -> is_Some (<[p := c']> (heap w) !! j)) by (intros j; apply insert_keeps).
  destruct Hw as [Hrq Hqu Hco Hpt _ Hdl Hss Hcf]. split; cbn; unfold unregistered; cbn; rewrite ?Htasks; try done.
  - destruct Hrq as [Hids Hall Hnx Hreg Hctx Hnd Hdone Hdisp]. split; try done.
    + intros j e [[<- <-]|[Hne Hj]]%lookup_insert_Some; [exact (Hids p c Hc)|eauto].
    + auto.
    + intros j e [[<- <-]|[Hne Hj]]%lookup_insert_Some Hf; [exact (Hreg p c Hc Hf)|eauto].
    + intros j q Hj. destruct (Hctx j q Hj). auto.
    + intros j. rewrite Hdone. split; intros (e & He & Hf).
      * destruct (decide (j = p)) as [->|Hne]; [exists c'; rewrite lookup_insert_eq; split; [done|cbn; congruence]|exists e; by rewrite lookup_insert_ne].
      * apply lookup_insert_Some in He as [[<- <-]|[Hne He]]; [by exists c|by exists e].
  - by eapply queues_heap.
  - unfold fd_handlers. cbn. by rewrite Hfds.
  - change (Reactor.ready r = true -> forall j e, <[p := c']> (heap w) !! j = Some e -> RequestContext.finished e = false ->
      0 <= RequestContext.TIMEOUT_MS e -> j ∈ [] \/ at_timer w j \/ timeoutTimer j ∈ [] \/ timer_due B' (clock w) j e r).
    rewrite Hrd. intros Hready j e [[<- <-]|[Hne Hj]]%lookup_insert_Some Hf Hto; [by right; left|].
    destruct (Hdl Hready j e Hj Hf Hto) as [?|[?|[?|(n & d & Hn & Hd)]]]; [by left|by right; left|by do 2 right; left|].
    do 3 right. exists n, d. unfold B', bound_at. destruct (decide (j = p)) as [->|]; [done|]. split; [|done].
    rewrite Hpend. destruct (Reactor.running (reactor w)); [|done]. rewrite lookup_insert_ne; [done|].
    intros ->. pose proof (pending_positive _ _ _ _ (tm_ok _ _ _ _ Htm) Hn). lia.
  - by eapply sessions_heap.
Qed.
End sends.
