(* ===== verification/ManagerRuns.v ===== *)
(** * Runs of a connection manager

    Every step of every thread keeps the invariant, whatever the order of
    the steps. *)

From S2P Require Import Prelude Outcome Types Transport RequestContext Std Session SessionFacts.
From S2P Require Import ProtocolSafety Endpoint Reactor ReactorFacts CallbackDispatcher IHttpSession Flow.
From S2P Require Import ManagerState Connection ConnectionManager ManagerSteps ManagerInv ManagerTimers.
From S2P Require Import ManagerRequests ManagerQueues ManagerLinks ManagerConnections ManagerSubmit ManagerEvents.
From S2P Require Import ManagerPools ManagerTasks ManagerClosing ManagerSends.
Import World ConnectionManager ManagerSteps.

(** What the environment may do: requests and writes are well formed. *)
Definition label_ok (l : label) : Prop :=
  match l with
  | LSend request _ _ _ => request_fits request
  | LFd _ _ _ _ _ writes => writes_ok writes
  | _ => True
  end.
Definition label_bytes (l : label) : Z := match l with LFd _ _ _ _ reads _ => reads_bytes reads | _ => 0 end.

Section runs.
Context {S : Type} `{SessionLaws S} `{HeapOrder} `{!HashOrder EndpointKey} `{!HashOrder Z} {checks : Checks}.
Implicit Type w : World.t S.

(** ** The invariant between steps *)

(** A call of [cancel] past its search has found a request; one that handles
    it itself has been refused by the reactor. *)
Definition cancel_ok w (s : CancelState) : Prop :=
  match s with
  | AtFind _ | Returned _ => True
  | AtCheck _ p | AtMark _ p => is_Some (heap w !! p)
  | AtPostCancel _ => is_Some (started w)
  | AtHandle _ => is_Some (started w) /\ Reactor.running (reactor w) = false
  end.

Lemma cancels_kept w w' :
  Forall (cancel_ok w) (canceling w) -> canceling w' = canceling w ->
  (forall p, is_Some (heap w !! p) -> is_Some (heap w' !! p)) -> (is_Some (started w) -> is_Some (started w')) ->
  (is_Some (started w) -> Reactor.running (reactor w) = false -> Reactor.running (reactor w') = false) ->
  Forall (cancel_ok w') (canceling w').
Proof.
  intros Hw -> Hh Hs Hr. eapply Forall_impl; [exact Hw|]. intros [i|i p|i p|i|i|b]; cbn; auto. intros [? ?]. auto.
Qed.

Record rinv (k : Z) (B : Z -> Z) w : Prop := {
  ri_inv : winv (nothing k B) w;
  ri_start : started w = None -> (forall p, heap w !! p = None) /\ Reactor.running (reactor w) = false;
  ri_sends p rq ep ms c : sending w !! p = Some (AtTimer rq ep ms) -> heap w !! p = Some c ->
    RequestContext.TIMEOUT_MS c = ms /\ RequestContext.timerId c = 0;
  ri_closing : closing w = JoinReactor -> is_Some (started w) /\ Reactor.running (reactor w) = false;
  ri_closed : closing w = Closed -> Reactor.running (reactor w) = false ->
    forall p c, heap w !! p = Some c -> RequestContext.finished c = false -> is_Some (sending w !! p);
  ri_cancels : Forall (cancel_ok w) (canceling w);
}.

(** Later: contexts stay, finished ones stay finished, the bound of a
    deadline is final once its timer has been scheduled. *)
Record later (B : Z -> Z) w (B' : Z -> Z) w' : Prop := {
  lt_heap p c : heap w !! p = Some c -> exists c', heap w' !! p = Some c' /\
    RequestContext.TIMEOUT_MS c' = RequestContext.TIMEOUT_MS c /\
    (RequestContext.finished c = true -> RequestContext.finished c' = true);
  lt_clock : clock w <= clock w';
  lt_sent p : is_Some (heap w !! p) -> ~ at_timer w p -> ~ at_timer w' p /\ B' p = B p;
}.

Lemma later_refl B w : later B w B w.
Proof. split; [|lia|done]. intros p c Hc. by exists c. Qed.

Lemma later_trans B1 w1 B2 w2 B3 w3 : later B1 w1 B2 w2 -> later B2 w2 B3 w3 -> later B1 w1 B3 w3.
Proof.
  intros [Hh1 Hc1 Hs1] [Hh2 Hc2 Hs2]. split; [|lia|].
  - intros p c Hc. destruct (Hh1 p c Hc) as (c' & Hc' & Ht & Hf). destruct (Hh2 p c' Hc') as (c'' & ? & ? & ?).
    exists c''. split_and!; [done|congruence|auto].
  - intros p Hp Hn. destruct (Hs1 p Hp Hn) as [Hn' He]. destruct Hp as [c Hc]. destruct (Hh1 p c Hc) as (c' & Hc' & _).
    destruct (Hs2 p) as [? ?]; [eauto|done|]. split; [done|congruence].
Qed.

(** Most steps leave the calls in progress alone. *)
Lemma rinv_progress k k' B w w' :
  rinv k B w -> winv (nothing k' B) w' -> progress w w' -> rinv k' B w' /\ later B w B w'.
Proof.
  intros [Hw Hstart Hsends Hclosing Hclosed Hcancels] Hw' [Hs [Ha Hb]]. unfold calls in Hs. injection Hs as _ Es _ _ Ek El Esd _ Er _ Ecn.
  split; split; try done.
  - rewrite Es, Er. intros Hn. destruct (Hstart Hn) as [Hh ?]. split; [|done]. intros p.
    apply eq_None_not_Some. intros Hp%Hb. rewrite Hh in Hp. by destruct Hp.
  - rewrite Esd. intros p rq ep ms c' Hp Hc'. destruct (Hb p) as [c Hc]; [eauto|]. destruct (Ha p c Hc) as (c1 & Hc1 & Hca).
    destruct (Hsends p rq ep ms c Hp Hc). assert (c1 = c') as -> by congruence. split; [rewrite (ca_timeout _ _ Hca)|apply (ca_timer _ _ Hca)]; done.
  - rewrite El, Es, Er. done.
  - rewrite El, Er, Esd. intros Hcl Hr p c' Hc' Hf. destruct (Hb p) as [c Hc]; [eauto|]. destruct (Ha p c Hc) as (c1 & Hc1 & Hca).
    apply (Hclosed Hcl Hr p c Hc). destruct (RequestContext.finished c) eqn:Hfc; [|done]. pose proof (ca_finished _ _ Hca Hfc). congruence.
  - apply (cancels_kept w); [done|done| |congruence|congruence]. intros p [c Hc]. destruct (Ha p c Hc) as (c1 & ? & _). by exists c1.
  - intros p c Hc. destruct (Ha p c Hc) as (c1 & Hc1 & Hca). exists c1. split_and!; [done|apply Hca|apply Hca].
  - rewrite Ek. lia.
  - intros p _. unfold at_timer. by rewrite Esd.
Qed.

Lemma wp_progress k k' B (m : st (World.t S) unit) w :
  rinv k B w -> wp tolerates m (fun _ w' => winv (nothing k' B) w' /\ progress w w') w ->
  wp tolerates m (fun _ w' => exists B', rinv k' B' w' /\ later B w B' w') w.
Proof. intros Hw Hm. eapply wp_mono; [exact Hm|]. intros _ w' [? ?]. exists B. by eapply rinv_progress. Qed.

(** ** Tasks *)

Lemma pointers_est X T ls fds rc est est' :
  (forall c, c ∈ est' <-> c ∈ est) -> pointers_ok X T ls fds rc est -> pointers_ok X T ls fds rc est'.
Proof.
  intros He [Hpfd Hsub Hping Hest Hfp Hft]. split; try done.
  - intros fd rh wh Hfd. destruct (Hpfd fd rh wh Hfd) as (c & l & ? & ? & ? & ? & ? & ? & ?). exists c, l. rewrite He. done.
  - intros i c Hi. destruct (Hsub i c Hi) as (l & ? & ? & ?). exists l. rewrite He. done.
  - intros c l. rewrite He. eauto.
  - intros c Hc. rewrite He. auto.
  - intros c Hc. rewrite He. auto.
Qed.

Lemma winv_tasks k N L P E E' X T B r w :
  winv (mk_hand k N L P E X T B) w -> timer_state r = timer_state (reactor w) ->
  Reactor.fdContexts r = Reactor.fdContexts (reactor w) ->
  E' ++ established (Reactor.tasks r) ≡ₚ E ++ established (Reactor.tasks (reactor w)) ->
  winv (mk_hand k N L P E' X T B) (set_reactor r w).
Proof.
  intros [Hrq Hqu Hco Hpt Htm Hdl Hss Hcf] Ht Hfd Hp. destruct (timer_state_same _ _ Ht) as (_ & Hrd & _).
  split; try done.
  - eapply connections_perm; [|exact Hco]. cbn [conns]. unfold unregistered. cbn. rewrite Hp. done.
  - unfold unregistered, fd_handlers in *. cbn in *. rewrite Hfd. eapply pointers_est; [|exact Hpt]. intros c. by rewrite Hp.
  - by eapply timers_state.
  - intros Hready. cbn in Hready. rewrite Hrd in Hready. unfold timer_due. cbn. rewrite (pending_same _ _ Ht). by apply Hdl.
Qed.

Lemma established_app a b : established (a ++ b) = established a ++ established b.
Proof. apply omap_app. Qed.

(** Posting a task, which may carry a connection. *)
Lemma post_run task w :
  let '(posted, r) := Reactor.post (Some task) (reactor w) in
  posted = Reactor.running (reactor w) /\ timer_state r = timer_state (reactor w) /\
  Reactor.fdContexts r = Reactor.fdContexts (reactor w) /\
  Reactor.tasks r = Reactor.tasks (reactor w) ++ (if posted then [task] else []).
Proof.
  unfold Reactor.post. destruct (Reactor.running (reactor w)) eqn:Hr; cbn [negb]; [|by rewrite app_nil_r].
  unfold Reactor.wakeup. by destruct (Reactor.ready (Reactor.set_tasks (Reactor.tasks (reactor w) ++ [task]) (reactor w))).
Qed.

(** Steps that change nothing but the tasks of the reactor. *)
Lemma rinv_reactor k B r w :
  rinv k B w -> winv (nothing k B) (set_reactor r w) -> Reactor.running r = Reactor.running (reactor w) ->
  rinv k B (set_reactor r w) /\ later B w B (set_reactor r w).
Proof.
  intros [Hw Hstart Hsends Hclosing Hclosed Hcancels] Hw' Hr. split; [|split; [|cbn; lia|done]].
  - split; cbn; rewrite ?Hr; try done. apply (cancels_kept w (set_reactor r w)); cbn; rewrite ?Hr; done.
  - intros p c Hc. by exists c.
Qed.

(** ** Cancelling *)

Lemma post_spec k B task w :
  rinv k B w -> established [task] = [] ->
  wp tolerates (on_reactor (fun _ => Reactor.post (Some task)))
    (fun posted w' => posted = Reactor.running (reactor w) /\ rinv k B w' /\ later B w B w' /\ exists r, w' = set_reactor r w /\
       Reactor.running r = Reactor.running (reactor w)) w.
Proof.
  intros Hw He. unfold wp, on_reactor. pose proof (post_run task w) as Hp. destruct (Reactor.post (Some task) (reactor w)) as [posted r].
  destruct Hp as (Hposted & Ht & Hfd & Htasks). destruct (timer_state_same _ _ Ht) as (Hrun & _).
  assert (Hw' : winv (nothing k B) (set_reactor r w)).
  { eapply winv_tasks; [apply Hw|done|done|]. rewrite Htasks, established_app. destruct posted; [rewrite He|]; by rewrite !app_nil_r. }
  destruct (rinv_reactor k B r w Hw Hw' Hrun). split_and!; [done..|]. by exists r.
Qed.

Lemma cancel_same c : same_context c (snd (RequestContext.cancel c)).
Proof.
  unfold RequestContext.cancel. destruct (RequestContext.isFinished c); [done|]. pose proof (mark_same c) as Hm.
  destruct (RequestContext.markCanceled c) as [marked c']. by destruct marked.
Qed.

Lemma rinv_canceling k B v w :
  rinv k B w -> Forall (cancel_ok w) v -> rinv k B (set_canceling v w) /\ later B w B (set_canceling v w).
Proof.
  intros [Hw Hstart Hsends Hclosing Hclosed _] Hv. split; [|split; [|cbn; lia|done]].
  - split; try done. by destruct Hw; split.
  - intros p c Hc. by exists c.
Qed.

Lemma cancel_operation_spec k B p w :
  rinv k B w -> is_Some (heap w !! p) ->
  wp tolerates (cancel_operation p) (fun _ w' => exists B', rinv k B' w' /\ later B w B' w') w.
Proof.
  intros Hw [c Hc]. unfold cancel_operation. wp_step. eapply wp_deref_request; [done|]. cbv beta. pose proof (cancel_same c) as Hsame.
  destruct (RequestContext.cancel c) as [[done handled] c']. cbn [snd] in Hsame.
  assert (Hs : same_heap (heap w) (<[p := c']> (heap w))) by (by eapply same_heap_insert).
  do 2 wp_step. set (w1 := set_heap _ w). assert (Hw1 : winv (nothing k B) w1) by (apply winv_heap; [apply Hw|done]).
  destruct (rinv_progress k k B w w1 Hw Hw1) as [Hr1 Hl1]; [split; [done|by apply same_heap_after]|].
  wp_step. destruct handled.
  - apply wp_modify. destruct (rinv_canceling k B (canceling w1 ++ [AtFind (RequestContext.REQUEST_ID c')]) w1 Hr1) as [Hr2 Hl2].
    { apply Forall_app. split; [apply Hr1|]. by apply Forall_singleton. }
    wp_step. exists B. split; [done|by eapply later_trans].
  - do 2 wp_step. by exists B.
Qed.

(** The faults of a step: those of the reactor's thread, and those of a call
    of [cancel] that handles a request itself. *)
Definition step_fault (l : label) w (f : fault) : Prop :=
  tolerates f \/
  exists n id, l = LCancelStep n /\ canceling w !! n = Some (AtHandle id) /\ Reactor.running (reactor w) = false /\
    (f = not_reactor_thread /\ asserts = true \/ f = data_race /\ races = true /\ racy w = true).

Lemma wp_step_fault {A} l (m : st (World.t S) A) Q w : wp tolerates m Q w -> wp (step_fault l w) m Q w.
Proof. apply wp_weaken. by left. Qed.

Lemma cancel_step_spec k B n w :
  rinv k B w ->
  wp (step_fault (LCancelStep n) w) (cancel_step n) (fun _ w' => exists B', rinv k B' w' /\ later B w B' w') w.
Proof.
  intros Hr. unfold cancel_step. do 2 wp_step. cbv zeta.
  assert (Hnext : forall w1 s, rinv k B w1 -> later B w B w1 -> cancel_ok w1 s ->
    exists B', rinv k B' (set_canceling (<[n := s]> (canceling w1)) w1) /\ later B w B' (set_canceling (<[n := s]> (canceling w1)) w1)).
  { intros w1 s Hr1 Hl1 Hs. exists B. destruct (rinv_canceling k B (<[n := s]> (canceling w1)) w1 Hr1) as [? ?];
      [apply Forall_insert; [apply Hr1|done]|]. split; [done|by eapply later_trans]. }
  destruct (canceling w !! n) as [s|] eqn:Hn; [|wp_step; exists B; split; [done|apply later_refl]].
  pose proof (Forall_lookup_1 _ _ _ _ (ri_cancels _ _ _ Hr) Hn) as Hs.
  assert (Hstarted : forall p, is_Some (heap w !! p) -> is_Some (started w)).
  { intros p Hp. destruct (started w) eqn:Hst; [eauto|]. destruct (ri_start _ _ _ Hr Hst) as [He _]. rewrite He in Hp. by destruct Hp. }
  destruct s as [id|id p|id p|id|id|found]; cbn in Hs; [| | | | |wp_step; exists B; split; [done|apply later_refl]].
  - apply wp_modify. apply Hnext; [done|apply later_refl|]. unfold findContext.
    destruct (contexts w !! id) as [q|] eqn:Hctx; [|done].
    by destruct (rq_contexts _ _ _ _ _ _ (w_requests _ _ (ri_inv _ _ _ Hr)) _ _ Hctx) as [-> ?].
  - destruct Hs as [c Hc]. wp_step. eapply wp_deref_request; [done|]. cbv beta. apply wp_modify. apply Hnext; [done|apply later_refl|].
    case_if; [done|by exists c].
  - apply wp_step_fault. wp_step. eapply wp_mono; [apply update_request_spec; [apply Hr|done|apply mark_same]|]. intros _ w1 (Hw1 & Hc1 & _).
    destruct (rinv_progress _ _ _ _ _ Hr Hw1 (frame_progress _ _ (calm_frame _ _ Hc1))) as [Hr1 Hl1]. apply wp_modify. apply Hnext; [done..|].
    destruct (calm_frame _ _ Hc1) as [Hst _ _]. unfold static in Hst. injection Hst as _ Es _ _ _ _ _ _ _ _ _ _. cbn. rewrite Es. by eapply Hstarted.
  - apply wp_step_fault. wp_step. eapply wp_mono; [by apply post_spec|]. intros posted w1 (Hp & Hr1 & Hl1 & r & -> & Hrun).
    apply wp_modify. apply Hnext; [done..|]. destruct posted; [done|]. split; [done|]. cbn. congruence.
  - destruct Hs as [Hst Hrun]. wp_step. eapply wp_mono; [eapply wp_weaken; [|apply (abort_request_spec (thread := on_other_thread) (nothing k B)); apply Hr]|].
    + intros f [[?|[?|(_ & Ha & ->)]]|(-> & _ & Hra & Hry)]; [by left; left|by left; right; left| |]; right; exists n, id; eauto 10.
    + intros _ w1 (Hw1 & Hf1 & _). destruct (rinv_progress _ _ _ _ _ Hr Hw1 (frame_progress _ _ Hf1)) as [Hr1 Hl1].
      apply wp_modify. by apply Hnext.
Qed.

(** ** The steps of [sendAsync] *)

Lemma send_begin_spec k B request ep ms opened w :
  rinv k B w -> request_fits request ->
  wp tolerates (send_begin request ep ms opened) (fun _ w' => exists B', rinv k B' w' /\ later B w B' w') w.
Proof.
  intros Hr Hfits. pose proof (ri_inv _ _ _ Hr) as Hw. unfold send_begin, fetch_add. do 3 wp_step.
  destruct (nextRequestId w + 1 <? 2 ^ 64) eqn:Hn; [|apply wp_fail; by right; left]. bool_to_prop.
  pose proof (rq_next _ _ _ _ _ _ (w_requests _ _ Hw)) as Hpos. do 3 wp_step. do 2 wp_step. rewrite u64_small by lia.
  pose proof (new_none _ _ Hw) as Hnone. pose proof (new_request_inv k B ms w Hw) as Hw1. cbv zeta in Hw1.
  set (p := nextRequestId w) in *. set (w1 := set_heap _ _) in *.
  wp_step. eapply wp_mono; [apply (start_timer_spec k p B opened w1 Hw1)|].
  { change (started w1) with (started w). intros Hs. destruct (ri_start _ _ _ Hr Hs) as [Hempty Hrun]. split_and!; [|done|].
    - intros i Hi. destruct (decide (i = p)) as [|Hne]; [done|]. unfold w1 in Hi. cbn in Hi. rewrite lookup_insert_ne, Hempty in Hi by done. by destruct Hi.
    - change (CallbackDispatcher.tasks (callbackDispatcher w) = []). destruct (CallbackDispatcher.tasks (callbackDispatcher w)) as [|cb l] eqn:Ht; [done|].
      destruct (proj1 (rq_done _ _ _ _ _ _ (w_requests _ _ Hw) (fst cb))) as (c & Hc & _); [|by rewrite Hempty in Hc].
      unfold done_ids. rewrite Ht. apply elem_of_app. right. by apply elem_of_cons; left. }
  intros ok w2 (Hw2 & Hh2 & Hc2 & Hs2 & Hk2 & Hcl2 & Hrc2 & Hq2 & Hcn2 & Hst2 & Hfirst2 & Hnext2).
  change (heap w1) with (<[p := new_context p ms]> (heap w)) in Hh2. change (contexts w1) with (contexts w) in Hc2.
  change (sending w1) with (sending w) in Hs2. change (clock w1) with (clock w) in Hk2. change (closing w1) with (closing w) in Hcl2.
  change (requestConnections w1) with (requestConnections w) in Hrc2. change (queued w1) with (queued w) in Hq2.
  change (started w1) with (started w) in Hfirst2, Hnext2. change (reactor w1) with (reactor w) in Hnext2.
  assert (Hp2 : heap w2 !! p = Some (new_context p ms)) by (rewrite Hh2; apply lookup_insert_eq).
  assert (Hold : forall i c, heap w !! i = Some c -> i <> p /\ heap w2 !! i = Some c).
  { intros i c Hi. assert (i <> p) by congruence. split; [done|]. rewrite Hh2. by rewrite lookup_insert_ne. }
  assert (Hclosing2 : closing w = JoinReactor -> Reactor.running (reactor w2) = false).
  { intros Hj. destruct (ri_closing _ _ _ Hr Hj) as [Hs Hrun]. by rewrite Hnext2. }
  assert (Hclosed2 : closing w = Closed -> Reactor.running (reactor w2) = false ->
    forall i c, i <> p -> heap w2 !! i = Some c -> RequestContext.finished c = false -> is_Some (sending w !! i)).
  { intros Hcl Hrun i c Hne Hi Hf. rewrite Hh2, lookup_insert_ne in Hi by done. destruct (started w) as [b|] eqn:Hst.
    - apply (ri_closed _ _ _ Hr Hcl) with c; [|done|done]. by rewrite <- Hnext2.
    - destruct (ri_start _ _ _ Hr Hst) as [Hempty _]. by rewrite Hempty in Hi. }
  assert (Hat : forall i, is_Some (heap w !! i) -> ~ at_timer w i -> i <> p /\ ~ at_timer w i /\ B i = B i).
  { intros i [c Hc] ?. by destruct (Hold i c Hc). }
  assert (Hcancels2 : Forall (cancel_ok w2) (canceling w2)).
  { apply (cancels_kept w); [apply Hr|exact Hcn2| |done|].
    - intros i [c Hi]. destruct (Hold i c Hi) as [_ ?]. by exists c.
    - intros Hs. by rewrite Hnext2. }
  destruct ok; cbn [negb].
  - do 2 wp_step. unfold set_state. apply wp_modify. exists B. cbn [sending set_contexts].
    set (w3 := set_sending _ _). split; [|split].
    + assert (Hfree : requestConnections w2 !! p = None /\ Some p ∉ map PendingRequest.context (queued w2)).
      { rewrite Hrc2, Hq2. pose proof (w_queues _ _ Hw) as [Hq _ Hs _]. cbn in Hq. split.
        - apply eq_None_not_Some. intros [c Hc]. destruct (Hs _ _ Hc). congruence.
        - intros (pr & Hpr & Hin)%list_elem_of_fmap. destruct (Hq pr Hin) as (_ & i & Hi & [? Hsome] & _). congruence. }
      destruct Hfree as [Hf1 Hf2]. split.
      * by eapply route_registered_inv.
      * intros Hnst. change (started w2 = None) in Hnst. rewrite Hnst in Hst2. by destruct Hst2.
      * intros i rq' ep' ms' c. change (sending w3) with (<[p := AtTimer request ep ms]> (sending w2)). change (heap w3) with (heap w2).
        intros [[<- [= <- <- <-]]|[Hne Hi]]%lookup_insert_Some Hc; [rewrite Hp2 in Hc; by injection Hc as <-|].
        rewrite Hs2 in Hi. rewrite Hh2, lookup_insert_ne in Hc by done. by eapply (ri_sends _ _ _ Hr).
      * change (closing w3) with (closing w2). rewrite Hcl2. intros Hj. split; [done|auto].
      * change (closing w3) with (closing w2). rewrite Hcl2. intros Hcl Hrun i c Hi Hf. change (sending w3) with (<[p := AtTimer request ep ms]> (sending w2)).
        destruct (decide (i = p)) as [->|Hne]; [rewrite lookup_insert_eq; eauto|]. rewrite lookup_insert_ne by done. rewrite Hs2. by eapply Hclosed2.
      * exact Hcancels2.
    + intros i c Hc. destruct (Hold i c Hc) as [_ Hc']. exists c. done.
    + change (clock w3) with (clock w2). lia.
    + intros i Hi Hn'. destruct (Hat i Hi Hn') as (Hne & Ha & _). split; [|done]. intros (r & e & m & Hr').
      apply Ha. change (sending w3) with (<[p := AtTimer request ep ms]> (sending w2)) in Hr'. rewrite lookup_insert_ne, Hs2 in Hr' by done. by exists r, e, m.
  - eapply wp_mono; [apply completeRequest_spec; [exact Hw2|by eexists]|]. intros _ w3 (Hw3 & Hc3 & _ & _ & Hfin).
    pose proof (calm_frame _ _ Hc3) as Hf3. destruct Hf3 as [Hst3 [Ha3 Hb3] _]. unfold static in Hst3.
    injection Hst3 as _ Es _ _ Ek El Esd _ Er _ _ Ecn. exists B. split; [|split].
    + split; [by eapply created_inv|rewrite Es; intros Hnst; rewrite Hnst in Hst2; by destruct Hst2| | | |].
      * intros i rq' ep' ms' c'. rewrite Esd, Hs2. intros Hi Hc'. destruct (Hb3 i) as [c2 Hc2']; [eauto|]. destruct (Ha3 i c2 Hc2') as (c1 & Hc1 & Hca).
        assert (c1 = c') as -> by congruence. destruct (decide (i = p)) as [->|Hne].
        -- destruct (qu_sending _ _ _ _ (w_queues _ _ Hw) _ _ Hi) as [[? Hbad] _]. congruence.
        -- rewrite Hh2, lookup_insert_ne in Hc2' by done. destruct (ri_sends _ _ _ Hr _ _ _ _ _ Hi Hc2') as [Ht Hz].
           split; [by rewrite (ca_timeout _ _ Hca)|by apply (ca_timer _ _ Hca)].
      * rewrite El, Hcl2, Es, Er. intros Hj. split; [done|auto].
      * rewrite El, Hcl2, Er, Esd, Hs2. intros Hcl Hrun i c' Hi Hf. destruct (Hb3 i) as [c2 Hc2']; [eauto|].
        destruct (Ha3 i c2 Hc2') as (c1 & Hc1 & Hca). assert (c1 = c') as -> by congruence. destruct (decide (i = p)) as [->|Hne].
        -- destruct Hfin as (cf & Hcf & Hff). congruence.
        -- apply (Hclosed2 Hcl Hrun i c2 Hne Hc2'). destruct (RequestContext.finished c2) eqn:Hfc; [|done]. pose proof (ca_finished _ _ Hca Hfc). congruence.
      * apply (cancels_kept w2); [done|done| |congruence|congruence]. intros i [c Hi]. destruct (Ha3 i c Hi) as (c1 & ? & _). by exists c1.
    + intros i c Hc. destruct (Hold i c Hc) as [_ Hc']. destruct (Ha3 i c Hc') as (c1 & Hc1 & Hca). exists c1. split_and!; [done|apply Hca|apply Hca].
    + lia.
    + intros i Hi Hn'. unfold at_timer. rewrite Esd, Hs2. done.
Qed.
(** Moving on: [s] is where the call of request [p] stands next. *)
Definition moved (m : gmap Z SendState) (p : Z) (s : option SendState) : gmap Z SendState :=
  match s with Some s => <[p := s]> m | None => delete p m end.

Lemma moved_lookup m p s q x : moved m p s !! q = Some x -> (q = p /\ s = Some x) \/ (q <> p /\ m !! q = Some x).
Proof.
  destruct s as [s|]; cbn.
  - intros [[<- <-]|[? ?]]%lookup_insert_Some; [by left|by right].
  - intros [? ?]%lookup_delete_Some. by right.
Qed.

Lemma moved_some m p s q : q <> p \/ is_Some s -> is_Some (m !! q) -> is_Some (moved m p s !! q).
Proof.
  intros Hor Hq. destruct s as [s|]; cbn.
  - destruct (decide (q = p)) as [->|]; [rewrite lookup_insert_eq; eauto|by rewrite lookup_insert_ne].
  - destruct Hor as [Hne|[? ?]]; [by rewrite lookup_delete_ne|done].
Qed.

Lemma rinv_moved k B B' p s w w' :
  rinv k B w -> winv (nothing k B') w' -> sending w' = moved (sending w) p s ->
  (forall rq ep ms, s <> Some (AtTimer rq ep ms)) ->
  started w' = started w -> closing w' = closing w -> clock w' = clock w -> canceling w' = canceling w ->
  Reactor.running (reactor w') = Reactor.running (reactor w) ->
  (forall q c, heap w !! q = Some c -> exists c', heap w' !! q = Some c' /\
     RequestContext.TIMEOUT_MS c' = RequestContext.TIMEOUT_MS c /\
     (RequestContext.finished c = true -> RequestContext.finished c' = true) /\
     (q <> p -> RequestContext.timerId c = 0 -> RequestContext.timerId c' = 0)) ->
  (forall q, is_Some (heap w' !! q) -> is_Some (heap w !! q)) ->
  (closing w = Closed -> Reactor.running (reactor w) = false -> s = None -> is_finished w' p) ->
  (forall q, q <> p \/ ~ at_timer w p -> B' q = B q) ->
  is_Some (heap w !! p) ->
  rinv k B' w' /\ later B w B' w'.
Proof.
  intros Hr Hw' Hsend Hs Hst Hcl Hk Hcn Hrun Ha Hb Hclosed HB Hp. split; split.
  - done.
  - rewrite Hst, Hrun. intros Hn. destruct (ri_start _ _ _ Hr Hn) as [Hempty _]. rewrite Hempty in Hp. by destruct Hp.
  - rewrite Hsend. intros q rq ep ms c' Hq Hc'. apply moved_lookup in Hq as [[-> Hq]|[Hne Hq]]; [by destruct (Hs rq ep ms)|].
    destruct (Hb q) as [c Hc]; [eauto|]. destruct (Ha q c Hc) as (c1 & Hc1 & Ht & _ & Hz). assert (c1 = c') as -> by congruence.
    destruct (ri_sends _ _ _ Hr _ _ _ _ _ Hq Hc). split; [congruence|auto].
  - rewrite Hcl, Hst, Hrun. apply (ri_closing _ _ _ Hr).
  - rewrite Hcl, Hrun, Hsend. intros Hc Hrn q c' Hq Hf. destruct (Hb q) as [c Hcq]; [eauto|]. destruct (Ha q c Hcq) as (c1 & Hc1 & _ & Hfin & _).
    assert (c1 = c') as -> by congruence. apply moved_some.
    + destruct (decide (q = p)) as [->|]; [|by left]. destruct s as [s|]; [by right; eexists|].
      destruct (Hclosed Hc Hrn eq_refl) as (cf & Hcf & Hff). congruence.
    + apply (ri_closed _ _ _ Hr Hc Hrn q c Hcq). destruct (RequestContext.finished c); [|done]. rewrite Hfin in Hf; done.
  - apply (cancels_kept w); [apply Hr|done| |congruence|congruence]. intros q [c Hq]. destruct (Ha q c Hq) as (c' & ? & _). by exists c'.
  - intros q c Hq. destruct (Ha q c Hq) as (c' & ? & ? & ? & _). by exists c'.
  - lia.
  - intros q Hq Hn. split.
    + intros (rq & ep & ms & Hat). rewrite Hsend in Hat. apply moved_lookup in Hat as [[-> Hat]|[Hne Hat]]; [by destruct (Hs rq ep ms)|].
      apply Hn. by exists rq, ep, ms.
    + apply HB. destruct (decide (q = p)) as [->|]; [by right|by left].
Qed.

(** The contexts of requests after a completion, for [rinv_moved]. *)
Lemma after_moved h h' p :
  heap_after h h' ->
  (forall q c, h !! q = Some c -> exists c', h' !! q = Some c' /\
     RequestContext.TIMEOUT_MS c' = RequestContext.TIMEOUT_MS c /\
     (RequestContext.finished c = true -> RequestContext.finished c' = true) /\
     (q <> p -> RequestContext.timerId c = 0 -> RequestContext.timerId c' = 0)) /\
  (forall q, is_Some (h' !! q) -> is_Some (h !! q)).
Proof.
  intros [Ha Hb]. split; [|done]. intros q c Hc. destruct (Ha q c Hc) as (c' & Hc' & []). exists c'. by split_and!.
Qed.

Lemma send_timer_spec k B p rq ep ms w :
  rinv k B w -> sending w !! p = Some (AtTimer rq ep ms) ->
  wp tolerates (send_timer p rq ep ms) (fun _ w' => exists B', rinv k B' w' /\ later B w B' w') w.
Proof.
  intros Hr Hsend. pose proof (ri_inv _ _ _ Hr) as Hw.
  destruct (qu_sending _ _ _ _ (w_queues _ _ Hw) _ _ Hsend) as [[c Hc] (Hfits & Hrc & Hqueued)].
  destruct (ri_sends _ _ _ Hr _ _ _ _ _ Hsend Hc) as [Hms Hz]. assert (Hat : at_timer w p) by (by exists rq, ep, ms).
  unfold send_timer. destruct (ms >=? 0) eqn:Hpos.
  2: { unfold set_state. apply wp_modify. exists B. apply (rinv_moved k B B p (Some (AtEnqueue rq ep)) w); try done.
    - apply (sending_inv k [] [] [] [] ∅ [] B p (Some (AtEnqueue rq ep)) w); [done|by eexists|by split_and!|]. intros c' Hc' _ Hto. simplify_eq. rewrite Z.geb_leb in Hpos. bool_to_prop. lia.
    - intros q e He. by exists e. }
  assert (0 <= ms) by (rewrite Z.geb_leb in Hpos; bool_to_prop; lia). unfold schedule. do 3 wp_step.
  destruct (Reactor.nextTimerId (reactor w) + 1 <? 2 ^ 64) eqn:Hn; [|apply wp_fail; by right; left]. bool_to_prop.
  pose proof (schedule_timeout_inv k B p c ms w Hw Hc Hz Hms ltac:(done) Hn Hat) as Hsch. unfold wp at 1, on_reactor.
  destruct (Reactor.scheduleOnce (clock w) ms (Some (timeoutTimer p)) (reactor w)) as [i r]. cbv zeta in Hsch.
  set (B' := bound_at B p (clock w + ms * MILLISECOND)) in *. destruct Hsch as (Hw1 & Hi & Hrun & Hdue).
  assert (HB : forall q, q <> p \/ ~ at_timer w p -> B' q = B q).
  { intros q Hq. unfold B', bound_at. destruct (decide (q = p)) as [->|]; [|done]. tauto. }
  destruct (i =? 0) eqn:Hi0; bool_to_prop.
  - assert (RequestContext.setTimerId i c = c) as Hid by (subst i; destruct c; cbn in *; by subst).
    rewrite Hid, insert_id in Hw1 by done. replace (set_heap (heap w) (set_reactor r w)) with (set_reactor r w) in Hw1 by (by destruct w).
    wp_step. eapply wp_mono; [apply completeRequest_spec; [exact Hw1|by exists c]|]. intros _ w2 (Hw2 & Hc2 & Hrc2 & _ & Hfin).
    pose proof (calm_frame _ _ Hc2) as [Hst2 Ha2 _]. unfold static in Hst2. injection Hst2 as _ Es _ _ Ek El Esd _ Er _ _ Ecn.
    cbn in Es, Ek, El, Esd, Er, Ecn. unfold set_state. apply wp_modify. exists B'.
    destruct (after_moved _ _ p Ha2) as [Hf1 Hf2].
    apply (rinv_moved k B B' p None w); try done.
    + apply (sending_inv k [] [] [] [] ∅ [] B' p None w2 Hw2); [destruct Hfin as (? & ? & _); by eexists|done|].
      destruct Hfin as (cf & Hcf & Hff). intros c' Hc' Hf'. congruence.
    + cbn. by rewrite Esd.
    + cbn. congruence.
  - wp_step. unfold update_request. wp_step. eapply wp_deref_request; [exact Hc|]. cbv beta. apply wp_modify.
    unfold set_state. apply wp_modify. change (heap (set_reactor r w)) with (heap w).
    set (w1 := set_heap _ _) in *. exists B'. apply (rinv_moved k B B' p (Some (AtEnqueue rq ep)) w); try done.
    + apply (sending_inv k [] [] [] [] ∅ [] B' p (Some (AtEnqueue rq ep)) w1 Hw1); [unfold w1; cbn; rewrite lookup_insert_eq; eauto|by split_and!|].
      intros c' Hc' _ _ _. do 3 right. unfold w1 in Hc'. cbn in Hc'. rewrite lookup_insert_eq in Hc'. injection Hc' as <-. apply Hdue.
      destruct (Reactor.running (reactor w)); [done|]. destruct Hi0. by apply Hi.
    + intros q e Hq. destruct (decide (q = p)) as [->|Hne].
      * exists (RequestContext.setTimerId i c). unfold w1. cbn. rewrite lookup_insert_eq. assert (e = c) as -> by congruence. by split_and!.
      * exists e. unfold w1. cbn. rewrite lookup_insert_ne by done. by split_and!.
    + intros q. unfold w1. cbn. by rewrite (insert_some _ _ _ _ q Hc).
Qed.

Lemma send_enqueue_spec k B p rq ep w :
  rinv k B w -> sending w !! p = Some (AtEnqueue rq ep) ->
  wp tolerates (send_enqueue p rq ep) (fun _ w' => exists B', rinv k B' w' /\ later B w B' w') w.
Proof.
  intros Hr Hsend. pose proof (ri_inv _ _ _ Hr) as Hw.
  destruct (qu_sending _ _ _ _ (w_queues _ _ Hw) _ _ Hsend) as [Hp (Hfits & Hrc & Hqueued)].
  unfold send_enqueue. do 2 wp_step. unfold set_state. apply wp_modify. exists B. cbn [sending set_submitQueue requests nothing app] in *.
  set (pr := PendingRequest.mk rq ep (Some p)). set (w' := set_sending _ _).
  apply (rinv_moved k B B p (Some AtPost) w); try done; [|by apply after_moved].
  destruct Hw as [Hrq [Hq Hnd Hs Hsd] Hco Hpt Htm Hdl Hss Hcf]. cbn in Hq, Hnd, Hsd.
  assert (Hperm : queued w' ≡ₚ pr :: queued w).
  { unfold queued. cbn. rewrite <- app_assoc, (Permutation_app_swap_app (submitQueue w)). done. }
  split; try done; cbn [requests nothing app].
  - split.
    + intros x. rewrite Hperm. intros [->|Hx]%elem_of_cons; [|auto]. split; [done|]. by exists p.
    + rewrite Hperm. cbn. apply NoDup_cons. done.
    + done.
    + intros q s Hqs. change (sending w') with (<[p := AtPost]> (sending w)) in Hqs. apply lookup_insert_Some in Hqs as [[<- <-]|[Hne Hqs]]; [done|].
      destruct (Hsd q s Hqs) as [? Hst]. split; [done|]. destruct s; [..|done]; (destruct Hst as (? & ? & Hno); split_and!; [done|done|];
        rewrite Hperm; cbn; intros [[= ->]|?]%elem_of_cons; done).
  - intros Hready q c Hc Hf Hto. destruct (Hdl Hready q c Hc Hf Hto) as [?|[(r' & e' & m' & Hat)|?]]; [by left| |by do 2 right].
    right. left. exists r', e', m'. change (sending w') with (<[p := AtPost]> (sending w)). rewrite lookup_insert_ne; [done|]. intros <-. congruence.
Qed.

Lemma send_post_spec k B p w :
  rinv k B w -> sending w !! p = Some AtPost ->
  wp tolerates (send_post p) (fun _ w' => exists B', rinv k B' w' /\ later B w B' w') w.
Proof.
  intros Hr Hsend. pose proof (ri_inv _ _ _ Hr) as Hw.
  destruct (qu_sending _ _ _ _ (w_queues _ _ Hw) _ _ Hsend) as [Hp _].
  assert (Hnat : ~ at_timer w p) by (intros (r' & e' & m' & Hat); congruence).
  assert (Hmove : forall w2, winv (nothing k B) w2 -> heap_after (heap w) (heap w2) -> sending w2 = sending w -> started w2 = started w ->
    closing w2 = closing w -> clock w2 = clock w -> canceling w2 = canceling w -> Reactor.running (reactor w2) = Reactor.running (reactor w) ->
    (Reactor.running (reactor w) = false -> is_finished w2 p) ->
    exists B', rinv k B' (set_sending (moved (sending w2) p None) w2) /\ later B w B' (set_sending (moved (sending w2) p None) w2)).
  { intros w2 Hw2 Ha2 Esd Es El Ek Ecn Er Hfin. exists B. destruct (after_moved _ _ p Ha2) as [Hf1 Hf2].
    apply (rinv_moved k B B p None w); try done.
    - apply (sending_inv k [] [] [] [] ∅ [] B p None w2 Hw2); [by rewrite (heap_after_is_Some _ _ _ Ha2)|done|].
      intros c _ _ _ _. left. unfold at_timer. by rewrite Esd.
    - cbn. by rewrite Esd.
    - auto. }
  unfold send_post. wp_step. eapply wp_mono; [by apply post_spec|]. intros posted w1 (Hposted & Hr1 & _ & r & -> & Hrun).
  wp_step. destruct posted.
  - wp_step. unfold set_state. apply wp_modify. apply (Hmove (set_reactor r w)); try done; [apply Hr1|congruence].
  - wp_step. eapply wp_mono; [apply removeFromSubmitQueue_spec; apply Hr1|]. intros q w2 (Hq & Hf2 & Hh2 & _).
    assert (Hw2 : winv (nothing k B) w2).
    { destruct q as [q|]; [|exact Hq]. destruct Hq as (pr & _ & _ & Hq). by apply (drop_request k [] pr). }
    eapply wp_mono; [apply completeRequest_spec; [exact Hw2|by rewrite Hh2]|]. intros _ w3 (Hw3 & Hc3 & _ & _ & Hfin).
    assert (Hf3 : frame (set_reactor r w) w3) by (etrans; [exact Hf2|by apply calm_frame]).
    destruct Hf3 as [Hst3 Ha3 _]. unfold static in Hst3. injection Hst3 as _ Es _ _ Ek El Esd _ Er _ _ Ecn.
    cbn in Es, Ek, El, Esd, Er, Ecn. unfold set_state. apply wp_modify. apply (Hmove w3); try done. congruence.
Qed.
End runs.
