(* ===== verification/ManagerThreads.v ===== *)
(** * The other threads

    The steps of the connector, of the reactor's thread, of the dispatcher's
    thread and of [close]; and any run of all of them. *)

From S2P Require Import Prelude Outcome Types Transport RequestContext Std Session SessionFacts.
From S2P Require Import ProtocolSafety Endpoint Reactor ReactorFacts CallbackDispatcher IHttpSession Flow.
From S2P Require Import ManagerState Connection ConnectionManager ManagerSteps ManagerInv ManagerTimers.
From S2P Require Import ManagerRequests ManagerQueues ManagerLinks ManagerConnections ManagerSubmit ManagerEvents.
From S2P Require Import ManagerPools ManagerTasks ManagerClosing ManagerSends ManagerRuns.
Import World ConnectionManager ManagerSteps.

Section threads.
Context {S : Type} `{SessionLaws S} `{HeapOrder} `{!HashOrder EndpointKey} `{!HashOrder Z} {checks : Checks}.
Implicit Type w : World.t S.

(** ** The connector *)

Lemma new_connection_inv k B c ep tids w rest :
  winv (nothing k B) w -> connecting w = c :: tids -> map ConnectTask.connId rest = tids ->
  winv (mk_hand k [] [] [] [c] ∅ [] B)
    (set_connections (<[c := Connection.make c ep (config w)]> (connections w)) (set_connectTasks rest w)).
Proof.
  intros [Hrq Hqu Hco Hpt Htm Hdl [Hk Hss] (Hwf & (Hp1 & Hp2) & Hb)] Htids Hrest.
  set (w' := set_connections _ _). set (conn := Connection.make c ep (config w)).
  assert (Hl : links w' = <[c := link_of conn]> (links w)) by apply fmap_insert.
  pose proof Hco as [Hn Hlv Hnew Hnext Hpos]. cbn [conns nothing] in *. rewrite Htids in *.
  destruct (Hnew c) as [Hnone Hlt]; [by apply elem_of_cons; left|].
  assert (Hold : forall i l, links w !! i = Some l -> i <> c) by (intros i l Hi ->; congruence).
  assert (Hkeep : forall i, i <> c -> <[c := link_of conn]> (links w) !! i = links w !! i) by (intros; by rewrite lookup_insert_ne).
  assert (Hun : unregistered (mk_hand k [] [] [] [c] ∅ [] B) w' = c :: unregistered (nothing k B) w) by done.
  split; rewrite ?Hl, ?Hun; try done.
  - split; cbn [conns app].
    + change (pooled w') with (pooled w). change (connecting w') with (map ConnectTask.connId rest). rewrite Hrest.
      rewrite <- Permutation_middle. cbn. rewrite Permutation_middle, Permutation_middle. done.
    + change (pooled w') with (pooled w). intros i Hi. destruct (decide (i = c)) as [->|Hne]; [rewrite lookup_insert_eq; eauto|].
      rewrite Hkeep by done. apply Hlv. rewrite elem_of_cons in Hi. cbn. tauto.
    + change (connecting w') with (map ConnectTask.connId rest). rewrite Hrest. intros i Hi.
      assert (Hne : i <> c).
      { intros ->. rewrite app_assoc in Hn. apply NoDup_app in Hn as (_ & _ & Hn). apply NoDup_cons in Hn as [Hno _]. done. }
      rewrite Hkeep by done. apply Hnew. by apply elem_of_cons; right.
    + intros i Hi. destruct (decide (i = c)) as [->|Hne]; [done|]. rewrite Hkeep in Hi by done. eauto.
    + done.
  - destruct Hpt as [Hpfd Hsub Hping Hest Hfp Hft]. cbn [lost fired nothing] in *. change (requestConnections w') with (requestConnections w).
    change (fd_handlers w') with (fd_handlers w). split.
    + intros fd rh wh Hfd. destruct (Hpfd fd rh wh Hfd) as (i & l & ? & ? & Hi & ? & ? & ? & ?). exists i, l.
      rewrite Hkeep by (by eapply Hold). split_and!; try done. apply not_elem_of_cons. split; [by eapply Hold|done].
    + intros p i Hi. destruct (Hsub p i Hi) as (l & Hli & ? & ?). exists l. rewrite Hkeep by (by eapply Hold).
      split_and!; try done. apply not_elem_of_cons. split; [by eapply Hold|done].
    + intros i l [[<- <-]|[Hne Hi]]%lookup_insert_Some; [done|eauto].
    + intros i l Hin [[<- <-]|[Hne Hi]]%lookup_insert_Some; [done|]. apply elem_of_cons in Hin as [->|Hin]; [done|eauto].
    + by intros i Hi%elem_of_nil.
    + by intros i Hi%elem_of_nil.
  - destruct Htm as [Hok Hready Hrun Hown Huniq Hfresh Hhand Hfired]. change (reactor w') with (reactor w). change (heap w') with (heap w).
    assert (Hcase : forall t, (timer_owner (heap w) (<[c := link_of conn]> (links w)) t = timer_owner (heap w) (links w) t /\
        (timer_live (links w) t -> timer_live (<[c := link_of conn]> (links w)) t)) \/
      (timer_owner (heap w) (links w) t = None /\ timer_owner (heap w) (<[c := link_of conn]> (links w)) t = Some 0)).
    { intros t. destruct t as [p|i|i]; [by left| |]; (destruct (decide (i = c)) as [->|Hne];
        [right; cbn; by rewrite Hnone, lookup_insert_eq|left; cbn; by rewrite lookup_insert_ne]). }
    cbn [fired nothing] in *. split; try done.
    + intros i d t Hi. destruct (Hown i d t Hi) as [Ho Hlive]. destruct (Hcase t) as [[-> ?]|[? _]]; [auto|congruence].
    + intros i d t t' Hi Ho. destruct (Hcase t') as [[He _]|[_ He]]; rewrite He in Ho; [eauto|].
      injection Ho as <-. pose proof (pending_positive _ _ _ _ Hok Hi). lia.
    + intros t i Ho. destruct (Hcase t) as [[He _]|[_ He]]; rewrite He in Ho; [eauto|].
      injection Ho as <-. pose proof (tk_next _ Hok). lia.
    + by intros t Ht%elem_of_nil.
  - split; [done|]. intros i e Hi. change (<[c := conn]> (connections w) !! i = Some e) in Hi.
    apply lookup_insert_Some in Hi as [[<- <-]|[Hne Hi]]; [|eauto].
    destruct (law_make (config w) k Hwf) as [Hok Hheld]; [cbn in Hk, Hb; lia|]. cbn. rewrite Hheld. split_and!; [done| |done|done].
    by intros q Hq%elem_of_nil.
Qed.

Lemma connect_spec g c created inited conn w :
  winv g w -> c ∈ unregistered g w -> connections w !! c = Some conn -> sess_held (Connection.session conn) = [] ->
  wp tolerates (ConnectionMethods.connect c created inited) (fun _ w' => winv g w' /\ progress w w') w.
Proof.
  intros Hw Hin Hc Hheld. unfold ConnectionMethods.connect. destruct (session_of _ _ _ _ Hw Hc) as (Hk & Hok & _).
  wp_step. eapply wp_through_session; [done|by eapply law_start|]. cbn. intros ok s [Hs Hh].
  destruct (winv_session g w c conn s (bytes_left g) Hw Hc) as (Hw1 & Ht1 & Hl1); [lia|done|by rewrite Hh; intros q Hq%elem_of_nil|].
  rewrite with_bytes_id in Hw1. set (w1 := with_connection _ _ _ _) in *. pose proof (frame_progress _ _ (touches_frame _ _ Ht1)) as Hp1.
  destruct ok; cbn [negb]; [|by wp_step]. set (conn1 := Connection.set_session s conn) in *.
  assert (Hc1 : connections w1 !! c = Some conn1) by apply with_lookup.
  assert (Hin1 : c ∈ unregistered g w1) by done.
  wp_step. eapply wp_connection; [done|]. cbv beta. wp_step. eapply wp_of_run; [by apply update_connection_run|]. cbv beta.
  set (conn2 := Connection.set_sessionFd _ conn1).
  destruct (give_up_inv g c conn1 conn2 w1 Hw1 Hin1 Hc1) as [Hw2 Hu2]; [by split|done..|].
  set (w2 := with_connection c conn2 (reactor w1) w1) in *. assert (Hp2 : progress w1 w2) by (by split).
  apply wp_if; intros _.
  - wp_step. eapply (session_spec g c conn2 w2 _ _ (fun _ => []) (fun _ => True)); [done|apply with_lookup| |].
    + destruct (session_of _ _ _ _ Hw2 (with_lookup _ _ _ _)) as (_ & Hok2 & _). eapply wp_mono; [by eapply law_close|].
      intros evs s' (? & _ & Hsub). split_and!; [done|done|]. intros x Hx. apply Hsub. apply elem_of_app. by right.
    + intros evs w3 _ Hw3 Ht3 _ _. wp_step. split; [done|]. etrans; [exact Hp1|]. etrans; [exact Hp2|]. apply frame_progress. by apply touches_frame.
  - wp_step. eapply wp_of_run; [apply update_connection_run, with_lookup|]. cbv beta.
    set (conn3 := Connection.set_connected true conn2). assert (Hin2 : c ∈ unregistered g w2) by (by rewrite Hu2).
    destruct (give_up_inv g c conn2 conn3 w2 Hw2 Hin2 (with_lookup _ _ _ _)) as [Hw3 _]; [by split|done..|].
    wp_step. split; [done|]. etrans; [exact Hp1|]. etrans; [exact Hp2|]. by split.
Qed.

Lemma reactor_progress w r : timer_state r = timer_state (reactor w) -> progress w (set_reactor r w).
Proof. intros Ht. destruct (timer_state_same _ _ Ht) as (Hrun & Hrd & _). split; [|done]. unfold calls. cbn. by rewrite Hrun, Hrd. Qed.

(** A connection that could not be handed over is destroyed. *)
Lemma destroy_new_inv k B c w :
  winv (mk_hand k [] [] [] [c] ∅ [] B) w -> winv (nothing k B) (set_connections (foldr delete (connections w) [c]) w).
Proof.
  intros Hw. apply (destroyed_inv k [] [] [] [c] ∅ B [] [] [c] [] w Hw); try done.
  - by intros i l Hi%elem_of_nil.
  - intros i d _. apply not_elem_of_nil.
Qed.

Lemma connector_step_spec k B task rest created inited w :
  rinv k B w -> connectTasks w = task :: rest ->
  wp tolerates (modify (set_connectTasks rest) ;;; connector_step task created inited)
    (fun _ w' => exists B', rinv k B' w' /\ later B w B' w') w.
Proof.
  intros Hr Htasks. pose proof (ri_inv _ _ _ Hr) as Hw. set (c := ConnectTask.connId task).
  do 2 wp_step. unfold connector_step. do 2 wp_step. fold c.
  assert (Hw1 : winv (mk_hand k [] [] [] [c] ∅ [] B)
    (set_connections (<[c := Connection.make c (ConnectTask.endpoint task) (config w)]> (connections w)) (set_connectTasks rest w))).
  { apply (new_connection_inv k B c _ (map ConnectTask.connId rest)); [done|unfold connecting; by rewrite Htasks|done]. }
  change (World.config (set_connectTasks rest w)) with (config w). change (World.connections (set_connectTasks rest w)) with (connections w).
  set (w1 := set_connections _ _) in *. assert (Hp1 : progress w w1) by (by split).
  wp_step. eapply wp_mono; [eapply (connect_spec _ c); [exact Hw1|by apply elem_of_cons; left|apply lookup_insert_eq|]|].
  { destruct (w_config _ _ Hw) as (Hwf & _ & Hb). destruct (w_sessions _ _ Hw) as [Hk _].
    destruct (law_make (config w) k Hwf) as [_ Hheld]; [cbn in *; lia|]. exact Hheld. }
  intros ok w2 [Hw2 Hp2]. assert (Hp12 : progress w w2) by (by etrans).
  assert (Hdone : forall w3, winv (nothing k B) w3 -> progress w2 w3 -> exists B', rinv k B' w3 /\ later B w B' w3).
  { intros w3 Hw3 Hp3. exists B. eapply rinv_progress; [exact Hr|exact Hw3|by etrans]. }
  destruct ok.
  - wp_step. unfold wp at 1, on_reactor. pose proof (post_run (establishedTask (ConnectTask.endpoint task) c) w2) as Hpost.
    destruct (Reactor.post (Some (establishedTask (ConnectTask.endpoint task) c)) (reactor w2)) as [posted r].
    destruct Hpost as (Hposted & Ht & Hfd & Htk). pose proof (reactor_progress w2 r Ht) as Hp3. destruct posted.
    + wp_step. apply Hdone; [|done]. eapply winv_tasks; [exact Hw2|done|done|].
      rewrite Htk, established_app. cbn. by rewrite <- Permutation_cons_append.
    + apply wp_modify. apply Hdone; [|etrans; [exact Hp3|by split]]. apply destroy_new_inv.
      eapply winv_tasks; [exact Hw2|done|done|]. by rewrite Htk, app_nil_r.
  - wp_step. unfold destroy_all. wp_step. set (w3 := set_connections _ w2).
    assert (Hw3 : winv (nothing k B) w3) by (by apply destroy_new_inv). wp_step. unfold wp at 1, on_reactor.
    pose proof (post_run (failedTask (ConnectTask.endpoint task)) w3) as Hpost.
    destruct (Reactor.post (Some (failedTask (ConnectTask.endpoint task))) (reactor w3)) as [posted r].
    destruct Hpost as (Hposted & Ht & Hfd & Htk). wp_step. apply Hdone.
    + eapply winv_tasks; [exact Hw3|done|done|]. rewrite Htk, established_app. destruct posted; by rewrite app_nil_r.
    + etrans; [|by apply reactor_progress]. by split.
Qed.
(** ** The reactor's thread *)

Lemma run_task_spec k B t rest added w :
  winv (nothing k B) w -> Reactor.tasks (reactor w) = t :: rest ->
  let w1 := set_reactor (Reactor.set_tasks rest (reactor w)) w in
  wp tolerates (run_task t added) (fun _ w' => winv (nothing k B) w' /\ progress w w') w1.
Proof.
  intros Hw Htasks w1.
  assert (Hw1 : forall E, E ++ established rest ≡ₚ established (t :: rest) -> winv (mk_hand k [] [] [] E ∅ [] B) w1).
  { intros E HE. eapply winv_tasks; [exact Hw|done|done|]. cbn [Reactor.tasks Reactor.set_tasks app]. by rewrite Htasks. }
  assert (Hlift : forall m, wp tolerates m (fun _ w' => winv (nothing k B) w' /\ progress w1 w') w1 ->
    wp tolerates m (fun (_ : unit) w' => winv (nothing k B) w' /\ progress w w') w1).
  { intros m Hm. eapply wp_mono; [exact Hm|]. intros _ w' [? ?]. split; [done|]. etrans; [|done]. by apply reactor_progress. }
  apply Hlift. destruct t as [|id| |ep c|ep]; cbn [run_task].
  - apply drainSubmitQueue_spec. by apply Hw1.
  - eapply wp_mono; [apply (abort_on_reactor_spec (nothing k B)); by apply Hw1|]. intros _ w' (? & ? & _). split; [done|by apply frame_progress].
  - apply managerClose_spec. by apply Hw1.
  - apply onConnectionEstablished_spec. by apply Hw1.
  - apply onConnectionFailed_spec. by apply Hw1.
Qed.

(** Due timers come to hand. *)
Lemma fire_inv k B w :
  winv (nothing k B) w -> Reactor.ready (reactor w) = true ->
  let '(T, r) := Reactor.fireDueTimers (clock w) (reactor w) in
  winv (mk_hand k [] [] [] [] ∅ T B) (set_reactor r w) /\ progress w (set_reactor r w) /\
  (forall t, t ∈ T <-> exists i d, pending (reactor w) !! i = Some (d, t) /\ d <= clock w).
Proof.
  intros Hw Hready. pose proof (timers_fire _ _ _ (clock w) (w_timers _ _ Hw) Hready) as Hf.
  destruct (Reactor.fireDueTimers (clock w) (reactor w)) as [T r]. destruct Hf as (Htm' & Hrest & Hpend & HT).
  destruct (rest_same _ _ Hrest) as (Hrun & Hrd & Htasks & Hnext & Hfds).
  split; [|split; [|done]]; [|split; [|done]; unfold calls; cbn; by rewrite Hrun, Hrd].
  destruct Hw as [Hrq Hqu Hco Hpt Htm Hdl Hss Hcf]. cbn [nothing fired lost creating due_by] in *.
  assert (Hposs : forall t, t ∈ T -> exists i, 1 <= i /\ timer_owner (heap w) (links w) t = Some i).
  { intros t Ht. apply HT in Ht as (i & d & Hi & _). exists i. split; [by apply (pending_positive _ _ _ _ (tm_ok _ _ _ _ Htm) Hi)|].
    by apply (tm_owner _ _ _ _ Htm _ _ _ Hi). }
  split; cbn [fired lost creating due_by]; unfold unregistered, fd_handlers; cbn [reactor set_reactor]; rewrite ?Htasks, ?Hfds; try done.
  - destruct Hpt as [Hpfd Hsub Hping Hest Hfp Hft]. change (links (set_reactor r w)) with (links w). split; try done.
    + intros c Hc. destruct (Hposs _ Hc) as (i & Hi & Ho). cbn in Ho. destruct (links w !! c) as [l|] eqn:Hl; [|done]. injection Ho as Ho.
      assert (Hpp : l_pinging l = false) by (destruct (l_pinging l) eqn:Hp; [destruct (Hping c l Hl) as [Hz _]; specialize (Hz Hp); lia|done]).
      split_and!.
      * intros Hin. destruct (Hest c l Hin Hl). lia.
      * intros Ht. destruct (Hposs _ Ht) as (j & Hj & Hoj). cbn in Hoj. rewrite Hl in Hoj. injection Hoj as Hoj.
        destruct (Hping c l Hl) as [_ Hz]. specialize (Hz Hpp). lia.
      * congruence.
    + intros c Hc. destruct (Hposs _ Hc) as (i & Hi & Ho). cbn in Ho. destruct (links w !! c) as [l|] eqn:Hl; [|done]. injection Ho as Ho.
      intros Hin. destruct (Hest c l Hin Hl) as [Hpp _]. destruct (Hping c l Hl) as [_ Hz]. specialize (Hz Hpp). lia.
  - intros _ p c Hc Hfin Hto. destruct (Hdl Hready p c Hc Hfin Hto) as [?|[?|[Hn|(i & d & Hi & Hd)]]]; [by left|by right; left|by apply elem_of_nil in Hn|].
    do 2 right. destruct (decide (d <= clock w)).
    + left. apply HT. eauto.
    + right. exists i, d. split; [|done]. cbn. rewrite Hpend, map_lookup_filter_Some. split; [done|]. cbn. lia.
Qed.

Lemma timers_spec k B w :
  winv (nothing k B) w -> Reactor.ready (reactor w) = true ->
  wp tolerates (handlers <- on_reactor Reactor.fireDueTimers ;; run_timers handlers)
    (fun _ w' => winv (nothing k B) w' /\ progress w w' /\
       forall p, (exists i d, pending (reactor w) !! i = Some (d, timeoutTimer p) /\ d <= clock w) -> is_finished w' p) w.
Proof.
  intros Hw Hready. pose proof (fire_inv k B w Hw Hready) as Hf. wp_step. unfold wp at 1, on_reactor.
  destruct (Reactor.fireDueTimers (clock w) (reactor w)) as [T r]. destruct Hf as (Hw1 & Hp1 & HT).
  eapply wp_mono; [by apply run_timers_spec|]. intros _ w' (Hw' & Hf' & Hfin). split_and!; [done| |].
  - etrans; [exact Hp1|by apply frame_progress].
  - intros p Hp. apply Hfin. by apply HT.
Qed.

(** ** Small steps *)

(** Steps that leave the requests alone. *)
Lemma rinv_same k B w w' :
  rinv k B w -> winv (nothing k B) w' -> heap w' = heap w -> sending w' = sending w -> started w' = started w ->
  clock w <= clock w' -> (Reactor.running (reactor w) = false -> Reactor.running (reactor w') = false) ->
  canceling w' = canceling w -> (closing w' = JoinReactor -> is_Some (started w) /\ Reactor.running (reactor w') = false) ->
  (closing w' = Closed -> closing w = Closed /\ Reactor.running (reactor w') = Reactor.running (reactor w)) ->
  exists B', rinv k B' w' /\ later B w B' w'.
Proof.
  intros Hr Hw' Hh Hs Hst Hk Hrun Hcn Hj Hc. exists B. split; split; rewrite ?Hst, ?Hs, ?Hh; try done.
  - intros Hn. destruct (ri_start _ _ _ Hr Hn). auto.
  - apply Hr.
  - intros Hcl Hrn. destruct (Hc Hcl) as [Hcl' He]. apply (ri_closed _ _ _ Hr Hcl'). congruence.
  - apply (cancels_kept w); [apply Hr|done|by rewrite Hh|by rewrite Hst|auto].
  - intros p c Hp. by exists c.
  - intros p Hp Hn. split; [|done]. unfold at_timer. by rewrite Hs.
Qed.

Lemma callback_spec k B w :
  rinv k B w ->
  wp tolerates (cb <- on_dispatcher CallbackDispatcher.take_task ;; match cb with Some cb => invokeCompletion cb | None => ret tt end)
    (fun _ w' => exists B', rinv k B' w' /\ later B w B' w') w.
Proof.
  intros Hr. pose proof (ri_inv _ _ _ Hr) as Hw. wp_step. unfold wp at 1, on_dispatcher, CallbackDispatcher.take_task.
  destruct (CallbackDispatcher.tasks (callbackDispatcher w)) as [|cb rest] eqn:Ht.
  - wp_step. replace (set_callbackDispatcher (callbackDispatcher w) w) with w by (by destruct w). exists B. split; [done|apply later_refl].
  - unfold invokeCompletion. apply wp_modify. eapply rinv_same; try done.
    + destruct Hw as [Hrq Hqu Hco Hpt Htm Hdl Hss Hcf]. split; try done. cbn.
      destruct Hrq as [Hids Hall Hnext Hreg Hctx Hnd Hdone Hdisp].
      assert (Heq : done_ids (completions w ++ [cb]) (CallbackDispatcher.mk (CallbackDispatcher.running (callbackDispatcher w))
        (CallbackDispatcher.stopRequested (callbackDispatcher w)) rest) = done_ids (completions w) (callbackDispatcher w)).
      { unfold done_ids. cbn. by rewrite Ht, map_app, <- app_assoc. }
      split; try done; rewrite ?Heq; try done. cbn. intros Hrun. specialize (Hdisp Hrun). congruence.
    + apply Hr.
Qed.

Lemma tick_inv k B w elapsed : winv (nothing k B) w -> 0 <= elapsed -> winv (nothing k B) (set_clock (clock w + elapsed) w).
Proof.
  intros [Hrq Hqu Hco Hpt Htm Hdl Hss Hcf] He. split; try done. intros Hready p c Hc Hf Hto.
  destruct (Hdl Hready p c Hc Hf Hto) as [?|[?|[?|(i & d & Hi & Hd)]]]; [by left|by right; left|by do 2 right; left|].
  do 3 right. exists i, d. split; [done|]. destruct Hd. split; [done|].
  change (clock (set_clock _ w)) with (clock w + elapsed). lia.
Qed.

(** ** Closing *)

Lemma stop_request_inv k B w :
  winv (nothing k B) w -> winv (nothing k B) (set_reactor (Reactor.stop_request (reactor w)) w).
Proof.
  intros [Hrq Hqu Hco Hpt Htm Hdl Hss Hcf]. unfold Reactor.stop_request. destruct (Reactor.running (reactor w)) eqn:Hr; [|by destruct w].
  unfold Reactor.wakeup. destruct (Reactor.ready (Reactor.set_running false (reactor w))) eqn:Hrd;
    (split; try done; destruct Htm as [[] Hready Hrun Hown Huniq Hfresh Hhand Hfired]; split; done).
Qed.

Lemma stop_joined_inv k B w :
  winv (nothing k B) w -> Reactor.tasks (reactor w) = [] -> Reactor.running (reactor w) = false ->
  winv (nothing k B) (set_reactor (Reactor.stop_joined (reactor w)) w).
Proof.
  intros [Hrq Hqu Hco Hpt Htm Hdl Hss Hcf] Htasks Hrun. split; try done.
  - unfold unregistered in *. cbn. by rewrite Htasks in Hco.
  - unfold unregistered in *. cbn. rewrite Htasks in Hpt. destruct Hpt as [Hpfd Hsub Hping Hest Hfp Hft]. split; try done.
  - destruct Htm as [Hok Hready _ Hown Huniq Hfresh Hhand Hfired].
    assert (Hp : pending (Reactor.stop_joined (reactor w)) = ∅) by done.
    split; rewrite ?Hp; try done.
    + split; [|by intros x Hx%elem_of_nil|apply Hok]. split; [constructor|constructor|].
      intros i. split; [by intros []%is_Some_None|by intros ?%elem_of_nil].
    + cbn. congruence.
    + by intros t Ht%elem_of_nil.
Qed.

Lemma dispatcher_inv k B d w :
  winv (nothing k B) w -> CallbackDispatcher.tasks d = CallbackDispatcher.tasks (callbackDispatcher w) ->
  (CallbackDispatcher.running d = false -> CallbackDispatcher.tasks d = []) -> winv (nothing k B) (set_callbackDispatcher d w).
Proof.
  intros [Hrq Hqu Hco Hpt Htm Hdl Hss Hcf] Ht Hd. split; try done. cbn.
  destruct Hrq as [Hids Hall Hnext Hreg Hctx Hnd Hdone Hdisp].
  assert (Heq : done_ids (completions w) d = done_ids (completions w) (callbackDispatcher w)) by (unfold done_ids; by rewrite Ht).
  split; rewrite ?Heq; done.
Qed.

Lemma winv_closing g v w : winv g w -> winv g (set_closing v w).
Proof. intros []. by split. Qed.

Lemma close_step_spec k B w :
  rinv k B w -> close_enabled w = true ->
  wp tolerates close_step (fun _ w' => exists B', rinv k B' w' /\ later B w B' w') w.
Proof.
  intros Hr Hen. pose proof (ri_inv _ _ _ Hr) as Hw. unfold close_step, close_enabled in *. do 2 wp_step.
  assert (Hsame : forall r d w', w' = set_reactor r (set_callbackDispatcher d w) -> winv (nothing k B) w' -> forall v, v <> Closed ->
    (Reactor.running (reactor w) = false -> Reactor.running r = false) ->
    (v = JoinReactor -> is_Some (started w) /\ Reactor.running r = false) ->
    exists B', rinv k B' (set_closing v w') /\ later B w B' (set_closing v w')).
  { intros r d w' -> Hw' v Hv Hrun Hj. eapply rinv_same; try done. by apply winv_closing. }
  assert (Heta : set_reactor (reactor w) (set_callbackDispatcher (callbackDispatcher w) w) = w) by (by destruct w).
  assert (Hplain : forall v, v <> Closed -> v <> JoinReactor -> exists B', rinv k B' (set_closing v w) /\ later B w B' (set_closing v w)).
  { intros v Hv1 Hv2. by apply (Hsame (reactor w) (callbackDispatcher w) w). }
  destruct (closing w) eqn:Hcl.
  - do 2 wp_step. apply wp_modify. eapply rinv_same; try done. by destruct Hw; split.
  - apply wp_modify. by apply Hplain.
  - wp_step. destruct (Reactor.isRunning (reactor w)).
    + wp_step. eapply wp_mono; [by apply post_spec|]. intros posted w1 (_ & Hr1 & Hl1 & r & -> & Hrun). wp_step. apply wp_modify.
      apply (Hsame r (callbackDispatcher w)); [by destruct w|apply Hr1|done|congruence|done].
    + wp_step. apply wp_modify. by apply Hplain.
  - destruct (Reactor.isRunning (reactor w)) eqn:Hrun; unfold Reactor.isRunning in Hrun; [|apply wp_modify; by apply Hplain].
    wp_step. unfold wp at 1, on_reactor. apply wp_modify.
    assert (Hst : Reactor.running (Reactor.stop_request (reactor w)) = false).
    { unfold Reactor.stop_request. rewrite Hrun. unfold Reactor.wakeup. by destruct (Reactor.ready (Reactor.set_running false (reactor w))). }
    apply (Hsame (Reactor.stop_request (reactor w)) (callbackDispatcher w)); [by destruct w|by apply stop_request_inv|done|done|].
    intros _. split; [|done]. destruct (started w) eqn:Hs; [eauto|]. destruct (ri_start _ _ _ Hr Hs). congruence.
  - destruct (ri_closing _ _ _ Hr Hcl) as [Hs Hrun]. wp_step. unfold wp at 1, on_reactor. apply wp_modify.
    apply (Hsame (Reactor.stop_joined (reactor w)) (callbackDispatcher w)); [by destruct w| |done|done|done].
    apply stop_joined_inv; [done| |done]. by destruct (Reactor.tasks (reactor w)).
  - destruct (CallbackDispatcher.isRunning (callbackDispatcher w)) eqn:Hrun; [|apply wp_modify; by apply Hplain].
    wp_step. unfold wp at 1, on_dispatcher. apply wp_modify. unfold CallbackDispatcher.isRunning in Hrun.
    apply (Hsame (reactor w) (CallbackDispatcher.stop_request (callbackDispatcher w))); [by destruct w| |done|done|done].
    unfold CallbackDispatcher.stop_request. rewrite Hrun. by apply dispatcher_inv.
  - wp_step. unfold wp at 1, on_dispatcher. apply wp_modify.
    apply (Hsame (reactor w) (CallbackDispatcher.stop_joined (callbackDispatcher w))); [by destruct w| |done|done|done].
    apply dispatcher_inv; [done| |done]. unfold CallbackDispatcher.loop_ends in Hen. apply andb_true_iff in Hen as [_ Hen].
    cbn. by destruct (CallbackDispatcher.tasks (callbackDispatcher w)).
  - wp_step. eapply wp_mono; [by apply failQueuedRequests_spec|]. intros _ w1 [Hw1 Hp1].
    destruct (rinv_progress _ _ _ _ _ Hr Hw1 Hp1) as [Hr1 Hl1]. apply wp_modify.
    destruct (rinv_same k B w1 (set_closing FailContexts w1) Hr1) as (B' & Hr2 & Hl2); try done; [by apply winv_closing|].
    exists B'. split; [done|by eapply later_trans].
  - wp_step. eapply wp_mono; [by apply failAllContexts_spec|]. intros _ w1 (Hw1 & Hp1 & Hall).
    destruct (rinv_progress _ _ _ _ _ Hr Hw1 Hp1) as [Hr1 Hl1]. apply wp_modify. exists B. destruct Hr1 as [_ Hs1 Hs2 Hs3 Hs4 Hs5].
    split; [split; try done; [by apply winv_closing|]|].
    + intros _ _ p c Hc Hf. destruct (pg_heap _ _ Hp1) as [_ Hback]. destruct (Hall p) as (c' & Hc' & Hf'); [apply Hback; by exists c|].
      cbn in Hc. congruence.
    + destruct Hl1 as [Hlh Hlk Hls]. by split.
  - do 2 wp_step. apply wp_modify. eapply rinv_same; try done. by destruct Hw; split.
Qed.

(** ** Any step, any run *)

Lemma rinv_bytes k k' B w : rinv k B w -> 0 <= k' <= k -> rinv k' B w.
Proof. intros [Hw ? ? ? ? ?] Hk. split; try done. by apply (winv_bytes (nothing k B) k'). Qed.

Lemma label_bytes_nonneg l : 0 <= label_bytes l.
Proof. destruct l; cbn; try lia. apply reads_bytes_nonneg. Qed.

Lemma step_spec k B l w :
  rinv (k + label_bytes l) B w -> 0 <= k -> label_ok l -> enabled l w = true ->
  wp (step_fault l w) (step l) (fun _ w' => exists B', rinv k B' w' /\ later B w B' w') w.
Proof.
  intros Hr Hk Hok Hen. pose proof (label_bytes_nonneg l).
  assert (Hr0 : rinv k B w) by (eapply rinv_bytes; [done|lia]). pose proof (ri_inv _ _ _ Hr0) as Hw. unfold step. do 2 wp_step.
  assert (Hcs : forall n, l = LCancelStep n ->
    wp (step_fault l w) (cancel_step n) (fun _ w' => exists B', rinv k B' w' /\ later B w B' w') w)
    by (intros n ->; by apply cancel_step_spec).
  destruct l as [request ep ms opened|id|id|id|p|n|created inited| |added| |fd readable writable error reads writes| |elapsed|]; cbn in Hok, Hen.
  all: try (by apply Hcs); apply wp_step_fault.
  - by apply send_begin_spec.
  - destruct (sending w !! id) as [[rq ep ms| |]|] eqn:Hs; try done. by apply send_timer_spec.
  - destruct (sending w !! id) as [[|rq ep|]|] eqn:Hs; try done. by apply send_enqueue_spec.
  - destruct (sending w !! id) as [[| |]|] eqn:Hs; try done. by apply send_post_spec.
  - wp_step. eapply wp_mono; [apply (cancel_operation_spec k B); [done|by destruct (heap w !! p)]|]. intros b w' Hx. by wp_step.
  - destruct (connectTasks w) as [|task rest] eqn:Ht; [by rewrite andb_false_r in Hen|]. by apply connector_step_spec.
  - apply wp_modify. eapply rinv_same; try done; [by destruct Hw; split|apply Hr0].
  - apply andb_true_iff in Hen as [_ Hen]. wp_step. unfold wp at 1, on_reactor, Reactor.take_task.
    destruct (Reactor.tasks (reactor w)) as [|t rest] eqn:Ht; [done|].
    eapply wp_mono; [by apply (run_task_spec k B)|]. intros _ w' [? ?]. exists B. by eapply rinv_progress.
  - eapply wp_progress; [exact Hr0|]. eapply wp_mono; [by apply timers_spec|]. by intros _ w' (? & ? & _).
  - eapply wp_progress; [exact Hr|]. eapply wp_mono; [apply run_fds_spec; [apply Hr|done|done]|].
    intros _ w' [? ?]. split; [done|by apply frame_progress].
  - by apply callback_spec.
  - apply wp_modify. assert (0 <= elapsed) by (rewrite Z.geb_leb in Hen; bool_to_prop; lia).
    eapply rinv_same; try done; [by apply tick_inv|cbn; lia|apply Hr0].
  - by apply close_step_spec.
Qed.

Definition labels_bytes (ls : list label) : Z := fold_right Z.add 0 (map label_bytes ls).

Lemma labels_bytes_nonneg ls : 0 <= labels_bytes ls.
Proof.
  induction ls as [|l ls IH]; [done|]. change (0 <= label_bytes l + labels_bytes ls). pose proof (label_bytes_nonneg l). lia.
Qed.

(** A run that faults has a first step that does. *)
Lemma run_fault ls w f :
  run ls w = Fault f ->
  exists ls1 l ls2 w1, ls = ls1 ++ l :: ls2 /\ run ls1 w = Ok (tt, w1) /\ enabled l w1 = true /\ step l w1 = Fault f.
Proof.
  revert w. induction ls as [|l ls IH]; intros w; cbn [run]; [done|]. unfold bind at 1, get at 1, bind at 1.
  destruct ((if enabled l w then step l else ret tt) w) as [[[] w1]|f'] eqn:Hone.
  - intros Hrun. destruct (IH w1 Hrun) as (ls1 & l1 & ls2 & w2 & -> & Hrun1 & ? & ?). exists (l :: ls1), l1, ls2, w2.
    split; [done|]. split; [|done]. cbn [run]. unfold bind at 1, get at 1, bind at 1. by rewrite Hone.
  - intros [= ->]. destruct (enabled l w) eqn:Hen; [|done]. exists [], l, ls, w. by split_and!.
Qed.

Lemma run_spec k B ls w :
  rinv (k + labels_bytes ls) B w -> 0 <= k -> Forall label_ok ls ->
  wp (fun _ => True) (run ls) (fun _ w' => exists B', rinv k B' w' /\ later B w B' w') w.
Proof.
  intros Hr Hk Hok. revert B w Hr. induction Hok as [|l ls Hl Hls IH]; intros B w Hr; cbn [run].
  { wp_step. exists B. split; [|apply later_refl]. change (labels_bytes []) with 0 in Hr. by rewrite Z.add_0_r in Hr. }
  change (labels_bytes (l :: ls)) with (label_bytes l + labels_bytes ls) in Hr.
  pose proof (labels_bytes_nonneg ls). pose proof (label_bytes_nonneg l). do 3 wp_step.
  assert (Hone : wp (fun _ => True) (if enabled l w then step l else ret tt)
    (fun _ w' => exists B', rinv (k + labels_bytes ls) B' w' /\ later B w B' w') w).
  { apply wp_if; intros Hen.
    - eapply (wp_weaken (step_fault l w)); [done|]. apply step_spec; [|lia|done|done].
      by replace (k + labels_bytes ls + label_bytes l) with (k + (label_bytes l + labels_bytes ls)) by lia.
    - wp_step. exists B. split; [eapply rinv_bytes; [done|lia]|apply later_refl]. }
  eapply wp_mono; [exact Hone|]. intros _ w1 (B1 & Hr1 & Hl1). eapply wp_mono; [by apply IH|].
  intros _ w2 (B2 & Hr2 & Hl2). exists B2. split; [done|by eapply later_trans].
Qed.

(** The initial state. *)
Lemma init_rinv config k :
  ClientConfig.wf config -> ClientConfig.pings_fit config -> 0 <= k <= 2 ^ 31 -> rinv k (fun _ => 0) (init config).
Proof.
  intros Hwf Hp Hk. split; try done. split; cbn.
  - split; cbn; try done; try lia.
    + apply NoDup_nil_2.
    + intros p. split; [by intros ?%elem_of_nil|]. by intros (c & Hc & _).
  - split; cbn; [by intros pr Hpr%elem_of_nil|apply NoDup_nil_2|done|done].
  - split; cbn; [apply NoDup_nil_2|by intros c [Hc%elem_of_nil|Hc%elem_of_nil]|by intros c Hc%elem_of_nil|by intros c []%is_Some_None|lia].
  - split; [by intros fd rh wh Hfd|by intros i c Hi|by intros c l Hl|by intros c l Hc Hl|by intros c Hc%elem_of_nil|by intros c Hc%elem_of_nil].
  - split; cbn; try done; [|by intros t i Hi; destruct t|apply NoDup_nil_2|by intros t Ht%elem_of_nil].
    split; [|by intros x Hx%elem_of_nil|cbn; lia]. split; [constructor|constructor|]. intros i. split; [by intros []%is_Some_None|by intros ?%elem_of_nil].
  - done.
  - split; [lia|]. by intros c conn Hc.
  - split_and!; [done|done|lia].
Qed.
End threads.
