(* ===== verification/ManagerProps.v ===== *)
(** * What a connection manager guarantees

    The theorems about runs, with concrete runs over HTTP/2 sessions. *)

From S2P Require Import Prelude Outcome Types ProtocolState ProtocolHandlers ProtocolOps Transport RequestContext Std.
From S2P Require Import Session SessionFacts SessionProps SessionLaws ProtocolSafety Endpoint Reactor ReactorFacts.
From S2P Require Import CallbackDispatcher IHttpSession Flow.
From S2P Require Import ManagerState Connection ConnectionManager ManagerSteps ManagerInv ManagerTimers.
From S2P Require Import ManagerRequests ManagerTasks ManagerSends ManagerRuns ManagerThreads.
Import World ConnectionManager ManagerSteps.

(** ** A run over HTTP/2 sessions *)

Definition example_endpoint : Endpoint.t := Endpoint.mk (bs "host") 443 true [] [] [] TCP.

Definition example_send (id : Z) (timeoutMs : Z) : list label :=
  [LSend (example_request []) example_endpoint timeoutMs true; LSendTimer id; LSendEnqueue id; LSendPost id].

(** One request is sent, a connection is made, the response arrives and is
    delivered; a second one times out. *)
Definition example_labels : list label :=
  example_send 1 1000 ++
  [LTask true; LConnector (Some 7) true; LTask true;
   LFd 7 false true false [] [mk_io OK 10000];
   LFd 7 true false false [(OK, empty_settings); (WOULD_BLOCK, [])] [];
   LFd 7 true false false [(OK, ok_response x01); (WOULD_BLOCK, [])] []; LCallback] ++
  example_send 2 50 ++ [LTask true; LTick (50 * MILLISECOND)].

Definition example_closing : list label :=
  [LClose; LConnectorExit; LClose; LClose; LClose; LTask true; LClose; LClose; LCallback; LClose; LClose; LClose].

(** Everything is checked: a build with assertions, stopped by data races. *)
#[local] Instance all_checks : Checks := {| asserts := true; races := true |}.

Definition manager : Type := World.t Http2Session.t.
Definition manager_run (ls : list label) (w : manager) : outcome (unit * manager) := run ls w.

Definition summary (w : manager) :=
  (map fst (completions w), map fst (CallbackDispatcher.tasks (callbackDispatcher w)), size (connections w),
   map_to_list (requestConnections w), closing w).

Definition after (ls : list label) (w : manager) : manager := match manager_run ls w with Ok (_, w') => w' | Fault _ => w end.
Definition example_after (ls : list label) : manager := after ls (init ClientConfig.default).

(** The request, the connection and the response of the first part: *)
Example example_exchange :
  summary (example_after (take 11 example_labels)) = ([1], [], 1%nat, [], NotClosing).
Proof. by vm_compute. Qed.

Example example_closed :
  summary (example_after (example_labels ++ example_closing)) = ([1; 2], [], 0%nat, [], Closed).
Proof. by vm_compute. Qed.

Definition example_run : list label := example_labels ++ LTimers :: example_closing.

Lemma example_config_ok : ClientConfig.wf ClientConfig.default /\ ClientConfig.pings_fit ClientConfig.default.
Proof. split; [apply example_session_ok|by vm_compute]. Qed.

Lemma example_labels_ok : Forall label_ok example_run /\ labels_bytes example_run <= 2 ^ 31.
Proof.
  split; [|by vm_compute]. unfold example_run.
  repeat (apply Forall_cons_2; [vm_compute; try done|]); try apply Forall_nil_2.
  all: repeat constructor; discriminate.
Qed.

Lemma labels_bytes_app ls1 ls2 : labels_bytes (ls1 ++ ls2) = labels_bytes ls1 + labels_bytes ls2.
Proof.
  induction ls1 as [|l ls IH]; [done|].
  change (label_bytes l + labels_bytes (ls ++ ls2) = label_bytes l + labels_bytes ls + labels_bytes ls2). lia.
Qed.

Section properties.
Context {S : Type} `{SessionLaws S} `{HeapOrder} `{!HashOrder EndpointKey} `{!HashOrder Z} {checks : Checks}.
Context (config : ClientConfig.t) (Hwf : ClientConfig.wf config) (Hpings : ClientConfig.pings_fit config).

Lemma reachable ls k :
  0 <= k -> Forall label_ok ls -> labels_bytes ls + k <= 2 ^ 31 ->
  wp (fun _ => True) (run ls) (fun _ w => exists B, rinv (S := S) k B w) (init config).
Proof.
  intros Hk Hls Hb. pose proof (labels_bytes_nonneg ls).
  eapply wp_mono; [apply (run_spec k (fun _ => 0)); [apply init_rinv; [done|done|lia]|done|done]|]. intros _ w (B & ? & _). by exists B.
Qed.

(** The step where a run stops. *)
Lemma stops ls f :
  Forall label_ok ls -> labels_bytes ls <= 2 ^ 31 -> run ls (init (S := S) config) = Fault f ->
  sess_fault f \/ f = ids_exhausted \/
  exists ls1 n ls2 w id,
    ls = ls1 ++ LCancelStep n :: ls2 /\ run ls1 (init config) = Ok (tt, w) /\
    canceling w !! n = Some (AtHandle id) /\ Reactor.running (reactor w) = false /\
    (f = not_reactor_thread /\ asserts = true \/ f = data_race /\ races = true /\ racy w = true).
Proof using All.
  intros Hls Hb Hrun. destruct (run_fault _ _ _ Hrun) as (ls1 & l & ls2 & w & -> & Hrun1 & Hen & Hstep).
  apply Forall_app in Hls as [Hls1 [Hl Hls2]%Forall_cons]. rewrite labels_bytes_app in Hb.
  change (labels_bytes (l :: ls2)) with (label_bytes l + labels_bytes ls2) in Hb.
  pose proof (labels_bytes_nonneg ls2). pose proof (label_bytes_nonneg l).
  destruct (wp_inv _ _ _ _ _ _ (reachable ls1 (0 + label_bytes l) ltac:(lia) Hls1 ltac:(lia)) Hrun1) as (B & Hr).
  pose proof (step_spec 0 B l w Hr ltac:(lia) Hl Hen) as Hone. unfold wp in Hone. rewrite Hstep in Hone.
  destruct Hone as [[?|[?|[Hcur _]]]|(n & id & -> & Hn & Hrunning & Hf)]; [by left|by right; left|discriminate Hcur|].
  do 2 right. by exists ls1, n, ls2, w, id.
Qed.

(** C3: a connection manager is safe, but for a call of [cancel] that the
    reactor refuses.  Take any sequence of steps, with any behaviour of the
    network: the calls of users cut at each access to what the threads share,
    [close], and, each as one step, the connector's attempts, the tasks, turns
    on timers and descriptors of the reactor and the callbacks.  Either it
    returns: no connection, request or queue is used after it is gone, nothing
    overflows, no loop hangs; and the pointers left behind are good: each one
    to a connection that is recorded for a request, watched for a descriptor or
    waiting in a timer leads to a live connection.  Or the session itself has
    the fault it is allowed, or 2^64 identifiers have been given out.  Or, at
    the step where it stops, a user's thread runs [handleCancelOnReactor],
    because the reactor had been told to stop before the task was posted: then
    the assertion of the reactor's thread fails, in a build that has it, or the
    tables of the reactor are read while its thread has not been joined or
    while another such call uses them. *)
Theorem manager_safe ls :
  Forall label_ok ls -> labels_bytes ls <= 2 ^ 31 ->
  match run ls (init (S := S) config) with
  | Ok (_, w) =>
      (forall i c, requestConnections w !! i = Some c -> is_Some (connections w !! c)) /\
      (forall fd x, Reactor.fdContexts (reactor w) !! fd = Some x ->
         exists c, readHandler x = sessionReadable c /\ writeHandler x = Some (sessionWritable c) /\ is_Some (connections w !! c)) /\
      (forall k d c, pending (reactor w) !! k = Some (d, pingTimer c) \/ pending (reactor w) !! k = Some (d, pingTimeoutTimer c) ->
         is_Some (connections w !! c))
  | Fault f =>
      sess_fault f \/ f = ids_exhausted \/
      exists ls1 n ls2 w id,
        ls = ls1 ++ LCancelStep n :: ls2 /\ run ls1 (init config) = Ok (tt, w) /\
        canceling w !! n = Some (AtHandle id) /\ Reactor.running (reactor w) = false /\
        (f = not_reactor_thread /\ asserts = true \/ f = data_race /\ races = true /\ racy w = true)
  end.
Proof using All.
  intros Hls Hb. pose proof (reachable ls 0 ltac:(lia) Hls ltac:(lia)) as Hrun. unfold wp in Hrun.
  destruct (run ls (init config)) as [[[] w]|f] eqn:Hresult; [|by apply (stops ls f)].
  destruct Hrun as (B & Hr). pose proof (ri_inv _ _ _ Hr) as Hw.
  assert (Hlive : forall c l, links w !! c = Some l -> is_Some (connections w !! c)).
  { intros c l Hl. unfold links in Hl. rewrite lookup_fmap in Hl. destruct (connections w !! c); [eauto|done]. }
  split_and!.
  - intros i c Hi. destruct (pt_submitted _ _ _ _ _ _ (w_pointers _ _ Hw) i c Hi) as (l & ? & _). eauto.
  - intros fd x Hx. destruct (pt_fd _ _ _ _ _ _ (w_pointers _ _ Hw) fd (readHandler x) (writeHandler x)) as (c & l & ? & ? & ? & _);
      [unfold fd_handlers; by rewrite lookup_fmap, Hx|]. exists c. eauto.
  - intros k d c [Hk|Hk]; destruct (tm_owner _ _ _ _ (w_timers _ _ Hw) _ _ _ Hk) as [_ (l & ? & _)]; eauto.
Qed.

(** C4: a request is completed at most once.  At any moment of any run the
    completion handlers called so far and those queued for the dispatcher
    belong to pairwise distinct requests; they are those of exactly the
    requests that are finished; and a request that is not finished is still
    in the table that [cancel], timeouts and [close] look it up in - whatever
    the races between responses, cancellations, timeouts, failures of the
    connection and closing. *)
Theorem completed_at_most_once ls w :
  Forall label_ok ls -> labels_bytes ls <= 2 ^ 31 -> run ls (init (S := S) config) = Ok (tt, w) ->
  let delivered := map fst (completions w) ++ map fst (CallbackDispatcher.tasks (callbackDispatcher w)) in
  NoDup delivered /\
  (forall p, p ∈ delivered <-> exists c, heap w !! p = Some c /\ RequestContext.finished c = true) /\
  (forall p, 1 <= p < nextRequestId w ->
     exists c, heap w !! p = Some c /\ (RequestContext.finished c = false -> contexts w !! p = Some (Some p))).
Proof using All.
  intros Hls Hb Hrun. pose proof (wp_inv _ _ _ _ _ _ (reachable ls 0 ltac:(lia) Hls ltac:(lia)) Hrun) as (B & Hr).
  destruct (w_requests _ _ (ri_inv _ _ _ Hr)) as [Hids Hall Hnext Hreg Hctx Hnd Hdone Hdisp]. split_and!; [done|done|].
  intros p Hp. destruct (Hall p Hp) as [c Hc]. exists c. split; [done|]. intros Hf. apply (Hreg p c Hc Hf). apply not_elem_of_nil.
Qed.

(** C5: [close] leaves no request behind.  Once [close] has returned, the
    reactor and the dispatcher have stopped and no call of [sendAsync] is
    under way, the completion handler of every request ever sent has been
    called, exactly once. *)
Theorem close_completes_all ls w :
  Forall label_ok ls -> labels_bytes ls <= 2 ^ 31 -> run ls (init (S := S) config) = Ok (tt, w) ->
  closing w = Closed -> Reactor.running (reactor w) = false -> CallbackDispatcher.running (callbackDispatcher w) = false ->
  sending w = ∅ ->
  NoDup (map fst (completions w)) /\ forall p, p ∈ map fst (completions w) <-> 1 <= p < nextRequestId w.
Proof using All.
  intros Hls Hb Hrun Hclosed Hreactor Hdispatcher Hsending.
  pose proof (wp_inv _ _ _ _ _ _ (reachable ls 0 ltac:(lia) Hls ltac:(lia)) Hrun) as (B & Hr).
  destruct (w_requests _ _ (ri_inv _ _ _ Hr)) as [Hids Hall Hnext Hreg Hctx Hnd Hdone Hdisp].
  unfold done_ids in Hnd, Hdone. rewrite (Hdisp Hdispatcher) in Hnd, Hdone. cbn in Hnd, Hdone. rewrite app_nil_r in Hnd, Hdone.
  split; [done|]. intros p. rewrite Hdone. split.
  - intros (c & Hc & _). by destruct (Hids p c Hc).
  - intros Hp. destruct (Hall p Hp) as [c Hc]. exists c. split; [done|]. destruct (RequestContext.finished c) eqn:Hf; [done|].
    destruct (ri_closed _ _ _ Hr Hclosed Hreactor p c Hc Hf) as [s Hs]. by rewrite Hsending, lookup_empty in Hs.
Qed.

(** C6: timeouts fire.  If, at some moment of a run with the reactor running,
    [sendAsync] has scheduled the timeout of a request, then at the first
    turn of the reactor on timers that comes at least that long after, with
    the reactor still running, the request is finished - wherever it was
    waiting, and whatever happened in between. *)
Theorem timeouts_fire ls1 ls2 w1 w2 w3 p c :
  Forall label_ok (ls1 ++ ls2) -> labels_bytes (ls1 ++ ls2) <= 2 ^ 31 ->
  run ls1 (init (S := S) config) = Ok (tt, w1) -> heap w1 !! p = Some c -> 0 <= RequestContext.TIMEOUT_MS c ->
  Reactor.ready (reactor w1) = true -> (forall request ep ms, sending w1 !! p <> Some (AtTimer request ep ms)) ->
  run ls2 w1 = Ok (tt, w2) -> clock w1 + RequestContext.TIMEOUT_MS c * MILLISECOND <= clock w2 ->
  Reactor.ready (reactor w2) = true -> run [LTimers] w2 = Ok (tt, w3) ->
  exists c', heap w3 !! p = Some c' /\ RequestContext.finished c' = true.
Proof using All.
  intros [Hls1 Hls2]%Forall_app Hb Hrun1 Hc Hto Hready1 Hsend Hrun2 Hclock Hready2 Hrun3.
  pose proof (labels_bytes_app ls1 ls2) as Hbytes.
  pose proof (labels_bytes_nonneg ls2) as Hb2.
  destruct (wp_inv _ _ _ _ _ _ (reachable ls1 (0 + labels_bytes ls2) ltac:(lia) Hls1 ltac:(lia)) Hrun1) as (B1 & Hr1).
  destruct (wp_inv _ _ _ _ _ _ (run_spec 0 B1 ls2 w1 Hr1 ltac:(lia) Hls2) Hrun2) as (B2 & Hr2 & [Hlh _ Hls]).
  assert (Hat : ~ at_timer w1 p) by (intros (rq & ep & ms & Hat); by eapply Hsend).
  destruct (Hls p ltac:(eauto) Hat) as [Hat2 HB]. destruct (Hlh p c Hc) as (c2 & Hc2 & Hto2 & Hfin2).
  cbn [run] in Hrun3. unfold bind at 1, get at 1 in Hrun3. change (enabled LTimers w2) with (Reactor.ready (reactor w2)) in Hrun3.
  rewrite Hready2 in Hrun3. assert (Hstep : (handlers <- on_reactor Reactor.fireDueTimers ;; run_timers handlers) w2 = Ok (tt, w3)).
  { revert Hrun3. unfold step, bind at 1. unfold bind at 1, get at 1. destruct ((handlers <- on_reactor Reactor.fireDueTimers ;; run_timers handlers) w2) as [[[] w]|]; done. }
  destruct (wp_inv _ _ _ _ _ _ (timers_spec 0 B2 w2 (ri_inv _ _ _ Hr2) Hready2) Hstep) as (_ & Hp3 & Hfire).
  assert (Hkept : RequestContext.finished c2 = true -> exists c', heap w3 !! p = Some c' /\ RequestContext.finished c' = true).
  { intros Hf. destruct (pg_heap _ _ Hp3) as [Ha _]. destruct (Ha p c2 Hc2) as (c3 & Hc3 & Hca). exists c3. split; [done|]. by apply (ca_finished _ _ Hca). }
  destruct (RequestContext.finished c2) eqn:Hf2; [auto|].
  assert (Hf1 : RequestContext.finished c = false) by (destruct (RequestContext.finished c); [specialize (Hfin2 eq_refl); congruence|done]).
  destruct (w_deadlines _ _ (ri_inv _ _ _ Hr1) Hready1 p c Hc Hf1 Hto) as [Hn|[Hn|[Hn|(_ & _ & _ & _ & HB1)]]];
    [by apply elem_of_nil in Hn|done|by apply elem_of_nil in Hn|].
  destruct (w_deadlines _ _ (ri_inv _ _ _ Hr2) Hready2 p c2 Hc2 Hf2 ltac:(lia)) as [Hn|[Hn|[Hn|(i & d & Hi & Hd & _)]]];
    [by apply elem_of_nil in Hn|done|by apply elem_of_nil in Hn|].
  destruct (Hfire p) as (c3 & ? & ?); [|by exists c3]. exists i, d. split; [done|].
  change (due_by (nothing 0 B2) p) with (B2 p) in Hd. change (due_by (nothing (0 + labels_bytes ls2) B1) p) with (B1 p) in HB1. lia.
Qed.
End properties.

(** ** The theorems on concrete runs *)

Definition returns (ls : list label) (w : manager) : bool := match manager_run ls w with Ok _ => true | Fault _ => false end.

Lemma example_runs ls w : returns ls w = true -> run ls w = Ok (tt, after ls w).
Proof. unfold returns, after, manager_run. by destruct (run ls w) as [[[] w']|f]. Qed.

Lemma example_labels_prefix ls1 ls2 :
  example_run = ls1 ++ ls2 -> Forall label_ok ls1 /\ labels_bytes ls1 <= 2 ^ 31.
Proof.
  intros Heq. destruct example_labels_ok as [Hok Hb]. rewrite Heq in Hok, Hb.
  apply Forall_app in Hok as [? Hok2]. split; [done|]. rewrite labels_bytes_app in Hb.
  pose proof (labels_bytes_nonneg ls2). lia.
Qed.

Lemma manager_safe_witness :
  let w := example_after (take 11 example_run) in
  size (connections w) = 1%nat /\ size (pending (reactor w)) = 1%nat /\
  (forall fd x, Reactor.fdContexts (reactor w) !! fd = Some x ->
     exists c, readHandler x = sessionReadable c /\ writeHandler x = Some (sessionWritable c) /\ is_Some (connections w !! c)) /\
  (forall k d c, pending (reactor w) !! k = Some (d, pingTimer c) \/ pending (reactor w) !! k = Some (d, pingTimeoutTimer c) ->
     is_Some (connections w !! c)).
Proof.
  split; [by vm_compute|]. split; [by vm_compute|]. destruct example_config_ok as [Hwf Hpings].
  destruct (example_labels_prefix (take 11 example_run) (drop 11 example_run)) as [Hls Hb]; [by rewrite take_drop|].
  assert (Hsafe : forall ls (w : manager), Forall label_ok ls -> labels_bytes ls <= 2 ^ 31 ->
    run ls (init ClientConfig.default) = Ok (tt, w) ->
    (forall fd x, Reactor.fdContexts (reactor w) !! fd = Some x ->
       exists c, readHandler x = sessionReadable c /\ writeHandler x = Some (sessionWritable c) /\ is_Some (connections w !! c)) /\
    (forall k d c, pending (reactor w) !! k = Some (d, pingTimer c) \/ pending (reactor w) !! k = Some (d, pingTimeoutTimer c) ->
       is_Some (connections w !! c))).
  { intros ls w Hok Hbytes Hrun. pose proof (manager_safe ClientConfig.default Hwf Hpings ls Hok Hbytes) as Hsafe.
    rewrite Hrun in Hsafe. apply Hsafe. }
  apply (Hsafe _ _ Hls Hb). apply example_runs. by vm_compute.
Defined.

(** A request is being served when the reactor is told to stop; its [cancel]
    finds the task refused, and handles the request itself. *)
Definition late_cancel : list label :=
  take 11 example_labels ++
  example_send 2 1000 ++ [LTask true; LClose; LConnectorExit; LClose; LClose; LClose; LCancel 2] ++
  repeat (LCancelStep 0) 4.

(** Its last step, with each choice of checks. *)
Definition handles_late (asserts races : bool) : option fault :=
  match run (checks := {| asserts := asserts; races := races |}) [LCancelStep 0] (example_after late_cancel) with
  | Ok _ => None
  | Fault f => Some f
  end.

Example late_cancel_state :
  returns late_cancel (init ClientConfig.default) = true /\
  canceling (example_after late_cancel) = [AtHandle 2] /\
  Reactor.running (reactor (example_after late_cancel)) = false /\
  racy (example_after late_cancel) = true.
Proof. by vm_compute. Qed.

(** Reading the tables is a race; without that check, the assertion fails;
    without either, the request is canceled while the reactor's thread runs. *)
Example late_cancel_faults :
  handles_late true true = Some data_race /\ handles_late true false = Some not_reactor_thread /\
  handles_late false false = None.
Proof. by vm_compute. Qed.

Lemma completed_at_most_once_witness :
  let w := example_after example_run in
  returns example_run (init ClientConfig.default) = true /\ summary w = ([1; 2], [], 0%nat, [], Closed) /\
  NoDup (map fst (completions w) ++ map fst (CallbackDispatcher.tasks (callbackDispatcher w))).
Proof.
  split; [by vm_compute|]. split; [by vm_compute|]. destruct example_config_ok as [Hwf Hpings], example_labels_ok as [Hls Hb].
  apply (completed_at_most_once ClientConfig.default Hwf Hpings example_run _ Hls Hb). apply example_runs. by vm_compute.
Defined.

Lemma close_completes_all_witness :
  let w := example_after example_run in
  nextRequestId w = 3 /\ NoDup (map fst (completions w)) /\ forall p, p ∈ map fst (completions w) <-> 1 <= p < nextRequestId w.
Proof.
  split; [by vm_compute|]. destruct example_config_ok as [Hwf Hpings], example_labels_ok as [Hls Hb].
  apply (close_completes_all ClientConfig.default Hwf Hpings example_run _ Hls Hb); [ | | | |].
  - apply example_runs. by vm_compute.
  - by vm_compute.
  - by vm_compute.
  - by vm_compute.
  - apply map_to_list_empty_iff. by vm_compute.
Defined.

Lemma timeouts_fire_witness :
  let ls1 := take 16 example_run in
  let ls2 := [LTick (50 * MILLISECOND)] in
  exists c c', heap (example_after ls1) !! 2 = Some c /\ RequestContext.finished c = false /\
    heap (after [LTimers] (after ls2 (example_after ls1))) !! 2 = Some c' /\ RequestContext.finished c' = true.
Proof.
  intros ls1 ls2. destruct example_config_ok as [Hwf Hpings].
  destruct (example_labels_prefix (ls1 ++ ls2) (drop 17 example_run)) as [Hls Hb]; [by vm_compute|].
  destruct (heap (example_after ls1) !! 2) as [c|] eqn:Hc; [|exfalso; revert Hc; by vm_compute].
  assert (Hlate : option_map (fun c => (RequestContext.finished c, RequestContext.TIMEOUT_MS c)) (heap (example_after ls1) !! 2) =
    Some (false, 50)) by (by vm_compute).
  rewrite Hc in Hlate. cbn in Hlate. injection Hlate as Hf Hto.
  exists c.
  pose proof (timeouts_fire ClientConfig.default Hwf Hpings ls1 ls2 (example_after ls1) (after ls2 (example_after ls1))
    (after [LTimers] (after ls2 (example_after ls1))) 2 c Hls Hb) as Hfire.
  destruct Hfire as (c' & Hc' & Hf').
  - apply example_runs. by vm_compute.
  - exact Hc.
  - rewrite Hto. by vm_compute.
  - by vm_compute.
  - intros request ep ms. assert (sending (example_after ls1) !! 2 = None) as -> by (by vm_compute). done.
  - apply example_runs. by vm_compute.
  - rewrite Hto. by vm_compute.
  - by vm_compute.
  - apply example_runs. by vm_compute.
  - exact (ex_intro _ c' (conj eq_refl (conj Hf (conj Hc' Hf')))).
Defined.
