(* ===== verification/Client.v ===== *)
(** * The client

    [include/chttp2/client.hpp] and [src/client.cpp]: validation of requests,
    the request put on the wire, and sending it through the connection
    manager. *)

From S2P Require Import Prelude Outcome Types HeaderRules Std RequestContext Endpoint Reactor CallbackDispatcher.
From S2P Require Import IHttpSession ManagerState ConnectionManager ManagerSteps.

Definition CONTENT_LENGTH : bytes := bs "content-length".

Module Client.
(** [Client::Options] *)
Record Options := mk_options { timeoutMs : Z; autoContentLength : bool }.
Definition default_options : Options := mk_options (-1) true.

(** [Client::Request] *)
Record request := mk_request {
  endpoint : Endpoint.t;
  method : bytes;
  target : bytes;
  headers : list HeaderField.t;
  body : bytes;
  options : Options;
}.

Definition GET : bytes := bs "GET".
Definition POST : bytes := bs "POST".

(** [None]: the request is valid; otherwise the error response. *)
Definition validateRequest (r : request) : option Response.t :=
  let ep := endpoint r in
  if Endpoint.is_empty (Endpoint.host ep) && Endpoint.is_empty (Endpoint.ip ep) && Endpoint.is_empty (Endpoint.sockFile ep)
  then Some (Response.customError (bs "Request endpoint is empty"))
  else if Endpoint.is_empty (method r) then Some (Response.customError (bs "Request method is empty"))
  else
    match target r with
    | [] => Some (Response.customError (bs "Request target is empty"))
    | c :: _ =>
        if negb (bool_decide (c = x2f)) then Some (Response.customError (bs "Request target must start with '/'"))
        else None
    end.

Definition default_port (useSSL : bool) : Z := if useSSL then 443 else 80.

(** The value of [:authority]. *)
Definition authority (ep : Endpoint.t) : bytes :=
  (if Endpoint.is_empty (Endpoint.host ep) then Endpoint.ip ep else Endpoint.host ep) ++
  (if negb (Endpoint.port ep =? 0) && negb (Endpoint.port ep =? default_port (Endpoint.useSSL ep))
   then bs ":" ++ to_string (Endpoint.port ep) else []).

Fixpoint set_headers (hs : list HeaderField.t) (wire : Request.t) : Request.t :=
  match hs with
  | [] => wire
  | h :: hs' => set_headers hs' (Request.setHeader (HeaderField.name h) (HeaderField.value h) wire)
  end.

Definition buildWireRequest (userAgent : bytes) (r : request) : Request.t :=
  let ep := endpoint r in
  let wire := Request.init in
  let wire := Request.setHeader (bs ":method") (method r) wire in
  let wire := Request.setHeader (bs ":scheme") (if Endpoint.useSSL ep then bs "https" else bs "http") wire in
  let wire := Request.setHeader (bs ":authority") (authority ep) wire in
  let wire := Request.setHeader (bs ":path") (target r) wire in
  let wire := Request.setHeader (bs "user-agent") userAgent wire in
  let wire := Request.setHeader (bs "accept") (bs "*/*") wire in
  let wire := set_headers (headers r) wire in
  let wire := Request.mk (Request.headers wire) (body r) in
  if negb (Endpoint.is_empty (body r)) && autoContentLength (options r) &&
     negb (StdMap.contains CONTENT_LENGTH (Request.headers wire))
  then Request.setHeader CONTENT_LENGTH (to_string (zlen (body r))) wire
  else wire.

(** The port is inferred from the scheme. *)
Definition resolve (ep : Endpoint.t) : Endpoint.t :=
  if Endpoint.port ep =? 0
  then Endpoint.mk (Endpoint.host ep) (default_port (Endpoint.useSSL ep)) (Endpoint.useSSL ep) (Endpoint.certFile ep)
         (Endpoint.ip ep) (Endpoint.sockFile ep) (Endpoint.type ep)
  else ep.

Section client.
Context {S : Type} `{IHttpSession S} `{HeapOrder} `{!HashOrder EndpointKey} `{!HashOrder Z} {checks : Connection.Checks}.

(** The manager, and the responses handed to callbacks by [Send] itself. *)
Record t := mk { connectionManager : World.t S; userAgent : bytes; rejected : list Response.t }.

Definition init (config : ClientConfig.t) : t := mk (World.init config) (bs "chttp2/0.1") [].

Definition on_manager {A} (m : st (World.t S) A) : st t A := fun c =>
  match m (connectionManager c) with
  | Ok (a, w) => Ok (a, mk w (userAgent c) (rejected c))
  | Fault f => Fault f
  end.

(** [Operation]: the context a weak pointer leads to. *)
Definition Operation : Type := RequestContextPtr.

(** [Send] with a callback, up to the first critical section of [sendAsync];
    its later steps are those of the manager. *)
Definition Send (r : request) (opened : bool) : st t Operation :=
  match validateRequest r with
  | Some invalidResponse =>
      modify (fun c => mk (connectionManager c) (userAgent c) (rejected c ++ [invalidResponse])) ;;;
      ret None
  | None =>
      c <- get ;;
      let wireRequest := buildWireRequest (userAgent c) r in
      on_manager (ManagerSteps.step (LSend wireRequest (resolve (endpoint r)) (timeoutMs (options r)) opened)) ;;;
      ret (Some (World.nextRequestId (connectionManager c)))
  end.

(** The blocking [Send] sets a promise in the callback and waits for it: what
    [future.get()] returns, once there is something, for the operation of a
    [Send] that was just made. *)
Definition future_get (op : Operation) (c : t) : option Response.t :=
  match op with
  | None => last (rejected c)
  | Some p =>
      snd <$> List.find (fun cb => fst cb =? p) (World.completions (connectionManager c))
  end.

Definition Get (ep : Endpoint.t) (path : bytes) (hs : list HeaderField.t) (o : Options) (opened : bool) : st t Operation :=
  Send (mk_request ep GET path hs [] o) opened.
Definition Post (ep : Endpoint.t) (path content : bytes) (hs : list HeaderField.t) (o : Options) (opened : bool) : st t Operation :=
  Send (mk_request ep POST path hs content o) opened.

(** [weakContext.lock()] finds the context as long as somebody owns it. *)
Definition lock (op : Operation) (owned : bool) (c : t) : option RequestContext.t :=
  match op with
  | Some p => if owned then World.heap (connectionManager c) !! p else None
  | None => None
  end.

Definition isCanceled (op : Operation) (owned : bool) (c : t) : bool :=
  match lock op owned c with Some context => RequestContext.isCanceled context | None => false end.
Definition isValid (op : Operation) (owned : bool) (c : t) : bool :=
  match lock op owned c with Some context => negb (RequestContext.isFinished context) | None => false end.
(** [cancel], up to the first access of [ConnectionManager::cancel]; its later
    steps are those of the manager. *)
Definition cancel (op : Operation) (owned : bool) : st t bool :=
  c <- get ;;
  match op, lock op owned c with
  | Some p, Some _ => on_manager (ManagerSteps.cancel_operation p)
  | _, _ => ret false
  end.

(** One step of [close], which is the manager's. *)
Definition close : st t unit := on_manager ManagerSteps.close_step.
End client.
End Client.
