(* ===== verification/ClientProps.v ===== *)
(** * What a client guarantees

    The request put on the wire, the order of its fields, and the branches of
    [Send]. *)

From S2P Require Import Prelude Outcome Types HeaderRules HeaderFacts Std RequestContext.
From S2P Require Import Reactor ReactorFacts CallbackDispatcher Endpoint IHttpSession ManagerState.
From S2P Require Import ProtocolState Session ConnectionManager ManagerSteps Client.

(** ** The wire request of a client

    [std::map] as a sorted map, and what [buildWireRequest] puts into it. *)

(** *** The order of strings *)

Lemma bytes_ltb_irrefl a : bytes_ltb a a = false.
Proof. induction a as [|x a IH]; [done|]. cbn. by rewrite Z.ltb_irrefl. Qed.

Lemma bytes_ltb_trans a b c : bytes_ltb a b = true -> bytes_ltb b c = true -> bytes_ltb a c = true.
Proof.
  revert b c. induction a as [|x a IH]; intros [|y b] [|z c]; try done. cbn.
  repeat case_match; bool_to_prop; try done; try lia. apply IH.
Qed.

Lemma bytes_ltb_total a b : bytes_ltb a b = false -> bytes_ltb b a = false -> a = b.
Proof.
  revert b. induction a as [|x a IH]; intros [|y b]; try done. cbn.
  repeat case_match; bool_to_prop; try done; try lia. intros Ha Hb. f_equal; [apply b2z_inj; lia|auto].
Qed.

Lemma bytes_ltb_asym a b : bytes_ltb a b = true -> bytes_ltb b a = false.
Proof.
  intros Hab. destruct (bytes_ltb b a) eqn:Hba; [|done]. pose proof (bytes_ltb_trans _ _ _ Hab Hba). by rewrite bytes_ltb_irrefl in H.
Qed.

(** *** [std::map] *)

Definition key_lt (x y : bytes * bytes) : Prop := bytes_ltb x.1 y.1 = true.
Definition sorted_map (m : StdMap.t) : Prop := StronglySorted key_lt m.

Lemma find_assign k v m n : StdMap.find n (StdMap.assign k v m) = if decide (n = k) then Some v else StdMap.find n m.
Proof.
  induction m as [|[k' v'] m IH]; cbn; [by repeat case_bool_decide; case_decide; simplify_eq|].
  case_bool_decide as Hk'; [subst; cbn; repeat first [case_bool_decide | case_decide]; by simplify_eq|].
  destruct (bytes_ltb k k'); cbn; [repeat first [case_bool_decide | case_decide]; by simplify_eq|].
  case_bool_decide as Hn; [|done]. subst. by rewrite decide_False.
Qed.

Lemma find_elem n m : is_Some (StdMap.find n m) <-> exists v, (n, v) ∈ m.
Proof.
  induction m as [|[k v] m IH]; cbn.
  - split; [by intros []|intros [v Hv]; by apply elem_of_nil in Hv].
  - case_bool_decide as Hk.
    + subst. split; [intros _; exists v; by left|by eexists].
    + rewrite IH. split; intros [w Hw]; exists w; [by right|]. apply elem_of_cons in Hw as [?|?]; [simplify_eq|done].
Qed.

Lemma assign_elem k v m x : x ∈ StdMap.assign k v m -> x = (k, v) \/ x ∈ m.
Proof.
  induction m as [|[k' v'] m IH]; cbn; [by intros ->%list_elem_of_singleton; left|].
  case_bool_decide; [|destruct (bytes_ltb k k')]; rewrite !elem_of_cons; tauto.
Qed.

Lemma assign_sorted k v m : sorted_map m -> sorted_map (StdMap.assign k v m).
Proof.
  unfold sorted_map. induction m as [|[k' v'] m IH]; intros Hm; cbn; [by repeat constructor|].
  apply StronglySorted_inv in Hm as [Hm Hall]. case_bool_decide as Hk; [subst; by constructor|].
  destruct (bytes_ltb k k') eqn:Hlt.
  - constructor; [by constructor|]. constructor; [done|]. eapply Forall_impl; [exact Hall|]. intros x. by apply bytes_ltb_trans.
  - constructor; [auto|]. apply Forall_forall. intros x [->|Hx]%assign_elem; [|by eapply Forall_forall in Hall].
    unfold key_lt. cbn. destruct (bytes_ltb k' k) eqn:Hgt; [done|]. by destruct Hk; apply bytes_ltb_total.
Qed.

Lemma sorted_before m a b : sorted_map m -> a ∈ m -> b ∈ m -> key_lt a b -> exists l1 l2 l3, m = l1 ++ a :: l2 ++ b :: l3.
Proof.
  intros Hm (l1 & l2 & ->)%list_elem_of_split Hb Hab. apply elem_of_app in Hb as [Hb|Hb].
  - exfalso. apply StronglySorted_app in Hm as (Hm & _ & _).
    pose proof (Hm b a Hb ltac:(left)) as Hba. unfold key_lt in *. apply bytes_ltb_asym in Hab. congruence.
  - apply elem_of_cons in Hb as [->|(l3 & l4 & ->)%list_elem_of_split].
    + unfold key_lt in Hab. by rewrite bytes_ltb_irrefl in Hab.
    + by exists l1, l3, l4.
Qed.

Lemma sorted_after l1 a l2 b l3 : sorted_map (l1 ++ a :: l2 ++ b :: l3) -> key_lt a b.
Proof.
  intros (_ & _ & Hm)%StronglySorted_app. apply StronglySorted_inv in Hm as [_ Hm]. eapply Forall_forall; [exact Hm|].
  apply elem_of_app. right. left.
Qed.

(** *** The wire request *)

(** The last value given to a name. *)
Definition newer_value (n : bytes) (o : option bytes) (h : HeaderField.t) : option bytes :=
  if bool_decide (HeaderField.name h = n) then Some (HeaderField.value h) else o.
Definition last_value (n : bytes) (hs : list HeaderField.t) : option bytes := fold_left (newer_value n) hs None.

Lemma last_value_from n hs o :
  fold_left (newer_value n) hs o =
  match last_value n hs with Some v => Some v | None => o end.
Proof.
  unfold last_value. revert o. induction hs as [|h hs IH]; intros o; [done|]. cbn [fold_left].
  rewrite IH, (IH (newer_value n None h)). destruct (fold_left (newer_value n) hs None); [done|].
  unfold newer_value. by case_bool_decide.
Qed.

Lemma last_value_some n hs : is_Some (last_value n hs) <-> exists h, h ∈ hs /\ HeaderField.name h = n.
Proof.
  induction hs as [|h hs IH].
  - split; [by intros []|intros (h & Hh & _); by apply elem_of_nil in Hh].
  - unfold last_value. cbn [fold_left]. rewrite last_value_from. unfold newer_value.
    setoid_rewrite elem_of_cons. destruct (last_value n hs) as [v|].
    + split; [intros _|by eexists]. destruct IH as [(g & ? & ?) _]; [by eexists|]. exists g. tauto.
    + case_bool_decide as Hn.
      * split; [intros _; exists h; tauto|by eexists].
      * split; [by intros []|]. intros (g & [->|Hg] & Hgn); [done|]. apply IH. eauto.
Qed.

Lemma find_set_headers hs wire n :
  StdMap.find n (Request.headers (Client.set_headers hs wire)) =
  match last_value n hs with Some v => Some v | None => StdMap.find n (Request.headers wire) end.
Proof.
  revert wire. induction hs as [|h hs IH]; intros wire; [done|]. cbn [Client.set_headers]. rewrite IH. unfold last_value at 2. cbn [fold_left].
  rewrite last_value_from. unfold newer_value. destruct (last_value n hs); [done|].
  unfold Request.setHeader. cbn [Request.headers]. rewrite find_assign.
  repeat first [case_bool_decide | case_decide]; congruence.
Qed.

Lemma set_headers_sorted hs wire :
  sorted_map (Request.headers wire) -> sorted_map (Request.headers (Client.set_headers hs wire)).
Proof. revert wire. induction hs as [|h hs IH]; intros wire Hw; [done|]. apply IH. by apply assign_sorted. Qed.

(** The value a name has without the user's headers. *)
Definition default_value (userAgent : bytes) (r : Client.request) (n : bytes) : option bytes :=
  if decide (n = bs ":method") then Some (Client.method r)
  else if decide (n = bs ":scheme") then Some (if Endpoint.useSSL (Client.endpoint r) then bs "https" else bs "http")
  else if decide (n = bs ":authority") then Some (Client.authority (Client.endpoint r))
  else if decide (n = bs ":path") then Some (Client.target r)
  else if decide (n = bs "user-agent") then Some userAgent
  else if decide (n = bs "accept") then Some (bs "*/*")
  else if decide (n = CONTENT_LENGTH) then
    (if negb (Endpoint.is_empty (Client.body r)) && Client.autoContentLength (Client.options r)
     then Some (to_string (zlen (Client.body r))) else None)
  else None.

Lemma wire_find userAgent r n :
  StdMap.find n (Request.headers (Client.buildWireRequest userAgent r)) =
  match last_value n (Client.headers r) with Some v => Some v | None => default_value userAgent r n end.
Proof.
  set (m := StdMap.assign (bs "accept") (bs "*/*") (StdMap.assign (bs "user-agent") userAgent
    (StdMap.assign (bs ":path") (Client.target r) (StdMap.assign (bs ":authority") (Client.authority (Client.endpoint r))
      (StdMap.assign (bs ":scheme") (if Endpoint.useSSL (Client.endpoint r) then bs "https" else bs "http")
        (StdMap.assign (bs ":method") (Client.method r) [])))))).
  assert (Hm : forall n, StdMap.find n (Request.headers (Client.set_headers (Client.headers r) (Request.mk m []))) =
    match last_value n (Client.headers r) with Some v => Some v | None => StdMap.find n m end)
    by (intros; apply find_set_headers).
  assert (Hd : forall n, n <> CONTENT_LENGTH -> StdMap.find n m = default_value userAgent r n).
  { intros n' Hn. unfold m, default_value. rewrite !find_assign. repeat (case_decide; [subst; done|]). done. }
  assert (Hc : StdMap.find CONTENT_LENGTH m = None) by (unfold m; by rewrite !find_assign).
  change (StdMap.find n (Request.headers
    (let wire := Request.mk (Request.headers (Client.set_headers (Client.headers r) (Request.mk m []))) (Client.body r) in
     if negb (Endpoint.is_empty (Client.body r)) && Client.autoContentLength (Client.options r) &&
        negb (StdMap.contains CONTENT_LENGTH (Request.headers wire))
     then Request.setHeader CONTENT_LENGTH (to_string (zlen (Client.body r))) wire else wire)) = 
    match last_value n (Client.headers r) with Some v => Some v | None => default_value userAgent r n end).
  cbn zeta. unfold StdMap.contains. cbn [Request.headers]. rewrite Hm, Hc.
  destruct (negb (Endpoint.is_empty (Client.body r)) && Client.autoContentLength (Client.options r)) eqn:Hauto; cbn [andb].
  - destruct (last_value CONTENT_LENGTH (Client.headers r)) eqn:Hl; cbn [negb]; unfold Request.setHeader; cbn [Request.headers].
    + rewrite Hm. destruct (last_value n (Client.headers r)) eqn:Hn; [done|]. apply Hd. congruence.
    + rewrite find_assign, Hm. case_decide as Hn; [subst n; rewrite Hl; unfold default_value; by rewrite Hauto|].
      by rewrite Hd.
  - cbn [Request.headers]. rewrite Hm. destruct (last_value n (Client.headers r)); [done|].
    destruct (decide (n = CONTENT_LENGTH)) as [->|Hn]; [|by apply Hd]. rewrite Hc. unfold default_value. by rewrite Hauto.
Qed.

Lemma wire_sorted userAgent r : sorted_map (Request.headers (Client.buildWireRequest userAgent r)).
Proof.
  unfold Client.buildWireRequest. cbn zeta. destruct (_ && _); cbn [Request.setHeader Request.headers]; [apply assign_sorted|];
    apply set_headers_sorted; cbn [Request.setHeader Request.headers]; repeat apply assign_sorted; constructor.
Qed.

(** ** Content-Length *)

Lemma parse_length_digits_ok n s :
  0 <= n -> all_digits s = true -> dec_from n s <= 10 ^ 15 -> parse_length_digits n s = Ok (Some (dec_from n s)).
Proof.
  revert n. induction s as [|b s IH]; intros n Hn Hs Hb; [done|]. cbn [parse_length_digits]. pose proof Hs as Hbs.
  cbn [all_digits forallb] in Hs. apply andb_true_iff in Hs as [Hd Hs]. destruct (digit_char b) as [He Hr]. destruct (Hr Hd) as [Hc ?].
  rewrite Hd in He. destruct (_ || _); [done|]. rewrite dec_from_cons in Hb |- *.
  pose proof (dec_from_mono (n * 10 + (b2z b - 0x30)) s Hs ltac:(lia)). rewrite Z.gtb_ltb.
  destruct (Z.ltb_spec 1000000000000000 n); [lia|]. unfold checked_i64.
  destruct (Z.leb_spec (- 2 ^ 63) (n * 10 + (char b - 0x30))); [|lia].
  destruct (Z.ltb_spec (n * 10 + (char b - 0x30)) (2 ^ 63)); [|lia]. cbn [andb obind]. rewrite Hc. apply IH; [lia|done|lia].
Qed.

Lemma to_string_nonempty n : 0 <= n < 10 ^ 20 -> to_string n <> [].
Proof.
  intros Hn. destruct (to_digits_spec 20 n []) as (d & Hd & Hne & _); [done|lia|]. unfold to_string. rewrite Hd, app_nil_r. done.
Qed.

Lemma content_length_roundtrip n : 0 <= n <= 10 ^ 15 -> tryParseContentLength (to_string n) = Ok (Some n).
Proof.
  intros Hn. destruct (to_string_parse n) as [Hd Hv]; [lia|]. unfold tryParseContentLength.
  destruct (to_string n) as [|b s] eqn:Hs; [by destruct (to_string_nonempty n); [lia|]|].
  unfold dec_value in Hv. fold (dec_from 0 (b :: s)) in Hv. rewrite parse_length_digits_ok; [by rewrite Hv|lia|done|lia].
Qed.

(** ** Pseudo-headers *)

Definition colon : bytes := bs ":".

(** A name before ":" is before every pseudo-header, any other regular name is after them all. *)
Lemma pseudo_order p n :
  HeaderField.pseudo p = true -> HeaderField.pseudo n = false ->
  bytes_ltb (HeaderField.name n) (HeaderField.name p) = bytes_ltb (HeaderField.name n) colon /\
  bytes_ltb (HeaderField.name p) (HeaderField.name n) = negb (bytes_ltb (HeaderField.name n) colon).
Proof.
  unfold HeaderField.pseudo, colon. destruct (HeaderField.name p) as [|x p']; [done|]. case_bool_decide; [subst x|done]. intros _.
  destruct (HeaderField.name n) as [|y n']; [done|]. case_bool_decide as Hy; [done|]. intros _. cbn.
  change (b2z x3a) with 58. assert (b2z y <> 58) by (intros Heq; apply Hy; by apply b2z_inj).
  destruct (Z.ltb_spec (b2z y) 58); destruct (Z.ltb_spec 58 (b2z y)); try lia; done.
Qed.

Lemma default_names userAgent r n v :
  is_Some (default_value userAgent r n) -> HeaderField.pseudo (HeaderField.mk n v false) = true \/ bytes_ltb n colon = false.
Proof.
  unfold default_value. repeat (case_decide; [subst n; intros _; (by left) || (by right)|]). by intros [].
Qed.

(** Every pseudo-header comes before every other field. *)
Definition pseudo_headers_first (fs : list HeaderField.t) : Prop :=
  forall l1 h l2 g l3, fs = l1 ++ h :: l2 ++ g :: l3 -> HeaderField.pseudo g = true -> HeaderField.pseudo h = true.

(** The method the request goes out with. *)
Definition sent_method (r : Client.request) : bytes := default (Client.method r) (last_value (bs ":method") (Client.headers r)).

(** C32: the wire request of any client request says what the user asked
    for: under each name it has the last value the user gave, or else the
    default one - method, scheme, authority, path, user agent, accepted
    types - and nothing more; the body is the user's; a Content-Length that
    the client adds is read back as the size of the body.  The protocol
    accepts it as well formed exactly when the method it goes out with - the
    last one among the user's headers, if there is a :method, otherwise that
    of the request - is not CONNECT. *)
Theorem wire_request_correct userAgent r :
  let wire := Client.buildWireRequest userAgent r in
  (forall n, StdMap.find n (Request.headers wire) =
     match last_value n (Client.headers r) with Some v => Some v | None => default_value userAgent r n end) /\
  Request.body wire = Client.body r /\
  Request.isValid wire = negb (bool_decide (sent_method r = bs "CONNECT")) /\
  (Client.body r <> [] -> Client.autoContentLength (Client.options r) = true ->
   last_value CONTENT_LENGTH (Client.headers r) = None -> zlen (Client.body r) <= 10 ^ 15 ->
   exists v, StdMap.find CONTENT_LENGTH (Request.headers wire) = Some v /\
     tryParseContentLength v = Ok (Some (zlen (Client.body r)))).
Proof.
  intros wire. pose proof (wire_find userAgent r) as Hfind. split; [done|]. split; [|split].
  - unfold wire, Client.buildWireRequest. cbn zeta. by destruct (_ && _).
  - assert (Hps : forall n, is_Some (default_value userAgent r n) -> is_Some (StdMap.find n (Request.headers wire))).
    { intros n Hn. unfold wire. rewrite Hfind. by destruct (last_value _ _). }
    assert (Hm : StdMap.find (bs ":method") (Request.headers wire) = Some (sent_method r)).
    { unfold wire, sent_method. rewrite Hfind. by destruct (last_value _ _). }
    destruct (Hps (bs ":scheme")) as [vs Hs]; [by eexists|]. destruct (Hps (bs ":path")) as [vp Hpath]; [by eexists|].
    destruct (Hps (bs ":authority")) as [va Hau]; [by eexists|].
    unfold Request.isValid, StdMap.contains. rewrite Hm, Hs, Hpath, Hau.
    destruct (Request.headers wire); [done|]. by repeat case_bool_decide.
  - intros Hb Hauto Hl Hlen. unfold wire. rewrite (Hfind CONTENT_LENGTH), Hl. exists (to_string (zlen (Client.body r))). split.
    + unfold default_value. rewrite Hauto. by destruct (Client.body r).
    + apply content_length_roundtrip. split; [apply zlen_nonneg|done].
Qed.

(** C33: pseudo-headers come first in the header block of a client request,
    as RFC 9113 section 8.3 demands, exactly when no name given by the user
    sorts before ":" - the fields are sent in the order of the map. *)
Theorem pseudo_headers_first_iff userAgent r :
  pseudo_headers_first (buildRequestHeaderFields (Client.buildWireRequest userAgent r)) <->
  Forall (fun h => bytes_ltb (HeaderField.name h) colon = false) (Client.headers r).
Proof.
  set (m := Request.headers (Client.buildWireRequest userAgent r)).
  assert (Hsorted : sorted_map m) by apply wire_sorted.
  assert (Hfind : forall n, StdMap.find n m = match last_value n (Client.headers r) with Some v => Some v | None => default_value userAgent r n end)
    by (intros; apply wire_find).
  unfold buildRequestHeaderFields. fold m. split.
  - intros Hfirst. apply Forall_forall. intros u Hu. apply not_true_iff_false. intros Hlt.
    destruct (proj1 (find_elem (HeaderField.name u) m)) as [v Hv].
    { rewrite Hfind. destruct (proj2 (last_value_some (HeaderField.name u) (Client.headers r))) as [v ->]; eauto. }
    destruct (proj1 (find_elem (bs ":method") m)) as [v' Hv'].
    { rewrite Hfind. destruct (last_value _ _); by eexists. }
    assert (Hnp : HeaderField.pseudo (HeaderField.mk (HeaderField.name u) v false) = false).
    { unfold HeaderField.pseudo. cbn. destruct (HeaderField.name u) as [|b n]; [done|]. case_bool_decide; [subst|done]. by destruct n. }
    destruct (pseudo_order (HeaderField.mk (bs ":method") v' false) _ eq_refl Hnp) as [Ho _].
    destruct (sorted_before m _ _ Hsorted Hv Hv') as (l1 & l2 & l3 & Heq); [unfold key_lt; cbn in *; congruence|].
    specialize (Hfirst (map (fun '(name, value) => HeaderField.mk name value false) l1)
      (HeaderField.mk (HeaderField.name u) v false) (map (fun '(name, value) => HeaderField.mk name value false) l2)
      (HeaderField.mk (bs ":method") v' false) (map (fun '(name, value) => HeaderField.mk name value false) l3)).
    rewrite Hfirst in Hnp; [done| |done]. rewrite Heq, map_app. cbn. by rewrite map_app.
  - intros Hnames l1 h l2 g l3 Heq Hg.
    destruct (HeaderField.pseudo h) eqn:Hh; [done|exfalso].
    apply map_eq_app in Heq as (m1 & m' & Hm & <- & Heq). apply map_eq_cons in Heq as ([n1 v1] & m2 & -> & <- & Heq).
    apply map_eq_app in Heq as (m3 & m4 & -> & <- & Heq). apply map_eq_cons in Heq as ([n2 v2] & m5 & -> & <- & <-).
    rewrite Hm in Hsorted. pose proof (sorted_after _ _ _ _ _ Hsorted) as Hlt. unfold key_lt in Hlt. cbn [fst] in Hlt.
    destruct (pseudo_order _ _ Hg Hh) as [Ho _]. cbn [HeaderField.name] in Ho. rewrite Ho in Hlt.
    assert (Hn : is_Some (StdMap.find n1 m)).
    { apply find_elem. exists v1. rewrite Hm. apply elem_of_app. right. left. }
    rewrite Hfind in Hn. destruct (last_value n1 (Client.headers r)) eqn:Hl.
    + destruct (proj1 (last_value_some n1 (Client.headers r))) as (u & Hu & <-); [by eexists|].
      eapply Forall_forall in Hnames; [|exact Hu]. cbv beta in Hnames. congruence.
    + destruct (default_names userAgent r n1 v1 Hn); congruence.
Qed.

(** ** Sending *)

(** What a request must have, and what is answered to one that has it not. *)
Definition names_peer (ep : Endpoint.t) : Prop := Endpoint.host ep <> [] \/ Endpoint.ip ep <> [] \/ Endpoint.sockFile ep <> [].
Definition acceptable (r : Client.request) : Prop :=
  names_peer (Client.endpoint r) /\ Client.method r <> [] /\ exists rest, Client.target r = bs "/" ++ rest.

Inductive refused (r : Client.request) : bytes -> Prop :=
| refused_endpoint : ~ names_peer (Client.endpoint r) -> refused r (bs "Request endpoint is empty")
| refused_method : names_peer (Client.endpoint r) -> Client.method r = [] -> refused r (bs "Request method is empty")
| refused_target : names_peer (Client.endpoint r) -> Client.method r <> [] -> Client.target r = [] ->
    refused r (bs "Request target is empty")
| refused_path : names_peer (Client.endpoint r) -> Client.method r <> [] -> Client.target r <> [] ->
    (forall rest, Client.target r <> bs "/" ++ rest) -> refused r (bs "Request target must start with '/'").

Lemma nonempty_iff (l : bytes) : Endpoint.is_empty l = false <-> l <> [].
Proof. by destruct l. Qed.

Lemma names_peer_iff ep :
  Endpoint.is_empty (Endpoint.host ep) && Endpoint.is_empty (Endpoint.ip ep) && Endpoint.is_empty (Endpoint.sockFile ep) = false <->
  names_peer ep.
Proof. unfold names_peer. rewrite !andb_false_iff, !nonempty_iff. tauto. Qed.

Lemma validate_refused r :
  match Client.validateRequest r with
  | None => acceptable r
  | Some response => exists message, refused r message /\ response = Response.customError message
  end.
Proof.
  unfold Client.validateRequest. destruct (_ && _ && _) eqn:Hep.
  { eexists. split; [|done]. constructor. rewrite <- names_peer_iff. congruence. }
  apply names_peer_iff in Hep. destruct (Endpoint.is_empty (Client.method r)) eqn:Hm.
  { eexists. split; [|done]. constructor; [done|]. by destruct (Client.method r). }
  apply nonempty_iff in Hm. destruct (Client.target r) as [|b rest] eqn:Ht; [eexists; split; [by constructor|done]|].
  case_bool_decide as Hb; cbn [negb].
  - subst b. split; [done|]. split; [done|]. by exists rest.
  - eexists. split; [|done]. constructor; [done..|by rewrite Ht|]. intros rest'. rewrite Ht. cbn. congruence.
Qed.

Lemma refused_unique r m1 m2 : refused r m1 -> refused r m2 -> m1 = m2.
Proof. intros [] []; tauto. Qed.

Lemma acceptable_not_refused r m : acceptable r -> ~ refused r m.
Proof. intros (Hp & Hm & rest & Ht) []; try tauto; [rewrite Ht in *; done|naive_solver]. Qed.

Section send.
Context {S : Type} `{IHttpSession S} `{HeapOrder} `{!HashOrder EndpointKey} `{!HashOrder Z} {checks : Connection.Checks}.

(** Whether the threads run once a call of [sendAsync] has asked for them. *)
Definition threads_start (opened : bool) (w : World.t S) : bool :=
  match World.started w with
  | Some result => result
  | None => Reactor.running (World.reactor w) || opened
  end.

(** A request has been answered: its context is finished and its completion
    handler called, or queued for the dispatcher. *)
Definition answered (p : Z) (response : Response.t) (w : World.t S) : Prop :=
  (exists c, World.heap w !! p = Some c /\ RequestContext.finished c = true) /\
  World.contexts w !! p = None /\
  (p, response) ∈ World.completions w ++ CallbackDispatcher.tasks (World.callbackDispatcher w).

(** Completing a context nobody has completed yet. *)
Lemma complete_fresh E p c response (w : World.t S) :
  World.heap w !! p = Some c -> RequestContext.REQUEST_ID c = p -> RequestContext.finished c = false -> RequestContext.getTimerId c = 0 ->
  wp E (ConnectionManager.completeRequest (Some p) response)
    (fun _ w' => answered p response w' /\ World.nextRequestId w' = World.nextRequestId w) w.
Proof.
  intros Hc Hid Hf Ht. cbn [ConnectionManager.completeRequest].
  apply wp_bind. eapply wp_of_run; [unfold ConnectionManager.deref_request; by rewrite Hc|].
  unfold RequestContext.tryFinish. rewrite Hf. cbn [negb]. do 2 wp_step.
  unfold RequestContext.getTimerId in Ht |- *. cbn [RequestContext.timerId RequestContext.REQUEST_ID]. rewrite Ht, Hid. cbn [Z.eqb]. do 2 wp_step.
  do 4 wp_step. match goal with |- wp _ _ _ ?w1 => set (w1' := w1) end.
  assert (Hw1 : (exists c, World.heap w1' !! p = Some c /\ RequestContext.finished c = true) /\ World.contexts w1' !! p = None).
  { split; [eexists; cbn; by rewrite lookup_insert_eq|]. cbn. apply lookup_delete_eq. }
  destruct Hw1 as [Hw1 Hw2].
  assert (Hinvoked : forall d, answered p response (World.set_completions
      (World.completions (World.set_callbackDispatcher d w1') ++ [(p, response)]) (World.set_callbackDispatcher d w1'))).
  { intros d. split; [exact Hw1|]. split; [exact Hw2|]. cbn. rewrite !elem_of_app, list_elem_of_singleton. tauto. }
  destruct (CallbackDispatcher.isRunning _).
  - destruct (CallbackDispatcher.post _ _) as [posted d] eqn:Hpost. do 2 wp_step. destruct posted.
    + wp_step. split; [|done]. split; [exact Hw1|]. split; [exact Hw2|]. unfold CallbackDispatcher.post in Hpost.
      destruct (_ || _); [discriminate|]. injection Hpost as <-. cbn. rewrite !elem_of_app, list_elem_of_singleton. tauto.
    + apply wp_modify. split; [apply Hinvoked|done].
  - apply wp_modify. split; [|done]. split; [exact Hw1|]. split; [exact Hw2|]. cbn. rewrite !elem_of_app, list_elem_of_singleton. tauto.
Qed.

Lemma start_threads E opened (w : World.t S) :
  wp E (ManagerSteps.startThreadsIfNeeded opened)
    (fun ok w' => ok = threads_start opened w /\ World.heap w' = World.heap w /\ World.contexts w' = World.contexts w /\
       World.nextRequestId w' = World.nextRequestId w) w.
Proof.
  unfold ManagerSteps.startThreadsIfNeeded, threads_start. do 2 wp_step. destruct (World.started w); [by wp_step|].
  wp_step. apply wp_of_run with (a := fst (CallbackDispatcher.start (World.callbackDispatcher w)))
    (s' := World.set_callbackDispatcher (snd (CallbackDispatcher.start (World.callbackDispatcher w))) w);
    [unfold ManagerSteps.on_dispatcher; by destruct (CallbackDispatcher.start _)|].
  wp_step. unfold Connection.on_reactor, wp at 1, Reactor.start. cbn [World.reactor World.set_callbackDispatcher].
  destruct (Reactor.running (World.reactor w)); [cbn [negb orb]; by wp_steps|]. destruct opened; cbn [negb orb]; by wp_steps.
Qed.

(** The first critical section of [sendAsync]. *)
Definition sent (p : Z) (wire : Request.t) (ep : Endpoint.t) (ms : Z) (started : bool) (w : World.t S) : Prop :=
  if started
  then World.heap w !! p = Some (RequestContext.setCancelHandler (RequestContext.init p ms)) /\
       World.contexts w !! p = Some (Some p) /\ World.sending w !! p = Some (AtTimer wire ep ms)
  else answered p (Response.failConnectionError (bs "Connection manager failed to start")) w.

Lemma send_begin_outcome wire ep ms opened (w : World.t S) :
  let p := World.nextRequestId w in
  wp (fun f => f = Connection.ids_exhausted /\ 2 ^ 64 <= p + 1) (ManagerSteps.send_begin wire ep ms opened)
    (fun _ w' => World.nextRequestId w' = u64 (p + 1) /\ sent p wire ep ms (threads_start opened w) w') w.
Proof.
  intros p. unfold ManagerSteps.send_begin, Connection.fetch_add. do 3 wp_step. fold p.
  destruct (p + 1 <? 2 ^ 64) eqn:Hp; bool_to_prop; [|apply wp_fail; split; [done|lia]]. do 5 wp_step.
  match goal with |- wp _ _ _ ?w1 => set (w1' := w1) end.
  assert (Hw1 : World.heap w1' !! p = Some (RequestContext.setCancelHandler (RequestContext.init p ms))) by (cbn; by rewrite lookup_insert_eq).
  assert (Hn1 : World.nextRequestId w1' = u64 (p + 1)) by done.
  change (threads_start opened w) with (threads_start opened w1'). clearbody w1'.
  wp_step. eapply wp_mono; [apply start_threads|]. intros ok w2 (-> & Hh2 & Hc2 & Hn2).
  unfold sent. destruct (threads_start opened w1'); cbn [negb].
  - do 2 wp_step. apply wp_modify. split; [by rewrite <- Hn1|]. cbn. rewrite Hh2, !lookup_insert_eq. done.
  - eapply wp_mono; [eapply complete_fresh; [by rewrite Hh2|done..]|]. intros u w3 (Ha & Hn3). split; [congruence|done].
Qed.

End send.

(** ** Concrete requests *)

#[local] Instance debug_checks : Connection.Checks := {| Connection.asserts := true; Connection.races := true |}.

Definition example_post (name : bytes) : Client.request :=
  Client.mk_request (Endpoint.mk (bs "example.org") 8443 true [] [] [] TCP) (bs "POST") (bs "/items")
    [HeaderField.mk name (bs "v") false] (bs "hello") Client.default_options.

Example example_wire :
  Request.headers (Client.buildWireRequest (bs "chttp2/0.1") (example_post (bs "x-id"))) =
  [(bs ":authority", bs "example.org:8443"); (bs ":method", bs "POST"); (bs ":path", bs "/items"); (bs ":scheme", bs "https");
   (bs "accept", bs "*/*"); (bs "content-length", bs "5"); (bs "user-agent", bs "chttp2/0.1"); (bs "x-id", bs "v")].
Proof. by vm_compute. Qed.

(** A name that sorts before ":" displaces the pseudo-headers. *)
Example example_misplaced :
  map HeaderField.name (buildRequestHeaderFields (Client.buildWireRequest (bs "chttp2/0.1") (example_post (bs "2fa")))) =
  [bs "2fa"; bs ":authority"; bs ":method"; bs ":path"; bs ":scheme"; bs "accept"; bs "content-length"; bs "user-agent"].
Proof. by vm_compute. Qed.

(** A GET over TLS without a port, and a target without its slash. *)
Definition example_get (target : bytes) : Client.request :=
  Client.mk_request (Endpoint.mk (bs "example.org") 0 true [] [] [] TCP) (bs "GET") target [] [] Client.default_options.


Lemma wire_request_correct_witness :
  Client.validateRequest (example_post (bs "x-id")) = None /\
  Request.isValid (Client.buildWireRequest (bs "chttp2/0.1") (example_post (bs "x-id"))) = true /\
  exists v, StdMap.find CONTENT_LENGTH (Request.headers (Client.buildWireRequest (bs "chttp2/0.1") (example_post (bs "x-id")))) = Some v /\
    tryParseContentLength v = Ok (Some 5).
Proof.
  split; [done|].
  destruct (wire_request_correct (bs "chttp2/0.1") (example_post (bs "x-id"))) as (_ & _ & Hv & Hc).
  split; [by rewrite Hv|]. apply Hc; [done|done|done|by vm_compute].
Defined.
