(* ===== verification/GetTool.v ===== *)
(** * The command-line client

    [tools/chttp2_get.cpp]: parsing a URL, the arguments, one GET through the
    client, and the output. *)

From S2P Require Import Prelude Outcome Types HeaderRules HeaderFacts Std Endpoint Client ClientProps.
From S2P Require Import RequestContext Reactor IHttpSession ManagerState ConnectionManager ManagerSteps.

(** ** [std::string] *)

(** [s.find(prefix) == 0]: what follows the prefix. *)
Fixpoint after_prefix (prefix s : bytes) : option bytes :=
  match prefix, s with
  | [], _ => Some s
  | c :: prefix', d :: s' => if bool_decide (c = d) then after_prefix prefix' s' else None
  | _ :: _, [] => None
  end.

(** [s.find(c)]: the part before, and the rest with [c]. *)
Fixpoint split_first (c : byte) (s : bytes) : option (bytes * bytes) :=
  match s with
  | [] => None
  | d :: s' =>
      if bool_decide (c = d) then Some ([], s)
      else match split_first c s' with Some (a, b) => Some (d :: a, b) | None => None end
  end.

(** [s.rfind(c)]: the parts before and after [c]. *)
Fixpoint split_last (c : byte) (s : bytes) : option (bytes * bytes) :=
  match s with
  | [] => None
  | d :: s' =>
      match split_last c s' with
      | Some (a, b) => Some (d :: a, b)
      | None => if bool_decide (c = d) then Some ([], s') else None
      end
  end.

(** [s.c_str()] as [printf] reads it: up to the first zero byte. *)
Definition c_str (s : bytes) : bytes := take_while (fun b => negb (b2z b =? 0)) s.
Definition print_int (n : Z) : bytes := if n <? 0 then bs "-" ++ to_string (- n) else to_string n.
Definition newline : bytes := [x0a].

(** ** URLs *)

Module ParsedURL.
Record t := mk { host : bytes; port : Z; ssl : bool; path : bytes }.
End ParsedURL.

(** [parseURL]: [inl] is what it prints when it fails. *)
Definition parseURL (url : bytes) : outcome (bytes + ParsedURL.t) :=
  let scheme :=
    match after_prefix (bs "https://") url with
    | Some s => Some (true, s)
    | None =>
        match after_prefix (bs "http://") url with
        | Some s => Some (false, s)
        | None => None
        end
    end in
  match scheme with
  | None => Ok (inl (bs "error: URL must start with http:// or https://" ++ newline))
  | Some (ssl, s) =>
      let '(hostPort, path) :=
        match split_first x2f s with
        | Some (a, b) => (a, b)
        | None => (s, bs "/")
        end in
      let! (host, port) :=
        match split_last x3a hostPort with
        | Some (a, b) => let! n := stoi b in Ok (a, u16 n)
        | None => Ok (hostPort, if ssl then 443 else 80)
        end in
      if Endpoint.is_empty host then Ok (inl (bs "error: empty host" ++ newline))
      else Ok (inr (ParsedURL.mk host port ssl path))
  end.

Definition url_endpoint (u : ParsedURL.t) : Endpoint.t :=
  Endpoint.mk (ParsedURL.host u) (ParsedURL.port u) (ParsedURL.ssl u) [] [] [] TCP.

(** ** Output *)

(** What the process leaves: its exit code, and what it printed. *)
Record exited := mk_exited { code : Z; out : bytes; err : bytes }.

Definition usage : bytes :=
  bs "Usage: chttp2_get [-v] <url>" ++ newline ++
  bs "  e.g. chttp2_get https://www.example.com" ++ newline ++
  bs "       chttp2_get -v https://nghttp2.org" ++ newline.

(** [> GET path scheme://host:portpath] *)
Definition request_line (u : ParsedURL.t) : bytes :=
  bs "> GET " ++ c_str (ParsedURL.path u) ++ bs " " ++ (if ParsedURL.ssl u then bs "https" else bs "http") ++
  bs "://" ++ c_str (ParsedURL.host u) ++ bs ":" ++ print_int (ParsedURL.port u) ++ c_str (ParsedURL.path u) ++ newline.

Definition error_line (r : Response.t) : bytes :=
  bs "error: " ++ c_str (Response.errorMsg r) ++
  (if Endpoint.is_empty (Response.extraMsg r) then [] else bs " (" ++ c_str (Response.extraMsg r) ++ bs ")") ++
  newline.

(** The headers, pseudo-headers skipped. *)
Fixpoint header_lines (hs : list HeaderField.t) : bytes :=
  match hs with
  | [] => []
  | h :: hs' =>
      (if HeaderField.pseudo h then []
       else bs "< " ++ c_str (HeaderField.name h) ++ bs ": " ++ c_str (HeaderField.value h) ++ newline)
      ++ header_lines hs'
  end.

(** ** [main] *)

Definition is_help (arg : bytes) : bool := bool_decide (arg = bs "--help") || bool_decide (arg = bs "-h").

(** The last argument that is not the flag is the URL. *)
Fixpoint scan_args (args : list bytes) (verbose : bool) (url : option bytes) : bool * option bytes :=
  match args with
  | [] => (verbose, url)
  | arg :: args' =>
      if bool_decide (arg = bs "-v") then scan_args args' true url else scan_args args' verbose (Some arg)
  end.

Section main.
(** [client.Get(ep, path)], which blocks until the request is answered: its
    answer is [Client.future_get] of [Client.Get]. *)
Context (get : Endpoint.t -> bytes -> Response.t).

(** The GET and its report, once the URL is known. *)
Definition fetch (u : ParsedURL.t) : outcome exited :=
  let resp := get (url_endpoint u) (ParsedURL.path u) in
  if Response.isError resp then Ok (mk_exited 1 [] (request_line u ++ error_line resp))
  else
    let! status := Response.getStatusCode resp in
    Ok (mk_exited 0 (Response.body resp)
          (request_line u ++ bs "< " ++ print_int status ++ newline ++
           header_lines (Response.headers resp) ++ bs "< " ++ newline)).

(** [args] are [argv[1]], ..., [argv[argc - 1]]. *)
Definition main (args : list bytes) : outcome exited :=
  match args with
  | [] => Ok (mk_exited 1 usage [])
  | first :: _ =>
      if is_help first then Ok (mk_exited 0 usage [])
      else
        match snd (scan_args args false None) with
        | None => Ok (mk_exited 1 [] (bs "error: no URL provided" ++ newline))
        | Some url =>
            let! parsed := parseURL url in
            match parsed with
            | inl message => Ok (mk_exited 1 [] message)
            | inr u => fetch u
            end
        end
  end.
End main.

(** ** Facts *)

Lemma after_prefix_app prefix s : after_prefix prefix (prefix ++ s) = Some s.
Proof. induction prefix as [|c prefix IH]; [done|]. cbn. by rewrite bool_decide_true. Qed.

Lemma split_first_none c s : c ∉ s -> split_first c s = None.
Proof.
  induction s as [|d s IH]; [done|]. rewrite not_elem_of_cons. intros [Hc Hs]. cbn.
  rewrite bool_decide_false by done. by rewrite IH.
Qed.

Lemma split_first_app c a b : c ∉ a -> split_first c (a ++ c :: b) = Some (a, c :: b).
Proof.
  induction a as [|d a IH]; cbn; [by rewrite bool_decide_true|]. rewrite not_elem_of_cons. intros [Hc Ha].
  rewrite bool_decide_false by done. by rewrite IH.
Qed.

Lemma split_last_none c s : c ∉ s -> split_last c s = None.
Proof.
  induction s as [|d s IH]; [done|]. rewrite not_elem_of_cons. intros [Hc Hs]. cbn.
  rewrite IH by done. by rewrite bool_decide_false.
Qed.

Lemma split_last_app c a b : c ∉ b -> split_last c (a ++ c :: b) = Some (a, b).
Proof.
  intros Hb. induction a as [|d a IH]; cbn; [|by rewrite IH]. by rewrite split_last_none, bool_decide_true.
Qed.

Lemma digits_without c s : is_digit c = false -> all_digits s = true -> c ∉ s.
Proof. intros Hc Hs Hin. unfold all_digits in Hs. rewrite forallb_forall in Hs. apply list_elem_of_In in Hin. by rewrite Hs in Hc. Qed.

Lemma stoi_to_string n : 0 <= n <= INT32_MAX -> stoi (to_string n) = Ok n.
Proof.
  unfold INT32_MAX. intros Hn. destruct (to_string_parse n) as [Hd Hv]; [lia|].
  rewrite <- Hv at 2. apply stoi_digits; [done| |unfold INT32_MAX; lia]. apply to_string_nonempty. lia.
Qed.

(** *** The URLs the tool understands *)

Record url := mk_url { u_ssl : bool; u_host : bytes; u_port : option Z; u_path : bytes }.

Definition port_text (port : option Z) : bytes :=
  match port with Some n => bs ":" ++ to_string n | None => [] end.
Definition render (u : url) : bytes :=
  (if u_ssl u then bs "https://" else bs "http://") ++ u_host u ++ port_text (u_port u) ++ u_path u.

Definition url_ok (u : url) : Prop :=
  u_host u <> [] /\ x2f ∉ u_host u /\ x3a ∉ u_host u /\
  (forall n, u_port u = Some n -> 0 <= n < 2 ^ 16) /\
  match u_path u with [] => True | c :: _ => c = x2f end.

Definition parsed (u : url) : ParsedURL.t :=
  ParsedURL.mk (u_host u) (default (Client.default_port (u_ssl u)) (u_port u)) (u_ssl u)
    (match u_path u with [] => bs "/" | path => path end).

Lemma parse_host_port (host : bytes) (port : option Z) (ssl : bool) :
  host <> [] -> x3a ∉ host -> (forall n, port = Some n -> 0 <= n < 2 ^ 16) ->
  (let! (host, port) :=
     match split_last x3a (host ++ port_text port) with
     | Some (a, b) => let! n := stoi b in Ok (a, u16 n)
     | None => Ok (host ++ port_text port, if ssl then 443 else 80)
     end in Ok (host, port)) = Ok (host, default (Client.default_port ssl) port).
Proof.
  intros Hne Hcolon Hport. destruct port as [n|]; cbn [port_text default].
  - specialize (Hport n eq_refl). destruct (to_string_parse n) as [Hd _]; [lia|].
    change (bs ":" ++ to_string n) with (x3a :: to_string n). rewrite split_last_app by by eapply digits_without.
    rewrite stoi_to_string by (unfold INT32_MAX; lia). cbn [obind]. unfold u16. by rewrite Z.mod_small by lia.
  - rewrite app_nil_r, split_last_none by done. done.
Qed.

Lemma parseURL_render u : url_ok u -> parseURL (render u) = Ok (inr (parsed u)).
Proof.
  intros (Hne & Hslash & Hcolon & Hport & Hpath). unfold parseURL, render.
  set (rest := u_host u ++ port_text (u_port u) ++ u_path u).
  assert (Hscheme : (match after_prefix (bs "https://") ((if u_ssl u then bs "https://" else bs "http://") ++ rest) with
    | Some s => Some (true, s)
    | None => match after_prefix (bs "http://") ((if u_ssl u then bs "https://" else bs "http://") ++ rest) with
              | Some s => Some (false, s) | None => None end
    end) = Some (u_ssl u, rest)) by by destruct (u_ssl u).
  rewrite Hscheme. cbv beta iota zeta. clear Hscheme.
  assert (Hauth : x2f ∉ u_host u ++ port_text (u_port u)).
  { rewrite elem_of_app. intros [?|Hin]; [done|]. destruct (u_port u) as [n|] eqn:Hn; [|by apply elem_of_nil in Hin].
    specialize (Hport n eq_refl). destruct (to_string_parse n) as [Hd _]; [lia|].
    apply elem_of_cons in Hin as [?|Hin]; [done|]. by eapply digits_without in Hin. }
  assert (Hsplit : (match split_first x2f rest with Some (a, b) => (a, b) | None => (rest, bs "/") end) =
    (u_host u ++ port_text (u_port u), ParsedURL.path (parsed u))).
  { unfold rest, parsed. cbn [ParsedURL.path]. rewrite app_assoc. destruct (u_path u) as [|c path].
    - by rewrite app_nil_r, split_first_none.
    - subst c. by rewrite split_first_app. }
  rewrite Hsplit. cbv beta iota zeta. pose proof (parse_host_port (u_host u) (u_port u) (u_ssl u) Hne Hcolon Hport) as Hp.
  destruct (match split_last x3a _ with Some _ => _ | None => _ end) as [[host port]|]; [|done].
  cbn [obind] in *. injection Hp as -> ->. unfold parsed. destruct (u_host u); [done|]. done.
Qed.

(** The request of the tool. *)
Definition tool_request (u : ParsedURL.t) : Client.request :=
  Client.mk_request (url_endpoint u) Client.GET (ParsedURL.path u) [] [] Client.default_options.

(** The port a URL names on the wire: not the default one of its scheme. *)
Definition named_port (u : url) : bytes :=
  match u_port u with
  | Some n => if (n =? 0) || (n =? Client.default_port (u_ssl u)) then [] else port_text (Some n)
  | None => []
  end.

(** ** Properties *)

(** C35: the command-line client asks for what its URL says and reports what
    it gets.  For the URL [scheme://host[:port][/path]] among its arguments
    the request is a valid one, its pseudo-headers are the method GET, the
    scheme, the host with the port unless it is the default one, and the path
    or "/"; the process exits with 0 exactly when the response is not an
    error, and its standard output is then the body. *)
Theorem get_tool_correct get userAgent u args :
  url_ok u -> snd (scan_args args false None) = Some (render u) ->
  (forall arg, head args = Some arg -> is_help arg = false) ->
  let wire := Client.buildWireRequest userAgent (tool_request (parsed u)) in
  let resp := get (url_endpoint (parsed u)) (ParsedURL.path (parsed u)) in
  (Client.validateRequest (tool_request (parsed u)) = None /\ Request.isValid wire = true /\
   StdMap.find (bs ":method") (Request.headers wire) = Some (bs "GET") /\
   StdMap.find (bs ":scheme") (Request.headers wire) = Some (if u_ssl u then bs "https" else bs "http") /\
   StdMap.find (bs ":authority") (Request.headers wire) = Some (u_host u ++ named_port u) /\
   StdMap.find (bs ":path") (Request.headers wire) = Some (match u_path u with [] => bs "/" | path => path end)) /\
  main get args = fetch get (parsed u) /\
  (forall e, main get args = Ok e ->
     (code e = 0 <-> Response.isError resp = false) /\ (code e = 0 -> out e = Response.body resp)) /\
  (Response.isError resp = true \/ is_ok (Response.getStatusCode resp) = true -> is_ok (main get args) = true).
Proof.
  intros Hu Hargs Hhelp wire resp. pose proof Hu as (Hne & _ & _ & Hport & Hpath).
  assert (Hmain : main get args = fetch get (parsed u)).
  { unfold main. destruct args as [|first args]; [done|]. rewrite (Hhelp first eq_refl), Hargs, parseURL_render by done. done. }
  assert (Hvalid : Client.validateRequest (tool_request (parsed u)) = None).
  { unfold Client.validateRequest, tool_request, parsed, url_endpoint. cbn. destruct (u_host u); [done|].
    destruct (u_path u) as [|c path]; [done|]. by subst c. }
  assert (Hfind : forall n, StdMap.find n (Request.headers wire) = default_value userAgent (tool_request (parsed u)) n)
    by (intros n; unfold wire; by rewrite wire_find).
  split.
  - split; [done|]. split; [|rewrite !Hfind; split; [done|split; [done|split; [|done]]]].
    + unfold Request.isValid, StdMap.contains. destruct (Request.headers wire) as [|x m].
      { specialize (Hfind (bs ":method")). discriminate Hfind. }
      by rewrite !Hfind.
    + change (default_value userAgent (tool_request (parsed u)) (bs ":authority"))
        with (Some (Client.authority (url_endpoint (parsed u)))).
      f_equal. unfold Client.authority, url_endpoint, parsed, named_port. cbn -[to_string port_text]. destruct (u_host u) as [|c host]; [done|].
      cbn [Endpoint.is_empty]. f_equal. destruct (u_port u) as [n|]; cbn -[to_string port_text].
      * change (Datatypes.id n) with n. destruct (n =? 0), (n =? _); done.
      * rewrite Z.eqb_refl. by destruct (u_ssl u).
  - rewrite Hmain. split; [done|]. unfold fetch. fold resp. split.
    + intros e. destruct (Response.isError resp); [by intros [= <-]|].
      destruct (Response.getStatusCode resp); [|done]. by intros [= <-].
    + destruct (Response.isError resp); [done|]. by destruct (Response.getStatusCode resp); [|intros []].
Qed.

(** *** A run, and URLs the tool does not treat as one would expect *)

Definition example_url : url := mk_url true (bs "nghttp2.org") (Some 8443) (bs "/httpbin/get?a=1").
Definition example_get (ep : Endpoint.t) (path : bytes) : Response.t :=
  Response.set_body (bs "hello") (Response.set_headers [HeaderField.mk (bs ":status") (bs "200") false] Response.init).

Example example_render : render example_url = bs "https://nghttp2.org:8443/httpbin/get?a=1".
Proof. vm_compute. reflexivity. Qed.

Example example_main :
  main example_get [bs "-v"; bs "https://nghttp2.org:8443/x"] =
  Ok (mk_exited 0 (bs "hello")
    (bs "> GET /x https://nghttp2.org:8443/x" ++ newline ++ bs "< 200" ++ newline ++ bs "< " ++ newline)).
Proof. vm_compute. reflexivity. Qed.

Lemma get_tool_correct_witness :
  let wire := Client.buildWireRequest (bs "chttp2/0.1") (tool_request (parsed example_url)) in
  let resp := example_get (url_endpoint (parsed example_url)) (ParsedURL.path (parsed example_url)) in
  (Client.validateRequest (tool_request (parsed example_url)) = None /\ Request.isValid wire = true /\
   StdMap.find (bs ":method") (Request.headers wire) = Some (bs "GET") /\
   StdMap.find (bs ":scheme") (Request.headers wire) = Some (bs "https") /\
   StdMap.find (bs ":authority") (Request.headers wire) = Some (u_host example_url ++ named_port example_url) /\
   StdMap.find (bs ":path") (Request.headers wire) = Some (bs "/httpbin/get?a=1")) /\
  main example_get [bs "-v"; render example_url] = fetch example_get (parsed example_url) /\
  (forall e, main example_get [bs "-v"; render example_url] = Ok e ->
     (code e = 0 <-> Response.isError resp = false) /\ (code e = 0 -> out e = Response.body resp)) /\
  (Response.isError resp = true \/ is_ok (Response.getStatusCode resp) = true ->
   is_ok (main example_get [bs "-v"; render example_url]) = true).
Proof.
  apply (get_tool_correct example_get (bs "chttp2/0.1") example_url [bs "-v"; render example_url]).
  - split; [done|]. split; [apply (bool_decide_eq_true_1 (x2f ∉ u_host example_url)); vm_compute; reflexivity|].
    split; [apply (bool_decide_eq_true_1 (x3a ∉ u_host example_url)); vm_compute; reflexivity|].
    split; [intros n [= <-]; lia|reflexivity].
  - vm_compute. reflexivity.
  - intros arg [= <-]. reflexivity.
Defined.

(** The port is not checked: it wraps to 16 bits. *)
Lemma port_wraps :
  parseURL (bs "http://localhost:65616/") = Ok (inr (ParsedURL.mk (bs "localhost") 80 false (bs "/"))).
Proof. vm_compute. reflexivity. Qed.

(** A missing port ends the process with an exception. *)
Lemma missing_port_throws get :
  main get [bs "http://localhost:/"] = throw "std::invalid_argument: stoi".
Proof. vm_compute. reflexivity. Qed.

(** The colons of an IPv6 literal are taken for the port's. *)
Lemma ipv6_literal_cut :
  parseURL (bs "http://[::1]/") = Ok (inr (ParsedURL.mk (bs "[:") 1 false (bs "/"))).
Proof. vm_compute. reflexivity. Qed.

(** A query without a path is taken for the host. *)
Lemma query_taken_for_host :
  parseURL (bs "http://localhost?q=1") = Ok (inr (ParsedURL.mk (bs "localhost?q=1") 80 false (bs "/"))).
Proof. vm_compute. reflexivity. Qed.
