(* ===== verification/Posix.v ===== *)
(** * Sockets

    [include/chttp2/platform.hpp], [src/platform.cpp] (the Linux branches),
    [include/chttp2/socket_fd.hpp] and [src/socket_fd.cpp].  The operating
    system is a parameter: a class with the calls the code makes. *)

From S2P Require Import Prelude Outcome Types Transport.

(** Nanoseconds. *)
Definition MILLISEC : Z := 1000000.

Inductive SockAddr : Type := Inet (ip : bytes) (port : bytes) | Unix (path : bytes).
Record AddrInfo := mk_addr { ai_family : Z; ai_addr : SockAddr }.

Inductive SockOpt : Type := SO_KEEPALIVE | TCP_KEEPIDLE | TCP_KEEPINTVL | TCP_KEEPCNT.

(** Its calls; [K] is the state of the system. *)
Class Posix (K : Type) : Type := {
  posix_errno :: Errno;
  EINPROGRESS : Z; EINTR : Z; ETIMEDOUT : Z;
  O_NONBLOCK : Z;
  AF_UNIX : Z;
  strerror : Z -> bytes;
  errno : K -> Z;
  set_errno : Z -> K -> K;
  sys_now : K -> Z * K;
  sys_socket : Z -> K -> Z * K;
  sys_close : Z -> K -> K;
  sys_connect : Z -> SockAddr -> K -> Z * K;
  sys_poll_out : Z -> Z -> K -> Z * K;
  sys_so_error : Z -> K -> option Z * K;
  sys_getfl : Z -> K -> Z * K;
  sys_setfl : Z -> Z -> K -> Z * K;
  sys_setsockopt : Z -> SockOpt -> Z -> K -> Z * K;
  sys_shutdown : Z -> K -> Z * K;
  sys_recv : Z -> Z -> K -> (Z * bytes) * K;
  sys_send : Z -> bytes -> K -> Z * K;
  sys_getaddrinfo : bytes -> bytes -> bool -> K -> (Z * list AddrInfo) * K;
  sys_freeaddrinfo : K -> K;
}.

(** ** [platform.hpp] and [platform.cpp] *)

Section platform.
Context {K : Type} `{Posix K}.

Definition sys {A} (f : K -> A * K) : st K A := fun k => Ok (f k).

Definition lastSocketError : st K Z := gets errno.
Definition setLastSocketError (err : Z) : st K unit := modify (set_errno err).
Definition isInProgress (err : Z) : bool := err =? EINPROGRESS.
Definition isInterrupted (err : Z) : bool := err =? EINTR.
Definition isTimedOut (err : Z) : bool := err =? ETIMEDOUT.
Definition closeSocket (fd : Z) : st K unit := modify (sys_close fd).

Definition setNonBlocking (fd : Z) (enable : bool) : st K bool :=
  flags <- sys (sys_getfl fd) ;;
  if flags <? 0 then ret false
  else
    r <- sys (sys_setfl fd (if enable then Z.lor flags O_NONBLOCK else Z.land flags (Z.lnot O_NONBLOCK))) ;;
    ret (r =? 0).

Definition setKeepAlive (fd : Z) (enable : bool) : st K bool :=
  r <- sys (sys_setsockopt fd SO_KEEPALIVE (if enable then 1 else 0)) ;;
  ret (r =? 0).

Definition setKeepAliveParams (fd idleSec intervalSec count : Z) : st K bool :=
  r <- sys (sys_setsockopt fd TCP_KEEPIDLE idleSec) ;;
  if negb (r =? 0) then ret false
  else
    r <- sys (sys_setsockopt fd TCP_KEEPINTVL intervalSec) ;;
    if negb (r =? 0) then ret false
    else
      r <- sys (sys_setsockopt fd TCP_KEEPCNT count) ;;
      if negb (r =? 0) then ret false else ret true.

Definition shutdownBoth (fd : Z) : st K bool :=
  r <- sys (sys_shutdown fd) ;; ret (r =? 0).

(** A no-op on Linux. *)
Definition suppressSigpipe (fd : Z) : st K unit := ret tt.

(** [recv] with no flags, [send] with [MSG_NOSIGNAL]. *)
Definition socketRecv (fd len : Z) : st K (Z * bytes) := sys (sys_recv fd len).
Definition socketSend (fd : Z) (data : bytes) : st K Z := sys (sys_send fd data).

(** It calls itself when interrupted, and again if that is interrupted. *)
Fixpoint pollForWrite (fuel : nat) (fd timeoutMs : Z) : st K Z :=
  match fuel with
  | O => fail_with Hangs
  | S fuel' =>
      r <- sys (sys_poll_out fd timeoutMs) ;;
      if r <? 0 then
        err <- lastSocketError ;;
        if isInterrupted err then pollForWrite fuel' fd timeoutMs else ret (-1)
      else ret r
  end.

Definition getSocketError (fd : Z) : st K (option Z) := sys (sys_so_error fd).
Definition socketErrorString (err : Z) : bytes := strerror err.
End platform.

(** ** [SocketFd] *)

Module SocketFd.
(** [rawFd] *)
Definition t : Type := Z.
Definition init : t := INVALID_SOCKET.
Definition make (fd : Z) : t := fd.
Definition valid (s : t) : bool := negb (s =? INVALID_SOCKET).
Definition get (s : t) : Z := s.

(** The old descriptor, and the object without it: moving from an object. *)
Definition release (s : t) : Z * t := (s, INVALID_SOCKET).

Section socket.
Context {K : Type} `{Posix K}.

Definition reset (fd : Z) (s : t) : st K t :=
  (if negb (s =? INVALID_SOCKET) then closeSocket s else ret tt) ;;;
  ret fd.

(** [~SocketFd()] *)
Definition destroy (s : t) : st K unit := reset INVALID_SOCKET s ;;; ret tt.

(** [SocketFd(SocketFd&&)] and the move assignment between two objects: the
    target and the source. *)
Definition move_construct (other : t) : t * t := release other.
Definition move_assign (s other : t) : st K (t * t) :=
  let '(fd, other) := release other in
  s <- reset fd s ;;
  ret (s, other).

Definition setNonBlocking (enable : bool) (s : t) : st K bool :=
  if negb (valid s) then ret false else Posix.setNonBlocking s enable.
Definition setKeepAlive (enable : bool) (s : t) : st K bool :=
  if negb (valid s) then ret false else Posix.setKeepAlive s enable.
Definition setKeepAliveParams (idleSec intervalSec count : Z) (s : t) : st K bool :=
  if negb (valid s) then ret false else Posix.setKeepAliveParams s idleSec intervalSec count.
Definition shutdownBoth (s : t) : st K bool :=
  if negb (valid s) then ret false else Posix.shutdownBoth s.

Definition read (len : Z) (s : t) : st K (Z * bytes) :=
  if negb (valid s) then ret (-1, []) else socketRecv s len.
Definition write (data : bytes) (s : t) : st K Z :=
  if negb (valid s) then ret (-1) else socketSend s data.
End socket.
End SocketFd.
