(* ===== verification/PosixLaws.v ===== *)
(** * What the documentation of the system promises

    The part of the system's state that the manual pages speak about, the
    effect of each call on it, and what follows for the functions of
    [src/platform.cpp]. *)

From S2P Require Import Prelude Outcome Types Transport Posix.

(** Descriptors the process holds, address lists not freed yet, descriptors
    in non-blocking mode, connections requested and established, the
    descriptors [close] has been called with, the latest first, and the
    steady clock. *)
Record SysView := mk_view {
  open_fds : gset Z;
  address_lists : nat;
  nonblocking : gset Z;
  connecting : gmap Z SockAddr;
  connected : gmap Z SockAddr;
  closes : list Z;
  time : Z;
}.

Definition add_time (d : Z) (v : SysView) : SysView :=
  mk_view (open_fds v) (address_lists v) (nonblocking v) (connecting v) (connected v) (closes v) (time v + d).
Definition opened (fd : Z) (v : SysView) : SysView :=
  mk_view ({[fd]} ∪ open_fds v) (address_lists v) (nonblocking v ∖ {[fd]}) (delete fd (connecting v)) (delete fd (connected v)) (closes v) (time v).
Definition closed (fd : Z) (v : SysView) : SysView :=
  mk_view (open_fds v ∖ {[fd]}) (address_lists v) (nonblocking v ∖ {[fd]}) (delete fd (connecting v)) (delete fd (connected v)) (fd :: closes v) (time v).
Definition with_lists (n : nat) (v : SysView) : SysView :=
  mk_view (open_fds v) n (nonblocking v) (connecting v) (connected v) (closes v) (time v).
Definition with_nonblocking (s : gset Z) (v : SysView) : SysView :=
  mk_view (open_fds v) (address_lists v) s (connecting v) (connected v) (closes v) (time v).
Definition with_connecting (fd : Z) (a : SockAddr) (v : SysView) : SysView :=
  mk_view (open_fds v) (address_lists v) (nonblocking v) (<[fd := a]> (connecting v)) (connected v) (closes v) (time v).
Definition set_connected (m : gmap Z SockAddr) (v : SysView) : SysView :=
  mk_view (open_fds v) (address_lists v) (nonblocking v) (connecting v) m (closes v) (time v).
Definition with_connected (fd : Z) (a : SockAddr) (v : SysView) : SysView := set_connected (<[fd := a]> (connected v)) v.

(** A call that does not block takes at most [slack]; one that may block
    takes any time. *)
Definition soon (slack : Z) (v v' : SysView) : Prop := exists d, 0 <= d <= slack /\ v' = add_time d v.
Definition eventually (v v' : SysView) : Prop := exists d, 0 <= d /\ v' = add_time d v.

Class PosixLaws (K : Type) `{Posix K} : Type := {
  view : K -> SysView;
  ready : K -> Z -> Prop;  (** [poll] has found the descriptor writable *)
  slack : Z;
  slack_nonneg : 0 <= slack;
  law_nonblock : O_NONBLOCK <> 0;
  law_set_errno e k : view (set_errno e k) = view k /\ errno (set_errno e k) = e;
  law_now k : let '(t, k') := sys_now k in soon slack (view k) (view k') /\ t = time (view k');
  law_socket f k : let '(fd, k') := sys_socket f k in
    if fd =? INVALID_SOCKET then soon slack (view k) (view k')
    else 0 <= fd /\ (fd ∉ open_fds (view k)) /\ soon slack (opened fd (view k)) (view k');
  law_close fd k : soon slack (closed fd (view k)) (view (sys_close fd k));
  law_connect fd a k : let '(r, k') := sys_connect fd a k in
    let v := if r =? 0 then with_connected fd a (view k)
             else if errno k' =? EINPROGRESS then with_connecting fd a (view k) else view k in
    eventually v (view k') /\ (fd ∈ nonblocking (view k) -> soon slack v (view k'));
  law_poll fd ms k : let '(r, k') := sys_poll_out fd ms k in
    eventually (view k) (view k') /\ (0 <= ms -> time (view k') <= time (view k) + ms * MILLISEC + slack) /\
    (0 < r -> ready k' fd);
  law_so_error fd k : let '(o, k') := sys_so_error fd k in
    exists m, soon slack (set_connected m (view k)) (view k') /\
      (m = connected (view k) \/ exists a, connecting (view k) !! fd = Some a /\ m = <[fd := a]> (connected (view k))) /\
      (forall a, o = Some 0 -> connecting (view k) !! fd = Some a -> ready k fd -> m !! fd = Some a);
  law_getfl fd k : let '(fl, k') := sys_getfl fd k in soon slack (view k) (view k') /\ (fd ∈ open_fds (view k) -> 0 <= fl);
  law_setfl fd fl k : let '(r, k') := sys_setfl fd fl k in
    (fd ∈ open_fds (view k) -> r = 0) /\
    soon slack (if r =? 0 then with_nonblocking (if Z.land fl O_NONBLOCK =? 0 then nonblocking (view k) ∖ {[fd]}
                                                 else {[fd]} ∪ nonblocking (view k)) (view k)
                else view k) (view k');
  law_setsockopt fd o v k : soon slack (view k) (view (snd (sys_setsockopt fd o v k)));
  law_shutdown fd k : soon slack (view k) (view (snd (sys_shutdown fd k)));
  law_recv fd len k : let '((r, data), k') := sys_recv fd len k in
    eventually (view k) (view k') /\ (0 <= len -> r <= len) /\ zlen data = Z.max 0 r;
  law_send fd data k : let '(r, k') := sys_send fd data k in eventually (view k) (view k') /\ r <= zlen data;
  law_getaddrinfo host port numeric k : let '((err, l), k') := sys_getaddrinfo host port numeric k in
    eventually (if (err =? 0) && negb (bool_decide (l = [])) then with_lists (S (address_lists (view k))) (view k) else view k) (view k');
  law_freeaddrinfo k : soon slack (with_lists (pred (address_lists (view k))) (view k)) (view (sys_freeaddrinfo k));
}.

#[export] Instance eventually_preorder : PreOrder eventually.
Proof.
  split.
  - intros v. exists 0. split; [lia|]. unfold add_time. rewrite Z.add_0_r. by destruct v.
  - intros v1 v2 v3 (d1 & ? & ->) (d2 & ? & ->). exists (d1 + d2). split; [lia|]. unfold add_time. cbn. f_equal. lia.
Qed.

Lemma soon_eventually s v v' : soon s v v' -> eventually v v'.
Proof. intros (d & ? & ->). exists d. split; [lia|done]. Qed.

(** ** Calls as steps of the logic *)

Section calls.
Context {K : Type} `{PosixLaws K}.
Implicit Types (k : K) (v : SysView).

(** What a call on [fd] may change: not who holds which descriptor. *)
Record kept (fd : Z) v v' : Prop := {
  kp_open : open_fds v' = open_fds v;
  kp_lists : address_lists v' = address_lists v;
  kp_nonblocking : nonblocking v' = nonblocking v;
  kp_time : time v <= time v';
}.
#[export] Instance kept_preorder fd : PreOrder (kept fd).
Proof. split; [by intros v; split|]. intros v1 v2 v3 [] []. split; try congruence. lia. Qed.

Lemma kept_eventually fd v v' : eventually v v' -> kept fd v v'.
Proof. intros (d & ? & ->). split; try done. cbn. lia. Qed.

Lemma soon_time s v v' : soon s v v' -> time v <= time v' <= time v + s.
Proof. intros (d & ? & ->). cbn. lia. Qed.

(** [poll] is not interrupted by signals. *)
Definition calm : Prop := forall fd ms k, let '(r, k') := sys_poll_out fd ms k in r < 0 -> errno k' <> EINTR.

(** The only fault: an endless series of interruptions. *)
Definition interrupted (fuel : nat) (f : fault) : Prop := f = Hangs /\ ~ (calm /\ (0 < fuel)%nat).

Lemma wp_sys {A} (f : K -> A * K) E (Q : A -> K -> Prop) k : (let '(a, k') := f k in Q a k') -> wp E (sys f) Q k.
Proof. unfold wp, sys. by destruct (f k). Qed.

Lemma wp_now E (Q : Z -> K -> Prop) k :
  (forall k', soon slack (view k) (view k') -> Q (time (view k')) k') -> wp E (sys sys_now) Q k.
Proof. intros HQ. apply wp_sys. pose proof (law_now k) as Hl. destruct (sys_now k) as [t k']. destruct Hl as [? ->]. auto. Qed.

Lemma wp_set_error E e (Q : unit -> K -> Prop) k :
  (forall k', view k' = view k -> Q tt k') -> wp E (setLastSocketError e) Q k.
Proof. intros HQ. apply wp_modify, HQ. apply (law_set_errno e k). Qed.

Lemma wp_close E fd (Q : unit -> K -> Prop) k :
  (forall k', soon slack (closed fd (view k)) (view k') -> Q tt k') -> wp E (closeSocket fd) Q k.
Proof. intros HQ. apply wp_modify, HQ, law_close. Qed.

Lemma setNonBlocking_spec E fd (Q : bool -> K -> Prop) k :
  fd ∈ open_fds (view k) ->
  (forall k', open_fds (view k') = open_fds (view k) -> address_lists (view k') = address_lists (view k) ->
     nonblocking (view k') = {[fd]} ∪ nonblocking (view k) ->
     time (view k) <= time (view k') <= time (view k) + 2 * slack -> Q true k') ->
  wp E (setNonBlocking fd true) Q k.
Proof.
  intros Hfd HQ. unfold setNonBlocking. wp_step. apply wp_sys. pose proof (law_getfl fd k) as Hl.
  destruct (sys_getfl fd k) as [fl k1]. destruct Hl as [Hv1 Hfl]. specialize (Hfl Hfd). destruct (Z.ltb_spec fl 0); [lia|].
  destruct Hv1 as (d1 & ? & Hv1). wp_step. apply wp_sys. pose proof (law_setfl fd (Z.lor fl O_NONBLOCK) k1) as Hl.
  destruct (sys_setfl fd (Z.lor fl O_NONBLOCK) k1) as [r k2]. destruct Hl as [Hr Hv2]. rewrite Hr in Hv2 |- * by (by rewrite Hv1).
  cbn [Z.eqb] in Hv2 |- *. apply wp_ret.
  assert (Hn : Z.land (Z.lor fl O_NONBLOCK) O_NONBLOCK = O_NONBLOCK).
  { apply Z.bits_inj'. intros i Hi. rewrite Z.land_spec, Z.lor_spec, andb_orb_distrib_l. by destruct (Z.testbit O_NONBLOCK i); rewrite ?andb_false_r, ?orb_true_r. }
  rewrite Hn in Hv2. destruct (Z.eqb_spec O_NONBLOCK 0) as [Hz|_]; [by apply law_nonblock in Hz|].
  destruct Hv2 as (d2 & ? & Hv2). rewrite Hv1 in Hv2. apply HQ; rewrite Hv2; try done. cbn. lia.
Qed.

Lemma pollForWrite_spec fuel fd ms (Q : Z -> K -> Prop) k :
  (forall r k', eventually (view k) (view k') -> (0 < r -> ready k' fd) ->
     (calm -> 0 <= ms -> time (view k') <= time (view k) + ms * MILLISEC + slack) -> Q r k') ->
  wp (interrupted fuel) (pollForWrite fuel fd ms) Q k.
Proof.
  assert (Hgen : forall k0, eventually (view k) (view k0) -> (calm -> k0 = k) ->
    (forall r k', eventually (view k) (view k') -> (0 < r -> ready k' fd) ->
       (calm -> 0 <= ms -> time (view k') <= time (view k) + ms * MILLISEC + slack) -> Q r k') ->
    wp (fun f => f = Hangs /\ ~ (calm /\ (0 < fuel)%nat)) (pollForWrite fuel fd ms) Q k0).
  { induction fuel as [|fuel IH]; intros k0 Hk Hc HQ; cbn [pollForWrite].
    - apply wp_fail. split; [done|]. intros [_ ?]. lia.
    - wp_step. apply wp_sys. pose proof (law_poll fd ms k0) as Hl. destruct (sys_poll_out fd ms k0) as [r k1] eqn:Hp.
      destruct Hl as (Hv & Ht & Hr). assert (Hv' : eventually (view k) (view k1)) by (by etrans).
      destruct (Z.ltb_spec r 0) as [Hr0|Hr0].
      + wp_step. apply wp_gets. unfold isInterrupted. destruct (Z.eqb_spec (errno k1) EINTR) as [He|He].
        * assert (Hn : ~ calm).
          { intros Hcalm. specialize (Hcalm fd ms k0). rewrite Hp in Hcalm. by apply Hcalm. }
          eapply wp_weaken; [|apply IH; [done|done|done]]. intros f [-> _]. split; [done|]. by intros [].
        * apply wp_ret. apply HQ; [done|lia|]. intros Hcalm Hms. rewrite (Hc Hcalm) in Ht. auto.
      + apply wp_ret. apply HQ; [done|done|]. intros Hcalm Hms. rewrite (Hc Hcalm) in Ht. auto. }
  intros HQ. by apply Hgen.
Qed.
End calls.
