(* ===== verification/PosixSim.v ===== *)
(** * A system to run connectors on

    A simulated network that keeps the promises of [PosixLaws]: hosts have
    addresses, and an address answers a connection attempt after some
    milliseconds with an error code (zero for a connection), or never. *)

From S2P Require Import Prelude Outcome Types Transport Posix PosixLaws.

(** [sim_extra]: the state of what runs on top of it. *)
Record Sim (X : Type) := mk_sim { sim_view : SysView; sim_errno : Z; sim_next : Z; sim_ready : gset Z; sim_extra : X }.
Arguments mk_sim {X}.
Arguments sim_view {X}.
Arguments sim_errno {X}.
Arguments sim_next {X}.
Arguments sim_ready {X}.
Arguments sim_extra {X}.

Section sim.
Context {X : Type}.
Implicit Type k : Sim X.

Definition sim_init (x : X) : Sim X := mk_sim (mk_view ∅ 0 ∅ ∅ ∅ [] 0) 0 3 ∅ x.
Definition on_view (f : SysView -> SysView) k : Sim X := mk_sim (f (sim_view k)) (sim_errno k) (sim_next k) (sim_ready k) (sim_extra k).
Definition with_errno (e : Z) k : Sim X := mk_sim (sim_view k) e (sim_next k) (sim_ready k) (sim_extra k).
Definition with_extra (x : X) k : Sim X := mk_sim (sim_view k) (sim_errno k) (sim_next k) (sim_ready k) x.

Context (hosts : bytes -> list AddrInfo) (route : SockAddr -> option (Z * Z)).

#[local] Instance sim_errors : Errno := { EAGAIN := 11; EWOULDBLOCK := 11; EPIPE := 32; ECONNRESET := 104 }.

Definition sim_poll (fd ms : Z) k : Z * Sim X :=
  let answer := a ← connecting (sim_view k) !! fd; route a in
  match answer with
  | Some (latency, _) =>
      if (ms <? 0) || (latency <=? ms)
      then (1, mk_sim (add_time (Z.max 0 latency * MILLISEC) (sim_view k)) (sim_errno k) (sim_next k) ({[fd]} ∪ sim_ready k) (sim_extra k))
      else (0, on_view (add_time (ms * MILLISEC)) k)
  | None => (0, on_view (add_time (Z.max 0 ms * MILLISEC)) k)
  end.

Definition sim_so_error (fd : Z) k : option Z * Sim X :=
  match connecting (sim_view k) !! fd with
  | Some a =>
      match route a with
      | Some (_, e) =>
          if e =? 0
          then (Some 0, on_view (with_connected fd a) k)
          else (Some e, k)
      | None => (Some 110, k)
      end
  | None => (Some 0, k)
  end.

#[local] Instance sim_posix : Posix (Sim X) := {
  posix_errno := sim_errors;
  EINPROGRESS := 115; EINTR := 4; ETIMEDOUT := 110; O_NONBLOCK := 2048; AF_UNIX := 1;
  strerror e := bs "error";
  errno := sim_errno;
  set_errno := with_errno;
  sys_now k := (time (sim_view k), k);
  sys_socket f k :=
    if decide (sim_next k ∈ open_fds (sim_view k) \/ sim_next k < 0) then (-1, k)
    else (sim_next k, mk_sim (opened (sim_next k) (sim_view k)) (sim_errno k) (sim_next k + 1) (sim_ready k) (sim_extra k));
  sys_close fd k := on_view (closed fd) k;
  sys_connect fd a k := (-1, with_errno 115 (on_view (with_connecting fd a) k));
  sys_poll_out := sim_poll;
  sys_so_error := sim_so_error;
  sys_getfl fd k := (0, k);
  sys_setfl fd fl k :=
    (0, on_view (fun v => with_nonblocking (if Z.land fl 2048 =? 0 then nonblocking v ∖ {[fd]} else {[fd]} ∪ nonblocking v) v) k);
  sys_setsockopt fd o v k := (0, k);
  sys_shutdown fd k := (0, k);
  sys_recv fd len k := ((-1, []), with_errno 11 k);
  sys_send fd data k := (zlen data, k);
  sys_getaddrinfo host port numeric k :=
    match hosts host with
    | [] => ((-2, []), k)
    | l => ((0, l), on_view (with_lists (S (address_lists (sim_view k)))) k)
    end;
  sys_freeaddrinfo k := on_view (with_lists (pred (address_lists (sim_view k)))) k;
}.

Lemma soon_refl v : soon 0 v v.
Proof. exists 0. split; [lia|]. unfold add_time. rewrite Z.add_0_r. by destruct v. Qed.
Lemma eventually_refl v : eventually v v.
Proof. eapply soon_eventually, soon_refl. Qed.

#[local] Instance sim_laws : PosixLaws (Sim X).
Proof.
  refine {| view := sim_view; ready k fd := fd ∈ sim_ready k; slack := 0 |}.
  all: try (intros; cbn; (apply soon_refl || (split; apply soon_refl || done))).
  all: try done.
  - intros f k. cbn. case_decide as Hd; [apply soon_refl|]. destruct (Z.eqb_spec (sim_next k) INVALID_SOCKET); unfold INVALID_SOCKET in *; [lia|].
    split; [lia|]. split; [tauto|apply soon_refl].
  - intros fd a k. cbn. split; [apply eventually_refl|]. intros _. apply soon_refl.
  - intros fd ms k. cbn. unfold sim_poll. destruct (a ← connecting (sim_view k) !! fd; route a) as [[l e]|]; [destruct (_ || _) eqn:Hb|].
    + split; [eexists; split; [|reflexivity]; unfold MILLISEC; lia|]. split; [|intros _; cbn; apply elem_of_union_l; by apply elem_of_singleton]. intros Hms. cbn. unfold MILLISEC.
      apply orb_true_iff in Hb as [Hb|Hb]; bool_to_prop; lia.
    + apply orb_false_iff in Hb as [Hb1 Hb2]. bool_to_prop. split; [eexists; split; [|reflexivity]; unfold MILLISEC; lia|].
      split; [intros _; cbn; lia|lia].
    + split; [eexists; split; [|reflexivity]; unfold MILLISEC; lia|]. split; [intros ?; cbn; unfold MILLISEC; lia|lia].
  - intros fd k. cbn. unfold sim_so_error. destruct (connecting (sim_view k) !! fd) as [a|] eqn:Ha.
    + destruct (route a) as [[l e]|].
      * destruct (Z.eqb_spec e 0).
        -- exists (<[fd := a]> (connected (sim_view k))). split; [apply soon_refl|]. split; [by right; exists a|].
           intros a' _ [= ->] _. apply lookup_insert_eq.
        -- exists (connected (sim_view k)). split; [|split; [by left|]]; [|by intros a' [=]].
           exists 0. split; [lia|]. unfold add_time, set_connected. cbn. rewrite Z.add_0_r. by destruct (sim_view k).
      * exists (connected (sim_view k)). split; [|split; [by left|]]; [|by intros a' [=]].
        exists 0. split; [lia|]. unfold add_time, set_connected. cbn. rewrite Z.add_0_r. by destruct (sim_view k).
    + exists (connected (sim_view k)). split; [|split; [by left|]]; [|by intros a' _ [=]].
      exists 0. split; [lia|]. unfold add_time, set_connected. cbn. rewrite Z.add_0_r. by destruct (sim_view k).
  - intros fd len k. cbn. split; [apply eventually_refl|]. split; [lia|done].
  - intros host port numeric k. cbn. destruct (hosts host) as [|rp rps]; cbn; apply eventually_refl.
Defined.

Lemma sim_calm : calm.
Proof.
  intros fd ms k. cbn. unfold sim_poll. destruct (a ← connecting (sim_view k) !! fd; route a) as [[l e]|]; [destruct (_ || _)|]; lia.
Qed.
End sim.
