(* ===== verification/Connector.v ===== *)
(** * Connectors

    [include/chttp2/connector.hpp] and [src/connector.cpp] (the POSIX
    branches): a connected, non-blocking socket to an address, a domain or a
    Unix socket, within a timeout. *)

From S2P Require Import Prelude Outcome Types Std Transport Posix.

Definition SOCKET_TIMED_OUT `{Posix K} : Z := ETIMEDOUT.

Section connector.
Context {K : Type} `{Posix K}.

(** A function that returns, or throws an [std::runtime_error]. *)
Abbreviation throws A := (st K (bytes + A)).
Definition throw_error {A} (what : bytes) : throws A := ret (inl what).

(** [duration_cast<milliseconds>(deadline - Clock::now()).count()], a
    division that truncates. *)
Definition time_left (deadline : Z) : st K Z :=
  now <- sys sys_now ;; ret (Z.quot (deadline - now) MILLISEC).

(** [deadline]: when there is none, [time_point::max()]. *)
Definition deadline_of (timeoutMs : Z) : st K Z :=
  if timeoutMs >? 0 then now <- sys sys_now ;; ret (now + timeoutMs * MILLISEC) else ret (2 ^ 63 - 1).

(** What follows the choice of [pollMs] in the loop. *)
Definition poll_connected (fuel : nat) (fd pollMs : Z) : st K bool :=
  pollRet <- pollForWrite fuel fd pollMs ;;
  if pollRet <? 0 then ret false
  else if pollRet =? 0 then setLastSocketError SOCKET_TIMED_OUT ;;; ret false
  else
    sockErr <- getSocketError fd ;;
    match sockErr with
    | None => ret false
    | Some sockErr => if negb (sockErr =? 0) then setLastSocketError sockErr ;;; ret false else ret true
    end.

(** Every path through the body of the [while (true)] returns; [fuel] bounds
    the interruptions of [poll]. *)
Definition connectWithTimeout (fuel : nat) (fd : Z) (addr : SockAddr) (timeoutMs : Z) : st K bool :=
  r <- sys (sys_connect fd addr) ;;
  if r =? 0 then ret true
  else
    err <- lastSocketError ;;
    if negb (isInProgress err) then ret false
    else
      deadline <- deadline_of timeoutMs ;;
      if timeoutMs >? 0 then
        left <- time_left deadline ;;
        if left <=? 0 then setLastSocketError SOCKET_TIMED_OUT ;;; ret false
        else poll_connected fuel fd (i32 left)
      else poll_connected fuel fd (-1).

(** A C string ends at its first zero byte. *)
Definition c_str (s : bytes) : bytes := take_while (fun b => negb (b2z b =? 0)) s.

Definition connectIp (fuel : nat) (ip : bytes) (port timeoutMs : Z) : throws SocketFd.t :=
  r <- sys (sys_getaddrinfo (c_str ip) (to_string port) true) ;;
  match r with
  | (gaiErr, []) => throw_error (bs "Invalid IP address")
  | (gaiErr, result :: _) =>
      if negb (gaiErr =? 0) then throw_error (bs "Invalid IP address")
      else
        fd <- sys (sys_socket (ai_family result)) ;;
        if fd =? INVALID_SOCKET then
          modify sys_freeaddrinfo ;;; throw_error (bs "Failed to create socket")
        else
          suppressSigpipe fd ;;;
          setNonBlocking fd true ;;;
          ok <- connectWithTimeout fuel fd (ai_addr result) timeoutMs ;;
          err <- lastSocketError ;;
          modify sys_freeaddrinfo ;;;
          if negb ok then
            closeSocket fd ;;;
            throw_error (if isTimedOut err then bs "Connect timeout" else bs "Failed to connect")
          else ret (inr (SocketFd.make fd))
  end.

(** One iteration of the loop over the addresses; [next] goes on with
    [lastError]. *)
Definition try_address (fuel : nat) (rp : AddrInfo) (remaining : Z) (lastError : bytes)
    (next : bytes -> throws SocketFd.t) : throws SocketFd.t :=
  fd <- sys (sys_socket (ai_family rp)) ;;
  if fd =? INVALID_SOCKET then next lastError
  else
    suppressSigpipe fd ;;;
    setNonBlocking fd true ;;;
    ok <- connectWithTimeout fuel fd (ai_addr rp) remaining ;;
    if ok then modify sys_freeaddrinfo ;;; ret (inr (SocketFd.make fd))
    else
      err <- lastSocketError ;;
      closeSocket fd ;;;
      next (socketErrorString err).

(** After the loop. *)
Definition no_address (lastError : bytes) : throws SocketFd.t :=
  modify sys_freeaddrinfo ;;; throw_error (bs "Failed to connect: " ++ lastError).

Fixpoint try_addresses (fuel : nat) (timeoutMs deadline : Z) (rps : list AddrInfo) (lastError : bytes) : throws SocketFd.t :=
  match rps with
  | [] => no_address lastError
  | rp :: rps' =>
      if timeoutMs >? 0 then
        left <- time_left deadline ;;
        if left <=? 0 then no_address (bs "Connect timeout")
        else try_address fuel rp (i32 left) lastError (try_addresses fuel timeoutMs deadline rps')
      else try_address fuel rp (-1) lastError (try_addresses fuel timeoutMs deadline rps')
  end.

Definition connectDomain (fuel : nat) (domain : bytes) (port timeoutMs : Z) : throws SocketFd.t :=
  r <- sys (sys_getaddrinfo (c_str domain) (to_string port) false) ;;
  match r with
  | (gaiErr, []) => throw_error (bs "Failed to resolve domain")
  | (gaiErr, result) =>
      if negb (gaiErr =? 0) then throw_error (bs "Failed to resolve domain")
      else
        deadline <- deadline_of timeoutMs ;;
        try_addresses fuel timeoutMs deadline result []
  end.

(** [sizeof(sun_path)] on Linux; [strncpy] copies one byte less. *)
Definition SUN_PATH : Z := 108.
Definition unix_address (sockFile : bytes) : SockAddr := Unix (ztake (SUN_PATH - 1) (c_str sockFile)).

Definition connectUnix (fuel : nat) (sockFile : bytes) (timeoutMs : Z) : throws SocketFd.t :=
  fd <- sys (sys_socket AF_UNIX) ;;
  if fd =? INVALID_SOCKET then throw_error (bs "Failed to create unix socket")
  else
    suppressSigpipe fd ;;;
    setNonBlocking fd true ;;;
    ok <- connectWithTimeout fuel fd (unix_address sockFile) timeoutMs ;;
    if negb ok then
      err <- lastSocketError ;;
      closeSocket fd ;;;
      throw_error (if isTimedOut err then bs "Connect timeout" else bs "Failed to connect unix socket")
    else ret (inr (SocketFd.make fd)).
End connector.
