(* ===== verification/ConnectorProps.v ===== *)
(** * What a connector guarantees

    Descriptors do not leak, a socket that is returned is connected, and the
    timeout is kept. *)

From S2P Require Import Prelude Outcome Types Std Transport Posix PosixLaws Connector PosixSim.

Section connector.
Context {K : Type} `{PosixLaws K}.
Implicit Types (k : K) (v : SysView).

Lemma poll_connected_spec fuel fd ms a k :
  connecting (view k) !! fd = Some a ->
  wp (interrupted fuel) (poll_connected fuel fd ms) (fun ok k' =>
    kept fd (view k) (view k') /\ (ok = true -> connected (view k') !! fd = Some a) /\
    (calm -> 0 <= ms -> time (view k') <= time (view k) + ms * MILLISEC + 2 * slack)) k.
Proof.
  intros Ha. unfold poll_connected. pose proof slack_nonneg. wp_step. apply pollForWrite_spec. intros r k1 Hv1 Hready Ht1.
  assert (Hfail : forall k2, view k2 = view k1 -> kept fd (view k) (view k2) /\ (false = true -> connected (view k2) !! fd = Some a) /\
    (calm -> 0 <= ms -> time (view k2) <= time (view k) + ms * MILLISEC + 2 * slack)).
  { intros k2 ->. split; [by apply kept_eventually|]. split; [done|]. intros Hc Hms. specialize (Ht1 Hc Hms). lia. }
  destruct (Z.ltb_spec r 0); [apply wp_ret; auto|]. destruct (Z.eqb_spec r 0).
  { wp_step. apply wp_set_error. intros k2 Hk2. apply wp_ret. auto. }
  wp_step. unfold getSocketError. apply wp_sys. pose proof (law_so_error fd k1) as Hl. destruct (sys_so_error fd k1) as [o k2].
  destruct Hl as (m & (d & ? & Hv2) & _ & Hconn). destruct Hv1 as (d1 & ? & Hv1).
  assert (Hok : forall ok k3, view k3 = view k2 -> (ok = true -> o = Some 0) -> kept fd (view k) (view k3) /\
    (ok = true -> connected (view k3) !! fd = Some a) /\
    (calm -> 0 <= ms -> time (view k3) <= time (view k) + ms * MILLISEC + 2 * slack)).
  { intros ok k3 -> Ho. rewrite Hv2. split; [|split].
    - rewrite Hv1. split; try done. cbn. lia.
    - intros ->. cbn. apply Hconn; [auto|by rewrite Hv1|]. apply Hready. lia.
    - intros Hc Hms. specialize (Ht1 Hc Hms). cbn. lia. }
  destruct o as [e|]; [|apply wp_ret; by apply Hok]. destruct (Z.eqb_spec e 0) as [->|]; cbn [negb].
  - apply wp_ret. by apply Hok.
  - wp_step. apply wp_set_error. intros k3 Hk3. apply wp_ret. by apply Hok.
Qed.

Lemma wp_time_left E deadline (Q : Z -> K -> Prop) k :
  (forall k' left, soon slack (view k) (view k') -> left = Z.quot (deadline - time (view k')) MILLISEC -> Q left k') ->
  wp E (time_left deadline) Q k.
Proof. intros HQ. unfold time_left. wp_step. apply wp_now. intros k1 Hk1. apply wp_ret. by apply HQ. Qed.

(** The truncated milliseconds left, while there are some. *)
Lemma left_bound d left : left = Z.quot d MILLISEC -> 0 < left -> left * MILLISEC <= d /\ 0 < d.
Proof.
  unfold MILLISEC. intros -> Hl. assert (Hd : 0 < d).
  { destruct (Z_lt_le_dec 0 d); [done|]. pose proof (Z.quot_opp_l d 1000000 ltac:(lia)).
    pose proof (Z.quot_pos (- d) 1000000). lia. }
  split; [|done]. rewrite Z.quot_div_nonneg by lia. pose proof (Z.mul_div_le d 1000000 ltac:(lia)). lia.
Qed.

Lemma connectWithTimeout_spec fuel fd a timeoutMs k :
  wp (interrupted fuel) (connectWithTimeout fuel fd a timeoutMs) (fun ok k' =>
    kept fd (view k) (view k') /\ (ok = true -> connected (view k') !! fd = Some a) /\
    (calm -> fd ∈ nonblocking (view k) -> 0 < timeoutMs < 2 ^ 31 ->
     time (view k') <= time (view k) + timeoutMs * MILLISEC + 4 * slack)) k.
Proof.
  unfold connectWithTimeout. pose proof slack_nonneg as Hslack. wp_step. apply wp_sys.
  pose proof (law_connect fd a k) as Hl. destruct (sys_connect fd a k) as [r k1]. cbv zeta in Hl. destruct Hl as [Hv Hq].
  assert (Hk1 : kept fd (view k) (view k1)).
  { destruct Hv as (d & ? & ->). repeat case_match; split; try done; cbn; lia. }
  assert (Ht1 : fd ∈ nonblocking (view k) -> time (view k1) <= time (view k) + slack).
  { intros Hn. destruct (Hq Hn) as (d & ? & ->). repeat case_match; cbn; lia. }
  assert (Hend : forall ok k2, kept fd (view k1) (view k2) -> (ok = true -> connected (view k2) !! fd = Some a) ->
    (calm -> 0 < timeoutMs < 2 ^ 31 -> time (view k2) <= time (view k1) + timeoutMs * MILLISEC + 3 * slack) ->
    kept fd (view k) (view k2) /\ (ok = true -> connected (view k2) !! fd = Some a) /\
    (calm -> fd ∈ nonblocking (view k) -> 0 < timeoutMs < 2 ^ 31 ->
     time (view k2) <= time (view k) + timeoutMs * MILLISEC + 4 * slack)).
  { intros ok k2 Hk2 Hok Ht2. split; [by etrans|]. split; [done|]. intros Hc Hn Hms. specialize (Ht1 Hn). specialize (Ht2 Hc Hms). lia. }
  destruct (Z.eqb_spec r 0) as [Hr|Hr].
  { apply wp_ret. apply Hend; [done| |unfold MILLISEC; lia]. intros _. destruct Hv as (d & ? & ->). cbn. apply lookup_insert_eq. }
  wp_step. apply wp_gets. unfold isInProgress. destruct (Z.eqb_spec (errno k1) EINPROGRESS); cbn [negb];
    [|apply wp_ret; apply Hend; [done|done|unfold MILLISEC; lia]].
  assert (Ha1 : connecting (view k1) !! fd = Some a) by (destruct Hv as (d & ? & ->); cbn; apply lookup_insert_eq).
  wp_step. unfold deadline_of. destruct (Z.gtb_spec timeoutMs 0) as [Hms|Hms]; wp_step.
  - apply wp_now. intros k2 (d2 & ? & Hv2). wp_step. wp_step. apply wp_time_left. intros k3 left (d3 & ? & Hv3) Hleft.
    assert (Hv13 : eventually (view k1) (view k3)) by (rewrite Hv3, Hv2; etrans; eexists; (split; [|reflexivity]; lia)).
    destruct (Z.leb_spec left 0).
    + wp_step. apply wp_set_error. intros k4 Hk4. apply wp_ret. rewrite Hk4 in *.
      apply Hend; rewrite ?Hk4; [by apply kept_eventually|done|]. intros _ _. rewrite Hv3, Hv2. cbn. unfold MILLISEC. lia.
    + destruct (left_bound _ _ Hleft) as [Hl _]; [lia|].
      assert (left <= timeoutMs) by (rewrite Hv3 in Hl; unfold MILLISEC in Hl; cbn in Hl; lia).
      eapply wp_mono; [apply (poll_connected_spec fuel fd (i32 left) a); by rewrite Hv3, Hv2|].
      intros ok k4 (Hk4 & Hok & Ht4). apply Hend; [etrans; [by apply kept_eventually|done]|done|]. intros Hc Hms'.
      rewrite i32_small in Ht4 by lia. specialize (Ht4 Hc ltac:(lia)). rewrite Hv3, Hv2 in *. cbn [add_time time] in *. lia.
  - eapply wp_mono; [by apply (poll_connected_spec fuel fd (-1) a)|]. intros ok k2 (Hk2 & Hok & _).
    apply Hend; [done|done|lia].
Qed.

Lemma fd_in (fd : Z) (s : gset Z) : fd ∈ ({[fd]} ∪ s : gset Z).
Proof. apply elem_of_union_l. by apply elem_of_singleton. Qed.

Lemma forget_fd (fd : Z) (s : gset Z) : fd ∉ s -> ({[fd]} ∪ s) ∖ {[fd]} = s.
Proof.
  intros Hfd. apply set_eq. intros x. rewrite elem_of_difference, elem_of_union, elem_of_singleton. split; [tauto|].
  intros Hx. split; [by right|]. by intros ->.
Qed.

(** Making a socket and connecting it, as all three functions do it. *)
Lemma attempt_spec {R} fuel family a ms (fail : st K R) (next : Z -> bool -> st K R) Q k :
  (forall k', soon slack (view k) (view k') -> wp (interrupted fuel) fail Q k') ->
  (forall fd ok k', 0 <= fd -> fd ∉ open_fds (view k) -> open_fds (view k') = {[fd]} ∪ open_fds (view k) ->
     address_lists (view k') = address_lists (view k) -> fd ∈ nonblocking (view k') ->
     (ok = true -> connected (view k') !! fd = Some a) -> time (view k) <= time (view k') ->
     (calm -> 0 < ms < 2 ^ 31 -> time (view k') <= time (view k) + ms * MILLISEC + 7 * slack) ->
     wp (interrupted fuel) (next fd ok) Q k') ->
  wp (interrupted fuel)
    (fd <- sys (sys_socket family) ;;
     if fd =? INVALID_SOCKET then fail
     else suppressSigpipe fd ;;; setNonBlocking fd true ;;; ok <- connectWithTimeout fuel fd a ms ;; next fd ok) Q k.
Proof.
  intros Hfail Hnext. wp_step. apply wp_sys. pose proof (law_socket family k) as Hl. destruct (sys_socket family k) as [fd k1].
  destruct (fd =? INVALID_SOCKET); [auto|]. destruct Hl as (Hfd & Hnew & d & ? & Hv1). wp_step. apply wp_ret. wp_step.
  apply setNonBlocking_spec; [rewrite Hv1; apply fd_in|]. intros k2 Ho2 Hl2 Hn2 Ht2. wp_step.
  eapply wp_mono; [apply connectWithTimeout_spec|]. intros ok k3 ([Ho3 Hl3 Hn3 Ht3] & Hok & Hcalm).
  rewrite Hv1 in Ho2, Hl2, Ht2. cbn in Ho2, Hl2, Ht2.
  apply Hnext; try done; [congruence|congruence|rewrite Hn3, Hn2; apply fd_in|lia|].
  intros Hc Hms. specialize (Hcalm Hc ltac:(rewrite Hn2; apply fd_in) Hms). lia.
Qed.

(** What a call leaves behind: the socket it returns, or nothing. *)
Definition connection_made (addrs : list SockAddr) v v' (r : bytes + SocketFd.t) : Prop :=
  address_lists v' = address_lists v /\
  match r with
  | inl _ => open_fds v' = open_fds v
  | inr fd => 0 <= fd /\ (fd ∉ open_fds v) /\ open_fds v' = {[fd]} ∪ open_fds v /\ fd ∈ nonblocking v' /\
      exists a, a ∈ addrs /\ connected v' !! fd = Some a
  end.

Lemma connectUnix_spec fuel sockFile ms k :
  wp (interrupted fuel) (connectUnix fuel sockFile ms) (fun r k' =>
    connection_made [unix_address sockFile] (view k) (view k') r /\
    (calm -> 0 < ms < 2 ^ 31 -> time (view k') <= time (view k) + ms * MILLISEC + 8 * slack)) k.
Proof.
  pose proof slack_nonneg as Hslack. apply attempt_spec.
  - intros k' (d & ? & Hv). apply wp_ret. rewrite Hv. split; [done|]. intros _ ?. cbn. unfold MILLISEC. lia.
  - intros fd ok k' Hfd Hnew Ho Hl Hn Hok _ Ht. destruct ok; cbn [negb].
    + apply wp_ret. split; [|intros Hc Hms; specialize (Ht Hc Hms); lia]. split_and!; try done. exists (unix_address sockFile).
      split; [left|auto].
    + wp_step. apply wp_gets. wp_step. apply wp_close. intros k2 (d & ? & Hv2). apply wp_ret. rewrite Hv2. cbn. split.
      * split; [done|]. cbn. rewrite Ho. by apply forget_fd.
      * intros Hc Hms. specialize (Ht Hc Hms). lia.
Qed.

(** Name resolution takes at most [d]. *)
Definition resolves_within (d : Z) : Prop := forall host port numeric k,
  time (view (snd (sys_getaddrinfo host port numeric k))) <= time (view k) + d.

Lemma getaddrinfo_spec E host port numeric (Q : Z * list AddrInfo -> K -> Prop) k :
  (forall err l k', open_fds (view k') = open_fds (view k) ->
     address_lists (view k') = (if (err =? 0) && negb (bool_decide (l = [])) then S (address_lists (view k)) else address_lists (view k)) ->
     (forall d, resolves_within d -> time (view k') <= time (view k) + d) ->
     sys_getaddrinfo host port numeric k = ((err, l), k') -> Q (err, l) k') ->
  wp E (sys (sys_getaddrinfo host port numeric)) Q k.
Proof.
  intros HQ. apply wp_sys. pose proof (law_getaddrinfo host port numeric k) as Hl. destruct (sys_getaddrinfo host port numeric k) as [[err l] k'] eqn:Hg.
  destruct Hl as (d & ? & Hv). apply HQ; [by rewrite Hv; destruct (_ && _)|by rewrite Hv; destruct (_ && _)| |done].
  intros d' Hd. specialize (Hd host port numeric k). by rewrite Hg in Hd.
Qed.

(** After resolving a host: a connection to one of its addresses or nothing,
    in time. *)
Definition resolved_post (host : bytes) (port : Z) (numeric : bool) (ms c : Z) k (r : bytes + SocketFd.t) k' : Prop :=
  (forall err l k1, sys_getaddrinfo (c_str host) (to_string port) numeric k = ((err, l), k1) ->
     connection_made (map ai_addr l) (view k) (view k') r) /\
  (forall d, resolves_within d -> calm -> 0 < ms < 2 ^ 31 -> time (view k') <= time (view k) + d + ms * MILLISEC + c * slack).

Lemma wp_free_lists E (Q : unit -> K -> Prop) k :
  (forall k', soon slack (with_lists (pred (address_lists (view k))) (view k)) (view k') -> Q tt k') -> wp E (modify sys_freeaddrinfo) Q k.
Proof. intros HQ. apply wp_modify, HQ, law_freeaddrinfo. Qed.

Lemma connectIp_spec fuel ip port ms k :
  wp (interrupted fuel) (connectIp fuel ip port ms) (resolved_post ip port true ms 9 k) k.
Proof.
  pose proof slack_nonneg as Hslack. unfold connectIp. wp_step. apply getaddrinfo_spec. intros err l k1 Ho1 Hl1 Ht1 Hg. cbv beta.
  assert (Hearly : (l = [] \/ (err =? 0) = false) -> wp (interrupted fuel) (throw_error (bs "Invalid IP address")) (resolved_post ip port true ms 9 k) k1).
  { intros Hor. apply wp_ret. split.
    - intros ? ? ? _. split; [|done]. rewrite Hl1. by destruct Hor as [->| ->]; rewrite ?andb_false_r.
    - intros d Hd _ Hms. specialize (Ht1 d Hd). unfold MILLISEC. lia. }
  destruct l as [|rp rps]; [apply Hearly; by left|]. destruct (err =? 0) eqn:Herr; cbn [negb]; [|apply Hearly; by right]. clear Hearly.
  cbn [andb negb bool_decide] in Hl1. apply attempt_spec.
  - intros k2 (d2 & ? & Hv2). wp_step. apply wp_free_lists. intros k3 (d3 & ? & Hv3). apply wp_ret. unfold resolved_post. rewrite Hv3, Hv2. split.
    + intros ? ? ? _. split; cbn; [by rewrite Hl1|done].
    + intros d Hd _ Hms. specialize (Ht1 d Hd). cbn. unfold MILLISEC. lia.
  - intros fd ok k2 Hfd Hnew Ho Hl Hn Hok _ Ht. wp_step. apply wp_gets. wp_step. apply wp_free_lists. intros k3 (d3 & ? & Hv3).
    destruct ok; cbn [negb].
    + apply wp_ret. unfold resolved_post. rewrite Hv3. split.
      * intros ? ? ? Hg'. rewrite Hg in Hg'. injection Hg' as <- <- <-. split; [cbn; by rewrite Hl, Hl1|]. cbn.
        split_and!; try done; [by rewrite <- Ho1|by rewrite Ho, Ho1|]. exists (ai_addr rp). split; [left|auto].
      * intros d Hd Hc Hms. specialize (Ht1 d Hd). specialize (Ht Hc Hms). cbn. lia.
    + wp_step. apply wp_close. intros k4 (d4 & ? & Hv4). apply wp_ret. unfold resolved_post. rewrite Hv4, Hv3. split.
      * intros ? ? ? _. split; cbn; [by rewrite Hl, Hl1|]. rewrite Ho, forget_fd; [done|done].
      * intros d Hd Hc Hms. specialize (Ht1 d Hd). specialize (Ht Hc Hms). cbn. lia.
Qed.

(** The loop over the addresses: at its start at most 8 slacks past the
    deadline, at its end at most 10. *)
Definition loop_post (ms deadline : Z) (addrs : list SockAddr) v0 v (r : bytes + SocketFd.t) v' : Prop :=
  connection_made addrs v0 v' r /\
  (calm -> 0 < ms < 2 ^ 31 -> deadline <= time v + ms * MILLISEC -> time v <= deadline + 8 * slack ->
   time v' <= deadline + 10 * slack).

Lemma no_address_spec fuel ms deadline addrs v0 lastError v k :
  open_fds (view k) = open_fds v0 -> address_lists (view k) = S (address_lists v0) ->
  (calm -> 0 < ms < 2 ^ 31 -> deadline <= time v + ms * MILLISEC -> time v <= deadline + 8 * slack ->
   time (view k) <= deadline + 9 * slack) ->
  wp (interrupted fuel) (no_address lastError) (fun r k' => loop_post ms deadline addrs v0 v r (view k')) k.
Proof.
  intros Ho Hl Ht. unfold no_address. wp_step. apply wp_free_lists. intros k' (d & ? & Hv). apply wp_ret. rewrite Hv.
  split; [split; cbn; [by rewrite Hl|done]|]. intros Hc Hms Hd Hk. specialize (Ht Hc Hms Hd Hk). cbn. lia.
Qed.

Lemma try_addresses_spec fuel ms deadline addrs v0 rps : forall lastError k,
  (forall rp, rp ∈ rps -> ai_addr rp ∈ addrs) ->
  open_fds (view k) = open_fds v0 -> address_lists (view k) = S (address_lists v0) ->
  wp (interrupted fuel) (try_addresses fuel ms deadline rps lastError)
    (fun r k' => loop_post ms deadline addrs v0 (view k) r (view k')) k.
Proof.
  pose proof slack_nonneg as Hslack. induction rps as [|rp rps IH]; intros lastError k Hrps Ho Hl; cbn [try_addresses].
  { apply no_address_spec; [done|done|lia]. }
  (* One attempt, from a state [k1] with [remaining] milliseconds. *)
  assert (Htry : forall remaining k1, open_fds (view k1) = open_fds v0 -> address_lists (view k1) = S (address_lists v0) ->
    time (view k) <= time (view k1) ->
    (0 < ms < 2 ^ 31 -> deadline <= time (view k) + ms * MILLISEC ->
     0 < remaining < 2 ^ 31 /\ time (view k1) + remaining * MILLISEC <= deadline) ->
    wp (interrupted fuel) (try_address fuel rp remaining lastError (try_addresses fuel ms deadline rps))
      (fun r k' => loop_post ms deadline addrs v0 (view k) r (view k')) k1).
  { intros remaining k1 Ho1 Hl1 Hk1 Hrem.
    assert (Hnext : forall e k2, open_fds (view k2) = open_fds v0 -> address_lists (view k2) = S (address_lists v0) ->
      time (view k1) <= time (view k2) ->
      (calm -> 0 < ms < 2 ^ 31 -> deadline <= time (view k) + ms * MILLISEC -> time (view k2) <= deadline + 8 * slack) ->
      wp (interrupted fuel) (try_addresses fuel ms deadline rps e)
        (fun r k' => loop_post ms deadline addrs v0 (view k) r (view k')) k2).
    { intros e k2 Ho2 Hl2 Hk2 Ht2. eapply wp_mono; [apply IH; [|done|done]|].
      - intros rp' Hrp'. apply Hrps. by right.
      - intros r k3 [Hmade Ht3]. split; [done|]. intros Hc Hms Hd _. apply Ht3; [done|done|lia|auto]. }
    apply attempt_spec.
    - intros k2 (d & ? & Hv2). apply Hnext; rewrite Hv2; [done|done|cbn; lia|]. intros _ Hms Hd. destruct (Hrem Hms Hd) as [? ?].
      cbn. unfold MILLISEC in *. lia.
    - intros fd ok k2 Hfd Hnew Ho2 Hl2 Hn2 Hok Hk2 Ht2. destruct ok.
      + wp_step. apply wp_free_lists. intros k3 (d & ? & Hv3). apply wp_ret. rewrite Hv3. split.
        * split; [cbn; by rewrite Hl2, Hl1|]. cbn. split_and!; try done; [by rewrite <- Ho1|by rewrite Ho2, Ho1|].
          exists (ai_addr rp). split; [apply Hrps; left|auto].
        * intros Hc Hms Hd _. destruct (Hrem Hms Hd) as [Hr ?]. specialize (Ht2 Hc Hr). cbn. lia.
      + wp_step. apply wp_gets. wp_step. apply wp_close. intros k3 (d & ? & Hv3). apply Hnext; rewrite Hv3; cbn.
        * rewrite Ho2, forget_fd; [done|done].
        * by rewrite Hl2.
        * lia.
        * intros Hc Hms Hd. destruct (Hrem Hms Hd) as [Hr ?]. specialize (Ht2 Hc Hr). lia. }
  destruct (Z.gtb_spec ms 0) as [Hms|Hms].
  - wp_step. apply wp_time_left. intros k1 left (d & ? & Hv1) Hleft. destruct (Z.leb_spec left 0).
    + apply no_address_spec; [by rewrite Hv1|by rewrite Hv1|]. rewrite Hv1. cbn. lia.
    + destruct (left_bound _ _ Hleft) as [Hlb _]; [lia|]. apply Htry; [by rewrite Hv1|by rewrite Hv1|rewrite Hv1; cbn; lia|].
      intros Hms' Hd. assert (left < 2 ^ 31) by (rewrite Hv1 in Hlb; unfold MILLISEC in *; cbn in Hlb; lia).
      rewrite i32_small by lia. lia.
  - apply Htry; [done|done|lia|lia].
Qed.

Lemma connectDomain_spec fuel domain port ms k :
  wp (interrupted fuel) (connectDomain fuel domain port ms) (resolved_post domain port false ms 11 k) k.
Proof.
  pose proof slack_nonneg as Hslack. unfold connectDomain. wp_step. apply getaddrinfo_spec. intros err l k1 Ho1 Hl1 Ht1 Hg. cbv beta.
  assert (Hearly : (l = [] \/ (err =? 0) = false) -> wp (interrupted fuel) (throw_error (bs "Failed to resolve domain")) (resolved_post domain port false ms 11 k) k1).
  { intros Hor. apply wp_ret. split.
    - intros ? ? ? _. split; [|done]. rewrite Hl1. by destruct Hor as [->| ->]; rewrite ?andb_false_r.
    - intros d Hd _ Hms. specialize (Ht1 d Hd). unfold MILLISEC. lia. }
  destruct l as [|rp rps]; [apply Hearly; by left|]. destruct (err =? 0) eqn:Herr; cbn [negb]; [|apply Hearly; by right]. clear Hearly.
  cbn [andb negb bool_decide] in Hl1. wp_step. unfold deadline_of.
  assert (Hloop : forall deadline k2, open_fds (view k2) = open_fds (view k1) -> address_lists (view k2) = address_lists (view k1) ->
    time (view k1) <= time (view k2) <= time (view k1) + slack -> (0 < ms -> deadline = time (view k2) + ms * MILLISEC) ->
    wp (interrupted fuel) (try_addresses fuel ms deadline (rp :: rps) []) (resolved_post domain port false ms 11 k) k2).
  { intros deadline k2 Ho2 Hl2 Hk2 Hd. eapply wp_mono; [apply (try_addresses_spec fuel ms deadline (map ai_addr (rp :: rps)) (view k))|].
    - intros rp' Hrp'. by apply list_elem_of_fmap_2.
    - congruence.
    - by rewrite Hl2, Hl1.
    - intros r k3 [Hmade Ht3]. split.
      + intros ? ? ? Hg'. rewrite Hg in Hg'. by injection Hg' as <- <- <-.
      + intros d Hres Hc Hms. specialize (Ht1 d Hres). rewrite (Hd ltac:(lia)) in Ht3.
        specialize (Ht3 Hc Hms ltac:(lia) ltac:(unfold MILLISEC; lia)). lia. }
  destruct (Z.gtb_spec ms 0) as [Hms|Hms]; wp_step.
  - apply wp_now. intros k2 Hv2. pose proof (soon_time _ _ _ Hv2). destruct Hv2 as (d2 & ? & Hv2). apply wp_ret.
    apply Hloop; [by rewrite Hv2|by rewrite Hv2|done|done].
  - apply Hloop; [done|done|lia|lia].
Qed.

(** C36: connecting leaks nothing and returns only live connections.  Each of
    [connectIp], [connectDomain] and [connectUnix] either throws, holding
    the descriptors it held before, or returns a new descriptor, in
    non-blocking mode, that the system has connected to one of the addresses
    asked for; every address list has been freed.  Only endless interruptions
    of [poll] keep it from returning. *)
Theorem connect_keeps_descriptors fuel (host : bytes) (port ms : Z) (k : K) :
  match connectUnix fuel host ms k with
  | Ok (r, k') => connection_made [unix_address host] (view k) (view k') r
  | Fault f => f = Hangs
  end /\
  (forall numeric err l k1, sys_getaddrinfo (c_str host) (to_string port) numeric k = ((err, l), k1) ->
   match (if numeric then connectIp fuel host port ms k else connectDomain fuel host port ms k) with
   | Ok (r, k') => connection_made (map ai_addr l) (view k) (view k') r
   | Fault f => f = Hangs
   end).
Proof.
  split.
  - pose proof (connectUnix_spec fuel host ms k) as Hs. unfold wp in Hs. destruct (connectUnix _ _ _ _) as [[r k']|f]; apply Hs.
  - intros [] err l k1 Hg.
    + pose proof (connectIp_spec fuel host port ms k) as Hs. unfold wp in Hs. destruct (connectIp _ _ _ _ _) as [[r k']|f]; [by eapply Hs|apply Hs].
    + pose proof (connectDomain_spec fuel host port ms k) as Hs. unfold wp in Hs.
      destruct (connectDomain _ _ _ _ _) as [[r k']|f]; [by eapply Hs|apply Hs].
Qed.

(** C37: connecting keeps its timeout.  Unless signals interrupt [poll], every
    connect function returns, at most the timeout, the time of the name
    resolution and eleven short calls later - however many addresses the
    name has. *)
Theorem connect_within_timeout fuel (host : bytes) (port ms d : Z) (k : K) :
  calm -> (0 < fuel)%nat -> resolves_within d -> 0 <= d -> 0 < ms < 2 ^ 31 ->
  forall m, m ∈ [connectUnix fuel host ms; connectIp fuel host port ms; connectDomain fuel host port ms] ->
  exists r k', m k = Ok (r, k') /\ time (view k') <= time (view k) + d + ms * MILLISEC + 11 * slack.
Proof.
  intros Hc Hf Hd Hd0 Hms m Hm. pose proof slack_nonneg as Hslack.
  assert (Hret : wp no_fault m (fun _ k' => time (view k') <= time (view k) + d + ms * MILLISEC + 11 * slack) k).
  { eapply (wp_weaken (interrupted fuel)); [intros f [_ Hn]; by apply Hn|].
    rewrite !elem_of_cons in Hm. destruct Hm as [->|[->|[->|Hm%elem_of_nil]]]; [| | |done].
    - eapply wp_mono; [apply connectUnix_spec|]. intros r k' [_ Ht]. specialize (Ht Hc Hms). lia.
    - eapply wp_mono; [apply connectIp_spec|]. intros r k' [_ Ht]. specialize (Ht d Hd Hc Hms). lia.
    - eapply wp_mono; [apply connectDomain_spec|]. intros r k' [_ Ht]. by apply Ht. }
  apply wp_run in Hret as (r & k' & ? & ?). eauto.
Qed.
End connector.

(** ** A run *)

(** Two addresses: the first refuses after 5 ms, the second accepts after 20;
    a third host never answers. *)
Definition example_hosts (host : bytes) : list AddrInfo :=
  if bool_decide (host = bs "two") then [mk_addr 2 (Inet (bs "a") (bs "443")); mk_addr 2 (Inet (bs "b") (bs "443"))]
  else if bool_decide (host = bs "silent") then [mk_addr 2 (Inet (bs "c") (bs "443")); mk_addr 2 (Inet (bs "b") (bs "443"))]
  else [].
Definition example_route (a : SockAddr) : option (Z * Z) :=
  match a with
  | Inet ip _ => if bool_decide (ip = bs "a") then Some (5, 111) else if bool_decide (ip = bs "b") then Some (20, 0) else None
  | Unix _ => None
  end.
#[local] Instance example_posix : Posix (Sim unit) := sim_posix example_hosts example_route.
#[local] Instance example_laws : PosixLaws (Sim unit) := sim_laws example_hosts example_route.

Definition example_connect (host : bytes) : outcome ((bytes + SocketFd.t) * (list Z * Z)) :=
  match connectDomain 1 host 443 100 (sim_init tt) with
  | Ok (r, k) => Ok (r, (elements (open_fds (sim_view k)), time (sim_view k)))
  | Fault f => Fault f
  end.

Example example_two : example_connect (bs "two") = Ok (inr 4, ([4], 25 * MILLISEC)).
Proof. by vm_compute. Qed.

Example example_silent : example_connect (bs "silent") = Ok (inl (bs "Failed to connect: Connect timeout"), ([], 100 * MILLISEC)).
Proof. by vm_compute. Qed.

Lemma connect_within_timeout_witness :
  exists r k', connectDomain 1 (bs "silent") 443 100 (sim_init tt) = Ok (r, k') /\ time (sim_view k') <= 100 * MILLISEC.
Proof.
  destruct (connect_within_timeout (K := Sim unit) 1 (bs "silent") 443 100 0 (sim_init tt) (sim_calm _ _) ltac:(lia)
    ltac:(intros ? ? ? k; cbn; destruct (example_hosts _); cbn; lia) ltac:(lia) ltac:(lia)
    (connectDomain 1 (bs "silent") 443 100) ltac:(right; right; left)) as (r & k' & Hr & Ht).
  exists r, k'. split; [done|]. cbn in Ht. lia.
Defined.

Lemma connect_keeps_descriptors_witness :
  let l := example_hosts (bs "two") in
  exists k1, sys_getaddrinfo (c_str (bs "two")) (to_string 443) false (sim_init tt) = ((0, l), k1) /\
  match connectDomain 1 (bs "two") 443 100 (sim_init tt) with
  | Ok (r, k') => connection_made (map ai_addr l) (view (sim_init tt)) (view k') r
  | Fault f => f = Hangs
  end.
Proof.
  intros l. eexists. split; [by vm_compute|].
  apply (proj2 (connect_keeps_descriptors 1 (bs "two") 443 100 (sim_init tt)) false 0 l
    (snd (sys_getaddrinfo (c_str (bs "two")) (to_string 443) false (sim_init tt)))). by vm_compute.
Defined.
