(* ===== verification/StreamTransport.v ===== *)
(** * Stream transports

    [include/chttp2/stream_transport.hpp] and [src/stream_transport.cpp]: the
    two transports as objects, over the socket layer and a TLS library that
    is a parameter, and the factory. *)

From S2P Require Import Prelude Outcome Types Endpoint Transport Posix Connector.

(** The calls of the TLS library; contexts, connections and BIOs are handles. *)
Class OpenSSL (K : Type) : Type := {
  ssl_errors :: SslError;
  SSL_CTX_new : K -> option Z * K;
  SSL_CTX_set_verify_peer : Z -> K -> K;
  SSL_CTX_load_verify_locations : Z -> bytes -> K -> Z * K;
  SSL_CTX_set_default_verify_paths : Z -> K -> Z * K;
  SSL_CTX_set_min_proto_tls12 : Z -> K -> Z * K;
  SSL_CTX_set_alpn_protos : Z -> bytes -> K -> Z * K;
  SSL_CTX_free : Z -> K -> K;
  SSL_new : Z -> K -> option Z * K;
  SSL_free : Z -> K -> K;
  BIO_new_socket : K -> option Z * K;
  BIO_set_fd_nbio : Z -> Z -> K -> K;
  SSL_set_bio : Z -> Z -> K -> K;
  SSL_set_tlsext_host_name : Z -> bytes -> K -> Z * K;
  SSL_set1_host : Z -> bytes -> K -> Z * K;
  SSL_set_connect_state : Z -> K -> K;
  SSL_do_handshake : Z -> K -> Z * K;
  SSL_get_error : Z -> Z -> K -> Z;
  SSL_verify_result_ok : Z -> K -> bool;
  SSL_alpn_selected : Z -> K -> bytes;
  SSL_write : Z -> bytes -> Z -> K -> Z * K;
  SSL_read : Z -> Z -> K -> (Z * bytes) * K;
  SSL_shutdown : Z -> K -> K;
}.

Definition K_HTTP2_PROTOCOL : list bytes := [bs "h2"].

(** The keep-alive settings both [init]s make; their results are ignored. *)
Definition keep_alive {K} `{Posix K} (keepAliveSec : Z) (socket : SocketFd.t) : st K unit :=
  if keepAliveSec >? 0 then
    SocketFd.setKeepAlive true socket ;;;
    SocketFd.setKeepAliveParams keepAliveSec (Z.max (Z.quot keepAliveSec 6) 1) 3 socket ;;;
    ret tt
  else ret tt.

(** ** [TcpStreamTransport] *)

Module Tcp.
Record t := mk { socket : SocketFd.t; ready : bool }.
Definition make (sock : SocketFd.t) : t := mk sock false.
Definition isReady (tr : t) : bool := ready tr.
Definition fd (tr : t) : Z := SocketFd.get (socket tr).

Section tcp.
Context {K : Type} `{Posix K}.

Definition init (keepAliveSec : Z) (tr : t) : st K (bool * t) :=
  if negb (SocketFd.valid (socket tr)) then ret (false, mk (socket tr) false)
  else
    ok <- SocketFd.setNonBlocking true (socket tr) ;;
    if negb ok then ret (false, mk (socket tr) false)
    else
      keep_alive keepAliveSec (socket tr) ;;;
      ret (true, mk (socket tr) true).

Definition writeSome (data : bytes) (tr : t) : st K IOResult :=
  if negb (ready tr) || (zlen data =? 0) then ret (tcp_writeSome (ready tr) (zlen data) 0 0)
  else
    r <- SocketFd.write data (socket tr) ;;
    err <- lastSocketError ;;
    ret (tcp_writeSome true (zlen data) r err).

(** The result, and the bytes put into the buffer. *)
Definition readSome (len : Z) (tr : t) : st K (IOResult * bytes) :=
  if negb (ready tr) || (len =? 0) then ret (tcp_readSome (ready tr) len 0 0, [])
  else
    r <- SocketFd.read len (socket tr) ;;
    err <- lastSocketError ;;
    ret (tcp_readSome true len (fst r) err, snd r).

Definition close (tr : t) : st K t :=
  if negb (SocketFd.valid (socket tr)) then ret (mk (socket tr) false)
  else
    SocketFd.shutdownBoth (socket tr) ;;;
    s <- SocketFd.reset INVALID_SOCKET (socket tr) ;;
    ret (mk s false).

(** The implicit destructor. *)
Definition destroy (tr : t) : st K unit := SocketFd.destroy (socket tr).
End tcp.
End Tcp.

(** ** [TlsStreamTransport] *)

Module Tls.
Record t := mk {
  socket : SocketFd.t;
  domain : bytes;
  certFile : bytes;
  customCert : bool;
  ready : bool;
  ssl : option Z;
  ctx : option Z;
}.
Definition make (sock : SocketFd.t) (dom cert : bytes) : t := mk sock dom cert (negb (Endpoint.is_empty cert)) false None None.
Definition isReady (tr : t) : bool := ready tr.
Definition fd (tr : t) : Z := SocketFd.get (socket tr).

Definition set_ready (b : bool) (tr : t) : t := mk (socket tr) (domain tr) (certFile tr) (customCert tr) b (ssl tr) (ctx tr).
Definition set_ssl (s : option Z) (tr : t) : t := mk (socket tr) (domain tr) (certFile tr) (customCert tr) (ready tr) s (ctx tr).
Definition set_ctx (c : option Z) (tr : t) : t := mk (socket tr) (domain tr) (certFile tr) (customCert tr) (ready tr) (ssl tr) c.

Section tls.
Context {K : Type} `{Posix K} `{!OpenSSL K}.

(** [ready = false; return false;] *)
Definition fail (tr : t) : st K (bool * t) := ret (false, set_ready false tr).

Definition alpnProtocols : bytes := concat (map (fun i => z2b (zlen i) :: i) K_HTTP2_PROTOCOL).

Definition trust (c : Z) (tr : t) : st K Z :=
  if customCert tr then sys (SSL_CTX_load_verify_locations c (c_str (certFile tr)))
  else sys (SSL_CTX_set_default_verify_paths c).

(** Each pass of the loop is a call of the library: the socket does not
    block, so the loop spins until the handshake ends. *)
Fixpoint handshake (fuel : nat) (s : Z) : st K bool :=
  match fuel with
  | O => fail_with Hangs
  | S fuel' =>
      r <- sys (SSL_do_handshake s) ;;
      if r <=? 0 then
        err <- gets (SSL_get_error s r) ;;
        if (err =? SSL_ERROR_WANT_READ) || (err =? SSL_ERROR_WANT_WRITE) then handshake fuel' s
        else ret false
      else ret true
  end.

Definition set_host (s : Z) (dom : bytes) : st K bool :=
  match dom with
  | [] => ret true
  | _ =>
      r <- sys (SSL_set_tlsext_host_name s (c_str dom)) ;;
      if negb (r =? 1) then ret false
      else
        r <- sys (SSL_set1_host s (c_str dom)) ;;
        ret (r =? 1)
  end.

(** [init], from [SSL_new] on. *)
Definition init_ssl (fuel : nat) (c : Z) (tr : t) : st K (bool * t) :=
  o <- sys (SSL_new c) ;;
  match o with
  | None => fail (set_ssl None tr)
  | Some s =>
      let tr := set_ssl (Some s) tr in
      b <- sys BIO_new_socket ;;
      match b with
      | None => fail tr
      | Some b =>
          modify (BIO_set_fd_nbio b (SocketFd.get (socket tr))) ;;;
          modify (SSL_set_bio s b) ;;;
          named <- set_host s (domain tr) ;;
          if negb named then fail tr
          else
            modify (SSL_set_connect_state s) ;;;
            shaken <- handshake fuel s ;;
            if negb shaken then fail tr
            else
              verified <- gets (SSL_verify_result_ok s) ;;
              if negb verified then fail tr
              else
                proto <- gets (SSL_alpn_selected s) ;;
                if negb (bool_decide (proto = bs "h2")) then fail tr
                else ret (true, set_ready true tr)
      end
  end.

Definition init_ctx (fuel : nat) (tr : t) : st K (bool * t) :=
  o <- sys SSL_CTX_new ;;
  match o with
  | None => fail (set_ctx None tr)
  | Some c =>
      let tr := set_ctx (Some c) tr in
      modify (SSL_CTX_set_verify_peer c) ;;;
      r <- trust c tr ;;
      if negb (r =? 1) then fail tr
      else
        r <- sys (SSL_CTX_set_min_proto_tls12 c) ;;
        if negb (r =? 1) then fail tr
        else
          r <- sys (SSL_CTX_set_alpn_protos c alpnProtocols) ;;
          if negb (r =? 0) then fail tr else init_ssl fuel c tr
  end.

Definition init (fuel : nat) (keepAliveSec : Z) (tr : t) : st K (bool * t) :=
  if negb (SocketFd.valid (socket tr)) then fail tr
  else
    ok <- SocketFd.setNonBlocking true (socket tr) ;;
    if negb ok then fail tr
    else keep_alive keepAliveSec (socket tr) ;;; init_ctx fuel tr.

Definition has_ssl (tr : t) : bool := match ssl tr with Some _ => true | None => false end.

(** The length is cast to [int]. *)
Definition writeSome (data : bytes) (tr : t) : st K IOResult :=
  match ssl tr with
  | Some s =>
      if negb (ready tr) || (zlen data =? 0) then ret (tls_writeSome (ready tr) true (zlen data) 0 0)
      else
        r <- sys (SSL_write s data (i32 (zlen data))) ;;
        err <- gets (SSL_get_error s r) ;;
        ret (tls_writeSome true true (zlen data) r err)
  | None => ret (tls_writeSome (ready tr) false (zlen data) 0 0)
  end.

Definition readSome (len : Z) (tr : t) : st K (IOResult * bytes) :=
  match ssl tr with
  | Some s =>
      if negb (ready tr) || (len =? 0) then ret (tls_readSome (ready tr) true len 0 0, [])
      else
        r <- sys (SSL_read s (i32 len)) ;;
        err <- gets (SSL_get_error s (fst r)) ;;
        ret (tls_readSome true true len (fst r) err, snd r)
  | None => ret (tls_readSome (ready tr) false len 0 0, [])
  end.

Definition close (tr : t) : st K t :=
  let tr := set_ready false tr in
  tr <- match ssl tr with
        | Some s => modify (SSL_shutdown s) ;;; modify (SSL_free s) ;;; ret (set_ssl None tr)
        | None => ret tr
        end ;;
  tr <- match ctx tr with
        | Some c => modify (SSL_CTX_free c) ;;; ret (set_ctx None tr)
        | None => ret tr
        end ;;
  if SocketFd.valid (socket tr) then
    SocketFd.shutdownBoth (socket tr) ;;;
    s <- SocketFd.reset INVALID_SOCKET (socket tr) ;;
    ret (mk s (domain tr) (certFile tr) (customCert tr) (ready tr) (ssl tr) (ctx tr))
  else ret tr.

(** [~TlsStreamTransport()], then the destructor of the socket. *)
Definition destroy (tr : t) : st K unit := tr <- close tr ;; SocketFd.destroy (socket tr).
End tls.
End Tls.

(** ** [IStreamTransport] and the factory *)

Inductive StreamTransport : Type := tcp (tr : Tcp.t) | tls (tr : Tls.t).

Section transport.
Context {K : Type} `{Posix K} `{!OpenSSL K}.

Definition transport_init (fuel : nat) (keepAliveSec : Z) (tr : StreamTransport) : st K (bool * StreamTransport) :=
  match tr with
  | tcp tr => r <- Tcp.init keepAliveSec tr ;; ret (fst r, tcp (snd r))
  | tls tr => r <- Tls.init fuel keepAliveSec tr ;; ret (fst r, tls (snd r))
  end.
Definition transport_isReady (tr : StreamTransport) : bool :=
  match tr with tcp tr => Tcp.isReady tr | tls tr => Tls.isReady tr end.
Definition transport_fd (tr : StreamTransport) : Z := match tr with tcp tr => Tcp.fd tr | tls tr => Tls.fd tr end.
Definition transport_writeSome (data : bytes) (tr : StreamTransport) : st K IOResult :=
  match tr with tcp tr => Tcp.writeSome data tr | tls tr => Tls.writeSome data tr end.
Definition transport_readSome (len : Z) (tr : StreamTransport) : st K (IOResult * bytes) :=
  match tr with tcp tr => Tcp.readSome len tr | tls tr => Tls.readSome len tr end.
Definition transport_close (tr : StreamTransport) : st K StreamTransport :=
  match tr with
  | tcp tr => tr <- Tcp.close tr ;; ret (tcp tr)
  | tls tr => tr <- Tls.close tr ;; ret (tls tr)
  end.
Definition transport_destroy (tr : StreamTransport) : st K unit :=
  match tr with tcp tr => Tcp.destroy tr | tls tr => Tls.destroy tr end.

(** [StreamTransportFactory::create]; the local [socket] is moved into the
    transport. *)
Definition create (fuel : nat) (ep : Endpoint.t) (connectTimeoutMs : Z) : st K (bytes + StreamTransport) :=
  r <- match Endpoint.type ep with
       | UNIX => connectUnix fuel (Endpoint.sockFile ep) connectTimeoutMs
       | TCP =>
           if negb (Endpoint.is_empty (Endpoint.ip ep)) then connectIp fuel (Endpoint.ip ep) (Endpoint.port ep) connectTimeoutMs
           else if negb (Endpoint.is_empty (Endpoint.host ep)) then connectDomain fuel (Endpoint.host ep) (Endpoint.port ep) connectTimeoutMs
           else throw_error (bs "Missing endpoint for stream transport")
       end ;;
  match r with
  | inl what => ret (inl what)
  | inr socket =>
      ret (inr (if Endpoint.useSSL ep then tls (Tls.make socket (Endpoint.host ep) (Endpoint.certFile ep)) else tcp (Tcp.make socket)))
  end.
End transport.
