(* ===== verification/TlsLaws.v ===== *)
(** * What the documentation of the TLS library promises

    The handles the process holds, the settings of a context and what each
    call does to them; then a library that keeps the promises. *)

From S2P Require Import Prelude Outcome Types Transport Endpoint Posix PosixLaws PosixSim.
From S2P Require Import Connector StreamTransport.

Inductive Trust : Type := NoTrust | SystemTrust | FileTrust (certFile : bytes).

(** The settings of a context, which a connection inherits. *)
Record TlsConfig := mk_config {
  verify_peer : bool;
  trusted : Trust;
  tls12 : bool;
  alpn : bytes;
  expected_host : option bytes;
}.
Definition default_config : TlsConfig := mk_config false NoTrust false [] None.

(** Contexts and connections that have not been freed, BIOs that no
    connection owns, connections whose handshake is complete. *)
Record TlsView := mk_tls {
  ctxs : gmap Z TlsConfig;
  ssls : gmap Z TlsConfig;
  bios : gset Z;
  shaken : gset Z;
}.
Definition on_ctxs (f : gmap Z TlsConfig -> gmap Z TlsConfig) (v : TlsView) : TlsView := mk_tls (f (ctxs v)) (ssls v) (bios v) (shaken v).
Definition on_ssls (f : gmap Z TlsConfig -> gmap Z TlsConfig) (v : TlsView) : TlsView := mk_tls (ctxs v) (f (ssls v)) (bios v) (shaken v).
Definition on_bios (f : gset Z -> gset Z) (v : TlsView) : TlsView := mk_tls (ctxs v) (ssls v) (f (bios v)) (shaken v).
Definition on_shaken (f : gset Z -> gset Z) (v : TlsView) : TlsView := mk_tls (ctxs v) (ssls v) (bios v) (f (shaken v)).

Class OpenSslLaws (K : Type) `{PosixLaws K} `{!OpenSSL K} : Type := {
  tls_view : K -> TlsView;
  (* the system knows nothing of the library *)
  tls_close fd k : tls_view (sys_close fd k) = tls_view k;
  tls_getfl fd k : tls_view (snd (sys_getfl fd k)) = tls_view k;
  tls_setfl fd fl k : tls_view (snd (sys_setfl fd fl k)) = tls_view k;
  tls_setsockopt fd o v k : tls_view (snd (sys_setsockopt fd o v k)) = tls_view k;
  tls_shutdown fd k : tls_view (snd (sys_shutdown fd k)) = tls_view k;
  (* contexts *)
  law_ctx_new k : let '(o, k') := SSL_CTX_new k in eventually (view k) (view k') /\
    match o with
    | Some c => ctxs (tls_view k) !! c = None /\ tls_view k' = on_ctxs (insert c default_config) (tls_view k)
    | None => tls_view k' = tls_view k
    end;
  law_verify_peer c k : let k' := SSL_CTX_set_verify_peer c k in eventually (view k) (view k') /\
    tls_view k' = on_ctxs (alter (fun g => mk_config true (trusted g) (tls12 g) (alpn g) (expected_host g)) c) (tls_view k);
  law_load_locations c file k : let '(r, k') := SSL_CTX_load_verify_locations c file k in eventually (view k) (view k') /\
    tls_view k' = if r =? 1
      then on_ctxs (alter (fun g => mk_config (verify_peer g) (FileTrust file) (tls12 g) (alpn g) (expected_host g)) c) (tls_view k)
      else tls_view k;
  law_default_paths c k : let '(r, k') := SSL_CTX_set_default_verify_paths c k in eventually (view k) (view k') /\
    tls_view k' = if r =? 1
      then on_ctxs (alter (fun g => mk_config (verify_peer g) SystemTrust (tls12 g) (alpn g) (expected_host g)) c) (tls_view k)
      else tls_view k;
  law_min_proto c k : let '(r, k') := SSL_CTX_set_min_proto_tls12 c k in eventually (view k) (view k') /\
    tls_view k' = if r =? 1
      then on_ctxs (alter (fun g => mk_config (verify_peer g) (trusted g) true (alpn g) (expected_host g)) c) (tls_view k)
      else tls_view k;
  law_alpn_protos c protos k : let '(r, k') := SSL_CTX_set_alpn_protos c protos k in eventually (view k) (view k') /\
    tls_view k' = if r =? 0
      then on_ctxs (alter (fun g => mk_config (verify_peer g) (trusted g) (tls12 g) protos (expected_host g)) c) (tls_view k)
      else tls_view k;
  law_ctx_free c k : eventually (view k) (view (SSL_CTX_free c k)) /\
    (is_Some (ctxs (tls_view k) !! c) -> tls_view (SSL_CTX_free c k) = on_ctxs (delete c) (tls_view k));
  (* connections *)
  law_ssl_new c k : let '(o, k') := SSL_new c k in eventually (view k) (view k') /\
    match o with
    | Some s => ssls (tls_view k) !! s = None /\ (s ∉ shaken (tls_view k)) /\
        tls_view k' = on_ssls (insert s (default default_config (ctxs (tls_view k) !! c))) (tls_view k)
    | None => tls_view k' = tls_view k
    end;
  law_bio_new k : let '(o, k') := BIO_new_socket k in eventually (view k) (view k') /\
    match o with
    | Some b => (b ∉ bios (tls_view k)) /\ tls_view k' = on_bios (union {[b]}) (tls_view k)
    | None => tls_view k' = tls_view k
    end;
  law_bio_set_fd b fd k : eventually (view k) (view (BIO_set_fd_nbio b fd k)) /\ tls_view (BIO_set_fd_nbio b fd k) = tls_view k;
  law_set_bio s b k : eventually (view k) (view (SSL_set_bio s b k)) /\
    tls_view (SSL_set_bio s b k) = on_bios (fun bs => bs ∖ {[b]}) (tls_view k);
  law_host_name s name k : let '(r, k') := SSL_set_tlsext_host_name s name k in
    eventually (view k) (view k') /\ tls_view k' = tls_view k;
  law_set1_host s name k : let '(r, k') := SSL_set1_host s name k in eventually (view k) (view k') /\
    tls_view k' = if r =? 1
      then on_ssls (alter (fun g => mk_config (verify_peer g) (trusted g) (tls12 g) (alpn g) (Some name)) s) (tls_view k)
      else tls_view k;
  law_connect_state s k : eventually (view k) (view (SSL_set_connect_state s k)) /\ tls_view (SSL_set_connect_state s k) = tls_view k;
  law_handshake s k : let '(r, k') := SSL_do_handshake s k in eventually (view k) (view k') /\
    tls_view k' = if r <=? 0 then tls_view k else on_shaken (union {[s]}) (tls_view k);
  law_ssl_write s data len k : let '(r, k') := SSL_write s data len k in
    eventually (view k) (view k') /\ tls_view k' = tls_view k /\ (0 < r -> r <= len);
  law_ssl_read s len k : let '((r, data), k') := SSL_read s len k in
    eventually (view k) (view k') /\ tls_view k' = tls_view k /\ (0 < r -> r <= len) /\ zlen data = Z.max 0 r;
  law_ssl_shutdown s k : eventually (view k) (view (SSL_shutdown s k)) /\ tls_view (SSL_shutdown s k) = tls_view k;
  law_ssl_free s k : eventually (view k) (view (SSL_free s k)) /\
    (is_Some (ssls (tls_view k) !! s) ->
     tls_view (SSL_free s k) = on_shaken (fun sh => sh ∖ {[s]}) (on_ssls (delete s) (tls_view k)));
}.

(** ** A TLS library to run transports on

    On the simulated system: handles are numbered, the peer completes the
    handshake with the verification result and the protocol given, and
    delivers nothing. *)

(** The handles, and the number of the next one. *)
Definition SimTls : Type := TlsView * Z.
Definition sim_tls_init : SimTls := (mk_tls ∅ ∅ ∅ ∅, 1).

Section tls.
Context (hosts : bytes -> list AddrInfo) (route : SockAddr -> option (Z * Z)) (verified : bool) (proto : bytes).
Abbreviation K := (Sim SimTls).
Implicit Type k : K.
#[local] Instance tls_posix : Posix K := sim_posix hosts route.
#[local] Instance tls_posix_laws : PosixLaws K := sim_laws hosts route.

Definition sim_tls k : TlsView := fst (sim_extra k).
Definition on_tls (f : TlsView -> TlsView) k : K := with_extra (f (sim_tls k), snd (sim_extra k)) k.

(** A number nobody has. *)
Definition fresh_handle k : Z :=
  let taken := dom (ctxs (sim_tls k)) ∪ dom (ssls (sim_tls k)) ∪ bios (sim_tls k) ∪ shaken (sim_tls k) in
  fresh (elements taken).

Lemma fresh_handle_new k :
  ctxs (sim_tls k) !! fresh_handle k = None /\ ssls (sim_tls k) !! fresh_handle k = None /\
  (fresh_handle k ∉ bios (sim_tls k)) /\ (fresh_handle k ∉ shaken (sim_tls k)).
Proof.
  pose proof (infinite_is_fresh (elements (dom (ctxs (sim_tls k)) ∪ dom (ssls (sim_tls k)) ∪ bios (sim_tls k) ∪ shaken (sim_tls k)))) as Hf.
  fold (fresh_handle k) in Hf. rewrite elem_of_elements, !elem_of_union in Hf.
  rewrite <- !not_elem_of_dom. tauto.
Qed.

Definition configure (f : TlsConfig -> TlsConfig) (c : Z) k : K := on_tls (on_ctxs (alter f c)) k.

#[local] Instance sim_openssl : OpenSSL K := {
  ssl_errors := {| SSL_ERROR_WANT_READ := 2; SSL_ERROR_WANT_WRITE := 3; SSL_ERROR_ZERO_RETURN := 6 |};
  SSL_CTX_new k := (Some (fresh_handle k), on_tls (on_ctxs (insert (fresh_handle k) default_config)) k);
  SSL_CTX_set_verify_peer := configure (fun g => mk_config true (trusted g) (tls12 g) (alpn g) (expected_host g));
  SSL_CTX_load_verify_locations c file k :=
    (1, configure (fun g => mk_config (verify_peer g) (FileTrust file) (tls12 g) (alpn g) (expected_host g)) c k);
  SSL_CTX_set_default_verify_paths c k :=
    (1, configure (fun g => mk_config (verify_peer g) SystemTrust (tls12 g) (alpn g) (expected_host g)) c k);
  SSL_CTX_set_min_proto_tls12 c k :=
    (1, configure (fun g => mk_config (verify_peer g) (trusted g) true (alpn g) (expected_host g)) c k);
  SSL_CTX_set_alpn_protos c protos k :=
    (0, configure (fun g => mk_config (verify_peer g) (trusted g) (tls12 g) protos (expected_host g)) c k);
  SSL_CTX_free c := on_tls (on_ctxs (delete c));
  SSL_new c k := (Some (fresh_handle k),
    on_tls (on_ssls (insert (fresh_handle k) (default default_config (ctxs (sim_tls k) !! c)))) k);
  SSL_free s := on_tls (fun v => on_shaken (fun sh => sh ∖ {[s]}) (on_ssls (delete s) v));
  BIO_new_socket k := (Some (fresh_handle k), on_tls (on_bios (union {[fresh_handle k]})) k);
  BIO_set_fd_nbio b fd k := k;
  SSL_set_bio s b := on_tls (on_bios (fun bs => bs ∖ {[b]}));
  SSL_set_tlsext_host_name s name k := (1, k);
  SSL_set1_host s name k :=
    (1, on_tls (on_ssls (alter (fun g => mk_config (verify_peer g) (trusted g) (tls12 g) (alpn g) (Some name)) s)) k);
  SSL_set_connect_state s k := k;
  SSL_do_handshake s k := (1, on_tls (on_shaken (union {[s]})) k);
  SSL_get_error s r k := 2;
  SSL_verify_result_ok s k := verified;
  SSL_alpn_selected s k := proto;
  SSL_write s data len k := (len, k);
  SSL_read s len k := ((-1, []), k);
  SSL_shutdown s k := k;
}.

#[local] Instance sim_openssl_laws : OpenSslLaws K.
Proof.
  refine {| tls_view := sim_tls |}; try done.
  all: try (intros; cbn; split; [apply eventually_refl|done]).
  - intros k. cbn. split; [apply eventually_refl|]. split; [apply (fresh_handle_new k)|done].
  - intros c k. cbn. split; [apply eventually_refl|]. destruct (fresh_handle_new k) as (_ & ? & _ & ?). done.
  - intros k. cbn. split; [apply eventually_refl|]. split; [apply (fresh_handle_new k)|done].
Defined.
End tls.
