(* ===== verification/TransportProps.v ===== *)
(** * What a transport guarantees

    A transport gives back everything it took, a TLS transport that is ready
    has authenticated its peer, and the results of reads and writes are those
    a session expects. *)

From S2P Require Import Prelude Outcome Types Endpoint Transport Posix PosixLaws PosixSim Connector ConnectorProps StreamTransport TlsLaws SessionFacts.

Section transport.
Context {K : Type} `{OpenSslLaws K}.
Implicit Types (k : K) (tr : Tls.t).

Abbreviation spins := (fun f => f = Hangs).

(** ** What a TLS transport holds *)

(** The descriptors and lists of [v0] and, besides the handles of [g0], those
    of the transport, with their settings [cc] and [cs]. *)
Record holding (v0 : SysView) (g0 : TlsView) (cc cs : TlsConfig) tr k : Prop := {
  hd_open : open_fds (view k) = open_fds v0;
  hd_lists : address_lists (view k) = address_lists v0;
  hd_closes : closes (view k) = closes v0;
  hd_ctxs : match Tls.ctx tr with
            | Some c => ctxs g0 !! c = None /\ ctxs (tls_view k) = <[c := cc]> (ctxs g0)
            | None => ctxs (tls_view k) = ctxs g0
            end;
  hd_ssls : match Tls.ssl tr with
            | Some s => ssls g0 !! s = None /\ ssls (tls_view k) = <[s := cs]> (ssls g0) /\
                        (s ∉ shaken g0) /\ shaken (tls_view k) ∖ {[s]} = shaken g0
            | None => ssls (tls_view k) = ssls g0 /\ shaken (tls_view k) = shaken g0
            end;
  hd_bios : bios (tls_view k) = bios g0;
}.

Lemma holding_same v0 g0 cc cs tr k k' :
  holding v0 g0 cc cs tr k -> tls_view k' = tls_view k -> open_fds (view k') = open_fds (view k) ->
  address_lists (view k') = address_lists (view k) -> closes (view k') = closes (view k) -> holding v0 g0 cc cs tr k'.
Proof. intros [] Hg Ho Hl Hcl. split; rewrite ?Hg, ?Ho, ?Hl, ?Hcl; done. Qed.

Lemma holding_later v0 g0 cc cs tr k k' :
  holding v0 g0 cc cs tr k -> eventually (view k) (view k') -> tls_view k' = tls_view k -> holding v0 g0 cc cs tr k'.
Proof. intros Hh (d & _ & Hv) Hg. by eapply holding_same; [done|done|rewrite Hv..]. Qed.

Lemma holding_ready v0 g0 cc cs b tr k : holding v0 g0 cc cs tr k -> holding v0 g0 cc cs (Tls.set_ready b tr) k.
Proof. by intros []. Qed.

(** Changing the settings of the context. *)
Lemma holding_config v0 g0 cc cs f tr c k k' :
  holding v0 g0 cc cs tr k -> Tls.ctx tr = Some c -> eventually (view k) (view k') ->
  tls_view k' = on_ctxs (alter f c) (tls_view k) -> holding v0 g0 (f cc) cs tr k'.
Proof.
  intros [Ho Hl Hcl Hc Hs Hb] Htr (d & _ & Hv) Hg. rewrite Htr in Hc. destruct Hc as [Hnew Hc].
  split; rewrite ?Hg, ?Hv, ?Htr; try done. cbn. split; [done|]. by rewrite Hc, alter_insert_eq.
Qed.

(** ** The descriptor calls change no handle *)

(** A socket of the transport, and a state to come back to. *)
Definition still k k' : Prop :=
  tls_view k' = tls_view k /\ open_fds (view k') = open_fds (view k) /\ address_lists (view k') = address_lists (view k) /\
  closes (view k') = closes (view k).

Lemma still_trans k1 k2 k3 : still k1 k2 -> still k2 k3 -> still k1 k3.
Proof. intros (? & ? & ? & ?) (? & ? & ? & ?). unfold still. split_and!; congruence. Qed.

Lemma still_soon k k' : tls_view k' = tls_view k -> soon slack (view k) (view k') -> still k k'.
Proof. intros ? (d & ? & Hv). unfold still. by rewrite Hv. Qed.

Lemma wp_setsockopt E fd o (v : Z) (Q : Z -> K -> Prop) k :
  (forall r k', still k k' -> Q r k') -> wp E (sys (sys_setsockopt fd o v)) Q k.
Proof.
  intros HQ. apply wp_sys. pose proof (law_setsockopt fd o v k) as Hv. pose proof (tls_setsockopt fd o v k) as Hg.
  destruct (sys_setsockopt fd o v k) as [r k']. apply HQ. by apply still_soon.
Qed.

Lemma keep_alive_spec E sec fd k : wp E (keep_alive sec fd) (fun _ k' => still k k') k.
Proof.
  unfold keep_alive. destruct (sec >? 0); [|by apply wp_ret]. wp_step.
  eapply (wp_mono _ (fun _ k' => still k k')).
  { unfold SocketFd.setKeepAlive. destruct (SocketFd.valid fd); cbn [negb]; [|by apply wp_ret].
    unfold setKeepAlive. wp_step. apply wp_setsockopt. intros r k1 Hk1. by apply wp_ret. }
  intros b k1 Hk1. wp_step. eapply (wp_mono _ (fun _ k' => still k k')); [|by intros b' k2 Hk2; apply wp_ret].
  unfold SocketFd.setKeepAliveParams. destruct (SocketFd.valid fd); cbn [negb]; [|by apply wp_ret].
  unfold setKeepAliveParams. wp_step. apply wp_setsockopt. intros r1 k2 Hk2. pose proof (still_trans _ _ _ Hk1 Hk2).
  destruct (negb (r1 =? 0)); [by apply wp_ret|]. wp_step. apply wp_setsockopt. intros r2 k3 Hk3.
  pose proof (still_trans k k2 k3 ltac:(done) Hk3). destruct (negb (r2 =? 0)); [by apply wp_ret|].
  wp_step. apply wp_setsockopt. intros r3 k4 Hk4. pose proof (still_trans k k3 k4 ltac:(done) Hk4).
  destruct (negb (r3 =? 0)); by apply wp_ret.
Qed.

Lemma non_blocking_spec E fd k :
  wp E (SocketFd.setNonBlocking true fd) (fun _ k' => still k k') k.
Proof.
  unfold SocketFd.setNonBlocking. destruct (SocketFd.valid fd); cbn [negb]; [|by apply wp_ret].
  unfold setNonBlocking. wp_step. apply wp_sys. pose proof (law_getfl fd k) as Hv. pose proof (tls_getfl fd k) as Hg.
  destruct (sys_getfl fd k) as [fl k1]. destruct Hv as [Hv _]. pose proof (still_soon _ _ Hg Hv) as Hk1.
  destruct (fl <? 0); [by apply wp_ret|]. wp_step. apply wp_sys. pose proof (law_setfl fd (Z.lor fl O_NONBLOCK) k1) as Hv2.
  pose proof (tls_setfl fd (Z.lor fl O_NONBLOCK) k1) as Hg2. destruct (sys_setfl fd (Z.lor fl O_NONBLOCK) k1) as [r k2].
  apply wp_ret. destruct Hv2 as [_ (d & ? & Hv2)]. apply (still_trans _ _ _ Hk1). unfold still. rewrite Hv2. by destruct (r =? 0).
Qed.

(** Closing a socket. *)
Lemma reset_spec E fd k :
  fd <> INVALID_SOCKET ->
  wp E (SocketFd.reset INVALID_SOCKET fd) (fun s k' =>
    s = INVALID_SOCKET /\ tls_view k' = tls_view k /\ open_fds (view k') = open_fds (view k) ∖ {[fd]} /\
    address_lists (view k') = address_lists (view k) /\ closes (view k') = fd :: closes (view k)) k.
Proof.
  intros Hfd. unfold SocketFd.reset. destruct (Z.eqb_spec fd INVALID_SOCKET); [done|]. cbn [negb].
  wp_step. apply wp_modify, wp_ret. destruct (law_close fd k) as (d & ? & Hv). by rewrite tls_close, Hv.
Qed.

Lemma shutdown_spec E fd k : wp E (SocketFd.shutdownBoth fd) (fun _ k' => still k k') k.
Proof.
  unfold SocketFd.shutdownBoth. destruct (SocketFd.valid fd); cbn [negb]; [|by apply wp_ret].
  unfold shutdownBoth. wp_step. apply wp_sys. pose proof (law_shutdown fd k) as Hv. pose proof (tls_shutdown fd k) as Hg.
  destruct (sys_shutdown fd k) as [r k1]. apply wp_ret. by apply still_soon.
Qed.

(** ** Closing and destroying *)

(** The handles of [g0] and, with a valid socket, its descriptor. *)
Definition released (v0 : SysView) (g0 : TlsView) (fd : Z) k : Prop :=
  tls_view k = g0 /\ open_fds (view k) = open_fds v0 ∖ {[fd]} /\ address_lists (view k) = address_lists v0 /\
  closes (view k) = fd :: closes v0.

Lemma free_ssl_spec E v0 g0 cc cs tr k :
  holding v0 g0 cc cs tr k ->
  wp E (match Tls.ssl tr with
        | Some s => modify (SSL_shutdown s) ;;; modify (SSL_free s) ;;; ret (Tls.set_ssl None tr)
        | None => ret tr
        end) (fun tr' k' => tr' = Tls.set_ssl None tr /\ holding v0 g0 cc cs tr' k') k.
Proof.
  intros Hh. destruct Hh as [Ho Hl Hcl Hc Hs Hb]. destruct (Tls.ssl tr) as [s|] eqn:Es.
  - destruct Hs as (Hnew & Hs & Hns & Hsh). do 4 wp_step. apply wp_ret. split; [done|].
    destruct (law_ssl_shutdown s k) as [(d1 & _ & Hv1) Hg1]. destruct (law_ssl_free s (SSL_shutdown s k)) as [(d2 & _ & Hv2) Hg2].
    rewrite Hg1 in Hg2. specialize (Hg2 ltac:(rewrite Hs, lookup_insert_eq; eauto)).
    split; rewrite ?Hg2, ?Hv2, ?Hv1; try done. cbn. split; [rewrite Hs; by apply delete_insert_id|done].
  - apply wp_ret. assert (Tls.set_ssl None tr = tr) as -> by (destruct tr; cbn in *; by subst). split; [done|].
    split; try done. by rewrite Es.
Qed.

Lemma free_ctx_spec E v0 g0 cc cs tr k :
  holding v0 g0 cc cs tr k ->
  wp E (match Tls.ctx tr with
        | Some c => modify (SSL_CTX_free c) ;;; ret (Tls.set_ctx None tr)
        | None => ret tr
        end) (fun tr' k' => tr' = Tls.set_ctx None tr /\ holding v0 g0 cc cs tr' k') k.
Proof.
  intros Hh. destruct Hh as [Ho Hl Hcl Hc Hs Hb]. destruct (Tls.ctx tr) as [c|] eqn:Ec.
  - destruct Hc as [Hnew Hc]. do 2 wp_step. apply wp_ret. split; [done|].
    destruct (law_ctx_free c k) as [(d1 & _ & Hv1) Hg1]. specialize (Hg1 ltac:(rewrite Hc, lookup_insert_eq; eauto)).
    split; rewrite ?Hg1, ?Hv1; try done. cbn. rewrite Hc. by apply delete_insert_id.
  - apply wp_ret. assert (Tls.set_ctx None tr = tr) as -> by (destruct tr; cbn in *; by subst). split; [done|].
    split; try done. by rewrite Ec.
Qed.

Lemma tls_close_spec E v0 g0 cc cs tr k :
  holding v0 g0 cc cs tr k -> Tls.socket tr <> INVALID_SOCKET ->
  wp E (Tls.close tr) (fun tr' k' =>
    Tls.socket tr' = INVALID_SOCKET /\ Tls.ssl tr' = None /\ Tls.ctx tr' = None /\ released v0 g0 (Tls.socket tr) k') k.
Proof.
  intros Hh Hfd. unfold Tls.close. wp_step. eapply wp_mono; [apply free_ssl_spec, (holding_ready _ _ _ _ false), Hh|].
  intros tr1 k1 [-> Hh1]. cbv beta. wp_step. eapply wp_mono; [apply free_ctx_spec, Hh1|]. intros tr2 k2 [-> Hh2]. cbv beta.
  change (Tls.socket (Tls.set_ctx None (Tls.set_ssl None (Tls.set_ready false tr)))) with (Tls.socket tr).
  unfold SocketFd.valid. destruct (Z.eqb_spec (Tls.socket tr) INVALID_SOCKET); [done|]. cbn [negb].
  wp_step. eapply wp_mono; [apply shutdown_spec|]. intros b k3 (Hg3 & Ho3 & Hl3 & Hcl3). cbv beta. wp_step.
  eapply wp_mono; [by apply reset_spec|]. intros s k4 (-> & Hg4 & Ho4 & Hl4 & Hcl4). apply wp_ret. split_and!; [done..|].
  destruct Hh2 as [Ho Hl Hcl Hc [Hs Hsh] Hb]. cbn in Hc, Hs, Hsh.
  split; [|split_and!; [by rewrite Ho4, Ho3, Ho|by rewrite Hl4, Hl3, Hl|by rewrite Hcl4, Hcl3, Hcl]].
  rewrite Hg4, Hg3. destruct (tls_view k2), g0. cbn in *. by subst.
Qed.

Lemma tls_destroy_closed E tr k :
  Tls.socket tr = INVALID_SOCKET -> Tls.ssl tr = None -> Tls.ctx tr = None -> wp E (Tls.destroy tr) (fun _ k' => k' = k) k.
Proof. intros Hs Hl Hc. destruct tr. cbn in *. by subst. Qed.

Lemma tls_destroy_spec E v0 g0 cc cs tr k :
  holding v0 g0 cc cs tr k -> Tls.socket tr <> INVALID_SOCKET ->
  wp E (Tls.destroy tr) (fun _ k' => released v0 g0 (Tls.socket tr) k') k.
Proof.
  intros Hh Hfd. unfold Tls.destroy. wp_step. eapply wp_mono; [by eapply tls_close_spec|]. intros tr' k' (Hs & _ & _ & Hr).
  unfold SocketFd.destroy, SocketFd.reset. by rewrite Hs.
Qed.

(** ** Initialising *)

Definition with_host (dom : bytes) (g : TlsConfig) : TlsConfig :=
  match dom with
  | [] => g
  | _ => mk_config (verify_peer g) (trusted g) (tls12 g) (alpn g) (Some (c_str dom))
  end.

(** The peer has been authenticated, under the settings [cfg]. *)
Definition authenticated (cfg : TlsConfig) tr k : Prop :=
  exists s, Tls.ssl tr = Some s /\ ssls (tls_view k) !! s = Some cfg /\ s ∈ shaken (tls_view k) /\
    SSL_verify_result_ok s k = true /\ SSL_alpn_selected s k = bs "h2".

Definition init_post (v0 : SysView) (g0 : TlsView) (cfg : TlsConfig) (fd : Z) (r : bool * Tls.t) k : Prop :=
  Tls.socket (snd r) = fd /\ Tls.ready (snd r) = fst r /\ (exists cc cs, holding v0 g0 cc cs (snd r) k) /\
  (fst r = true -> authenticated cfg (snd r) k).

Lemma fail_spec E v0 g0 cfg cc cs tr k :
  holding v0 g0 cc cs tr k -> wp E (Tls.fail tr) (init_post v0 g0 cfg (Tls.socket tr)) k.
Proof. intros Hh. apply wp_ret. split_and!; [done|done| |done]. exists cc, cs. by apply holding_ready. Qed.

Lemma handshake_spec fuel s k :
  wp spins (Tls.handshake fuel s) (fun b k' => eventually (view k) (view k') /\
    tls_view k' = if b then on_shaken (union {[s]}) (tls_view k) else tls_view k) k.
Proof.
  assert (Hgen : forall k0, eventually (view k) (view k0) -> tls_view k0 = tls_view k ->
    wp spins (Tls.handshake fuel s) (fun b k' => eventually (view k) (view k') /\
      tls_view k' = if b then on_shaken (union {[s]}) (tls_view k) else tls_view k) k0).
  { induction fuel as [|fuel IH]; intros k0 Hv0 Hg0; cbn [Tls.handshake]; [by apply wp_fail|].
    wp_step. apply wp_sys. pose proof (law_handshake s k0) as Hl. destruct (SSL_do_handshake s k0) as [r k1]. destruct Hl as [Hv1 Hg1].
    assert (eventually (view k) (view k1)) by (by etrans). destruct (r <=? 0).
    - wp_step. apply wp_gets. destruct (_ || _); [apply IH; [done|congruence]|]. apply wp_ret. split; [done|congruence].
    - apply wp_ret. split; [done|]. by rewrite Hg1, Hg0. }
  by apply Hgen.
Qed.

Lemma set_host_spec E s dom k :
  wp E (Tls.set_host s dom) (fun b k' => eventually (view k) (view k') /\
    exists f, tls_view k' = on_ssls (alter f s) (tls_view k) /\ (b = true -> f = with_host dom)) k.
Proof.
  assert (Hid : forall g, g = on_ssls (alter (fun x => x) s) g).
  { intros [cs ss bs sh]. unfold on_ssls. cbn. by rewrite alter_id. }
  unfold Tls.set_host. destruct dom as [|b dom].
  { apply wp_ret. split; [done|]. exists (fun x => x). by split. }
  wp_step. apply wp_sys. pose proof (law_host_name s (c_str (b :: dom)) k) as Hl. destruct (SSL_set_tlsext_host_name _ _ _) as [r1 k1].
  destruct Hl as [Hv1 Hg1]. destruct (r1 =? 1); cbn [negb].
  2: { apply wp_ret. split; [done|]. exists (fun x => x). rewrite Hg1. by split. }
  wp_step. apply wp_sys. pose proof (law_set1_host s (c_str (b :: dom)) k1) as Hl. destruct (SSL_set1_host _ _ _) as [r2 k2].
  destruct Hl as [Hv2 Hg2]. apply wp_ret. split; [by etrans|]. rewrite Hg1 in Hg2. destruct (r2 =? 1).
  - eexists. split; [exact Hg2|]. done.
  - exists (fun x => x). rewrite Hg2. by split.
Qed.

(** Changing the settings of the connection. *)
Lemma holding_host v0 g0 cc cs f tr s k k' :
  holding v0 g0 cc cs tr k -> Tls.ssl tr = Some s -> eventually (view k) (view k') ->
  tls_view k' = on_ssls (alter f s) (tls_view k) -> holding v0 g0 cc (f cs) tr k'.
Proof.
  intros [Ho Hl Hcl Hc Hs Hb] Htr (d & _ & Hv) Hg. rewrite Htr in Hs. destruct Hs as (Hnew & Hs & Hn & Hsh).
  split; rewrite ?Hg, ?Hv, ?Htr; try done. cbn. split; [done|]. by rewrite Hs, alter_insert_eq.
Qed.

Lemma holding_shaken v0 g0 cc cs tr s k k' :
  holding v0 g0 cc cs tr k -> Tls.ssl tr = Some s -> eventually (view k) (view k') ->
  tls_view k' = on_shaken (union {[s]}) (tls_view k) -> holding v0 g0 cc cs tr k'.
Proof.
  intros [Ho Hl Hcl Hc Hs Hb] Htr (d & _ & Hv) Hg. rewrite Htr in Hs. destruct Hs as (Hnew & Hs & Hn & Hsh).
  split; rewrite ?Hg, ?Hv, ?Htr; try done. cbn. split_and!; [done|done|done|]. rewrite difference_union_distr_l_L, difference_diag_L.
  by rewrite Hsh, union_empty_l_L.
Qed.

Lemma holding_new_ssl v0 g0 cc tr c s k k' :
  holding v0 g0 cc cc tr k -> Tls.ctx tr = Some c -> Tls.ssl tr = None -> ssls (tls_view k) !! s = None -> s ∉ shaken (tls_view k) ->
  eventually (view k) (view k') -> tls_view k' = on_ssls (insert s (default default_config (ctxs (tls_view k) !! c))) (tls_view k) ->
  holding v0 g0 cc cc (Tls.set_ssl (Some s) tr) k'.
Proof.
  intros [Ho Hl Hcl Hc Hs Hb] Htr Hnone Hnew Hsh (d & _ & Hv) Hg. rewrite Htr in Hc. destruct Hc as [Hcn Hc].
  rewrite Hc, lookup_insert_eq in Hg. cbn in Hg. rewrite Hnone in Hs. destruct Hs as [Hs Hsh'].
  split; rewrite ?Hg, ?Hv; cbn; rewrite ?Htr; try done. rewrite Hsh', Hs in *. split_and!; [done|done|done|].
  apply set_eq. intros x. rewrite elem_of_difference, elem_of_singleton. split; [tauto|]. intros Hx. split; [done|]. by intros ->.
Qed.

Lemma init_ssl_spec fuel v0 g0 cc tr c k :
  holding v0 g0 cc cc tr k -> Tls.ctx tr = Some c -> Tls.ssl tr = None ->
  wp spins (Tls.init_ssl fuel c tr) (init_post v0 g0 (with_host (Tls.domain tr) cc) (Tls.socket tr)) k.
Proof.
  intros Hh Hctx Hssl. unfold Tls.init_ssl. wp_step. apply wp_sys. pose proof (law_ssl_new c k) as Hl.
  destruct (SSL_new c k) as [[s|] k1]; destruct Hl as [Hv1 Hg1].
  2: { assert (Tls.set_ssl None tr = tr) as -> by (destruct tr; cbn in *; by subst). eapply fail_spec, holding_later; [exact Hh|done|done]. }
  destruct Hg1 as (Hnew & Hsh & Hg1). pose proof (holding_new_ssl _ _ _ _ _ _ _ _ Hh Hctx Hssl Hnew Hsh Hv1 Hg1) as Hh1.
  set (tr1 := Tls.set_ssl (Some s) tr) in *. change (Tls.socket tr) with (Tls.socket tr1). wp_step. apply wp_sys. pose proof (law_bio_new k1) as Hl.
  destruct (BIO_new_socket k1) as [[b|] k2]; destruct Hl as [Hv2 Hg2]; [|eapply fail_spec, holding_later; [exact Hh1|done|done]].
  destruct Hg2 as [Hb Hg2]. do 4 wp_step.
  set (k4 := SSL_set_bio s b (BIO_set_fd_nbio b (SocketFd.get (Tls.socket tr1)) k2)).
  assert (Hh4 : holding v0 g0 cc cc tr1 k4).
  { destruct (law_bio_set_fd b (SocketFd.get (Tls.socket tr1)) k2) as [Hv3 Hg3].
    destruct (law_set_bio s b (BIO_set_fd_nbio b (SocketFd.get (Tls.socket tr1)) k2)) as [Hv4 Hg4]. fold k4 in Hv4, Hg4.
    eapply holding_later; [exact Hh1|etrans; [exact Hv2|etrans; [exact Hv3|exact Hv4]]|]. rewrite Hg4, Hg3, Hg2.
    unfold on_bios. destruct (tls_view k1) as [a1 a2 a3 a4]. cbn in *. f_equal. by apply forget_fd. }
  clearbody k4. clear Hh1 Hv1 Hv2 Hg1 Hg2. wp_step. eapply wp_mono; [apply set_host_spec|].
  intros named k5 (Hv5 & f & Hg5 & Hf). cbv beta. pose proof (holding_host _ _ _ _ f _ s _ _ Hh4 eq_refl Hv5 Hg5) as Hh5.
  destruct named; cbn [negb]; [|by eapply fail_spec]. rewrite (Hf eq_refl) in Hh5. clear Hf Hg5 Hv5 Hh4.
  change (Tls.domain tr1) with (Tls.domain tr) in Hh5. do 2 wp_step. destruct (law_connect_state s k5) as [Hv6 Hg6].
  pose proof (holding_later _ _ _ _ _ _ _ Hh5 Hv6 Hg6) as Hh6. wp_step. eapply wp_mono; [apply handshake_spec|].
  intros shaken_ k7 [Hv7 Hg7]. cbv beta. destruct shaken_; cbn [negb]; [|eapply fail_spec, holding_later; [exact Hh6|done|done]].
  pose proof (holding_shaken _ _ _ _ _ s _ _ Hh6 eq_refl Hv7 Hg7) as Hh7. wp_step. apply wp_gets.
  destruct (SSL_verify_result_ok s k7) eqn:Hver; cbn [negb]; [|by eapply fail_spec]. wp_step. apply wp_gets.
  case_bool_decide as Hproto; cbn [negb]; [|by eapply fail_spec]. apply wp_ret. split_and!; [done|done| |].
  - eexists _, _. apply holding_ready. exact Hh7.
  - intros _. exists s. split_and!; [done| | |done|done].
    + destruct Hh7 as [_ _ _ _ (_ & Hs & _) _]. rewrite Hs. apply lookup_insert_eq.
    + rewrite Hg7. apply fd_in.
Qed.

Definition trust_of tr : Trust := if Tls.customCert tr then FileTrust (c_str (Tls.certFile tr)) else SystemTrust.

(** What a ready transport has asked of its peer. *)
Definition required tr : TlsConfig := with_host (Tls.domain tr) (mk_config true (trust_of tr) true Tls.alpnProtocols None).

Lemma trust_spec E c tr k :
  wp E (Tls.trust c tr) (fun r k' => eventually (view k) (view k') /\
    tls_view k' = if r =? 1
      then on_ctxs (alter (fun g => mk_config (verify_peer g) (trust_of tr) (tls12 g) (alpn g) (expected_host g)) c) (tls_view k)
      else tls_view k) k.
Proof.
  unfold Tls.trust, trust_of. destruct (Tls.customCert tr); apply wp_sys.
  - pose proof (law_load_locations c (c_str (Tls.certFile tr)) k) as Hl. by destruct (SSL_CTX_load_verify_locations _ _ _).
  - pose proof (law_default_paths c k) as Hl. by destruct (SSL_CTX_set_default_verify_paths _ _).
Qed.

Lemma holding_new_ctx v0 g0 tr c k k' :
  holding v0 g0 default_config default_config tr k -> Tls.ctx tr = None -> ctxs (tls_view k) !! c = None ->
  eventually (view k) (view k') -> tls_view k' = on_ctxs (insert c default_config) (tls_view k) ->
  holding v0 g0 default_config default_config (Tls.set_ctx (Some c) tr) k'.
Proof.
  intros [Ho Hl Hcl Hc Hs Hb] Htr Hnew (d & _ & Hv) Hg. rewrite Htr in Hc.
  split; rewrite ?Hg, ?Hv; cbn; try done. rewrite Hc in *. done.
Qed.

Lemma init_ctx_spec fuel v0 g0 tr k :
  holding v0 g0 default_config default_config tr k -> Tls.ctx tr = None -> Tls.ssl tr = None ->
  wp spins (Tls.init_ctx fuel tr) (init_post v0 g0 (required tr) (Tls.socket tr)) k.
Proof.
  intros Hh Hctx Hssl. unfold Tls.init_ctx. wp_step. apply wp_sys. pose proof (law_ctx_new k) as Hl.
  destruct (SSL_CTX_new k) as [[c|] k1]; destruct Hl as [Hv1 Hg1].
  2: { assert (Tls.set_ctx None tr = tr) as -> by (destruct tr; cbn in *; by subst). eapply fail_spec, holding_later; [exact Hh|done|done]. }
  destruct Hg1 as [Hnew Hg1]. pose proof (holding_new_ctx _ _ _ _ _ _ Hh Hctx Hnew Hv1 Hg1) as Hh1. clear Hv1 Hg1.
  set (tr1 := Tls.set_ctx (Some c) tr) in *. change (Tls.socket tr) with (Tls.socket tr1). change (required tr) with (required tr1).
  do 2 wp_step. destruct (law_verify_peer c k1) as [Hv2 Hg2].
  assert (Hh2 : forall cs, holding v0 g0 default_config cs tr1 k1) by (intros cs; destruct Hh1; split; try done; cbn in *; by rewrite Hssl in *).
  pose proof (fun cs => holding_config _ _ _ _ _ _ c _ _ (Hh2 cs) eq_refl Hv2 Hg2) as Hh3. clear Hh1 Hh2 Hv2 Hg2. cbn [verify_peer trusted tls12 alpn expected_host default_config] in Hh3.
  wp_step. eapply wp_mono; [apply trust_spec|]. intros r k3 [Hv3 Hg3]. cbv beta. destruct (r =? 1); cbn [negb].
  2: { eapply fail_spec, holding_later; [apply (Hh3 default_config)|done|done]. }
  pose proof (fun cs => holding_config _ _ _ _ _ _ c _ _ (Hh3 cs) eq_refl Hv3 Hg3) as Hh4. clear Hh3 Hv3 Hg3. cbn [verify_peer trusted tls12 alpn expected_host default_config] in Hh4.
  wp_step. apply wp_sys. pose proof (law_min_proto c k3) as Hl. destruct (SSL_CTX_set_min_proto_tls12 c k3) as [r4 k4].
  destruct Hl as [Hv4 Hg4]. destruct (r4 =? 1); cbn [negb].
  2: { eapply fail_spec, holding_later; [apply (Hh4 default_config)|done|done]. }
  pose proof (fun cs => holding_config _ _ _ _ _ _ c _ _ (Hh4 cs) eq_refl Hv4 Hg4) as Hh5. clear Hh4 Hv4 Hg4. cbn [verify_peer trusted tls12 alpn expected_host default_config] in Hh5.
  wp_step. apply wp_sys. pose proof (law_alpn_protos c Tls.alpnProtocols k4) as Hl. destruct (SSL_CTX_set_alpn_protos c _ k4) as [r5 k5].
  destruct Hl as [Hv5 Hg5]. destruct (r5 =? 0); cbn [negb].
  2: { eapply fail_spec, holding_later; [apply (Hh5 default_config)|done|done]. }
  pose proof (fun cs => holding_config _ _ _ _ _ _ c _ _ (Hh5 cs) eq_refl Hv5 Hg5) as Hh6.
  apply init_ssl_spec; [apply Hh6|done|done].
Qed.

Lemma tls_init_spec fuel sec v0 g0 tr k :
  holding v0 g0 default_config default_config tr k -> Tls.ctx tr = None -> Tls.ssl tr = None ->
  wp spins (Tls.init fuel sec tr) (init_post v0 g0 (required tr) (Tls.socket tr)) k.
Proof.
  intros Hh Hctx Hssl. unfold Tls.init. destruct (SocketFd.valid (Tls.socket tr)); cbn [negb]; [|by eapply fail_spec].
  wp_step. eapply wp_mono; [apply non_blocking_spec|]. intros ok k1 (Hg1 & Ho1 & Hl1 & Hcl1). cbv beta.
  pose proof (holding_same _ _ _ _ _ _ _ Hh Hg1 Ho1 Hl1 Hcl1) as Hh1. destruct ok; cbn [negb]; [|by eapply fail_spec].
  wp_step. eapply wp_mono; [apply keep_alive_spec|]. intros u k2 (Hg2 & Ho2 & Hl2 & Hcl2). cbv beta.
  apply init_ctx_spec; [|done|done]. by eapply holding_same.
Qed.

Lemma holding_fresh fd dom cert k : holding (view k) (tls_view k) default_config default_config (Tls.make fd dom cert) k.
Proof. by split. Qed.

(** ** The theorems *)

(** A transport over the socket [fd], as the factory makes it. *)
Definition fresh (fd : Z) (tr : StreamTransport) : Prop :=
  match tr with
  | tcp tr => tr = Tcp.make fd
  | tls tr => exists dom cert, tr = Tls.make fd dom cert
  end.

(** The life of a transport: initialised, perhaps closed, destroyed. *)
Definition life (fuel : nat) (sec : Z) (close : bool) (tr : StreamTransport) : st K bool :=
  r <- transport_init fuel sec tr ;;
  tr <- (if close then transport_close (snd r) else ret (snd r)) ;;
  transport_destroy tr ;;;
  ret (fst r).

(** C38: a transport gives back everything it took.  Whatever the outcome of
    [init] and whether or not it is closed before it is destroyed, at the
    end its descriptor has been closed: [close] has been called with it,
    exactly once, and with nothing else.  Every context, connection and BIO
    of the TLS library it made has been freed; freeing one that is not there
    any more is a call whose effect the library does not promise, so none is
    freed twice.  Nothing else has been touched.  Only a handshake that never
    ends keeps it. *)
Theorem transport_releases_all fuel sec close fd (tr : StreamTransport) (k : K) :
  fresh fd tr -> fd <> INVALID_SOCKET ->
  match life fuel sec close tr k with
  | Ok (_, k') => tls_view k' = tls_view k /\ open_fds (view k') = open_fds (view k) ∖ {[fd]} /\
      address_lists (view k') = address_lists (view k) /\ closes (view k') = fd :: closes (view k)
  | Fault f => f = Hangs
  end.
Proof.
  intros Hfresh Hfd. enough (Hlife : wp spins (life fuel sec close tr) (fun _ => released (view k) (tls_view k) fd) k).
  { unfold wp, released in Hlife. by destruct (life fuel sec close tr k) as [[b k']|f]. }
  unfold life. destruct tr as [tr|tr]; cbn [fresh transport_init] in *.
  - subst tr. do 2 wp_step. eapply (wp_mono _ (fun r k' => Tcp.socket (snd r) = fd /\ still k k')).
    { unfold Tcp.init, Tcp.make. cbn [Tcp.socket]. destruct (SocketFd.valid fd); cbn [negb]; [|by apply wp_ret].
      wp_step. eapply wp_mono; [apply non_blocking_spec|]. intros ok k1 Hk1. cbv beta. destruct ok; cbn [negb]; [|by apply wp_ret].
      wp_step. eapply wp_mono; [apply keep_alive_spec|]. intros u k2 Hk2. apply wp_ret. split; [done|by eapply still_trans]. }
    intros r k1 (Hs & Hg1 & Ho1 & Hl1 & Hcl1). do 2 wp_step. cbn [fst snd].
    assert (Hdestroy : forall E (tr2 : Tcp.t) k2, Tcp.socket tr2 = fd -> tls_view k2 = tls_view k -> open_fds (view k2) = open_fds (view k) ->
      address_lists (view k2) = address_lists (view k) -> closes (view k2) = closes (view k) ->
      wp E (SocketFd.reset INVALID_SOCKET (Tcp.socket tr2)) (fun s k' => s = INVALID_SOCKET /\ released (view k) (tls_view k) fd k') k2).
    { intros E tr2 k2 -> Hg2 Ho2 Hl2 Hcl2. eapply wp_mono; [by apply reset_spec|]. intros s k3 (-> & Hg3 & Ho3 & Hl3 & Hcl3). unfold released.
      split_and!; congruence. }
    destruct close.
    + cbn [transport_close]. wp_step. unfold Tcp.close. rewrite Hs. unfold SocketFd.valid.
      destruct (Z.eqb_spec fd INVALID_SOCKET); [done|]. cbn [negb]. wp_step. eapply wp_mono; [apply shutdown_spec|].
      intros b k2 (Hg2 & Ho2 & Hl2 & Hcl2). cbv beta. wp_step. rewrite <- Hs. eapply wp_mono; [apply Hdestroy; congruence|].
      intros s k3 [-> Hr]. rewrite Hs. exact Hr.
    + wp_step. cbn [transport_destroy]. unfold Tcp.destroy, SocketFd.destroy. do 2 wp_step. eapply wp_mono; [by apply Hdestroy|].
      intros s k3 [-> Hr]. by do 2 wp_step.
  - destruct Hfresh as (dom & cert & ->). do 2 wp_step.
    eapply wp_mono; [apply tls_init_spec; [apply holding_fresh|done|done]|]. intros r k1 (Hs & _ & (cc & cs & Hh) & _). cbv beta in *.
    cbn [Tls.socket Tls.make] in Hs. do 2 wp_step. cbn [fst snd]. destruct close; cbn [transport_close].
    + wp_step. eapply wp_mono; [eapply tls_close_spec; [exact Hh|congruence]|]. intros tr2 k2 (Hs2 & Hl2 & Hc2 & Hr2). do 2 wp_step.
      eapply wp_mono; [by apply tls_destroy_closed|]. intros u k3 ->. apply wp_ret. by rewrite <- Hs.
    + do 2 wp_step. eapply wp_mono; [eapply tls_destroy_spec; [exact Hh|congruence]|]. intros u k3 Hr3. apply wp_ret. by rewrite <- Hs.
Qed.

(** C39: a TLS transport that is ready has authenticated its peer: [init]
    returns true only after a complete handshake in which peers had to
    present a certificate, verified against the user's file or the system's
    trust, for the domain when there is one, over TLS 1.2 or later, and the
    peer has selected "h2". *)
Theorem tls_ready_authenticated fuel sec fd dom cert (k : K) tr k' :
  Tls.init fuel sec (Tls.make fd dom cert) k = Ok (true, tr, k') ->
  Tls.isReady tr = true /\
  exists s cfg, Tls.ssl tr = Some s /\ ssls (tls_view k') !! s = Some cfg /\
    verify_peer cfg = true /\ tls12 cfg = true /\ alpn cfg = z2b 2 :: bs "h2" /\
    trusted cfg = match cert with [] => SystemTrust | _ => FileTrust (c_str cert) end /\
    expected_host cfg = match dom with [] => None | _ => Some (c_str dom) end /\
    s ∈ shaken (tls_view k') /\ SSL_verify_result_ok s k' = true /\ SSL_alpn_selected s k' = bs "h2".
Proof.
  intros Hrun. pose proof (tls_init_spec fuel sec _ _ _ _ (holding_fresh fd dom cert k) eq_refl eq_refl) as Hs.
  apply (wp_inv _ _ _ _ _ _ Hs) in Hrun as (_ & Hr & _ & Ha). split; [done|]. destruct (Ha eq_refl) as (s & ? & ? & ? & ? & ?).
  exists s, (required (Tls.make fd dom cert)). unfold required, trust_of. destruct dom, cert; done.
Qed.

(** *** Reads and writes *)

(** What the manual pages of [send], [recv] and [SSL_get_error] say a result
    means: bytes have moved, the peer has closed, try again later, failure. *)
Inductive socket_means (ret err : Z) : IOState -> Z -> Prop :=
| socket_moved : 0 < ret -> socket_means ret err OK ret
| socket_eof : ret = 0 -> socket_means ret err CLOSED_ 0
| socket_again : ret < 0 -> err ∈ [EAGAIN; EWOULDBLOCK] -> socket_means ret err WOULD_BLOCK 0
| socket_reset : ret < 0 -> (err ∉ [EAGAIN; EWOULDBLOCK]) -> err ∈ [EPIPE; ECONNRESET] -> socket_means ret err CLOSED_ 0
| socket_failed : ret < 0 -> (err ∉ [EAGAIN; EWOULDBLOCK; EPIPE; ECONNRESET]) -> socket_means ret err ERR 0.

Inductive ssl_means (ret err : Z) : IOState -> Z -> Prop :=
| ssl_moved : 0 < ret -> ssl_means ret err OK ret
| ssl_again : ret <= 0 -> err ∈ [SSL_ERROR_WANT_READ; SSL_ERROR_WANT_WRITE] -> ssl_means ret err WOULD_BLOCK 0
| ssl_eof : ret <= 0 -> (err ∉ [SSL_ERROR_WANT_READ; SSL_ERROR_WANT_WRITE]) -> err = SSL_ERROR_ZERO_RETURN -> ssl_means ret err CLOSED_ 0
| ssl_failed : ret <= 0 -> (err ∉ [SSL_ERROR_WANT_READ; SSL_ERROR_WANT_WRITE; SSL_ERROR_ZERO_RETURN]) -> ssl_means ret err ERR 0.

(** Whether a transport can be used at all. *)
Definition usable (tr : StreamTransport) : bool :=
  match tr with tcp tr => Tcp.ready tr | tls tr => Tls.ready tr && Tls.has_ssl tr end.

(** Writing [data], and reading at most [len] bytes: the system or the TLS
    library is called once, on the transport's own socket or connection, with
    all of [data], and what it answers is passed on; but it is not called by a
    transport that is not ready, nor for no bytes, nor without a socket, which
    counts as an answer of -1. *)
Inductive wrote (data : bytes) (k : K) : StreamTransport -> IOResult -> K -> Prop :=
| wrote_unusable (tr : StreamTransport) : usable tr = false -> wrote data k tr (mk_io ERR 0) k
| wrote_nothing (tr : StreamTransport) : usable tr = true -> data = [] -> wrote data k tr (mk_io OK 0) k
| wrote_closed state n : data <> [] -> socket_means (-1) (errno k) state n ->
    wrote data k (tcp (Tcp.mk INVALID_SOCKET true)) (mk_io state n) k
| wrote_socket fd ret k' state n : fd <> INVALID_SOCKET -> data <> [] -> sys_send fd data k = (ret, k') ->
    socket_means ret (errno k') state n -> wrote data k (tcp (Tcp.mk fd true)) (mk_io state n) k'
| wrote_ssl fd dom cert custom c s ret k' state n : data <> [] -> SSL_write s data (zlen data) k = (ret, k') ->
    ssl_means ret (SSL_get_error s ret k') state n ->
    wrote data k (tls (Tls.mk fd dom cert custom true (Some s) c)) (mk_io state n) k'.

Inductive was_read (len : Z) (k : K) : StreamTransport -> IOResult -> bytes -> K -> Prop :=
| read_unusable (tr : StreamTransport) : usable tr = false -> was_read len k tr (mk_io ERR 0) [] k
| read_nothing (tr : StreamTransport) : usable tr = true -> len = 0 -> was_read len k tr (mk_io OK 0) [] k
| read_closed state n : len <> 0 -> socket_means (-1) (errno k) state n ->
    was_read len k (tcp (Tcp.mk INVALID_SOCKET true)) (mk_io state n) [] k
| read_socket fd ret data k' state n : fd <> INVALID_SOCKET -> len <> 0 -> sys_recv fd len k = ((ret, data), k') ->
    socket_means ret (errno k') state n -> was_read len k (tcp (Tcp.mk fd true)) (mk_io state n) data k'
| read_ssl fd dom cert custom c s ret data k' state n : len <> 0 -> SSL_read s len k = ((ret, data), k') ->
    ssl_means ret (SSL_get_error s ret k') state n ->
    was_read len k (tls (Tls.mk fd dom cert custom true (Some s) c)) (mk_io state n) data k'.

Lemma tcp_result_means len ret err :
  len <> 0 -> exists state n, tcp_result true len ret err = mk_io state n /\ socket_means ret err state n.
Proof.
  intros Hlen. unfold tcp_result. cbn [negb]. destruct (Z.eqb_spec len 0); [done|]. rewrite Z.gtb_ltb.
  destruct (Z.ltb_spec 0 ret); [do 2 eexists; split; [done|by constructor]|].
  destruct (Z.eqb_spec ret 0); [do 2 eexists; split; [done|by constructor]|].
  assert (Hneg : ret < 0) by lia. unfold isWouldBlock, isConnectionReset.
  destruct ((err =? EAGAIN) || (err =? EWOULDBLOCK)) eqn:Hagain.
  { do 2 eexists. split; [done|]. apply socket_again; [done|]. rewrite !elem_of_cons. apply orb_true_iff in Hagain as []; bool_to_prop; tauto. }
  apply orb_false_iff in Hagain as [Hne1 Hne2]. bool_to_prop.
  assert (Hno : err ∉ [EAGAIN; EWOULDBLOCK]) by (rewrite !elem_of_cons; intros [|[|?%elem_of_nil]]; done).
  destruct ((err =? EPIPE) || (err =? ECONNRESET)) eqn:Hreset.
  { do 2 eexists. split; [done|]. apply socket_reset; [done|done|]. rewrite !elem_of_cons. apply orb_true_iff in Hreset as []; bool_to_prop; tauto. }
  apply orb_false_iff in Hreset as [Hne3 Hne4]. bool_to_prop. do 2 eexists. split; [done|]. apply socket_failed; [done|].
  rewrite !elem_of_cons. intros [|[|[|[|?%elem_of_nil]]]]; done.
Qed.

Lemma tls_result_means len ret err :
  len <> 0 -> exists state n, tls_result true true len ret err = mk_io state n /\ ssl_means ret err state n.
Proof.
  intros Hlen. unfold tls_result. cbn [negb orb]. destruct (Z.eqb_spec len 0); [done|]. rewrite Z.gtb_ltb.
  destruct (Z.ltb_spec 0 ret) as [|Hneg]; [do 2 eexists; split; [done|by constructor]|].
  destruct ((err =? SSL_ERROR_WANT_READ) || (err =? SSL_ERROR_WANT_WRITE)) eqn:Hagain.
  { do 2 eexists. split; [done|]. apply ssl_again; [done|]. rewrite !elem_of_cons. apply orb_true_iff in Hagain as []; bool_to_prop; tauto. }
  apply orb_false_iff in Hagain as [Hne1 Hne2]. bool_to_prop.
  assert (Hno : err ∉ [SSL_ERROR_WANT_READ; SSL_ERROR_WANT_WRITE]) by (rewrite !elem_of_cons; intros [|[|?%elem_of_nil]]; done).
  destruct (Z.eqb_spec err SSL_ERROR_ZERO_RETURN); [do 2 eexists; split; [done|by apply ssl_eof]|].
  do 2 eexists. split; [done|]. apply ssl_failed; [done|]. rewrite !elem_of_cons. intros [|[|[|?%elem_of_nil]]]; done.
Qed.

Lemma write_spec E data (tr : StreamTransport) k :
  zlen data < 2 ^ 31 -> wp E (transport_writeSome data tr) (fun r k' => wrote data k tr r k') k.
Proof.
  intros Hlen. pose proof (zlen_nonneg data). destruct tr as [[fd rdy]|[fd dom cert custom rdy s c]]; cbn [transport_writeSome].
  - unfold Tcp.writeSome. cbn [Tcp.ready Tcp.socket]. destruct rdy; cbn [negb orb]; [|apply wp_ret; by constructor].
    destruct (Z.eqb_spec (zlen data) 0) as [Hz|Hz].
    { apply wp_ret. unfold tcp_writeSome, tcp_result. rewrite Hz. apply wrote_nothing; [done|by apply zlen_0_nil]. }
    assert (data <> []) by (by intros ->).
    wp_step. unfold SocketFd.write, SocketFd.valid. destruct (Z.eqb_spec fd INVALID_SOCKET) as [->|Hv]; cbn [negb].
    { do 2 wp_step. apply wp_gets, wp_ret. unfold tcp_writeSome.
      destruct (tcp_result_means (zlen data) (-1) (errno k) Hz) as (st & m & -> & Hm). by eapply wrote_closed. }
    apply wp_sys. destruct (sys_send fd data k) as [ret k'] eqn:Hs. wp_step. apply wp_gets, wp_ret. unfold tcp_writeSome.
    destruct (tcp_result_means (zlen data) ret (errno k') Hz) as (st & m & -> & Hm). by eapply wrote_socket.
  - unfold Tls.writeSome. cbn [Tls.ready Tls.ssl]. destruct s as [s|].
    2: { apply wp_ret. unfold tls_writeSome, tls_result. rewrite orb_true_r. constructor. cbn. by rewrite andb_false_r. }
    destruct rdy; cbn [negb orb]; [|apply wp_ret; by constructor]. destruct (Z.eqb_spec (zlen data) 0) as [Hz|Hz].
    { apply wp_ret. unfold tls_writeSome, tls_result. rewrite Hz. apply wrote_nothing; [done|by apply zlen_0_nil]. }
    assert (data <> []) by (by intros ->).
    wp_step. rewrite i32_small by lia. apply wp_sys. destruct (SSL_write s data (zlen data) k) as [ret k'] eqn:Hs. wp_step. apply wp_gets, wp_ret.
    unfold tls_writeSome. destruct (tls_result_means (zlen data) ret (SSL_get_error s ret k') Hz) as (st & m & -> & Hm). by eapply wrote_ssl.
Qed.

Lemma read_spec E len (tr : StreamTransport) k :
  0 <= len < 2 ^ 31 -> wp E (transport_readSome len tr) (fun r k' => was_read len k tr (fst r) (snd r) k') k.
Proof.
  intros Hlen. destruct tr as [[fd rdy]|[fd dom cert custom rdy s c]]; cbn [transport_readSome].
  - unfold Tcp.readSome. cbn [Tcp.ready Tcp.socket]. destruct rdy; cbn [negb orb]; [|apply wp_ret; by constructor].
    destruct (Z.eqb_spec len 0) as [->|Hz]; [apply wp_ret; by apply read_nothing|].
    wp_step. unfold SocketFd.read, SocketFd.valid. destruct (Z.eqb_spec fd INVALID_SOCKET) as [->|Hv]; cbn [negb].
    { do 2 wp_step. apply wp_gets, wp_ret. cbn [fst snd]. unfold tcp_readSome.
      destruct (tcp_result_means len (-1) (errno k) Hz) as (st & m & -> & Hm). by eapply read_closed. }
    unfold socketRecv.
    apply wp_sys. destruct (sys_recv fd len k) as [[ret data] k'] eqn:Hs. wp_step. apply wp_gets, wp_ret. cbn [fst snd]. unfold tcp_readSome.
    destruct (tcp_result_means len ret (errno k') Hz) as (st & m & -> & Hm). by eapply read_socket.
  - unfold Tls.readSome. cbn [Tls.ready Tls.ssl]. destruct s as [s|].
    2: { apply wp_ret. cbn [fst snd]. unfold tls_readSome, tls_result. rewrite orb_true_r. constructor. cbn. by rewrite andb_false_r. }
    destruct rdy; cbn [negb orb]; [|apply wp_ret; by constructor].
    destruct (Z.eqb_spec len 0) as [->|Hz]; [apply wp_ret; by apply read_nothing|].
    wp_step. rewrite i32_small by lia. apply wp_sys. destruct (SSL_read s len k) as [[ret data] k'] eqn:Hs. wp_step. apply wp_gets, wp_ret.
    cbn [fst snd]. unfold tls_readSome.
    destruct (tls_result_means len ret (SSL_get_error s ret k') Hz) as (st & m & -> & Hm). by eapply read_ssl.
Qed.

Lemma socket_means_ok len ret err state n : 0 <= len -> ret <= len -> socket_means ret err state n -> io_ok len (mk_io state n).
Proof. intros Hlen Hr []; split; cbn; (lia || done). Qed.
Lemma ssl_means_ok len ret err state n : 0 <= len -> (0 < ret -> ret <= len) -> ssl_means ret err state n -> io_ok len (mk_io state n).
Proof. intros Hlen Hr []; split; cbn; (lia || done). Qed.

Lemma wrote_ok data (tr : StreamTransport) k r k' : wrote data k tr r k' -> io_ok (zlen data) r.
Proof.
  pose proof (zlen_nonneg data).
  intros [tr' Hu|tr' Hu Hz|st n Hd Hm|fd ret k1 st n Hfd Hd Hs Hm|fd dom cert custom c s ret k1 st n Hd Hs Hm]; [split; cbn; (lia || done)..| | |].
  - eapply socket_means_ok; [done| |done]. lia.
  - eapply socket_means_ok; [done| |done]. pose proof (law_send fd data k) as Hl. rewrite Hs in Hl. lia.
  - eapply ssl_means_ok; [done| |done]. pose proof (law_ssl_write s data (zlen data) k) as Hl. rewrite Hs in Hl. lia.
Qed.

Lemma was_read_ok len (tr : StreamTransport) k r data k' :
  0 <= len -> was_read len k tr r data k' -> io_bytes r <= len /\ (state r <> OK -> io_bytes r = 0) /\ zlen data = io_bytes r.
Proof.
  intros Hlen [tr' Hu|tr' Hu Hz|st n Hz Hm|fd ret d k1 st n Hfd Hd Hs Hm|fd dom cert custom c s ret d k1 st n Hd Hs Hm]; cbn [io_bytes state];
    [by split_and!..| | |].
  - destruct Hm; split_and!; (lia || done).
  - pose proof (law_recv fd len k) as Hl. rewrite Hs in Hl. destruct Hl as (_ & Hr & ->). specialize (Hr Hlen).
    destruct Hm; split_and!; (lia || done).
  - pose proof (law_ssl_read s len k) as Hl. rewrite Hs in Hl. destruct Hl as (_ & _ & Hr & ->).
    destruct Hm; split_and!; (lia || done).
Qed.

(** C40: reads and writes do what the manual pages of the calls behind them
    say.  A transport that is not ready answers ERR and one asked for no
    bytes OK, without a call; otherwise, if it has a socket, [send], [recv], [SSL_write] or
    [SSL_read] is called, once, with all the data, and its result means: OK
    and the number of bytes when bytes have moved; CLOSED at the end of the
    stream or after a reset; WOULD_BLOCK when it asks to be called again
    (EAGAIN, EWOULDBLOCK, WANT_READ, WANT_WRITE); ERR for any other error.
    So the results are those the session is verified against: at most the
    bytes asked for move, none without OK, and a read delivers exactly the
    bytes it reports.  Over TLS, for buffers whose size fits an [int]. *)
Theorem transport_io_contract (tr : StreamTransport) (k : K) :
  (forall data, zlen data < 2 ^ 31 ->
     exists r k', transport_writeSome data tr k = Ok (r, k') /\ wrote data k tr r k' /\
       writes_ok [r] /\ io_bytes r <= zlen data /\ (state r <> OK -> io_bytes r = 0)) /\
  (forall len, 0 <= len < 2 ^ 31 ->
     exists r data k', transport_readSome len tr k = Ok ((r, data), k') /\ was_read len k tr r data k' /\
       io_bytes r <= len /\ reads_bytes [(state r, data)] = io_bytes r).
Proof.
  split.
  - intros data Hlen. pose proof (wp_run _ _ _ (write_spec no_fault data tr k Hlen)) as (r & k' & Hrun & Hw). exists r, k'.
    destruct (wrote_ok _ _ _ _ _ Hw) as [? ?]. split_and!; [done|done| |lia|done]. constructor; [lia|constructor].
  - intros len Hlen. pose proof (wp_run _ _ _ (read_spec no_fault len tr k Hlen)) as ([r data] & k' & Hrun & Hr). exists r, data, k'.
    destruct (was_read_ok _ _ _ _ _ _ (proj1 Hlen) Hr) as (Hle & _ & Hd). cbn [fst snd] in *. split_and!; [done|done|exact Hle|].
    unfold reads_bytes. cbn [map fold_right snd]. lia.
Qed.
End transport.

(** ** A run *)

#[local] Instance example_posix : Posix (Sim SimTls) := sim_posix example_hosts example_route.
#[local] Instance example_laws : PosixLaws (Sim SimTls) := sim_laws example_hosts example_route.
#[local] Instance example_openssl : OpenSSL (Sim SimTls) := sim_openssl true (bs "h2").
#[local] Instance example_openssl_laws : OpenSslLaws (Sim SimTls) := sim_openssl_laws example_hosts example_route true (bs "h2").

(** A TLS transport made by the factory. *)
Definition example_created : (bytes + StreamTransport) * Sim SimTls :=
  match create 1 (Endpoint.mk (bs "two") 443 true [] [] [] TCP) 100 (sim_init sim_tls_init) with
  | Ok r => r
  | Fault _ => (inl [], sim_init sim_tls_init)
  end.

Example example_created_fresh : exists k, example_created = (inr (tls (Tls.make 4 (bs "two") [])), k) /\ elements (open_fds (sim_view k)) = [4].
Proof. eexists. split; [by vm_compute|by vm_compute]. Qed.

Lemma transport_releases_all_witness :
  let tr := tls (Tls.make 4 (bs "two") []) in
  let k := snd example_created in
  fresh 4 tr /\ elements (open_fds (sim_view k)) = [4] /\
  exists b k', life 1 60 true tr k = Ok (b, k') /\ open_fds (sim_view k') = open_fds (sim_view k) ∖ {[4]} /\
    closes (sim_view k') = 4 :: closes (sim_view k).
Proof.
  intros tr k. assert (Hf : fresh 4 tr) by (exists (bs "two"), []; done). split; [exact Hf|]. split; [by vm_compute|].
  pose proof (transport_releases_all 1 60 true 4 tr k Hf ltac:(done)) as Hr.
  destruct (life 1 60 true tr k) as [[b k']|f] eqn:Hl; [|exfalso; revert Hl; by vm_compute].
  exists b, k'. destruct Hr as (_ & Ho & _ & Hc). split_and!; [done|exact Ho|exact Hc].
Defined.

Definition example_ready : bool * Tls.t * Sim SimTls :=
  match Tls.init 1 60 (Tls.make 4 (bs "two") []) (snd example_created) with
  | Ok r => r
  | Fault _ => (false, Tls.make 4 (bs "two") [], snd example_created)
  end.

Lemma tls_ready_authenticated_witness :
  let '(_, tr, k) := example_ready in
  exists s cfg, Tls.ssl tr = Some s /\ ssls (sim_tls k) !! s = Some cfg /\ verify_peer cfg = true /\ expected_host cfg = Some (bs "two").
Proof.
  destruct example_ready as [[b tr] k] eqn:He. assert (b = true) as -> by (change b with (b, tr, k).1.1; rewrite <- He; by vm_compute).
  destruct (tls_ready_authenticated 1 60 4 (bs "two") [] (snd example_created) tr k) as (_ & s & cfg & ? & ? & ? & _ & _ & _ & ? & _).
  - rewrite <- He. by vm_compute.
  - by exists s, cfg.
Defined.

Lemma transport_io_contract_witness :
  let tr := tls (snd (fst example_ready)) in
  let k := snd example_ready in
  zlen (bs "data") < 2 ^ 31 /\ exists k', transport_writeSome (bs "data") tr k = Ok (mk_io OK 4, k') /\ wrote (bs "data") k tr (mk_io OK 4) k'.
Proof.
  intros tr k. assert (Hlen : zlen (bs "data") < 2 ^ 31) by (by vm_compute). split; [exact Hlen|].
  destruct (proj1 (transport_io_contract tr k) (bs "data") Hlen) as (r & k' & Hrun & Hw & _).
  assert (r = mk_io OK 4) as ->.
  { assert (Hr : match transport_writeSome (bs "data") tr k with Ok (r, _) => r | Fault _ => mk_io ERR 0 end = mk_io OK 4) by (by vm_compute).
    by rewrite Hrun in Hr. }
  by exists k'.
Defined.
